(* ===== verification/_CoqProject ===== *)
-Q . S2P
Prelude.v
Common.v
Collections.v
Float.v
FloatBounds.v
Bytes.v
Srtp.v
RtpHeader.v
Audio.v
Vp8.v
Packet.v
Replay.v
Nack.v
Rtx.v
Rtcp.v
RtcpReports.v
TransportCc.v
Pacer.v
Ice.v
Googcc.v
RtpEndpoint.v
RtxNonces.v
EndpointDelivery.v
Layers.v
Allocation.v
Forwarders.v
ApprovedUsers.v
Client.v
Connection.v
Call.v
CallHandlers.v
CallSpec.v
CallFacts.v
MediaFacts.v
CallProperties.v
Sfu.v
SfuFacts.v
SfuProperties.v
LoadBalancer.v
Text.v
Authenticator.v
Storage.v
DynamoDb.v
DynamoFacts.v
StorageProperties.v
Backend.v
Frontend.v
FrontendApi.v
FrontendFacts.v
FrontendProperties.v
Lifecycle.v
Signaling.v
Deployment.v
SignalingProperties.v
Sockets.v
ConnectionMap.v
PacketServer.v
Framing.v
ConnectionMapFacts.v
SocketFacts.v
TimerHeapFacts.v
PacketServerFacts.v
SfuServer.v
EventLoopFacts.v
PacketServerProperties.v
