(* ===== verification/Prelude.v ===== *)
(** * Signal-Calling-Service: a verification library

    The group calling service forwards media between the devices of a call.  A
    device asks the frontend to join; the frontend looks the call up in a table,
    or puts it there, and has a backend add the device to it.  From then on the
    device sends RTP packets over ICE to the backend; the packet server receives
    them, the SFU authenticates and decrypts them and lets the call the device
    belongs to decide what to do with them, and the packet server sends what is
    to be sent.  A call that ends is removed from the table.  This library models
    the backend, the frontend and the parts of [src/common/src] they use, as
    functions on explicit state, and proves what they are relied on for.

    ** Conventions

    - The code is modelled as it runs in the release profile: arithmetic on
      machine integers wraps, an integer is a [Z] and the wrapping is written
      out ([u16], [u32], [u64], [checked_add], [saturating_add]).
    - A Rust function that can fail is a function to [Res E A]: [Ok], [Err]
      (also for [None], at [E := unit]) or [Panic]: a failed [assert!], an
      index out of range, an [unwrap] of nothing.  Theorems of the form
      "[exists r, f x = Ok r /\ ..]" therefore include the absence of panics.
    - A method that takes [&mut self] returns the new state.  A handler of a
      call returns [Res Error (Call.t * Res Error A)]: the inner result is the
      one of the Rust function, whose effects up to an error stay.
    - [Instant] and [Duration] are nanoseconds, data rates bits per second and
      sizes bits, all in [Z]; positions in vectors are [nat]; byte strings are
      [list Z] with each element below 256.  A [HashMap] is a [gmap] and a
      [HashSet] a [gset]; iteration takes the order of [map_to_list].
    - Loops that are not structural carry fuel; running out of it is [Panic],
      so a theorem that excludes [Panic] also shows that the fuel is enough.
      The fuel of a parser is one more than the bytes it still has to read.
    - Code outside the repository is a parameter: AES and AES-GCM ([Srtp],
      [Packet]), HMAC-SHA1 and CRC-32 ([Ice]), [f64::powf] ([Googcc]),
      the protobuf codec ([Client.Protos]), the reliable message
      stream ([Client.Mrp]), SM2 and HKDF ([Sfu.Sm2], [Sfu.Hkdf]) and the order in
      which a [HashMap] is iterated over ([RtpEndpoint.HashMapOrder], [Collections.MapOrder]).  [Instant::now()] in a
      constructor is the time of the call that reaches it, and
      [Vec::with_capacity] reserves exactly what is asked for.
    - What goes on outside a process is a world that operations take and return:
      the operating system and the TLS library ([Sockets.Io.Os], [Sockets.Io.Tls]),
      the DynamoDB service ([DynamoDb]), and what answers a frontend
      ([Frontend]).  Their documented behaviour is stated as laws in classes of
      their own ([StreamLaws], [IoLaws], [StorageLaws], [DynamoLaws]),
      which each theorem that needs them names and each witness discharges.
      The heap of dequeues is the list of what is in it, with
      [TimerHeap.HeapOrder] choosing among equal times.

    ** The parts

    - [Prelude]: the outcome monad, record updates, machine integers, byte
      lists, tactics and hints.
    - [Common]: src/common/src integers.rs, bits.rs, math.rs, counters.rs.
    - [Collections]: src/common/src/collections: ring buffer, key-sorted cache
      and two-generation cache, each refining an abstract container.
    - [Float], [FloatBounds]: src/common/src data_rate.rs and time.rs, over
      IEEE-754 numbers; rounding never crosses a representable number.
    - [Bytes]: src/common/src lib.rs, slice.rs, serialize.rs.
    - [Srtp], [RtpHeader], [Packet], [Replay], [Nack], [Rtx]: src/backend/src/rtp:
      keys and nonces, headers with extensions and the dependency descriptor,
      packets and their rewriting and encryption, replay protection, negative
      acknowledgements, retransmission and padding.
    - [Rtcp], [RtcpReports]: src/backend/src/rtp/rtcp.rs: compound packets, their
      parsing and encryption; the statistics of an SSRC and its reports.
    - [TransportCc]: src/backend/src/transportcc.rs: what a receiver acknowledges,
      the feedback format, and what a sender learns from it.
    - [RtpEndpoint]: [Endpoint] of src/backend/src/rtp.rs, which puts the above
      together for one connection.  [RtxNonces]: the retransmissions and padding
      an endpoint encrypts.  [EndpointDelivery]: what one endpoint sends another
      understands.
    - [Pacer]: src/backend/src/pacer.rs: the queues and the budget that space out
      what is sent.
    - [Ice]: src/backend/src/ice.rs: STUN binding requests and responses.
    - [Googcc]: src/backend/src/googcc.rs and googcc/: congestion control; every
      stream is a machine that takes one item and may yield one.
    - [Vp8]: src/backend/src/vp8.rs.  [Audio]: src/backend/src/audio.rs.
    - [Layers]: call_ids.rs, region.rs and the layer and SSRC arithmetic of
      src/backend/src/call.rs.
    - [Allocation]: how call.rs divides a receiver's send rate among videos.
    - [Forwarders]: the forwarders of call.rs, which renumber the packets sent to
      a receiver.
    - [ApprovedUsers]: src/backend/src/call/approval_persistence.rs.
    - [Client], [Call], [CallHandlers]: the state of a participant and of a call
      in call.rs and every operation on them; [tick] sends the updates.
    - [Connection]: src/backend/src/connection.rs: ICE, RTP, RTCP, feedback and pacing
      of one client.
    - [Sfu]: src/backend/src/sfu.rs: the calls and connections of a server; joins,
      packets, dequeues and ticks.  [SfuFacts], [SfuProperties]: what holds of
      every server reachable through them; they lift what [CallProperties] shows
      of calls to the calls of a server.  A user joins as an admin or not as
      each request says; theorems that need a user to be steady in this say so
      ([steady]).
    - [CallSpec]: an abstract specification of membership with its invariant;
      [CallFacts] and [MediaFacts] show that every operation of a call ends
      without a panic and implements it; [CallProperties] states the results
      for every call reachable through the calls that sfu.rs makes.

    - [LoadBalancer]: src/frontend/src/load_balancer.rs.
    - [Text], [Authenticator]: strings; src/frontend/src/authenticator.rs.
    - [Storage]: the records of src/frontend/src/storage.rs, its trait as a class
      and the abstract table that specifies it; [DynamoDb]: the implementation of
      the trait; [DynamoFacts], [StorageProperties]: that it implements the
      specification, and what follows for any history.
    - [Backend], [Frontend]: backend.rs and frontend.rs of src/frontend/src;
      [FrontendApi]: its api.rs, api/ and internal_api.rs, from the request to the
      response; [FrontendFacts], [FrontendProperties]: for every storage that
      keeps its promises.
    - [Lifecycle]: call_lifecycle.rs and frontend.rs of src/backend/src, cleaner.rs
      of src/frontend/src: how calls leave the table.
    - [Signaling]: signaling_server.rs and http_server.rs of src/backend/src;
      [Deployment]: a frontend whose backend is such a server;
      [SignalingProperties].
    - [Sockets], [ConnectionMap]: src/backend/src/packet_server/epoll.rs: sockets,
      packets on streams, and the map of connections.  [PacketServer]:
      packet_server.rs, packet_server/epoll.rs and generic.rs: the schedule of
      dequeues, the threads and the ticks, with what they ask of the SFU as the
      interface [PacketHandler], which [SfuServer] implements by [Sfu].
      [Framing], [ConnectionMapFacts], [SocketFacts], [TimerHeapFacts],
      [PacketServerFacts], [EventLoopFacts], [PacketServerProperties]: for every
      operating system that keeps descriptors apart and every SFU that
      reschedules a dequeue without a packet to a later time ([HandlerLaws],
      which [SfuServer] proves of [Sfu]).  A panic of the SFU ends the process,
      since the release profile aborts: it is the outcome [Err tt] of a turn,
      and [Panic] is a panic of the packet server's own.

    Fuel of the loops that are not bounded by their data: the work of
    [Lifecycle] takes the length of its queue; receiving from one socket takes
    what a packet buffer holds and all that a client ever sends
    ([stream_bound]); a pass over the dequeues takes sixteen rounds of
    what is scheduled.  The theorems show that this is enough.

    ** What the theorems show

    Of a call: it implements the membership specification and never panics;
    blocked users, approval, demux IDs and padding satisfy their invariants in
    every reachable call (blocking forgets the waiting devices of a user, and an
    admin who approves one lets the blocked user in); only admins act on others; media reaches the other
    participants and nobody on a foreign SSRC; key frame requests, raised hands
    and repeated denials behave as specified; send rates are allocated within
    their limits and approval changes are saved.  Of forwarding: numbers sent to a
    receiver are never reused, and nothing is forwarded that was not asked for.
    Of packets: headers parse safely, written packets parse back, forwarding
    changes three fields, retransmissions give the original back, encryption
    round-trips, replayed
    packets are refused, NACKs list what is missing and round-trip.  Of an
    endpoint: no datagram makes it panic, no packet is accepted twice, no SRTCP
    index used twice and no nonce used for two retransmissions or padding packets,
    whatever arrives and is sent; receiver reports count what is
    missing and stay in range; transport-wide feedback acknowledges exactly the
    packets that arrived, when their numbers and times fit the format; media,
    feedback and requests sent by one endpoint are
    understood by its peer.  Of the pacer: packets leave in order, only those past
    their deadline are skipped, and it never waits more than half a second.  Of
    congestion control: the target rate stays within its configuration, follows the
    direction of the delay, and the round trip time is a mean of recent reports.  Of
    a connection: the response to a valid binding request goes back to its sender,
    everything else only to the address that a valid request nominated, and it stays
    alive by valid requests alone.  Of STUN: any datagram is parsed safely, what a client creates is accepted, and the
    response to a request verifies.  Of the helpers: truncated counters are expanded correctly and the bounded
    containers keep what they promise.

    Of a server: its calls and connections are always those that events lead to,
    calls do not reach each other, a tick ends exactly what has fallen silent, and a
    join that fails on a key leaves a client behind.  Signaling lets in what it
    validated and nothing else, and a frontend sees the participants of a call that
    its backend has.  A call that ended is reported to the frontend, and the
    cleaner removes, of the calls that the storage lists, those and only those that
    no backend has any more.

    Of the frontend: the table implements the abstract storage; calls
    stay until their removal is asked for, links until their deletion is asked for
    or is due; requests stay within the group or link they are
    authorized for; a link changes under its passkey only; handlers do not panic;
    a join over a link follows its restrictions and its expiration.  The load
    balancer chooses by weight.

    Of the packet server: its map and its descriptors agree, and no turn of a
    thread and no tick panics by itself, whatever the clients and the system calls do;
    packets cross a stream whole and in order however its reads and writes are
    cut; the address of a closed connection is not connected to again for ten
    ticks; what is due is dequeued, the timer is set to what is due next, and a
    thread that stops after sixteen packets comes back at once.

    Some theorems record what the code does against its intention; the manifest
    lists them as findings.

    ** Not modelled

    Logging, metrics, the metrics server and the request log; the CPU monitor;
    SM2 beyond its interface ([Sfu.Sm2]); the fetcher of credentials, the deletion
    of expired rows by the table and the lag of its index; JSON, headers and
    routing beyond what the handlers look at, and the texts of errors; the start
    and the end of the tasks and threads of the processes; the bootstrap of the
    container, fuzz targets and scripts.

    The threads of the packet server share an [Sfu] and a map of connections
    behind locks, and the handlers of the servers run side by side.  Here each
    event, dequeue, tick or request runs as one step, so that what two of them do
    in between each other's locks is not covered; the part of [send_packet]
    behind the second lock is a definition of its own, which looks the address up
    again.  A task that a handler spawns runs at once. *)
From Stdlib Require Import ZArith Lia.
From stdpp Require Export base tactics list gmap strings sorting.

#[global] Open Scope Z_scope.

(** ** Outcomes of fallible code

    [Res E A] is the outcome of a Rust function that may return [Err], or panic
    (a failed [assert!], an out-of-range index, an [unwrap] on [None]).  A Rust
    function returning [Option] is modelled at error type [unit]. *)
Inductive Res (E A : Type) : Type :=
| Ok (a : A)
| Err (e : E)
| Panic.
Arguments Ok {E A} a.
Arguments Err {E A} e.
Arguments Panic {E A}.

#[global] Instance Res_ret {E} : MRet (Res E) := fun A a => Ok a.
#[global] Instance Res_bind {E} : MBind (Res E) := fun A B f m =>
  match m with
  | Ok a => f a
  | Err e => Err e
  | Panic => Panic
  end.
#[global] Instance Res_fmap {E} : FMap (Res E) := fun A B f m =>
  match m with
  | Ok a => Ok (f a)
  | Err e => Err e
  | Panic => Panic
  end.

Definition Opt (A : Type) : Type := Res unit A.

(** [e.map_err(f)] *)
Definition map_err {E F A} (f : E -> F) (m : Res E A) : Res F A :=
  match m with
  | Ok a => Ok a
  | Err e => Err (f e)
  | Panic => Panic
  end.

(** [e.ok()]: errors become [None], a panic stays a panic. *)
Definition ok_opt {E F A} (m : Res E A) : Res F (option A) :=
  match m with
  | Ok a => Ok (Some a)
  | Err _ => Ok None
  | Panic => Panic
  end.

(** [o.ok_or(e)] *)
Definition ok_or {E A} (e : E) (o : option A) : Res E A :=
  match o with
  | Some a => Ok a
  | None => Err e
  end.

(** [o.unwrap()] / [o.expect(..)] *)
Definition unwrap {E A} (o : option A) : Res E A :=
  match o with
  | Some a => Ok a
  | None => Panic
  end.

(** [o.unwrap_or(d)] *)
Definition unwrap_or {A} (o : option A) (d : A) : A :=
  match o with
  | Some a => a
  | None => d
  end.

(** [assert!(b)] *)
Definition assert_ {E} (b : bool) : Res E () :=
  if b then Ok () else Panic.

Definition is_ok {E A} (m : Res E A) : bool :=
  match m with
  | Ok _ => true
  | _ => false
  end.

(** ** Record update

    [r <| field := v |>] is the record [r] with one field assigned, and
    [r <| field ::= f |>] with one field mapped.  A record type opts in with an
    [Settable] instance that writes out its eta-expansion. *)
Class Settable (R : Type) := eta : R -> R.
Class Setter {R T : Type} (proj : R -> T) := set_field : (T -> T) -> R -> R.

Ltac solve_setter :=
  lazymatch goal with
  | |- @Setter ?R ?T ?proj =>
      let e := eval hnf in (@eta R _) in
      let f := fresh "f" in
      let r := fresh "r" in
      intros f r;
      let body := eval cbv beta in (e r) in
      let proj_r := eval cbv beta in (proj r) in
      lazymatch eval pattern proj_r in body with
      | ?build _ => exact (build (f proj_r))
      end
  end.
#[export] Hint Extern 1 (Setter _) => solve_setter : typeclass_instances.

Declare Scope record_scope.
Delimit Scope record_scope with rec.
Notation "r <| field ::= f |>" := (set_field (proj := field) f r)
  (at level 14, left associativity, field at level 9) : record_scope.
Notation "r <| field := v |>" := (set_field (proj := field) (fun _ => v) r)
  (at level 14, left associativity, field at level 9) : record_scope.
#[global] Open Scope record_scope.

(** ** Fixed-width unsigned integers

    A [w]-bit unsigned integer is a [Z] in [0, 2^w).  Plain [+], [-] and [*]
    wrap (the release profile leaves overflow checks off). *)
Definition wrap (w z : Z) : Z := z mod 2 ^ w.
Definition uint (w z : Z) : Prop := 0 <= z < 2 ^ w.
Definition u8 (z : Z) : Z := wrap 8 z.
Definition u16 (z : Z) : Z := wrap 16 z.
Definition u32 (z : Z) : Z := wrap 32 z.
Definition u64 (z : Z) : Z := wrap 64 z.
Definition u128 (z : Z) : Z := wrap 128 z.
Definition umax (w : Z) : Z := 2 ^ w - 1.

(** Signed integers, in two's complement. *)
Definition int (w z : Z) : Prop := - 2 ^ (w - 1) <= z < 2 ^ (w - 1).
Definition sint (w z : Z) : Z :=
  let v := wrap w z in if v <? 2 ^ (w - 1) then v else v - 2 ^ w.
Definition i32 (z : Z) : Z := sint 32 z.
Definition i64 (z : Z) : Z := sint 64 z.

Definition saturating_sub (a b : Z) : Z := Z.max 0 (a - b).
Definition saturating_add (w a b : Z) : Z := Z.min (umax w) (a + b).
Definition saturating_mul (w a b : Z) : Z := Z.min (umax w) (a * b).
Definition checked_add (w a b : Z) : option Z :=
  if a + b <? 2 ^ w then Some (a + b) else None.
Definition checked_sub (a b : Z) : option Z :=
  if b <=? a then Some (a - b) else None.
Definition abs_diff (a b : Z) : Z := if b <? a then a - b else b - a.

(** ** Slices

    A slice is a list, a [usize] position in it a [nat]. *)
Definition idx {E A} (l : list A) (i : nat) : Res E A := unwrap (l !! i).

(** [&l[a..b]] *)
Definition slice {E A} (a b : nat) (l : list A) : Res E (list A) :=
  if (a <=? b)%nat && (b <=? length l)%nat then Ok (take (b - a) (drop a l)) else Panic.

(** [&l[a..]] *)
Definition slice_from {E A} (a : nat) (l : list A) : Res E (list A) :=
  if (a <=? length l)%nat then Ok (drop a l) else Panic.

(** [&l[..b]] *)
Definition slice_to {E A} (b : nat) (l : list A) : Res E (list A) :=
  if (b <=? length l)%nat then Ok (take b l) else Panic.

(** [l[a..b].copy_from_slice(src)] *)
Definition copy_from_slice {E A} (a b : nat) (src l : list A) : Res E (list A) :=
  if (a <=? b)%nat && (b <=? length l)%nat && (length src =? b - a)%nat
  then Ok (take a l ++ src ++ drop b l) else Panic.

(** The last [n] elements, the specification of the bounded containers. *)
Definition lastn {A} (n : nat) (l : list A) : list A := drop (length l - n) l.

(** ** Bytes *)
Abbreviation bytes := (list Z) (only parsing).
Definition byte_ok (b : Z) : Prop := uint 8 b.
Definition bytes_ok (l : bytes) : Prop := Forall byte_ok l.

(** [z.to_be_bytes()] at [n] bytes *)
Fixpoint be_bytes (n : nat) (z : Z) : bytes :=
  match n with
  | O => []
  | S m => be_bytes m (Z.shiftr z 8) ++ [Z.land z 255]
  end.

(** [from_be_bytes]: [r = r << 8 | b] over the bytes in order *)
Definition be_val (l : bytes) : Z :=
  fold_left (fun r b => Z.lor (Z.shiftl r 8) b) l 0.

Definition le_val (l : bytes) : Z := be_val (rev l).

(** ** Tactics *)

(** Split every boolean connective and comparison in the context. *)
Ltac boolsplit :=
  repeat match goal with
  | H : _ && _ = true |- _ => apply andb_prop in H as [? ?]
  | H : _ || _ = false |- _ => apply orb_false_elim in H as [? ?]
  | H : negb _ = true |- _ => apply negb_true_iff in H
  | H : negb _ = false |- _ => apply negb_false_iff in H
  | H : (_ <? _)%Z = true |- _ => apply Z.ltb_lt in H
  | H : (_ <? _)%Z = false |- _ => apply Z.ltb_ge in H
  | H : (_ <=? _)%Z = true |- _ => apply Z.leb_le in H
  | H : (_ <=? _)%Z = false |- _ => apply Z.leb_gt in H
  | H : (_ =? _)%Z = true |- _ => apply Z.eqb_eq in H
  | H : (_ =? _)%Z = false |- _ => apply Z.eqb_neq in H
  | H : (_ <? _)%nat = true |- _ => apply Nat.ltb_lt in H
  | H : (_ <? _)%nat = false |- _ => apply Nat.ltb_ge in H
  | H : (_ <=? _)%nat = true |- _ => apply Nat.leb_le in H
  | H : (_ <=? _)%nat = false |- _ => apply Nat.leb_gt in H
  | H : (_ =? _)%nat = true |- _ => apply Nat.eqb_eq in H
  | H : (_ =? _)%nat = false |- _ => apply Nat.eqb_neq in H
  end.

(** Case on one comparison or boolean test of the goal, with its meaning. *)
Ltac case_if :=
  match goal with
  | |- context [if ?b then _ else _] =>
      lazymatch type of b with
      | bool => let E := fresh "E" in destruct b eqn:E
      end
  end.

Ltac case_if_in H :=
  match type of H with
  | context [if ?b then _ else _] =>
      lazymatch type of b with
      | bool => let E := fresh "E" in destruct b eqn:E
      end
  end.

(** Invert a successful monadic run, one bind at a time. *)
Ltac res_inv :=
  repeat match goal with
  | H : Ok _ = Ok _ |- _ => injection H as H
  | H : Err _ = Err _ |- _ => injection H as H
  | H : Some _ = Some _ |- _ => injection H as H
  | H : Ok _ = Err _ |- _ => discriminate H
  | H : Err _ = Ok _ |- _ => discriminate H
  | H : Panic = _ |- _ => discriminate H
  | H : _ = Panic |- _ => discriminate H
  | H : None = Some _ |- _ => discriminate H
  | H : Some _ = None |- _ => discriminate H
  end.

(** [lia] with division and remainder by constants. *)
Ltac dlia := Z.to_euclidean_division_equations; lia.

Create HintDb signal.
Create Rewrite HintDb signal.

(** ** Lemmas *)

Lemma wrap_uint w z : 0 <= w -> uint w (wrap w z).
Proof. intros. unfold uint, wrap. apply Z.mod_pos_bound. apply Z.pow_pos_nonneg; lia. Qed.

Lemma wrap_small w z : uint w z -> wrap w z = z.
Proof. intros ?. by apply Z.mod_small. Qed.

Lemma sint_small w z : 0 < w -> int w z -> sint w z = z.
Proof.
  intros Hw Hz. unfold sint, int, wrap in *.
  assert (2 ^ w = 2 * 2 ^ (w - 1)) as E by (rewrite <- Z.pow_succ_r by lia; f_equal; lia).
  rewrite E. set (p := 2 ^ (w - 1)) in *. destruct (Z.lt_ge_cases z 0).
  - rewrite <- (Z.mod_unique z (2 * p) (-1) (z + 2 * p)) by lia.
    destruct (Z.ltb_spec (z + 2 * p) p); lia.
  - rewrite Z.mod_small by lia. destruct (Z.ltb_spec z p); lia.
Qed.

Lemma wrap_idem w z : 0 <= w -> wrap w (wrap w z) = wrap w z.
Proof. intros. apply wrap_small, wrap_uint. done. Qed.

Lemma uint_testbit_high w z i : uint w z -> w <= i -> Z.testbit z i = false.
Proof.
  intros [H0 H] Hi. destruct (Z.eq_dec z 0) as [->|]; [apply Z.testbit_0_l|].
  apply Z.bits_above_log2; [lia|]. apply Z.log2_lt_pow2; [lia|].
  apply Z.lt_le_trans with (2 ^ w); [done|]. apply Z.pow_le_mono_r; lia.
Qed.

Lemma uint_lor w a b : 0 <= w -> uint w a -> uint w b -> uint w (Z.lor a b).
Proof.
  intros Hw [Ha Ha'] [Hb Hb']. split; [by apply Z.lor_nonneg|].
  destruct (Z.eq_dec (Z.lor a b) 0) as [->|]; [apply Z.pow_pos_nonneg; lia|].
  apply Z.log2_lt_pow2; [pose proof (proj2 (Z.lor_nonneg a b) (conj Ha Hb)); lia|].
  rewrite Z.log2_lor by done.
  destruct (Z.eq_dec w 0) as [->|].
  { assert (a = 0) as -> by (simpl in *; lia). assert (b = 0) as -> by (simpl in *; lia). done. }
  apply Z.max_lub_lt.
  - destruct (Z.eq_dec a 0) as [->|]; [simpl; lia|]. apply Z.log2_lt_pow2; lia.
  - destruct (Z.eq_dec b 0) as [->|]; [simpl; lia|]. apply Z.log2_lt_pow2; lia.
Qed.

Lemma land_ones_mod w z : 0 <= w -> Z.land z (2 ^ w - 1) = wrap w z.
Proof. intros. unfold wrap. rewrite <- Z.land_ones by done. by rewrite Z.ones_equiv, <- Z.sub_1_r. Qed.

Lemma wrap_testbit w z i : 0 <= w -> 0 <= i ->
  Z.testbit (wrap w z) i = (i <? w) && Z.testbit z i.
Proof.
  intros. unfold wrap. destruct (Z.ltb_spec i w); simpl.
  - by rewrite Z.mod_pow2_bits_low by lia.
  - by rewrite Z.mod_pow2_bits_high by lia.
Qed.

Lemma ones_testbit w i : 0 <= w -> 0 <= i -> Z.testbit (Z.shiftl 1 w - 1) i = (i <? w).
Proof.
  intros. rewrite Z.shiftl_1_l, Z.sub_1_r, <- Z.ones_equiv, Z.testbit_ones by done.
  destruct (Z.leb_spec 0 i); [done | lia].
Qed.

Lemma checked_add_Some w a b c : checked_add w a b = Some c <-> c = a + b /\ a + b < 2 ^ w.
Proof. unfold checked_add. case_if; boolsplit; split; intros; simplify_eq; try lia; f_equal; lia. Qed.

Lemma checked_sub_Some a b c : checked_sub a b = Some c <-> c = a - b /\ b <= a.
Proof. unfold checked_sub. case_if; boolsplit; split; intros; simplify_eq; try lia; f_equal; lia. Qed.

Lemma length_be_bytes n z : length (be_bytes n z) = n.
Proof. revert z. induction n; intros; simpl; [done|]. rewrite length_app, IHn. simpl. lia. Qed.

Lemma be_val_snoc l b : be_val (l ++ [b]) = Z.lor (Z.shiftl (be_val l) 8) b.
Proof. unfold be_val. by rewrite fold_left_app. Qed.

Lemma lor_shiftl_add h b : uint 8 b -> Z.lor (Z.shiftl h 8) b = h * 256 + b.
Proof.
  intros Hb. rewrite <- Z.lxor_lor, <- Z.add_nocarry_lxor.
  1: rewrite Z.shiftl_mul_pow2 by lia; reflexivity.
  all: apply Z.bits_inj'; intros i Hi; rewrite Z.land_spec, Z.testbit_0_l;
    destruct (Z.lt_ge_cases i 8);
    [by rewrite Z.shiftl_spec_low | rewrite (uint_testbit_high 8 b i) by done; apply andb_false_r].
Qed.

Lemma wrap_shift v w r : 0 <= w <= v -> wrap v (r * 2 ^ w) = wrap (v - w) r * 2 ^ w.
Proof.
  intros ?. unfold wrap. replace v with ((v - w) + w) at 1 by lia. rewrite Z.pow_add_r by lia.
  rewrite Z.mul_mod_distr_r; [done| |]; apply Z.pow_nonzero; lia.
Qed.

(** [h | b] for a [b] below the low [w] bits of [h], which are clear. *)
Lemma lor_add_low w h b : 0 <= w -> h mod 2 ^ w = 0 -> uint w b -> Z.lor h b = h + b.
Proof.
  intros Hw Hh Hb. rewrite <- Z.lxor_lor, <- Z.add_nocarry_lxor; [done|..].
  all: apply Z.bits_inj'; intros i Hi; rewrite Z.land_spec, Z.testbit_0_l;
    destruct (Z.lt_ge_cases i w);
    [| rewrite (uint_testbit_high w b i) by done; apply andb_false_r].
  all: rewrite <- (Z.mod_pow2_bits_low h w) by lia; by rewrite Hh, Z.bits_0.
Qed.

Lemma be_bytes_ok n z : bytes_ok (be_bytes n z).
Proof.
  revert z. induction n; intros; simpl; [constructor|].
  apply Forall_app; split; [apply IHn|]. constructor; [|constructor].
  change 255 with (2 ^ 8 - 1). rewrite land_ones_mod by lia. apply wrap_uint. lia.
Qed.

Lemma be_val_be_bytes n z : be_val (be_bytes n z) = wrap (8 * Z.of_nat n) z.
Proof.
  revert z. induction n as [|n IH]; intros z.
  { simpl. unfold wrap. by rewrite Z.mod_1_r. }
  simpl be_bytes. rewrite be_val_snoc, IH.
  change 255 with (2 ^ 8 - 1). rewrite land_ones_mod by lia.
  rewrite lor_shiftl_add by (apply wrap_uint; lia).
  unfold wrap. rewrite Z.shiftr_div_pow2 by lia.
  replace (8 * Z.of_nat (S n)) with (8 + 8 * Z.of_nat n) by lia.
  rewrite Z.pow_add_r by lia.
  rewrite Z.rem_mul_r by (try apply Z.pow_nonzero; try apply Z.pow_pos_nonneg; lia).
  change (2 ^ 8) with 256. ring.
Qed.

Lemma be_val_uint l : bytes_ok l -> uint (8 * Z.of_nat (length l)) (be_val l).
Proof.
  induction l as [|b l IH] using rev_ind; intros Hl.
  { unfold uint, be_val. simpl. lia. }
  apply Forall_app in Hl as [Hl Hb]. inversion Hb as [|? ? Hb' _]; subst.
  rewrite be_val_snoc, lor_shiftl_add by done. specialize (IH Hl).
  rewrite length_app. simpl length.
  replace (8 * Z.of_nat (length l + 1)) with (8 * Z.of_nat (length l) + 8) by lia.
  unfold uint, byte_ok in *. rewrite Z.pow_add_r by lia.
  change (2 ^ 8) with 256 in *. unfold uint in *. nia.
Qed.

Lemma be_val_testbit l i : bytes_ok l -> 0 <= i < 8 * Z.of_nat (length l) ->
  Z.testbit (be_val l) i = Z.testbit (nth (length l - 1 - Z.to_nat (i / 8)) l 0) (i mod 8).
Proof.
  revert i. induction l as [|b l IH] using rev_ind; intros i Hl Hi; [simpl in Hi; lia|].
  apply Forall_app in Hl as [Hl Hb]. inversion Hb as [|? ? Hb' _]; subst.
  rewrite length_app in *. simpl length in *.
  rewrite be_val_snoc, Z.lor_spec, Z.shiftl_spec by lia.
  destruct (Z.lt_ge_cases i 8).
  - rewrite Z.testbit_neg_r, Z.div_small, Z.mod_small by lia. simpl.
    rewrite app_nth2 by lia. by replace (length l + 1 - 1 - Z.to_nat 0 - length l)%nat with 0%nat by lia.
  - rewrite (uint_testbit_high 8 b) by done. rewrite orb_false_r, IH by (done || lia).
    replace (i mod 8) with ((i - 8) mod 8) by dlia.
    rewrite app_nth1 by dlia. do 2 f_equal. dlia.
Qed.

Lemma be_bytes_be_val l : bytes_ok l -> be_bytes (length l) (be_val l) = l.
Proof.
  induction l as [|b l IH] using rev_ind; intros Hl; [done|].
  apply Forall_app in Hl as [Hl Hb]. inversion Hb as [|? ? Hb' _]; subst.
  rewrite length_app, Nat.add_comm. simpl. rewrite be_val_snoc.
  f_equal.
  - rewrite Z.shiftr_lor, Z.shiftr_shiftl_l, Z.sub_diag, Z.shiftl_0_r by lia.
    rewrite (Z.shiftr_div_pow2 b) by lia. rewrite (Z.div_small b) by apply Hb'.
    rewrite Z.lor_0_r. by apply IH.
  - f_equal. change 255 with (2 ^ 8 - 1). rewrite land_ones_mod by lia.
    rewrite lor_shiftl_add by done. unfold wrap. change (2 ^ 8) with 256.
    rewrite Z.add_comm, Z.mod_add by lia. by apply Z.mod_small.
Qed.

(** Rewriting with this keeps the continuation folded for the kernel. *)
Lemma mbind_Ok {E A B} (a : A) (f : A -> Res E B) : (Ok a ≫= f) = f a.
Proof. reflexivity. Qed.

Lemma bind_Ok {E A B} (m : Res E A) (f : A -> Res E B) b :
  m ≫= f = Ok b <-> exists a, m = Ok a /\ f a = Ok b.
Proof.
  destruct m; simpl; (split; [intros H | intros (x & [= <-] & H)]); try discriminate; eauto.
Qed.

Lemma bind_no_panic {E A B} (m : Res E A) (f : A -> Res E B) :
  m ≠ Panic -> (forall a, m = Ok a -> f a ≠ Panic) -> m ≫= f ≠ Panic.
Proof. destruct m; simpl; naive_solver. Qed.

Lemma idx_Ok {E A} (l : list A) i x : idx (E:=E) l i = Ok x <-> l !! i = Some x.
Proof. unfold idx. destruct (l !! i); simpl; naive_solver. Qed.

Lemma idx_no_panic {E A} (l : list A) i : (i < length l)%nat -> idx (E:=E) l i ≠ Panic.
Proof. intros [x Hx]%lookup_lt_is_Some. unfold idx. by rewrite Hx. Qed.

Lemma slice_no_panic {E A} a b (l : list A) :
  (a <= b <= length l)%nat -> slice (E:=E) a b l = Ok (take (b - a) (drop a l)).
Proof.
  intros. unfold slice.
  rewrite (proj2 (Nat.leb_le a b)), (proj2 (Nat.leb_le b (length l))) by lia. done.
Qed.

Lemma slice_from_ok {E A} a (l : list A) :
  (a <= length l)%nat -> slice_from (E:=E) a l = Ok (drop a l).
Proof. intros. unfold slice_from. by rewrite (proj2 (Nat.leb_le a (length l))) by lia. Qed.

Lemma slice_to_ok {E A} a (l : list A) :
  (a <= length l)%nat -> slice_to (E:=E) a l = Ok (take a l).
Proof. intros. unfold slice_to. by rewrite (proj2 (Nat.leb_le a (length l))) by lia. Qed.

Lemma copy_from_slice_ok {E A} a b (src l : list A) :
  (a <= b <= length l)%nat -> length src = (b - a)%nat ->
  copy_from_slice (E:=E) a b src l = Ok (take a l ++ src ++ drop b l).
Proof.
  intros ? Hs. unfold copy_from_slice.
  rewrite (proj2 (Nat.leb_le a b)), (proj2 (Nat.leb_le b (length l))), Hs, Nat.eqb_refl by lia.
  done.
Qed.

Lemma lastn_all {A} n (l : list A) : (length l <= n)%nat -> lastn n l = l.
Proof. intros. unfold lastn. replace (length l - n)%nat with 0%nat by lia. done. Qed.

Lemma lastn_cons {A} n x (l : list A) : (n <= length l)%nat -> lastn n (x :: l) = lastn n l.
Proof.
  intros. unfold lastn. simpl length. replace (S (length l) - n)%nat with (S (length l - n)) by lia.
  done.
Qed.

Lemma length_lastn {A} n (l : list A) : length (lastn n l) = Nat.min n (length l).
Proof. unfold lastn. rewrite length_drop. lia. Qed.

Lemma lastn_tail {A} n (l : list A) : length l = S n -> lastn n l = tail l.
Proof. destruct l; simpl; [lia|]. intros [= Hl]. rewrite lastn_cons by lia. by rewrite lastn_all by lia. Qed.

#[export] Hint Resolve wrap_uint be_bytes_ok : signal.
#[export] Hint Rewrite @length_be_bytes : signal.

Arguments be_bytes : simpl never.
Arguments be_val : simpl never.
