(* ===== verification/Common.v ===== *)
(** * Common: fixed-width helpers

    The leaf modules of [src/common/src]: non-standard integer widths
    (integers.rs), bit access (bits.rs), integer arithmetic (math.rs) and the
    expansion of truncated counters (counters.rs). *)
From S2P Require Import Prelude.

(** ** integers.rs: U48 and U24

    [n] is the byte width (6 for [U48], 3 for [U24]); the wrapped integer is a
    [Z].  The underlying type is wide enough ([u64], [u32]) for the sum of two
    values, so [self.0 + other.0] does not wrap before [truncate]. *)
Module Integers.

Definition BITS (n : nat) : Z := Z.of_nat n * 8.
Definition MAX (n : nat) : Z := Z.shiftl 1 (BITS n) - 1.

Definition truncate (n : nat) (value : Z) : Z := Z.land value (MAX n).

Definition wrapping_add (n : nat) (self other : Z) : Z := truncate n (self + other).

Definition from_be_bytes (l : bytes) : Z := be_val l.

Definition from_le_bytes (l : bytes) : Z := le_val l.

Definition try_from (n : nat) (value : Z) : Res unit Z :=
  if MAX n <? value then Err tt else Ok value.

End Integers.

(** ** bits.rs: [ms_bit], [set_ms_bit], [ls_bit] and [set_ls_bit] of a [w]-bit integer *)
Module Bits.

Definition ms_bit (w self index : Z) : Res unit bool :=
  _ ← assert_ (index <? w);
  Ok (Z.land (Z.shiftr self (w - index - 1)) 1 =? 1).

Definition set_ms_bit (w self index : Z) : Res unit Z :=
  _ ← assert_ (index <? w);
  Ok (Z.lor self (wrap w (Z.shiftl 1 (w - index - 1)))).

Definition ls_bit (w self index : Z) : Res unit bool :=
  _ ← assert_ (index <? w);
  Ok (Z.land (Z.shiftr self index) 1 =? 1).

Definition set_ls_bit (w self index : Z) : Res unit Z :=
  _ ← assert_ (index <? w);
  Ok (Z.lor self (wrap w (Z.shiftl 1 index))).

End Bits.

(** ** math.rs (the integer part) *)
Module Math.

(** [round_up_to_multiple_of::<M>(n)] on [usize] *)
Definition round_up_to_multiple_of (M n : nat) : nat := (n + (M - 1)) / M * M.

Definition abs_diff (self other : Z) : Z :=
  if other <? self then self - other else other - self.

End Math.

(** ** counters.rs *)
Module Counters.

(** [w] is [width].  Every caller's [Truncated] type has at least [w] bits
    ([u16] for 15 and 16, [u32] for 32, [u8] for 8), so the
    [try_into().unwrap()] of the masked maximum and of [1 << (width - 1)] cannot
    fail.  Returns the full value and the new [*max]. *)
Definition expand_truncated_counter (w truncated max : Z) : Z * Z :=
  let mask := Z.shiftl 1 w - 1 in
  let really_big := Z.shiftl 1 (w - 1) in
  let truncated_max := Z.land max mask in
  let max_roc := Z.shiftr max w in
  let roc :=
    if (truncated <? truncated_max) && (really_big <? truncated_max - truncated) then
      max_roc + 1
    else if (0 <? max_roc) && (truncated_max <? truncated)
            && (really_big <? truncated - truncated_max) then
      max_roc - 1
    else max_roc in
  let full := Z.lor (u64 (Z.shiftl roc w)) (Z.land truncated mask) in
  (full, if max <? full then full else max).

End Counters.

(** * Theorems *)

Module IntegersFacts.
Import Integers.

Lemma MAX_ones n : MAX n = 2 ^ (8 * Z.of_nat n) - 1.
Proof. unfold MAX, BITS. rewrite Z.shiftl_1_l. do 2 f_equal. lia. Qed.

Lemma truncate_wrap n v : truncate n v = wrap (8 * Z.of_nat n) v.
Proof. unfold truncate. rewrite MAX_ones. apply land_ones_mod. lia. Qed.

Lemma try_from_Ok n v x : try_from n v = Ok x <-> x = v /\ v <= MAX n.
Proof. unfold try_from. case_if; boolsplit; (split; [intros [= <-] | intros [-> ?]]); try lia; done. Qed.

Lemma from_be_bytes_uint n l : length l = n -> bytes_ok l -> uint (8 * Z.of_nat n) (from_be_bytes l).
Proof. intros <- Hl. by apply be_val_uint. Qed.

End IntegersFacts.

Module BitsFacts.
Import Bits.

Lemma land_1_testbit z i : (Z.land (Z.shiftr z i) 1 =? 1) = Z.testbit z i.
Proof.
  rewrite (land_ones_mod 1 (Z.shiftr z i) ltac:(lia) : Z.land _ 1 = _).
  unfold wrap. change (2 ^ 1) with 2.
  rewrite <- Z.bit0_mod, Z.shiftr_spec, Z.add_0_l by lia. by destruct (Z.testbit z i).
Qed.

Lemma ms_bit_testbit w z i : 0 <= i < w -> ms_bit w z i = Ok (Z.testbit z (w - i - 1)).
Proof.
  intros. unfold ms_bit. rewrite (proj2 (Z.ltb_lt i w)) by lia. simpl. by rewrite land_1_testbit.
Qed.

Lemma ls_bit_testbit w z i : 0 <= i < w -> ls_bit w z i = Ok (Z.testbit z i).
Proof.
  intros. unfold ls_bit. rewrite (proj2 (Z.ltb_lt i w)) by lia. simpl. by rewrite land_1_testbit.
Qed.

Lemma set_ls_bit_spec w z i :
  0 <= i < w -> set_ls_bit w z i = Ok (Z.setbit z i).
Proof.
  intros. unfold set_ls_bit. rewrite (proj2 (Z.ltb_lt i w)) by lia. simpl.
  rewrite wrap_small; [done|]. rewrite Z.shiftl_1_l. split; [apply Z.pow_nonneg; lia|].
  apply Z.pow_lt_mono_r; lia.
Qed.

End BitsFacts.

Module MathFacts.
Import Math.

Lemma round_up_spec M n : (0 < M)%nat ->
  (n <= round_up_to_multiple_of M n < n + M)%nat /\ (round_up_to_multiple_of M n mod M = 0)%nat.
Proof.
  intros HM. unfold round_up_to_multiple_of. split; [|apply Nat.Div0.mod_mul].
  pose proof (Nat.div_mod_eq (n + (M - 1)) M).
  pose proof (Nat.mod_upper_bound (n + (M - 1)) M ltac:(lia)). nia.
Qed.

End MathFacts.

Module CountersFacts.
Import Counters.

(** The rollover count the source computes, in arithmetic form. *)
Lemma expand_fst w truncated max :
  0 < w <= 64 -> 0 <= max -> uint w truncated ->
  fst (expand_truncated_counter w truncated max) =
    u64 ((if (truncated <? max mod 2 ^ w) && (2 ^ (w - 1) <? max mod 2 ^ w - truncated)
          then max / 2 ^ w + 1
          else if (0 <? max / 2 ^ w) && (max mod 2 ^ w <? truncated)
                  && (2 ^ (w - 1) <? truncated - max mod 2 ^ w)
          then max / 2 ^ w - 1 else max / 2 ^ w) * 2 ^ w) + truncated.
Proof.
  intros Hw Hm Ht. unfold expand_truncated_counter; simpl.
  rewrite !Z.shiftl_1_l, !land_ones_mod by lia. unfold wrap.
  rewrite !Z.shiftr_div_pow2 by lia. rewrite (Z.mod_small truncated) by done.
  match goal with |- context [Z.shiftl ?r w] => set (roc := r) end.
  rewrite Z.shiftl_mul_pow2 by lia.
  apply (lor_add_low w); [lia| |done].
  unfold u64. rewrite wrap_shift by lia. apply Z.mod_mul, Z.pow_nonzero; lia.
Qed.

(** A counter less than half a period away from the maximum is recovered. *)
Lemma expand_correct w max t :
  0 < w <= 64 -> 0 <= max -> uint 64 t -> Z.abs (t - max) < 2 ^ (w - 1) ->
  fst (expand_truncated_counter w (wrap w t) max) = t.
Proof.
  intros Hw Hm Ht Hd. rewrite expand_fst by (auto using wrap_uint with lia).
  unfold wrap at 1 2 3 4.
  assert (Hp : 2 ^ w = 2 * 2 ^ (w - 1)) by (rewrite <- Z.pow_succ_r by lia; f_equal; lia).
  assert (0 < 2 ^ (w - 1)) by (apply Z.pow_pos_nonneg; lia).
  pose proof (Z.div_mod max (2 ^ w) ltac:(lia)) as Em.
  pose proof (Z.mod_pos_bound max (2 ^ w) ltac:(lia)) as Bm.
  pose proof (Z.div_mod t (2 ^ w) ltac:(lia)) as Et.
  pose proof (Z.mod_pos_bound t (2 ^ w) ltac:(lia)) as Bt.
  match goal with |- context [u64 (?r * 2 ^ w)] => assert (r = t / 2 ^ w) as -> end.
  { destruct (Z.ltb_spec (t mod 2 ^ w) (max mod 2 ^ w)),
      (Z.ltb_spec (2 ^ (w - 1)) (max mod 2 ^ w - t mod 2 ^ w)),
      (Z.ltb_spec 0 (max / 2 ^ w)), (Z.ltb_spec (max mod 2 ^ w) (t mod 2 ^ w)),
      (Z.ltb_spec (2 ^ (w - 1)) (t mod 2 ^ w - max mod 2 ^ w)); simpl.
    all: assert (0 <= t / 2 ^ w) by (apply Z.div_pos; [apply Ht | lia]).
    all: assert (0 <= max / 2 ^ w) by (apply Z.div_pos; lia).
    all: nia. }
  unfold u64. rewrite wrap_small; [unfold wrap; lia|].
  destruct Ht. split; [|lia]. assert (0 <= t / 2 ^ w) by (apply Z.div_pos; lia). nia.
Qed.

(** The result always has the truncated value as its low bits. *)
Lemma expand_low_bits w truncated max :
  0 < w <= 64 -> 0 <= max -> uint w truncated ->
  wrap w (fst (expand_truncated_counter w truncated max)) = truncated.
Proof.
  intros Hw Hm Ht. rewrite expand_fst by auto with lia.
  match goal with |- context [u64 (?r * 2 ^ w)] => set (roc := r) end.
  unfold u64. rewrite wrap_shift by lia. unfold wrap at 1.
  rewrite Z.add_comm, Z.mod_add by (apply Z.pow_nonzero; lia). by apply wrap_small.
Qed.

Lemma expand_max w truncated max :
  snd (expand_truncated_counter w truncated max) =
    Z.max max (fst (expand_truncated_counter w truncated max)).
Proof.
  unfold expand_truncated_counter; cbn [fst snd].
  match goal with |- (if _ <? ?f then _ else _) = _ => destruct (Z.ltb_spec max f) end; lia.
Qed.

End CountersFacts.

Module CountersProperties.
Import Counters.

(** A counter received truncated to its [w] low bits (16-bit sequence
    numbers, 15-bit picture IDs, ...) is expanded to the counter the sender had,
    provided that it is less than half of the truncated range away from the
    largest counter seen so far, before or after it; and that largest counter
    is updated to the larger of the two. *)
Theorem expand_recovers_counter w max t :
  0 < w <= 64 -> 0 <= max -> uint 64 t -> Z.abs (t - max) < 2 ^ (w - 1) ->
  expand_truncated_counter w (wrap w t) max = (t, Z.max max t).
Proof.
  intros. pose proof (CountersFacts.expand_correct w max t ltac:(done) ltac:(done) ltac:(done) ltac:(done)) as E.
  pose proof (CountersFacts.expand_max w (wrap w t) max) as M. rewrite E in M.
  destruct (expand_truncated_counter w (wrap w t) max). simpl in *. congruence.
Qed.

Lemma expand_recovers_counter_witness :
  expand_truncated_counter 16 (wrap 16 65541) 65530 = (65541, 65541).
Proof. apply (expand_recovers_counter 16 65530 65541); unfold uint; simpl; lia. Defined.

End CountersProperties.
