(* ===== verification/Collections.v ===== *)
(** * Collections: bounded containers

    [src/common/src/collections]: the ring buffer, the cache that keeps the
    largest keys and the two-generation cache, with the abstract containers
    they implement. *)
From S2P Require Import Prelude.

(** ** ring_buffer.rs *)
Module RingBuffer.

Record t (A : Type) := mk { limit : nat; values : list A }.
Arguments mk {A} _ _.
Arguments limit {A} _.
Arguments values {A} _.

Definition new {A} (limit : nat) : t A := mk limit [].

Definition push {A} (self : t A) (value : A) : t A * option A :=
  let vs := values self ++ [value] in
  if (limit self <? length vs)%nat then
    match vs with
    | [] => (mk (limit self) vs, None)
    | old :: rest => (mk (limit self) rest, Some old)
    end
  else (mk (limit self) vs, None).

Definition len {A} (self : t A) : nat := length (values self).
Definition is_empty {A} (self : t A) : bool := (len self =? 0)%nat.
Definition is_full {A} (self : t A) : bool := (len self =? limit self)%nat.

End RingBuffer.

(** ** key_sorted_cache.rs: a [BTreeMap] as an ascending association list *)
Module KeySortedCache.

Record t (V : Type) := mk { limit : nat; value_by_key : list (Z * V) }.
Arguments mk {V} _ _.
Arguments limit {V} _.
Arguments value_by_key {V} _.

Fixpoint btree_insert {V} (key : Z) (value : V) (m : list (Z * V)) : list (Z * V) :=
  match m with
  | [] => [(key, value)]
  | (k, v) :: m' =>
      if key <? k then (key, value) :: m
      else if key =? k then (key, value) :: m'
      else (k, v) :: btree_insert key value m'
  end.

Definition new {V} (limit : nat) : t V := mk limit [].

Definition insert {V} (self : t V) (key : Z) (value : V) : t V :=
  let m := btree_insert key value (value_by_key self) in
  if (limit self <? length m)%nat then mk (limit self) (tail m) else mk (limit self) m.

Definition remove {V} (self : t V) (key : Z) : t V :=
  mk (limit self) (base.filter (fun kv => kv.1 ≠ key) (value_by_key self)).

Definition is_empty {V} (self : t V) : bool := (length (value_by_key self) =? 0)%nat.

(** [retain] with a closure that may also change the value: [f] returns the
    value to keep, or [None] to drop the entry. *)
Definition retain {V} (self : t V) (f : Z -> V -> option V) : t V :=
  mk (limit self)
     (omap (fun kv => match f kv.1 kv.2 with Some v => Some (kv.1, v) | None => None end)
           (value_by_key self)).

End KeySortedCache.

(** ** two_generation_cache.rs *)
Module TwoGenerationCache.
Section Cache.
Context {K V : Type} `{Countable K}.

Record t := mk {
  generation_lifetime : Z;
  generation0 : gmap K V;
  generation1 : gmap K V;
  generation1_expires : Z
}.

Definition new (generation_lifetime now : Z) : t :=
  mk generation_lifetime ∅ ∅ (now + generation_lifetime).

Definition insert_without_removing_old (self : t) (key : K) (value : V) : t :=
  mk (generation_lifetime self) (<[key := value]> (generation0 self)) (generation1 self)
     (generation1_expires self).

Definition swap_generations_if_its_been_too_long (self : t) (now : Z) : t * option (gmap K V) :=
  if generation1_expires self <=? now then
    (mk (generation_lifetime self) ∅ (generation0 self) (now + generation_lifetime self),
     Some (generation1 self))
  else (self, None).

Definition remove_old (self : t) (now : Z) : t * list K :=
  match swap_generations_if_its_been_too_long self now with
  | (self', Some removed_gen) =>
      (self', base.filter (fun k => generation1 self' !! k = None) (map_to_list removed_gen).*1)
  | (self', None) => (self', [])
  end.

Definition insert (self : t) (key : K) (value : V) (now : Z) : t :=
  insert_without_removing_old (swap_generations_if_its_been_too_long self now).1 key value.

Definition get (self : t) (key : K) : option V :=
  match generation0 self !! key with
  | Some v => Some v
  | None => generation1 self !! key
  end.

(** [get_mut] with the update [f] the caller performs through the reference. *)
Definition update (f : V -> V) (self : t) (key : K) : t :=
  match generation0 self !! key with
  | Some v => mk (generation_lifetime self) (<[key := f v]> (generation0 self)) (generation1 self)
                 (generation1_expires self)
  | None =>
      match generation1 self !! key with
      | Some v => mk (generation_lifetime self) (generation0 self)
                     (<[key := f v]> (generation1 self)) (generation1_expires self)
      | None => self
      end
  end.

Definition remove (self : t) (key : K) : t * option V :=
  (mk (generation_lifetime self) (delete key (generation0 self)) (delete key (generation1 self))
      (generation1_expires self),
   match generation0 self !! key with
   | Some v => Some v
   | None => generation1 self !! key
   end).

(** [iter]: the first generation, then the second (a key may appear in both). *)
Definition iter (self : t) : list (K * V) :=
  map_to_list (generation0 self) ++ map_to_list (generation1 self).

End Cache.
Arguments t K V {_ _}.
End TwoGenerationCache.

(** * Theorems *)

Module RingBufferFacts.
Import RingBuffer.

Lemma push_values {A} (s : t A) v :
  (length (values s) <= limit s)%nat ->
  limit (push s v).1 = limit s /\ values (push s v).1 = lastn (limit s) (values s ++ [v]).
Proof.
  intros Hl. unfold push. destruct (Nat.ltb_spec (limit s) (length (values s ++ [v]))) as [E|E].
  - rewrite length_app in E. simpl in E.
    rewrite lastn_tail by (rewrite length_app; simpl; lia).
    by destruct (values s ++ [v]).
  - by rewrite lastn_all.
Qed.

Lemma lastn_snoc {A} n (l : list A) x : lastn n (lastn n l ++ [x]) = lastn n (l ++ [x]).
Proof.
  unfold lastn. rewrite !length_app, length_drop. simpl.
  destruct (Nat.le_gt_cases (length l) n).
  - replace (length l - n)%nat with 0%nat by lia. by rewrite Nat.sub_0_r.
  - destruct n as [|n].
    + rewrite !drop_ge; [done | |]; rewrite ?length_app, ?length_drop; simpl; lia.
    + rewrite !drop_app_le by (rewrite ?length_drop; lia).
      rewrite drop_drop. do 2 f_equal. lia.
Qed.

(** A run of pushes from [new] leaves the last [limit] values, in order. *)
Lemma pushes_lastn {A} n (xs : list A) :
  let s := fold_left (fun s x => (push s x).1) xs (new n) in
  limit s = n /\ values s = lastn n xs.
Proof.
  induction xs as [|x xs IH] using rev_ind; [done|].
  rewrite fold_left_app; cbn [fold_left]. destruct IH as [IHl IHv].
  set (s := fold_left _ xs _) in *.
  destruct (push_values s x) as [Hl Hv].
  { rewrite IHv, IHl, length_lastn. lia. }
  rewrite Hl, Hv, IHl, IHv. split; [done|]. apply lastn_snoc.
Qed.

End RingBufferFacts.

Module KeySortedCacheFacts.
Import KeySortedCache.

Definition sorted {V} (m : list (Z * V)) : Prop := StronglySorted Z.lt m.*1.

(** The unbounded map a sequence of insertions builds. *)
Definition inserts {V} (kvs : list (Z * V)) : list (Z * V) :=
  fold_left (fun m kv => btree_insert kv.1 kv.2 m) kvs [].

Lemma elem_of_btree_insert {V} key (value : V) m k :
  k ∈ (btree_insert key value m).*1 <-> k = key \/ k ∈ m.*1.
Proof.
  induction m as [|[k' v'] m IH]; simpl; [set_solver|].
  destruct (key <? k'); simpl; [set_solver|].
  destruct (Z.eqb_spec key k') as [->|]; simpl; [set_solver|].
  rewrite !elem_of_cons, IH. naive_solver.
Qed.

Lemma btree_insert_sorted {V} key (value : V) m : sorted m -> sorted (btree_insert key value m).
Proof.
  unfold sorted. induction m as [|[k v] m IH]; simpl; intros Hs; [repeat constructor|].
  inversion Hs as [|? ? Hs' Hall]; subst.
  destruct (Z.ltb_spec key k); simpl.
  { constructor; [done|]. constructor; [done|].
    eapply Forall_impl; [apply Hall|]. simpl; lia. }
  destruct (Z.eqb_spec key k) as [->|]; simpl; [done|].
  constructor; [by apply IH|]. apply Forall_forall. intros x Hx.
  apply elem_of_btree_insert in Hx as [->|Hx]; [lia|].
  rewrite Forall_forall in Hall. by apply Hall.
Qed.

Lemma length_btree_insert {V} key (value : V) m :
  (length m <= length (btree_insert key value m) <= S (length m))%nat.
Proof.
  induction m as [|[k v] m IH]; simpl; [lia|].
  destruct (key <? k), (key =? k); simpl; lia.
Qed.

Lemma inserts_sorted {V} (kvs : list (Z * V)) : sorted (inserts kvs).
Proof.
  induction kvs using rev_ind; [constructor|].
  unfold inserts in *. rewrite fold_left_app. by apply btree_insert_sorted.
Qed.

Lemma btree_insert_below {V} key (value : V) m :
  Forall (Z.lt key) m.*1 -> btree_insert key value m = (key, value) :: m.
Proof.
  destruct m as [|[k v] m]; [done|]. simpl. inversion 1; subst.
  by rewrite (proj2 (Z.ltb_lt key k)).
Qed.

Lemma lastn_btree_insert {V} n key (value : V) m :
  sorted m -> lastn n (btree_insert key value (lastn n m)) = lastn n (btree_insert key value m).
Proof.
  unfold sorted. induction m as [|[k v] m IH]; intros Hs; [done|].
  inversion Hs as [|? ? Hs' Hall]; subst. specialize (IH Hs').
  destruct (Nat.le_gt_cases (length ((k, v) :: m)) n); [by rewrite (lastn_all n (_ :: _))|].
  simpl in *. rewrite lastn_cons, IH by lia.
  pose proof (length_btree_insert key value m).
  destruct (Z.ltb_spec key k); [|destruct (Z.eqb_spec key k) as [->|]].
  - rewrite btree_insert_below by (eapply Forall_impl; [apply Hall|]; simpl; lia).
    by rewrite !lastn_cons by (simpl; lia).
  - rewrite btree_insert_below by (eapply Forall_impl; [apply Hall|]; simpl; lia).
    by rewrite !lastn_cons by (simpl; lia).
  - by rewrite lastn_cons by lia.
Qed.

Lemma insert_lastn {V} (s : t V) k v :
  (length (value_by_key s) <= limit s)%nat ->
  limit (insert s k v) = limit s /\
  value_by_key (insert s k v) = lastn (limit s) (btree_insert k v (value_by_key s)).
Proof.
  intros Hl. pose proof (length_btree_insert k v (value_by_key s)). unfold insert.
  destruct (Nat.ltb_spec (limit s) (length (btree_insert k v (value_by_key s)))); simpl.
  - by rewrite lastn_tail by lia.
  - by rewrite lastn_all by lia.
Qed.

(** Insertions keep the entries with the [n] largest keys of the unbounded map. *)
Lemma inserts_lastn {V} n (kvs : list (Z * V)) :
  let s := fold_left (fun s kv => insert s kv.1 kv.2) kvs (new n) in
  limit s = n /\ value_by_key s = lastn n (inserts kvs).
Proof.
  induction kvs as [|[k v] kvs IH] using rev_ind; [done|].
  rewrite fold_left_app; cbn [fold_left fst snd]. destruct IH as [IHl IHv].
  set (s := fold_left _ kvs (new n)) in *.
  destruct (insert_lastn s k v) as [Hl Hv]; [rewrite IHv, IHl, length_lastn; lia|].
  rewrite Hl, Hv, IHl, IHv. split; [done|].
  unfold inserts. rewrite fold_left_app. apply lastn_btree_insert, inserts_sorted.
Qed.

Lemma insert_wf {V} (s : t V) k v :
  sorted (value_by_key s) -> (length (value_by_key s) <= limit s)%nat ->
  sorted (value_by_key (insert s k v)) /\ (length (value_by_key (insert s k v)) <= limit s)%nat.
Proof.
  intros Hs Hl. destruct (insert_lastn s k v Hl) as [_ ->]. rewrite length_lastn.
  split; [|lia]. unfold sorted, lastn. rewrite fmap_drop.
  pose proof (btree_insert_sorted k v _ Hs) as H'. unfold sorted in H'.
  rewrite <- (take_drop (length (btree_insert k v (value_by_key s)) - limit s)) in H'.
  by apply StronglySorted_app_1_r in H'.
Qed.

(** A cache in order and within its limit. *)
Definition wf {V} (s : t V) : Prop :=
  sorted (value_by_key s) /\ (length (value_by_key s) <= limit s)%nat.

Definition keys {V} (s : t V) : list Z := (value_by_key s).*1.

Lemma insert_keys {V} (s : t V) k v x :
  wf s -> x ∈ keys (insert s k v) -> x = k \/ x ∈ keys s.
Proof.
  intros [Hs Hl]. destruct (insert_lastn s k v Hl) as [_ E]. unfold keys. rewrite E.
  intros Hx. apply (elem_of_btree_insert k v). unfold lastn in Hx. rewrite fmap_drop in Hx.
  rewrite <- (take_drop (length (btree_insert k v (value_by_key s)) - limit s)).
  apply elem_of_app. by right.
Qed.

(** [n] distinct integers of [(x, b]] need [n <= b - x]. *)
Lemma sorted_count (l : list Z) x b :
  StronglySorted Z.lt l -> (forall y, y ∈ l -> x < y <= b) -> x <= b -> Z.of_nat (length l) <= b - x.
Proof.
  intros Hs. revert x. induction Hs as [|y l Hs IH Hlt]; intros x Hb Hx; [simpl; lia|].
  assert (x < y <= b) by (apply Hb; by left).
  assert (Z.of_nat (length l) <= b - y).
  { apply IH; [|lia]. intros z Hz. rewrite Forall_forall in Hlt. specialize (Hlt z Hz).
    specialize (Hb z ltac:(by right)). lia. }
  simpl length. lia.
Qed.

(** A key stays as long as fewer than [limit] numbers up to [b] are above it. *)
Lemma insert_keeps {V} (s : t V) k v x b :
  wf s -> x = k \/ x ∈ keys s -> (forall y, y ∈ keys s -> y <= b) -> k <= b ->
  b - x < Z.of_nat (limit s) -> x ∈ keys (insert s k v).
Proof.
  intros [Hs Hl] Hx Hb Hk Hn. destruct (insert_lastn s k v Hl) as [_ E]. unfold keys. rewrite E.
  assert (x ∈ (btree_insert k v (value_by_key s)).*1) as Hin by (by apply elem_of_btree_insert).
  pose proof (btree_insert_sorted k v _ Hs) as Hss. unfold sorted in Hss.
  set (m := btree_insert k v (value_by_key s)) in *. unfold lastn. rewrite fmap_drop.
  rewrite <- (take_drop (length m - limit s) (m.*1)) in Hin, Hss.
  apply elem_of_app in Hin as [Hin|Hin]; [exfalso|done].
  assert (forall y, y ∈ drop (length m - limit s) m.*1 -> x < y <= b) as Hy.
  { intros y Hy. split; [by eapply StronglySorted_app_1_elem_of|].
    assert (y ∈ m.*1) as Hym by (rewrite <- (take_drop (length m - limit s) m.*1); set_solver).
    apply elem_of_btree_insert in Hym as [->|Hym]; [done|by apply Hb]. }
  assert (x <= b) as Hxb.
  { assert (x ∈ m.*1) as Hxm by (rewrite <- (take_drop (length m - limit s) m.*1); set_solver).
    apply elem_of_btree_insert in Hxm as [->|Hxm]; [done|by apply Hb]. }
  pose proof (sorted_count _ x b (StronglySorted_app_1_r _ _ _ Hss) Hy Hxb) as Hc.
  rewrite length_drop, length_fmap in Hc.
  apply list_elem_of_lookup_1 in Hin as [i Hi]. apply lookup_lt_Some in Hi.
  rewrite length_take, length_fmap in Hi. lia.
Qed.

Lemma insert_limit {V} (s : t V) k v : limit (insert s k v) = limit s.
Proof. unfold insert. by case_if. Qed.

Lemma new_wf {V} n : wf (new (V:=V) n).
Proof. split; [constructor|simpl; lia]. Qed.

Lemma insert_wf' {V} (s : t V) k v : wf s -> wf (insert s k v).
Proof.
  intros [Hs Hl]. unfold wf. rewrite insert_limit. by apply insert_wf.
Qed.

Lemma remove_wf {V} (s : t V) k : wf s -> wf (remove s k).
Proof.
  intros [Hs Hl]. split; cbn.
  - unfold sorted in *. induction (value_by_key s) as [|[k' v'] m IH]; [done|].
    inversion Hs as [|? ? Hs' Hall]; subst. cbn. case_decide; cbn.
    + constructor; [apply IH; [done|simpl in Hl; lia]|]. rewrite Forall_forall in *. intros x Hx.
      apply Hall. apply list_elem_of_fmap in Hx as (kv & -> & Hkv). apply list_elem_of_fmap.
      exists kv. split; [done|]. by apply list_elem_of_filter in Hkv as [_ ?].
    + apply IH; [done|simpl in Hl; lia].
  - etransitivity; [apply length_filter|done].
Qed.

Lemma remove_keys {V} (s : t V) k x : x ∈ keys (remove s k) <-> x ≠ k /\ x ∈ keys s.
Proof.
  unfold keys. cbn. rewrite !list_elem_of_fmap. split.
  - intros (kv & -> & H). apply list_elem_of_filter in H as [? ?]. split; [done|]. by exists kv.
  - intros (Hx & kv & -> & H). exists kv. split; [done|]. by apply list_elem_of_filter.
Qed.

(** Inserting an ascending run of keys above everything cached. *)
Lemma inserts_above {V} (v : V) ks : forall s b,
  wf s -> (forall y, y ∈ keys s -> y <= b) -> (forall k, k ∈ ks -> k <= b) ->
  let s' := fold_left (fun c k => insert c k v) ks s in
  wf s' /\ limit s' = limit s /\
  (forall x, x ∈ keys s' -> x ∈ ks \/ x ∈ keys s) /\
  (forall x, x ∈ ks \/ x ∈ keys s -> b - x < Z.of_nat (limit s) -> x ∈ keys s').
Proof.
  induction ks as [|k ks IH]; intros s b Hw Hb Hks; cbn [fold_left].
  { split_and!; [done|done|by right|]. intros x [Hx|Hx]; [by apply elem_of_nil in Hx|done]. }
  destruct (IH (insert s k v) b) as (H1 & H2 & H3 & H4).
  - by apply insert_wf'.
  - intros y Hy. apply insert_keys in Hy as [->|Hy]; [apply Hks; by left|by apply Hb|done].
  - intros y Hy. apply Hks. by right.
  - rewrite insert_limit in *. split_and!; [done|done|..].
    + intros x Hx. destruct (H3 x Hx) as [Hx'|Hx']; [left; by right|].
      apply insert_keys in Hx' as [->|Hx']; [left; by left|by right|done].
    + intros x Hx Hlim. apply H4; [|done]. destruct Hx as [Hx|Hx].
      * apply elem_of_cons in Hx as [->|Hx]; [|by left]. right.
        apply (insert_keeps s k v k b); auto. apply Hks. by left.
      * right. apply (insert_keeps s k v x b); auto. apply Hks. by left.
Qed.

End KeySortedCacheFacts.

Module TwoGenerationCacheFacts.
Import TwoGenerationCache.
Section Facts.
Context {K V : Type} `{Countable K}.
Implicit Types s : t K V.

(** [kept s k v t0]: [k] is cached and cannot be dropped before [t0] plus the
    lifetime. *)
Definition kept s (k : K) (v : V) (t0 : Z) : Prop :=
  (generation0 s !! k = Some v /\ t0 < generation1_expires s) \/
  (generation0 s !! k = None /\ generation1 s !! k = Some v /\
   t0 + generation_lifetime s < generation1_expires s).

Lemma kept_get s k v t0 : kept s k v t0 -> get s k = Some v.
Proof. unfold kept, get. intros [[-> _]|(-> & -> & _)]; done. Qed.

Lemma insert_kept s k v now : 0 < generation_lifetime s -> kept (insert s k v now) k v now.
Proof.
  intros HL. left. unfold insert, swap_generations_if_its_been_too_long.
  destruct (Z.leb_spec (generation1_expires s) now); simpl; rewrite lookup_insert_eq; split; lia || done.
Qed.

Lemma insert_lifetime s k v now : generation_lifetime (insert s k v now) = generation_lifetime s.
Proof. unfold insert, swap_generations_if_its_been_too_long. by case_if. Qed.

Lemma kept_insert s k v t0 k' v' now :
  k' ≠ k -> now <= t0 + generation_lifetime s ->
  kept s k v t0 -> kept (insert s k' v' now) k v t0.
Proof.
  intros Hk Hn Hs. unfold kept, insert, swap_generations_if_its_been_too_long in *.
  destruct (Z.leb_spec (generation1_expires s) now); simpl;
    rewrite !lookup_insert_ne by done; rewrite ?lookup_empty.
  - destruct Hs as [[? ?]|(? & ? & ?)]; [|lia]. right. repeat split; [done|lia].
  - destruct Hs as [[? ?]|(? & ? & ?)]; [left|right]; done.
Qed.

Definition run_inserts s (ops : list (K * V * Z)) : t K V :=
  fold_left (fun s op => insert s op.1.1 op.1.2 op.2) ops s.

(** An entry survives every insertion of other keys during its lifetime. *)
Lemma kept_run s k v t0 ops :
  kept s k v t0 ->
  Forall (fun op => op.1.1 ≠ k /\ op.2 <= t0 + generation_lifetime s) ops ->
  get (run_inserts s ops) k = Some v.
Proof.
  revert s. induction ops as [|op ops IH]; intros s Hk Hops; [by eapply kept_get|].
  inversion Hops as [|? ? [? ?] ?]; subst. apply IH; [by apply kept_insert|].
  by rewrite insert_lifetime.
Qed.

End Facts.
End TwoGenerationCacheFacts.

Module CollectionsProperties.

(** However its entries arrive, a [KeySortedCache] with room for [n] entries
    holds, sorted by key, the [n] entries with the largest keys among all that
    were inserted (the last value of each key). *)
Theorem key_sorted_cache_keeps_largest {V} n (kvs : list (Z * V)) :
  let s := fold_left (fun s kv => KeySortedCache.insert s kv.1 kv.2) kvs (KeySortedCache.new n) in
  KeySortedCacheFacts.sorted (KeySortedCache.value_by_key s) /\
  KeySortedCache.value_by_key s = lastn n (KeySortedCacheFacts.inserts kvs).
Proof.
  destruct (KeySortedCacheFacts.inserts_lastn n kvs) as [_ E]. simpl. split; [|exact E].
  assert (forall l s, KeySortedCacheFacts.wf s -> KeySortedCacheFacts.wf
    (fold_left (fun s kv => KeySortedCache.insert (V:=V) s kv.1 kv.2) l s)) as W.
  { induction l as [|kv l IH]; intros s Hs; [done|].
    apply IH. by apply KeySortedCacheFacts.insert_wf'. }
  apply W, KeySortedCacheFacts.new_wf.
Qed.

(** A packet put into the [TwoGenerationCache] of sent packets can be looked
    up for at least the lifetime of a generation: insertions of any other keys,
    at times up to the lifetime after it, never evict it. *)
Theorem two_generation_cache_lifetime {K V} `{Countable K}
    (s : TwoGenerationCache.t K V) (k : K) (v : V) (now : Z) (ops : list (K * V * Z)) :
  0 < TwoGenerationCache.generation_lifetime s ->
  Forall (fun op => op.1.1 ≠ k /\ op.2 <= now + TwoGenerationCache.generation_lifetime s) ops ->
  TwoGenerationCache.get
    (TwoGenerationCacheFacts.run_inserts (TwoGenerationCache.insert s k v now) ops) k = Some v.
Proof.
  intros L F. apply (TwoGenerationCacheFacts.kept_run _ k v now).
  - by apply TwoGenerationCacheFacts.insert_kept.
  - by rewrite TwoGenerationCacheFacts.insert_lifetime.
Qed.

Lemma two_generation_cache_lifetime_witness :
  TwoGenerationCache.get
    (TwoGenerationCacheFacts.run_inserts
       (TwoGenerationCache.insert (TwoGenerationCache.new (K:=Z) (V:=Z) 10 0) 1 7 5)
       [(2, 8, 11); (3, 9, 15)]) 1 = Some 7.
Proof.
  apply (two_generation_cache_lifetime (TwoGenerationCache.new 10 0) 1 7 5).
  - reflexivity.
  - repeat constructor; simpl; lia.
Defined.

End CollectionsProperties.

(** The order in which a [HashMap] is iterated over. *)
Class MapOrder := {
  map_entries : forall {K V} `{Countable K}, gmap K V -> list (K * V);
  map_entries_perm : forall {K V} `{Countable K} (m : gmap K V), map_entries m ≡ₚ map_to_list m
}.

Lemma map_entries_elem `{MapOrder} {K V} `{Countable K} (m : gmap K V) k v : (k, v) ∈ map_entries m <-> m !! k = Some v.
Proof. by rewrite map_entries_perm, elem_of_map_to_list. Qed.

Lemma map_entries_nodup `{MapOrder} {K V} `{Countable K} (m : gmap K V) : NoDup (map fst (map_entries m)).
Proof. rewrite map_entries_perm. apply NoDup_fst_map_to_list. Qed.
