(* ===== verification/Float.v ===== *)
(** * Float: binary64 and binary32 arithmetic, durations and data rates

    The floating-point operations the server's arithmetic goes through, as the
    Standard Library's executable IEEE 754 [spec_float], with Rust's casts;
    [src/common/src/time.rs] durations (whole nanoseconds, as [Z]) and
    [src/common/src/data_rate.rs] sizes (bits), rates (bits per second) and the
    rate tracker. *)
From Stdlib Require Import Floats.SpecFloat.
From S2P Require Import Prelude.

Module F64.

Definition t : Type := spec_float.
Definition prec : Z := 53.
Definition emax : Z := 1024.

(** [z as f64] *)
Definition of_Z (z : Z) : t := binary_normalize prec emax z 0 false.
Definition add : t -> t -> t := SFadd prec emax.
Definition sub : t -> t -> t := SFsub prec emax.
Definition mul : t -> t -> t := SFmul prec emax.
Definition div : t -> t -> t := SFdiv prec emax.

(** The integer part of a finite magnitude [m * 2^e]. *)
Definition trunc (m : positive) (e : Z) : Z :=
  if 0 <=? e then Z.pos m * 2 ^ e else Z.pos m / 2 ^ (- e).

(** [x as u64]: truncating and saturating, [NaN] to 0. *)
Definition to_uint (w : Z) (x : t) : Z :=
  match x with
  | S754_zero _ | S754_nan => 0
  | S754_infinity s => if s then 0 else umax w
  | S754_finite s m e => if s then 0 else Z.min (umax w) (trunc m e)
  end.
Definition to_u64 : t -> Z := to_uint 64.

(** The nearest integer to [m * 2^e], ties to even. *)
Definition round_half_even (m : positive) (e : Z) : Z :=
  if 0 <=? e then Z.pos m * 2 ^ e
  else
    let q := Z.pos m / 2 ^ (- e) in
    let r := Z.pos m mod 2 ^ (- e) in
    match 2 * r ?= 2 ^ (- e) with
    | Lt => q
    | Gt => q + 1
    | Eq => if Z.even q then q else q + 1
    end.

(** A decimal literal [n / d]: the nearest number, for [n] and [d] below 2^53. *)
Definition lit (n d : Z) : t := div (of_Z n) (of_Z d).

(** Comparisons (false on [NaN]), [min], [max], [abs], negation, [sqrt]. *)
Definition lt (a b : t) : bool := SFltb a b.
Definition le (a b : t) : bool := SFleb a b.
Definition opp : t -> t := SFopp.
Definition abs : t -> t := SFabs.
Definition sqrt : t -> t := SFsqrt prec emax.
Definition is_nan (a : t) : bool := match a with S754_nan => true | _ => false end.
Definition min (a b : t) : t :=
  if is_nan a then b else if is_nan b then a else if lt b a then b else a.
Definition max (a b : t) : t :=
  if is_nan a then b else if is_nan b then a else if lt a b then b else a.

(** [x.clamp(lo, hi)] for constants [lo <= hi] *)
Definition clamp (x lo hi : t) : t :=
  let x := if lt x lo then lo else x in
  if lt hi x then hi else x.

(** 0.9, 0.1 (as [1.0 - 0.9]), 1.0 *)
Definition p9 : t := S754_finite false 8106479329266893 (-53).
Definition one : t := of_Z 1.

End F64.

Module F32.

Definition prec : Z := 24.
Definition emax : Z := 128.
Definition of_Z (z : Z) : spec_float := binary_normalize prec emax z 0 false.
Definition mul : spec_float -> spec_float -> spec_float := SFmul prec emax.
Definition sqrt : spec_float -> spec_float := SFsqrt prec emax.
(** [x as u8] *)
Definition to_u8 : spec_float -> Z := F64.to_uint 8.

End F32.

(** ** time.rs: [Duration], in nanoseconds *)
Module Duration.

Definition NANOS_PER_SEC : Z := 10 ^ 9.
Definition from_secs (secs : Z) : Z := secs * NANOS_PER_SEC.
Definition from_millis (millis : Z) : Z := millis * 10 ^ 6.
Definition from_micros (micros : Z) : Z := micros * 10 ^ 3.
Definition as_secs (d : Z) : Z := d / NANOS_PER_SEC.
Definition as_millis (d : Z) : Z := d / 10 ^ 6.
Definition as_micros (d : Z) : Z := d / 10 ^ 3.
Definition subsec_nanos (d : Z) : Z := d mod NANOS_PER_SEC.

Definition as_secs_f64 (d : Z) : F64.t :=
  F64.add (F64.of_Z (as_secs d)) (F64.div (F64.of_Z (subsec_nanos d)) (F64.of_Z NANOS_PER_SEC)).

(** Panics on a negative, infinite or too large value and on [NaN]; rounds to
    the nearest nanosecond. *)
Definition from_secs_f64 {E} (x : F64.t) : Res E Z :=
  match x with
  | S754_zero _ => Ok 0
  | S754_nan | S754_infinity _ => Panic
  | S754_finite true _ _ => Panic
  | S754_finite false m e =>
      if F64.trunc m e <? 2 ^ 64 then
        (* the value times 10^9, exactly *)
        Ok (F64.round_half_even (m * 1000000000) e)
      else Panic
  end.

(** [Duration::mul_f64] *)
Definition mul_f64 {E} (d : Z) (x : F64.t) : Res E Z := from_secs_f64 (F64.mul x (as_secs_f64 d)).
Definition abs_diff (d other : Z) : Z := Prelude.abs_diff d other.

(** [Instant::saturating_duration_since] *)
Definition saturating_duration_since (self earlier : Z) : Z := saturating_sub self earlier.

(** [Instant::checked_duration_since] *)
Definition checked_duration_since (self earlier : Z) : option Z :=
  if earlier <=? self then Some (self - earlier) else None.

Definition truncated_to {E} (self unit : Z) : Res E Z :=
  _ ← assert_ (subsec_nanos unit =? 0);
  _ ← assert_ (negb (as_secs unit =? 0));
  let remainder := as_secs self mod as_secs unit in
  Ok (saturating_sub self (from_secs remainder)).

End Duration.

(** ** data_rate.rs *)
Module DataRate.

Definition BITS_PER_BYTE : Z := 8.
Definition BITS_PER_KILO_BIT : Z := 1000.

(** [DataSize], in bits *)
Definition size_as_bytes (bits : Z) : Z := bits / BITS_PER_BYTE.
Definition size_from_bytes (bytes : Z) : Z := u64 (bytes * BITS_PER_BYTE).
Definition size_add (a b : Z) : Z := u64 (a + b).
Definition size_sub (a b : Z) : Z := u64 (a - b).
Definition size_saturating_sub (a b : Z) : Z := if b <? a then size_sub a b else 0.

(** [DataRate], in bits per second *)
Definition from_kbps (kbps : Z) : Z := u64 (kbps * BITS_PER_KILO_BIT).
Definition as_kbps (bps : Z) : Z := bps / BITS_PER_KILO_BIT.
Definition rate_add (a b : Z) : Z := u64 (a + b).
Definition rate_sub (a b : Z) : Z := u64 (a - b).
Definition rate_saturating_sub (a b : Z) : Z := if b <? a then rate_sub a b else 0.
Definition rate_sum (l : list Z) : Z := fold_left rate_add l 0.
Definition mul_f64 (rate : Z) (x : F64.t) : Z := F64.to_u64 (F64.mul (F64.of_Z rate) x).
(** [DataRate / DataRate] and [abs_diff] *)
Definition rate_div_rate (a b : Z) : F64.t := F64.div (F64.of_Z a) (F64.of_Z b).
Definition rate_abs_diff (a b : Z) : Z := if b <? a then rate_sub a b else rate_sub b a.
Definition div_f64 (rate : Z) (x : F64.t) : Z := F64.to_u64 (F64.div (F64.of_Z rate) x).

(** [DataRate * Duration], [DataSize / Duration], [DataSize / DataRate] *)
Definition rate_mul_duration (bps duration : Z) : Z :=
  F64.to_u64 (F64.mul (F64.of_Z bps) (Duration.as_secs_f64 duration)).
Definition size_div_duration (bits duration : Z) : Z :=
  F64.to_u64 (F64.div (F64.of_Z bits) (Duration.as_secs_f64 duration)).
Definition size_div_rate {E} (bits bps : Z) : Res E Z :=
  Duration.from_secs_f64 (F64.div (F64.of_Z bits) (F64.of_Z bps)).

End DataRate.

Module DataRateTracker.
Import DataRate.

(** Newest first. *)
Record t := mk {
  history : list (Z * Z);
  accumulated_size : Z;
  rate : option Z;
  stable_rate : option Z;
  last_stable_rate : option Z
}.

#[global] Instance t_eta : Settable t := fun s =>
  mk (history s) (accumulated_size s) (rate s) (stable_rate s) (last_stable_rate s).

Definition default : t := mk [] 0 None None None.

Definition MAX_DURATION : Z := Duration.from_millis 5000.
Definition MIN_DURATION : Z := Duration.from_millis 500.

Definition push (self : t) (size time : Z) : t :=
  self <| history ::= cons (time, size) |>
       <| accumulated_size ::= fun a => size_add a size |>.

Definition push_bytes (self : t) (size time : Z) : t := push self (size_from_bytes size) time.

Fixpoint count_while {A} (f : A -> bool) (l : list A) : nat :=
  match l with
  | [] => 0
  | x :: l' => if f x then S (count_while f l') else 0
  end.

Definition update (self : t) (now : Z) : t :=
  let deadline := now - MAX_DURATION in
  let count_to_remove := count_while (fun e => e.1 <? deadline) (rev (history self)) in
  let at_ := (length (history self) - count_to_remove)%nat in
  let removed := drop at_ (history self) in
  let history := take at_ (history self) in
  let accumulated_size :=
    fold_left (fun a e => size_sub a e.2) removed (accumulated_size self) in
  let duration :=
    match last history with
    | Some (oldest, _) => Duration.saturating_duration_since now oldest
    | None => 0
    end in
  let rate :=
    if MIN_DURATION <=? duration then Some (size_div_duration accumulated_size duration) else None in
  let last_stable_rate := stable_rate self in
  let stable_rate :=
    match rate with
    | None => None
    | Some rate =>
        Some (match last_stable_rate with
              | Some last =>
                  rate_add (mul_f64 last F64.p9) (mul_f64 rate (F64.sub F64.one F64.p9))
              | None => rate
              end)
    end in
  mk history accumulated_size rate stable_rate last_stable_rate.

End DataRateTracker.

(** * Theorems *)


Module DataRateTrackerFacts.
Import DataRateTracker DataRate.

Definition total (h : list (Z * Z)) : Z := u64 (foldr (fun e a => e.2 + a) 0 h).

(** [accumulated_size] is the size of what is in the history. *)
Definition wf (s : t) : Prop := accumulated_size s = total (history s).

Lemma u64_add_l a b : u64 (u64 a + b) = u64 (a + b).
Proof. unfold u64, wrap. apply Zplus_mod_idemp_l. Qed.

Lemma u64_sub_l a b : u64 (u64 a - b) = u64 (a - b).
Proof. unfold u64, wrap. apply Zminus_mod_idemp_l. Qed.

Lemma push_wf s size time : wf s -> wf (push s size time).
Proof.
  unfold wf, push, total. cbn. intros ->. unfold size_add. rewrite u64_add_l. f_equal. lia.
Qed.

Lemma foldr_total_app (h1 h2 : list (Z * Z)) :
  foldr (fun e a => e.2 + a) 0 (h1 ++ h2) =
  foldr (fun e a => e.2 + a) 0 h1 + foldr (fun e a => e.2 + a) 0 h2.
Proof. induction h1 as [|x h1 IH]; simpl; [lia|]. rewrite IH. lia. Qed.

Lemma fold_left_sub (r : list (Z * Z)) a :
  fold_left (fun a e => size_sub a e.2) r (u64 a) = u64 (a - foldr (fun e a => e.2 + a) 0 r).
Proof.
  revert a. induction r as [|x r IH]; intros a; simpl; [f_equal; lia|].
  unfold size_sub at 2. rewrite u64_sub_l, IH. f_equal. lia.
Qed.

Lemma update_wf s now : wf s -> wf (update s now).
Proof.
  unfold wf, update, total. cbn. intros ->. rewrite fold_left_sub. f_equal.
  rewrite <- (take_drop (length (history s) -
    count_while (λ e : Z * Z, e.1 <? now - MAX_DURATION) (rev (history s))) (history s)) at 1.
  rewrite foldr_total_app. lia.
Qed.

End DataRateTrackerFacts.
