(* ===== verification/FloatBounds.v ===== *)
(** * FloatBounds: what rounding cannot exceed

    The one fact about binary64 rounding that the server's arithmetic rests on:
    rounding never crosses a representable number.  From it, bounds on the
    results of the operations of [Float] on non-negative numbers, and the absence
    of overflow where the code converts them back to durations. *)
From Stdlib Require Import Floats.SpecFloat.
From S2P Require Import Prelude Float.

Module FloatFacts.
Import F64.

(** The value of [m * 2^e], in units far below the smallest number. *)
Definition K : Z := 4000.
Definition val (m e : Z) : Z := m * 2 ^ (e + K).

Lemma val_shift m e n : 0 <= n -> - K <= e -> val m (e + n) = val (m * 2 ^ n) e.
Proof.
  intros Hn He. unfold val, K in *. rewrite <- Z.mul_assoc, <- Z.pow_add_r by lia. do 2 f_equal. lia.
Qed.

Lemma pow_pos e : - K <= e -> 0 < 2 ^ (e + K).
Proof. intros. apply Z.pow_pos_nonneg; unfold K in *; lia. Qed.

Lemma val_le m m' e : - K <= e -> val m e <= val m' e <-> m <= m'.
Proof. intros He. unfold val. pose proof (pow_pos e He). nia. Qed.

Lemma val_lt m m' e : - K <= e -> val m e < val m' e <-> m < m'.
Proof. intros He. unfold val. pose proof (pow_pos e He). nia. Qed.

Lemma val_nonneg m e : 0 <= m -> 0 <= val m e.
Proof. intros. unfold val. pose proof (Z.pow_nonneg 2 (e + K)). nia. Qed.

(** ** Digits and shifts *)

Lemma digits2_pos_bounds p : 2 ^ (Z.pos (digits2_pos p) - 1) <= Z.pos p < 2 ^ Z.pos (digits2_pos p).
Proof.
  induction p as [p IH|p IH|]; cbn [digits2_pos]; [| |done];
    rewrite Pos2Z.inj_succ; set (d := Z.pos (digits2_pos p)) in *;
    replace (Z.succ d - 1) with (Z.succ (d - 1)) by lia;
    rewrite !Z.pow_succ_r by lia; lia.
Qed.

Lemma digits_bounds m : 0 < m -> 2 ^ (Zdigits2 m - 1) <= m < 2 ^ Zdigits2 m.
Proof. destruct m as [|p|p]; [lia| |lia]. intros _. apply digits2_pos_bounds. Qed.

Lemma digits_nonneg m : 0 <= Zdigits2 m.
Proof. destruct m; cbn; lia. Qed.

#[global] Instance location_eq_dec : EqDecision location.
Proof. solve_decision. Defined.

(** Nothing was lost so far. *)
Definition exact (r : shr_record) : Prop := loc_of_shr_record r = loc_Exact.

Lemma shr_1_spec r : 0 <= shr_m r ->
  shr_m (shr_1 r) = shr_m r / 2 /\ (exact r -> (2 | shr_m r) -> exact (shr_1 r)).
Proof.
  destruct r as [m b s]. cbn [shr_m]. intros Hm. split.
  - destruct m as [|[p|p|]|]; cbn; try done; try lia.
    + apply Z.div_unique with 1; lia.
    + apply Z.div_unique with 0; lia.
  - unfold exact. destruct b, s; try done. intros _ [k Hk].
    destruct m as [|[p|p|]|]; cbn; try done; lia.
Qed.

Lemma iter_shr_spec p r : 0 <= shr_m r ->
  shr_m (SpecFloat.iter_pos shr_1 p r) = shr_m r / 2 ^ Z.pos p /\
  (exact r -> (2 ^ Z.pos p | shr_m r) -> exact (SpecFloat.iter_pos shr_1 p r)).
Proof.
  assert (forall a b r, 0 <= shr_m r ->
    (forall r, 0 <= shr_m r -> shr_m (SpecFloat.iter_pos shr_1 a r) = shr_m r / 2 ^ Z.pos a /\
      (exact r -> (2 ^ Z.pos a | shr_m r) -> exact (SpecFloat.iter_pos shr_1 a r))) ->
    (forall r, 0 <= shr_m r -> shr_m (SpecFloat.iter_pos shr_1 b r) = shr_m r / 2 ^ Z.pos b /\
      (exact r -> (2 ^ Z.pos b | shr_m r) -> exact (SpecFloat.iter_pos shr_1 b r))) ->
    shr_m (SpecFloat.iter_pos shr_1 b (SpecFloat.iter_pos shr_1 a r)) = shr_m r / 2 ^ (Z.pos a + Z.pos b) /\
    (exact r -> (2 ^ (Z.pos a + Z.pos b) | shr_m r) -> exact (SpecFloat.iter_pos shr_1 b (SpecFloat.iter_pos shr_1 a r)))) as Hcomp.
  { clear. intros a b r Hr Ha Hb. destruct (Ha r Hr) as [A1 A2].
    assert (0 <= shr_m (SpecFloat.iter_pos shr_1 a r)) as H1 by (rewrite A1; apply Z.div_pos; lia).
    destruct (Hb _ H1) as [B1 B2]. rewrite B1, A1, Z.pow_add_r, Z.div_div by lia. split; [done|].
    intros He [k Hk]. apply B2.
    - apply A2; [done|]. exists (k * 2 ^ Z.pos b). rewrite Hk. ring.
    - rewrite A1, Hk. replace (k * (2 ^ Z.pos a * 2 ^ Z.pos b)) with (k * 2 ^ Z.pos b * 2 ^ Z.pos a) by ring.
      rewrite Z.div_mul by lia. by exists k. }
  revert r. induction p as [p IH|p IH|]; intros r Hr; cbn [SpecFloat.iter_pos].
  - destruct (shr_1_spec r Hr) as [S1 S2].
    assert (0 <= shr_m (shr_1 r)) as H1 by (rewrite S1; apply Z.div_pos; lia).
    destruct (Hcomp p p (shr_1 r) H1 IH IH) as [C1 C2].
    replace (Z.pos p~1) with (1 + (Z.pos p + Z.pos p)) by lia.
    rewrite C1, S1, (Z.pow_add_r 2 1), Z.div_div by lia. split; [done|].
    intros He [k Hk]. change (2 ^ 1) with 2 in Hk. apply C2.
    + apply S2; [done|]. exists (k * 2 ^ (Z.pos p + Z.pos p)). rewrite Hk. ring.
    + rewrite S1, Hk. replace (k * (2 * 2 ^ (Z.pos p + Z.pos p))) with (k * 2 ^ (Z.pos p + Z.pos p) * 2) by ring.
      rewrite Z.div_mul by lia. by exists k.
  - replace (Z.pos p~0) with (Z.pos p + Z.pos p) by lia. by apply Hcomp.
  - by apply shr_1_spec.
Qed.

(** How far [shr_fexp] shifts. *)
Definition fe : Z -> Z := fexp prec emax.

Lemma fe_eq z : fe z = Z.max (z - 53) (-1074).
Proof. done. Qed.

Lemma shr_fexp_spec m e l : 0 <= m ->
  let n := Z.max 0 (fe (Zdigits2 m + e) - e) in
  let '(r, e') := shr_fexp prec emax m e l in
  e' = e + n /\ shr_m r = m / 2 ^ n /\ (l = loc_Exact -> (2 ^ n | m) -> exact r) /\
  (n = 0 -> loc_of_shr_record r = l).
Proof.
  intros Hm. cbn zeta. unfold shr_fexp. fold fe.
  assert (shr_m (shr_record_of_loc m l) = m) as Er by (by destruct l as [|[]]).
  assert (loc_of_shr_record (shr_record_of_loc m l) = l) as El by (by destruct l as [|[]]).
  destruct (fe (Zdigits2 m + e) - e) as [|p|p] eqn:En; cbn [shr].
  - rewrite Z.max_r by lia. rewrite Z.div_1_r. split_and!; [lia|done| |done]. intros ->. done.
  - rewrite Z.max_r by lia. rewrite <- Er in Hm. destruct (iter_shr_spec p _ Hm) as [I1 I2].
    rewrite Er in *. split_and!; [done|done| |lia]. intros ->. by apply I2.
  - rewrite Z.max_l by lia. rewrite Z.div_1_r. split_and!; [lia|done| |done]. intros ->. done.
Qed.

Lemma round_le m l : m <= round_nearest_even m l <= m + 1 /\ (l = loc_Exact -> round_nearest_even m l = m).
Proof. destruct l as [|[]]; cbn; try (split; [lia|done]). destruct (Z.even m); split; lia || done. Qed.

(** ** Rounding never crosses a representable number *)

Record representable (m e : Z) : Prop := {
  rep_m : 0 < m < 2 ^ 53;
  rep_e : -1074 <= e <= 971
}.

(** The value of a non-negative result, and that it is one. *)
Definition fval (x : F64.t) : Z :=
  match x with S754_finite false m e => val (Z.pos m) e | _ => 0 end.

Definition good (x : F64.t) : Prop :=
  match x with
  | S754_zero _ => True
  | S754_finite false m e => representable (Z.pos m) e
  | _ => False
  end.

Lemma fval_nonneg x : 0 <= fval x.
Proof. destruct x as [| | |[] m e]; cbn; try done. by apply val_nonneg. Qed.

(** What is above the representable numbers. *)
Lemma val_small_digits bm be m e d : representable bm be -> 0 < m -> - K <= e -> 2 ^ (d - 1) <= m ->
  0 < d -> val m e <= val bm be -> d - 1 + e < 53 + be.
Proof.
  intros [Hm He] Hpos Hke Hd Hd0 Hle. destruct (Z.lt_ge_cases (d - 1 + e) (53 + be)) as [|Hge]; [done|].
  exfalso. assert (val bm be < 2 ^ (53 + (be + K))) as H1.
  { assert (- K <= be) as Hk by (unfold K; lia). pose proof (pow_pos be Hk).
    unfold val. rewrite (Z.pow_add_r 2 53) by (unfold K in *; lia). apply Z.mul_lt_mono_pos_r; [exact H|apply Hm]. }
  assert (2 ^ (d - 1 + (e + K)) <= val m e) as H2.
  { unfold val. rewrite (Z.pow_add_r 2 (d - 1)) by (unfold K in *; lia). apply Z.mul_le_mono_nonneg_r; [|done].
    apply Z.pow_nonneg. lia. }
  assert (2 ^ (53 + (be + K)) <= 2 ^ (d - 1 + (e + K))) by (apply Z.pow_le_mono_r; unfold K in *; lia). lia.
Qed.

(** The first rounding. *)
Lemma rounded_le m e l bm be r e1 : 0 <= m -> - K <= e -> representable bm be ->
  val m e <= val bm be -> (l <> loc_Exact -> val m e < val bm be /\ e <= fe (Zdigits2 m + e)) ->
  shr_fexp prec emax m e l = (r, e1) ->
  let m2 := round_nearest_even (shr_m r) (loc_of_shr_record r) in
  0 <= m2 /\ val m2 e1 <= val bm be /\ (e1 = e \/ e1 = -1074 \/ (0 < m /\ e1 = Zdigits2 m + e - 53)) /\ e <= e1.
Proof.
  intros Hm He Hb Hle Hl E. pose proof (fe_eq (Zdigits2 m + e)) as Hfe. pose proof (shr_fexp_spec m e l Hm) as Hs. rewrite E in Hs. cbn zeta in Hs.
  set (n := Z.max 0 (fe (Zdigits2 m + e) - e)) in *. destruct Hs as (-> & Hr & Hex & H0).
  assert (0 <= n) as Hn by lia. set (m1 := shr_m r) in *.
  pose proof (round_le m1 (loc_of_shr_record r)) as [Hrl Hre].
  set (m2 := round_nearest_even m1 (loc_of_shr_record r)) in *. cbn zeta.
  assert (0 <= m1) as Hm1 by (rewrite Hr; apply Z.div_pos; lia).
  assert (m1 * 2 ^ n <= m) as Hdown by (rewrite Hr, Z.mul_comm; apply Z.mul_div_le; lia).
  assert (val m1 (e + n) <= val m e) as Hv1 by (rewrite val_shift by done; by apply val_le).
  split; [lia|]. split; [|split; [|lia]].
  - pose proof (rep_m _ _ Hb) as Hbm. pose proof (rep_e _ _ Hb) as Hbe.
    assert (1 <= 2 ^ n) as H2n by (pose proof (Z.pow_pos_nonneg 2 n); lia).
    destruct (Z.le_gt_cases (e + n) be) as [Hc|Hc].
    + set (b := bm * 2 ^ (be - (e + n))).
      assert (val bm be = val b (e + n)) as Ev.
      { unfold b. rewrite <- val_shift by lia. f_equal. lia. }
      rewrite Ev in *. apply val_le; [lia|].
      assert (m1 <= b) as Hb1 by (apply (val_le _ _ (e + n)); lia).
      destruct (Z.lt_ge_cases m1 b) as [|Hge]; [lia|].
      assert (m1 = b) as Eb by lia.
      assert (val m e = val b (e + n)) as Em by (rewrite <- Eb in *; lia).
      assert (l = loc_Exact) as El.
      { destruct l; [done|]. destruct (Hl ltac:(done)). lia. }
      rewrite Hre; [lia|]. apply Hex; [done|]. exists b.
      rewrite val_shift in Em by done. apply (f_equal (fun z => z / 2 ^ (e + K))) in Em.
      unfold val in Em. pose proof (pow_pos e He). rewrite !Z.div_mul in Em by lia. done.
    + destruct (Z.eq_dec m 0) as [->|Hne].
      { assert (m1 = 0) as E1 by (rewrite Hr; apply Z.div_0_l; lia).
        destruct (decide (l = loc_Exact)) as [El|El].
        - rewrite Hre, E1; [apply val_nonneg; lia|]. apply Hex; [done|]. apply Z.divide_0_r.
        - destruct (Hl El) as [_ H1]. change (Zdigits2 0) with 0 in *. unfold n in *. lia. }
      pose proof (digits_bounds m ltac:(lia)) as [Hd _]. pose proof (digits_nonneg m).
      assert (0 < Zdigits2 m) by (destruct m; cbn; lia).
      pose proof (val_small_digits bm be m e (Zdigits2 m) Hb ltac:(lia) He Hd ltac:(lia) Hle).
      assert (n = 0) as En by (unfold n in *; lia).
      destruct (decide (l = loc_Exact)) as [El|El].
      * rewrite Hre by (rewrite H0; done). lia.
      * destruct (Hl El) as [_ Hee]. unfold n in *. lia.
  - unfold n. destruct (Z.eq_dec m 0) as [->|Hne]; [change (Zdigits2 0) with 0 in *; lia|]. lia.
Qed.

Lemma round_aux_le m e l bm be : 0 <= m -> - K <= e <= 971 -> representable bm be ->
  val m e <= val bm be -> (l <> loc_Exact -> val m e < val bm be /\ e <= fe (Zdigits2 m + e)) ->
  good (binary_round_aux prec emax false m e l) /\
  fval (binary_round_aux prec emax false m e l) <= val bm be.
Proof.
  intros Hm He Hb Hle Hl. unfold binary_round_aux.
  destruct (shr_fexp prec emax m e l) as [r e1] eqn:E.
  destruct (rounded_le m e l bm be r e1 Hm ltac:(lia) Hb Hle Hl E) as (Hm2 & Hv2 & He1 & Hee).
  set (m2 := round_nearest_even _ _) in *.
  pose proof (shr_fexp_spec m2 e1 loc_Exact Hm2) as Hs. destruct (shr_fexp prec emax m2 e1 loc_Exact) as [r3 e3].
  cbn zeta in Hs. set (n := Z.max 0 (fe (Zdigits2 m2 + e1) - e1)) in *. destruct Hs as (-> & Hr & _ & _).
  assert (0 <= n) as Hn by lia. set (m3 := shr_m r3) in *.
  assert (0 <= m3) as Hm3 by (rewrite Hr; apply Z.div_pos; lia).
  assert (m3 * 2 ^ n <= m2) as Hdown by (rewrite Hr, Z.mul_comm; apply Z.mul_div_le; lia).
  assert (val m3 (e1 + n) <= val bm be) as Hv3.
  { rewrite val_shift by lia. etrans; [|exact Hv2]. apply val_le; lia. }
  destruct m3 as [|p|p] eqn:Ep; [split; [done|apply val_nonneg; destruct Hb; lia]| |lia].
  rewrite <- Ep in *. assert (0 < m2) as Hpos.
  { assert (0 < 2 ^ n) by (apply Z.pow_pos_nonneg; lia). nia. }
  pose proof (digits_bounds m2 Hpos) as [Hd Hd'].
  assert (0 < Zdigits2 m2) by (destruct m2; cbn; lia).
  pose proof (val_small_digits bm be m2 e1 _ Hb Hpos ltac:(lia) Hd ltac:(lia) Hv2) as Hsmall.
  pose proof (rep_e _ _ Hb). assert (e1 + n <= 971) as Hmax.
  { unfold n. rewrite fe_eq. destruct He1 as [->|[->|[Hp ->]]]; [lia..|].
    pose proof (digits_bounds m Hp) as [Hdm _]. assert (0 < Zdigits2 m) by (destruct m; cbn; lia).
    pose proof (val_small_digits bm be m e _ Hb Hp ltac:(lia) Hdm ltac:(lia) Hle). lia. }
  change (emax - prec) with 971. rewrite (proj2 (Z.leb_le _ _) Hmax). cbn [good fval]. rewrite <- Ep.
  split; [|done]. split; [|unfold n in *; rewrite fe_eq in *; lia]. split; [lia|].
  rewrite Hr. apply Z.div_lt_upper_bound; [lia|]. rewrite <- Z.pow_add_r by lia.
  eapply Z.lt_le_trans; [exact Hd'|]. apply Z.pow_le_mono_r; [lia|]. unfold n. rewrite fe_eq. lia.
Qed.

(** ** The operations *)

Lemma iter_xO m d : Z.pos (Pos.iter xO m d) = Z.pos m * 2 ^ Z.pos d.
Proof.
  induction d as [|d IH] using Pos.peano_ind; [cbn; lia|].
  rewrite Pos.iter_succ, Pos2Z.inj_succ, Z.pow_succ_r by lia. lia.
Qed.

(** Aligning keeps the value, and never raises the exponent. *)
Lemma shl_align_spec m e t : - K <= Z.min e t ->
  val (Z.pos (fst (shl_align m e t))) (snd (shl_align m e t)) = val (Z.pos m) e /\
  snd (shl_align m e t) = Z.min e t.
Proof.
  intros Hk. unfold shl_align. destruct (t - e) as [|d|d] eqn:E; cbn [fst snd].
  - split; [done|lia].
  - split; [done|lia].
  - split; [|lia]. rewrite iter_xO, <- val_shift by lia. f_equal. lia.
Qed.

Lemma binary_round_le m e bm be : -1074 <= e <= 971 -> representable bm be ->
  val (Z.pos m) e <= val bm be ->
  good (binary_round prec emax false m e) /\ fval (binary_round prec emax false m e) <= val bm be.
Proof.
  intros He Hb Hle. unfold binary_round. fold fe.
  pose proof (fe_eq (Z.pos (digits2_pos m) + e)) as Hfe. set (t := fe _) in *.
  destruct (shl_align_spec m e t) as [Hv Hs]; [unfold K; lia|].
  destruct (shl_align m e t) as [mz ez]. cbn [fst snd] in Hv, Hs.
  apply round_aux_le; [lia|unfold K; lia|done|by rewrite Hv|done].
Qed.

Lemma of_Z_le z bm be : 0 <= z -> representable bm be -> val z 0 <= val bm be ->
  good (of_Z z) /\ fval (of_Z z) <= val bm be.
Proof.
  intros Hz Hb Hle. unfold of_Z, binary_normalize. destruct z as [|m|m]; [|by apply binary_round_le|lia].
  split; [done|]. apply val_nonneg. pose proof (rep_m _ _ Hb). lia.
Qed.

Lemma mul_le x y bm be : good x -> good y -> representable bm be ->
  fval x * fval y <= val bm be * 2 ^ K ->
  (forall m e m' e', x = S754_finite false m e -> y = S754_finite false m' e' -> e + e' <= 971) ->
  good (mul x y) /\ fval (mul x y) <= val bm be.
Proof.
  intros Hx Hy Hb Hle He. pose proof (val_nonneg bm be ltac:(destruct Hb; lia)).
  destruct x as [| | |[] m e], y as [| | |[] m' e']; try done. cbn [mul SFmul xorb].
  specialize (He _ _ _ _ eq_refl eq_refl). pose proof (rep_e _ _ Hx). pose proof (rep_e _ _ Hy).
  cbn [fval] in Hle. apply round_aux_le; [lia|unfold K; lia|done| |done].
  unfold val in Hle |- *. pose proof (Z.pow_pos_nonneg 2 K ltac:(lia) ltac:(unfold K; lia)).
  apply (Z.mul_le_mono_pos_r _ _ (2 ^ K)); [done|]. etrans; [|exact Hle].
  rewrite Pos2Z.inj_mul, <- !Z.mul_assoc, <- Z.pow_add_r by (unfold K; lia).
  rewrite (Z.mul_comm (2 ^ (e + K))), <- !Z.mul_assoc, <- Z.pow_add_r by (unfold K; lia).
  replace (e' + K + (e + K)) with (e + e' + K + K) by lia. lia.
Qed.

Lemma pos_digits m : 0 < m -> 0 < Zdigits2 m.
Proof. destruct m; cbn; lia. Qed.

Lemma digits_ge m d : 0 <= d -> 2 ^ d <= m -> d < Zdigits2 m.
Proof.
  intros Hd Hm. pose proof (Z.pow_pos_nonneg 2 d ltac:(lia) Hd).
  pose proof (digits_bounds m ltac:(lia)) as [_ Hlt]. apply (Z.pow_lt_mono_r_iff 2); [lia|apply digits_nonneg|lia].
Qed.

Lemma new_location_spec m r : new_location m r <> loc_Exact <-> r <> 0.
Proof.
  unfold new_location, new_location_even, new_location_odd.
  destruct (Z.even m), (Z.eqb_spec r 0); try done; split; done.
Qed.

(** The quotient before rounding. *)
Lemma div_core_spec m1 e1 m2 e2 q e l : 0 < m1 -> 0 < m2 ->
  SFdiv_core_binary prec emax m1 e1 m2 e2 = (q, e, l) ->
  let D := Zdigits2 m1 + e1 - (Zdigits2 m2 + e2) in
  e = Z.min (fe D) (e1 - e2) /\ 0 <= q /\
  m2 * q <= m1 * 2 ^ (e1 - e2 - e) /\ (l <> loc_Exact -> m2 * q < m1 * 2 ^ (e1 - e2 - e)) /\
  e <= fe (Zdigits2 q + e).
Proof.
  intros H1 H2 E. cbn zeta. unfold SFdiv_core_binary in E. fold fe in E.
  pose proof (fe_eq (Zdigits2 m1 + e1 - (Zdigits2 m2 + e2))) as Hfe.
  set (D := Zdigits2 m1 + e1 - (Zdigits2 m2 + e2)) in *. set (e' := Z.min (fe D) (e1 - e2)) in *.
  set (m' := match e1 - e2 - e' with Zpos _ => _ | Z0 => _ | Zneg _ => _ end) in E.
  assert (m' = m1 * 2 ^ (e1 - e2 - e')) as Em.
  { unfold m'. pose proof (Z.le_min_r (fe D) (e1 - e2)). destruct (e1 - e2 - e') as [|p|p] eqn:Es; [cbn; lia| |lia].
    rewrite Z.shiftl_mul_pow2 by lia. done. }
  pose proof (Z_div_mod m' m2 ltac:(lia)) as Hd. destruct (Z.div_eucl m' m2) as [q' r] eqn:Edm.
  injection E as <- <- <-. destruct Hd as [Hd Hr]. rewrite <- Em.
  assert (0 < m') as Hm' by (rewrite Em; apply Z.mul_pos_pos; [done|apply Z.pow_pos_nonneg; lia]).
  assert (0 <= q') as Hq by nia. split; [done|]. split; [done|]. split; [lia|].
  split; [intros Hl%new_location_spec; lia|].
  rewrite fe_eq. destruct (Z.le_gt_cases e' (-1074)) as [|Hbig]; [lia|].
  assert (52 < Zdigits2 q'); [|lia]. apply digits_ge; [lia|].
  pose proof (digits_bounds m1 H1) as [B1 _]. pose proof (digits_bounds m2 H2) as [_ B2].
  pose proof (pos_digits m1 H1). pose proof (digits_nonneg m2).
  assert (2 ^ 52 * m2 <= m') as Hm2.
  { etrans; [apply (Z.mul_le_mono_nonneg_l _ (2 ^ Zdigits2 m2)); lia|]. rewrite <- Z.pow_add_r, Em by lia.
    etrans; [|apply Z.mul_le_mono_nonneg_r; [apply Z.pow_nonneg; lia|exact B1]].
    rewrite <- Z.pow_add_r by lia. apply Z.pow_le_mono_r; lia. }
  nia.
Qed.

(** The two sides of a quotient's bound, without the divisor's exponent. *)
Lemma quotient_le m1 e1 m2 e2 bm be : -1074 <= e1 <= 971 -> -1074 <= e2 <= 971 ->
  val m1 e1 * 2 ^ K <= val m2 e2 * val bm be -> m1 * 2 ^ (e1 - e2 + K) <= m2 * val bm be.
Proof.
  intros H1 H2 Hle. unfold val in Hle |- *. pose proof (pow_pos e2 ltac:(unfold K; lia)).
  apply (Z.mul_le_mono_pos_r _ _ (2 ^ (e2 + K))); [done|].
  rewrite <- Z.mul_assoc, <- Z.pow_add_r by (unfold K; lia).
  rewrite <- Z.mul_assoc, <- Z.pow_add_r in Hle by (unfold K; lia).
  replace (e1 - e2 + K + (e2 + K)) with (e1 + K + K) by lia. lia.
Qed.

Lemma quotient_digits m1 m2 bm be E : 0 < m1 -> 0 < m2 -> representable bm be -> 0 <= E + K ->
  m1 * 2 ^ (E + K) <= m2 * val bm be -> Zdigits2 m1 + E - Zdigits2 m2 <= 53 + be.
Proof.
  intros H1 H2 [Hm He] HE Hle. pose proof (digits_bounds m1 H1) as [B1 _].
  pose proof (digits_bounds m2 H2) as [_ B2]. pose proof (pos_digits m1 H1). pose proof (digits_nonneg m2).
  pose proof (pow_pos be ltac:(unfold K; lia)) as Hp.
  enough (Zdigits2 m1 - 1 + (E + K) < Zdigits2 m2 + 53 + (be + K)) by lia.
  apply (Z.pow_lt_mono_r_iff 2); [lia|unfold K in *; lia|].
  rewrite (Z.pow_add_r 2 (_ - 1)), (Z.pow_add_r 2 (_ + 53)), (Z.pow_add_r 2 _ 53) by (unfold K in *; lia).
  eapply Z.le_lt_trans; [apply Z.mul_le_mono_nonneg_r; [apply Z.pow_nonneg; lia|exact B1]|].
  eapply Z.le_lt_trans; [exact Hle|]. unfold val. rewrite Z.mul_assoc.
  apply Z.mul_lt_mono_pos_r; [exact Hp|]. apply Z.mul_lt_mono_nonneg; lia.
Qed.

Lemma div_le x y bm be : good x -> good y -> y <> S754_zero false -> y <> S754_zero true ->
  representable bm be -> fval x * 2 ^ K <= fval y * val bm be ->
  good (div x y) /\ fval (div x y) <= val bm be.
Proof.
  intros Hx Hy Hz Hz' Hb Hle. pose proof (val_nonneg bm be ltac:(destruct Hb; lia)).
  destruct y as [[]| | |[] m2 e2]; try done. destruct x as [| | |[] m1 e1]; try done.
  cbn [div SFdiv xorb]. pose proof (rep_e _ _ Hx). pose proof (rep_e _ _ Hy). pose proof (rep_e _ _ Hb).
  change (good (let '(mz, ez, lz) := SFdiv_core_binary prec emax (Z.pos m1) e1 (Z.pos m2) e2 in
                binary_round_aux prec emax false mz ez lz) /\
          fval (let '(mz, ez, lz) := SFdiv_core_binary prec emax (Z.pos m1) e1 (Z.pos m2) e2 in
                binary_round_aux prec emax false mz ez lz) <= val bm be).
  destruct (SFdiv_core_binary _ _ _ _ _ _) as [[q e] l] eqn:E.
  destruct (div_core_spec _ _ _ _ _ _ _ (Pos2Z.is_pos m1) (Pos2Z.is_pos m2) E) as (He & Hq & Hdn & Hlt & Hdig).
  clear E. cbn zeta in He. pose proof (fe_eq (Zdigits2 (Z.pos m1) + e1 - (Zdigits2 (Z.pos m2) + e2))) as Hfe.
  cbn [fval] in Hle. apply quotient_le in Hle; [|done..].
  pose proof (quotient_digits (Z.pos m1) (Z.pos m2) bm be (e1 - e2) (Pos2Z.is_pos m1) (Pos2Z.is_pos m2) Hb
    ltac:(unfold K; lia) Hle) as HD.
  assert (Z.pos m1 * 2 ^ (e1 - e2 + K) = Z.pos m1 * 2 ^ (e1 - e2 - e) * 2 ^ (e + K)) as Ex.
  { rewrite <- Z.mul_assoc, <- Z.pow_add_r by (unfold K; lia). do 2 f_equal. lia. }
  rewrite Ex in Hle. pose proof (pow_pos e ltac:(unfold K; lia)).
  apply round_aux_le; [done|unfold K; lia|done| |].
  - apply (Z.mul_le_mono_pos_l _ _ (Z.pos m2)); [done|]. etrans; [|exact Hle].
    unfold val. rewrite Z.mul_assoc. by apply Z.mul_le_mono_nonneg_r; [lia|].
  - intros Hl. split; [|done]. apply (Z.mul_lt_mono_pos_l (Z.pos m2)); [done|].
    eapply Z.lt_le_trans; [|exact Hle]. unfold val. rewrite Z.mul_assoc.
    apply Z.mul_lt_mono_pos_r; [done|auto].
Qed.

(** ** Positive integers stay positive *)

Lemma shr_fexp_pos m e l r e' : 0 < m -> -1074 <= e -> shr_fexp prec emax m e l = (r, e') ->
  0 < shr_m r /\ e <= e'.
Proof.
  intros Hm He E. pose proof (shr_fexp_spec m e l ltac:(lia)) as Hs. rewrite E in Hs. cbn zeta in Hs.
  pose proof (fe_eq (Zdigits2 m + e)) as Hfe. destruct Hs as (-> & -> & _). split; [|lia].
  pose proof (digits_bounds m Hm) as [Hd _]. pose proof (pos_digits m Hm).
  apply Z.div_str_pos. split; [apply Z.pow_pos_nonneg; lia|]. etrans; [|exact Hd]. apply Z.pow_le_mono_r; lia.
Qed.

Lemma round_aux_pos m e l : 0 < m -> -1074 <= e -> good (binary_round_aux prec emax false m e l) ->
  exists m' e', binary_round_aux prec emax false m e l = S754_finite false m' e' /\ e <= e'.
Proof.
  intros Hm He. unfold binary_round_aux.
  destruct (shr_fexp prec emax m e l) as [r e1] eqn:E1. apply shr_fexp_pos in E1 as [H1 He1]; [|done..].
  pose proof (round_le (shr_m r) (loc_of_shr_record r)) as [Hle _].
  destruct (shr_fexp _ _ (round_nearest_even _ _) _ _) as [r3 e3] eqn:E3.
  apply shr_fexp_pos in E3 as [H3 He3]; [|lia..]. destruct (shr_m r3) as [|p|p]; [lia| |lia].
  case_if; [|done]. intros _. exists p, e3. split; [done|lia].
Qed.

Lemma of_Z_pos z : 0 < z < 2 ^ 64 ->
  exists m e, of_Z z = S754_finite false m e /\ representable (Z.pos m) e /\ -53 <= e <= 64 + 53.
Proof.
  intros Hz. destruct (of_Z_le z 1 64) as [Hg Hv]; [lia|split; lia| |].
  { change 64 with (0 + 64). rewrite val_shift by (unfold K; lia). apply val_le; [unfold K; lia|lia]. }
  assert (exists m e, of_Z z = S754_finite false m e /\ -53 <= e) as (m & e & E & He).
  { clear Hv. revert Hg. unfold of_Z, binary_normalize. destruct z as [|m|m]; [lia| |lia]. unfold binary_round. fold fe.
    pose proof (fe_eq (Z.pos (digits2_pos m) + 0)) as Hfe. set (t := fe _) in *.
    destruct (shl_align_spec m 0 t) as [_ Hs]; [unfold K; lia|].
    destruct (shl_align m 0 t) as [mz ez]. cbn [fst snd] in Hs. intros Hg.
    apply round_aux_pos in Hg as (m' & e' & -> & He); [|lia..]. exists m', e'. split; [done|lia]. }
  exists m, e. rewrite E in Hg, Hv. split_and!; [done|exact Hg|done|].
  pose proof (val_small_digits 1 64 (Z.pos m) e 1 ltac:(split; lia) ltac:(lia) ltac:(unfold K; lia) ltac:(lia) ltac:(lia) Hv). lia.
Qed.

(** ** Rust's casts and durations *)

Lemma trunc_le m e : - K <= e -> trunc m e * 2 ^ K <= val (Z.pos m) e.
Proof.
  intros He. unfold trunc, val. destruct (Z.leb_spec 0 e).
  - rewrite Z.pow_add_r by (unfold K; lia). lia.
  - replace (2 ^ K) with (2 ^ (- e) * 2 ^ (e + K)) by (rewrite <- Z.pow_add_r by (unfold K in *; lia); f_equal; lia).
    rewrite Z.mul_assoc. apply Z.mul_le_mono_nonneg_r; [apply Z.pow_nonneg; lia|].
    rewrite Z.mul_comm. apply Z.mul_div_le, Z.pow_pos_nonneg; lia.
Qed.

Lemma to_uint_le w x : good x -> to_uint w x * 2 ^ K <= fval x.
Proof.
  destruct x as [| | |[] m e]; try done. intros [_ He]. cbn [to_uint fval].
  pose proof (trunc_le m e ltac:(unfold K; lia)). pose proof (Z.pow_nonneg 2 K ltac:(lia)). nia.
Qed.

Lemma to_uint_nonneg w x : good x -> 0 <= umax w -> 0 <= to_uint w x.
Proof.
  destruct x as [| | |[] m e]; try done. intros [_ He] Hw. cbn [to_uint].
  apply Z.min_glb; [done|]. unfold trunc. case_if; [apply Z.mul_nonneg_nonneg; [done|apply Z.pow_nonneg; lia]|].
  apply Z.div_pos; [done|apply Z.pow_pos_nonneg; lia].
Qed.

Lemma round_half_even_le m e n : - K <= e -> val (Z.pos m) e <= n * 2 ^ K -> round_half_even m e <= n.
Proof.
  intros He Hle. unfold round_half_even, val in *. pose proof (Z.pow_pos_nonneg 2 K ltac:(lia) ltac:(unfold K; lia)).
  destruct (Z.leb_spec 0 e).
  - rewrite Z.pow_add_r in Hle by (unfold K; lia). nia.
  - replace (2 ^ K) with (2 ^ (- e) * 2 ^ (e + K)) in * by (rewrite <- Z.pow_add_r by (unfold K in *; lia); f_equal; lia).
    pose proof (pow_pos e He). assert (Z.pos m <= n * 2 ^ (- e)) as Hm by nia.
    pose proof (Z.pow_pos_nonneg 2 (- e) ltac:(lia) ltac:(lia)) as Hp.
    pose proof (Z.div_mod (Z.pos m) (2 ^ (- e)) ltac:(lia)) as Hdm.
    pose proof (Z.mod_pos_bound (Z.pos m) (2 ^ (- e)) Hp). set (p := 2 ^ (- e)) in *.
    set (q := Z.pos m / p) in *. set (r := Z.pos m mod p) in *.
    assert (q <= n) by nia. destruct (Z.compare_spec (2 * r) p).
    + assert (q < n) by nia. case_if; lia.
    + lia.
    + assert (q < n) by nia. lia.
Qed.

Lemma round_half_even_nonneg m e : 0 <= round_half_even m e.
Proof.
  unfold round_half_even. case_if; [apply Z.mul_nonneg_nonneg; [done|apply Z.pow_nonneg; lia]|].
  assert (0 <= Z.pos m / 2 ^ (- e)) by (apply Z.div_pos; [done|apply Z.pow_pos_nonneg; lia]).
  destruct (_ ?= _); [case_if|..]; lia.
Qed.

(** A value of at most [n] nanoseconds, and so below the limit, is converted. *)
Lemma from_secs_f64_le {E} x n : good x -> 0 <= n < 2 ^ 64 -> fval x * 10 ^ 9 <= n * 2 ^ K ->
  exists d, Duration.from_secs_f64 (E := E) x = Ok d /\ 0 <= d <= n.
Proof.
  intros Hx Hn Hle. destruct x as [| | |[] m e]; try done; cbn [Duration.from_secs_f64].
  - exists 0. split; [done|lia].
  - destruct Hx as [Hm He]. cbn [fval] in Hle. pose proof (trunc_le m e ltac:(unfold K; lia)) as Ht.
    assert (trunc m e < 2 ^ 64) as Hlt.
    { pose proof (Z.pow_pos_nonneg 2 K ltac:(lia) ltac:(unfold K; lia)). nia. }
    rewrite (proj2 (Z.ltb_lt _ _) Hlt). eexists. split; [done|]. split; [apply round_half_even_nonneg|].
    apply round_half_even_le; [unfold K; lia|]. unfold val in *. rewrite Pos2Z.inj_mul. lia.
Qed.

(** What half a second at a rate takes back, it gave: a debt of at most the
    half second's data is drained within half a second. *)
Definition half : t := S754_finite false 4503599627370496 (-53).

Lemma half_rate_drained {E} rate debt : 0 < rate < 2 ^ 64 ->
  0 <= debt <= to_u64 (mul (of_Z rate) half) ->
  exists d, Duration.from_secs_f64 (E := E) (div (of_Z debt) (of_Z rate)) = Ok d /\ 0 <= d <= 500000000.
Proof.
  intros Hr Hd. destruct (of_Z_pos rate Hr) as (m & e & E1 & Hrep & He).
  pose proof (rep_m _ _ Hrep) as Hm.
  assert (representable (Z.pos m) (e - 1)) as Hb by (split; lia).
  assert (val (Z.pos m) e = 2 * val (Z.pos m) (e - 1)) as Ev.
  { replace e with (e - 1 + 1) at 1 by lia. rewrite val_shift by (unfold K; lia).
    change (2 ^ 1) with 2. unfold val. lia. }
  assert (fval half = 2 ^ (K - 1)) as Eh by (vm_compute; reflexivity).
  assert (2 ^ K = 2 * 2 ^ (K - 1)) as EK by (vm_compute; reflexivity).
  assert (0 < 2 ^ (K - 1)) as HK by (vm_compute; reflexivity).
  destruct (mul_le (of_Z rate) half (Z.pos m) (e - 1)) as [G1 V1].
  { by rewrite E1. }
  { split; lia. }
  { done. }
  { rewrite E1, Eh, EK. cbn [fval]. rewrite Ev. lia. }
  { intros * E2 E3. rewrite E1 in E2. injection E2 as <- <-. injection E3 as <- <-. lia. }
  assert (debt * 2 ^ K <= val (Z.pos m) (e - 1)) as Hdebt.
  { etrans; [|exact V1]. etrans; [|apply (to_uint_le 64), G1]. apply Z.mul_le_mono_nonneg_r; [lia|apply Hd]. }
  destruct (of_Z_le debt (Z.pos m) (e - 1)) as [G2 V2]; [lia|done|exact Hdebt|].
  assert (representable 1 (-1)) as H1 by (split; lia).
  assert (val 1 (-1) = 2 ^ (K - 1)) as E1' by (vm_compute; reflexivity).
  destruct (div_le (of_Z debt) (of_Z rate) 1 (-1)) as [G3 V3]; try (by rewrite E1); [done..| |].
  { rewrite E1, E1', EK. cbn [fval]. rewrite Ev. nia. }
  apply from_secs_f64_le; [done|lia|]. rewrite E1' in V3. lia.
Qed.

(** Half of an integer, rounded and truncated, is no more than the integer. *)
Lemma half_of_integer_le z : 0 <= z < 2 ^ 64 -> to_u64 (div (of_Z z) (of_Z 2)) <= z.
Proof.
  intros Hz. destruct (Z.eq_dec z 0) as [->|Hne]; [by vm_compute|].
  set (k := Z.log2 z). pose proof (Z.log2_spec z ltac:(lia)) as [Hk1 Hk2]. fold k in Hk1, Hk2.
  pose proof (Z.log2_nonneg z) as Hk0. fold k in Hk0.
  assert (k < 64) as Hk by (apply Z.log2_lt_pow2; lia).
  assert (val 1 (k + 1) = val (2 ^ (k + 1)) 0) as Ev.
  { replace (k + 1) with (0 + (k + 1)) at 1 by lia. rewrite val_shift by (unfold K; lia). f_equal. lia. }
  destruct (of_Z_le z 1 (k + 1)) as [G V]; [lia|split; lia| |].
  { rewrite Ev. apply val_le; [unfold K; lia|]. rewrite Z.add_1_r. lia. }
  assert (of_Z 2 = S754_finite false 4503599627370496 (-51)) as E2 by (vm_compute; reflexivity).
  assert (fval (of_Z 2) = 2 * 2 ^ K) as F2 by (vm_compute; reflexivity).
  assert (val 1 (k + 1) = 2 * val 1 k) as Ek.
  { rewrite val_shift by (unfold K; lia). change (2 ^ 1) with 2. unfold val. lia. }
  destruct (div_le (of_Z z) (of_Z 2) 1 k) as [G' V']; [done| |by rewrite E2..|split; lia| |].
  { rewrite E2. split; lia. }
  { rewrite F2. rewrite Ek in V. pose proof (Z.pow_pos_nonneg 2 K ltac:(lia) ltac:(unfold K; lia)). nia. }
  pose proof (to_uint_le 64 _ G') as Ht. fold (to_u64 (div (of_Z z) (of_Z 2))) in Ht.
  assert (val 1 k = 2 ^ k * 2 ^ K) as Evk by (unfold val; rewrite Z.pow_add_r by (unfold K; lia); lia).
  pose proof (Z.pow_pos_nonneg 2 K ltac:(lia) ltac:(unfold K; lia)).
  rewrite Evk in V'. assert (to_u64 (div (of_Z z) (of_Z 2)) <= 2 ^ k); [|lia].
  apply (Z.mul_le_mono_pos_r _ _ (2 ^ K)); [done|]. lia.
Qed.

(** A conversion to [u64] is a [u64]. *)
Lemma to_u64_nonneg x : 0 <= to_u64 x.
Proof.
  unfold to_u64, to_uint. destruct x as [|[]| |[] m e]; try (unfold umax; lia).
  apply Z.min_glb; [unfold umax; lia|]. unfold trunc.
  case_if; [apply Z.mul_nonneg_nonneg; [done|apply Z.pow_nonneg; lia]|].
  apply Z.div_pos; [done|apply Z.pow_pos_nonneg; boolsplit; lia].
Qed.

End FloatFacts.
