(* ===== verification/Bytes.v ===== *)
(** * Bytes: reading and writing byte strings

    The readers of [src/common/src/lib.rs] and [slice.rs], the [Writer]
    interface of [serialize.rs] with its instances and laws, and the iterator
    helpers [fold_in_chunks_exact], [count_in_chunks_exact] and
    [drain_filter]. *)
From S2P Require Import Prelude Common.

(** ** lib.rs, slice.rs: readers *)
Module Read.

(** [read_bytes] and [read_u16] return the value and the rest of the input. *)
Definition read_bytes (input : bytes) (len : nat) : option (bytes * bytes) :=
  if (len <=? length input)%nat then Some (take len input, drop len input) else None.

Definition parse_be {E} (n : nat) (b : bytes) : Res E Z :=
  sub ← slice 0 n b; Ok (be_val sub).

Definition parse_u16 {E} (b : bytes) : Res E Z := parse_be 2 b.
Definition parse_u24 {E} (b : bytes) : Res E Z := parse_be 3 b.
Definition parse_u32 {E} (b : bytes) : Res E Z := parse_be 4 b.
Definition parse_u48 {E} (b : bytes) : Res E Z := parse_be 6 b.
Definition parse_u64 {E} (b : bytes) : Res E Z := parse_be 8 b.

Definition parse_u16_le {E} (b : bytes) : Res E Z :=
  sub ← slice 0 2 b; Ok (le_val sub).

(** [i16::from_be_bytes]: two's complement. *)
Definition parse_i16 {E} (b : bytes) : Res E Z :=
  sub ← slice 0 2 b;
  let v := be_val sub in
  Ok (if v <? 2 ^ 15 then v else v - 2 ^ 16).

Definition read_u16 (input : bytes) : Res unit (Z * bytes) :=
  '(b, rest) ← ok_or tt (read_bytes input 2);
  v ← parse_u16 b;
  Ok (v, rest).

Definition checked_split_at {A} (l : list A) (mid : nat) : option (list A * list A) :=
  if (length l <? mid)%nat then None else Some (take mid l, drop mid l).

(** [ReadSliceExt::read_slice]: the slice read and the advanced reader. *)
Definition read_slice (self : bytes) (n : nat) : option (bytes * bytes) :=
  if (length self <? n)%nat then None else Some (take n self, drop n self).

End Read.

(** ** lib.rs: iterator helpers *)
Module Iter.

(** One [next()] of the iterator [fold_in_chunks_exact] returns: the folded
    chunk and the remaining inputs. *)
Fixpoint next_chunk {I O} (n : nat) (acc : O -> I -> O) (output : O) (inputs : list I)
    : option (O * list I) :=
  match n with
  | O => Some (output, inputs)
  | S m =>
      match inputs with
      | [] => None
      | i :: rest => next_chunk m acc (acc output i) rest
      end
  end.

(** All the items of the iterator; it runs at most once per input. *)
Fixpoint fold_chunks {I O} (fuel : nat) (chunk_size : nat) (init : O) (acc : O -> I -> O)
    (inputs : list I) : list O :=
  match fuel with
  | O => []
  | S fuel' =>
      match next_chunk chunk_size acc init inputs with
      | None => []
      | Some (o, rest) => o :: fold_chunks fuel' chunk_size init acc rest
      end
  end.

Definition fold_in_chunks_exact {I O} (inputs : list I) (chunk_size : nat) (init : O)
    (acc : O -> I -> O) : Res unit (list O) :=
  _ ← assert_ (negb (chunk_size =? 0)%nat);
  Ok (fold_chunks (length inputs) chunk_size init acc inputs).

Definition count_in_chunks_exact (inputs : list bool) (chunk_size : nat) : Res unit (list nat) :=
  fold_in_chunks_exact inputs chunk_size 0%nat (fun count (bit : bool) => (count + Nat.b2n bit)%nat).

(** [drain_filter] run to exhaustion by index, as the source scans: returns the
    drained elements and what is left in [vector].  The position moves or the
    vector shrinks at every step, so [length vector] steps are enough. *)
Fixpoint drain_loop {A} (fuel : nat) (predicate : A -> bool) (i : nat) (vector : list A)
    : list A * list A :=
  match fuel with
  | O => ([], vector)
  | S fuel' =>
      match vector !! i with
      | None => ([], vector)
      | Some x =>
          if predicate x then
            let '(out, v) := drain_loop fuel' predicate i (take i vector ++ drop (S i) vector) in
            (x :: out, v)
          else drain_loop fuel' predicate (S i) vector
      end
  end.

Definition drain_filter {A} (predicate : A -> bool) (vector : list A) : list A * list A :=
  drain_loop (length vector) predicate 0 vector.

End Iter.

(** ** serialize.rs: the [Writer] trait *)
Module Serialize.

(** [write] appends to a [Vec<u8>]. *)
Class Writer (T : Type) := {
  written_len : T -> nat;
  write : T -> bytes -> bytes
}.

Definition to_vec {T} `{Writer T} (x : T) : bytes := write x [].

(** What a [Writer] promises: [write] only appends, and exactly
    [written_len] bytes. *)
Class WriterLaws (T : Type) `{Writer T} : Prop := {
  write_app : forall x out, write x out = out ++ to_vec x;
  written_len_ok : forall x, length (to_vec x) = written_len x
}.

(** Integers are written at the width their type names. *)
Record U16 := w16 { get16 : Z }.
Record U24 := w24 { get24 : Z }.
Record U32 := w32 { get32 : Z }.
Record U48 := w48 { get48 : Z }.
Record U64 := w64 { get64 : Z }.

#[export] Instance writer_bytes : Writer bytes :=
  { written_len l := length l; write l out := out ++ l }.
#[export] Instance writer_u16 : Writer U16 :=
  { written_len _ := 2%nat; write x out := write (be_bytes 2 (get16 x)) out }.
#[export] Instance writer_u24 : Writer U24 :=
  { written_len _ := 3%nat; write x out := write (drop 1 (be_bytes 4 (get24 x))) out }.
#[export] Instance writer_u32 : Writer U32 :=
  { written_len _ := 4%nat; write x out := write (be_bytes 4 (get32 x)) out }.
#[export] Instance writer_u48 : Writer U48 :=
  { written_len _ := 6%nat; write x out := write (drop 2 (be_bytes 8 (get48 x))) out }.
#[export] Instance writer_u64 : Writer U64 :=
  { written_len _ := 8%nat; write x out := write (be_bytes 8 (get64 x)) out }.
#[export] Instance writer_unit : Writer unit :=
  { written_len _ := 0%nat; write _ out := out }.
#[export] Instance writer_option {T} `{Writer T} : Writer (option T) :=
  { written_len o := match o with None => 0%nat | Some w => written_len w end;
    write o out := match o with None => out | Some w => write w out end }.
#[export] Instance writer_pair {A B} `{Writer A} `{Writer B} : Writer (A * B) :=
  { written_len p := (written_len p.1 + written_len p.2)%nat;
    write p out := write p.2 (write p.1 out) }.
#[export] Instance writer_list {T} `{Writer T} : Writer (list T) | 10 :=
  { written_len l := sum_list_with written_len l;
    write l out := fold_left (fun out w => write w out) l out }.

End Serialize.

(** * Theorems *)

Module ReadFacts.
Import Read.

Lemma parse_be_ok {E} n (b : bytes) :
  (n <= length b)%nat -> parse_be (E:=E) n b = Ok (be_val (take n b)).
Proof.
  intros. unfold parse_be. rewrite slice_no_panic by lia. simpl.
  by rewrite drop_0, Nat.sub_0_r.
Qed.

Lemma parse_be_bytes {E} n z rest :
  uint (8 * Z.of_nat n) z -> parse_be (E:=E) n (be_bytes n z ++ rest) = Ok z.
Proof.
  intros. rewrite parse_be_ok by (rewrite length_app, length_be_bytes; lia).
  rewrite take_app_length' by (by rewrite length_be_bytes).
  rewrite be_val_be_bytes. by rewrite wrap_small.
Qed.

(** Reading an integer out of a subslice that is there. *)
Lemma slice_parse_be {E B} (l : bytes) a b n (f : Z -> Res E B) :
  b = (a + n)%nat -> (b <= length l)%nat ->
  (s ← slice a b l; v ← parse_be n s; f v) = f (be_val (take n (drop a l))).
Proof.
  intros -> Hl. rewrite slice_no_panic by lia. cbn [mbind Res_bind].
  replace (a + n - a)%nat with n by lia.
  rewrite parse_be_ok by (rewrite length_take, length_drop; lia).
  by rewrite take_take, Nat.min_id.
Qed.

Lemma checked_split_at_Some {A} (l : list A) n a b :
  checked_split_at l n = Some (a, b) <-> (n <= length l)%nat /\ a = take n l /\ b = drop n l.
Proof.
  unfold checked_split_at. destruct (Nat.ltb_spec (length l) n); split; intros; simplify_eq;
    destruct_and?; subst; try done; lia.
Qed.

Lemma read_u16_no_panic input : read_u16 input ≠ Panic.
Proof.
  unfold read_u16, read_bytes, parse_u16. destruct (Nat.leb_spec 2 (length input)); simpl; [|done].
  rewrite parse_be_ok; [done|]. rewrite length_take. lia.
Qed.

End ReadFacts.

Module IterFacts.
Import Iter.

Lemma drain_loop_spec {A} (p : A -> bool) fuel i (l : list A) :
  (length l <= fuel + i)%nat -> (i <= length l)%nat ->
  drain_loop fuel p i l =
    (List.filter p (drop i l), take i l ++ List.filter (fun x => negb (p x)) (drop i l)).
Proof.
  revert i l. induction fuel as [|fuel IH]; intros i l Hf Hi; simpl.
  { rewrite drop_ge, take_ge by lia. simpl. by rewrite app_nil_r. }
  destruct (l !! i) as [x|] eqn:Hx.
  2:{ apply lookup_ge_None in Hx. rewrite drop_ge, take_ge by lia. simpl. by rewrite app_nil_r. }
  pose proof (lookup_lt_Some _ _ _ Hx). rewrite (drop_S l x i) by done. simpl.
  destruct (p x) eqn:Hp; simpl.
  - assert (length (take i l) = i) as Hti by (rewrite length_take; lia).
    rewrite IH by (rewrite length_app, Hti, length_drop; lia).
    rewrite drop_app_length', take_app_length' by done. done.
  - rewrite IH by lia. rewrite (take_S_r l i x) by done. by rewrite <- app_assoc.
Qed.

(** The scan by index is the pair of filters, in order. *)
Lemma drain_filter_spec {A} (p : A -> bool) (l : list A) :
  drain_filter p l = (List.filter p l, List.filter (fun x => negb (p x)) l).
Proof. unfold drain_filter. rewrite drain_loop_spec by lia. by rewrite drop_0. Qed.

Lemma next_chunk_spec {I O} (acc : O -> I -> O) n o (l : list I) :
  next_chunk n acc o l =
    if (n <=? length l)%nat then Some (fold_left acc (take n l) o, drop n l) else None.
Proof.
  revert o l. induction n as [|n IH]; intros o [|x l]; simpl; rewrite ?IH; done.
Qed.

(** Every full chunk is folded and the remainder ignored. *)
Lemma fold_chunks_length {I O} n (init : O) (acc : O -> I -> O) fuel (l : list I) :
  (0 < n)%nat -> (length l <= fuel)%nat ->
  length (fold_chunks fuel n init acc l) = (length l / n)%nat.
Proof.
  intros Hn. revert l. induction fuel as [|fuel IH]; intros l Hl; simpl.
  { replace (length l) with 0%nat by lia. by rewrite Nat.Div0.div_0_l. }
  rewrite next_chunk_spec. destruct (Nat.leb_spec n (length l)); simpl.
  - rewrite IH by (rewrite length_drop; lia). rewrite length_drop.
    replace (length l) with (length l - n + 1 * n)%nat at 2 by lia. rewrite Nat.div_add by lia. lia.
  - by rewrite Nat.div_small.
Qed.

End IterFacts.

Module SerializeFacts.
Import Serialize.

#[export] Instance laws_bytes : WriterLaws bytes.
Proof. by split; intros. Qed.
#[export] Instance laws_u16 : WriterLaws U16.
Proof. by split; intros. Qed.
#[export] Instance laws_u24 : WriterLaws U24.
Proof. by split; intros. Qed.
#[export] Instance laws_u32 : WriterLaws U32.
Proof. by split; intros. Qed.
#[export] Instance laws_u48 : WriterLaws U48.
Proof. by split; intros. Qed.
#[export] Instance laws_u64 : WriterLaws U64.
Proof. by split; intros. Qed.
#[export] Instance laws_unit : WriterLaws unit.
Proof. split; intros; [by rewrite app_nil_r | done]. Qed.
#[export] Instance laws_option {T} `{WriterLaws T} : WriterLaws (option T).
Proof.
  split; intros [x|]; intros; simpl; try done.
  - apply write_app.
  - by rewrite app_nil_r.
  - apply written_len_ok.
Qed.

Lemma to_vec_pair {A B} `{WriterLaws A} `{WriterLaws B} (a : A) (b : B) :
  to_vec (a, b) = to_vec a ++ to_vec b.
Proof. unfold to_vec at 1. simpl. apply write_app. Qed.

#[export] Instance laws_pair {A B} `{WriterLaws A} `{WriterLaws B} : WriterLaws (A * B).
Proof.
  split; intros [a b]; intros.
  - rewrite to_vec_pair. simpl. rewrite (write_app b), (write_app a). by rewrite app_assoc.
  - rewrite to_vec_pair, length_app, !written_len_ok. done.
Qed.

Lemma write_list {T} `{WriterLaws T} (l : list T) out :
  write l out = out ++ concat (map to_vec l).
Proof.
  unfold write; simpl. revert out. induction l as [|x l IH]; intros; simpl; [by rewrite app_nil_r|].
  rewrite IH, write_app. by rewrite app_assoc.
Qed.

#[export] Instance laws_list {T} `{WriterLaws T} : WriterLaws (list T).
Proof.
  split.
  - intros. unfold to_vec. by rewrite !write_list.
  - intros l. unfold to_vec. rewrite write_list. simpl.
    induction l as [|x l IH]; simpl; [done|]. by rewrite length_app, IH, written_len_ok.
Qed.

(** The narrow integers are written as their own big-endian bytes. *)
Lemma to_vec_u24 x : to_vec (w24 x) = be_bytes 3 x.
Proof. done. Qed.

Lemma to_vec_u48 x : to_vec (w48 x) = be_bytes 6 x.
Proof. done. Qed.

End SerializeFacts.
