(* ===== verification/Srtp.v ===== *)
(** * Srtp: SRTP key derivation and initialization vectors

    [src/backend/src/rtp/srtp.rs].  The AES block cipher and AES-GCM come from
    third-party crates; they are the operations of the classes [BlockCipher]
    and [Aead], with the documented behaviour the code relies on as laws. *)
From S2P Require Import Prelude Common.

(** The block cipher [Aes128::encrypt_block] (key, block). *)
Class BlockCipher := { encrypt_block : bytes -> bytes -> bytes }.

(** A block cipher under one key is a permutation of the 16-byte blocks. *)
Class BlockCipherLaws `{BlockCipher} : Prop := {
  encrypt_block_length : forall key b, length b = 16%nat -> length (encrypt_block key b) = 16%nat;
  encrypt_block_inj : forall key b b', length b = 16%nat -> length b' = 16%nat ->
    encrypt_block key b = encrypt_block key b' -> b = b'
}.

(** [Aes128Gcm]: [seal key nonce aad plaintext] gives the ciphertext and the
    tag, [open key nonce aad ciphertext tag] the plaintext when the tag is
    right. *)
Class Aead := {
  seal : bytes -> bytes -> bytes -> bytes -> option (bytes * bytes);
  open : bytes -> bytes -> bytes -> bytes -> bytes -> option bytes
}.

(** In-place encryption keeps the length, the tag has 16 bytes, and opening
    what was sealed under the same key, nonce and header gives it back. *)
Class AeadLaws `{Aead} : Prop := {
  seal_length : forall key nonce aad p c tag,
    seal key nonce aad p = Some (c, tag) -> length c = length p /\ length tag = 16%nat;
  open_length : forall key nonce aad c tag p,
    open key nonce aad c tag = Some p -> length p = length c;
  open_seal : forall key nonce aad p c tag,
    seal key nonce aad p = Some (c, tag) -> open key nonce aad c tag = Some p;
  seal_bytes : forall key nonce aad p c tag,
    bytes_ok p -> seal key nonce aad p = Some (c, tag) -> bytes_ok c /\ bytes_ok tag;
  open_bytes : forall key nonce aad c tag p,
    bytes_ok c -> open key nonce aad c tag = Some p -> bytes_ok p
}.

Module Srtp.

Definition SRTP_KEY_LEN : nat := 16.
Definition SRTP_SALT_LEN : nat := 12.
Definition SRTP_IV_LEN : nat := 12.
Definition SRTP_AUTH_TAG_LEN : nat := 16.
Definition MASTER_KEY_MATERIAL_LEN : nat :=
  SRTP_KEY_LEN + SRTP_SALT_LEN + SRTP_KEY_LEN + SRTP_SALT_LEN.

Record KeyAndSalt := { key : bytes; salt : bytes }.
Record KeysAndSalts := { rtp : KeyAndSalt; rtcp : KeyAndSalt }.

Section Derivation.
Context `{BlockCipher}.

(** [derived[7] ^= label] *)
Definition xor_label (derived : bytes) (label : Z) : bytes :=
  alter (fun b => Z.lxor b label) 7%nat derived.

Definition derive_key_from_master (master : KeyAndSalt) (label : Z) : bytes :=
  encrypt_block (key master)
    (xor_label (salt master ++ replicate (SRTP_KEY_LEN - SRTP_SALT_LEN) 0) label).

Definition derive_salt_from_master (master : KeyAndSalt) (label : Z) : bytes :=
  take SRTP_SALT_LEN (derive_key_from_master master label).

Definition derive_from_master (master : KeyAndSalt) : KeysAndSalts :=
  {| rtp := {| key := derive_key_from_master master 0; salt := derive_salt_from_master master 2 |};
     rtcp := {| key := derive_key_from_master master 3; salt := derive_salt_from_master master 5 |} |}.

(** Returns (client, server). *)
Definition derive_client_and_server_from_master_key_material (m : bytes)
    : KeysAndSalts * KeysAndSalts :=
  let client_key := take SRTP_KEY_LEN m in
  let client_salt := take SRTP_SALT_LEN (drop SRTP_KEY_LEN m) in
  let server_key := take SRTP_KEY_LEN (drop SRTP_SALT_LEN (drop SRTP_KEY_LEN m)) in
  let server_salt :=
    take SRTP_SALT_LEN (drop SRTP_KEY_LEN (drop SRTP_SALT_LEN (drop SRTP_KEY_LEN m))) in
  (derive_from_master {| key := client_key; salt := client_salt |},
   derive_from_master {| key := server_key; salt := server_salt |}).

End Derivation.

Definition rtp_iv (ssrc seqnum : Z) (salt : bytes) : bytes :=
  let combined_lower := ssrc in
  let combined_lower := u64 (Z.shiftl combined_lower 16) in
  let combined_lower := Z.lor combined_lower (Z.land (Z.shiftr seqnum 32) 65535) in
  let salt_lower := be_val (take 8 salt) in
  let result_lower := be_bytes 8 (Z.lxor salt_lower combined_lower) in
  let salt_upper := be_val (drop 8 salt) in
  let result_upper := be_bytes 4 (Z.lxor salt_upper (u32 seqnum)) in
  result_lower ++ result_upper.

End Srtp.

(** * Theorems *)

Module SrtpFacts.
Import Srtp.

Lemma uint_lxor w a b : 0 <= w -> uint w a -> uint w b -> uint w (Z.lxor a b).
Proof.
  intros Hw Ha Hb. assert (0 <= Z.lxor a b).
  { apply Z.lxor_nonneg. destruct Ha, Hb. tauto. }
  split; [done|]. destruct (Z.eq_dec (Z.lxor a b) 0) as [->|]; [apply Z.pow_pos_nonneg; lia|].
  apply Z.log2_lt_pow2; [lia|]. destruct (Z.lt_ge_cases (Z.log2 (Z.lxor a b)) w); [done|].
  assert (Z.testbit (Z.lxor a b) (Z.log2 (Z.lxor a b)) = true) as Ht by (apply Z.bit_log2; lia).
  rewrite Z.lxor_spec, !(uint_testbit_high w) in Ht by done. done.
Qed.

Lemma lxor_cancel s a b : Z.lxor s a = Z.lxor s b -> a = b.
Proof.
  intros E. rewrite <- (Z.lxor_0_l a), <- (Z.lxor_0_l b), <- (Z.lxor_nilpotent s).
  by rewrite !Z.lxor_assoc, E.
Qed.

Lemma be_bytes_inj n a b :
  uint (8 * Z.of_nat n) a -> uint (8 * Z.of_nat n) b -> be_bytes n a = be_bytes n b -> a = b.
Proof.
  intros Ha Hb E. apply (f_equal be_val) in E. rewrite !be_val_be_bytes, !wrap_small in E by done.
  done.
Qed.

Lemma length_rtp_iv ssrc seqnum salt : length (rtp_iv ssrc seqnum salt) = SRTP_IV_LEN.
Proof. unfold rtp_iv. by rewrite length_app, !length_be_bytes. Qed.

Lemma land_mask w z : 0 <= w -> Z.land z (Z.ones w) = wrap w z.
Proof. intros. unfold wrap. by apply Z.land_ones. Qed.

(** The 64 high bits of the vector before the salt is mixed in. *)
Lemma combined_lower_eq ssrc roc :
  uint 32 ssrc -> Z.lor (u64 (Z.shiftl ssrc 16)) (Z.land roc 65535) = ssrc * 2 ^ 16 + wrap 16 roc.
Proof.
  intros [H0 H1]. change 65535 with (Z.ones 16). rewrite land_mask by lia.
  unfold u64. rewrite Z.shiftl_mul_pow2, wrap_small by (unfold uint; lia).
  apply (lor_add_low 16); [lia | by apply Z.mod_mul | apply wrap_uint; lia].
Qed.

(** Two packets of one direction share a nonce only if they have the same SSRC
    and the same 48-bit sequence number. *)
Lemma rtp_iv_inj ssrc ssrc' seqnum seqnum' salt :
  uint 32 ssrc -> uint 32 ssrc' -> 0 <= seqnum -> 0 <= seqnum' ->
  length salt = SRTP_SALT_LEN -> bytes_ok salt ->
  rtp_iv ssrc seqnum salt = rtp_iv ssrc' seqnum' salt ->
  ssrc = ssrc' /\ wrap 48 seqnum = wrap 48 seqnum'.
Proof.
  intros Hs Hs' Hq Hq' Hlen Hok E. unfold rtp_iv in E.
  rewrite !combined_lower_eq in E by done.
  apply app_inj_1 in E as [El Eu]; [|by rewrite !length_be_bytes].
  assert (uint 64 (be_val (take 8 salt))) as H64.
  { pose proof (be_val_uint (take 8 salt) ltac:(by apply Forall_take)) as H.
    rewrite length_take, Hlen in H. exact H. }
  assert (uint 32 (be_val (drop 8 salt))) as H32.
  { pose proof (be_val_uint (drop 8 salt) ltac:(by apply Forall_drop)) as H.
    rewrite length_drop, Hlen in H. exact H. }
  pose proof (wrap_uint 16 (Z.shiftr seqnum 32) ltac:(lia)) as B1.
  pose proof (wrap_uint 16 (Z.shiftr seqnum' 32) ltac:(lia)) as B2.
  apply be_bytes_inj in El;
    [| apply (uint_lxor 64); [lia | done | unfold uint in *; lia]
     | apply (uint_lxor 64); [lia | done | unfold uint in *; lia]].
  apply be_bytes_inj in Eu;
    [| apply (uint_lxor 32); [lia | done | apply wrap_uint; lia]
     | apply (uint_lxor 32); [lia | done | apply wrap_uint; lia]].
  apply lxor_cancel in El, Eu. unfold u32, wrap, uint in *.
  rewrite !Z.shiftr_div_pow2 in * by lia. split; [lia|].
  replace (2 ^ 48) with (2 ^ 32 * 2 ^ 16) by lia. rewrite !Z.rem_mul_r by lia. lia.
Qed.

Section Derivation.
Context `{BlockCipherLaws}.

Lemma length_xor_label d label : length (xor_label d label) = length d.
Proof. apply length_alter. Qed.

(** Different labels give different derived keys. *)
Lemma derive_key_inj master label label' :
  length (salt master) = SRTP_SALT_LEN ->
  derive_key_from_master master label = derive_key_from_master master label' -> label = label'.
Proof.
  intros Hl E. unfold derive_key_from_master in E.
  assert (length (salt master ++ replicate (SRTP_KEY_LEN - SRTP_SALT_LEN) 0) = 16%nat) as Hd
    by (rewrite length_app, length_replicate, Hl; done).
  apply encrypt_block_inj in E; [|by rewrite length_xor_label..].
  apply (f_equal (fun l => l !! 7%nat)) in E. unfold xor_label in E.
  rewrite !list_lookup_alter_eq in E.
  destruct (lookup_lt_is_Some_2 (salt master ++ replicate (SRTP_KEY_LEN - SRTP_SALT_LEN) 0) 7%nat)
    as [x Hx]; [rewrite Hd; lia|].
  rewrite Hx in E. simpl in E. injection E as E. by apply lxor_cancel in E.
Qed.

End Derivation.
End SrtpFacts.

Module SrtpProperties.
Import Srtp.

(** Under one salt, two packets get the same SRTP initialization vector only
    if they have the same SSRC and the same 48-bit packet index: the nonce of
    AES-GCM is never shared by different packets of different streams or by
    different packets of one stream within 2^48 of each other. *)
Theorem rtp_iv_injective ssrc ssrc' seqnum seqnum' salt :
  uint 32 ssrc -> uint 32 ssrc' -> 0 <= seqnum -> 0 <= seqnum' ->
  length salt = SRTP_SALT_LEN -> bytes_ok salt ->
  rtp_iv ssrc seqnum salt = rtp_iv ssrc' seqnum' salt ->
  ssrc = ssrc' /\ wrap 48 seqnum = wrap 48 seqnum'.
Proof. apply SrtpFacts.rtp_iv_inj. Qed.

Lemma rtp_iv_injective_witness :
  rtp_iv 7 (2 ^ 48 + 5) (replicate 12 3) = rtp_iv 7 5 (replicate 12 3) /\
  wrap 48 (2 ^ 48 + 5) = wrap 48 5.
Proof.
  assert (rtp_iv 7 (2 ^ 48 + 5) (replicate 12 3) = rtp_iv 7 5 (replicate 12 3)) as E
    by (vm_compute; reflexivity).
  split; [exact E|].
  apply (rtp_iv_injective 7 7 (2 ^ 48 + 5) 5 (replicate 12 3));
    [unfold uint; lia | unfold uint; lia | lia | lia | reflexivity | | exact E].
  repeat constructor; unfold byte_ok, uint; lia.
Defined.

(** The session keys and salts derived from one master key use different
    labels, so the cipher blocks they are cut from are different: RTP and RTCP
    are never keyed alike. *)
Theorem derived_keys_differ `{BlockCipherLaws} master :
  length (salt master) = SRTP_SALT_LEN ->
  key (rtp (derive_from_master master)) ≠ key (rtcp (derive_from_master master)) /\
  key (rtp (derive_from_master master)) ≠ derive_key_from_master master 2 /\
  key (rtp (derive_from_master master)) ≠ derive_key_from_master master 5 /\
  derive_key_from_master master 2 ≠ derive_key_from_master master 5.
Proof. intros L. simpl. repeat split; intros E; by apply SrtpFacts.derive_key_inj in E. Qed.

(** The identity is a permutation of the blocks. *)
#[local] Instance identity_cipher : BlockCipher := {| encrypt_block := fun _ b => b |}.
#[local] Instance identity_cipher_laws : BlockCipherLaws.
Proof. split; auto. Qed.

Lemma derived_keys_differ_witness :
  let m := {| key := replicate 16 1; salt := replicate 12 2 |} in
  key (rtp (derive_from_master m)) ≠ key (rtcp (derive_from_master m)).
Proof. exact (proj1 (derived_keys_differ {| key := replicate 16 1; salt := replicate 12 2 |} eq_refl)). Defined.

End SrtpProperties.

(** ** An instance of the cipher, for the examples *)
Module SampleCipher.

(** A cipher that flips the low bit of every byte. *)
#[local] Instance flip_aead : Aead := {|
  seal _ _ _ p := Some (map (Z.lxor 1) p, replicate 16 7);
  open _ _ _ c _ := Some (map (Z.lxor 1) c)
|}.
#[local] Instance flip_aead_laws : AeadLaws.
Proof.
  assert (forall l, bytes_ok l -> bytes_ok (map (Z.lxor 1) l)) as B.
  { intros l Hl. apply Forall_fmap, (Forall_impl _ _ _ Hl). intros b Hb.
    apply SrtpFacts.uint_lxor; [lia|unfold uint; lia|exact Hb]. }
  split; simpl.
  - intros _ _ _ p c tag [= <- <-]. by rewrite length_map.
  - intros _ _ _ c _ p [= <-]. by rewrite length_map.
  - intros _ _ _ p c tag [= <- <-]. f_equal. rewrite map_map. etrans; [|apply map_id].
    apply map_ext. intros. by rewrite <- Z.lxor_assoc, Z.lxor_nilpotent.
  - intros _ _ _ p c tag Hp [= <- <-]. split; [by apply B|].
    simpl. repeat (apply Forall_cons; split; [unfold byte_ok, uint; lia|]). constructor.
  - intros _ _ _ c _ p Hc [= <-]. by apply B.
Qed.

End SampleCipher.
