(* ===== verification/RtpHeader.v ===== *)
(** * RtpHeader: RTP headers

    [src/backend/src/rtp/packet.rs] with the payload types of rtp.rs and the
    RTX conversions of rtx.rs: parsing a header and reading the dependency
    descriptor. *)
From S2P Require Import Prelude Common Bytes Srtp.
Import Read Serialize Srtp.

Module RtpTypes.

Definition VERSION : Z := 2.
Definition PADDING_PAYLOAD_TYPE : Z := 99.
Definition CLIENT_SERVER_DATA_PAYLOAD_TYPE : Z := 101.
Definition OPUS_PAYLOAD_TYPE : Z := 102.
Definition VP8_PAYLOAD_TYPE : Z := 108.
(** 3 seconds, in nanoseconds *)
Definition PACKET_LIFETIME : Z := 3 * 10 ^ 9.

Definition RTX_PAYLOAD_TYPE_OFFSET : Z := 10.
Definition RTX_SSRC_OFFSET : Z := 1.

Definition to_rtx_payload_type (pt : Z) : Z := u8 (pt + RTX_PAYLOAD_TYPE_OFFSET).
Definition to_rtx_ssrc (ssrc : Z) : Z := u32 (ssrc + RTX_SSRC_OFFSET).
Definition from_rtx_payload_type (rtx_pt : Z) : Z := u8 (rtx_pt - RTX_PAYLOAD_TYPE_OFFSET).
Definition from_rtx_ssrc (rtx_ssrc : Z) : Z := u32 (rtx_ssrc - RTX_SSRC_OFFSET).

Definition is_media_payload_type (pt : Z) : bool :=
  (pt =? OPUS_PAYLOAD_TYPE) || (pt =? VP8_PAYLOAD_TYPE).
Definition is_audio_payload_type (pt : Z) : bool := pt =? OPUS_PAYLOAD_TYPE.
Definition is_video_payload_type (pt : Z) : bool := pt =? VP8_PAYLOAD_TYPE.
Definition is_padding_payload_type (pt : Z) : bool := pt =? PADDING_PAYLOAD_TYPE.
Definition is_rtxable_payload_type (pt : Z) : bool := pt =? VP8_PAYLOAD_TYPE.
Definition is_rtx_payload_type (pt : Z) : bool :=
  is_rtxable_payload_type (from_rtx_payload_type pt).

Inductive VideoRotation := RotationNone | Clockwise90 | Clockwise180 | Clockwise270.

Definition video_rotation_from (b : Z) : VideoRotation :=
  match Z.land b 3 with
  | 0 => RotationNone
  | 1 => Clockwise90
  | 2 => Clockwise180
  | _ => Clockwise270
  end.

Record PixelSize := { width : Z; height : Z }.

Definition range : Type := nat * nat.

End RtpTypes.

(** [rtp.rs]: expanding truncated counters; the result and the new maximum *)
Module Expand.
Definition expand_seqnum (seqnum max_seqnum : Z) : Z * Z :=
  Counters.expand_truncated_counter 16 seqnum max_seqnum.
Definition expand_timestamp (timestamp max_timestamp : Z) : Z * Z :=
  Counters.expand_truncated_counter 32 timestamp max_timestamp.
Definition expand_frame_number (frame_number max_frame_number : Z) : Z * Z :=
  Counters.expand_truncated_counter 16 frame_number max_frame_number.
End Expand.
Import RtpTypes.

(** ** The AV1 dependency descriptor *)
Module DependencyDescriptor.

Record t := mk {
  is_key_frame : bool;
  resolution : option PixelSize;
  truncated_frame_number : option Z
}.

(** [DependencyDescriptorReader] *)
Record Reader := reader {
  src : bytes;
  byte_index : nat;
  bit_offset : Z
}.

Definition new (b : bytes) : Reader := reader b 0 0.

(** With no bytes at all, [len - 1] wraps and the first index panics. *)
Definition read_u8 (self : Reader) (bits : Z) : Res unit (Z * Reader) :=
  _ ← assert_ ((0 <? bits) && (bits <=? 8));
  _ ← assert_ (negb (length (src self) =? 0)%nat);
  let last_byte := (length (src self) - 1)%nat in
  if (last_byte <? byte_index self)%nat
     || ((byte_index self =? last_byte)%nat && (8 <? bit_offset self + bits))
  then Err tt
  else if 8 <=? bit_offset self + bits then
    byte ← idx (src self) (byte_index self);
    let num_bits_in_current_byte := 8 - bit_offset self in
    let byte :=
      if num_bits_in_current_byte <? 8
      then Z.land byte (Z.shiftl 1 num_bits_in_current_byte - 1) else byte in
    let num_bits_in_next_byte := bits - num_bits_in_current_byte in
    let byte := u8 (Z.shiftl byte num_bits_in_next_byte) in
    byte ←
      (if 0 <? num_bits_in_next_byte then
         next_byte ← idx (src self) (byte_index self + 1);
         let mask := u8 (Z.shiftl (Z.shiftl 1 num_bits_in_next_byte - 1)
                                  (8 - num_bits_in_next_byte)) in
         Ok (Z.lor byte (Z.shiftr (Z.land next_byte mask) (8 - num_bits_in_next_byte)))
       else Ok byte);
    Ok (byte, reader (src self) (byte_index self + 1) ((bit_offset self + bits) mod 8))
  else
    byte ← idx (src self) (byte_index self);
    let byte := Z.land byte (u8 (Z.shiftl (Z.shiftl 1 bits - 1) (8 - bit_offset self - bits))) in
    let byte := Z.shiftr byte (8 - bit_offset self - bits) in
    Ok (byte, reader (src self) (byte_index self) (bit_offset self + bits)).

(** Both bytes are read before either result is looked at, so a failure of the
    second leaves the reader after the first. *)
Definition read_u16 (self : Reader) : Res unit Z * Reader :=
  match read_u8 self 8 with
  | Ok (upper, r1) =>
      match read_u8 r1 8 with
      | Ok (lower, r2) => (Ok (be_val [upper; lower]), r2)
      | Err e => (Err e, r1)
      | Panic => (Panic, r1)
      end
  | Err e => (Err e, self)
  | Panic => (Panic, self)
  end.

(** [self.read_u16()?] *)
Definition try_u16 (self : Reader) : Res unit (Z * Reader) :=
  let '(v, r) := read_u16 self in v ← v; Ok (v, r).

Fixpoint bit_len (fuel : nat) (x w : Z) : Z :=
  match fuel with
  | O => w
  | S fuel' => if x =? 0 then w else bit_len fuel' (Z.shiftr x 1) (w + 1)
  end.

(** An 8-bit [x] is 0 after at most 8 shifts. *)
Definition skip_non_symmetric (self : Reader) (n : Z) : Res unit Reader :=
  let w := bit_len 8 n 0 in
  let m := u8 (u8 (Z.shiftl 1 w) - n) in
  '(v, r) ← read_u8 self (u8 (w - 1));
  if v <? m then Ok r else
  '(_, r) ← read_u8 r 1;
  Ok r.

(** [while self.read_u8(2)? != 3 { template_cnt += 1; }]; running out of fuel
    is [Panic], so the absence of panics includes termination. *)
Fixpoint count_templates (fuel : nat) (self : Reader) (template_cnt : nat) : Res unit (nat * Reader) :=
  match fuel with
  | O => Panic
  | S fuel' =>
      '(v, r) ← read_u8 self 2;
      if negb (v =? 3) then count_templates fuel' r (S template_cnt) else Ok (template_cnt, r)
  end.

Fixpoint repeat_read (n : nat) (bits : Z) (self : Reader) : Res unit Reader :=
  match n with
  | O => Ok self
  | S m => '(_, r) ← read_u8 self bits; repeat_read m bits r
  end.

Fixpoint read_dtis (template_cnt dt_cnt : nat) (self : Reader) : Res unit Reader :=
  match template_cnt with
  | O => Ok self
  | S m => r ← repeat_read dt_cnt 2 self; read_dtis m dt_cnt r
  end.

(** [while self.read_u8(1)? == 1 { self.read_u8(4)?; }] *)
Fixpoint skip_fdiffs (fuel : nat) (self : Reader) : Res unit Reader :=
  match fuel with
  | O => Panic
  | S fuel' =>
      '(v, r) ← read_u8 self 1;
      if v =? 1 then '(_, r) ← read_u8 r 4; skip_fdiffs fuel' r else Ok r
  end.

Fixpoint read_fdiffs (template_cnt fuel : nat) (self : Reader) : Res unit Reader :=
  match template_cnt with
  | O => Ok self
  | S m => r ← skip_fdiffs fuel self; read_fdiffs m fuel r
  end.

(** Every iteration reads at least one bit. *)
Definition fuel_of (self : Reader) : nat := S (8 * length (src self)).

Definition read (self : Reader) : Res unit t :=
  let r := reader (src self) 1 (bit_offset self) in
  let '(tfn, r) := read_u16 r in
  truncated_frame_number ← ok_opt tfn;
  if (length (src r) =? 3)%nat then Ok (mk false None truncated_frame_number) else
  '(flag, r) ← read_u8 r 1;
  let template_dependency_structure_present_flag := flag =? 1 in
  '(_, r) ← read_u8 r 1;
  '(_, r) ← read_u8 r 1;
  '(_, r) ← read_u8 r 1;
  '(_, r) ← read_u8 r 1;
  if negb template_dependency_structure_present_flag then
    Ok (mk false None truncated_frame_number) else
  '(_, r) ← read_u8 r 6;
  '(d, r) ← read_u8 r 5;
  let dt_cnt := u8 (d + 1) in
  '(template_cnt, r) ← count_templates (fuel_of r) r 1;
  r ← read_dtis template_cnt (Z.to_nat dt_cnt) r;
  r ← read_fdiffs template_cnt (fuel_of r) r;
  r ← skip_non_symmetric r (u8 (dt_cnt + 1));
  '(resolutions_present_flag, r) ← read_u8 r 1;
  if resolutions_present_flag =? 1 then
    '(w, r) ← try_u16 r;
    '(h, r) ← try_u16 r;
    Ok (mk true (Some {| width := saturating_add 16 w 1; height := saturating_add 16 h 1 |})
           truncated_frame_number)
  else Ok (mk true None truncated_frame_number).

End DependencyDescriptor.

(** ** [Header::parse] *)
Module Header.

Definition RTP_MIN_HEADER_LEN : nat := 12.
Definition RTP_PAYLOAD_TYPE_OFFSET : nat := 1.
Definition RTP_SEQNUM_RANGE : range := (2, 4)%nat.
Definition RTP_TIMESTAMP_RANGE : range := (4, 8)%nat.
Definition RTP_SSRC_RANGE : range := (8, 12)%nat.
Definition RTP_EXTENSIONS_HEADER_LEN : nat := 4.
Definition RTP_ONE_BYTE_EXTENSIONS_PROFILE : Z := 48862. (* 0xBEDE *)
Definition RTP_TWO_BYTE_EXTENSIONS_PROFILE : Z := 4096.  (* 0x1000 *)
Definition RTP_EXT_ID_TCC_SEQNUM : Z := 1.
Definition RTP_EXT_ID_VIDEO_ORIENTATION : Z := 4.
Definition RTP_EXT_ID_AUDIO_LEVEL : Z := 5.
Definition RTP_EXT_ID_DEPENDENCY_DESCRIPTOR : Z := 6.
Definition RTP_DEPENDENCY_DESCRIPTOR_MIN_LEN : nat := 3.

Inductive HeaderExtensionsProfile := OneByte | TwoByte.

Definition profile_try_from (value : Z) : Res unit HeaderExtensionsProfile :=
  if value =? RTP_ONE_BYTE_EXTENSIONS_PROFILE then Ok OneByte
  else if Z.land value 65520 =? RTP_TWO_BYTE_EXTENSIONS_PROFILE then Ok TwoByte
  else Err tt.

Definition profile_len (p : HeaderExtensionsProfile) : nat :=
  match p with OneByte => 1 | TwoByte => 2 end.

Definition is_two_byte (p : HeaderExtensionsProfile) : bool :=
  match p with OneByte => false | TwoByte => true end.

(** The values the extension loop assigns. *)
Record Extensions := exts {
  e_tcc_seqnum : option Z;
  e_tcc_seqnum_range : option range;
  e_video_rotation : option VideoRotation;
  e_audio_level : option Z;
  e_dependency_descriptor : option (DependencyDescriptor.t * range)
}.

Record t := mk {
  marker : bool;
  has_padding : bool;
  payload_type : Z;
  seqnum : Z;
  timestamp : Z;
  ssrc : Z;
  video_rotation : option VideoRotation;
  audio_level : option Z;
  tcc_seqnum : option Z;
  tcc_seqnum_range : option range;
  payload_range : range;
  dependency_descriptor : option (DependencyDescriptor.t * range)
}.

(** The [match (extension_id, extension_val)] of the loop body. *)
Definition parse_extension (extension_id : Z) (extension_val : bytes) (extension_val_range : range)
    (e : Extensions) : Res unit Extensions :=
  if extension_id =? RTP_EXT_ID_DEPENDENCY_DESCRIPTOR then
    if (length extension_val <? RTP_DEPENDENCY_DESCRIPTOR_MIN_LEN)%nat then Err tt else
    descriptor ← ok_opt (DependencyDescriptor.read (DependencyDescriptor.new extension_val));
    let descriptor :=
      match descriptor with
      | Some d => d
      | None => DependencyDescriptor.mk false None None
      end in
    Ok (exts (e_tcc_seqnum e) (e_tcc_seqnum_range e) (e_video_rotation e) (e_audio_level e)
             (Some (descriptor, extension_val_range)))
  else
    match extension_val with
    | [b0; b1] =>
        if extension_id =? RTP_EXT_ID_TCC_SEQNUM then
          Ok (exts (Some (be_val [b0; b1])) (Some extension_val_range) (e_video_rotation e)
                   (e_audio_level e) (e_dependency_descriptor e))
        else Ok e
    | [b0] =>
        if extension_id =? RTP_EXT_ID_VIDEO_ORIENTATION then
          Ok (exts (e_tcc_seqnum e) (e_tcc_seqnum_range e) (Some (video_rotation_from b0))
                   (e_audio_level e) (e_dependency_descriptor e))
        else if extension_id =? RTP_EXT_ID_AUDIO_LEVEL then
          Ok (exts (e_tcc_seqnum e) (e_tcc_seqnum_range e) (e_video_rotation e)
                   (Some (saturating_sub 120 (Z.land b0 127))) (e_dependency_descriptor e))
        else Ok e
    | _ => Ok e
    end.

(** The [while extensions.len() > extension_start] loop; every iteration
    advances [extension_start], so [S (length extensions)] steps are enough
    (running out is [Panic]). *)
Fixpoint parse_extensions (fuel : nat) (extensions_profile : HeaderExtensionsProfile)
    (extensions_start : nat) (extensions : bytes) (extension_start : nat) (e : Extensions)
    : Res unit Extensions :=
  match fuel with
  | O => Panic
  | S fuel' =>
      if (length extensions <=? extension_start)%nat then Ok e else
      rest ← slice_from extension_start extensions;
      match checked_split_at rest (profile_len extensions_profile) with
      | None =>
          b ← idx extensions extension_start;
          if is_two_byte extensions_profile && (b =? 0) then Ok e else Err tt
      | Some (extension_header, extension_val) =>
          h0 ← idx extension_header 0;
          let extension_id :=
            match extensions_profile with OneByte => Z.shiftr h0 4 | TwoByte => h0 end in
          if extension_id =? 0 then Ok e else
          extension_len ←
            match extensions_profile with
            | OneByte => Ok (Z.to_nat (Z.land h0 15) + 1)%nat
            | TwoByte => h1 ← idx extension_header 1; Ok (Z.to_nat h1)
            end;
          if (length extension_val <? extension_len)%nat then Err tt else
          extension_val ← slice_to extension_len extension_val;
          let extension_val_start :=
            (extensions_start + RTP_EXTENSIONS_HEADER_LEN + extension_start
             + profile_len extensions_profile)%nat in
          let extension_val_end := (extension_val_start + extension_len)%nat in
          e' ← parse_extension extension_id extension_val
                 (extension_val_start, extension_val_end) e;
          parse_extensions fuel' extensions_profile extensions_start extensions
            (extension_start + profile_len extensions_profile + extension_len)%nat e'
      end
  end.

Definition parse (packet : bytes) : Res unit t :=
  '(main_header, csrcs_extensions_payload_tag) ← ok_or tt (checked_split_at packet RTP_MIN_HEADER_LEN);
  b0 ← idx main_header 0;
  let has_padding := 0 <? Z.land b0 32 in
  let has_extensions := 0 <? Z.shiftr (Z.land b0 16) 4 in
  let csrc_count := Z.land b0 15 in
  b1 ← idx main_header RTP_PAYLOAD_TYPE_OFFSET;
  let payload_type := Z.land b1 127 in
  let marker := negb (Z.shiftr (Z.land b1 128) 7 =? 0) in
  s ← slice RTP_SEQNUM_RANGE.1 RTP_SEQNUM_RANGE.2 main_header; seqnum ← parse_u16 s;
  s ← slice RTP_TIMESTAMP_RANGE.1 RTP_TIMESTAMP_RANGE.2 main_header; timestamp ← parse_u32 s;
  s ← slice RTP_SSRC_RANGE.1 RTP_SSRC_RANGE.2 main_header; ssrc ← parse_u32 s;
  let csrcs_len := (4 * Z.to_nat csrc_count)%nat in
  '(_, extension_payload_tag) ← ok_or tt (checked_split_at csrcs_extensions_payload_tag csrcs_len);
  let extensions_start := (RTP_MIN_HEADER_LEN + csrcs_len)%nat in
  '(e, payload_start) ←
    (if has_extensions then
       '(extensions_header, extension_payload_tag) ←
         ok_or tt (checked_split_at extension_payload_tag RTP_EXTENSIONS_HEADER_LEN);
       s ← slice 0 2 extensions_header; profile ← parse_u16 s;
       s ← slice 2 4 extensions_header; len ← parse_u16 s;
       let extensions_len := (Z.to_nat len * 4)%nat in
       extensions_profile ← profile_try_from profile;
       '(extensions, _) ← ok_or tt (checked_split_at extension_payload_tag extensions_len);
       e ← parse_extensions (S (length extensions)) extensions_profile extensions_start extensions 0
             (exts None None None None None);
       Ok (e, (extensions_start + RTP_EXTENSIONS_HEADER_LEN + extensions_len)%nat)
     else Ok (exts None None None None None, extensions_start));
  if (length packet <? payload_start + SRTP_AUTH_TAG_LEN)%nat then Err tt else
  let payload_end := (length packet - SRTP_AUTH_TAG_LEN)%nat in
  if has_padding && (payload_end <=? payload_start)%nat then Err tt else
  Ok (mk marker has_padding payload_type seqnum timestamp ssrc (e_video_rotation e)
         (e_audio_level e) (e_tcc_seqnum e) (e_tcc_seqnum_range e)
         (payload_start, payload_end) (e_dependency_descriptor e)).

End Header.

(** * Theorems *)

Module DependencyDescriptorFacts.
Import DependencyDescriptor.

(** Bits read so far, counted from the first bit of the first byte. *)
Definition pos (r : Reader) : Z := 8 * Z.of_nat (byte_index r) + bit_offset r.
Definition bit_size (r : Reader) : Z := 8 * Z.of_nat (length (src r)).

Definition wf (r : Reader) : Prop :=
  bytes_ok (src r) /\ (0 < length (src r))%nat /\ 0 <= bit_offset r < 8.

(** The specification's [f(n)]: the [n] bits at position [p] of the string read
    as one big-endian number. *)
Definition window (b : bytes) (p n : Z) : Z :=
  wrap n (Z.shiftr (be_val b) (8 * Z.of_nat (length b) - p - n)).

Lemma testbit_window b p n j :
  bytes_ok b -> 0 <= p -> 0 <= j < n -> p + n <= 8 * Z.of_nat (length b) ->
  Z.testbit (window b p n) j =
    Z.testbit (nth (Z.to_nat ((p + n - 1 - j) / 8)) b 0) (7 - (p + n - 1 - j) mod 8).
Proof.
  intros Hb Hp Hj Hn. unfold window. rewrite wrap_testbit, Z.shiftr_spec by lia.
  rewrite (proj2 (Z.ltb_lt j n)) by lia. simpl. rewrite be_val_testbit by (done || lia).
  set (q := p + n - 1 - j).
  do 2 f_equal; subst q; dlia.
Qed.

Lemma window_uint b p n : 0 <= n -> uint n (window b p n).
Proof. intros. by apply wrap_uint. Qed.

Lemma nth_lookup_byte (l : bytes) i : (i < length l)%nat -> l !! i = Some (nth i l 0).
Proof. intros. destruct (nth_lookup_or_length l i 0); [done|lia]. Qed.

(** Division of a bit position of the current or of the next byte. *)
Lemma bit_position k o : 0 <= o < 8 -> (8 * k + o) / 8 = k /\ (8 * k + o) mod 8 = o.
Proof.
  intros. split; dlia.
Qed.

Ltac spec_bits :=
  repeat first [ rewrite Z.lor_spec | rewrite Z.land_spec | rewrite Z.shiftr_spec by lia
               | rewrite wrap_testbit by lia | rewrite ones_testbit by lia
               | rewrite Z.shiftl_spec by lia ].

(** Both sides are determined by their bits below [n]. *)
Lemma window_eq b p n z :
  0 <= n -> uint n z ->
  (forall j, 0 <= j < n -> Z.testbit z j = Z.testbit (window b p n) j) -> z = window b p n.
Proof.
  intros Hn Hz Hj. apply Z.bits_inj'; intros j Hj0.
  destruct (Z.lt_ge_cases j n); [by apply Hj; lia|].
  rewrite !(uint_testbit_high n); auto using window_uint.
Qed.

Lemma uint_bits n z : 0 <= n -> 0 <= z -> (forall j, n <= j -> Z.testbit z j = false) -> uint n z.
Proof.
  intros Hn Hz Hj. split; [done|]. destruct (Z.eq_dec z 0) as [->|]; [apply Z.pow_pos_nonneg; lia|].
  apply Z.log2_lt_pow2; [lia|]. destruct (Z.lt_ge_cases (Z.log2 z) n) as [|Hl]; [done|].
  specialize (Hj _ Hl). rewrite Z.bit_log2 in Hj by lia. done.
Qed.

Lemma current_byte_window b k o n :
  bytes_ok b -> (k < length b)%nat -> 0 <= o -> 0 < n -> o + n < 8 ->
  Z.shiftr (Z.land (nth k b 0) (u8 (Z.shiftl (Z.shiftl 1 n - 1) (8 - o - n)))) (8 - o - n) =
    window b (8 * Z.of_nat k + o) n.
Proof.
  intros Hb Hk Ho Hn Hon. unfold u8.
  assert (forall j, 0 <= j -> Z.testbit (Z.shiftr (Z.land (nth k b 0)
    (wrap 8 (Z.shiftl (Z.shiftl 1 n - 1) (8 - o - n)))) (8 - o - n)) j =
    Z.testbit (nth k b 0) (j + (8 - o - n)) && (j <? n)) as Hbit.
  { intros j Hj. spec_bits. f_equal.
    destruct (Z.ltb_spec (j + (8 - o - n)) 8); simpl; [spec_bits|];
      [f_equal; lia | symmetry; apply Z.ltb_ge; lia]. }
  apply window_eq; [lia|..].
  - apply uint_bits; [lia|..].
    + apply Z.shiftr_nonneg, Z.land_nonneg. right. apply wrap_uint. lia.
    + intros j Hj. rewrite Hbit by lia. destruct (Z.ltb_spec j n); [lia|]. apply andb_false_r.
  - intros j Hj. rewrite Hbit, testbit_window by (done || lia).
    rewrite (proj2 (Z.ltb_lt j n)), andb_true_r by lia.
    destruct (bit_position (Z.of_nat k) (o + n - 1 - j)) as [Hd Hm]; [lia|].
    replace (8 * Z.of_nat k + o + n - 1 - j) with (8 * Z.of_nat k + (o + n - 1 - j)) by lia.
    rewrite Hd, Hm, Nat2Z.id. f_equal. lia.
Qed.

Lemma next_byte_window b k o n :
  bytes_ok b -> 0 <= o < 8 -> 0 < n <= 8 -> 8 <= o + n -> 8 * Z.of_nat k + o + n <= 8 * Z.of_nat (length b) ->
  let cur := Z.land (nth k b 0) (Z.shiftl 1 (8 - o) - 1) in
  let nxt := n - (8 - o) in
  Z.lor (u8 (Z.shiftl cur nxt))
    (Z.shiftr (Z.land (nth (k + 1) b 0) (u8 (Z.shiftl (Z.shiftl 1 nxt - 1) (8 - nxt)))) (8 - nxt)) =
    window b (8 * Z.of_nat k + o) n.
Proof.
  intros Hb Ho Hn Hon HL cur nxt. unfold u8.
  match goal with |- ?z = _ => set (v := z) end.
  assert (forall j, 0 <= j -> Z.testbit v j =
    (j <? 8) && (nxt <=? j) && Z.testbit (nth k b 0) (j - nxt) && (j - nxt <? 8 - o) ||
    (j <? nxt) && Z.testbit (nth (k + 1) b 0) (j + (8 - nxt))) as Hbit.
  { intros j Hj. subst v cur nxt. spec_bits. f_equal.
    - rewrite <- !andb_assoc. f_equal. destruct (Z.leb_spec (n - (8 - o)) j); spec_bits; [done|].
      rewrite Z.testbit_neg_r by lia. done.
    - rewrite andb_comm. replace (j + (8 - (n - (8 - o))) - (8 - (n - (8 - o)))) with j by lia.
      f_equal. destruct (Z.ltb_spec (j + (8 - (n - (8 - o)))) 8); simpl; [by spec_bits|].
      symmetry. apply Z.ltb_ge. lia. }
  apply window_eq; [lia|..].
  - apply uint_bits; [lia|..].
    + subst v. apply Z.lor_nonneg. split; [apply wrap_uint; lia|].
      apply Z.shiftr_nonneg, Z.land_nonneg. right. apply wrap_uint. lia.
    + intros j Hj. rewrite Hbit by lia. subst nxt.
      destruct (Z.ltb_spec (j - (n - (8 - o))) (8 - o)); [lia|].
      destruct (Z.ltb_spec j (n - (8 - o))); [lia|]. by rewrite andb_false_r.
  - intros j Hj. rewrite Hbit, testbit_window by (done || lia). subst nxt.
    destruct (Z.ltb_spec j (n - (8 - o))).
    + destruct (Z.leb_spec (n - (8 - o)) j); [lia|]. rewrite !andb_false_r. simpl.
      destruct (bit_position (Z.of_nat k + 1) (o + n - 8 - 1 - j)) as [Hd Hm]; [lia|].
      replace (8 * Z.of_nat k + o + n - 1 - j)
        with (8 * (Z.of_nat k + 1) + (o + n - 8 - 1 - j)) by lia.
      rewrite Hd, Hm. replace (Z.to_nat (Z.of_nat k + 1)) with (k + 1)%nat by lia. f_equal. lia.
    + destruct (Z.leb_spec (n - (8 - o)) j); [|lia]. destruct (Z.ltb_spec j 8); [|lia].
      destruct (Z.ltb_spec (j - (n - (8 - o))) (8 - o)); [|lia].
      rewrite andb_true_r, orb_false_r. simpl.
      destruct (bit_position (Z.of_nat k) (o + n - 1 - j)) as [Hd Hm]; [lia|].
      replace (8 * Z.of_nat k + o + n - 1 - j) with (8 * Z.of_nat k + (o + n - 1 - j)) by lia.
      rewrite Hd, Hm, Nat2Z.id. f_equal. lia.
Qed.

(** The reader implements [f(n)]: the window at the current position, or an
    error exactly when fewer than [n] bits are left. *)
Lemma read_u8_spec r n : wf r -> 0 < n <= 8 ->
  read_u8 r n =
    if pos r + n <=? bit_size r
    then Ok (window (src r) (pos r) n,
             reader (src r) (Z.to_nat ((pos r + n) / 8)) ((pos r + n) mod 8))
    else Err tt.
Proof.
  intros (Hb & Hl & Ho) Hn. unfold read_u8, pos, bit_size.
  rewrite (proj2 (Z.ltb_lt 0 n)), (proj2 (Z.leb_le n 8)) by lia. simpl.
  rewrite (proj2 (Nat.eqb_neq (length (src r)) 0)) by lia. simpl.
  set (k := byte_index r). set (o := bit_offset r) in *.
  destruct (Z.leb_spec (8 * Z.of_nat k + o + n) (8 * Z.of_nat (length (src r)))) as [Hfit|Hfit].
  2:{ destruct (Nat.ltb_spec (length (src r) - 1) k); [done|].
      destruct (Nat.eqb_spec k (length (src r) - 1)); [|lia].
      destruct (Z.ltb_spec 8 (o + n)); [done|lia]. }
  destruct (Nat.ltb_spec (length (src r) - 1) k); [lia|].
  assert ((k =? length (src r) - 1)%nat && (8 <? o + n) = false) as ->.
  { destruct (Nat.eqb_spec k (length (src r) - 1)); [|done].
    destruct (Z.ltb_spec 8 (o + n)); [lia|done]. }
  simpl. unfold idx. rewrite (nth_lookup_byte _ k) by lia. simpl.
  destruct (Z.leb_spec 8 (o + n)).
  - assert ((if 8 - o <? 8 then Z.land (nth k (src r) 0) (Z.shiftl 1 (8 - o) - 1)
             else nth k (src r) 0) = Z.land (nth k (src r) 0) (Z.shiftl 1 (8 - o) - 1)) as ->.
    { destruct (Z.ltb_spec (8 - o) 8); [done|]. assert (o = 0) as -> by lia.
      rewrite Z.shiftl_1_l, land_ones_mod by lia. symmetry. apply wrap_small.
      unfold bytes_ok in Hb. rewrite Forall_forall in Hb. apply Hb.
      apply list_elem_of_lookup_2 with k. apply nth_lookup_byte. lia. }
    destruct (bit_position (Z.of_nat k + 1) (o + n - 8)) as [Hd Hm]; [lia|].
    replace (8 * Z.of_nat k + o + n) with (8 * (Z.of_nat k + 1) + (o + n - 8)) by lia.
    rewrite Hd, Hm. replace (Z.to_nat (Z.of_nat k + 1)) with (k + 1)%nat by lia.
    replace ((o + n) mod 8) with (o + n - 8) by dlia.
    pose proof (next_byte_window (src r) k o n Hb Ho Hn H0 ltac:(lia)) as Hw. cbv zeta in Hw.
    destruct (Z.ltb_spec 0 (n - (8 - o))).
    + rewrite (nth_lookup_byte _ (k + 1)) by lia. simpl. by rewrite Hw.
    + simpl. rewrite <- Hw. replace (n - (8 - o)) with 0 by lia. simpl.
      by rewrite Z.land_0_r, Z.shiftr_0_l, Z.lor_0_r.
  - simpl. rewrite current_byte_window by (done || lia).
    destruct (bit_position (Z.of_nat k) (o + n)) as [Hd Hm]; [lia|].
    replace (8 * Z.of_nat k + o + n) with (8 * Z.of_nat k + (o + n)) by lia.
    by rewrite Hd, Hm, Nat2Z.id.
Qed.

(** What a read does to the reader. *)
Definition reads_from (r r' : Reader) (n : Z) : Prop :=
  wf r' /\ src r' = src r /\ pos r' = pos r + n /\ pos r' <= bit_size r.

Lemma read_u8_cases r n : wf r -> 0 < n <= 8 ->
  read_u8 r n = Err tt \/
  exists v r', read_u8 r n = Ok (v, r') /\ uint n v /\ reads_from r r' n.
Proof.
  intros Hwf Hn. rewrite read_u8_spec by done.
  destruct (Z.leb_spec (pos r + n) (bit_size r)); [right|by left].
  destruct Hwf as (Hb & Hl & Ho). do 2 eexists. split; [done|].
  split; [apply window_uint; lia|]. unfold reads_from, wf, pos, bit_size in *. cbn in *.
  set (q := 8 * Z.of_nat (byte_index r) + bit_offset r + n) in *.
  pose proof (Z.div_mod q 8 ltac:(lia)). pose proof (Z.mod_pos_bound q 8 ltac:(lia)).
  assert (0 <= q / 8) by (apply Z.div_pos; lia). split_and!; done || lia.
Qed.

Lemma reads_from_trans r1 r2 r3 n m :
  reads_from r1 r2 n -> reads_from r2 r3 m -> reads_from r1 r3 (n + m).
Proof. unfold reads_from, bit_size. intros (? & E & ? & ?) (? & E' & ? & ?). rewrite E', E in *. split_and!; done || lia. Qed.

Lemma bit_size_reads r r' n : reads_from r r' n -> bit_size r' = bit_size r /\ wf r'.
Proof. unfold reads_from, bit_size. intros (? & -> & _). done. Qed.

(** [safe m r]: [m] does not panic and leaves a reader of the same bytes that
    is no further back. *)
Definition safe (r : Reader) (m : Res unit Reader) : Prop :=
  match m with
  | Ok r' => exists n, 0 <= n /\ reads_from r r' n
  | Err _ => True
  | Panic => False
  end.

Lemma safe_trans r r' n m : 0 <= n -> reads_from r r' n -> safe r' m -> safe r m.
Proof.
  unfold safe. destruct m; try done. intros Hn H (n' & ? & H').
  exists (n + n'). split; [lia|]. by eapply reads_from_trans.
Qed.

Lemma reads_from_refl r : wf r -> pos r <= bit_size r -> reads_from r r 0.
Proof. unfold reads_from. intros. split_and!; done || lia. Qed.

Ltac step_read :=
  match goal with
  | |- context [read_u8 ?r ?n] =>
      let v := fresh "v" in let r' := fresh "r" in
      let E := fresh "E" in let Hv := fresh "Hv" in let H := fresh "Hr" in
      destruct (read_u8_cases r n) as [E | (v & r' & E & Hv & H)];
      [ eauto; by eapply bit_size_reads | lia | rewrite E; cbn [mbind Res_bind]; try done
      | rewrite E; cbn [mbind Res_bind] ]
  end.

Lemma repeat_read_safe n bits r :
  wf r -> 0 < bits <= 8 -> pos r <= bit_size r -> safe r (repeat_read n bits r).
Proof.
  revert r. induction n as [|n IH]; intros r Hr Hb Hp; cbn [repeat_read].
  - exists 0. split; [lia|]. by apply reads_from_refl.
  - step_read. destruct (bit_size_reads _ _ _ Hr0) as [Es Hw].
    eapply safe_trans; [|done|apply IH; [done|lia|]]; [lia|]. rewrite Es. apply Hr0.
Qed.

Lemma read_dtis_safe n d r : wf r -> pos r <= bit_size r -> safe r (read_dtis n d r).
Proof.
  revert r. induction n as [|n IH]; intros r Hr Hp; cbn [read_dtis].
  - exists 0. split; [lia|]. by apply reads_from_refl.
  - pose proof (repeat_read_safe d 2 r Hr ltac:(lia) Hp) as Hs.
    destruct (repeat_read d 2 r) as [r'| |]; simpl in *; [|done..].
    destruct Hs as (k & Hk & H'). destruct (bit_size_reads _ _ _ H') as [Es Hw].
    eapply safe_trans; [done|done|]. apply IH; [done|]. rewrite Es. apply H'.
Qed.

Lemma count_templates_safe fuel r c :
  wf r -> pos r <= bit_size r -> bit_size r - pos r < Z.of_nat fuel ->
  match count_templates fuel r c with
  | Ok (_, r') => exists n, 0 <= n /\ reads_from r r' n
  | Err _ => True
  | Panic => False
  end.
Proof.
  revert r c. induction fuel as [|fuel IH]; intros r c Hr Hp Hf; [lia|]. cbn [count_templates].
  step_read. destruct (bit_size_reads _ _ _ Hr0) as [Es Hw].
  destruct (negb (v =? 3)); [|exists 2; split; [lia|done]].
  specialize (IH r0 (S c) Hw). rewrite Es in IH. destruct Hr0 as (? & ? & Hp' & Hp'').
  specialize (IH Hp'' ltac:(lia)). destruct (count_templates fuel r0 (S c)) as [[c' r']| |]; try done.
  destruct IH as (n & Hn & H'). exists (2 + n). split; [lia|].
  eapply reads_from_trans; [|done]. split_and!; done.
Qed.

Lemma skip_fdiffs_safe fuel r :
  wf r -> pos r <= bit_size r -> bit_size r - pos r < Z.of_nat fuel -> safe r (skip_fdiffs fuel r).
Proof.
  revert r. induction fuel as [|fuel IH]; intros r Hr Hp Hf; [lia|]. cbn [skip_fdiffs].
  step_read. destruct (bit_size_reads _ _ _ Hr0) as [Es Hw].
  destruct (v =? 1); [|exists 1; split; [lia|done]].
  step_read. pose proof (reads_from_trans _ _ _ _ _ Hr0 Hr1) as Ht.
  destruct (bit_size_reads _ _ _ Ht) as [Es' Hw'].
  eapply (safe_trans _ _ (1 + 4)); [lia|done|]. destruct Ht as (? & ? & Hp' & Hp'').
  apply IH; rewrite ?Es'; [done|lia|lia].
Qed.

Lemma read_fdiffs_safe n fuel r :
  wf r -> pos r <= bit_size r -> bit_size r < Z.of_nat fuel -> 0 <= pos r ->
  safe r (read_fdiffs n fuel r).
Proof.
  revert r. induction n as [|n IH]; intros r Hr Hp Hf H0; cbn [read_fdiffs].
  - exists 0. split; [lia|]. by apply reads_from_refl.
  - pose proof (skip_fdiffs_safe fuel r Hr Hp ltac:(lia)) as Hs.
    destruct (skip_fdiffs fuel r) as [r'| |]; simpl in *; [|done..].
    destruct Hs as (k & Hk & H'). destruct (bit_size_reads _ _ _ H') as [Es Hw].
    eapply safe_trans; [done|done|]. destruct H' as (? & ? & ? & ?).
    apply IH; rewrite ?Es; done || lia.
Qed.

Lemma skip_width n : 2 <= n <= 33 -> 0 < u8 (bit_len 8 n 0 - 1) <= 8.
Proof.
  intros Hn.
  assert (forallb (fun n => (0 <? u8 (bit_len 8 n 0 - 1)) && (u8 (bit_len 8 n 0 - 1) <=? 8))
            (seqZ 2 32) = true) as H by (vm_compute; reflexivity).
  rewrite forallb_forall in H. specialize (H n). rewrite <- list_elem_of_In, elem_of_seqZ in H.
  specialize (H ltac:(lia)). boolsplit. lia.
Qed.

Lemma skip_non_symmetric_safe r n :
  wf r -> pos r <= bit_size r -> 2 <= n <= 33 -> safe r (skip_non_symmetric r n).
Proof.
  intros Hr Hp Hn. pose proof (skip_width n Hn). unfold skip_non_symmetric.
  step_read. case_if.
  - eexists. split; [|done]. lia.
  - destruct (bit_size_reads _ _ _ Hr0) as [Es Hw]. step_read.
    eexists. split; [|eapply reads_from_trans; done]. lia.
Qed.

(** A reader inside its bytes, and the rules to run it without a panic. *)
Definition good (n : nat) (r : Reader) : Prop :=
  wf r /\ pos r <= bit_size r /\ length (src r) = n.

Lemma reads_from_good n k r r' : good n r -> reads_from r r' k -> good n r'.
Proof.
  intros (_ & _ & Hl) H. destruct (bit_size_reads _ _ _ H) as [Es Hw].
  split_and!; [done| |by rewrite (proj1 (proj2 H))]. rewrite Es. apply H.
Qed.

Lemma read_u8_bind {B} n r k (f : Z * Reader -> Res unit B) :
  good n r -> 0 < k <= 8 ->
  (forall v r', uint k v -> good n r' -> f (v, r') ≠ Panic) -> read_u8 r k ≫= f ≠ Panic.
Proof.
  intros Hg Hk Hf. destruct (read_u8_cases r k) as [E|(v & r' & E & Hv & H)];
    [apply Hg|lia|by rewrite E|]. rewrite E. simpl. apply Hf; [done|]. by eapply reads_from_good.
Qed.

Lemma safe_bind {B} n r m (f : Reader -> Res unit B) :
  good n r -> safe r m -> (forall r', good n r' -> f r' ≠ Panic) -> m ≫= f ≠ Panic.
Proof.
  intros Hg Hs Hf. destruct m; simpl in *; [|done..]. destruct Hs as (k & _ & H).
  apply Hf. by eapply reads_from_good.
Qed.

Lemma read_u16_good n r : good n r ->
  (read_u16 r).1 ≠ Panic /\ good n (read_u16 r).2.
Proof.
  intros Hg. unfold read_u16.
  destruct (read_u8_cases r 8) as [E|(v & r1 & E & Hv & H1)];
    [apply Hg|lia|by rewrite E|rewrite E]; simpl.
  pose proof (reads_from_good _ _ _ _ Hg H1) as Hg1.
  destruct (read_u8_cases r1 8) as [E'|(v' & r2 & E' & Hv' & H2)];
    [apply Hg1|lia|by rewrite E'|rewrite E']; simpl.
  split; [done|]. by eapply reads_from_good.
Qed.

Lemma try_u16_bind {B} n r (f : Z * Reader -> Res unit B) :
  good n r -> (forall v r', good n r' -> f (v, r') ≠ Panic) -> try_u16 r ≫= f ≠ Panic.
Proof.
  intros Hg Hf. unfold try_u16. destruct (read_u16_good n r Hg) as [Hp Hg'].
  destruct (read_u16 r) as [[v| |] r']; simpl in *; [|done..]. by apply Hf.
Qed.

(** On every extension value the header parser hands over (three bytes or
    more), reading terminates without a panic. *)
Lemma read_safe b : bytes_ok b -> (3 <= length b)%nat -> read (new b) ≠ Panic.
Proof.
  intros Hb Hl. unfold read, new. cbn [src bit_offset].
  assert (good (length b) (reader b 1 0)) as Hg.
  { unfold good, wf, pos, bit_size. simpl. split_and!; done || lia. }
  destruct (read_u16_good _ _ Hg) as [Hp Hg0].
  destruct (read_u16 (reader b 1 0)) as [tfn r]. simpl in Hp, Hg0.
  apply bind_no_panic; [by destruct tfn|]. intros tf _. clear tfn Hp Hg.
  case_if; [done|]. clear E.
  apply (read_u8_bind (length b)); [done|lia|]. intros flag r1 _ Hg1. cbn beta iota.
  do 4 (eapply (read_u8_bind (length b)); [eassumption|lia|]; intros ? ? _ ?; cbn beta iota).
  case_if; [done|]. clear E.
  apply (read_u8_bind (length b)); [done|lia|]. intros ? r6 _ Hg6. cbn beta iota.
  apply (read_u8_bind (length b)); [done|lia|]. intros d r7 Hd Hg7. cbn beta iota zeta.
  assert (u8 (u8 (d + 1) + 1) = d + 2) as -> by (unfold uint, u8, wrap in *; dlia).
  assert (Hsize : forall r, good (length b) r ->
    bit_size r < Z.of_nat (fuel_of r) /\ wf r /\ pos r <= bit_size r /\ 0 <= pos r).
  { intros x ((Hb' & Hl' & Ho) & Hp & Hl''). unfold bit_size, fuel_of, wf, pos in *.
    split_and!; done || lia. }
  destruct (Hsize _ Hg7) as (Hf & Hw & Hp & Hnn).
  pose proof (count_templates_safe (fuel_of r7) r7 1 Hw Hp ltac:(lia)) as Hc.
  destruct (count_templates (fuel_of r7) r7 1) as [[c r8]| |]; simpl; [|done..].
  destruct Hc as (k & _ & Hc). pose proof (reads_from_good _ _ _ _ Hg7 Hc) as Hg8.
  destruct (Hsize _ Hg8) as (_ & Hw8 & Hp8 & _).
  apply (safe_bind (length b) r8); [done|by apply read_dtis_safe|]. intros r9 Hg9.
  destruct (Hsize _ Hg9) as (Hf9 & Hw9 & Hp9 & H09).
  apply (safe_bind (length b) r9); [done|by apply read_fdiffs_safe|]. intros r10 Hg10.
  destruct (Hsize _ Hg10) as (_ & Hw10 & Hp10 & _).
  apply (safe_bind (length b) r10); [done|apply skip_non_symmetric_safe; [done..|unfold uint in *; lia]|].
  intros r11 Hg11. apply (read_u8_bind (length b)); [done|lia|]. intros p r12 _ Hg12.
  cbn beta iota. case_if; [|done].
  apply (try_u16_bind (length b)); [done|]. intros w r13 Hg13. cbn beta iota.
  by apply (try_u16_bind (length b)).
Qed.

End DependencyDescriptorFacts.

Module HeaderFacts.
Import Header.

Lemma take_drop_head {A} (a n m : nat) (l : list A) :
  (a + n <= m)%nat -> take n (drop a (take m l)) = take n (drop a l).
Proof. intros. rewrite take_drop_commute, take_take, Nat.min_l by lia. by rewrite <- take_drop_commute. Qed.

(** What the extensions found so far satisfy, for values between [lo] and [hi] in [packet]. *)
Record ext_ok (packet : bytes) (lo hi : nat) (e : Extensions) : Prop := {
  tcc_in : forall a b, e_tcc_seqnum_range e = Some (a, b) ->
    (lo <= a)%nat /\ b = (a + 2)%nat /\ (b <= hi)%nat;
  tcc_both : is_Some (e_tcc_seqnum e) <-> is_Some (e_tcc_seqnum_range e);
  tcc_value : forall a b, e_tcc_seqnum_range e = Some (a, b) -> e_tcc_seqnum e = Some (be_val (take 2 (drop a packet)));
  tcc_uint : forall s, e_tcc_seqnum e = Some s -> uint 16 s;
  dd_in : forall d a b, e_dependency_descriptor e = Some (d, (a, b)) ->
    (lo <= a)%nat /\ (a + 3 <= b)%nat /\ (b <= hi)%nat;
  level_le : forall l, e_audio_level e = Some l -> 0 <= l <= 120
}.

Lemma ext_ok_none packet lo hi : ext_ok packet lo hi (exts None None None None None).
Proof. split; simpl; intros; simplify_eq. split; intros [? ?]; done. Qed.

Lemma parse_extension_ok packet lo hi id val a b e :
  bytes_ok val -> val = take (length val) (drop a packet) -> ext_ok packet lo hi e ->
  (lo <= a)%nat -> b = (a + length val)%nat -> (b <= hi)%nat ->
  match parse_extension id val (a, b) e with
  | Ok e' => ext_ok packet lo hi e'
  | Err _ => True
  | Panic => False
  end.
Proof.
  intros Hv Hp He Ha Hb Hh. unfold parse_extension.
  destruct (id =? RTP_EXT_ID_DEPENDENCY_DESCRIPTOR).
  - destruct (Nat.ltb_spec (length val) RTP_DEPENDENCY_DESCRIPTOR_MIN_LEN) as [|H3]; [done|].
    pose proof (DependencyDescriptorFacts.read_safe val Hv H3) as Hr.
    destruct He. unfold RTP_DEPENDENCY_DESCRIPTOR_MIN_LEN in H3.
    destruct (DependencyDescriptor.read (DependencyDescriptor.new val)); simpl; [| |done];
      (split; simpl; auto; intros; simplify_eq; lia).
  - destruct val as [|b0 [|b1 [|b2 val]]]; try done.
    + destruct He. repeat case_if; split; simpl; auto.
      intros l [= <-]. unfold saturating_sub.
      assert (0 <= Z.land b0 127) by (apply Z.land_nonneg; lia). lia.
    + destruct He. case_if; split; simpl; auto.
      * intros ? ? [= <- <-]. simpl in *. lia.
      * done.
      * intros ? ? [= <- <-]. cbn [length] in Hp. by rewrite <- Hp.
      * intros s [= <-]. by apply (be_val_uint [b0; b1]).
Qed.

Lemma parse_extensions_ok packet fuel profile start extensions i e :
  bytes_ok extensions -> (i <= length extensions)%nat -> (length extensions - i < fuel)%nat ->
  extensions = take (length extensions) (drop (start + 4) packet) ->
  ext_ok packet (start + 4) (start + 4 + length extensions) e ->
  match parse_extensions fuel profile start extensions i e with
  | Ok e' => ext_ok packet (start + 4) (start + 4 + length extensions) e'
  | Err _ => True
  | Panic => False
  end.
Proof.
  intros Hb. revert i e. induction fuel as [|fuel IH]; intros i e Hi Hf Hsub He; [lia|].
  cbn [parse_extensions].
  destruct (Nat.leb_spec (length extensions) i); [done|].
  rewrite slice_from_ok by lia. cbn [mbind Res_bind].
  destruct (checked_split_at (drop i extensions) (profile_len profile)) as [[hd val]|] eqn:Es.
  2:{ unfold idx. destruct (lookup_lt_is_Some_2 extensions i) as [x ->]; [lia|]. simpl. by case_if. }
  apply ReadFacts.checked_split_at_Some in Es as (Hl & -> & ->). rewrite length_drop in Hl.
  assert (exists h0, take (profile_len profile) (drop i extensions) !! 0%nat = Some h0) as [h0 H0].
  { apply lookup_lt_is_Some_2. rewrite length_take, length_drop.
    destruct profile; cbn [profile_len] in *; lia. }
  rewrite (proj2 (idx_Ok _ _ _) H0). cbn [mbind Res_bind].
  case_if; [done|]. clear E.
  assert (forall len, (i + profile_len profile + len <= length extensions)%nat ->
    match (extension_val ← slice_to len (drop (profile_len profile) (drop i extensions));
       e' ← parse_extension (match profile with OneByte => Z.shiftr h0 4 | TwoByte => h0 end)
          extension_val
          (start + RTP_EXTENSIONS_HEADER_LEN + i + profile_len profile,
           start + RTP_EXTENSIONS_HEADER_LEN + i + profile_len profile + len)%nat e;
       parse_extensions fuel profile start extensions (i + profile_len profile + len) e')
    with Ok e' => ext_ok packet (start + 4) (start + 4 + length extensions) e' | Err _ => True | Panic => False
    end) as Hrest.
  { intros len Hlen. rewrite slice_to_ok by (rewrite !length_drop; lia). cbn [mbind Res_bind].
    match goal with |- context [parse_extension ?id ?v (?a, ?b) e] =>
      pose proof (parse_extension_ok packet (start + 4) (start + 4 + length extensions) id v a b e) as Hp;
      assert (v = take (length v) (drop a packet)) as Hval
    end.
    { unfold RTP_EXTENSIONS_HEADER_LEN. rewrite !length_take, !length_drop, Nat.min_l by lia. rewrite Hsub at 1.
      rewrite drop_drop, take_drop_head, drop_drop by lia. do 2 f_equal. lia. }
    unfold RTP_EXTENSIONS_HEADER_LEN in *.
    assert (1 <= profile_len profile)%nat by (destruct profile; simpl; lia).
    match type of Hp with ?A -> _ => assert A as Hva by by apply Forall_take, Forall_drop, Forall_drop end.
    specialize (Hp Hva Hval He ltac:(lia)).
    rewrite length_take, !length_drop in Hp. specialize (Hp ltac:(lia) ltac:(lia)).
    destruct (parse_extension _ _ _ _) as [e'| |]; [|done..]. cbn [mbind Res_bind].
    apply IH; [lia|lia|done|done]. }
  destruct profile; cbn [mbind Res_bind].
  - match goal with |- context [Nat.ltb ?a ?b] => destruct (Nat.ltb_spec a b) as [|Hlen] end; [done|].
    rewrite !length_drop in Hlen. cbn [profile_len] in *. apply Hrest. cbn [profile_len]. lia.
  - assert (exists h1, take 2 (drop i extensions) !! 1%nat = Some h1) as [h1 H1].
    { apply lookup_lt_is_Some_2. rewrite length_take, length_drop.
      cbn [profile_len] in *. lia. }
    cbn [profile_len]. rewrite (proj2 (idx_Ok _ _ _) H1). cbn [mbind Res_bind].
    match goal with |- context [Nat.ltb ?a ?b] => destruct (Nat.ltb_spec a b) as [|Hlen] end; [done|].
    rewrite !length_drop in Hlen. cbn [profile_len] in *. apply Hrest. cbn [profile_len]. lia.
Qed.

(** The facts about a parsed header that the packet operations rely on. *)
Record header_ok (packet : bytes) (h : t) : Prop := {
  payload_in : (RTP_MIN_HEADER_LEN <= (payload_range h).1 <= (payload_range h).2)%nat;
  payload_end : length packet = ((payload_range h).2 + SRTP_AUTH_TAG_LEN)%nat;
  padding_count : has_padding h = true -> ((payload_range h).1 < (payload_range h).2)%nat;
  tcc_range_in : forall a b, tcc_seqnum_range h = Some (a, b) ->
    (16 <= a)%nat /\ b = (a + 2)%nat /\ (b <= (payload_range h).1)%nat;
  tcc_bytes : forall a b, tcc_seqnum_range h = Some (a, b) -> tcc_seqnum h = Some (be_val (take 2 (drop a packet)));
  tcc_iff : is_Some (tcc_seqnum h) <-> is_Some (tcc_seqnum_range h);
  dd_range_in : forall d a b, dependency_descriptor h = Some (d, (a, b)) ->
    (16 <= a)%nat /\ (a + 3 <= b)%nat /\ (b <= (payload_range h).1)%nat;
  payload_type_7 : uint 7 (payload_type h);
  first_byte : exists b0, packet !! 0%nat = Some b0 /\ has_padding h = Z.testbit b0 5 /\
    (payload_range h).1 = (12 + 4 * Z.to_nat (b0 mod 16) +
      if Z.testbit b0 4 then 4 + 4 * Z.to_nat (be_val (take 2 (drop (14 + 4 * Z.to_nat (b0 mod 16)) packet))) else 0)%nat;
  second_byte : packet !! 1%nat = Some (128 * Z.b2z (marker h) + payload_type h);
  seqnum_16 : seqnum h = be_val (take 2 (drop 2 packet));
  timestamp_32 : timestamp h = be_val (take 4 (drop 4 packet));
  ssrc_32 : ssrc h = be_val (take 4 (drop 8 packet));
  level_120 : forall l, audio_level h = Some l -> 0 <= l <= 120
}.

Lemma slice_be {E} (l : bytes) a n :
  (a + n <= length l)%nat ->
  (s ← slice a (a + n) l; parse_be (E:=E) n s) = Ok (be_val (take n (drop a l))).
Proof.
  intros. rewrite slice_no_panic by lia. cbn [mbind Res_bind].
  replace (a + n - a)%nat with n by lia.
  rewrite ReadFacts.parse_be_ok by (rewrite length_take, length_drop; lia).
  by rewrite take_take, Nat.min_id.
Qed.

(** The two bytes that are made of several fields. *)
Lemma split_byte b : byte_ok b ->
  (0 <? Z.land b 32) = Z.testbit b 5 /\ (0 <? Z.shiftr (Z.land b 16) 4) = Z.testbit b 4 /\ Z.land b 15 = b mod 16 /\
  b = 128 * Z.b2z (negb (Z.shiftr (Z.land b 128) 7 =? 0)) + Z.land b 127.
Proof.
  intros Hb. set (fields b := Bool.eqb (0 <? Z.land b 32) (Z.testbit b 5) && Bool.eqb (0 <? Z.shiftr (Z.land b 16) 4) (Z.testbit b 4)
    && (Z.land b 15 =? b mod 16) && (b =? 128 * Z.b2z (negb (Z.shiftr (Z.land b 128) 7 =? 0)) + Z.land b 127)).
  assert (forallb fields (seqZ 0 256) = true) as Hall by (vm_compute; reflexivity).
  rewrite forallb_forall in Hall. specialize (Hall b). unfold byte_ok, uint in Hb.
  assert (In b (seqZ 0 256)) as Hin by (apply list_elem_of_In, elem_of_seqZ; lia). specialize (Hall Hin).
  unfold fields in Hall. boolsplit. rewrite !Bool.eqb_true_iff in *. by split_and!.
Qed.

Lemma land_127_uint b : uint 7 (Z.land b 127).
Proof. change 127 with (2 ^ 7 - 1). rewrite land_ones_mod by lia. apply wrap_uint. lia. Qed.

(** The tail of [parse], after the extensions. *)
Lemma header_ok_intro packet mk pt e ps pe hp :
  ext_ok packet 16 ps e -> (12 <= ps)%nat -> (ps <= pe)%nat -> length packet = (pe + 16)%nat ->
  (hp = true -> ps < pe)%nat -> uint 7 pt -> packet !! 1%nat = Some (128 * Z.b2z mk + pt) ->
  (exists b0, packet !! 0%nat = Some b0 /\ hp = Z.testbit b0 5 /\
    ps = (12 + 4 * Z.to_nat (b0 mod 16) +
      if Z.testbit b0 4 then 4 + 4 * Z.to_nat (be_val (take 2 (drop (14 + 4 * Z.to_nat (b0 mod 16)) packet))) else 0)%nat) ->
  header_ok packet (Header.mk mk hp pt (be_val (take 2 (drop 2 packet)))
    (be_val (take 4 (drop 4 packet))) (be_val (take 4 (drop 8 packet))) (e_video_rotation e)
    (e_audio_level e) (e_tcc_seqnum e) (e_tcc_seqnum_range e) (ps, pe) (e_dependency_descriptor e)).
Proof. intros [] **. split; simpl; auto. Qed.

Lemma ext_ok_weaken packet lo lo' hi e : (lo' <= lo)%nat -> ext_ok packet lo hi e -> ext_ok packet lo' hi e.
Proof.
  intros Hle [Ht ? ? ? Hd ?]. split; auto.
  - intros a b H. specialize (Ht a b H). lia.
  - intros d a b H. specialize (Hd d a b H). lia.
Qed.

(** Parsing never panics, and a parsed header describes the packet. *)
Lemma parse_ok packet : bytes_ok packet ->
  match parse packet with
  | Ok h => header_ok packet h
  | Err _ => True
  | Panic => False
  end.
Proof.
  intros Hb. unfold parse.
  destruct (checked_split_at packet RTP_MIN_HEADER_LEN) as [[mh rest]|] eqn:E; [|done].
  apply ReadFacts.checked_split_at_Some in E as (Hl & -> & ->). cbn [ok_or mbind Res_bind].
  unfold RTP_MIN_HEADER_LEN in *.
  assert (length (take 12 packet) = 12%nat) as Hlm by (rewrite length_take; lia).
  destruct (lookup_lt_is_Some_2 (take 12 packet) 0) as [b0 H0]; [lia|].
  destruct (lookup_lt_is_Some_2 (take 12 packet) 1) as [b1 H1]; [lia|].
  assert (byte_ok b0 /\ byte_ok b1) as [B0 B1].
  { rewrite lookup_take_lt in H0, H1 by lia. split; by eapply Forall_lookup_1. }
  apply split_byte in B0 as (P5 & P4 & Pcc & _). apply split_byte in B1 as (_ & _ & _ & Pb).
  assert (packet !! 1%nat = Some (128 * Z.b2z (negb (Z.shiftr (Z.land b1 128) 7 =? 0)) + Z.land b1 127)) as Hsecond.
  { rewrite lookup_take_lt in H1 by lia. by rewrite <- Pb. }
  rewrite (proj2 (idx_Ok _ _ _) H0). cbn [mbind Res_bind].
  unfold RTP_PAYLOAD_TYPE_OFFSET. rewrite (proj2 (idx_Ok _ _ _) H1). cbn [mbind Res_bind].
  cbn [RTP_SEQNUM_RANGE RTP_TIMESTAMP_RANGE RTP_SSRC_RANGE fst snd].
  unfold parse_u16, parse_u32.
  rewrite (ReadFacts.slice_parse_be (take 12 packet) 2 4 2), (ReadFacts.slice_parse_be (take 12 packet) 4 8 4),
    (ReadFacts.slice_parse_be (take 12 packet) 8 12 4) by lia.
  rewrite !take_drop_head by lia.
  set (csrcs_len := (4 * Z.to_nat (Z.land b0 15))%nat).
  destruct (checked_split_at (drop 12 packet) csrcs_len) as [[cs rest]|] eqn:Ec; [|done].
  apply ReadFacts.checked_split_at_Some in Ec as (Hlc & -> & ->). cbn [ok_or mbind Res_bind].
  rewrite length_drop in Hlc.
  destruct (0 <? Z.shiftr (Z.land b0 16) 4).
  2:{ cbn [mbind Res_bind].
      destruct (Nat.ltb_spec (length packet) (12 + csrcs_len + SRTP_AUTH_TAG_LEN)); [done|].
      unfold SRTP_AUTH_TAG_LEN in *. case_if; [done|].
      apply header_ok_intro; try lia; [apply ext_ok_none| |apply land_127_uint|exact Hsecond|].
      - intros Hpad. rewrite Hpad in E. simpl in E. boolsplit. lia.
      - exists b0. rewrite lookup_take_lt in H0 by lia. split_and!; [done..|]. rewrite <- P4, <- Pcc. unfold csrcs_len. lia. }
  destruct (checked_split_at (drop csrcs_len (drop 12 packet)) RTP_EXTENSIONS_HEADER_LEN)
    as [[eh rest]|] eqn:Ee; [|done].
  apply ReadFacts.checked_split_at_Some in Ee as (Hle & -> & ->). cbn [ok_or mbind Res_bind].
  unfold RTP_EXTENSIONS_HEADER_LEN in *. rewrite !length_drop in Hle.
  rewrite (ReadFacts.slice_parse_be _ 0 2 2), (ReadFacts.slice_parse_be _ 2 4 2)
    by (rewrite ?length_take, ?length_drop; lia).
  match goal with |- context [profile_try_from ?v] => destruct (profile_try_from v) as [profile| |] eqn:Ep end;
    [|done | unfold profile_try_from in Ep; by repeat case_if_in Ep].
  cbn [mbind Res_bind].
  match goal with |- context [(Z.to_nat ?v * 4)%nat] => set (extensions_len := (Z.to_nat v * 4)%nat) end.
  match goal with |- context [checked_split_at ?l extensions_len] =>
    destruct (checked_split_at l extensions_len) as [[ext rest]|] eqn:Ex; [|done] end.
  apply ReadFacts.checked_split_at_Some in Ex as (Hlx & -> & ->). cbn [ok_or mbind Res_bind].
  rewrite !length_drop in Hlx.
  match goal with |- context [parse_extensions ?f ?p ?st ?x 0 ?e] =>
    pose proof (parse_extensions_ok packet f p st x 0 e) as Hx;
    assert (length x = extensions_len) as Hxl by (rewrite length_take, !length_drop; lia);
    assert (bytes_ok x) as Hxb by (by apply Forall_take; repeat apply Forall_drop)
  end.
  rewrite Hxl in Hx at 1. specialize (Hx Hxb ltac:(lia) ltac:(lia)).
  assert (drop 4 (drop csrcs_len (drop 12 packet)) = drop (12 + csrcs_len + 4) packet) as Ed.
  { by rewrite !drop_drop. }
  rewrite Hxl, Ed in Hx. specialize (Hx eq_refl (ext_ok_none _ _ _)). rewrite <- Ed in Hx. rewrite Hxl in *.
  match goal with |- context [parse_extensions ?f ?p ?st ?x 0 ?e] =>
    destruct (parse_extensions f p st x 0 e) as [e'| |]; [|done..] end.
  cbn [mbind Res_bind].
  match goal with |- context [Nat.ltb ?a ?b] => destruct (Nat.ltb_spec a b); [done|] end.
  unfold SRTP_AUTH_TAG_LEN in *. case_if; [done|].
  apply header_ok_intro; try lia; [eapply ext_ok_weaken; [|done]; lia| |apply land_127_uint|exact Hsecond|].
  - intros Hpad. rewrite Hpad in E. simpl in E. boolsplit. lia.
  - exists b0. rewrite lookup_take_lt in H0 by lia. split_and!; [done..|]. rewrite <- P4, <- Pcc.
    unfold extensions_len. rewrite take_drop_head, !drop_drop by lia. fold csrcs_len.
    replace (12 + (csrcs_len + 2))%nat with (14 + csrcs_len)%nat by lia. lia.
Qed.

End HeaderFacts.

Module RtpHeaderProperties.
Import RtpTypes Header.



Import DependencyDescriptor.

(** The bit reader of the dependency descriptor implements the format's
    fixed-width field [f(n)], for 1 to 8 bits: wherever the reader stands, also
    across a byte boundary, it returns the [n] bits at its position as a
    big-endian number and advances by [n], and refuses when fewer are left. *)
Theorem bit_reader_refines_window r n :
  DependencyDescriptorFacts.wf r -> 0 < n <= 8 ->
  read_u8 r n =
    if DependencyDescriptorFacts.pos r + n <=? DependencyDescriptorFacts.bit_size r
    then Ok (DependencyDescriptorFacts.window (src r) (DependencyDescriptorFacts.pos r) n,
             reader (src r) (Z.to_nat ((DependencyDescriptorFacts.pos r + n) / 8))
                    ((DependencyDescriptorFacts.pos r + n) mod 8))
    else Err tt.
Proof. apply DependencyDescriptorFacts.read_u8_spec. Qed.

Lemma bit_reader_refines_window_witness :
  read_u8 (reader [1; 128] 0 7) 2 = Ok (3, reader [1; 128] 1 1).
Proof.
  rewrite (bit_reader_refines_window (reader [1; 128] 0 7) 2); [reflexivity| |lia].
  split; [repeat constructor; unfold byte_ok, uint; lia|]. simpl. lia.
Defined.

(** Reading the dependency descriptor of any extension of at least three
    bytes, as the header parser does, terminates without a panic, whatever
    template structure the bytes claim to describe. *)
Theorem dependency_descriptor_total b :
  bytes_ok b -> (3 <= length b)%nat -> read (new b) ≠ Panic.
Proof. apply DependencyDescriptorFacts.read_safe. Qed.

Lemma dependency_descriptor_total_witness :
  read (new [192; 0; 1; 128; 3; 255; 255; 255; 0; 17; 200; 3]) ≠ Panic.
Proof.
  apply (dependency_descriptor_total [192; 0; 1; 128; 3; 255; 255; 255; 0; 17; 200; 3]);
    [repeat constructor; unfold byte_ok, uint; lia | simpl; lia].
Defined.

End RtpHeaderProperties.
