(* ===== verification/Audio.v ===== *)
(** * Audio: levels and the active speaker comparison

    [src/backend/src/audio.rs]. *)
From Stdlib Require Import Floats.SpecFloat.
From S2P Require Import Prelude Collections Float Bytes.

Module LevelFloorTracker.

Record t := mk {
  floor : option Z;
  floor_since_reset : option Z;
  samples_since_reset : Z
}.

Definition default : t := mk None None 0.

(** 15 s of 20 ms samples *)
Definition SAMPLES_PER_RECALCULATION : Z :=
  Duration.as_millis (Duration.from_secs 15) / Duration.as_millis (Duration.from_millis 20).

Definition reset (floor : Z) : t := mk (Some floor) None 0.
Definition get (self : t) : option Z := floor self.

(** [((floor as f32) * (floor_since_reset as f32)).sqrt() as Level] *)
Definition average (floor floor_since_reset : Z) : Z :=
  F32.to_u8 (F32.sqrt (F32.mul (F32.of_Z floor) (F32.of_Z floor_since_reset))).

Definition update (self : t) (sample : Z) : t :=
  if sample =? 0 then self
  else
    match floor self with
    | None => reset sample
    | Some floor =>
        if sample <? floor then reset sample
        else
          match floor_since_reset self with
          | None => mk (Some floor) (Some sample) 1
          | Some since =>
              let floor_since_reset := Z.min sample since in
              let samples_since_reset := u32 (samples_since_reset self + 1) in
              if SAMPLES_PER_RECALCULATION <=? samples_since_reset
              then reset (average floor floor_since_reset)
              else mk (Some floor) (Some floor_since_reset) samples_since_reset
          end
    end.

End LevelFloorTracker.

Module LevelsTracker.

Record t := mk { floor : LevelFloorTracker.t; levels : RingBuffer.t Z }.

Definition default : t := mk LevelFloorTracker.default (RingBuffer.new 50).

Definition push (self : t) (sample : Z) : t :=
  let floor := LevelFloorTracker.update (floor self) sample in
  let threshold :=
    u8 (match LevelFloorTracker.get floor with Some f => f | None => 0 end + 10) in
  let sample := if sample <=? threshold then 0 else sample in
  mk floor (RingBuffer.push (levels self) sample).1.

Definition iter_latest_first (self : t) : list Z := rev (RingBuffer.values (levels self)).

Definition latest (self : t) : option Z := head (iter_latest_first self).

Definition count_latest_chunk_above_threshold (self : t) (n : nat) (threshold : Z) : nat :=
  length (List.filter (fun level => threshold <? level) (take n (iter_latest_first self))).

Definition count_chunks_above_threshold (self : t) (chunk_size : nat) (threshold : Z) : Res unit nat :=
  counts ← Iter.count_in_chunks_exact
    (map (fun level => threshold <? level) (iter_latest_first self)) chunk_size;
  Ok (length (List.filter (fun high_count => (high_count =? chunk_size)%nat) counts)).

Definition HIGH : Z := 70.
Definition LOW : Z := 40.
Definition CHUNK_SIZE : nat := 5.

Definition more_active_than_most_active (self most_active : t) : Res unit bool :=
  if unwrap_or (latest self) 0 <=? LOW then Ok false
  else if LOW <=? unwrap_or (latest most_active) 0 then Ok false
  else
    let self_first_chunk := count_latest_chunk_above_threshold self CHUNK_SIZE HIGH in
    if (self_first_chunk <? CHUNK_SIZE)%nat then Ok false
    else
      let most_active_first_chunk := count_latest_chunk_above_threshold most_active CHUNK_SIZE HIGH in
      if (0 <? most_active_first_chunk)%nat then Ok false
      else if (self_first_chunk <? most_active_first_chunk)%nat then Ok false
      else
        self_high_chunks ← count_chunks_above_threshold self CHUNK_SIZE HIGH;
        most_active_high_chunks ← count_chunks_above_threshold most_active CHUNK_SIZE HIGH;
        if (self_high_chunks <=? most_active_high_chunks)%nat then Ok false else Ok true.

End LevelsTracker.

(** * Theorems *)

Module AudioFacts.

(** The comparison is decided without a panic. *)
Lemma more_active_total a b :
  exists r, LevelsTracker.more_active_than_most_active a b = Ok r.
Proof.
  unfold LevelsTracker.more_active_than_most_active, LevelsTracker.count_chunks_above_threshold,
    Iter.count_in_chunks_exact, Iter.fold_in_chunks_exact, LevelsTracker.CHUNK_SIZE.
  cbn [Nat.eqb negb assert_]. rewrite !mbind_Ok.
  repeat case_if; by eexists.
Qed.

(** A contender that is more active than the current speaker is loud now, the
    speaker is not: the two never both beat each other. *)
Lemma more_active_asym a b :
  LevelsTracker.more_active_than_most_active a b = Ok true ->
  LevelsTracker.more_active_than_most_active b a = Ok false.
Proof.
  unfold LevelsTracker.more_active_than_most_active at 1.
  destruct (Z.leb_spec (unwrap_or (LevelsTracker.latest a) 0) LevelsTracker.LOW); [done|].
  destruct (Z.leb_spec LevelsTracker.LOW (unwrap_or (LevelsTracker.latest b) 0)); [done|].
  intros _. unfold LevelsTracker.more_active_than_most_active.
  by rewrite (proj2 (Z.leb_le (unwrap_or (LevelsTracker.latest b) 0) LevelsTracker.LOW)) by lia.
Qed.

(** Number of samples kept. *)
Lemma push_bounded s x :
  (length (RingBuffer.values (LevelsTracker.levels s)) <=
     RingBuffer.limit (LevelsTracker.levels s))%nat ->
  (length (RingBuffer.values (LevelsTracker.levels (LevelsTracker.push s x))) <=
     RingBuffer.limit (LevelsTracker.levels s))%nat.
Proof.
  intros Hl. unfold LevelsTracker.push. cbn [LevelsTracker.levels].
  match goal with |- context [RingBuffer.push ?l ?v] =>
    destruct (RingBufferFacts.push_values l v Hl) as [_ ->] end.
  rewrite length_lastn. lia.
Qed.

End AudioFacts.

Module AudioProperties.

(** The active speaker comparison never panics and is asymmetric: two
    participants are never each more active than the other, so an active speaker
    that was replaced does not displace its successor on the same levels. *)
Theorem active_speaker_asymmetric a b :
  exists r r', LevelsTracker.more_active_than_most_active a b = Ok r /\
    LevelsTracker.more_active_than_most_active b a = Ok r' /\ (r = true -> r' = false).
Proof.
  destruct (AudioFacts.more_active_total a b) as [r E], (AudioFacts.more_active_total b a) as [r' E'].
  exists r, r'. split; [done|]. split; [done|]. intros ->.
  rewrite (AudioFacts.more_active_asym a b E) in E'. by injection E'.
Qed.

End AudioProperties.
