(* ===== verification/Vp8.v ===== *)
(** * Vp8: VP8 payload descriptors

    [src/backend/src/vp8.rs]: reading the descriptor and payload header, and
    rewriting the picture ID and TL0PICIDX in place when forwarding. *)
From S2P Require Import Prelude Common Bytes RtpHeader.
Import Read RtpTypes.

Module Vp8.

(** The two kinds of error of [ParsedHeader::read]. *)
Inductive ReadError := UnexpectedEof | SevenBitPictureId.

Record ParsedHeader := mk {
  picture_id : option Z;
  tl0_pic_idx : option Z;
  is_key_frame : bool;
  resolution : option PixelSize
}.

#[global] Instance ParsedHeader_eta : Settable ParsedHeader := fun h =>
  mk (picture_id h) (tl0_pic_idx h) (is_key_frame h) (resolution h).

Definition default_header : ParsedHeader := mk None None false None.

(** [byte.ms_bit(index)] of a [u8] and a constant index *)
Definition ms_bit (byte index : Z) : bool := Z.testbit byte (7 - index).

Record Byte0 := byte0 {
  has_extensions : bool;
  starts_partition : bool;
  zero_partition_idx : bool
}.

Definition byte0_parse (b : Z) : Byte0 :=
  byte0 (ms_bit b 0) (ms_bit b 3) (Z.land b 7 =? 0).

Definition has_payload_header (self : Byte0) : bool :=
  starts_partition self && zero_partition_idx self.

Record XByte := xbyte {
  has_picture_id : bool;
  has_tl0_pic_idx : bool;
  has_tid : bool;
  has_key_idx : bool
}.

Definition xbyte_parse (x_byte : Z) : XByte :=
  xbyte (ms_bit x_byte 0) (ms_bit x_byte 1) (ms_bit x_byte 2) (ms_bit x_byte 3).

(** [PayloadHeader::parse(byte).key_frame] *)
Definition payload_header_key_frame (byte : Z) : bool := negb (ms_bit byte 7).

Definition read_u8 (payload : bytes) : Res ReadError (Z * bytes) :=
  match payload with b :: rest => Ok (b, rest) | [] => Err UnexpectedEof end.
Definition read_bytes (payload : bytes) (n : nat) : Res ReadError (bytes * bytes) :=
  ok_or UnexpectedEof (read_slice payload n).
Definition read_u16_be (payload : bytes) : Res ReadError (Z * bytes) :=
  '(b, rest) ← read_bytes payload 2; Ok (be_val b, rest).
Definition read_u16_le (payload : bytes) : Res ReadError (Z * bytes) :=
  '(b, rest) ← read_bytes payload 2; Ok (le_val b, rest).

Definition size_from_additional_key_frame_header (h : bytes) : Res ReadError PixelSize :=
  '(_, h) ← read_bytes h 3;
  '(width_with_scale, h) ← read_u16_le h;
  '(height_with_scale, h) ← read_u16_le h;
  Ok {| width := Z.land width_with_scale 16383; height := Z.land height_with_scale 16383 |}.

(** The extension bytes. *)
Definition read_extensions (payload : bytes) (header : ParsedHeader)
    : Res ReadError (bytes * ParsedHeader) :=
  '(b, payload) ← read_u8 payload;
  let x_byte := xbyte_parse b in
  '(payload, header) ←
    (if has_picture_id x_byte then
       '(peek, _) ← read_u8 payload;
       if negb (ms_bit peek 0) then Err SevenBitPictureId else
       '(picture_id_with_leading_bit, payload) ← read_u16_be payload;
       Ok (payload, header <| picture_id := Some (Z.land picture_id_with_leading_bit 32767) |>)
     else Ok (payload, header));
  '(payload, header) ←
    (if has_tl0_pic_idx x_byte then
       '(b, payload) ← read_u8 payload;
       Ok (payload, header <| tl0_pic_idx := Some b |>)
     else Ok (payload, header));
  (if has_tid x_byte || has_key_idx x_byte then
     '(_, payload) ← read_u8 payload;
     Ok (payload, header)
   else Ok (payload, header)).

(** The payload header, in the packets that have one. *)
Definition read_payload_header (payload : bytes) (header : ParsedHeader)
    : Res ReadError ParsedHeader :=
  '(common_header, payload) ← read_bytes payload 3;
  '(b, _) ← read_u8 common_header;
  let header := header <| is_key_frame := payload_header_key_frame b |> in
  if is_key_frame header then
    '(additional_key_frame_header, _) ← read_bytes payload 7;
    size ← size_from_additional_key_frame_header additional_key_frame_header;
    Ok (header <| resolution := Some size |>)
  else Ok header.

Definition read (payload : bytes) : Res ReadError ParsedHeader :=
  '(b, payload) ← read_u8 payload;
  let byte0 := byte0_parse b in
  '(payload, header) ←
    (if has_extensions byte0 then read_extensions payload default_header
     else Ok (payload, default_header));
  if has_payload_header byte0 then read_payload_header payload header else Ok header.

Definition modify_header {E} (rtp_payload : bytes) (picture_id tl0_pic_idx : Z) : Res E bytes :=
  p ← copy_from_slice 2 4 (be_bytes 2 (Z.lor picture_id 32768)) rtp_payload;
  _ ← assert_ (4 <? length p)%nat;
  Ok (<[4%nat := tl0_pic_idx]> p).

Definition expand_picture_id (truncated max : Z) : Z * Z :=
  Counters.expand_truncated_counter 15 truncated max.
Definition expand_tl0_pic_idx (truncated max : Z) : Z * Z :=
  Counters.expand_truncated_counter 8 truncated max.

End Vp8.

(** * Theorems *)

Module Vp8Facts.
Import Vp8.

Lemma read_u8_no_panic p : read_u8 p ≠ Panic.
Proof. by destruct p. Qed.

Lemma read_bytes_no_panic p n : read_bytes p n ≠ Panic.
Proof. unfold read_bytes, read_slice. by case_if. Qed.

Lemma read_u16_be_no_panic p : read_u16_be p ≠ Panic.
Proof. apply bind_no_panic; [apply read_bytes_no_panic|]. by intros [] _. Qed.

Lemma read_u16_le_no_panic p : read_u16_le p ≠ Panic.
Proof. apply bind_no_panic; [apply read_bytes_no_panic|]. by intros [] _. Qed.

#[local] Hint Resolve read_u8_no_panic read_bytes_no_panic read_u16_be_no_panic
  read_u16_le_no_panic : signal.

(** Reading any payload ends in a header or an error. *)
Lemma read_no_panic p : read p ≠ Panic.
Proof.
  unfold read. apply bind_no_panic; [auto with signal|]. intros [b q] _. cbv zeta.
  apply bind_no_panic.
  - case_if; [|done]. unfold read_extensions. apply bind_no_panic; [auto with signal|].
    intros [x q'] _. cbv zeta. apply bind_no_panic; [case_if; [|done]|intros [q1 h1] _; apply bind_no_panic;
      [case_if; [|done]|intros [q2 h2] _; case_if; [|done]]].
    + apply bind_no_panic; [auto with signal|]. intros [pk r] _. case_if; [done|].
      apply bind_no_panic; [auto with signal|]. by intros [] _.
    + apply bind_no_panic; [auto with signal|]. by intros [] _.
    + apply bind_no_panic; [auto with signal|]. by intros [] _.
  - intros [q' h] _. case_if; [|done]. unfold read_payload_header.
    apply bind_no_panic; [auto with signal|]. intros [c r] _.
    apply bind_no_panic; [auto with signal|]. intros [b' r'] _. cbv zeta. case_if; [|done].
    apply bind_no_panic; [auto with signal|]. intros [a r''] _.
    apply bind_no_panic; [|done]. unfold size_from_additional_key_frame_header.
    apply bind_no_panic; [auto with signal|]. intros [] _.
    apply bind_no_panic; [auto with signal|]. intros [] _.
    apply bind_no_panic; [auto with signal|]. by intros [] _.
Qed.

Lemma testbit_be2_high a b : uint 8 b -> Z.testbit (be_val [a; b]) 15 = Z.testbit a 7.
Proof.
  intros Hb. unfold be_val. cbn [fold_left]. rewrite Z.shiftl_0_l, Z.lor_0_l, Z.lor_spec.
  rewrite (uint_testbit_high 8 b) by (done || lia). rewrite orb_false_r.
  by rewrite Z.shiftl_spec by lia.
Qed.

(** The extensions when both indices are there. *)
Lemma read_extensions_eval x a b c rest h0 :
  has_picture_id (xbyte_parse x) = true -> has_tl0_pic_idx (xbyte_parse x) = true ->
  ms_bit a 0 = true ->
  read_extensions (x :: a :: b :: c :: rest) h0 =
    let h := h0 <| picture_id := Some (Z.land (be_val [a; b]) 32767) |> <| tl0_pic_idx := Some c |> in
    if has_tid (xbyte_parse x) || has_key_idx (xbyte_parse x) then
      match rest with [] => Err UnexpectedEof | _ :: r => Ok (r, h) end
    else Ok (rest, h).
Proof.
  intros Hi Hl Ha. unfold read_extensions. cbn [read_u8]. rewrite mbind_Ok. cbv zeta.
  rewrite Hi, Hl. cbn [read_u8]. rewrite mbind_Ok, Ha. cbn [negb].
  change (read_u16_be (a :: b :: c :: rest)) with (@Ok ReadError _ (be_val [a; b], c :: rest)).
  rewrite mbind_Ok, mbind_Ok. cbn [read_u8]. rewrite mbind_Ok, mbind_Ok.
  case_if; [|done]. by destruct rest.
Qed.

(** A payload that yields both indices has them at the fixed offsets. *)
Lemma read_extensions_inv p q h :
  read_extensions p default_header = Ok (q, h) ->
  is_Some (picture_id h) -> is_Some (tl0_pic_idx h) ->
  exists x a b c rest, p = x :: a :: b :: c :: rest /\
    has_picture_id (xbyte_parse x) = true /\ has_tl0_pic_idx (xbyte_parse x) = true /\
    ms_bit a 0 = true.
Proof.
  intros Hr Hp Ht. destruct p as [|x p]; [done|]. unfold read_extensions in Hr. cbn [read_u8] in Hr.
  rewrite mbind_Ok in Hr. cbv zeta in Hr.
  apply bind_Ok in Hr as ([q1 h1] & H1 & Hr). apply bind_Ok in Hr as ([q2 h2] & H2 & Hr).
  assert (h = h2) as ->.
  { case_if_in Hr; [|by injection Hr as _ <-]. apply bind_Ok in Hr as ([] & _ & Hr). by injection Hr as _ <-. }
  destruct (has_picture_id (xbyte_parse x)) eqn:Hi.
  2:{ injection H1 as <- <-. case_if_in H2.
      - apply bind_Ok in H2 as ([] & _ & H2). injection H2 as _ <-. by destruct Hp.
      - injection H2 as _ <-. by destruct Hp. }
  apply bind_Ok in H1 as ([pk r] & Hpk & H1). destruct p as [|a p]; [done|]. injection Hpk as <- <-.
  destruct (ms_bit a 0) eqn:Ha; [|done]. cbn [negb] in H1.
  apply bind_Ok in H1 as ([v r1] & Hv & H1). injection H1 as <- <-.
  destruct p as [|b p]; [done|].
  assert (r1 = p) as ->.
  { unfold read_u16_be, read_bytes, read_slice in Hv. simpl in Hv. by injection Hv as _ <-. }
  destruct (has_tl0_pic_idx (xbyte_parse x)) eqn:Hl.
  2:{ injection H2 as _ <-. by destruct Ht. }
  destruct p as [|c p]; [done|]. by exists x, a, b, c, p.
Qed.

Lemma payload_header_indices p h h' :
  read_payload_header p h = Ok h' -> picture_id h' = picture_id h /\ tl0_pic_idx h' = tl0_pic_idx h.
Proof.
  intros Hr. unfold read_payload_header in Hr. do 2 (apply bind_Ok in Hr as ([] & _ & Hr)).
  cbv zeta in Hr. case_if_in Hr.
  - apply bind_Ok in Hr as ([] & _ & Hr). apply bind_Ok in Hr as (? & _ & Hr). by injection Hr as <-.
  - by injection Hr as <-.
Qed.

(** The payload header is read the same way whatever the indices are. *)
Lemma payload_header_frame p h pid tl0 h' :
  read_payload_header p h = Ok h' ->
  read_payload_header p (h <| picture_id := pid |> <| tl0_pic_idx := tl0 |>) =
    Ok (h' <| picture_id := pid |> <| tl0_pic_idx := tl0 |>).
Proof.
  intros Hr. unfold read_payload_header in *.
  apply bind_Ok in Hr as ([c q] & -> & Hr). rewrite mbind_Ok.
  apply bind_Ok in Hr as ([b q'] & -> & Hr). rewrite mbind_Ok. cbv zeta in *.
  cbn [is_key_frame set_field] in *. case_if.
  - apply bind_Ok in Hr as ([a q''] & -> & Hr). rewrite mbind_Ok.
    apply bind_Ok in Hr as (sz & -> & Hr). rewrite mbind_Ok. by injection Hr as <-.
  - by injection Hr as <-.
Qed.

Lemma picture_id_bytes pid :
  uint 15 pid -> exists a b, be_bytes 2 (Z.lor pid 32768) = [a; b] /\ ms_bit a 0 = true /\
    Z.land (be_val [a; b]) 32767 = pid.
Proof.
  intros Hp. assert (uint 16 (Z.lor pid 32768)) as Hu.
  { apply uint_lor; [lia| |split; vm_compute; congruence]. unfold uint in *. lia. }
  assert (be_val (be_bytes 2 (Z.lor pid 32768)) = Z.lor pid 32768) as E
    by (rewrite be_val_be_bytes; by apply wrap_small).
  pose proof (be_bytes_ok 2 (Z.lor pid 32768)) as Hok.
  destruct (be_bytes 2 (Z.lor pid 32768)) as [|a [|b [|]]] eqn:Eb;
    try (apply (f_equal length) in Eb; by rewrite length_be_bytes in Eb).
  exists a, b. split; [done|]. inversion Hok as [|? ? Ha Hok']; subst. inversion Hok' as [|? ? Hb _]; subst.
  split.
  - unfold ms_bit. change (7 - 0) with 7. rewrite <- (testbit_be2_high a b) by done. rewrite E.
    rewrite Z.lor_spec. change (Z.testbit 32768 15) with true. apply orb_true_r.
  - rewrite E, Z.land_lor_distr_l. change (Z.land 32768 32767) with 0. rewrite Z.lor_0_r.
    change 32767 with (2 ^ 15 - 1). rewrite land_ones_mod by lia. by apply wrap_small.
Qed.

(** Rewriting the header of a payload that has a picture ID and a TL0PICIDX
    changes exactly these two in what is read back. *)
Lemma read_modify p h pid tl0 :
  read p = Ok h -> is_Some (picture_id h) -> is_Some (tl0_pic_idx h) -> uint 15 pid ->
  exists p', modify_header (E:=unit) p pid tl0 = Ok p' /\ length p' = length p /\
    read p' = Ok (h <| picture_id := Some pid |> <| tl0_pic_idx := Some tl0 |>).
Proof.
  intros Hr Hp Ht Hpid. destruct p as [|b0 p]; [done|]. unfold read in Hr. cbn [read_u8] in Hr.
  rewrite mbind_Ok in Hr. cbv zeta in Hr. apply bind_Ok in Hr as ([q h1] & H1 & Hr).
  assert (picture_id h = picture_id h1 /\ tl0_pic_idx h = tl0_pic_idx h1) as [Ep Et].
  { case_if_in Hr; [by eapply payload_header_indices|by injection Hr as <-]. }
  destruct (has_extensions (byte0_parse b0)) eqn:Ex.
  2:{ injection H1 as <- <-. rewrite Ep in Hp. by destruct Hp. }
  rewrite Ep in Hp. rewrite Et in Ht.
  destruct (read_extensions_inv p q h1 H1 Hp Ht) as (x & a & b & c & rest & -> & Hi & Hl & Ha).
  destruct (picture_id_bytes pid Hpid) as (a' & b' & Eb & Ha' & Ev).
  exists (b0 :: x :: a' :: b' :: tl0 :: rest). split; [|split; [done|]].
  { unfold modify_header. rewrite Eb. done. }
  unfold read. cbn [read_u8]. rewrite mbind_Ok. cbv zeta. rewrite Ex.
  rewrite read_extensions_eval by done. rewrite read_extensions_eval in H1 by done. cbv zeta in *.
  rewrite Ev.
  assert (h1 = default_header <| picture_id := Some (Z.land (be_val [a; b]) 32767) |>
            <| tl0_pic_idx := Some c |>) as Eh1.
  { case_if_in H1; [|by injection H1 as _ <-]. destruct rest; [done|]. by injection H1 as _ <-. }
  assert (forall h0 : ParsedHeader, (if has_tid (xbyte_parse x) || has_key_idx (xbyte_parse x) then
      match rest with [] => Err UnexpectedEof | _ :: r => Ok (r, h0) end else Ok (rest, h0)) =
      @Ok ReadError _ (q, h0)) as Hq.
  { intros h0. case_if_in H1; [|by injection H1 as <- _]. destruct rest; [done|]. by injection H1 as <- _. }
  rewrite Hq, mbind_Ok. subst h1. case_if; [|by injection Hr as <-].
  by apply (payload_header_frame q _ (Some pid) (Some tl0)) in Hr.
Qed.

(** A payload with both indices has the five bytes that are rewritten. *)
Lemma read_length p h :
  read p = Ok h -> is_Some (picture_id h) -> is_Some (tl0_pic_idx h) -> (5 <= length p)%nat.
Proof.
  intros H P T. destruct (read_modify p h 0 0 H P T) as (p' & E & L & _); [unfold uint; lia|].
  unfold modify_header in E. apply bind_Ok in E as (q & E1 & E2).
  apply bind_Ok in E2 as (u & E2 & E3). injection E3 as <-. rewrite length_insert in L.
  unfold assert_ in E2. case_if_in E2; [|done]. boolsplit. lia.
Qed.

Lemma modify_header_ok {E} p a b : (5 <= length p)%nat ->
  exists p', modify_header (E:=E) p a b = Ok p' /\ length p' = length p.
Proof.
  intros L. destruct p as [|x [|y [|z [|u [|v r]]]]]; simpl in L; try lia.
  eexists. split; [reflexivity|]. done.
Qed.

End Vp8Facts.

Module Vp8Properties.
Import Vp8.

(** Rewriting the VP8 descriptor of a packet that carries a picture ID and a
    TL0PICIDX changes those two fields and nothing else: the result has the same
    length and reads back as the same header (key frame flag and resolution
    included) with the new values. *)
Theorem vp8_modify_reads_back p h pid tl0 :
  read p = Ok h -> is_Some (picture_id h) -> is_Some (tl0_pic_idx h) -> uint 15 pid ->
  exists p', modify_header (E:=unit) p pid tl0 = Ok p' /\ length p' = length p /\
    read p' = Ok (h <| picture_id := Some pid |> <| tl0_pic_idx := Some tl0 |>).
Proof. apply Vp8Facts.read_modify. Qed.

Lemma vp8_modify_reads_back_witness :
  exists p' h, modify_header (E:=unit) [144; 224; 129; 2; 7; 32; 16; 0; 0; 157; 1; 42; 128; 2; 104; 1]
      1000 9 = Ok p' /\ read p' = Ok h /\ picture_id h = Some 1000 /\ tl0_pic_idx h = Some 9.
Proof.
  destruct (vp8_modify_reads_back [144; 224; 129; 2; 7; 32; 16; 0; 0; 157; 1; 42; 128; 2; 104; 1]
    _ 1000 9 ltac:(vm_compute; reflexivity)) as (p' & E & _ & R).
  - eexists; reflexivity.
  - eexists; reflexivity.
  - unfold uint; lia.
  - eexists p', _. split; [exact E|]. split; [exact R|]. split; reflexivity.
Defined.

End Vp8Properties.
