(* ===== verification/Packet.v ===== *)
(** * Packet: RTP packets and the operations that rewrite them

    The [Packet] of [src/backend/src/rtp/packet.rs]: the parsed values next to
    the serialized bytes, the setters that keep the two in step, encryption in
    place, forwarding ([rewrite]), retransmission ([to_rtx]) and the writer of
    new packets ([with_empty_tag]).  Borrowed and owned packets are the same
    value here; the [borrow], [borrow_mut] and [to_owned] of the source copy
    every field. *)
From S2P Require Import Prelude Common Bytes Srtp RtpHeader.
Import Read Serialize Srtp RtpTypes.

Module Packet.
Import Header(RTP_PAYLOAD_TYPE_OFFSET, RTP_SEQNUM_RANGE, RTP_TIMESTAMP_RANGE, RTP_SSRC_RANGE,
  RTP_EXT_ID_TCC_SEQNUM, HeaderExtensionsProfile, OneByte, TwoByte,
  RTP_ONE_BYTE_EXTENSIONS_PROFILE, RTP_TWO_BYTE_EXTENSIONS_PROFILE).

Record t := mk {
  marker : bool;
  payload_type_in_header : Z;
  ssrc_in_header : Z;
  seqnum_in_header : Z;
  seqnum_in_payload : option Z;
  pending_retransmission : bool;
  timestamp : Z;
  video_rotation : option VideoRotation;
  audio_level : option Z;
  dependency_descriptor : option (DependencyDescriptor.t * range);
  tcc_seqnum : option Z;
  tcc_seqnum_range : option range;
  payload_range_in_header : range;
  encrypted : bool;
  deadline : option Z;
  padding_byte_count : Z;
  serialized : bytes
}.

#[global] Instance t_eta : Settable t := fun p =>
  mk (marker p) (payload_type_in_header p) (ssrc_in_header p) (seqnum_in_header p)
     (seqnum_in_payload p) (pending_retransmission p) (timestamp p) (video_rotation p)
     (audio_level p) (dependency_descriptor p) (tcc_seqnum p) (tcc_seqnum_range p)
     (payload_range_in_header p) (encrypted p) (deadline p) (padding_byte_count p) (serialized p).

Definition new (header : Header.t) (seqnum_in_header : Z) (seqnum_in_payload : option Z)
    (pending_retransmission : bool) (tcc_seqnum : option Z) (encrypted : bool)
    (deadline : option Z) (padding_byte_count : Z) (serialized : bytes) : t :=
  mk (Header.marker header) (Header.payload_type header) (Header.ssrc header) seqnum_in_header
     seqnum_in_payload pending_retransmission (Header.timestamp header)
     (Header.video_rotation header) (Header.audio_level header)
     (Header.dependency_descriptor header) tcc_seqnum (Header.tcc_seqnum_range header)
     (Header.payload_range header) encrypted deadline padding_byte_count serialized.

Definition is_rtx (self : t) : bool :=
  match seqnum_in_payload self with Some _ => true | None => false end.

Definition payload_type (self : t) : Z :=
  if is_rtx self then from_rtx_payload_type (payload_type_in_header self)
  else payload_type_in_header self.

Definition ssrc (self : t) : Z :=
  if is_rtx self then from_rtx_ssrc (ssrc_in_header self) else ssrc_in_header self.

Definition seqnum (self : t) : Z :=
  match seqnum_in_payload self with Some s => s | None => seqnum_in_header self end.

Definition payload_range (self : t) : range :=
  if is_rtx self then
    (((payload_range_in_header self).1 + 2)%nat, (payload_range_in_header self).2)
  else payload_range_in_header self.

(** [end - start] on [usize] *)
Definition payload_size_bytes (self : t) : Z :=
  u64 (Z.of_nat (payload_range self).2 - Z.of_nat (payload_range self).1).

Definition is_audio (self : t) : bool := is_audio_payload_type (payload_type self).
Definition is_padding (self : t) : bool := is_padding_payload_type (payload_type self).
Definition is_video (self : t) : bool := is_video_payload_type (payload_type self).
Definition is_vp8 (self : t) : bool := payload_type self =? VP8_PAYLOAD_TYPE.
Definition is_data (self : t) : bool := payload_type self =? CLIENT_SERVER_DATA_PAYLOAD_TYPE.

Definition is_past_deadline (self : t) (now : Z) : bool :=
  match deadline self with None => true | Some deadline => deadline <? now end.

Definition entry_time (self : t) : option Z :=
  match deadline self with None => None | Some deadline => Some (deadline - PACKET_LIFETIME) end.

Definition header {E} (self : t) : Res E bytes :=
  slice_to (payload_range self).1 (serialized self).

Definition payload {E} (self : t) : Res E bytes :=
  slice (payload_range self).1 (payload_range self).2 (serialized self).

(** in bytes *)
Definition size (self : t) : Z := Z.of_nat (length (serialized self)).

(** [self.header_mut()[range].copy_from_slice(bytes)] *)
Definition write_in_header {E} (self : t) (r : range) (b : bytes) : Res E t :=
  _ ← assert_ (negb (encrypted self));
  let header_end := (payload_range self).1 in
  header ← slice_to header_end (serialized self);
  header ← copy_from_slice r.1 r.2 b header;
  Ok (self <| serialized := header ++ drop header_end (serialized self) |>).

(** [self.payload_mut()[range].copy_from_slice(bytes)] *)
Definition write_in_payload {E} (self : t) (r : range) (b : bytes) : Res E t :=
  _ ← assert_ (negb (encrypted self));
  let '(a, e) := payload_range self in
  payload ← slice a e (serialized self);
  payload ← copy_from_slice r.1 r.2 b payload;
  Ok (self <| serialized := take a (serialized self) ++ payload ++ drop e (serialized self) |>).

Definition set_payload_type_in_header {E} (self : t) (pt : Z) : Res E t :=
  write_in_header (self <| payload_type_in_header := pt |>)
    (RTP_PAYLOAD_TYPE_OFFSET, S RTP_PAYLOAD_TYPE_OFFSET)
    [Z.lor (Z.shiftl (Z.b2z (marker self)) 7) pt].

Definition set_ssrc_in_header {E} (self : t) (ssrc : Z) : Res E t :=
  write_in_header (self <| ssrc_in_header := ssrc |>) RTP_SSRC_RANGE (be_bytes 4 ssrc).

Definition set_seqnum_in_header {E} (self : t) (seqnum : Z) : Res E t :=
  write_in_header (self <| seqnum_in_header := seqnum |>) RTP_SEQNUM_RANGE (be_bytes 2 (u16 seqnum)).

Definition set_timestamp_in_header {E} (self : t) (timestamp : Z) : Res E t :=
  write_in_header (self <| Packet.timestamp := timestamp |>) RTP_TIMESTAMP_RANGE
    (be_bytes 4 timestamp).

(** The closure [get_tcc_seqnum] has the state [S] of the sender it increments;
    it runs only when the packet has the extension. *)
Definition set_tcc_seqnum_in_header_if_present {E S} (self : t) (get_tcc_seqnum : S -> Z * S) (s : S)
    : Res E (t * S) :=
  match tcc_seqnum_range self with
  | Some r =>
      let '(tcc, s) := get_tcc_seqnum s in
      p ← write_in_header (self <| tcc_seqnum := Some tcc |>) r (be_bytes 2 (u16 tcc));
      Ok (p, s)
  | None => Ok (self, s)
  end.

Definition set_frame_number_in_header {E} (self : t) (frame_number : Z) : Res E t :=
  match dependency_descriptor self with
  | None => Ok self
  | Some (_, r) =>
      let frame_number_start := (r.1 + 1)%nat in
      write_in_header self (frame_number_start, (frame_number_start + 2)%nat)
        (be_bytes 2 (u16 frame_number))
  end.

Definition set_seqnum_in_payload {E} (self : t) (seqnum : Z) : Res E t :=
  p ← write_in_payload (self <| seqnum_in_payload := None |>) (0, 2)%nat (be_bytes 2 (u16 seqnum));
  Ok (p <| seqnum_in_payload := Some seqnum |>).

Definition rewrite {E} (self : t) (new_ssrc new_seqnum new_timestamp : Z) : Res E t :=
  outgoing ←
    (if is_rtx self then
       outgoing ← set_ssrc_in_header self (to_rtx_ssrc new_ssrc);
       set_seqnum_in_payload outgoing new_seqnum
     else
       outgoing ← set_ssrc_in_header self new_ssrc;
       set_seqnum_in_header outgoing new_seqnum);
  set_timestamp_in_header outgoing new_timestamp.

(** ** In-place encryption *)
Section Crypto.
Context `{Aead}.

(** The nonce, the associated data, the text and the tag of [prepare_for_crypto]. *)
Definition prepare_for_crypto (self : t) (salt : bytes) : Res unit (bytes * bytes * bytes * bytes) :=
  let '(a, e) := payload_range_in_header self in
  '(header, payload_plus_tag) ← unwrap (checked_split_at (serialized self) a);
  '(payload, tag) ← unwrap (checked_split_at payload_plus_tag (e - a));
  Ok (rtp_iv (ssrc_in_header self) (seqnum_in_header self) salt, header, payload, tag).

(** [GenericArray::from_slice(tag)] panics unless the tag has 16 bytes. *)
Definition decrypt_in_place (self : t) (key salt : bytes) : Res unit t :=
  _ ← assert_ (encrypted self);
  '(nonce, aad, ciphertext, tag) ← prepare_for_crypto self salt;
  _ ← assert_ (length tag =? SRTP_AUTH_TAG_LEN)%nat;
  plaintext ← ok_or tt (open key nonce aad ciphertext tag);
  Ok (self <| serialized := aad ++ plaintext ++ tag |> <| encrypted := false |>).

Definition encrypt_in_place (self : t) (key salt : bytes) : Res unit t :=
  _ ← assert_ (negb (encrypted self));
  '(nonce, aad, plaintext, tag) ← prepare_for_crypto self salt;
  '(ciphertext, computed_tag) ← ok_or tt (seal key nonce aad plaintext);
  _ ← assert_ (length tag =? length computed_tag)%nat;
  Ok (self <| serialized := aad ++ ciphertext ++ computed_tag |> <| encrypted := true |>).

End Crypto.

(** ** Writing new packets *)

(** [write_extension]: a one-byte header and the value. *)
Definition write_extension {E} (id : Z) (value : bytes) : Res E bytes :=
  _ ← assert_ (Z.land id 15 =? id);
  _ ← assert_ (0 <? length value)%nat;
  _ ← assert_ (length value <=? 16)%nat;
  let header := Z.lor (u8 (Z.shiftl id 4)) (u8 (Z.of_nat (length value)) - 1) in
  Ok (header :: value).

(** Returns the bytes, with an empty tag at the end, and the payload's range. *)
Definition write_serialized {E} (marker : bool) (pt seqnum timestamp ssrc : Z) (extensions : bytes)
    (extensions_profile : HeaderExtensionsProfile) (payload : bytes) : Res E (bytes * range) :=
  let has_padding := 0 in
  let extensions_len := length extensions in
  let has_extensions := negb (extensions_len =? 0)%nat in
  let csrc_count := 0 in
  let header :=
    to_vec
      ([Z.lor (Z.lor (Z.lor (Z.shiftl VERSION 6) (Z.shiftl has_padding 5))
                     (Z.shiftl (Z.b2z has_extensions) 4)) (Z.land csrc_count 15)],
       [Z.lor (Z.shiftl (Z.b2z marker) 7) (Z.land pt 127)],
       w16 (u16 seqnum), w32 timestamp, w32 ssrc) in
  extensions ←
    (if has_extensions then
       let profile :=
         match extensions_profile with
         | OneByte => RTP_ONE_BYTE_EXTENSIONS_PROFILE
         | TwoByte => RTP_TWO_BYTE_EXTENSIONS_PROFILE
         end in
       let padded_len := Math.round_up_to_multiple_of 4 extensions_len in
       let padding_len := (padded_len - extensions_len)%nat in
       extension_padding ← slice_to padding_len [0; 0; 0];
       _ ← assert_ (Z.of_nat padded_len / 4 <=? umax 16);
       Ok (to_vec (w16 profile, w16 (Z.of_nat padded_len / 4), extensions, extension_padding))
     else Ok []);
  let payload_start := (length header + length extensions)%nat in
  let payload_end := (payload_start + length payload)%nat in
  Ok (header ++ extensions ++ payload ++ replicate SRTP_AUTH_TAG_LEN 0, (payload_start, payload_end)).

Definition with_empty_tag {E} (pt seqnum timestamp ssrc : Z) (tcc_seqnum : option Z)
    (deadline_start : option Z) (payload : bytes) : Res E t :=
  extensions ←
    match tcc_seqnum with
    | Some tcc => write_extension RTP_EXT_ID_TCC_SEQNUM (be_bytes 2 (u16 tcc))
    | None => Ok []
    end;
  '(serialized, payload_range) ←
    write_serialized false pt seqnum timestamp ssrc extensions OneByte payload;
  Ok (mk false pt ssrc seqnum None false timestamp None None None tcc_seqnum
         (match tcc_seqnum with Some _ => Some (17, 19)%nat | None => None end)
         payload_range false
         (match deadline_start with Some d => Some (d + PACKET_LIFETIME) | None => None end)
         0 serialized).

(** The struct literal of [to_rtx]. *)
Definition rtx_packet (self : t) (rtx_seqnum : Z) (serialized : bytes) : t :=
  self <| payload_type_in_header := to_rtx_payload_type (payload_type_in_header self) |>
       <| ssrc_in_header := to_rtx_ssrc (ssrc_in_header self) |>
       <| seqnum_in_header := rtx_seqnum |>
       <| seqnum_in_payload := Some (seqnum_in_header self) |>
       <| payload_range_in_header :=
            ((payload_range_in_header self).1, ((payload_range_in_header self).2 + 2)%nat) |>
       <| Packet.serialized := serialized |>.

Definition to_rtx {E} (self : t) (rtx_seqnum : Z) : Res E t :=
  if is_rtx self then set_seqnum_in_header self rtx_seqnum
  else
    header ← header self;
    payload ← payload self;
    let serialized :=
      header ++ be_bytes 2 (u16 (seqnum_in_header self)) ++ payload
      ++ replicate SRTP_AUTH_TAG_LEN 0 in
    let rtx := rtx_packet self rtx_seqnum serialized in
    rtx ← set_payload_type_in_header rtx (payload_type_in_header rtx);
    rtx ← set_ssrc_in_header rtx (ssrc_in_header rtx);
    set_seqnum_in_header rtx (seqnum_in_header rtx).

End Packet.

(** * Theorems *)

Module SpliceFacts.

(** [l] with the bytes from position [a] on replaced by [b]. *)
Definition splice (a : nat) (b l : bytes) : bytes := take a l ++ b ++ drop (a + length b) l.

(** [n] bytes from position [a]. *)
Definition sub (a n : nat) (l : bytes) : bytes := take n (drop a l).

Lemma length_splice a b l : (a + length b <= length l)%nat -> length (splice a b l) = length l.
Proof. intros. unfold splice. rewrite !length_app, length_take, length_drop. lia. Qed.

Lemma sub_splice_eq a n b l :
  n = length b -> (a + length b <= length l)%nat -> sub a n (splice a b l) = b.
Proof.
  intros -> ?. unfold sub, splice. rewrite drop_app_length' by (rewrite length_take; lia).
  by rewrite take_app_length.
Qed.

Lemma lookup_splice_ne a b l i :
  (a + length b <= length l)%nat -> (i < a)%nat \/ (a + length b <= i)%nat ->
  splice a b l !! i = l !! i.
Proof.
  intros Hl Hi. unfold splice. destruct (Nat.lt_ge_cases i a).
  - rewrite lookup_app_l by (rewrite length_take; lia). by apply lookup_take_lt.
  - rewrite lookup_app_r by (rewrite length_take; lia). rewrite length_take.
    rewrite lookup_app_r by lia. rewrite lookup_drop. f_equal. lia.
Qed.

Lemma lookup_sub a n l i : sub a n l !! i = if (i <? n)%nat then l !! (a + i)%nat else None.
Proof.
  unfold sub. destruct (Nat.ltb_spec i n).
  - rewrite lookup_take_lt by done. apply lookup_drop.
  - by apply lookup_take_ge.
Qed.

Lemma sub_splice_ne a b l c n :
  (a + length b <= length l)%nat -> (c + n <= a)%nat \/ (a + length b <= c)%nat ->
  sub c n (splice a b l) = sub c n l.
Proof.
  intros Hl Hc. apply list_eq; intros i. rewrite !lookup_sub.
  destruct (Nat.ltb_spec i n); [|done]. apply lookup_splice_ne; lia.
Qed.

Lemma splice_bytes_ok a b l : bytes_ok b -> bytes_ok l -> bytes_ok (splice a b l).
Proof.
  intros Hb Hl. apply Forall_app; split; [by apply Forall_take|].
  apply Forall_app; split; [done|by apply Forall_drop].
Qed.

(** A splice inside a prefix. *)
Lemma splice_prefix a b l m :
  (a + length b <= m)%nat -> (m <= length l)%nat ->
  splice a b (take m l) ++ drop m l = splice a b l.
Proof.
  intros Ha Hm. unfold splice. rewrite take_take, Nat.min_l by lia. rewrite <- !app_assoc. do 2 f_equal.
  rewrite <- (take_drop m l) at 3. rewrite drop_app_le by (rewrite length_take; lia). done.
Qed.

(** A splice at the front of a middle part. *)
Lemma splice_middle a e b l :
  (a + length b <= e)%nat -> (e <= length l)%nat ->
  take a l ++ (b ++ drop (length b) (take (e - a) (drop a l))) ++ drop e l = splice a b l.
Proof.
  intros Ha He. unfold splice. rewrite <- app_assoc. do 2 f_equal.
  rewrite <- drop_drop. rewrite <- (take_drop (e - a) (drop a l)) at 2.
  rewrite drop_app_le by (rewrite length_take, length_drop; lia).
  rewrite drop_drop. do 2 f_equal. lia.
Qed.

Arguments splice : simpl never.
Arguments sub : simpl never.

End SpliceFacts.
Import SpliceFacts.

Module PacketFacts.
Import Packet.

(** The ranges of a packet point into its bytes, and the header it owns reaches
    at least over the fixed fields. *)
Record wf (p : t) : Prop := {
  wf_start : (12 <= (payload_range_in_header p).1)%nat;
  wf_end : ((payload_range p).1 <= (payload_range p).2)%nat;
  wf_tag : length (serialized p) = ((payload_range p).2 + SRTP_AUTH_TAG_LEN)%nat;
  wf_bytes : bytes_ok (serialized p);
  wf_tcc : forall a b, tcc_seqnum_range p = Some (a, b) ->
    (16 <= a)%nat /\ b = (a + 2)%nat /\ (b <= (payload_range_in_header p).1)%nat;
  wf_dd : forall d a b, dependency_descriptor p = Some (d, (a, b)) ->
    (16 <= a)%nat /\ (a + 3 <= b)%nat /\ (b <= (payload_range_in_header p).1)%nat
}.

Lemma payload_range_2 p : (payload_range p).2 = (payload_range_in_header p).2.
Proof. unfold payload_range. by destruct (is_rtx p). Qed.

Lemma payload_range_1 p :
  (payload_range p).1 = ((payload_range_in_header p).1 + (if is_rtx p then 2 else 0))%nat.
Proof. unfold payload_range. destruct (is_rtx p); simpl; lia. Qed.

(** A packet made from a parsed header is well formed. *)
Lemma new_packet_wf packet h sh pr tcc enc dl pad :
  bytes_ok packet -> HeaderFacts.header_ok packet h ->
  wf (new h sh None pr tcc enc dl pad packet).
Proof. intros Hb []. unfold Header.RTP_MIN_HEADER_LEN in *. split; cbn; auto; lia. Qed.

(** Writing in the header is a splice of the serialized bytes. *)
Lemma write_in_header_splice {E} p a e b :
  wf p -> encrypted p = false -> e = (a + length b)%nat -> (e <= (payload_range p).1)%nat ->
  write_in_header (E:=E) p (a, e) b = Ok (p <| serialized := splice a b (serialized p) |>).
Proof.
  intros [] Henc -> He. unfold write_in_header. rewrite Henc. cbn [negb assert_ mbind Res_bind fst snd].
  rewrite slice_to_ok by lia. cbn [mbind Res_bind].
  rewrite copy_from_slice_ok by (rewrite ?length_take; lia). cbn [mbind Res_bind].
  do 2 f_equal. rewrite <- (splice_prefix a b _ (payload_range p).1) by lia. done.
Qed.

Lemma write_in_payload_splice {E} p b :
  wf p -> encrypted p = false -> ((payload_range p).1 + length b <= (payload_range p).2)%nat ->
  write_in_payload (E:=E) p (0, length b)%nat b =
    Ok (p <| serialized := splice (payload_range p).1 b (serialized p) |>).
Proof.
  intros [] Henc Hb. unfold write_in_payload. rewrite Henc. cbn [negb assert_ mbind Res_bind].
  destruct (payload_range p) as [a e]. simpl in *.
  rewrite slice_no_panic by lia. cbn [mbind Res_bind].
  rewrite copy_from_slice_ok by (rewrite ?length_take, ?length_drop; lia). cbn [mbind Res_bind].
  rewrite take_0. cbn [app]. rewrite splice_middle by lia. done.
Qed.

(** The fields [write_in_header] leaves alone, and well-formedness. *)
Lemma splice_wf p a b :
  wf p -> bytes_ok b -> (a + length b <= length (serialized p))%nat ->
  wf (p <| serialized := splice a b (serialized p) |>).
Proof.
  intros [] Hb Hl. split; simpl; auto.
  - by rewrite length_splice.
  - by apply splice_bytes_ok.
Qed.

(** What the setters do to the header's sequence number. *)
Lemma write_in_header_seqnum {E} p x b r :
  write_in_header (E:=E) p x b = Ok r -> seqnum_in_header r = seqnum_in_header p.
Proof.
  unfold write_in_header. destruct (assert_ _); [|done|done]. rewrite mbind_Ok.
  destruct (slice_to _ _); [|done|done]. rewrite mbind_Ok.
  destruct (copy_from_slice _ _ _ _); [|done|done]. rewrite mbind_Ok. by intros [= <-].
Qed.

Lemma set_payload_type_seqnum {E} p v r :
  set_payload_type_in_header (E:=E) p v = Ok r -> seqnum_in_header r = seqnum_in_header p.
Proof. intros H. apply write_in_header_seqnum in H. exact H. Qed.

Lemma set_ssrc_seqnum {E} p v r :
  set_ssrc_in_header (E:=E) p v = Ok r -> seqnum_in_header r = seqnum_in_header p.
Proof. intros H. apply write_in_header_seqnum in H. exact H. Qed.

Lemma set_seqnum_seqnum {E} p v r :
  set_seqnum_in_header (E:=E) p v = Ok r -> seqnum_in_header r = v.
Proof. intros H. apply write_in_header_seqnum in H. exact H. Qed.

Lemma set_tcc_seqnum {E S} p (get : S -> Z * S) s r s' :
  set_tcc_seqnum_in_header_if_present (E:=E) p get s = Ok (r, s') ->
  seqnum_in_header r = seqnum_in_header p.
Proof.
  unfold set_tcc_seqnum_in_header_if_present.
  destruct (tcc_seqnum_range p); [|by intros [= <- <-]]. destruct (get s) as [tcc s1].
  intros H. apply bind_Ok in H as (r' & H & E'). injection E' as <- <-.
  by apply write_in_header_seqnum in H.
Qed.

Lemma to_rtx_seqnum p q r : to_rtx (E:=unit) p q = Ok r -> seqnum_in_header r = q.
Proof.
  unfold to_rtx. destruct (is_rtx p); [apply set_seqnum_seqnum|].
  intros H. apply bind_Ok in H as (h & _ & H). apply bind_Ok in H as (pl & _ & H). cbv zeta in H.
  apply bind_Ok in H as (p1 & H1 & H). apply bind_Ok in H as (p2 & H2 & H).
  apply set_seqnum_seqnum in H. apply set_ssrc_seqnum in H2. apply set_payload_type_seqnum in H1.
  rewrite H, H2, H1. reflexivity.
Qed.

Ltac field_wf := intros []; split; simpl in *; auto.

Lemma set_ssrc_field_wf p v : wf p -> wf (p <| ssrc_in_header := v |>).
Proof. field_wf. Qed.
Lemma set_seqnum_field_wf p v : wf p -> wf (p <| seqnum_in_header := v |>).
Proof. field_wf. Qed.
Lemma set_pt_field_wf p v : wf p -> wf (p <| payload_type_in_header := v |>).
Proof. field_wf. Qed.
Lemma set_timestamp_field_wf p v : wf p -> wf (p <| timestamp := v |>).
Proof. field_wf. Qed.
Lemma set_tcc_field_wf p v : wf p -> wf (p <| tcc_seqnum := v |>).
Proof. field_wf. Qed.

#[local] Hint Resolve splice_wf set_ssrc_field_wf set_seqnum_field_wf set_pt_field_wf
  set_timestamp_field_wf set_tcc_field_wf : signal.

(** The fixed header fields are below the payload. *)
Lemma wf_fixed p : wf p -> (12 <= (payload_range p).1)%nat.
Proof. intros []. rewrite payload_range_1. lia. Qed.

Lemma wf_length p : wf p -> (28 <= length (serialized p))%nat.
Proof. intros H. pose proof (wf_fixed p H). destruct H. unfold SRTP_AUTH_TAG_LEN in *. lia. Qed.

(** The three fixed-field setters, as splices. *)
Lemma set_ssrc_ok {E} p v : wf p -> encrypted p = false ->
  set_ssrc_in_header (E:=E) p v =
    Ok (p <| ssrc_in_header := v |> <| serialized := splice 8 (be_bytes 4 v) (serialized p) |>).
Proof.
  intros Hw He. unfold set_ssrc_in_header, Header.RTP_SSRC_RANGE. pose proof (wf_fixed p Hw).
  by rewrite write_in_header_splice by (auto with signal; rewrite ?length_be_bytes; first [done | lia | apply (Nat.le_trans _ 12); [lia | done]]).
Qed.

Lemma set_seqnum_ok {E} p v : wf p -> encrypted p = false ->
  set_seqnum_in_header (E:=E) p v =
    Ok (p <| seqnum_in_header := v |>
          <| serialized := splice 2 (be_bytes 2 (u16 v)) (serialized p) |>).
Proof.
  intros Hw He. unfold set_seqnum_in_header, Header.RTP_SEQNUM_RANGE. pose proof (wf_fixed p Hw).
  by rewrite write_in_header_splice by (auto with signal; rewrite ?length_be_bytes; first [done | lia | apply (Nat.le_trans _ 12); [lia | done]]).
Qed.

Lemma set_timestamp_ok {E} p v : wf p -> encrypted p = false ->
  set_timestamp_in_header (E:=E) p v =
    Ok (p <| timestamp := v |> <| serialized := splice 4 (be_bytes 4 v) (serialized p) |>).
Proof.
  intros Hw He. unfold set_timestamp_in_header, Header.RTP_TIMESTAMP_RANGE. pose proof (wf_fixed p Hw).
  by rewrite write_in_header_splice by (auto with signal; rewrite ?length_be_bytes; first [done | lia | apply (Nat.le_trans _ 12); [lia | done]]).
Qed.

Lemma set_seqnum_in_payload_ok {E} p v : wf p -> encrypted p = false -> is_rtx p = true ->
  set_seqnum_in_payload (E:=E) p v =
    Ok (p <| seqnum_in_payload := Some v |>
          <| serialized := splice (payload_range_in_header p).1 (be_bytes 2 (u16 v)) (serialized p) |>).
Proof.
  intros Hw He Hr. unfold set_seqnum_in_payload.
  pose proof (write_in_payload_splice (E:=E) (p <| seqnum_in_payload := None |>) (be_bytes 2 (u16 v))) as H.
  rewrite length_be_bytes in H. rewrite H; clear H; [done| |done|].
  - destruct Hw. rewrite payload_range_1, payload_range_2, Hr in *. split; cbn; auto; lia.
  - pose proof (wf_end p Hw) as Hle. rewrite payload_range_1, payload_range_2, Hr in Hle. exact Hle.
Qed.

Lemma payload_sub {E} p : wf p ->
  payload (E:=E) p =
    Ok (sub (payload_range p).1 ((payload_range p).2 - (payload_range p).1) (serialized p)).
Proof. intros []. unfold payload. by rewrite slice_no_panic by (unfold SRTP_AUTH_TAG_LEN in *; lia). Qed.

Lemma from_to_rtx_ssrc s : uint 32 s -> from_rtx_ssrc (to_rtx_ssrc s) = s.
Proof. unfold from_rtx_ssrc, to_rtx_ssrc, RTX_SSRC_OFFSET, u32, wrap, uint. intros. dlia. Qed.

Lemma from_to_rtx_payload_type pt : uint 8 pt -> from_rtx_payload_type (to_rtx_payload_type pt) = pt.
Proof. unfold from_rtx_payload_type, to_rtx_payload_type, RTX_PAYLOAD_TYPE_OFFSET, u8, wrap, uint. intros. dlia. Qed.

Lemma set_sip_wf p v w : wf p -> seqnum_in_payload p = Some v -> wf (p <| seqnum_in_payload := Some w |>).
Proof.
  intros [] Hv. split; cbn; auto.
  - unfold payload_range, is_rtx in *. rewrite Hv in *. done.
  - unfold payload_range, is_rtx in *. rewrite Hv in *. done.
Qed.

Ltac bounds := repeat (rewrite ?length_splice; rewrite ?length_be_bytes); try lia.

Ltac wf_splice_goals :=
  lazymatch goal with
  | |- wf (set_field (fun _ => splice ?a ?b _) ?q) =>
      apply (splice_wf q a b); [eauto using set_sip_wf with signal | |]
  end.
Ltac wf_splice := wf_splice_goals; [apply be_bytes_ok | cbn; bounds].

(** What forwarding a packet changes on the wire, and nothing else. *)
Record rewritten (p p' : t) (new_ssrc new_seqnum new_timestamp : Z) : Prop := {
  rw_wf : wf p';
  rw_ssrc : uint 32 new_ssrc -> ssrc p' = new_ssrc;
  rw_seqnum : seqnum p' = new_seqnum;
  rw_timestamp : timestamp p' = new_timestamp;
  rw_payload_type : payload_type p' = payload_type p;
  rw_rtx : is_rtx p' = is_rtx p;
  rw_payload : payload (E:=unit) p' = payload p;
  rw_wire_ssrc : sub 8 4 (serialized p') =
    be_bytes 4 (if is_rtx p then to_rtx_ssrc new_ssrc else new_ssrc);
  rw_wire_timestamp : sub 4 4 (serialized p') = be_bytes 4 new_timestamp;
  rw_wire_seqnum :
    sub (if is_rtx p then (payload_range_in_header p).1 else 2%nat) 2 (serialized p') =
      be_bytes 2 (u16 new_seqnum);
  rw_length : length (serialized p') = length (serialized p);
  rw_range : payload_range_in_header p' = payload_range_in_header p;
  rw_encrypted : encrypted p' = encrypted p;
  rw_descriptor : dependency_descriptor p' = dependency_descriptor p;
  rw_other : forall i,
    ~ (4 <= i < 12)%nat ->
    ~ ((if is_rtx p then (payload_range_in_header p).1 else 2) <= i
       < (if is_rtx p then (payload_range_in_header p).1 else 2) + 2)%nat ->
    serialized p' !! i = serialized p !! i
}.

Lemma rewrite_rewritten {E} p new_ssrc new_seqnum new_timestamp :
  wf p -> encrypted p = false ->
  exists p', rewrite (E:=E) p new_ssrc new_seqnum new_timestamp = Ok p' /\
    rewritten p p' new_ssrc new_seqnum new_timestamp.
Proof.
  intros Hw He. pose proof (wf_fixed p Hw) as Hf. pose proof (wf_length p Hw) as Hl.
  pose proof (wf_start p Hw) as H12. pose proof (wf_end p Hw) as Hle. pose proof (wf_tag p Hw) as Htag.
  unfold SRTP_AUTH_TAG_LEN in Htag. unfold rewrite. destruct (is_rtx p) eqn:Hr.
  - rewrite set_ssrc_ok by done. cbn [mbind Res_bind].
    assert (wf (p <| ssrc_in_header := to_rtx_ssrc new_ssrc |>
      <| serialized := splice 8 (be_bytes 4 (to_rtx_ssrc new_ssrc)) (serialized p) |>)) as Hw1.
    { wf_splice. }
    rewrite set_seqnum_in_payload_ok by done. cbn [mbind Res_bind].
    rewrite payload_range_1, payload_range_2, Hr in *.
    destruct (seqnum_in_payload p) as [v|] eqn:Hv; [|unfold is_rtx in Hr; by rewrite Hv in Hr].
    match goal with |- context [set_timestamp_in_header ?q _] => assert (wf q) as Hw2 end.
    { wf_splice. }
    rewrite set_timestamp_ok by done. eexists. split; [done|].
    match goal with |- rewritten _ ?q _ _ _ => assert (wf q) as Hw3 end.
    { wf_splice. }
    split; [done|..].
    + apply (from_to_rtx_ssrc new_ssrc).
    + done.
    + done.
    + unfold payload_type. by rewrite Hr.
    + by rewrite Hr.
    + rewrite !payload_sub by done. rewrite !payload_range_1, !payload_range_2, Hr. cbn.
      rewrite !sub_splice_ne by bounds. done.
    + rewrite Hr. cbn. rewrite !sub_splice_ne by bounds. by rewrite sub_splice_eq by bounds.
    + cbn. by rewrite sub_splice_eq by bounds.
    + rewrite Hr. cbn. rewrite sub_splice_ne by bounds. by rewrite sub_splice_eq by bounds.
    + cbn. by bounds.
    + done.
    + done.
    + done.
    + intros i Hi Hj. rewrite Hr in Hj. cbn. by rewrite !lookup_splice_ne by bounds.
  - rewrite set_ssrc_ok by done. cbn [mbind Res_bind].
    match goal with |- context [set_seqnum_in_header ?q _] => assert (wf q) as Hw1 end.
    { wf_splice. }
    rewrite set_seqnum_ok by done. cbn [mbind Res_bind].
    match goal with |- context [set_timestamp_in_header ?q _] => assert (wf q) as Hw2 end.
    { wf_splice. }
    rewrite set_timestamp_ok by done. eexists. split; [done|].
    match goal with |- rewritten _ ?q _ _ _ => assert (wf q) as Hw3 end.
    { wf_splice. }
    rewrite payload_range_1, payload_range_2, Hr in *.
    assert (seqnum_in_payload p = None) as Hn
      by (unfold is_rtx in Hr; by destruct (seqnum_in_payload p)).
    split; [done|..].
    + unfold ssrc, is_rtx. cbn. by rewrite Hn.
    + unfold seqnum. cbn. by rewrite Hn.
    + done.
    + unfold payload_type, is_rtx. cbn. by rewrite Hn.
    + unfold is_rtx. cbn. by rewrite Hn.
    + rewrite !payload_sub by done. rewrite !payload_range_1, !payload_range_2.
      unfold is_rtx. cbn. rewrite Hn.
      rewrite !sub_splice_ne by bounds. done.
    + rewrite Hr. cbn. rewrite !sub_splice_ne by bounds. by rewrite sub_splice_eq by bounds.
    + cbn. by rewrite sub_splice_eq by bounds.
    + rewrite Hr. cbn. rewrite sub_splice_ne by bounds. by rewrite sub_splice_eq by bounds.
    + cbn. by bounds.
    + done.
    + done.
    + done.
    + intros i Hi Hj. rewrite Hr in Hj. cbn. by rewrite !lookup_splice_ne by bounds.
Qed.

(** The bytes of a retransmission before its header fields are rewritten. *)
Definition rtx_bytes (p : t) : bytes :=
  take (payload_range_in_header p).1 (serialized p) ++ be_bytes 2 (u16 (seqnum_in_header p))
  ++ sub (payload_range_in_header p).1
       ((payload_range_in_header p).2 - (payload_range_in_header p).1) (serialized p)
  ++ replicate SRTP_AUTH_TAG_LEN 0.

Definition rtx_base (p : t) (rtx_seqnum : Z) : t := rtx_packet p rtx_seqnum (rtx_bytes p).

Lemma length_sub a n (l : bytes) : (a + n <= length l)%nat -> length (sub a n l) = n.
Proof. intros. unfold sub. rewrite length_take, length_drop. lia. Qed.

Lemma rtx_base_wf p q : wf p -> is_rtx p = false -> wf (rtx_base p q).
Proof.
  intros [] Hr. unfold SRTP_AUTH_TAG_LEN in *. rewrite payload_range_1, payload_range_2, Hr in *.
  split; cbn; auto; try lia.
  - unfold rtx_bytes, SRTP_AUTH_TAG_LEN. rewrite !length_app, length_take, length_be_bytes, length_replicate.
    rewrite length_sub by lia. lia.
  - unfold rtx_bytes, bytes_ok. rewrite !Forall_app. split_and!.
    + by apply Forall_take.
    + apply be_bytes_ok.
    + by apply Forall_take, Forall_drop.
    + by apply Forall_replicate.
Qed.

Lemma sub_rtx_bytes_payload p :
  wf p -> is_rtx p = false ->
  sub ((payload_range_in_header p).1 + 2)
    ((payload_range_in_header p).2 - (payload_range_in_header p).1) (rtx_bytes p) =
  sub (payload_range_in_header p).1
    ((payload_range_in_header p).2 - (payload_range_in_header p).1) (serialized p).
Proof.
  intros [] Hr. rewrite payload_range_1, payload_range_2, Hr in *.
  unfold SRTP_AUTH_TAG_LEN in *. unfold rtx_bytes, sub at 1.
  rewrite app_assoc, drop_app_length' by (rewrite length_app, length_take, length_be_bytes; lia).
  rewrite take_app_length' by (rewrite length_sub; lia). done.
Qed.

Lemma sub_rtx_bytes_seqnum p :
  wf p -> is_rtx p = false ->
  sub (payload_range_in_header p).1 2 (rtx_bytes p) = be_bytes 2 (u16 (seqnum_in_header p)).
Proof.
  intros [] Hr. rewrite payload_range_1, payload_range_2, Hr in *.
  unfold SRTP_AUTH_TAG_LEN in *. unfold rtx_bytes, sub at 1.
  rewrite drop_app_length' by (rewrite length_take; lia). by rewrite take_app_length' by (by rewrite length_be_bytes).
Qed.

(** A retransmission carries the original packet: the logical view is the
    original's, the header has the RTX payload type, SSRC and sequence number,
    and the original sequence number leads the payload. *)
Record retransmits (p r : t) (rtx_seqnum : Z) : Prop := {
  rt_wf : wf r;
  rt_is_rtx : is_rtx r = true;
  rt_payload_type : payload_type r = payload_type p;
  rt_ssrc : ssrc r = ssrc p;
  rt_seqnum : seqnum r = seqnum p;
  rt_payload : payload (E:=unit) r = payload p;
  rt_timestamp : timestamp r = timestamp p;
  rt_wire_payload_type : serialized r !! 1%nat =
    Some (Z.lor (Z.shiftl (Z.b2z (marker p)) 7) (to_rtx_payload_type (payload_type_in_header p)));
  rt_wire_seqnum : sub 2 2 (serialized r) = be_bytes 2 (u16 rtx_seqnum);
  rt_wire_ssrc : sub 8 4 (serialized r) = be_bytes 4 (to_rtx_ssrc (ssrc_in_header p));
  rt_wire_original : sub (payload_range_in_header r).1 2 (serialized r) = be_bytes 2 (u16 (seqnum p))
}.

Lemma set_payload_type_ok {E} p v : wf p -> encrypted p = false ->
  set_payload_type_in_header (E:=E) p v =
    Ok (p <| payload_type_in_header := v |>
          <| serialized := splice 1 [Z.lor (Z.shiftl (Z.b2z (marker p)) 7) v] (serialized p) |>).
Proof.
  intros Hw He. unfold set_payload_type_in_header, Header.RTP_PAYLOAD_TYPE_OFFSET.
  pose proof (wf_fixed p Hw).
  by rewrite write_in_header_splice
    by (auto with signal; first [done | lia | apply (Nat.le_trans _ 12); [lia | done]]).
Qed.

Lemma marker_byte_ok m v : uint 8 v -> byte_ok (Z.lor (Z.shiftl (Z.b2z m) 7) v).
Proof.
  intros Hv. apply (uint_lor 8); [lia| |done]. destruct m; split; vm_compute; congruence.
Qed.

Lemma serialized_wf p l :
  wf p -> bytes_ok l -> length l = length (serialized p) -> wf (p <| serialized := l |>).
Proof. intros [] Hl El. split; cbn; auto. by rewrite El. Qed.

(** Writing the header fields a packet already has changes only its bytes. *)
Definition header_bytes_of (r : t) : bytes :=
  splice 2 (be_bytes 2 (u16 (seqnum_in_header r)))
    (splice 8 (be_bytes 4 (ssrc_in_header r))
      (splice 1 [Z.lor (Z.shiftl (Z.b2z (marker r)) 7) (payload_type_in_header r)] (serialized r))).

Lemma write_own_header {E} r :
  wf r -> encrypted r = false -> uint 8 (payload_type_in_header r) ->
  (rtx ← set_payload_type_in_header r (payload_type_in_header r);
   rtx ← set_ssrc_in_header rtx (ssrc_in_header rtx);
   set_seqnum_in_header (E:=E) rtx (seqnum_in_header rtx)) =
    Ok (r <| serialized := header_bytes_of r |>) /\ wf (r <| serialized := header_bytes_of r |>).
Proof.
  intros Hw He Hpt. pose proof (wf_length r Hw) as Hl.
  rewrite set_payload_type_ok by done. cbn [mbind Res_bind].
  set (p1 := r <| payload_type_in_header := payload_type_in_header r |> <| serialized := _ |>).
  assert (p1 = r <| serialized := splice 1 [Z.lor (Z.shiftl (Z.b2z (marker r)) 7)
    (payload_type_in_header r)] (serialized r) |>) as Ep1 by (by destruct r).
  clearbody p1. subst p1.
  set (s1 := splice 1 _ _) in *.
  assert (length s1 = length (serialized r)) as Hl1 by (subst s1; rewrite length_splice; cbn; lia).
  assert (bytes_ok s1) as Hb1.
  { apply splice_bytes_ok; [|apply Hw]. constructor; [|constructor]. by apply marker_byte_ok. }
  pose proof (serialized_wf r s1 Hw Hb1 Hl1) as Hw1.
  rewrite set_ssrc_ok by done. cbn [mbind Res_bind].
  match goal with |- context [set_seqnum_in_header ?q _] => set (p2 := q) end.
  assert (p2 = r <| serialized := splice 8 (be_bytes 4 (ssrc_in_header r)) s1 |>) as Ep2
    by (by destruct r).
  clearbody p2. subst p2. set (s2 := splice 8 _ _) in *.
  assert (length s2 = length (serialized r)) as Hl2
    by (subst s2; rewrite length_splice; rewrite ?length_be_bytes; lia).
  assert (bytes_ok s2) as Hb2 by (apply splice_bytes_ok; [apply be_bytes_ok|done]).
  pose proof (serialized_wf r s2 Hw Hb2 Hl2) as Hw2.
  rewrite set_seqnum_ok by done.
  assert (header_bytes_of r = splice 2 (be_bytes 2 (u16 (seqnum_in_header r))) s2) as Eh by done.
  rewrite Eh. split; [by destruct r|].
  apply serialized_wf; [done|apply splice_bytes_ok; [apply be_bytes_ok|done]|].
  rewrite length_splice; rewrite ?length_be_bytes; lia.
Qed.

Lemma sub_header_bytes_of r a n :
  (12 <= length (serialized r))%nat -> (12 <= a)%nat ->
  sub a n (header_bytes_of r) = sub a n (serialized r).
Proof. intros Hl Ha. unfold header_bytes_of. by rewrite !sub_splice_ne by (bounds; cbn; lia). Qed.

Lemma header_bytes_of_fields r :
  (12 <= length (serialized r))%nat ->
  header_bytes_of r !! 1%nat =
    Some (Z.lor (Z.shiftl (Z.b2z (marker r)) 7) (payload_type_in_header r)) /\
  sub 2 2 (header_bytes_of r) = be_bytes 2 (u16 (seqnum_in_header r)) /\
  sub 8 4 (header_bytes_of r) = be_bytes 4 (ssrc_in_header r).
Proof.
  intros Hl. unfold header_bytes_of. split_and!.
  - rewrite !lookup_splice_ne by (bounds; cbn; lia).
    unfold splice. rewrite lookup_app_r by (rewrite length_take; lia).
    rewrite length_take, Nat.min_l by lia. done.
  - by rewrite sub_splice_eq by (bounds; cbn; lia).
  - rewrite sub_splice_ne by (bounds; cbn; lia). by rewrite sub_splice_eq by (bounds; cbn; lia).
Qed.

(** [to_rtx] of a packet that is not a retransmission. *)
Lemma to_rtx_ok p q :
  wf p -> encrypted p = false -> is_rtx p = false ->
  to_rtx (E:=unit) p q =
    Ok (rtx_base p q <| serialized := header_bytes_of (rtx_base p q) |>) /\
  wf (rtx_base p q <| serialized := header_bytes_of (rtx_base p q) |>).
Proof.
  intros Hw He Hr. pose proof (rtx_base_wf p q Hw Hr) as Hb.
  destruct (write_own_header (E:=unit) (rtx_base p q) Hb He) as [E Hw'].
  { apply wrap_uint. lia. }
  split; [|done]. rewrite <- E. unfold to_rtx. rewrite Hr. unfold header.
  assert (slice_to (E:=unit) (payload_range p).1 (serialized p) =
    Ok (take (payload_range_in_header p).1 (serialized p))) as ->.
  { pose proof (wf_end p Hw). pose proof (wf_tag p Hw). rewrite slice_to_ok by lia.
    by rewrite payload_range_1, Hr, Nat.add_0_r. }
  rewrite mbind_Ok, payload_sub, mbind_Ok by done.
  rewrite payload_range_1, payload_range_2, Hr, Nat.add_0_r. unfold rtx_base, rtx_bytes. reflexivity.
Qed.

Lemma to_rtx_retransmits p q :
  wf p -> encrypted p = false -> is_rtx p = false ->
  uint 8 (payload_type_in_header p) -> uint 32 (ssrc_in_header p) ->
  exists r, to_rtx (E:=unit) p q = Ok r /\ retransmits p r q.
Proof.
  intros Hw He Hr Hpt Hss. destruct (to_rtx_ok p q Hw He Hr) as [E Hw'].
  eexists. split; [exact E|]. clear E.
  assert (seqnum_in_payload p = None) as Hn by (unfold is_rtx in Hr; by destruct (seqnum_in_payload p)).
  pose proof (wf_start p Hw) as H12. pose proof (wf_length _ (rtx_base_wf p q Hw Hr)) as Hl.
  destruct (header_bytes_of_fields (rtx_base p q)) as (Hf1 & Hf2 & Hf3); [lia|].
  pose proof (sub_header_bytes_of (rtx_base p q)) as Hsub.
  set (hb := header_bytes_of (rtx_base p q)) in *. clearbody hb.
  split; [done|done|..].
  - unfold payload_type at 1. cbn. rewrite from_to_rtx_payload_type by done.
    unfold payload_type. by rewrite Hr.
  - unfold ssrc at 1. cbn. rewrite from_to_rtx_ssrc by done. unfold ssrc. by rewrite Hr.
  - unfold seqnum. cbn. by rewrite Hn.
  - rewrite !payload_sub by done. rewrite (payload_range_1 p), (payload_range_2 p), Hr, Nat.add_0_r.
    rewrite <- sub_rtx_bytes_payload by done. cbn. rewrite Hsub by lia. do 2 f_equal. cbn. lia.
  - done.
  - exact Hf1.
  - exact Hf2.
  - exact Hf3.
  - cbn. rewrite Hsub by lia. cbn. rewrite sub_rtx_bytes_seqnum by done. unfold seqnum. by rewrite Hn.
Qed.

(** ** Encryption in place *)
Section Crypto.
Context `{AeadLaws}.

(** The header, payload and tag parts of an unencrypted packet that is not a
    retransmission in transit, or of any packet seen by the cipher. *)
Definition cipher_parts (p : t) : Prop :=
  let '(a, e) := payload_range_in_header p in
  (a <= e)%nat /\ length (serialized p) = (e + SRTP_AUTH_TAG_LEN)%nat.

Lemma wf_cipher_parts p : wf p -> cipher_parts p.
Proof.
  intros []. unfold cipher_parts. rewrite payload_range_1, payload_range_2 in *.
  destruct (payload_range_in_header p). simpl in *. split; [lia|done].
Qed.

Lemma prepare_ok p salt : cipher_parts p ->
  prepare_for_crypto p salt =
    Ok (rtp_iv (ssrc_in_header p) (seqnum_in_header p) salt,
        take (payload_range_in_header p).1 (serialized p),
        sub (payload_range_in_header p).1
          ((payload_range_in_header p).2 - (payload_range_in_header p).1) (serialized p),
        drop (payload_range_in_header p).2 (serialized p)).
Proof.
  unfold cipher_parts, prepare_for_crypto. destruct (payload_range_in_header p) as [a e].
  intros [Hae Hl]. cbn [fst snd].
  rewrite (proj2 (ReadFacts.checked_split_at_Some (serialized p) a _ _)) by (split_and!; done || lia).
  cbn [unwrap]. rewrite mbind_Ok.
  rewrite (proj2 (ReadFacts.checked_split_at_Some (drop a (serialized p)) (e - a) _ _))
    by (split_and!; [rewrite length_drop; lia|done|done]).
  cbn [unwrap]. rewrite mbind_Ok, drop_drop. do 3 f_equal. lia.
Qed.

(** What was encrypted decrypts to the same header and payload. *)
Lemma decrypt_encrypt p key salt c :
  cipher_parts p -> encrypted p = false -> encrypt_in_place p key salt = Ok c ->
  encrypted c = true /\ cipher_parts c /\
  exists tag, length tag = SRTP_AUTH_TAG_LEN /\
    decrypt_in_place c key salt =
      Ok (p <| serialized := take (payload_range_in_header p).2 (serialized p) ++ tag |>).
Proof.
  intros Hp He Ec. unfold encrypt_in_place in Ec. rewrite He in Ec. cbn [negb assert_] in Ec.
  rewrite mbind_Ok, prepare_ok, mbind_Ok in Ec by done.
  unfold cipher_parts in Hp. destruct (payload_range_in_header p) as [a e] eqn:Er. cbn [fst snd] in *.
  destruct Hp as [Hae Hl].
  destruct (seal _ _ _ _) as [[ct tag]|] eqn:Es; [|done]. cbn [ok_or] in Ec. rewrite mbind_Ok in Ec.
  destruct (length (drop e (serialized p)) =? length tag)%nat; [|done].
  cbn [assert_] in Ec. rewrite mbind_Ok in Ec. injection Ec as <-.
  pose proof (seal_length _ _ _ _ _ _ Es) as [Hct Htag].
  rewrite length_sub in Hct by lia.
  assert (cipher_parts (p <| serialized := take a (serialized p) ++ ct ++ tag |> <| encrypted := true |>)) as Hc.
  { unfold cipher_parts. cbn. rewrite Er. rewrite !length_app, length_take. split; [done|].
    unfold SRTP_AUTH_TAG_LEN in *. lia. }
  split; [done|]. split; [done|]. exists tag. split; [done|].
  unfold decrypt_in_place. cbn [assert_]. change (encrypted (_ <| encrypted := true |>)) with true.
  cbn [assert_]. rewrite mbind_Ok, prepare_ok by done.
  cbn [payload_range_in_header serialized ssrc_in_header seqnum_in_header set_field].
  rewrite Er. cbn [fst snd]. rewrite mbind_Ok.
  assert (take a (take a (serialized p) ++ ct ++ tag) = take a (serialized p)) as ->
    by (rewrite take_app_length'; rewrite ?length_take; lia || done).
  assert (sub a (e - a) (take a (serialized p) ++ ct ++ tag) = ct) as ->.
  { unfold sub. rewrite drop_app_length' by (rewrite length_take; lia). by rewrite take_app_length'. }
  assert (drop e (take a (serialized p) ++ ct ++ tag) = tag) as ->.
  { rewrite app_assoc. apply drop_app_length'. rewrite length_app, length_take. lia. }
  rewrite Htag. cbn [Nat.eqb SRTP_AUTH_TAG_LEN assert_]. rewrite mbind_Ok.
  rewrite (open_seal _ _ _ _ _ _ Es). cbn [ok_or]. rewrite mbind_Ok.
  unfold sub. rewrite app_assoc. rewrite take_drop_commute.
  replace (a + (e - a))%nat with e by lia.
  assert (take a (serialized p) ++ drop a (take e (serialized p)) = take e (serialized p)) as ->.
  { rewrite <- (take_drop a (take e (serialized p))) at 2. rewrite take_take, Nat.min_l by lia. done. }
  destruct p. cbn in *. by subst.
Qed.

End Crypto.

(** ** The writer and the parser *)

Lemma be_bytes_2 z : exists a b, be_bytes 2 z = [a; b].
Proof. by do 2 eexists. Qed.
Lemma be_bytes_4 z : exists a b c d, be_bytes 4 z = [a; b; c; d].
Proof. by do 4 eexists. Qed.

(** What the parser returns for a written packet. *)
Definition written_header (pt seqnum timestamp ssrc : Z) (tcc : option Z) (n : nat) : Header.t :=
  let start := match tcc with Some _ => 20%nat | None => 12%nat end in
  Header.mk false false (Z.land pt 127) (u16 seqnum) timestamp ssrc None None
    (match tcc with Some t => Some (u16 t) | None => None end)
    (match tcc with Some _ => Some (17, 19)%nat | None => None end)
    (start, (start + n)%nat) None.

Definition written_prefix (pt seqnum timestamp ssrc : Z) (tcc : option Z) : bytes :=
  match tcc with
  | Some t =>
      [144; Z.lor 0 (Z.land pt 127)] ++ be_bytes 2 (u16 seqnum) ++ be_bytes 4 timestamp
      ++ be_bytes 4 ssrc ++ [190; 222; 0; 1; 17] ++ be_bytes 2 (u16 t) ++ [0]
  | None =>
      [128; Z.lor 0 (Z.land pt 127)] ++ be_bytes 2 (u16 seqnum) ++ be_bytes 4 timestamp
      ++ be_bytes 4 ssrc
  end.

Lemma with_empty_tag_ok pt seqnum timestamp ssrc tcc dl payload :
  with_empty_tag (E:=unit) pt seqnum timestamp ssrc tcc dl payload =
    Ok (mk false pt ssrc seqnum None false timestamp None None None tcc
          (match tcc with Some _ => Some (17, 19)%nat | None => None end)
          (Header.payload_range (written_header pt seqnum timestamp ssrc tcc (length payload)))
          false (match dl with Some d => Some (d + PACKET_LIFETIME) | None => None end) 0
          (written_prefix pt seqnum timestamp ssrc tcc ++ payload ++ replicate SRTP_AUTH_TAG_LEN 0)).
Proof. destruct tcc as [t|]; reflexivity. Qed.

(** Evaluate one subterm of the goal in place. *)
Ltac ev t := let v := eval cbn in t in change t with v.

(** Run the parser over the twelve fixed bytes. *)
Ltac parse_fixed :=
  unfold Header.parse;
  match goal with |- context [checked_split_at ?l Header.RTP_MIN_HEADER_LEN] =>
    ev (checked_split_at l Header.RTP_MIN_HEADER_LEN) end;
  cbn [ok_or]; rewrite mbind_Ok; cbn beta iota;
  match goal with |- context [idx (E:=unit) ?l 0%nat] => ev (idx (E:=unit) l 0%nat) end;
  rewrite mbind_Ok; cbv zeta;
  match goal with |- context [idx (E:=unit) ?l Header.RTP_PAYLOAD_TYPE_OFFSET] =>
    ev (idx (E:=unit) l Header.RTP_PAYLOAD_TYPE_OFFSET) end;
  rewrite mbind_Ok; unfold parse_u16, parse_u32;
  cbn [Header.RTP_SEQNUM_RANGE Header.RTP_TIMESTAMP_RANGE Header.RTP_SSRC_RANGE fst snd];
  rewrite (ReadFacts.slice_parse_be _ 2 4 2), (ReadFacts.slice_parse_be _ 4 8 4),
    (ReadFacts.slice_parse_be _ 8 12 4) by (cbn; lia);
  cbn [take drop]; cbv zeta;
  match goal with |- context [checked_split_at ?l (4 * Z.to_nat (Z.land ?b 15))%nat] =>
    change (4 * Z.to_nat (Z.land b 15))%nat with 0%nat; ev (checked_split_at l 0%nat) end;
  cbn [ok_or]; rewrite mbind_Ok; cbn beta iota.

Lemma parse_written pt seqnum timestamp ssrc tcc payload :
  uint 32 timestamp -> uint 32 ssrc ->
  Header.parse (written_prefix pt seqnum timestamp ssrc tcc ++ payload
                ++ replicate SRTP_AUTH_TAG_LEN 0) =
    Ok (written_header pt seqnum timestamp ssrc tcc (length payload)).
Proof.
  intros Ht Hs. set (rest := payload ++ replicate SRTP_AUTH_TAG_LEN 0).
  assert (Hr : length rest = (length payload + 16)%nat) by (subst rest; by rewrite length_app).
  clearbody rest.
  assert (be_val (be_bytes 2 (u16 seqnum)) = u16 seqnum) as Es.
  { rewrite be_val_be_bytes. apply wrap_small, wrap_uint. lia. }
  assert (be_val (be_bytes 4 timestamp) = timestamp) as Et
    by (rewrite be_val_be_bytes; by apply wrap_small).
  assert (be_val (be_bytes 4 ssrc) = ssrc) as Ec by (rewrite be_val_be_bytes; by apply wrap_small).
  destruct (be_bytes_2 (u16 seqnum)) as (s1 & s2 & Es'). rewrite Es' in Es.
  destruct (be_bytes_4 timestamp) as (t1 & t2 & t3 & t4 & Et'). rewrite Et' in Et.
  destruct (be_bytes_4 ssrc) as (c1 & c2 & c3 & c4 & Ec'). rewrite Ec' in Ec.
  assert (Z.land (Z.lor 0 (Z.land pt 127)) 127 = Z.land pt 127) as Ep.
  { rewrite Z.lor_0_l, <- Z.land_assoc. done. }
  assert (Z.shiftr (Z.land (Z.lor 0 (Z.land pt 127)) 128) 7 = 0) as Em.
  { rewrite Z.lor_0_l, <- Z.land_assoc. change (Z.land 127 128) with 0. by rewrite Z.land_0_r. }
  destruct tcc as [t|]; cbn [written_prefix]; rewrite Es', Et', Ec'.
  - assert (be_val (be_bytes 2 (u16 t)) = u16 t) as Ex.
    { rewrite be_val_be_bytes. apply wrap_small, wrap_uint. lia. }
    destruct (be_bytes_2 (u16 t)) as (x1 & x2 & Ex'). rewrite Ex' in *. cbn [app].
    parse_fixed.
    rewrite Ep, Em, Es, Et, Ec.
    change (0 <? Z.shiftr (Z.land 144 16) 4) with true. cbn iota.
    match goal with |- context [checked_split_at ?l Header.RTP_EXTENSIONS_HEADER_LEN] =>
      ev (checked_split_at l Header.RTP_EXTENSIONS_HEADER_LEN) end.
    cbn [ok_or]. rewrite mbind_Ok. cbn beta iota.
    rewrite (ReadFacts.slice_parse_be _ 0 2 2), (ReadFacts.slice_parse_be _ 2 4 2) by (cbn; lia).
    match goal with |- context [Header.profile_try_from ?v] =>
      change (Header.profile_try_from v) with (@Ok unit _ Header.OneByte) end.
    rewrite mbind_Ok. cbv zeta.
    repeat match goal with |- context [(Z.to_nat ?v * 4)%nat] =>
      change (Z.to_nat v * 4)%nat with 4%nat end.
    match goal with |- context [checked_split_at ?l ?n] =>
      change (checked_split_at l n) with (Some ([17; x1; x2; 0], rest)) end.
    cbn [ok_or]. rewrite mbind_Ok. cbn beta iota.
    assert (forall e, Header.parse_extensions 5 Header.OneByte 12 [17; x1; x2; 0] 0 e =
      Ok (Header.exts (Some (be_val [x1; x2])) (Some (17, 19)%nat) (Header.e_video_rotation e)
            (Header.e_audio_level e) (Header.e_dependency_descriptor e))) as He by reflexivity.
    cbn [length]. rewrite He, !mbind_Ok, Ex. cbn beta iota.
    match goal with |- context [Nat.ltb ?a ?b] => destruct (Nat.ltb_spec a b) as [Hlt|_] end.
    { cbn in Hlt. rewrite Hr in Hlt. unfold SRTP_AUTH_TAG_LEN in Hlt. lia. }
    change (0 <? Z.land 144 32) with false. cbn [andb].
    unfold written_header. do 3 f_equal. cbn [length]. rewrite Hr. unfold SRTP_AUTH_TAG_LEN. lia.
  - cbn [app]. parse_fixed. rewrite !take_0. rewrite Ep, Em, Es, Et, Ec.
    change (0 <? Z.shiftr (Z.land 128 16) 4) with false. cbn iota. rewrite mbind_Ok. cbn beta iota.
    match goal with |- context [Nat.ltb ?a ?b] => destruct (Nat.ltb_spec a b) as [Hlt|_] end.
    { cbn in Hlt. rewrite Hr in Hlt. unfold SRTP_AUTH_TAG_LEN in Hlt. lia. }
    change (0 <? Z.land 128 32) with false. cbn [andb].
    unfold written_header. do 3 f_equal. cbn [length]. rewrite Hr. unfold SRTP_AUTH_TAG_LEN. lia.
Qed.

End PacketFacts.

Module PacketProperties.
Import Packet PacketFacts.

(** Writing a packet and parsing it back: a packet made by [with_empty_tag]
    (as padding is) always exists, and its bytes parse to exactly the fields it
    was given, truncated to their widths on the wire, with the payload at its
    place and the authentication tag after it. *)
Theorem written_packet_parses pt seqnum timestamp ssrc tcc dl payload :
  uint 32 timestamp -> uint 32 ssrc ->
  exists p, with_empty_tag (E:=unit) pt seqnum timestamp ssrc tcc dl payload = Ok p /\
    Header.parse (serialized p) =
      Ok (written_header pt seqnum timestamp ssrc tcc (length payload)) /\
    Packet.payload (E:=unit) p = Ok payload.
Proof.
  intros. rewrite with_empty_tag_ok. eexists. split; [reflexivity|].
  split; [by apply parse_written|].
  unfold Packet.payload, payload_range. cbn [Packet.payload_range_in_header seqnum_in_payload].
  destruct tcc; cbn -[be_bytes]; rewrite slice_no_panic by
    (rewrite ?length_app; simpl; rewrite ?length_be_bytes, ?length_app; simpl; lia);
  f_equal; simpl; rewrite ?Nat.sub_0_r; cbn;
  rewrite ?drop_0; apply take_app_length'; lia.
Qed.

Lemma written_packet_parses_witness :
  exists p, with_empty_tag (E:=unit) 99 70000 3 5 (Some 65537) (Some 0) [1; 2; 3] = Ok p /\
    Header.parse (serialized p) = Ok (written_header 99 70000 3 5 (Some 65537) 3).
Proof.
  destruct (written_packet_parses 99 70000 3 5 (Some 65537) (Some 0) [1; 2; 3])
    as (p & E & H & _); [unfold uint; lia..|].
  exists p. split; assumption.
Defined.

(** A decrypted packet with three bytes of payload. *)
Definition sample : t :=
  mk true 108 7 70000 None false 5 None None None None None (12, 15)%nat false (Some 9) 0
    ([128; 236; 17; 112; 0; 0; 0; 5; 0; 0; 0; 7; 1; 2; 3] ++ replicate 16 0).

Lemma sample_wf : wf sample.
Proof.
  split; [simpl; lia|simpl; lia|reflexivity| |discriminate|discriminate]; simpl.
  repeat (apply Forall_cons; split; [unfold byte_ok, uint; lia|]). constructor.
Qed.

(** Forwarding a packet under a new SSRC, sequence number and timestamp, as
    the SFU does for every receiver, succeeds on every decrypted packet, and
    changes the bytes of those three fields only: the result (a plain packet or a
    retransmission, whose sequence number is in the payload) reports the new
    values, carries them on the wire and has the same payload and payload type. *)
Theorem forward_rewrites_header p new_ssrc new_seqnum new_timestamp :
  wf p -> encrypted p = false -> uint 32 new_ssrc ->
  exists p', rewrite (E:=unit) p new_ssrc new_seqnum new_timestamp = Ok p' /\
    ssrc p' = new_ssrc /\ rewritten p p' new_ssrc new_seqnum new_timestamp.
Proof.
  intros W E U. destruct (rewrite_rewritten (E:=unit) p new_ssrc new_seqnum new_timestamp W E)
    as (p' & R & Rw). exists p'. split; [done|]. split; [by apply (rw_ssrc _ _ _ _ _ Rw)|done].
Qed.

Lemma forward_rewrites_header_witness :
  exists p', rewrite (E:=unit) sample 33 9 11 = Ok p' /\ ssrc p' = 33 /\ rewritten sample p' 33 9 11.
Proof.
  apply (forward_rewrites_header sample 33 9 11); [exact sample_wf|reflexivity|unfold uint; lia].
Defined.

(** An RTX packet made from a sent packet is a retransmission of it: read as
    the receiver reads it, it has the original's SSRC, sequence number, payload
    type, timestamp and payload, while its own header carries the RTX payload
    type, the RTX SSRC and the RTX sequence number. *)
Theorem to_rtx_retransmits_original p q :
  wf p -> encrypted p = false -> is_rtx p = false ->
  uint 8 (payload_type_in_header p) -> uint 32 (ssrc_in_header p) ->
  exists r, to_rtx (E:=unit) p q = Ok r /\ retransmits p r q.
Proof. apply to_rtx_retransmits. Qed.

Lemma to_rtx_retransmits_original_witness :
  exists r, to_rtx (E:=unit) sample 5 = Ok r /\ retransmits sample r 5.
Proof.
  apply (to_rtx_retransmits_original sample 5);
    [exact sample_wf|reflexivity|reflexivity|simpl; unfold uint; lia..].
Defined.

(** SRTP encryption round trip: an encrypted packet decrypts, under the same
    key and salt, to the packet it was made from (its authentication tag apart),
    the header being authenticated but not encrypted. *)
Theorem srtp_roundtrip `{AeadLaws} p key salt c :
  cipher_parts p -> encrypted p = false -> encrypt_in_place p key salt = Ok c ->
  exists tag, length tag = SRTP_AUTH_TAG_LEN /\
    decrypt_in_place c key salt =
      Ok (p <| serialized := take (payload_range_in_header p).2 (serialized p) ++ tag |>).
Proof. intros C E H1. by destruct (decrypt_encrypt p key salt c C E H1) as (_ & _ & D). Qed.

#[local] Existing Instances SampleCipher.flip_aead SampleCipher.flip_aead_laws.

Lemma srtp_roundtrip_witness :
  exists c tag, encrypt_in_place sample [1] (replicate 12 2) = Ok c /\
    decrypt_in_place c [1] (replicate 12 2) =
      Ok (sample <| serialized := take 15 (serialized sample) ++ tag |>).
Proof.
  destruct (encrypt_in_place sample [1] (replicate 12 2)) as [c| |] eqn:E;
    [|vm_compute in E; discriminate E..].
  destruct (srtp_roundtrip sample [1] (replicate 12 2) c (wf_cipher_parts _ sample_wf) eq_refl E)
    as (tag & _ & D).
  exists c, tag. split; [reflexivity|exact D].
Defined.

End PacketProperties.
