(* ===== verification/Replay.v ===== *)
(** * Replay: SRTP replay protection

    [SequenceNumberReuseDetector] of [src/backend/src/rtp.rs], the 128-wide
    sliding window that decides whether a sequence number was seen before, and
    its specification: the set of the numbers accepted so far. *)
From S2P Require Import Prelude Common.

Module SequenceNumberReuseDetector.

Inductive SequenceNumberReuse :=
| UsedBefore
| NotUsedBefore
| TooOldToKnow (delta : Z).

Record t := mk { first : Z; mask : Z }.

Definition default : t := mk 0 0.

Definition MASK_SIZE : Z := 128.
Definition LAST_RELATIVE_TO_FIRST : Z := MASK_SIZE - 1.

Definition remember_used (self : t) (seqnum : Z) : Res unit (t * SequenceNumberReuse) :=
  if seqnum <? first self then Ok (self, TooOldToKnow (first self - seqnum))
  else
    let last := saturating_add 64 (first self) LAST_RELATIVE_TO_FIRST in
    if last <? seqnum then
      let seqnum_relative_to_last := seqnum - last in
      let first := u64 (first self + seqnum_relative_to_last) in
      let shifted_mask :=
        if LAST_RELATIVE_TO_FIRST <? seqnum_relative_to_last then 0
        else u128 (Z.shiftl (mask self) seqnum_relative_to_last) in
      mask ← Bits.set_ms_bit MASK_SIZE shifted_mask LAST_RELATIVE_TO_FIRST;
      Ok (mk first mask, NotUsedBefore)
    else
      let seqnum_relative_to_first := u8 (seqnum - first self) in
      previously_used ← Bits.ms_bit MASK_SIZE (mask self) seqnum_relative_to_first;
      mask ← Bits.set_ms_bit MASK_SIZE (mask self) seqnum_relative_to_first;
      Ok (mk (first self) mask, if (previously_used : bool) then UsedBefore else NotUsedBefore).

(** The sequence numbers a run accepts, in order (what [receive_rtp] does with
    the result: it goes on only for [NotUsedBefore]). *)
Fixpoint accepted (self : t) (seqnums : list Z) : Res unit (list Z) :=
  match seqnums with
  | [] => Ok []
  | s :: rest =>
      '(self, reuse) ← remember_used self s;
      acc ← accepted self rest;
      Ok (match reuse with NotUsedBefore => s :: acc | _ => acc end)
  end.

End SequenceNumberReuseDetector.

(** * Theorems *)

Module SequenceNumberReuseDetectorFacts.
Import SequenceNumberReuseDetector.

(** The window agrees with the set [seen] on its 128 numbers, and nothing above
    the window was seen. *)
Record window_of (d : t) (seen : Z -> Prop) : Prop := {
  win_first : uint 64 (first d);
  win_mask : uint 128 (mask d);
  win_bit : forall s, first d <= s <= first d + 127 ->
    Z.testbit (mask d) (first d + 127 - s) = true <-> seen s;
  win_above : forall s, seen s -> s <= first d + 127
}.

Lemma default_window : window_of default (fun _ => False).
Proof.
  split; simpl; [unfold uint; lia|unfold uint; lia| |done].
  intros s Hs. rewrite Z.testbit_0_l. done.
Qed.

Lemma set_ms_bit_128 z i : 0 <= i < 128 ->
  Bits.set_ms_bit 128 z i = Ok (Z.setbit z (127 - i)).
Proof.
  intros. unfold Bits.set_ms_bit. rewrite (proj2 (Z.ltb_lt i 128)) by lia.
  cbn [assert_]. rewrite mbind_Ok, wrap_small; [|rewrite Z.shiftl_1_l; split].
  - unfold Z.setbit. do 3 f_equal. lia.
  - apply Z.pow_nonneg. lia.
  - apply Z.pow_lt_mono_r; lia.
Qed.

Lemma setbit_uint w z i : 0 <= i < w -> uint w z -> uint w (Z.setbit z i).
Proof.
  intros Hi Hz. unfold Z.setbit. apply uint_lor; [lia|done|]. rewrite Z.shiftl_1_l.
  split; [apply Z.pow_nonneg; lia|apply Z.pow_lt_mono_r; lia].
Qed.

(** Marking the newest number shifts the window up to it. *)
Lemma window_shift d seen s k :
  window_of d seen -> uint 64 s -> s = first d + 127 + k -> 0 < k ->
  window_of (mk (first d + k) (Z.setbit (if 127 <? k then 0 else u128 (Z.shiftl (mask d) k)) 0))
    (fun x => x = s \/ seen x).
Proof.
  intros [Hf Hm Hb Ha] Hs -> Hk. split; simpl.
  - unfold uint in *. lia.
  - apply setbit_uint; [lia|]. case_if; [unfold uint; lia|apply wrap_uint; lia].
  - intros x Hx. rewrite Z.setbit_eqb by lia. rewrite orb_true_iff, Z.eqb_eq.
    assert (Hsh : Z.testbit (if 127 <? k then 0 else u128 (Z.shiftl (mask d) k))
      (first d + k + 127 - x) = true <-> x <> first d + 127 + k /\ seen x).
    { destruct (Z.ltb_spec 127 k).
      - rewrite Z.testbit_0_l. split; [done|]. intros [_ Hx']. specialize (Ha x Hx'). lia.
      - unfold u128. rewrite wrap_testbit, Z.shiftl_spec by lia.
        rewrite (proj2 (Z.ltb_lt (first d + k + 127 - x) 128)) by lia. cbn [andb].
        destruct (Z.lt_ge_cases (first d + 127) x).
        + rewrite Z.testbit_neg_r by lia. split; [done|]. intros [_ Hx']. specialize (Ha x Hx'). lia.
        + replace (first d + k + 127 - x - k) with (first d + 127 - x) by lia.
          rewrite Hb by lia. split; [|tauto]. intros ?. split; [lia|done]. }
    rewrite Hsh. destruct (Z.eq_dec x (first d + 127 + k)); [|intuition lia].
    split; intros _; [by left|left; lia].
  - intros x [->|Hx]; [lia|]. specialize (Ha x Hx). lia.
Qed.

Lemma window_mark d seen s :
  window_of d seen -> first d <= s <= first d + 127 ->
  window_of (mk (first d) (Z.setbit (mask d) (127 - (s - first d)))) (fun x => x = s \/ seen x).
Proof.
  intros [Hf Hm Hb Ha] Hs. split; simpl; [done|apply setbit_uint; [lia|done]| |].
  - intros x Hx. rewrite Z.setbit_eqb by lia. rewrite orb_true_iff, Z.eqb_eq, Hb by done.
    split; (intros [?|?]; [left; lia|tauto]).
  - intros x [->|Hx]; [lia|by apply Ha].
Qed.

Lemma window_ext d P Q : (forall x, P x <-> Q x) -> window_of d P -> window_of d Q.
Proof.
  intros E [Hf Hm Hb Ha]. split; [done..| |].
  - intros s Hs. rewrite Hb by done. apply E.
  - intros s Hs. by apply Ha, E.
Qed.

(** One step of the detector is one step of the set. *)
Lemma remember_used_window d seen s :
  window_of d seen -> uint 64 s ->
  exists d' r, remember_used d s = Ok (d', r) /\
    (s < first d -> d' = d /\ r = TooOldToKnow (first d - s)) /\
    (first d <= s ->
       window_of d' (fun x => x = s \/ seen x) /\
       first d' = Z.max (first d) (s - 127) /\
       (seen s -> r = UsedBefore) /\ (~ seen s -> r = NotUsedBefore)).
Proof.
  intros Hw Hs. pose proof Hw as [Hf Hm Hb Ha]. unfold remember_used.
  change LAST_RELATIVE_TO_FIRST with 127. change MASK_SIZE with 128.
  destruct (Z.ltb_spec s (first d)).
  { do 2 eexists. split; [done|]. split; [done|]. lia. }
  assert (Hlast : s <= saturating_add 64 (first d) 127 -> s <= first d + 127)
    by (unfold saturating_add; lia).
  destruct (Z.ltb_spec (saturating_add 64 (first d) 127) s) as [Hgt|Hle].
  - assert (saturating_add 64 (first d) 127 = first d + 127) as El
      by (unfold saturating_add, umax, uint in *; lia).
    rewrite El in *. rewrite set_ms_bit_128 by lia. rewrite mbind_Ok.
    do 2 eexists. split; [done|]. split; [lia|]. intros _.
    assert (u64 (first d + (s - (first d + 127))) = first d + (s - (first d + 127))) as ->
      by (apply wrap_small; unfold uint in *; lia).
    split; [by apply window_shift; [..|lia|lia]|]. split; [simpl; lia|].
    split; [|done]. intros Hx. specialize (Ha s Hx). lia.
  - specialize (Hlast Hle).
    assert (u8 (s - first d) = s - first d) as -> by (apply wrap_small; unfold uint; lia).
    rewrite BitsFacts.ms_bit_testbit, set_ms_bit_128, !mbind_Ok by lia.
    do 2 eexists. split; [done|]. split; [lia|]. intros _.
    split; [by apply window_mark|]. split; [simpl; lia|].
    specialize (Hb s ltac:(lia)). replace (128 - (s - first d) - 1) with (first d + 127 - s) by lia.
    destruct (Z.testbit (mask d) (first d + 127 - s)); split; intros Hx; try done.
    + exfalso. by apply Hx, Hb.
    + apply Hb in Hx. done.
Qed.

Lemma accepted_once d seen l :
  window_of d seen -> Forall (uint 64) l ->
  exists acc, accepted d l = Ok acc /\ NoDup acc /\ (forall s, s ∈ acc -> ~ seen s) /\
    (forall s, s ∈ acc -> s ∈ l).
Proof.
  intros Hw Hl. revert d seen Hw. induction Hl as [|s l Hs Hl IH]; intros d seen Hw.
  { exists []. split_and!; [done|constructor|..]; intros s Hs; by apply elem_of_nil in Hs. }
  cbn [accepted].
  destruct (remember_used_window d seen s Hw Hs) as (d' & r & -> & Hold & Hnew). rewrite mbind_Ok.
  destruct (Z.lt_ge_cases s (first d)) as [Hlt|Hge].
  - destruct (Hold Hlt) as [-> ->]. destruct (IH d seen Hw) as (acc & -> & Hnd & Hns & Hin).
    rewrite mbind_Ok. exists acc. split_and!; try done. intros x Hx. right. by apply Hin.
  - destruct (Hnew Hge) as (Hw' & _ & Hu & Hn).
    destruct (IH d' _ Hw') as (acc & -> & Hnd & Hns & Hin). rewrite mbind_Ok.
    assert (Hsub : forall x, x ∈ acc -> ~ seen x /\ x ∈ s :: l /\ x ≠ s).
    { intros x Hx. specialize (Hns x Hx). split_and!; [tauto|right; by apply Hin|tauto]. }
    destruct r as [| |delta].
    + exists acc. split_and!; try done; intros x Hx; by apply Hsub.
    + exists (s :: acc). split_and!; [done|..].
      * constructor; [|done]. intros Hx. by destruct (Hsub s Hx) as (_ & _ & ?).
      * intros x Hx. apply elem_of_cons in Hx as [->|Hx]; [|by apply Hsub].
        intros Hx. specialize (Hu Hx). done.
      * intros x Hx. apply elem_of_cons in Hx as [->|Hx]; [left|by apply Hsub].
    + exists acc. split_and!; try done; intros x Hx; by apply Hsub.
Qed.

(** A number at most 127 behind the newest one and not seen before is accepted. *)
Lemma fresh_accepted d seen s :
  window_of d seen -> uint 64 s -> first d <= s -> ~ seen s ->
  exists d', remember_used d s = Ok (d', NotUsedBefore).
Proof.
  intros Hw Hs Hge Hn. destruct (remember_used_window d seen s Hw Hs) as (d' & r & E & _ & Hnew).
  destruct (Hnew Hge) as (_ & _ & _ & Hr). rewrite (Hr Hn) in E. by exists d'.
Qed.

End SequenceNumberReuseDetectorFacts.

Module ReplayProperties.
Import SequenceNumberReuseDetector SequenceNumberReuseDetectorFacts.

(** Replay protection: whatever sequence numbers arrive, in whatever order,
    no sequence number passes the SRTP replay check twice, and only numbers that
    arrived pass it. *)
Theorem replay_never_accepted_twice l :
  Forall (uint 64) l ->
  exists acc, accepted default l = Ok acc /\ NoDup acc /\ acc ⊆ l.
Proof.
  intros F. destruct (accepted_once _ _ _ default_window F) as (acc & E & N & _ & I).
  exists acc. split; [done|]. split; [done|]. intros s Hs. by apply I.
Qed.

Lemma replay_never_accepted_twice_witness :
  exists acc, accepted default [5; 200; 5; 60; 201; 200; 74] = Ok acc /\ NoDup acc /\
    acc ⊆ [5; 200; 5; 60; 201; 200; 74].
Proof.
  apply (replay_never_accepted_twice [5; 200; 5; 60; 201; 200; 74]).
  repeat constructor; unfold uint; lia.
Defined.

(** C9: The 128-bit mask and first number refine the set of sequence numbers seen
    so far: a number below the window is refused as too old and changes nothing;
    any other number is reported used exactly when it is in the set, is added to
    it, and moves the window so that it ends no lower than that number. *)
Theorem detector_refines_set d seen s :
  window_of d seen -> uint 64 s ->
  exists d' r, remember_used d s = Ok (d', r) /\
    (s < first d -> d' = d /\ r = TooOldToKnow (first d - s)) /\
    (first d <= s ->
       window_of d' (fun x => x = s \/ seen x) /\
       first d' = Z.max (first d) (s - 127) /\
       (seen s -> r = UsedBefore) /\ (~ seen s -> r = NotUsedBefore)).
Proof. apply remember_used_window. Qed.

Lemma detector_refines_set_witness :
  exists d' r, remember_used default 300 = Ok (d', r) /\
    window_of d' (fun x => x = 300 \/ False) /\ first d' = 173 /\ r = NotUsedBefore.
Proof.
  destruct (detector_refines_set default (fun _ => False) 300 default_window)
    as (d' & r & E & _ & H); [unfold uint; lia|].
  destruct H as (W & F & _ & N); [vm_compute; discriminate|].
  exists d', r. split; [exact E|]. split; [exact W|].
  split; [rewrite F; reflexivity|apply N; intros []].
Defined.

End ReplayProperties.
