(* ===== verification/Nack.v ===== *)
(** * Nack: negative acknowledgements

    [src/backend/src/rtp/nack.rs]: which sequence numbers are missing, when
    they are asked for again, and the wire format of a NACK. *)
From S2P Require Import Prelude Common Collections Bytes.
Import Read Serialize.

Module Nack.

Definition MAX_NACK_RETRY_COUNT : Z := 10.
(** 3 seconds *)
Definition NACK_EXPIRY : Z := 3 * 10 ^ 9.

(** A missing number and, once asked for: first sent, last sent, count. *)
Definition Sent : Type := option (Z * Z * Z).

Record NackSender := mk {
  limit : nat;
  sent_by_seqnum : KeySortedCache.t Sent;
  max_received : option Z
}.

Definition new (limit : nat) : NackSender := mk limit (KeySortedCache.new limit) None.

Definition remember_received (self : NackSender) (seqnum : Z) : NackSender :=
  match max_received self with
  | None => mk (limit self) (sent_by_seqnum self) (Some seqnum)
  | Some max_received =>
      match seqnum ?= max_received with
      | Eq => self
      | Lt => mk (limit self) (KeySortedCache.remove (sent_by_seqnum self) seqnum) (Some max_received)
      | Gt =>
          let prev_max_received := max_received in
          let start := saturating_add 64 prev_max_received 1 in
          let missing_count := seqnum - start in
          let '(cache, start) :=
            if Z.of_nat (limit self) <? missing_count
            then (KeySortedCache.new (limit self), seqnum - Z.of_nat (limit self))
            else (sent_by_seqnum self, start) in
          mk (limit self)
             (fold_left (fun c s => KeySortedCache.insert c s None) (seqZ start (seqnum - start)) cache)
             (Some seqnum)
      end
  end.

(** The closure of [retain]: what becomes of the entry, and whether it is to be
    sent. *)
Definition retain_entry (now rtt : Z) (sent : Sent) : option Sent * bool :=
  match sent with
  | Some (first_sent, last_sent, retry_count) =>
      if (NACK_EXPIRY <=? saturating_sub now first_sent) || (MAX_NACK_RETRY_COUNT <=? retry_count)
      then (None, false)
      else if rtt <=? saturating_sub now last_sent
      then (Some (Some (first_sent, now, u8 (retry_count + 1))), true)
      else (Some sent, false)
  | None => (Some (Some (now, now, 1)), true)
  end.

(** The [filter_map] of the result; [sent.unwrap()] panics on an entry that was
    never sent. *)
Fixpoint to_send (now : Z) (m : list (Z * Sent)) : Res unit (list Z) :=
  match m with
  | [] => Ok []
  | (seqnum, sent) :: m' =>
      '(_, last_sent, _) ← unwrap sent;
      rest ← to_send now m';
      Ok (if now =? last_sent then seqnum :: rest else rest)
  end.

Definition send_nacks (self : NackSender) (now rtt : Z) : Res unit (NackSender * option (list Z)) :=
  let send_any :=
    existsb (fun kv => (retain_entry now rtt kv.2).2)
            (KeySortedCache.value_by_key (sent_by_seqnum self)) in
  let cache := KeySortedCache.retain (sent_by_seqnum self) (fun _ sent => (retain_entry now rtt sent).1) in
  let self := mk (limit self) cache (max_received self) in
  if send_any then
    seqnums ← to_send now (KeySortedCache.value_by_key cache);
    Ok (self, Some seqnums)
  else Ok (self, None).

(** ** The wire format *)

Record t := nack { ssrc : Z; seqnums : list Z }.

(** The closure of the [filter_map] over [0..16]; [mask.ls_bit(index)] of an
    index below 16 is [Z.testbit]. *)
Definition entry_seqnum (first_seqnum mask index : Z) : option Z :=
  if Z.testbit mask index then Some (u16 (first_seqnum + u16 (index + 1))) else None.

(** One 4-byte entry: the first number and those whose mask bit is set. *)
Definition entry_seqnums (first_seqnum mask : Z) : list Z :=
  first_seqnum :: omap (entry_seqnum first_seqnum mask) (seqZ 0 16).

Definition read_u32_be (reader : bytes) : Res unit (Z * bytes) :=
  '(b, rest) ← ok_or tt (read_slice reader 4); Ok (be_val b, rest).
Definition read_u16_be (reader : bytes) : Res unit (Z * bytes) :=
  '(b, rest) ← ok_or tt (read_slice reader 2); Ok (be_val b, rest).

(** The [while !reader.is_empty()] loop; every iteration consumes bytes, so
    [length reader] steps are enough (running out is [Panic]). *)
Fixpoint parse_entries (fuel : nat) (reader : bytes) : Res unit (list Z) :=
  match reader with
  | [] => Ok []
  | _ =>
      match fuel with
      | O => Panic
      | S fuel' =>
          '(first_seqnum, reader) ← read_u16_be reader;
          '(mask, reader) ← read_u16_be reader;
          rest ← parse_entries fuel' reader;
          Ok (entry_seqnums first_seqnum mask ++ rest)
      end
  end.

Definition parse_nack (rtcp_payload : bytes) : Res unit t :=
  '(ssrc, reader) ← read_u32_be rtcp_payload;
  seqnums ← parse_entries (length reader) reader;
  Ok (nack ssrc seqnums).

(** The items after [first_seqnum] with the bits [mask] collected so far. *)
Fixpoint write_items (first_seqnum mask : Z) (seqnums : list Z) : Res unit (list (U16 * U16)) :=
  match seqnums with
  | [] => Ok [(w16 (u16 first_seqnum), w16 mask)]
  | seqnum :: rest =>
      let diff := saturating_sub seqnum first_seqnum in
      if (1 <=? diff) && (diff <=? 16) then
        let index := u8 (diff - 1) in
        mask ← Bits.set_ls_bit 16 mask index;
        write_items first_seqnum mask rest
      else
        items ← write_items seqnum 0 rest;
        Ok ((w16 (u16 first_seqnum), w16 mask) :: items)
  end.

(** The writer [(ssrc, items)]. *)
Definition write_nack (ssrc : Z) (seqnums : list Z) : Res unit (U32 * list (U16 * U16)) :=
  items ←
    match seqnums with
    | [] => Ok []
    | first_seqnum :: rest => write_items first_seqnum 0 rest
    end;
  Ok (w32 ssrc, items).

End Nack.

(** * Theorems *)

Module NackFacts.
Import SerializeFacts.
Import Nack.

Lemma omap_entry_ext f mask mask' (l : list Z) :
  (forall x, x ∈ l -> Z.testbit mask x = Z.testbit mask' x) ->
  omap (entry_seqnum f mask) l = omap (entry_seqnum f mask') l.
Proof.
  intros Hx. induction l as [|x l IH]; [done|]. cbn.
  assert (entry_seqnum f mask x = entry_seqnum f mask' x) as ->
    by (unfold entry_seqnum; rewrite (Hx x) by (by left); done).
  rewrite IH; [done|]. intros y Hy. apply Hx. by right.
Qed.

Lemma omap_entry_nil f mask (l : list Z) :
  (forall x, x ∈ l -> Z.testbit mask x = false) -> omap (entry_seqnum f mask) l = [].
Proof.
  intros Hx. induction l as [|x l IH]; [done|]. cbn.
  assert (entry_seqnum f mask x = None) as ->
    by (unfold entry_seqnum; rewrite (Hx x) by (by left); done).
  apply IH. intros y Hy. apply Hx. by right.
Qed.

(** Setting a bit above all the others appends one number to the entry. *)
Lemma entry_add_bit f mask i :
  0 <= i < 16 -> uint i mask ->
  entry_seqnums f (Z.setbit mask i) = entry_seqnums f mask ++ [u16 (f + u16 (i + 1))].
Proof.
  intros Hi Hm. unfold entry_seqnums. cbn [app]. f_equal.
  assert (seqZ 0 16 = seqZ 0 i ++ [i] ++ seqZ (i + 1) (15 - i)) as ->.
  { change [i] with (seqZ i 1). rewrite <- seqZ_app by lia.
    replace 16 with (i + (1 + (15 - i))) by lia. by rewrite seqZ_app by lia. }
  rewrite !omap_app. cbn [omap list_omap].
  assert (entry_seqnum f (Z.setbit mask i) i = Some (u16 (f + u16 (i + 1)))) as ->
    by (unfold entry_seqnum; by rewrite Z.setbit_eq by lia).
  assert (entry_seqnum f mask i = None) as ->
    by (unfold entry_seqnum; by rewrite (uint_testbit_high i mask i) by (done || lia)).
  rewrite (omap_entry_ext f (Z.setbit mask i) mask (seqZ 0 i)).
  2:{ intros x Hx. apply elem_of_seqZ in Hx. apply Z.setbit_neq; lia. }
  rewrite !(omap_entry_nil f _ (seqZ (i + 1) (15 - i))); [by rewrite !app_nil_r| |];
    intros x Hx; apply elem_of_seqZ in Hx; rewrite ?Z.setbit_neq by lia;
    apply (uint_testbit_high i); done || lia.
Qed.

Lemma entry_no_bits f : entry_seqnums f 0 = [f].
Proof. done. Qed.

Lemma read_u16_be_ok z rest : uint 16 z -> read_u16_be (be_bytes 2 z ++ rest) = Ok (z, rest).
Proof.
  intros Hz. unfold read_u16_be, read_slice.
  destruct (Nat.ltb_spec (length (be_bytes 2 z ++ rest)) 2) as [Hl|_].
  { rewrite length_app, length_be_bytes in Hl. lia. }
  cbn [ok_or]. rewrite mbind_Ok. rewrite take_app_length', drop_app_length' by (by rewrite length_be_bytes).
  rewrite be_val_be_bytes. by rewrite wrap_small.
Qed.

(** Decoding the entries of a writer. *)
Lemma parse_items fuel (items : list (U16 * U16)) :
  (length items <= fuel)%nat ->
  Forall (fun i => uint 16 (get16 i.1) /\ uint 16 (get16 i.2)) items ->
  parse_entries fuel (concat (map to_vec items)) =
    Ok (concat (map (fun i => entry_seqnums (get16 i.1) (get16 i.2)) items)).
Proof.
  revert fuel. induction items as [|[[a] [b]] items IH]; intros [|fuel] Hl Hi; try done; simpl in Hl; [lia|].
  inversion Hi as [|? ? [Ha Hb] Hi']; subst. cbn in Ha, Hb.
  cbn [map concat]. rewrite SerializeFacts.to_vec_pair.
  change (to_vec (w16 a)) with (be_bytes 2 a). change (to_vec (w16 b)) with (be_bytes 2 b).
  rewrite <- !app_assoc. set (rest := concat (map to_vec items)).
  assert (parse_entries (S fuel) (be_bytes 2 a ++ be_bytes 2 b ++ rest) =
    ('(first_seqnum, reader) ← read_u16_be (be_bytes 2 a ++ be_bytes 2 b ++ rest);
     '(mask, reader) ← read_u16_be reader;
     rest ← parse_entries fuel reader;
     Ok (entry_seqnums first_seqnum mask ++ rest))) as -> by reflexivity.
  rewrite read_u16_be_ok, mbind_Ok, read_u16_be_ok, mbind_Ok by done.
  subst rest. by rewrite IH, mbind_Ok by (done || lia).
Qed.

Lemma u16_add a b : u16 (u16 a + b) = u16 (a + b).
Proof. unfold u16, wrap. apply Zplus_mod_idemp_l. Qed.

(** What the writer's items decode to: the numbers, truncated. *)
Lemma write_items_decode : forall first mask i seqnums,
  0 <= first -> StronglySorted Z.lt seqnums -> 0 <= i <= 16 -> uint i mask ->
  Forall (fun s => first + i < s /\ uint 64 s) seqnums ->
  exists items, write_items first mask seqnums = Ok items /\
    (length items <= S (length seqnums))%nat /\
    Forall (fun i => uint 16 (get16 i.1) /\ uint 16 (get16 i.2)) items /\
    concat (map (fun i => entry_seqnums (get16 i.1) (get16 i.2)) items) =
      entry_seqnums (u16 first) mask ++ map u16 seqnums.
Proof.
  intros first mask i seqnums. revert first mask i.
  induction seqnums as [|s seqnums IH]; intros first mask i Hf Hs Hi Hm Hall; cbn [write_items].
  { eexists. split; [done|]. split; [simpl; lia|]. split; [|by simpl].
    repeat constructor; cbn; try (apply wrap_uint; lia);
      destruct Hm; try lia. apply Z.lt_le_trans with (2 ^ i); [done|]. apply Z.pow_le_mono_r; lia. }
  inversion Hs as [|? ? Hs' Hlt]; subst. inversion Hall as [|? ? [Hfs Hu] Hall']; subst.
  rewrite Forall_forall in Hlt. unfold uint in Hu.
  assert (saturating_sub s first = s - first) as -> by (unfold saturating_sub; lia).
  destruct (Z.leb_spec 1 (s - first)); [|lia].
  destruct (Z.leb_spec (s - first) 16) as [H16|H16]; cbn [andb].
  - assert (u8 (s - first - 1) = s - first - 1) as -> by (apply wrap_small; unfold uint; lia).
    rewrite BitsFacts.set_ls_bit_spec, mbind_Ok by lia.
    assert (uint (s - first - 1) mask) as Hm'.
    { destruct Hm. split; [done|]. apply Z.lt_le_trans with (2 ^ i); [done|].
      apply Z.pow_le_mono_r; lia. }
    destruct (IH first (Z.setbit mask (s - first - 1)) (s - first)) as (items & -> & Hl & Hok & Hd);
      [done|done|lia| | |].
    + apply uint_lor; [lia| |].
      * destruct Hm'. split; [done|]. apply Z.lt_le_trans with (2 ^ (s - first - 1)); [done|].
        apply Z.pow_le_mono_r; lia.
      * rewrite Z.shiftl_1_l. split; [apply Z.pow_nonneg; lia|]. apply Z.pow_lt_mono_r; lia.
    + rewrite Forall_forall in *. intros x Hx. specialize (Hlt x Hx). specialize (Hall' x Hx).
      split; [lia|apply Hall'].
    + exists items. split; [done|]. split; [simpl; lia|]. split; [done|]. rewrite Hd.
      rewrite entry_add_bit by (done || lia). rewrite <- app_assoc. cbn [map app].
      assert (u16 (u16 first + u16 (s - first - 1 + 1)) = u16 s) as ->; [|done].
      rewrite u16_add. replace (u16 (s - first - 1 + 1)) with (s - first); [f_equal; lia|].
      symmetry. replace (s - first - 1 + 1) with (s - first) by lia. apply wrap_small. unfold uint. lia.
  - destruct (IH s 0 0) as (items & -> & Hl & Hok & Hd); [lia|done|lia|unfold uint; simpl; lia| |].
    + rewrite Forall_forall in *. intros x Hx. specialize (Hlt x Hx). specialize (Hall' x Hx).
      split; [lia|apply Hall'].
    + rewrite mbind_Ok. eexists. split; [done|]. split; [simpl in *; lia|]. split.
      * constructor; [|done]. cbn. split; [apply wrap_uint; lia|].
        destruct Hm. split; [done|]. apply Z.lt_le_trans with (2 ^ i); [done|]. apply Z.pow_le_mono_r; lia.
      * cbn [map concat]. rewrite Hd. cbn [get16 fst snd]. rewrite entry_no_bits. done.
Qed.

Lemma items_length (items : list (U16 * U16)) : (length items <= length (concat (map to_vec items)))%nat.
Proof.
  induction items as [|[a b] items IH]; [done|]. cbn [map concat length].
  rewrite length_app, SerializeFacts.to_vec_pair, length_app.
  change (length (to_vec a)) with 2%nat. lia.
Qed.

Lemma nack_roundtrip ssrc seqnums :
  uint 32 ssrc -> StronglySorted Z.lt seqnums -> Forall (uint 64) seqnums ->
  exists w, write_nack ssrc seqnums = Ok w /\
    parse_nack (to_vec w) = Ok (nack ssrc (map u16 seqnums)).
Proof.
  intros Hss Hs Hall.
  assert (exists items,
    (match seqnums with [] => Ok [] | f :: rest => write_items f 0 rest end) = Ok items /\
    Forall (fun i => uint 16 (get16 i.1) /\ uint 16 (get16 i.2)) items /\
    concat (map (fun i => entry_seqnums (get16 i.1) (get16 i.2)) items) = map u16 seqnums)
    as (items & E & Hok & Hd).
  { destruct seqnums as [|f rest]; [by exists []|].
    inversion Hs as [|? ? Hs' Hlt]; subst. inversion Hall as [|? ? Hf Hall']; subst.
    destruct (write_items_decode f 0 0 rest) as (items & E & _ & Hok & Hd);
      [apply Hf|done|lia|unfold uint; simpl; lia| |by exists items].
    rewrite Forall_forall in *. intros x Hx. specialize (Hlt x Hx). specialize (Hall' x Hx).
    split; [lia|done]. }
  unfold write_nack. rewrite E, mbind_Ok. eexists. split; [done|].
  unfold parse_nack. rewrite SerializeFacts.to_vec_pair.
  change (to_vec (w32 ssrc)) with (be_bytes 4 ssrc).
  unfold to_vec. rewrite SerializeFacts.write_list. cbn [app].
  unfold read_u32_be, read_slice.
  destruct (Nat.ltb_spec (length (be_bytes 4 ssrc ++ concat (map to_vec items))) 4) as [Hl|_].
  { rewrite length_app, length_be_bytes in Hl. lia. }
  cbn [ok_or]. rewrite mbind_Ok. rewrite take_app_length', drop_app_length' by (by rewrite length_be_bytes).
  rewrite be_val_be_bytes, wrap_small by done. rewrite mbind_Ok.
  rewrite parse_items, mbind_Ok by (done || apply items_length). by rewrite Hd.
Qed.

(** ** The sender *)

Definition pending (st : NackSender) : list Z := KeySortedCacheFacts.keys (sent_by_seqnum st).

(** After receiving [received] (first [f]), [st] asks for numbers that are
    missing, and for every missing one among the [limit] below the newest. *)
Record tracks (st : NackSender) (f : Z) (received : list Z) (m : Z) : Prop := {
  tr_max : max_received st = Some m;
  tr_max_in : m ∈ received;
  tr_max_le : forall s, s ∈ received -> s <= m;
  tr_limit : KeySortedCache.limit (sent_by_seqnum st) = limit st;
  tr_wf : KeySortedCacheFacts.wf (sent_by_seqnum st);
  tr_sound : forall s, s ∈ pending st -> s < m /\ s ∉ received;
  tr_complete : forall s, f < s < m -> s ∉ received -> m - s <= Z.of_nat (limit st) -> s ∈ pending st
}.

Lemma tracks_first n f : tracks (remember_received (new n) f) f [f] f.
Proof.
  split; cbn; try done.
  - by left.
  - intros s Hs. apply list_elem_of_singleton in Hs. lia.
  - apply KeySortedCacheFacts.new_wf.
  - intros s Hs. by apply elem_of_nil in Hs.
  - lia.
Qed.

Lemma tracks_step st f received m s :
  tracks st f received m -> f <= m -> uint 64 s -> uint 64 m ->
  tracks (remember_received st s) f (s :: received) (Z.max m s) /\
  limit (remember_received st s) = limit st.
Proof.
  intros [Hmax Hin Hle Hlim Hwf Hsound Hcompl] Hfm Hs Hm. unfold remember_received. rewrite Hmax.
  destruct (Z.compare_spec s m) as [->|Hlt|Hgt].
  - rewrite Z.max_id. split; [|done]. split; try done.
    + by left.
    + intros x Hx. apply elem_of_cons in Hx as [->|Hx]; [lia|by apply Hle].
    + intros x Hx. destruct (Hsound x Hx) as [? ?]. split; [done|]. rewrite not_elem_of_cons. split; [lia|done].
    + intros x Hx Hx'. apply Hcompl; [done|set_solver].
  - rewrite Z.max_l by lia. split; [|done]. split; cbn; try done.
    + by right.
    + intros x Hx. apply elem_of_cons in Hx as [->|Hx]; [lia|by apply Hle].
    + by apply KeySortedCacheFacts.remove_wf.
    + intros x Hx. apply KeySortedCacheFacts.remove_keys in Hx as [? Hx].
      destruct (Hsound x Hx). split; [done|]. rewrite not_elem_of_cons. done.
    + intros x Hx Hx' Hl. apply KeySortedCacheFacts.remove_keys.
      rewrite not_elem_of_cons in Hx'. destruct Hx'. split; [done|]. by apply Hcompl.
  - rewrite Z.max_r by lia.
    assert (saturating_add 64 m 1 = m + 1) as -> by (unfold saturating_add, umax, uint in *; lia).
    assert (Hgen : forall cache start,
      KeySortedCacheFacts.wf cache -> KeySortedCache.limit cache = limit st -> m < start <= s ->
      (forall x, x ∈ KeySortedCacheFacts.keys cache -> x < start /\ x ∈ pending st) ->
      (forall x, f < x < start -> x ∉ s :: received -> s - x <= Z.of_nat (limit st) ->
         x ∈ KeySortedCacheFacts.keys cache) ->
      tracks (mk (limit st) (fold_left (fun c s => KeySortedCache.insert c s None)
        (seqZ start (s - start)) cache) (Some s)) f (s :: received) s).
    { intros cache start Hw Hl Hst Hk Hc.
      destruct (KeySortedCacheFacts.inserts_above None (seqZ start (s - start)) cache (s - 1))
        as (Hw' & Hl' & Hs1 & Hs2).
      - done.
      - intros y Hy. destruct (Hk y Hy). lia.
      - intros y Hy. apply elem_of_seqZ in Hy. lia.
      - split; cbn; try done.
        + by left.
        + intros x Hx. apply elem_of_cons in Hx as [->|Hx]; [lia|]. specialize (Hle x Hx). lia.
        + etransitivity; [exact Hl'|exact Hl].
        + intros x Hx. rewrite not_elem_of_cons. apply Hs1 in Hx as [Hx|Hx].
          * apply elem_of_seqZ in Hx. split; [lia|]. split; [lia|]. intros Hx'. specialize (Hle x Hx'). lia.
          * destruct (Hk x Hx) as [? Hp]. destruct (Hsound x Hp). split; [lia|]. split; [lia|done].
        + intros x Hx Hx' Hn. apply Hs2; [|lia].
          destruct (Z.lt_ge_cases x start); [right; apply Hc; [lia|done|done]|left; apply elem_of_seqZ; lia]. }
    destruct (Z.ltb_spec (Z.of_nat (limit st)) (s - (m + 1))); (split; [|done]); apply Hgen.
    + apply KeySortedCacheFacts.new_wf.
    + done.
    + lia.
    + intros x Hx. by apply elem_of_nil in Hx.
    + lia.
    + done.
    + done.
    + lia.
    + intros x Hx. destruct (Hsound x Hx). split; [lia|done].
    + intros x Hx Hx' Hn. rewrite not_elem_of_cons in Hx'. destruct Hx' as [_ Hx'].
      assert (x ≠ m) by congruence. apply Hcompl; [lia|done|lia].
Qed.

Lemma tracks_run n f l :
  uint 64 f -> Forall (uint 64) l ->
  let st := fold_left remember_received l (remember_received (new n) f) in
  limit st = n /\ tracks st f (rev (f :: l)) (fold_left Z.max l f).
Proof.
  intros Hf Hl. induction l as [|s l IH] using rev_ind; cbn zeta.
  { split; [done|]. apply tracks_first. }
  apply Forall_app in Hl as [Hl Hs]. rewrite Forall_cons in Hs. destruct Hs as [Hs _].
  rewrite !fold_left_app. cbn [fold_left]. destruct (IH Hl) as [Hn Ht].
  set (st := fold_left remember_received l _) in *.
  destruct (tracks_step st f _ _ s Ht) as [Ht' Hlim].
  - apply (tr_max_le _ _ _ _ Ht). apply list_elem_of_In. rewrite <- in_rev. by left.
  - done.
  - pose proof (tr_max_in _ _ _ _ Ht) as Hin. apply list_elem_of_In in Hin. rewrite <- in_rev in Hin.
    apply list_elem_of_In, elem_of_cons in Hin as [->|Hin]; [done|]. rewrite Forall_forall in Hl. by apply Hl.
  - rewrite Hlim. split; [done|]. rewrite app_comm_cons, rev_app_distr. exact Ht'.
Qed.

End NackFacts.

Module NackProperties.
Import Serialize SerializeFacts Nack.

(** NACK feedback round trip: the RTCP payload written for an ascending list
    of missing sequence numbers, compressed into (first number, 16-bit mask)
    items, is parsed by the receiver to exactly those numbers, truncated to 16
    bits, in the same order. *)
Theorem nack_write_parse ssrc seqnums :
  uint 32 ssrc -> StronglySorted Z.lt seqnums -> Forall (uint 64) seqnums ->
  exists w, write_nack ssrc seqnums = Ok w /\
    parse_nack (to_vec w) = Ok (nack ssrc (map u16 seqnums)).
Proof. apply NackFacts.nack_roundtrip. Qed.

Lemma nack_write_parse_witness :
  exists w, write_nack 77 [65530; 65537; 65550; 70000] = Ok w /\
    parse_nack (to_vec w) = Ok (nack 77 (map u16 [65530; 65537; 65550; 70000])).
Proof.
  apply (nack_write_parse 77 [65530; 65537; 65550; 70000]).
  - unfold uint; lia.
  - repeat constructor; lia.
  - repeat constructor; unfold uint; lia.
Defined.

(** What a receiver asks to be retransmitted after any sequence of arrivals:
    only numbers below the largest one received that have not been received, and
    all of those within the limit of the largest one (and above the first). *)
Theorem nack_sender_pending n f l :
  uint 64 f -> Forall (uint 64) l ->
  let st := fold_left remember_received l (remember_received (new n) f) in
  let m := fold_left Z.max l f in
  max_received st = Some m /\
  (forall s, s ∈ NackFacts.pending st -> s < m /\ s ∉ f :: l) /\
  (forall s, f < s < m -> s ∉ f :: l -> m - s <= Z.of_nat n -> s ∈ NackFacts.pending st).
Proof.
  intros Hf Hl. destruct (NackFacts.tracks_run n f l Hf Hl) as [E T].
  assert (forall s, s ∉ rev (f :: l) <-> s ∉ f :: l) as R.
  { intros s. rewrite rev_alt. change (s ∉ reverse (f :: l) <-> s ∉ f :: l). by rewrite elem_of_reverse. }
  simpl. split; [apply T|]. split.
  - intros s Hs. destruct (NackFacts.tr_sound _ _ _ _ T s Hs) as [H1 H2].
    split; [done|]. by apply R.
  - intros s Hs Hn Hm. apply (NackFacts.tr_complete _ _ _ _ T); [done|by apply R|by rewrite E].
Qed.

Lemma nack_sender_pending_witness :
  let st := fold_left remember_received [5; 4; 9] (remember_received (new 10) 2) in
  max_received st = Some 9 /\ 6 ∈ NackFacts.pending st /\ 4 ∉ NackFacts.pending st.
Proof.
  destruct (nack_sender_pending 10 2 [5; 4; 9]) as (M & S & C);
    [unfold uint; lia | repeat constructor; unfold uint; lia |].
  split; [exact M|]. split.
  - apply C; [simpl; lia| |simpl; lia]. rewrite !not_elem_of_cons. repeat split; try lia.
    apply not_elem_of_nil.
  - intros H. destruct (S 4 H) as [_ N]. apply N. set_solver.
Defined.

End NackProperties.
