(* ===== verification/Rtx.v ===== *)
(** * Rtx: retransmissions

    [RtxSender] of [src/backend/src/rtp/rtx.rs]: the cache of sent packets and
    the sequence numbers of the retransmission streams. *)
From S2P Require Import Prelude Common Collections Bytes Srtp RtpHeader Packet.
Import RtpTypes.

Module Rtx.

Record RtxSender := mk {
  previously_sent_by_seqnum : TwoGenerationCache.t (Z * Z) Packet.t;
  next_outgoing_seqnum_by_ssrc : gmap Z Z
}.

#[global] Instance RtxSender_eta : Settable RtxSender := fun s =>
  mk (previously_sent_by_seqnum s) (next_outgoing_seqnum_by_ssrc s).

(** [now] is the [Instant::now()] of the constructor. *)
Definition new (limit now : Z) : RtxSender := mk (TwoGenerationCache.new limit now) ∅.

(** [entry(rtx_ssrc).or_insert(1)]: the value and the map with the entry. *)
Definition get_next_seqnum (self : RtxSender) (rtx_ssrc : Z) : Z * RtxSender :=
  match next_outgoing_seqnum_by_ssrc self !! rtx_ssrc with
  | Some seqnum => (seqnum, self)
  | None => (1, self <| next_outgoing_seqnum_by_ssrc ::= <[rtx_ssrc := 1]> |>)
  end.

Definition increment_seqnum (self : RtxSender) (rtx_ssrc : Z) : Z * RtxSender :=
  let '(seqnum, self) := get_next_seqnum self rtx_ssrc in
  (seqnum, self <| next_outgoing_seqnum_by_ssrc ::= <[rtx_ssrc := u64 (seqnum + 1)]> |>).

Definition remember_sent (self : RtxSender) (outgoing : Packet.t) (departed : Z) : RtxSender :=
  if negb (Packet.is_past_deadline outgoing departed) then
    self <| previously_sent_by_seqnum ::= fun c =>
              TwoGenerationCache.insert c (Packet.ssrc outgoing, u16 (Packet.seqnum outgoing))
                outgoing departed |>
  else self.

(** [None] keeps the sender (whose map may have gained the default entry) and
    does not run [get_tcc_seqnum]. *)
Definition resend_as_rtx {S} (self : RtxSender) (ssrc seqnum now : Z) (get_tcc_seqnum : S -> Z * S) (s : S)
    : Res unit (RtxSender * S * option Packet.t) :=
  let rtx_ssrc := to_rtx_ssrc ssrc in
  let '(rtx_seqnum, self) := get_next_seqnum self rtx_ssrc in
  match TwoGenerationCache.get (previously_sent_by_seqnum self) (ssrc, seqnum) with
  | None => Ok (self, s, None)
  | Some previously_sent =>
      if Packet.is_past_deadline previously_sent now
         && Packet.pending_retransmission previously_sent then Ok (self, s, None)
      else if Packet.pending_retransmission previously_sent then Ok (self, s, None)
      else if Packet.is_past_deadline previously_sent now then Ok (self, s, None)
      else
        let previously_sent := previously_sent <| Packet.pending_retransmission := true |> in
        let self := self <| previously_sent_by_seqnum ::= fun c =>
          TwoGenerationCache.update (fun p => p <| Packet.pending_retransmission := true |>) c
            (ssrc, seqnum) |> in
        rtx ← Packet.to_rtx previously_sent rtx_seqnum;
        let '(_, self) := increment_seqnum self rtx_ssrc in
        '(rtx, s) ← Packet.set_tcc_seqnum_in_header_if_present rtx get_tcc_seqnum s;
        Ok (self, s, Some rtx)
  end.

Definition PADDING_PAYLOAD : bytes := replicate 1136 0.

Definition send_padding (self : RtxSender) (rtx_ssrc tcc_seqnum : Z) : Res unit (RtxSender * Packet.t) :=
  let '(rtx_seqnum, self) := increment_seqnum self rtx_ssrc in
  p ← Packet.with_empty_tag PADDING_PAYLOAD_TYPE rtx_seqnum 0 rtx_ssrc (Some tcc_seqnum) None
        PADDING_PAYLOAD;
  Ok (self, p).

Definition remembered_packet_stats (self : RtxSender) : nat * nat :=
  fold_left (fun '(count, sum) kv => (S count, (sum + length (Packet.serialized kv.2))%nat))
    (TwoGenerationCache.iter (previously_sent_by_seqnum self)) (0, 0)%nat.

Definition mark_as_sent (self : RtxSender) (ssrc seqnum : Z) : RtxSender :=
  self <| previously_sent_by_seqnum ::= fun c =>
    TwoGenerationCache.update (fun p => p <| Packet.pending_retransmission := false |>) c
      (ssrc, seqnum) |>.

End Rtx.

(** * Theorems *)

Module RtxFacts.
Import Rtx.

Definition next (st : RtxSender) (ssrc : Z) : Z := default 1 (next_outgoing_seqnum_by_ssrc st !! ssrc).

Lemma get_next_spec st ssrc :
  (get_next_seqnum st ssrc).1 = next st ssrc /\
  (forall x, next (get_next_seqnum st ssrc).2 x = next st x) /\
  previously_sent_by_seqnum (get_next_seqnum st ssrc).2 = previously_sent_by_seqnum st.
Proof.
  unfold get_next_seqnum, next. destruct (next_outgoing_seqnum_by_ssrc st !! ssrc) eqn:E; simpl; [done|].
  split_and!; [done| |done]. intros x. destruct (decide (x = ssrc)) as [->|].
  - by rewrite lookup_insert_eq, E.
  - by rewrite lookup_insert_ne.
Qed.

Lemma increment_spec st ssrc :
  (increment_seqnum st ssrc).1 = next st ssrc /\
  (forall x, next (increment_seqnum st ssrc).2 x =
     if decide (x = ssrc) then u64 (next st ssrc + 1) else next st x) /\
  previously_sent_by_seqnum (increment_seqnum st ssrc).2 = previously_sent_by_seqnum st.
Proof.
  unfold increment_seqnum. destruct (get_next_spec st ssrc) as (E1 & E2 & E3).
  destruct (get_next_seqnum st ssrc) as [q st']. simpl in *. subst q. split_and!; [done| |done].
  intros x. unfold next at 1. simpl. case_decide as Hx.
  - subst x. by rewrite lookup_insert_eq.
  - rewrite lookup_insert_ne by done. apply E2.
Qed.

(** A packet that is already waiting to be retransmitted is not sent again
    until it is marked as sent. *)
Lemma update_get {K V} `{Countable K} (c : TwoGenerationCache.t K V) f k v :
  TwoGenerationCache.get c k = Some v ->
  TwoGenerationCache.get (TwoGenerationCache.update f c k) k = Some (f v).
Proof.
  unfold TwoGenerationCache.get, TwoGenerationCache.update. intros Hg.
  destruct (TwoGenerationCache.generation0 c !! k) eqn:E0; simpl.
  - injection Hg as <-. by rewrite lookup_insert_eq.
  - rewrite Hg. simpl. rewrite E0. by rewrite lookup_insert_eq.
Qed.

Lemma resend_twice st ssrc seqnum now now' {S} (get : S -> Z * S) s st' s' p :
  resend_as_rtx st ssrc seqnum now get s = Ok (st', s', Some p) ->
  exists st'', resend_as_rtx st' ssrc seqnum now' get s' = Ok (st'', s', None).
Proof.
  unfold resend_as_rtx at 1. destruct (get_next_spec st (to_rtx_ssrc ssrc)) as (E1 & E2 & E3).
  destruct (get_next_seqnum st (to_rtx_ssrc ssrc)) as [q st2]. simpl in *.
  destruct (TwoGenerationCache.get _ _) as [prev|] eqn:Eg; [|done].
  intros H. repeat (case_if_in H; [done|]).
  apply bind_Ok in H as (r & Hr & H).
  match type of H with context [increment_seqnum ?x ?k] =>
    destruct (increment_spec x k) as (_ & _ & F3); destruct (increment_seqnum x k) as [q' st3] end.
  simpl in F3. apply bind_Ok in H as ([r' s1] & Hr' & H). injection H as <- <- <-.
  unfold resend_as_rtx. destruct (get_next_spec st3 (to_rtx_ssrc ssrc)) as (_ & _ & G3).
  destruct (get_next_seqnum st3 (to_rtx_ssrc ssrc)) as [q'' st4]. simpl in G3.
  rewrite G3, F3. rewrite (update_get _ _ _ prev Eg). cbn [Packet.pending_retransmission set_field].
  rewrite andb_true_r. case_if; by eexists.
Qed.

End RtxFacts.

Module RtxProperties.
Import Rtx.

(** A packet that has been handed out for retransmission is not handed out
    again, at any later time, until it is marked as sent: a second request for
    it right after the first sends nothing. *)
Theorem rtx_pending_not_resent st ssrc seqnum now now' {S} (get : S -> Z * S) s st' s' p :
  resend_as_rtx st ssrc seqnum now get s = Ok (st', s', Some p) ->
  exists st'', resend_as_rtx st' ssrc seqnum now' get s' = Ok (st'', s', None).
Proof. apply RtxFacts.resend_twice. Qed.

Lemma rtx_pending_not_resent_witness :
  exists st st' p st'',
    resend_as_rtx st 1 7 20 (fun s : unit => (0, s)) tt = Ok (st', tt, Some p) /\
    resend_as_rtx st' 1 7 30 (fun s : unit => (0, s)) tt = Ok (st'', tt, None).
Proof.
  pose (pkt := match Packet.with_empty_tag (E:=unit) 108 7 0 1 None (Some 0) [1; 2] with
               | Ok p => Some p | _ => None end).
  pose (st := match pkt with Some p => remember_sent (new 100 0) p 10 | None => new 100 0 end).
  destruct (resend_as_rtx st 1 7 20 (fun s : unit => (0, s)) tt)
    as [[[st' []] [p|]]| |] eqn:E; [|vm_compute in E; discriminate E..].
  destruct (rtx_pending_not_resent st 1 7 20 30 _ tt st' tt p E) as [st'' E'].
  exists st, st', p, st''. split; assumption.
Defined.

End RtxProperties.
