(* ===== verification/Rtcp.v ===== *)
(** * Rtcp: control packets and reports on the wire

    [src/backend/src/rtp/rtcp.rs]: SRTCP encryption and decryption, compound
    packets, sender and receiver reports with their report blocks.  The error of
    a report that cannot be parsed is only logged; it is an [Error] here. *)
From S2P Require Import Prelude Common Bytes Srtp Nack.
Import Read Serialize.

Definition RTCP_HEADER_LEN : nat := 8.
Definition RTCP_RECEIVER_REPORT_BLOCK_LEN : nat := 28.
Definition RTCP_PAYLOAD_TYPE_OFFSET : nat := 1.
Definition RTCP_PAYLOAD_LEN_RANGE : nat * nat := (2, 4)%nat.
Definition RTCP_SENDER_SSRC_RANGE : nat * nat := (4, 8)%nat.
Definition SRTCP_FOOTER_LEN : nat := 4.
Definition SRTCP_TAG_LEN : nat := 16.
Definition RTCP_TYPE_SENDER_REPORT : Z := 200.
Definition RTCP_TYPE_RECEIVER_REPORT : Z := 201.
Definition RTCP_TYPE_SDES : Z := 202.
Definition RTCP_TYPE_BYE : Z := 203.
Definition RTCP_TYPE_GENERIC_FEEDBACK : Z := 205.
Definition RTCP_TYPE_SPECIFIC_FEEDBACK : Z := 206.
Definition RTCP_TYPE_EXTENDED_REPORT : Z := 207.
Definition RTCP_FORMAT_NACK : Z := 1.
Definition RTCP_FORMAT_PLI : Z := 1.
Definition RTCP_FORMAT_LOSS_NOTIFICATION : Z := 15.
Definition RTCP_FORMAT_TRANSPORT_CC : Z := 15.
Definition RTP_VERSION : Z := 2.

Definition is_padded_mask (is_padded : bool) : Z := if is_padded then 32 else 0.

(** ** The header all packets start with *)
Module RtcpHeader.

Record t := mk {
  has_padding : bool;
  count_or_format : Z;
  payload_type : Z;
  length_in_words : Z
}.

Definition LENGTH : nat := 4.

Definition from_bytes {E} (value : bytes) : Res E t :=
  b0 ← idx value 0;
  b1 ← idx value 1;
  len ← slice 2 4 value; length_in_words ← parse_u16 len;
  Ok (mk (0 <? Z.land b0 32) (Z.land b0 31) b1 length_in_words).

Definition packet_length_in_bytes (self : t) : nat := ((Z.to_nat (length_in_words self) + 1) * 4)%nat.

#[global] Instance writer : Writer t := {
  written_len _ := LENGTH;
  write self out :=
    write (w16 (length_in_words self))
      (write [Z.lor (Z.lor (Z.shiftl RTP_VERSION 6) (is_padded_mask (has_padding self)))
                    (count_or_format self);
              payload_type self] out)
}.

End RtcpHeader.

Module Report.

Inductive Error :=
| TooFewBytes
| WrongPayloadType (payload_type : Z)
| WrongLength (header_length report_count : nat) (actual : nat).

End Report.

Module ReportBlock.

Record t := mk {
  ssrc : Z;
  fraction_loss : Z;
  cumulative_loss_count : Z;
  highest_sequence_num : Z;
  jitter : Z;
  last_sender_report : Z;
  delay_last_sender_report : Z
}.

Definition LENGTH : nat := 24.

Definition from_bytes (value : bytes) : Res Report.Error t :=
  if (length value <? LENGTH)%nat then Err Report.TooFewBytes
  else
    s ← slice 0 4 value; ssrc ← parse_u32 s;
    fraction_loss ← idx value 4;
    s ← slice 5 8 value; cumulative_loss_count ← parse_u24 s;
    s ← slice 8 12 value; highest_sequence_num ← parse_u32 s;
    s ← slice 12 16 value; jitter ← parse_u32 s;
    s ← slice 16 20 value; last_sender_report ← parse_u32 s;
    s ← slice 20 24 value; delay_last_sender_report ← parse_u32 s;
    Ok (mk ssrc fraction_loss cumulative_loss_count highest_sequence_num jitter
           last_sender_report delay_last_sender_report).

#[global] Instance writer : Writer t := {
  written_len _ := LENGTH;
  write self out :=
    write (w32 (delay_last_sender_report self))
      (write (w32 (last_sender_report self))
        (write (w32 (jitter self))
          (write (w32 (highest_sequence_num self))
            (write (w24 (cumulative_loss_count self))
              (write [fraction_loss self] (write (w32 (ssrc self)) out))))))
}.

(** The [while report_blocks.len() < report_count] loop. *)
Fixpoint read_blocks (report_count : nat) (bytes_left : bytes) : Res Report.Error (list t) :=
  match report_count with
  | O => Ok []
  | S n =>
      block ← from_bytes bytes_left;
      bytes_left ← slice_from LENGTH bytes_left;
      rest ← read_blocks n bytes_left;
      Ok (block :: rest)
  end.

End ReportBlock.

Module SenderInfo.

Record t := mk {
  ssrc : Z;
  ntp_ts : Z;
  rtp_ts : Z;
  packet_count : Z;
  octet_count : Z
}.

Definition SENDER_INFO_LENGTH : nat := 24.

Definition from_bytes {E} (b : bytes) : Res E t :=
  s ← slice 0 4 b; ssrc ← parse_u32 s;
  s ← slice 4 12 b; ntp_ts ← parse_u64 s;
  s ← slice 12 16 b; rtp_ts ← parse_u32 s;
  s ← slice 16 20 b; packet_count ← parse_u32 s;
  s ← slice 20 24 b; octet_count ← parse_u32 s;
  Ok (mk ssrc ntp_ts rtp_ts packet_count octet_count).

#[global] Instance writer : Writer t := {
  written_len _ := SENDER_INFO_LENGTH;
  write self out :=
    write (w32 (octet_count self))
      (write (w32 (packet_count self))
        (write (w32 (rtp_ts self))
          (write (w64 (ntp_ts self)) (write (w32 (ssrc self)) out))))
}.

End SenderInfo.

Module SenderReport.

Record t := mk {
  header : RtcpHeader.t;
  sender_info : SenderInfo.t;
  report_blocks : list ReportBlock.t
}.

Definition from_bytes_after_header (value : bytes) (header : RtcpHeader.t)
    : Res Report.Error t :=
  if negb (RtcpHeader.payload_type header =? RTCP_TYPE_SENDER_REPORT)
  then Err (Report.WrongPayloadType (RtcpHeader.payload_type header))
  else
    let header_length := (Z.to_nat (RtcpHeader.length_in_words header) * 4)%nat in
    let report_count := Z.to_nat (RtcpHeader.count_or_format header) in
    let minimum_expected_length :=
      (SenderInfo.SENDER_INFO_LENGTH + report_count * ReportBlock.LENGTH)%nat in
    if (header_length <? minimum_expected_length)%nat || (length value <? header_length)%nat
    then Err (Report.WrongLength header_length report_count (length value))
    else
      sender_info ← SenderInfo.from_bytes value;
      bytes_left ← slice_from SenderInfo.SENDER_INFO_LENGTH value;
      report_blocks ← ReportBlock.read_blocks report_count bytes_left;
      Ok (mk header sender_info report_blocks).

Definition ssrc (self : t) : Z := SenderInfo.ssrc (sender_info self).

#[global] Instance writer : Writer t := {
  written_len self := RtcpHeader.packet_length_in_bytes (header self);
  write self out :=
    fold_left (fun out report => write report out) (report_blocks self)
      (write (sender_info self) (write (header self) out))
}.

End SenderReport.

Module ReceiverReport.

Record t := mk {
  header : RtcpHeader.t;
  sender_ssrc : Z;
  report_blocks : list ReportBlock.t
}.

Definition SSRC_LENGTH : nat := 4.

Definition from_bytes_after_header (value : bytes) (header : RtcpHeader.t)
    : Res Report.Error t :=
  if negb (RtcpHeader.payload_type header =? RTCP_TYPE_RECEIVER_REPORT)
  then Err (Report.WrongPayloadType (RtcpHeader.payload_type header))
  else
    let header_length := (Z.to_nat (RtcpHeader.length_in_words header) * 4)%nat in
    let report_count := Z.to_nat (RtcpHeader.count_or_format header) in
    let minimum_expected_length := (SSRC_LENGTH + report_count * ReportBlock.LENGTH)%nat in
    if (header_length <? minimum_expected_length)%nat || (length value <? header_length)%nat
    then Err (Report.WrongLength header_length report_count (length value))
    else
      s ← slice 0 SSRC_LENGTH value; sender_ssrc ← parse_u32 s;
      bytes_left ← slice_from SSRC_LENGTH value;
      report_blocks ← ReportBlock.read_blocks report_count bytes_left;
      Ok (mk header sender_ssrc report_blocks).

Definition ssrc (self : t) : Z := sender_ssrc self.

End ReceiverReport.

(** ** Control packets *)
Module ControlPacket.

(** [key_frame_requests] are the SSRCs requested. *)
Record t := mk {
  key_frame_requests : list Z;
  tcc_feedbacks : list bytes;
  nacks : list Nack.t;
  sender_reports : list SenderReport.t;
  receiver_reports : list ReceiverReport.t
}.

#[global] Instance t_eta : Settable t := fun p =>
  mk (key_frame_requests p) (tcc_feedbacks p) (nacks p) (sender_reports p) (receiver_reports p).

Definition default : t := mk [] [] [] [] [].

Definition rtcp_iv (sender_ssrc index : Z) (salt : bytes) : option bytes :=
  if 2 ^ 31 <=? index then None
  else
    Some (zip_with Z.lxor
            ([0; 0] ++ be_bytes 4 sender_ssrc ++ [0; 0] ++ be_bytes 4 index) salt).

(** [split_at_mut(len - n)], which panics when there are fewer than [n] bytes. *)
Definition split_end {E} (n : nat) (l : bytes) : Res E (bytes * bytes) :=
  _ ← assert_ (n <=? length l)%nat;
  Ok (take (length l - n) l, drop (length l - n) l).

Section Crypto.
Context `{Aead}.

(** The nonce, the header, the payload, the tag and the footer; the associated
    data are the header and the footer. *)
Definition prepare_for_crypto (packet : bytes) (sender_ssrc srtcp_index : Z) (salt : bytes)
    : Res unit (bytes * bytes * bytes * bytes * bytes) :=
  '(header, payload_plus_tag_plus_footer) ← unwrap (checked_split_at packet RTCP_HEADER_LEN);
  '(payload_plus_tag, footer) ← split_end SRTCP_FOOTER_LEN payload_plus_tag_plus_footer;
  '(payload, tag) ← split_end SRTCP_TAG_LEN payload_plus_tag;
  iv ← ok_or tt (rtcp_iv sender_ssrc srtcp_index salt);
  Ok (iv, header, payload, tag, footer).

Definition report {A} (m : Res Report.Error A) : Res unit (option A) := ok_opt m.

(** The [match] of the loop body on one packet of a compound packet. *)
Definition add_packet (incoming : t) (header : RtcpHeader.t) (payload : bytes) : Res unit t :=
  ignore_sender_ssrc_payload ← slice_from 4 payload;
  let pt := RtcpHeader.payload_type header in
  let fmt := RtcpHeader.count_or_format header in
  if pt =? RTCP_TYPE_SENDER_REPORT then
    o ← report (SenderReport.from_bytes_after_header payload header);
    Ok (match o with
        | Some r => incoming <| sender_reports ::= fun l => l ++ [r] |>
        | None => incoming
        end)
  else if pt =? RTCP_TYPE_RECEIVER_REPORT then
    o ← report (ReceiverReport.from_bytes_after_header payload header);
    Ok (match o with
        | Some r => incoming <| receiver_reports ::= fun l => l ++ [r] |>
        | None => incoming
        end)
  else if (pt =? RTCP_TYPE_EXTENDED_REPORT) || (pt =? RTCP_TYPE_SDES) || (pt =? RTCP_TYPE_BYE)
  then Ok incoming
  else if (pt =? RTCP_TYPE_SPECIFIC_FEEDBACK) && (fmt =? RTCP_FORMAT_LOSS_NOTIFICATION)
  then Ok incoming
  else if (pt =? RTCP_TYPE_GENERIC_FEEDBACK) && (fmt =? RTCP_FORMAT_NACK) then
    o ← ok_opt (Nack.parse_nack ignore_sender_ssrc_payload);
    Ok (match o with
        | Some n => incoming <| nacks ::= fun l => l ++ [n] |>
        | None => incoming
        end)
  else if (pt =? RTCP_TYPE_GENERIC_FEEDBACK) && (fmt =? RTCP_FORMAT_TRANSPORT_CC) then
    Ok (incoming <| tcc_feedbacks ::= fun l => l ++ [ignore_sender_ssrc_payload] |>)
  else if (pt =? RTCP_TYPE_SPECIFIC_FEEDBACK) && (fmt =? RTCP_FORMAT_PLI) then
    if (length ignore_sender_ssrc_payload <? 4)%nat then Err tt
    else
      s ← slice 0 4 ignore_sender_ssrc_payload; ssrc ← parse_u32 s;
      Ok (incoming <| key_frame_requests ::= fun l => l ++ [ssrc] |>)
  else Ok incoming.

(** The [while] loop over a compound packet: each round takes at least 8 bytes. *)
Fixpoint parse_compound (fuel : nat) (incoming : t) (compound_packets : bytes) : Res unit t :=
  if (length compound_packets <? RtcpHeader.LENGTH)%nat then Ok incoming
  else
    match fuel with
    | O => Panic
    | S fuel =>
        header ← RtcpHeader.from_bytes compound_packets;
        if RtcpHeader.length_in_words header =? 0 then Err tt
        else
          '(packet, after_packet) ←
            ok_or tt (checked_split_at compound_packets (RtcpHeader.packet_length_in_bytes header));
          payload ← slice_from RtcpHeader.LENGTH packet;
          incoming ← add_packet incoming header payload;
          parse_compound fuel incoming after_packet
    end.

Definition parse_and_decrypt_in_place (serialized key salt : bytes) : Res unit t :=
  if (length serialized <? RTCP_HEADER_LEN + SRTCP_TAG_LEN + SRTCP_FOOTER_LEN)%nat then Err tt
  else
    s ← slice RTCP_SENDER_SSRC_RANGE.1 RTCP_SENDER_SSRC_RANGE.2 serialized;
    sender_ssrc ← parse_u32 s;
    footer ← slice_from (length serialized - SRTCP_FOOTER_LEN) serialized;
    f0 ← idx footer 0;
    let encrypted := 0 <? Z.land f0 128 in
    index ← parse_u32 footer;
    let srtcp_index := Z.land index 2147483647 in
    if negb encrypted then Err tt
    else
      '(nonce, header, ciphertext, tag, footer) ←
        prepare_for_crypto serialized sender_ssrc srtcp_index salt;
      plaintext ← ok_or tt (open key nonce (header ++ footer) ciphertext tag);
      let serialized := header ++ plaintext ++ tag ++ footer in
      compound_packets ←
        slice_to (length serialized - SRTCP_TAG_LEN - SRTCP_FOOTER_LEN) serialized;
      parse_compound (length compound_packets) default compound_packets.

Definition encrypt (packet : bytes) (sender_ssrc srtcp_index : Z) (key salt : bytes)
    : Res unit bytes :=
  let packet_len := length packet in
  packet ←
    copy_from_slice (packet_len - SRTCP_FOOTER_LEN) packet_len
      (be_bytes 4 (Z.lor srtcp_index 2147483648)) packet;
  '(nonce, header, plaintext, tag, footer) ← prepare_for_crypto packet sender_ssrc srtcp_index salt;
  '(ciphertext, computed_tag) ← ok_or tt (seal key nonce (header ++ footer) plaintext);
  _ ← assert_ (length tag =? length computed_tag)%nat;
  Ok (header ++ ciphertext ++ computed_tag ++ footer).

Definition serialize_and_encrypt {W} `{Writer W} (pt count_or_format : Z) (is_padded : bool)
    (sender_ssrc : Z) (payload_writer : W) (srtcp_index : Z) (key salt : bytes) : Res unit bytes :=
  let padded_payload_len := Math.round_up_to_multiple_of 4 (written_len payload_writer) in
  let serialized :=
    replicate (RTCP_HEADER_LEN + padded_payload_len + SRTCP_TAG_LEN + SRTCP_FOOTER_LEN) 0 in
  let padded_payload_len_in_words_plus_1 := u16 (Z.of_nat padded_payload_len / 4 + 1) in
  serialized ←
    copy_from_slice 0 1
      [Z.lor (Z.lor (Z.shiftl RTP_VERSION 6) (is_padded_mask is_padded)) count_or_format] serialized;
  serialized ← copy_from_slice RTCP_PAYLOAD_TYPE_OFFSET (S RTCP_PAYLOAD_TYPE_OFFSET) [pt] serialized;
  serialized ←
    copy_from_slice RTCP_PAYLOAD_LEN_RANGE.1 RTCP_PAYLOAD_LEN_RANGE.2
      (be_bytes 2 padded_payload_len_in_words_plus_1) serialized;
  serialized ←
    copy_from_slice RTCP_SENDER_SSRC_RANGE.1 RTCP_SENDER_SSRC_RANGE.2 (be_bytes 4 sender_ssrc)
      serialized;
  serialized ←
    copy_from_slice RTCP_HEADER_LEN (RTCP_HEADER_LEN + written_len payload_writer)
      (to_vec payload_writer) serialized;
  encrypt serialized sender_ssrc srtcp_index key salt.

End Crypto.

End ControlPacket.

(** * Theorems *)

Module RtcpFacts.
Import ReadFacts SerializeFacts.

Ltac slice_parses :=
  repeat rewrite slice_parse_be by (first [reflexivity | lia]).

Lemma idx_default {E B} (l : bytes) i (f : Z -> Res E B) :
  (i < length l)%nat -> (x ← idx l i; f x) = f (default 0 (l !! i)).
Proof. intros [x Hx]%lookup_lt_is_Some. unfold idx. by rewrite Hx. Qed.

Lemma header_from_bytes {E} (l : bytes) : (4 <= length l)%nat ->
  RtcpHeader.from_bytes (E:=E) l =
    Ok (RtcpHeader.mk (0 <? Z.land (default 0 (l !! 0%nat)) 32) (Z.land (default 0 (l !! 0%nat)) 31)
          (default 0 (l !! 1%nat)) (be_val (take 2 (drop 2 l)))).
Proof.
  intros. unfold RtcpHeader.from_bytes. rewrite !idx_default by lia. unfold parse_u16.
  by slice_parses.
Qed.

Lemma block_from_bytes l : (24 <= length l)%nat ->
  ReportBlock.from_bytes l =
    Ok (ReportBlock.mk (be_val (take 4 (drop 0 l))) (default 0 (l !! 4%nat))
          (be_val (take 3 (drop 5 l))) (be_val (take 4 (drop 8 l))) (be_val (take 4 (drop 12 l)))
          (be_val (take 4 (drop 16 l))) (be_val (take 4 (drop 20 l)))).
Proof.
  intros. unfold ReportBlock.from_bytes, ReportBlock.LENGTH.
  destruct (Nat.ltb_spec (length l) 24); [lia|]. unfold parse_u32, parse_u24.
  slice_parses. rewrite idx_default by lia. by slice_parses.
Qed.

Lemma info_from_bytes {E} l : (24 <= length l)%nat ->
  SenderInfo.from_bytes (E:=E) l =
    Ok (SenderInfo.mk (be_val (take 4 (drop 0 l))) (be_val (take 8 (drop 4 l)))
          (be_val (take 4 (drop 12 l))) (be_val (take 4 (drop 16 l))) (be_val (take 4 (drop 20 l)))).
Proof.
  intros. unfold SenderInfo.from_bytes, parse_u32, parse_u64. by slice_parses.
Qed.

(** Blocks that are there are read, whatever follows. *)
Lemma read_blocks_total n : forall l, (n * 24 <= length l)%nat ->
  exists bs, ReportBlock.read_blocks n l = Ok bs /\ length bs = n.
Proof.
  induction n as [|n IH]; intros l Hl; simpl; [by exists []|].
  rewrite block_from_bytes by lia. rewrite mbind_Ok.
  rewrite slice_from_ok by (unfold ReportBlock.LENGTH; lia). rewrite mbind_Ok.
  destruct (IH (drop ReportBlock.LENGTH l)) as (bs & -> & Hb).
  { rewrite length_drop. unfold ReportBlock.LENGTH. lia. }
  rewrite mbind_Ok. eexists. split; [reflexivity|]. simpl. by rewrite Hb.
Qed.

Lemma sender_report_no_panic v h : SenderReport.from_bytes_after_header v h ≠ Panic.
Proof.
  unfold SenderReport.from_bytes_after_header, SenderInfo.SENDER_INFO_LENGTH. case_if; [done|].
  case_if; [done|]. boolsplit. unfold ReportBlock.LENGTH in *.
  rewrite info_from_bytes by lia. rewrite mbind_Ok, slice_from_ok by lia. rewrite mbind_Ok.
  edestruct (read_blocks_total (Z.to_nat (RtcpHeader.count_or_format h)) (drop 24 v))
    as (bs & -> & _); [rewrite length_drop; lia|]. done.
Qed.

Lemma receiver_report_no_panic v h : ReceiverReport.from_bytes_after_header v h ≠ Panic.
Proof.
  unfold ReceiverReport.from_bytes_after_header, ReceiverReport.SSRC_LENGTH. case_if; [done|].
  case_if; [done|]. boolsplit. unfold ReportBlock.LENGTH, parse_u32 in *.
  slice_parses. rewrite slice_from_ok by lia. rewrite mbind_Ok.
  edestruct (read_blocks_total (Z.to_nat (RtcpHeader.count_or_format h)) (drop 4 v))
    as (bs & -> & _); [rewrite length_drop; lia|]. done.
Qed.

Lemma read_u16_be_cases r :
  (length r < 2)%nat /\ Nack.read_u16_be r = Err tt \/
  (2 <= length r)%nat /\ Nack.read_u16_be r = Ok (be_val (take 2 r), drop 2 r).
Proof.
  unfold Nack.read_u16_be, read_slice. destruct (Nat.ltb_spec (length r) 2); [by left|by right].
Qed.

Lemma parse_entries_no_panic fuel : forall r, (length r <= fuel)%nat ->
  Nack.parse_entries fuel r ≠ Panic.
Proof.
  induction fuel as [|fuel IH]; intros [|x r] Hl; simpl in Hl; try done; [lia|].
  cbn [Nack.parse_entries].
  destruct (read_u16_be_cases (x :: r)) as [[_ ->]|[H2 ->]]; [done|]. rewrite mbind_Ok.
  destruct (read_u16_be_cases (drop 2 (x :: r))) as [[_ ->]|[H4 ->]]; [done|]. rewrite mbind_Ok.
  apply bind_no_panic; [|done]. apply IH. rewrite !length_drop. simpl. lia.
Qed.

Lemma parse_nack_no_panic p : Nack.parse_nack p ≠ Panic.
Proof.
  unfold Nack.parse_nack, Nack.read_u32_be, read_slice. case_if; [done|]. cbn [ok_or].
  rewrite !mbind_Ok. apply bind_no_panic; [|done]. by apply parse_entries_no_panic.
Qed.

Lemma ok_opt_no_panic {E F A} (m : Res E A) : m ≠ Panic -> ok_opt (F:=F) m ≠ Panic.
Proof. by destruct m. Qed.

Lemma be2 z : exists a b, be_bytes 2 z = [a; b].
Proof. by do 2 eexists. Qed.
Lemma be4 z : exists a b c d, be_bytes 4 z = [a; b; c; d].
Proof. by do 4 eexists. Qed.

Section Crypto.
Context `{AeadLaws}.
Import ControlPacket.

Lemma add_packet_no_panic i h p : (4 <= length p)%nat -> add_packet i h p ≠ Panic.
Proof.
  intros Hp. unfold add_packet. rewrite slice_from_ok by done. rewrite mbind_Ok. cbn zeta.
  repeat case_if; try done; try (apply bind_no_panic; [|done]; apply ok_opt_no_panic).
  - apply sender_report_no_panic.
  - apply receiver_report_no_panic.
  - apply parse_nack_no_panic.
  - unfold parse_u32. boolsplit. rewrite slice_parse_be; [done|reflexivity|lia].
Qed.

Lemma parse_compound_no_panic fuel : forall i l, bytes_ok l -> (length l <= fuel)%nat ->
  parse_compound fuel i l ≠ Panic.
Proof.
  induction fuel as [|fuel IH]; intros i l Hb Hl; cbn [parse_compound]; case_if; try done; boolsplit.
  { unfold RtcpHeader.LENGTH in *. lia. }
  unfold RtcpHeader.LENGTH in *. rewrite header_from_bytes by lia. rewrite mbind_Ok.
  case_if; [done|]. simpl in *. boolsplit.
  assert (0 <= be_val (take 2 (drop 2 l))) as Hv.
  { apply be_val_uint. by apply Forall_take, Forall_drop. }
  destruct (checked_split_at l _) as [[a b]|] eqn:Es; [|done].
  apply checked_split_at_Some in Es as (Hlen & -> & ->).
  unfold RtcpHeader.packet_length_in_bytes in *. simpl in *.
  set (n := ((_ + 1) * 4)%nat) in *. assert (8 <= n)%nat as Hn by (unfold n; lia).
  rewrite slice_from_ok by (rewrite length_take; lia). rewrite mbind_Ok.
  apply bind_no_panic.
  - apply add_packet_no_panic. rewrite length_drop, length_take. lia.
  - intros i' _. apply IH; [by apply Forall_drop|]. rewrite length_drop. lia.
Qed.

(** The parts of a packet that is long enough. *)
Lemma prepare_for_crypto_ok l ssrc index salt : (28 <= length l)%nat ->
  prepare_for_crypto l ssrc index salt =
    match rtcp_iv ssrc index salt with
    | Some iv =>
        Ok (iv, take 8 l, take (length l - 28) (drop 8 l), take 16 (drop (length l - 20) l),
            drop (length l - 4) l)
    | None => Err tt
    end.
Proof.
  intros Hl. unfold prepare_for_crypto, RTCP_HEADER_LEN, SRTCP_FOOTER_LEN, SRTCP_TAG_LEN, split_end.
  unfold checked_split_at. destruct (Nat.ltb_spec (length l) 8); [lia|]. cbn [unwrap].
  rewrite mbind_Ok, length_drop. rewrite (proj2 (Nat.leb_le _ _)) by lia. cbn [assert_].
  rewrite !mbind_Ok, length_take, length_drop.
  rewrite (proj2 (Nat.leb_le _ _)) by lia. cbn [assert_]. rewrite !mbind_Ok.
  destruct (rtcp_iv ssrc index salt); [|done]. cbn [ok_or]. rewrite mbind_Ok.
  rewrite take_take, drop_drop, !Nat.min_l by lia. do 2 f_equal; [f_equal; [f_equal|]|].
  - f_equal. lia.
  - replace (length l - 8 - 4)%nat with ((length l - 8 - 4 - 16) + 16)%nat at 2 by lia.
    rewrite <- take_drop_commute, drop_drop. do 2 f_equal. lia.
  - f_equal. lia.
Qed.

Lemma parse_and_decrypt_no_panic l key salt :
  bytes_ok l -> parse_and_decrypt_in_place l key salt ≠ Panic.
Proof.
  intros Hb. unfold parse_and_decrypt_in_place, RTCP_HEADER_LEN, SRTCP_FOOTER_LEN, SRTCP_TAG_LEN.
  case_if; [done|]. boolsplit. simpl in *. unfold parse_u32.
  rewrite slice_parse_be by (first [reflexivity|lia]).
  rewrite slice_from_ok by lia. rewrite mbind_Ok.
  rewrite idx_default by (rewrite length_drop; lia).
  rewrite parse_be_ok by (rewrite length_drop; lia). rewrite mbind_Ok. case_if; [done|].
  rewrite prepare_for_crypto_ok by lia. destruct (rtcp_iv _ _ salt) as [iv|]; [|done].
  rewrite mbind_Ok. destruct (open _ _ _ _ _) as [pt|] eqn:Eo; [|done]. cbn [ok_or].
  rewrite mbind_Ok. pose proof (open_length _ _ _ _ _ _ Eo) as Hpt.
  apply open_bytes in Eo; [|by apply Forall_take, Forall_drop].
  rewrite length_take, length_drop in Hpt.
  rewrite slice_to_ok by (rewrite !length_app; lia). rewrite mbind_Ok.
  apply parse_compound_no_panic; [|done].
  apply Forall_take. repeat apply Forall_app_2; auto using Forall_take, Forall_drop.
Qed.

(** ** Encryption round trip *)

Lemma prepare_parts h p t f ssrc index salt iv :
  length h = 8%nat -> length t = 16%nat -> length f = 4%nat ->
  rtcp_iv ssrc index salt = Some iv ->
  prepare_for_crypto (h ++ p ++ t ++ f) ssrc index salt = Ok (iv, h, p, t, f).
Proof.
  intros Hh Ht Hf Hiv. rewrite prepare_for_crypto_ok, Hiv by (rewrite !length_app; lia).
  rewrite !length_app, Hh, Ht, Hf. do 2 f_equal; [f_equal; [f_equal; [f_equal|]|]|].
  - by apply take_app_length'.
  - rewrite drop_app_length' by done. apply take_app_length'. lia.
  - rewrite app_assoc, drop_app_length' by (rewrite length_app; lia). by apply take_app_length'.
  - rewrite !app_assoc. apply drop_app_length'. rewrite !length_app. lia.
Qed.

Definition footer (index : Z) : bytes := be_bytes 4 (Z.lor index 2147483648).

Lemma encrypt_parts h p t f ssrc index key salt iv c tag :
  length h = 8%nat -> length t = 16%nat -> length f = 4%nat ->
  rtcp_iv ssrc index salt = Some iv -> seal key iv (h ++ footer index) p = Some (c, tag) ->
  encrypt (h ++ p ++ t ++ f) ssrc index key salt = Ok (h ++ c ++ tag ++ footer index).
Proof.
  intros Hh Ht Hf Hiv Hs. pose proof (seal_length _ _ _ _ _ _ Hs) as [Hc Htag].
  unfold encrypt. cbn zeta. unfold SRTCP_FOOTER_LEN.
  rewrite copy_from_slice_ok by (rewrite ?length_be_bytes, ?length_app; lia). rewrite mbind_Ok.
  rewrite !app_assoc, take_app_length', drop_ge by (rewrite !length_app; lia).
  rewrite app_nil_r. change (be_bytes 4 (Z.lor index 2147483648)) with (footer index).
  rewrite <- !app_assoc. rewrite (prepare_parts h p t _ ssrc index salt iv) by done. rewrite mbind_Ok.
  rewrite Hs. cbn [ok_or]. rewrite mbind_Ok, Ht, Htag. done.
Qed.

(** The footer carries the index and the encryption flag. *)
Lemma footer_value index : 0 <= index < 2 ^ 31 ->
  be_val (footer index) = index + 2 ^ 31 /\ (0 <? Z.land (option.default 0 (footer index !! 0%nat)) 128) = true.
Proof.
  intros Hi. unfold footer. rewrite Z.lor_comm, (lor_add_low 31); [|lia|reflexivity|unfold uint; lia].
  split.
  - rewrite be_val_be_bytes, wrap_small; [lia|]. unfold uint. simpl. lia.
  - assert (option.default 0 (be_bytes 4 (2147483648 + index) !! 0%nat) =
      Z.land (Z.shiftr (Z.shiftr (Z.shiftr (2147483648 + index) 8) 8) 8) 255) as -> by reflexivity.
    rewrite !Z.shiftr_shiftr by lia. rewrite Z.shiftr_div_pow2 by lia.
    change (2 ^ (8 + (8 + 8))) with 16777216.
    assert (128 <= (2147483648 + index) / 16777216 < 256) as Hd by dlia.
    generalize dependent ((2147483648 + index) / 16777216). intros q Hq.
    assert (Z.testbit (Z.land (Z.land q 255) 128) 7 = true) as Hb.
    { rewrite !Z.land_spec. change (Z.testbit 255 7) with true. change (Z.testbit 128 7) with true.
      rewrite !andb_true_r. apply Z.testbit_true; [lia|]. change (2 ^ 7) with 128.
      assert (q / 128 = 1) as -> by dlia. done. }
    apply Z.ltb_lt. assert (0 <= Z.land (Z.land q 255) 128) by (apply Z.land_nonneg; lia).
    destruct (Z.eq_dec (Z.land (Z.land q 255) 128) 0) as [E|]; [|lia]. by rewrite E in Hb.
Qed.

Lemma iv_some ssrc index salt : index < 2 ^ 31 -> is_Some (rtcp_iv ssrc index salt).
Proof. intros. unfold rtcp_iv. destruct (Z.leb_spec (2 ^ 31) index); [lia|by eexists]. Qed.

(** Encryption refuses, or ends the packet with its index. *)
Lemma encrypt_cases packet ssrc index key salt : (28 <= length packet)%nat ->
  encrypt packet ssrc index key salt = Err tt \/
  exists b, encrypt packet ssrc index key salt = Ok b /\ index < 2 ^ 31 /\
    length b = length packet /\ drop (length b - 4) b = footer index.
Proof.
  intros Hl.
  set (h := take 8 packet). set (p := take (length packet - 28) (drop 8 packet)).
  set (t := take 16 (drop (length packet - 20) packet)). set (f := drop (length packet - 4) packet).
  assert (packet = h ++ p ++ t ++ f) as E.
  { unfold h, p, t, f. rewrite <- (take_drop 8 packet) at 1. f_equal.
    rewrite <- (take_drop (length packet - 28) (drop 8 packet)) at 1. f_equal. rewrite drop_drop.
    rewrite <- (take_drop 16 (drop (8 + (length packet - 28)) packet)) at 1. rewrite drop_drop.
    do 2 f_equal; [f_equal|]; lia. }
  assert (length h = 8%nat) as Hh by (unfold h; rewrite length_take; lia).
  assert (length t = 16%nat) as Ht by (unfold t; rewrite length_take, length_drop; lia).
  assert (length f = 4%nat) as Hf by (unfold f; rewrite length_drop; lia).
  rewrite E. destruct (rtcp_iv ssrc index salt) as [iv|] eqn:Hiv.
  - destruct (seal key iv (h ++ footer index) p) as [[c tag]|] eqn:Hs.
    + right. exists (h ++ c ++ tag ++ footer index).
      pose proof (seal_length _ _ _ _ _ _ Hs) as [Hc Htag].
      split; [by apply (encrypt_parts h p t f ssrc index key salt iv)|]. split.
      { unfold rtcp_iv in Hiv. destruct (Z.leb_spec (2 ^ 31) index); [done|lia]. }
      assert (length (footer index) = 4%nat) as Hfl by apply length_be_bytes.
      split; [rewrite !length_app; lia|]. rewrite !app_assoc. apply drop_app_length'.
      rewrite !length_app. lia.
    + left. unfold encrypt. cbn zeta. unfold SRTCP_FOOTER_LEN.
      rewrite copy_from_slice_ok by (rewrite ?length_be_bytes, ?length_app; lia). rewrite mbind_Ok.
      rewrite !app_assoc, take_app_length', drop_ge by (rewrite !length_app; lia).
      rewrite app_nil_r. change (be_bytes 4 (Z.lor index 2147483648)) with (footer index).
      rewrite <- !app_assoc. rewrite (prepare_parts h p t _ ssrc index salt iv) by done. rewrite mbind_Ok.
      by rewrite Hs.
  - left. unfold encrypt. cbn zeta. unfold SRTCP_FOOTER_LEN.
    rewrite copy_from_slice_ok by (rewrite ?length_be_bytes, ?length_app; lia). rewrite mbind_Ok.
    rewrite prepare_for_crypto_ok, Hiv; [done|].
    rewrite !length_app, length_take, length_be_bytes, length_drop, !length_app. lia.
Qed.

Lemma decrypt_parts h c tag ssrc index key salt iv p :
  length h = 8%nat -> length tag = 16%nat -> be_val (take 4 (drop 4 h)) = ssrc ->
  0 <= index < 2 ^ 31 -> rtcp_iv ssrc index salt = Some iv ->
  open key iv (h ++ footer index) c tag = Some p ->
  parse_and_decrypt_in_place (h ++ c ++ tag ++ footer index) key salt =
    parse_compound (8 + length p) default (h ++ p).
Proof.
  intros Hh Ht Hssrc Hi Hiv Ho. destruct (footer_value index Hi) as [Hfv Hf0].
  assert (length (footer index) = 4%nat) as Hf by apply length_be_bytes.
  pose proof (open_length _ _ _ _ _ _ Ho) as Hp.
  unfold parse_and_decrypt_in_place, RTCP_HEADER_LEN, SRTCP_FOOTER_LEN, SRTCP_TAG_LEN.
  set (l := h ++ c ++ tag ++ footer index).
  assert (length l = (28 + length c)%nat) as Hl by (unfold l; rewrite !length_app; lia).
  rewrite Hl. destruct (Nat.ltb_spec (28 + length c) (8 + 16 + 4)); [lia|].
  unfold parse_u32. cbn [RTCP_SENDER_SSRC_RANGE fst snd].
  rewrite slice_parse_be by (first [reflexivity|lia]).
  assert (take 4 (drop 4 l) = take 4 (drop 4 h)) as ->.
  { unfold l. rewrite drop_app_le by lia. apply take_app_le. rewrite length_drop. lia. }
  rewrite Hssrc, slice_from_ok by lia. rewrite mbind_Ok.
  assert (drop (28 + length c - 4) l = footer index) as ->.
  { unfold l. rewrite !app_assoc. apply drop_app_length'. rewrite !length_app. lia. }
  rewrite idx_default, Hf0 by lia. rewrite parse_be_ok, mbind_Ok by lia.
  rewrite take_ge, Hfv by lia. cbn [negb].
  assert (Z.land (index + 2 ^ 31) 2147483647 = index) as ->.
  { change 2147483647 with (2 ^ 31 - 1). rewrite land_ones_mod by lia. unfold wrap. dlia. }
  unfold l. rewrite (prepare_parts h c tag (footer index) ssrc index salt iv) by done.
  rewrite mbind_Ok, Ho. cbn [ok_or]. rewrite mbind_Ok. cbn zeta.
  rewrite slice_to_ok by (rewrite !length_app; lia). rewrite mbind_Ok.
  assert (take (length (h ++ p ++ tag ++ footer index) - 16 - 4) (h ++ p ++ tag ++ footer index)
    = h ++ p) as ->.
  { rewrite app_assoc. apply take_app_length'. rewrite !length_app. lia. }
  by rewrite length_app, Hh.
Qed.

(** The header and the padded payload that [serialize_and_encrypt] encrypts. *)
Definition wire_header (pt fmt : Z) (is_padded : bool) (ssrc : Z) (padded_len : nat) : bytes :=
  [Z.lor (Z.lor (Z.shiftl RTP_VERSION 6) (is_padded_mask is_padded)) fmt; pt]
  ++ be_bytes 2 (u16 (Z.of_nat padded_len / 4 + 1)) ++ be_bytes 4 ssrc.

Definition padded {W} `{Writer W} (w : W) : bytes :=
  to_vec w ++ replicate (Math.round_up_to_multiple_of 4 (written_len w) - written_len w) 0.

Lemma round_up_ge n : (n <= Math.round_up_to_multiple_of 4 n)%nat /\
  Z.of_nat (Math.round_up_to_multiple_of 4 n) mod 4 = 0.
Proof.
  unfold Math.round_up_to_multiple_of. split.
  - pose proof (Nat.div_mod (n + 3) 4 ltac:(lia)). pose proof (Nat.mod_upper_bound (n + 3) 4 ltac:(lia)).
    replace (4 - 1)%nat with 3%nat by lia. lia.
  - rewrite Nat2Z.inj_mul. by rewrite Z.mod_mul by lia.
Qed.

Lemma length_padded {W} `{WriterLaws W} (w : W) :
  length (padded w) = Math.round_up_to_multiple_of 4 (written_len w).
Proof.
  unfold padded. rewrite length_app, length_replicate, written_len_ok.
  pose proof (round_up_ge (written_len w)). lia.
Qed.

Lemma serialize_parts {W} `{WriterLaws W} pt fmt is_padded ssrc (w : W) index key salt :
  serialize_and_encrypt pt fmt is_padded ssrc w index key salt =
    encrypt (wire_header pt fmt is_padded ssrc (length (padded w)) ++ padded w
             ++ replicate 16 0 ++ replicate 4 0) ssrc index key salt.
Proof.
  rewrite length_padded. unfold serialize_and_encrypt, padded. cbn zeta.
  unfold RTCP_HEADER_LEN, SRTCP_FOOTER_LEN, SRTCP_TAG_LEN, RTCP_PAYLOAD_TYPE_OFFSET.
  destruct (round_up_ge (written_len w)) as [Hge _].
  set (n := Math.round_up_to_multiple_of 4 (written_len w)) in *.
  pose proof (written_len_ok w) as Hw. cbn [RTCP_PAYLOAD_LEN_RANGE RTCP_SENDER_SSRC_RANGE fst snd].
  replace (8 + n + 16 + 4)%nat with (8 + (n + 20))%nat by lia. rewrite replicate_add.
  cbn [replicate app]. set (z := replicate (n + 20) 0).
  rewrite copy_from_slice_ok by (simpl; lia). rewrite mbind_Ok. cbn [take drop app].
  rewrite copy_from_slice_ok by (simpl; lia). rewrite mbind_Ok. cbn [take drop app].
  rewrite copy_from_slice_ok by (rewrite ?length_be_bytes; simpl; lia). rewrite mbind_Ok.
  cbn [take drop app]. rewrite copy_from_slice_ok by (rewrite ?length_app, ?length_be_bytes; simpl; lia).
  rewrite mbind_Ok. unfold wire_header. fold n.
  destruct (be2 (u16 (Z.of_nat n / 4 + 1))) as (a & b & ->). cbn [take drop app].
  destruct (be4 ssrc) as (c & d & e & f & ->). cbn [take drop app].
  rewrite drop_0, copy_from_slice_ok by (unfold z; simpl; rewrite ?length_replicate; lia).
  rewrite mbind_Ok. cbn [take drop app Nat.add].
  change [0; 0; 0; 0; 0; 0; 0; 0; 0; 0; 0; 0; 0; 0; 0; 0; 0; 0; 0; 0] with (replicate 20 0).
  do 8 f_equal. unfold z. rewrite take_0, drop_replicate, <- app_assoc. cbn [app]. do 2 f_equal.
  rewrite <- replicate_add. f_equal. lia.
Qed.

Lemma first_byte_fields is_padded fmt : uint 5 fmt ->
  let b := Z.lor (Z.lor (Z.shiftl RTP_VERSION 6) (is_padded_mask is_padded)) fmt in
  (0 <? Z.land b 32) = is_padded /\ Z.land b 31 = fmt.
Proof.
  intros Hf b.
  assert (Forall (fun f => let b := Z.lor (Z.lor (Z.shiftl RTP_VERSION 6) (is_padded_mask is_padded)) f in
    (0 <? Z.land b 32) = is_padded /\ Z.land b 31 = f) (seqZ 0 32)) as F.
  { destruct is_padded; vm_compute; repeat constructor. }
  rewrite Forall_forall in F. apply F, elem_of_seqZ. unfold uint in Hf. simpl in Hf. lia.
Qed.

(** Parsing what follows the header of a packet that fills the buffer. *)
Lemma parse_single pt fmt is_padded ssrc p fuel :
  uint 5 fmt -> Z.of_nat (length p) mod 4 = 0 -> Z.of_nat (length p) / 4 + 1 < 2 ^ 16 ->
  parse_compound (8 + fuel) default (wire_header pt fmt is_padded ssrc (length p) ++ p) =
    add_packet default
      (RtcpHeader.mk is_padded fmt pt (Z.of_nat (length p) / 4 + 1)) (be_bytes 4 ssrc ++ p).
Proof.
  intros Hf Hm Hlen. destruct (first_byte_fields is_padded fmt Hf) as [Hp Hc]. cbn zeta in Hp, Hc.
  set (words := Z.of_nat (length p) / 4 + 1) in *.
  assert (uint 16 words) as Hw by (unfold uint, words; dlia).
  assert (length (wire_header pt fmt is_padded ssrc (length p)) = 8%nat) as Hh.
  { unfold wire_header. rewrite !length_app, !length_be_bytes. done. }
  replace (8 + fuel)%nat with (S (7 + fuel)) by lia. cbn [parse_compound].
  unfold RtcpHeader.LENGTH. rewrite length_app, Hh.
  destruct (Nat.ltb_spec (8 + length p) 4); [lia|].
  rewrite header_from_bytes by (rewrite length_app, Hh; lia). rewrite mbind_Ok.
  assert (be_val (take 2 (drop 2 (wire_header pt fmt is_padded ssrc (length p) ++ p))) = words) as ->.
  { unfold wire_header. fold words. change (drop 2 _) with
      ((be_bytes 2 (u16 words) ++ be_bytes 4 ssrc) ++ p).
    rewrite <- app_assoc, take_app_length' by (by rewrite length_be_bytes).
    rewrite be_val_be_bytes. unfold u16. change (8 * Z.of_nat 2) with 16.
    by rewrite wrap_idem, wrap_small by done. }
  change (option.default 0 ((wire_header pt fmt is_padded ssrc (length p) ++ p) !! 0%nat)) with
    (Z.lor (Z.lor (Z.shiftl RTP_VERSION 6) (is_padded_mask is_padded)) fmt).
  change (option.default 0 ((wire_header pt fmt is_padded ssrc (length p) ++ p) !! 1%nat)) with pt.
  rewrite Hp, Hc.
  cbn [RtcpHeader.length_in_words]. destruct (Z.eqb_spec words 0); [unfold words in *; dlia|].
  unfold RtcpHeader.packet_length_in_bytes. cbn [RtcpHeader.length_in_words].
  assert (((Z.to_nat words + 1) * 4)%nat = (8 + length p)%nat) as -> by (unfold words; dlia).
  rewrite (proj2 (checked_split_at_Some _ _ (wire_header pt fmt is_padded ssrc (length p) ++ p) [])).
  2: { rewrite length_app, Hh. split; [lia|]. rewrite take_ge, drop_ge by (rewrite length_app, Hh; lia). done. }
  cbn [ok_or]. rewrite mbind_Ok, slice_from_ok by (rewrite length_app, Hh; lia). rewrite mbind_Ok.
  change (drop 4 (wire_header pt fmt is_padded ssrc (length p) ++ p)) with (be_bytes 4 ssrc ++ p).
  destruct (add_packet default _ (be_bytes 4 ssrc ++ p)) as [i| |]; [|done..].
  rewrite mbind_Ok. done.
Qed.

Lemma rtcp_roundtrip {W} `{WriterLaws W} pt fmt is_padded ssrc (w : W) index key salt b :
  uint 5 fmt -> uint 32 ssrc -> 0 <= index < 2 ^ 31 ->
  Z.of_nat (length (padded w)) / 4 + 1 < 2 ^ 16 ->
  serialize_and_encrypt pt fmt is_padded ssrc w index key salt = Ok b ->
  parse_and_decrypt_in_place b key salt =
    add_packet default
      (RtcpHeader.mk is_padded fmt pt (Z.of_nat (length (padded w)) / 4 + 1))
      (be_bytes 4 ssrc ++ padded w).
Proof.
  intros Hf Hs Hi Hlen E. rewrite serialize_parts in E.
  set (h := wire_header pt fmt is_padded ssrc (length (padded w))) in *.
  assert (length h = 8%nat) as Hh.
  { unfold h, wire_header. rewrite !length_app, !length_be_bytes. done. }
  destruct (iv_some ssrc index salt (proj2 Hi)) as [iv Hiv].
  destruct (seal key iv (h ++ footer index) (padded w)) as [[c tag]|] eqn:Es.
  - rewrite (encrypt_parts h (padded w) (replicate 16 0) (replicate 4 0) ssrc index key salt iv c tag)
      in E by done.
    assert (h ++ c ++ tag ++ footer index = b) as <- by congruence. clear E.
    pose proof (seal_length _ _ _ _ _ _ Es) as [_ Ht].
    rewrite (decrypt_parts h c tag ssrc index key salt iv (padded w)); [|done|done| |done|done|].
    + apply parse_single; [done| |done]. rewrite length_padded. apply round_up_ge.
    + unfold h, wire_header. change (drop 4 _) with (be_bytes 4 ssrc).
      rewrite take_ge by (by rewrite length_be_bytes). by rewrite be_val_be_bytes, wrap_small.
    + by apply (open_seal _ _ _ (padded w)).
  - exfalso. unfold encrypt in E. cbn zeta in E. unfold SRTCP_FOOTER_LEN in E.
    rewrite copy_from_slice_ok in E by (rewrite ?length_be_bytes, ?length_app; simpl; lia).
    rewrite mbind_Ok, !app_assoc, take_app_length', drop_ge, app_nil_r in E
      by (rewrite !length_app; simpl; lia).
    change (be_bytes 4 (Z.lor index 2147483648)) with (footer index) in E. rewrite <- !app_assoc in E.
    rewrite (prepare_parts h (padded w) (replicate 16 0) _ ssrc index salt iv) in E by done.
    rewrite mbind_Ok, Es in E. done.
Qed.

(** A NACK, encrypted and read back. *)
Lemma rtcp_nack sender_ssrc ssrc seqnums index key salt w b :
  uint 32 sender_ssrc -> 0 <= index < 2 ^ 31 -> uint 32 ssrc -> StronglySorted Z.lt seqnums ->
  Forall (uint 64) seqnums -> Nack.write_nack ssrc seqnums = Ok w -> Z.of_nat (length (to_vec w)) < 2 ^ 16 ->
  serialize_and_encrypt RTCP_TYPE_GENERIC_FEEDBACK RTCP_FORMAT_NACK false sender_ssrc w index key salt
    = Ok b ->
  parse_and_decrypt_in_place b key salt =
    Ok (default <| nacks := [Nack.nack ssrc (map u16 seqnums)] |>).
Proof.
  intros Hs Hi Hss Hsort Hu Hw Hlen E.
  assert (padded w = to_vec w) as Ep.
  { unfold padded. destruct w as [a l]. 
    assert (exists k, written_len (a, l) = (4 * k)%nat) as [k ->].
    { exists (S (length l)). clear. induction l as [|x l IH]; simpl in *; [done|]. lia. }
    unfold Math.round_up_to_multiple_of. replace (4 - 1)%nat with 3%nat by lia.
    rewrite (Nat.mul_comm 4 k), Nat.div_add_l, (Nat.div_small 3 4) by lia.
    replace ((k + 0) * 4 - k * 4)%nat with 0%nat by lia. simpl. by rewrite app_nil_r. }
  assert (Z.of_nat (length (padded w)) / 4 + 1 < 2 ^ 16) as Hl.
  { rewrite Ep. dlia. }
  rewrite (rtcp_roundtrip _ _ _ _ _ _ _ _ _ (conj (Z.le_0_1) eq_refl) Hs Hi Hl E).
  unfold add_packet. rewrite slice_from_ok by (rewrite length_app, length_be_bytes; lia).
  rewrite mbind_Ok, drop_app_length' by (by rewrite length_be_bytes). rewrite Ep.
  destruct (NackFacts.nack_roundtrip ssrc seqnums Hss Hsort Hu) as (w' & Hw' & Hp).
  rewrite Hw in Hw'. injection Hw' as <-.
  cbn [RtcpHeader.payload_type RtcpHeader.count_or_format]. rewrite Hp. done.
Qed.

End Crypto.

(** ** Reports *)

Definition block_ok (b : ReportBlock.t) : Prop :=
  uint 32 (ReportBlock.ssrc b) /\ uint 24 (ReportBlock.cumulative_loss_count b) /\
  uint 32 (ReportBlock.highest_sequence_num b) /\ uint 32 (ReportBlock.jitter b) /\
  uint 32 (ReportBlock.last_sender_report b) /\ uint 32 (ReportBlock.delay_last_sender_report b).

Definition info_ok (i : SenderInfo.t) : Prop :=
  uint 32 (SenderInfo.ssrc i) /\ uint 64 (SenderInfo.ntp_ts i) /\ uint 32 (SenderInfo.rtp_ts i) /\
  uint 32 (SenderInfo.packet_count i) /\ uint 32 (SenderInfo.octet_count i).

(** [be_val] of the bytes of a field; the rewriting rules of the round trips. *)
Lemma be_field n z rest : uint (8 * Z.of_nat n) z -> be_val (take n (be_bytes n z ++ rest)) = z.
Proof.
  intros. rewrite take_app_length' by (by rewrite length_be_bytes).
  by rewrite be_val_be_bytes, wrap_small.
Qed.

Lemma drop_field n m z rest : (n <= m)%nat -> drop m (be_bytes n z ++ rest) = drop (m - n) rest.
Proof. intros. rewrite drop_app_ge; rewrite length_be_bytes; done. Qed.

Ltac read_field :=
  repeat first [rewrite drop_0 | rewrite drop_field by lia; cbn [Nat.sub]
               | progress cbn [drop app]];
  apply be_field; done.

Lemma block_bytes b :
  to_vec b = be_bytes 4 (ReportBlock.ssrc b) ++ ReportBlock.fraction_loss b ::
    be_bytes 3 (ReportBlock.cumulative_loss_count b) ++
    be_bytes 4 (ReportBlock.highest_sequence_num b) ++ be_bytes 4 (ReportBlock.jitter b) ++
    be_bytes 4 (ReportBlock.last_sender_report b) ++ be_bytes 4 (ReportBlock.delay_last_sender_report b).
Proof. reflexivity. Qed.

Lemma block_roundtrip b rest : block_ok b ->
  ReportBlock.from_bytes (to_vec b ++ rest) = Ok b /\ length (to_vec b) = 24%nat.
Proof.
  intros (H1 & H2 & H3 & H4 & H5 & H6). rewrite block_bytes. split; [|done].
  rewrite block_from_bytes by (rewrite !length_app; simpl; lia).
  rewrite <- !app_assoc. cbn [app]. rewrite <- !app_assoc.
  destruct b as [a f c h j l d]; cbn [ReportBlock.ssrc ReportBlock.fraction_loss
    ReportBlock.cumulative_loss_count ReportBlock.highest_sequence_num ReportBlock.jitter
    ReportBlock.last_sender_report ReportBlock.delay_last_sender_report] in *.
  f_equal. f_equal; read_field.
Qed.

Lemma info_bytes i :
  to_vec i = be_bytes 4 (SenderInfo.ssrc i) ++ be_bytes 8 (SenderInfo.ntp_ts i) ++
    be_bytes 4 (SenderInfo.rtp_ts i) ++ be_bytes 4 (SenderInfo.packet_count i) ++
    be_bytes 4 (SenderInfo.octet_count i).
Proof. reflexivity. Qed.

Lemma info_roundtrip {E} i rest : info_ok i ->
  SenderInfo.from_bytes (E:=E) (to_vec i ++ rest) = Ok i /\ length (to_vec i) = 24%nat.
Proof.
  intros (H1 & H2 & H3 & H4 & H5). rewrite info_bytes. split; [|done].
  rewrite info_from_bytes by (rewrite !length_app; simpl; lia). rewrite <- !app_assoc.
  destruct i as [a n r p o]; cbn [SenderInfo.ssrc SenderInfo.ntp_ts SenderInfo.rtp_ts
    SenderInfo.packet_count SenderInfo.octet_count] in *.
  f_equal. f_equal; read_field.
Qed.

End RtcpFacts.

Module RtcpProperties.
Import ControlPacket.
#[local] Existing Instances SampleCipher.flip_aead SampleCipher.flip_aead_laws.

(** No bytes a peer can send as RTCP make the server panic: decryption, the
    walk over a compound packet (which ends, as each packet takes bytes) and the
    parsers of reports and feedback either return or refuse. *)
Theorem rtcp_parse_total `{AeadLaws} serialized key salt :
  bytes_ok serialized -> parse_and_decrypt_in_place serialized key salt ≠ Panic.
Proof. apply RtcpFacts.parse_and_decrypt_no_panic. Qed.

Lemma rtcp_parse_total_witness :
  parse_and_decrypt_in_place (replicate 24 200 ++ [128; 0; 0; 1]) [1] (replicate 12 2) ≠ Panic.
Proof.
  apply rtcp_parse_total. apply Forall_app. split.
  - apply Forall_replicate. unfold byte_ok, uint. lia.
  - repeat constructor; lia.
Defined.

End RtcpProperties.
