(* ===== verification/RtcpReports.v ===== *)
(** * RtcpReports: the statistics behind sender and receiver reports

    [RtcpReportSender] of [src/backend/src/rtp/rtcp.rs]: what an SSRC has
    received (losses, jitter, the last sender report) and sent, the estimate of
    the round-trip time, and the report written from them.  Instants and
    durations are nanoseconds. *)
From S2P Require Import Prelude Common Float Bytes Srtp RtpHeader Packet Rtcp.
Import Read Serialize RtpTypes.

Definition SEQNUM_GAP_THRESHOLD : Z := 500.
Definition FULL_SEQNUM_GAP_THRESHOLD : Z := 500.
Definition FULL_SEQNUM_ROLLOVER_THRESHOLD : Z := 150.
(** 11 seconds *)
Definition RTT_ESTIMATE_AGE_LIMIT : Z := Duration.from_secs 11.
Definition RTT_ESTIMATE_AGE_LIMIT_SECS_F64 : F64.t := F64.of_Z 11.
Definition NANOS_TO_DELAY_UNIT : Z := 15259.

Definition maybe_receive_stream_restart (seqnum max_seqnum : Z) : bool :=
  SEQNUM_GAP_THRESHOLD <? abs_diff seqnum max_seqnum.

Definition maybe_send_stream_restart (seqnum max_seqnum : Z) : bool :=
  FULL_SEQNUM_GAP_THRESHOLD <? abs_diff seqnum max_seqnum.

Definition maybe_stream_rollover (seqnum max_seqnum : Z) : bool :=
  let delta := abs_diff seqnum max_seqnum in
  (seqnum <? max_seqnum)
  && (umax 64 - delta <? max_seqnum)
  && (seqnum <? FULL_SEQNUM_ROLLOVER_THRESHOLD)
  && (umax 64 - max_seqnum <? FULL_SEQNUM_ROLLOVER_THRESHOLD).

Definition get_lsr (last_ntp_timestamp : Z) : Z :=
  u32 (Z.shiftr (Z.land last_ntp_timestamp 281474976645120) 16).

Definition calculate_dlsr (sr_last_received_time now : Z) : Z :=
  let units := Duration.saturating_duration_since now sr_last_received_time / NANOS_TO_DELAY_UNIT in
  if units <? 2 ^ 32 then units else 0.

Definition dlsr_to_duration (delay_since_sr : Z) : Z := u64 (delay_since_sr * NANOS_TO_DELAY_UNIT).

(** [i64::saturating_sub] and [u32::saturating_add_signed] *)
Definition i64_saturating_sub (a b : Z) : Z := Z.max (- 2 ^ 63) (Z.min (2 ^ 63 - 1) (a - b)).
Definition saturating_add_signed (a b : Z) : Z := Z.max 0 (Z.min (umax 32) (a + b)).

Module RtcpReportSender.

Record t := mk {
  max_seqnum : option Z;
  max_seqnum_in_last : option Z;
  cumulative_loss : Z;
  cumulative_loss_in_last : Z;
  last_receive_time : Z;
  last_rtp_timestamp : Z;
  jitter_q4 : Z;
  last_received_sender_info : option SenderInfo.t;
  last_sender_report_received_time : Z;
  sent_since_last_report : bool;
  packets_sent : Z;
  total_payload_bytes_sent : Z;
  max_sent_seqnum : option Z;
  last_sent_time : Z;
  last_sent_rtp_timestamp : Z;
  sent_sample_freq : Z;
  last_sender_report_sent_time : Z;
  last_sender_report_sent_time_ntp : Z;
  last_receiver_report_received_time : Z;
  last_receiver_report_dlsr : Z;
  rtt_estimate_ : option Z;
  rtt_estimate_last_updated : option Z
}.

#[global] Instance t_eta : Settable t := fun s =>
  mk (max_seqnum s) (max_seqnum_in_last s) (cumulative_loss s) (cumulative_loss_in_last s)
     (last_receive_time s) (last_rtp_timestamp s) (jitter_q4 s) (last_received_sender_info s)
     (last_sender_report_received_time s) (sent_since_last_report s) (packets_sent s)
     (total_payload_bytes_sent s) (max_sent_seqnum s) (last_sent_time s)
     (last_sent_rtp_timestamp s) (sent_sample_freq s) (last_sender_report_sent_time s)
     (last_sender_report_sent_time_ntp s) (last_receiver_report_received_time s)
     (last_receiver_report_dlsr s) (rtt_estimate_ s) (rtt_estimate_last_updated s).

Definition new (now : Z) : t :=
  mk None None 0 0 now 0 0 None now false 0 0 None now 0 90000 now 0 now 0 None None.

Definition remember_received_sender_report (self : t) (sender_report : SenderReport.t)
    (receive_time : Z) : t :=
  let info := SenderReport.sender_info sender_report in
  if match last_received_sender_info self with
     | Some last => SenderInfo.ntp_ts info <=? SenderInfo.ntp_ts last
     | None => false
     end
  then self
  else self <| last_sender_report_received_time := receive_time |>
            <| last_received_sender_info := Some info |>.

Definition update_rtt_estimate {E} (self : t) (new_rtt_estimate now : Z) : Res E t :=
  self ←
    match rtt_estimate_ self with
    | Some old_rtt_estimate =>
        let estimate_age :=
          Duration.saturating_duration_since now (last_receiver_report_received_time self) in
        let weight :=
          F64.div (Duration.as_secs_f64 (saturating_sub RTT_ESTIMATE_AGE_LIMIT estimate_age))
                  RTT_ESTIMATE_AGE_LIMIT_SECS_F64 in
        rtt ←
          Duration.from_secs_f64
            (F64.add (F64.mul weight (Duration.as_secs_f64 old_rtt_estimate))
                     (F64.mul (F64.sub F64.one weight) (Duration.as_secs_f64 new_rtt_estimate)));
        Ok (self <| rtt_estimate_ := Some rtt |>)
    | None => Ok (self <| rtt_estimate_ := Some new_rtt_estimate |>)
    end;
  Ok (self <| rtt_estimate_last_updated := Some now |>).

Definition remember_report_block {E} (self : t) (report_block : ReportBlock.t) (now : Z) : Res E t :=
  if (ReportBlock.delay_last_sender_report report_block =? 0)
     || (ReportBlock.last_sender_report report_block =? 0) then Ok self
  else if negb (ReportBlock.last_sender_report report_block
                =? get_lsr (last_sender_report_sent_time_ntp self)) then Ok self
  else if ReportBlock.delay_last_sender_report report_block <? last_receiver_report_dlsr self
  then Ok self
  else
    let delay := dlsr_to_duration (ReportBlock.delay_last_sender_report report_block) in
    let new_rtt_estimate :=
      saturating_sub (Duration.saturating_duration_since now (last_sender_report_sent_time self))
                     delay in
    self ← update_rtt_estimate self new_rtt_estimate now;
    Ok (self <| last_receiver_report_received_time := now |>
             <| last_receiver_report_dlsr := ReportBlock.delay_last_sender_report report_block |>).

Definition estimate_sample_freq (payload_type : Z) : Z :=
  if payload_type =? OPUS_PAYLOAD_TYPE then 48000
  else if payload_type =? VP8_PAYLOAD_TYPE then 90000
  else 90000.

Definition duration_to_rtp_duration (duration sample_freq : Z) : Z :=
  saturating_mul 32 (u32 (Duration.as_millis duration)) sample_freq / 1000.

Definition update_jitter (self : t) (payload_type rtp_timestamp receive_time : Z) : t :=
  let receive_diff := Duration.saturating_duration_since receive_time (last_receive_time self) in
  let payload_freq_hz := estimate_sample_freq payload_type in
  let receive_diff_rtp := duration_to_rtp_duration receive_diff payload_freq_hz in
  let tx_diff_rtp :=
    u32 (Z.abs (i64_saturating_sub receive_diff_rtp
                  (saturating_sub rtp_timestamp (last_rtp_timestamp self)))) in
  if tx_diff_rtp <? u32 (10 * payload_freq_hz) then
    let jitter_diff_q4 := i32 (i32 (u32 (Z.shiftl tx_diff_rtp 4)) - i32 (jitter_q4 self)) in
    self <| jitter_q4 ::= fun j =>
      saturating_add_signed j (Z.shiftr (i32 (jitter_diff_q4 + 8)) 4) |>
  else self.

Definition remember_received (self : t) (seqnum payload_type rtp_timestamp receive_time : Z) : t :=
  let seqnum := u32 seqnum in
  match max_seqnum self with
  | Some max =>
      if maybe_receive_stream_restart seqnum max then
        self <| cumulative_loss := 0 |> <| cumulative_loss_in_last := 0 |>
             <| max_seqnum := Some seqnum |>
             <| max_seqnum_in_last := Some (saturating_sub seqnum 1) |>
             <| last_receive_time := receive_time |> <| last_rtp_timestamp := rtp_timestamp |>
             <| jitter_q4 := 0 |>
      else if max <? seqnum then
        let seqnums_in_gap := u32 (u32 (seqnum - max) - 1) in
        let self :=
          self <| cumulative_loss ::= fun l => saturating_add 32 l seqnums_in_gap |>
               <| max_seqnum := Some seqnum |> in
        let self := update_jitter self payload_type rtp_timestamp receive_time in
        self <| last_receive_time := receive_time |> <| last_rtp_timestamp := rtp_timestamp |>
      else self <| cumulative_loss ::= fun l => saturating_sub l 1 |>
  | None =>
      self <| max_seqnum := Some seqnum |>
           <| max_seqnum_in_last := Some (saturating_sub seqnum 1) |>
           <| last_receive_time := receive_time |> <| last_rtp_timestamp := rtp_timestamp |>
  end.

Definition remember_sent (self : t) (outgoing : Packet.t) (now : Z) : t :=
  if Packet.is_rtx outgoing || Packet.is_data outgoing then self
  else
    let seqnum := Packet.seqnum outgoing in
    let now_sent (self : t) :=
      self <| max_sent_seqnum := Some seqnum |>
           <| last_sent_rtp_timestamp := Packet.timestamp outgoing |>
           <| last_sent_time := now |> in
    let self :=
      match max_sent_seqnum self with
      | Some max =>
          let restarted := maybe_send_stream_restart seqnum max in
          let rolledover := maybe_stream_rollover seqnum max in
          let self :=
            if (max <? seqnum) || rolledover || restarted then now_sent self else self in
          if restarted && negb rolledover
          then self <| packets_sent := 0 |> <| total_payload_bytes_sent := 0 |>
          else self
      | None => now_sent self
      end in
    let net_bytes :=
      saturating_sub (u32 (Packet.payload_size_bytes outgoing))
                     (Packet.padding_byte_count outgoing) in
    let self :=
      self <| sent_since_last_report := true |>
           <| packets_sent ::= fun n => u32 (n + 1) |>
           <| total_payload_bytes_sent ::= fun n => u32 (n + net_bytes) |> in
    if Packet.is_audio outgoing || Packet.is_video outgoing
    then self <| sent_sample_freq := estimate_sample_freq (Packet.payload_type outgoing) |>
    else self.

Definition rtcp_report_payload_type (self : t) : option Z :=
  if sent_since_last_report self then Some RTCP_TYPE_SENDER_REPORT
  else if match max_seqnum self, max_seqnum_in_last self with
          | Some _, Some _ => true | _, _ => false end
  then Some RTCP_TYPE_RECEIVER_REPORT
  else None.

Definition MAX_I24 : Z := Z.shiftl 1 23 - 1.

Definition write_receiver_report_block_in_place {E} (self : t) (ssrc now : Z) (out : bytes)
    : Res E (t * bytes) :=
  match max_seqnum self, max_seqnum_in_last self with
  | Some max, Some max_in_last =>
      let expected_since_last := saturating_sub max max_in_last in
      let lost_since_last := saturating_sub (cumulative_loss self) (cumulative_loss_in_last self) in
      let fraction_lost_since_last :=
        if expected_since_last =? 0 then 0
        else u8 (u32 (256 * lost_since_last) / expected_since_last) in
      cumulative_loss_i24 ←
        match Integers.try_from 3 (Z.min (cumulative_loss self) MAX_I24) with
        | Ok v => Ok v
        | _ => Panic
        end;
      let self :=
        self <| max_seqnum_in_last := Some max |>
             <| cumulative_loss_in_last := cumulative_loss self |> in
      let interarrival_jitter := Z.shiftr (jitter_q4 self) 4 in
      let '(last_sender_report_timestamp, delay_since_last_sender_report) :=
        match last_received_sender_info self with
        | None => (0, 0)
        | Some info =>
            (get_lsr (SenderInfo.ntp_ts info),
             calculate_dlsr (last_sender_report_received_time self) now)
        end in
      Ok (self,
          write (w32 ssrc, (w32 ssrc, ([fraction_lost_since_last], (w24 cumulative_loss_i24,
                 (w32 max, (w32 interarrival_jitter, (w32 last_sender_report_timestamp,
                  w32 delay_since_last_sender_report))))))) out)
  | _, _ => Ok (self, out)
  end.

Definition write_sender_report_block_in_place (self : t) (ssrc now : Z) (buffer : bytes)
    : t * bytes :=
  let '(ntp_ts, rtp_ts) :=
    match last_received_sender_info self with
    | None => (0, last_sent_rtp_timestamp self)
    | Some info => (SenderInfo.ntp_ts info, SenderInfo.rtp_ts info)
    end in
  (self <| last_sender_report_sent_time_ntp := ntp_ts |>
        <| sent_since_last_report := false |>
        <| last_receiver_report_dlsr := 0 |>
        <| last_sender_report_sent_time := now |>,
   write (SenderInfo.mk ssrc ntp_ts rtp_ts (packets_sent self) (total_payload_bytes_sent self))
         buffer).

(** The payload type, the number of blocks and the bytes appended. *)
Definition write_report_block_in_place {E} (self : t) (ssrc now : Z) (buffer : bytes)
    : Res E (t * bytes * option (Z * Z * nat)) :=
  match rtcp_report_payload_type self with
  | None => Ok (self, buffer, None)
  | Some pt =>
      if pt =? RTCP_TYPE_SENDER_REPORT then
        let '(self, buffer) := write_sender_report_block_in_place self ssrc now buffer in
        Ok (self, buffer, Some (RTCP_TYPE_SENDER_REPORT, 0, SenderInfo.SENDER_INFO_LENGTH))
      else if pt =? RTCP_TYPE_RECEIVER_REPORT then
        '(self, buffer) ← write_receiver_report_block_in_place self ssrc now buffer;
        Ok (self, buffer, Some (RTCP_TYPE_RECEIVER_REPORT, 1, RTCP_RECEIVER_REPORT_BLOCK_LEN))
      else Ok (self, buffer, None)
  end.

Definition rtt_estimate (self : t) : option (Z * Z) :=
  match rtt_estimate_ self, rtt_estimate_last_updated self with
  | Some r, Some u => Some (r, u)
  | _, _ => None
  end.

End RtcpReportSender.

(** * Theorems *)

Module RtcpReportFacts.
Import RtcpReportSender SerializeFacts.

(** ** Losses *)

(** What has been lost since the last report is less than what was expected. *)
Definition loss_ok (self : t) : Prop :=
  uint 32 (cumulative_loss self) /\ uint 32 (cumulative_loss_in_last self) /\
  match max_seqnum self, max_seqnum_in_last self with
  | Some m, Some l =>
      uint 32 m /\ 0 <= l <= m /\ cumulative_loss self <= cumulative_loss_in_last self + (m - l) /\
      (l < m -> cumulative_loss self < cumulative_loss_in_last self + (m - l))
  | None, None => cumulative_loss self = 0 /\ cumulative_loss_in_last self = 0
  | _, _ => False
  end.

(** In [1/16] of a timestamp unit: 10 seconds of the fastest clock. *)
Definition JITTER_LIMIT : Z := 16 * 900000.

Definition jitter_ok (self : t) : Prop := 0 <= jitter_q4 self <= JITTER_LIMIT.

Definition ok (self : t) : Prop := loss_ok self /\ jitter_ok self.

Lemma new_ok now : ok (new now).
Proof. unfold ok, loss_ok, jitter_ok, uint, JITTER_LIMIT. simpl. lia. Qed.

(** The exponential average of RFC 3550, with no overflow on the way. *)
Lemma jitter_step j d : 0 <= j <= JITTER_LIMIT -> 0 <= d < 900000 ->
  saturating_add_signed j (Z.shiftr (i32 (i32 (i32 (u32 (Z.shiftl d 4)) - i32 j) + 8)) 4)
    = j + (16 * d - j + 8) / 16 /\
  0 <= j + (16 * d - j + 8) / 16 <= JITTER_LIMIT.
Proof.
  unfold JITTER_LIMIT. intros Hj Hd. unfold i32, u32.
  rewrite Z.shiftl_mul_pow2 by lia. change (2 ^ 4) with 16.
  rewrite wrap_small by (unfold uint; lia). rewrite (sint_small 32 (d * 16)), (sint_small 32 j) by (unfold int; lia).
  rewrite (sint_small 32 (d * 16 - j)), (sint_small 32 (d * 16 - j + 8)) by (unfold int; lia).
  rewrite Z.shiftr_div_pow2 by lia. change (2 ^ 4) with 16.
  unfold saturating_add_signed, umax. dlia.
Qed.

Lemma update_jitter_fields self pt ts time :
  update_jitter self pt ts time = self <| jitter_q4 := jitter_q4 (update_jitter self pt ts time) |>.
Proof. unfold update_jitter. case_if; [done|by destruct self]. Qed.

Lemma update_jitter_ok self pt ts time : jitter_ok self -> jitter_ok (update_jitter self pt ts time).
Proof.
  intros H. unfold update_jitter. cbn zeta.
  set (d := u32 (Z.abs _)). destruct (Z.ltb_spec d (u32 (10 * estimate_sample_freq pt))) as [Hd|]; [|done].
  assert (0 <= d < 900000) as Hd'.
  { split; [apply wrap_uint; lia|]. unfold estimate_sample_freq in Hd.
    destruct (pt =? _); [|destruct (pt =? _)]; vm_compute (u32 (10 * _)) in Hd; lia. }
  destruct (jitter_step (jitter_q4 self) d H Hd') as [E B].
  unfold jitter_ok. cbn -[i32 saturating_add_signed Z.shiftl Z.shiftr]. by rewrite E.
Qed.

(** What a packet does to the loss count, apart from the other fields. *)
Definition loss_after (max seqnum loss : Z) : Z :=
  if max <? seqnum then saturating_add 32 loss (seqnum - max - 1) else saturating_sub loss 1.

Lemma gap_exact max seqnum : uint 32 max -> uint 32 seqnum -> max < seqnum ->
  u32 (u32 (seqnum - max) - 1) = seqnum - max - 1.
Proof. intros. unfold u32. unfold uint in *. rewrite !wrap_small by (unfold uint; rewrite ?wrap_small by (unfold uint; lia); lia). done. Qed.

Lemma remember_received_calm self max seqnum pt ts time :
  max_seqnum self = Some max -> uint 32 max -> uint 32 seqnum -> abs_diff seqnum max <= 500 ->
  let self' := remember_received self seqnum pt ts time in
  max_seqnum self' = Some (Z.max max seqnum) /\
  max_seqnum_in_last self' = max_seqnum_in_last self /\
  cumulative_loss self' = loss_after max seqnum (cumulative_loss self) /\
  cumulative_loss_in_last self' = cumulative_loss_in_last self.
Proof.
  intros Em Hm Hs Hd self'. subst self'. unfold remember_received, u32.
  rewrite wrap_small by done. rewrite Em. unfold maybe_receive_stream_restart, SEQNUM_GAP_THRESHOLD.
  destruct (Z.ltb_spec 500 (abs_diff seqnum max)); [lia|]. unfold loss_after.
  destruct (Z.ltb_spec max seqnum).
  - pose proof (gap_exact max seqnum Hm Hs ltac:(done)) as G. unfold u32 in G.
    rewrite G, update_jitter_fields. simpl. rewrite Z.max_r by lia. done.
  - simpl. rewrite Em, Z.max_l by lia. done.
Qed.

Lemma remember_received_ok self seqnum pt ts time :
  ok self -> ok (remember_received self seqnum pt ts time).
Proof.
  intros [L J].
  assert (uint 32 (u32 seqnum)) as Hs by (apply wrap_uint; lia).
  destruct (max_seqnum self) as [max|] eqn:Em.
  - destruct (Z.le_gt_cases (abs_diff (u32 seqnum) max) 500) as [Hd|Hd].
    + assert (u32 (u32 seqnum) = u32 seqnum) as Ew by (apply wrap_idem; lia).
      assert (remember_received self seqnum pt ts time = remember_received self (u32 seqnum) pt ts time)
        as -> by (unfold remember_received; by rewrite Ew).
      destruct L as (U & Ul & L). rewrite Em in L. destruct (max_seqnum_in_last self) as [l|] eqn:El; [|done].
      destruct L as (Um & Hl & Hle & Hlt).
      destruct (remember_received_calm self max (u32 seqnum) pt ts time Em Um Hs Hd) as (E1 & E2 & E3 & E4).
      split.
      * unfold loss_ok. rewrite E1, E2, E3, E4, El. unfold loss_after, saturating_add, saturating_sub, umax, uint in *.
        destruct (Z.ltb_spec max (u32 seqnum)); lia.
      * unfold remember_received. rewrite Em, Ew. unfold maybe_receive_stream_restart, SEQNUM_GAP_THRESHOLD.
        destruct (Z.ltb_spec 500 (abs_diff (u32 seqnum) max)); [lia|].
        case_if; [|done].
        match goal with |- jitter_ok (?x <| last_receive_time := _ |> <| last_rtp_timestamp := _ |>) =>
          change (jitter_ok x) end. by apply update_jitter_ok.
    + unfold remember_received. rewrite Em. unfold maybe_receive_stream_restart, SEQNUM_GAP_THRESHOLD.
      destruct (Z.ltb_spec 500 (abs_diff (u32 seqnum) max)); [|lia].
      unfold ok, loss_ok, jitter_ok, saturating_sub, JITTER_LIMIT, uint in *. simpl. lia.
  - unfold remember_received. rewrite Em. unfold ok, loss_ok in *. rewrite Em in L.
    destruct (max_seqnum_in_last self); [by destruct L as (_ & _ & [])|].
    unfold jitter_ok, saturating_sub, JITTER_LIMIT, uint in *. simpl. lia.
Qed.

(** The other operations leave the receiver's statistics alone. *)
Definition same_stats (a b : t) : Prop :=
  max_seqnum a = max_seqnum b /\ max_seqnum_in_last a = max_seqnum_in_last b /\
  cumulative_loss a = cumulative_loss b /\ cumulative_loss_in_last a = cumulative_loss_in_last b /\
  jitter_q4 a = jitter_q4 b.

Lemma same_stats_ok a b : same_stats a b -> ok a -> ok b.
Proof.
  intros (E1 & E2 & E3 & E4 & E5). unfold ok, loss_ok, jitter_ok. by rewrite E1, E2, E3, E4, E5.
Qed.

Lemma remember_sent_stats self p now : same_stats self (remember_sent self p now).
Proof.
  unfold remember_sent. cbn zeta. case_if; [done|]. destruct (max_sent_seqnum self); repeat case_if; done.
Qed.

Lemma remember_sender_report_stats self r now :
  same_stats self (remember_received_sender_report self r now).
Proof. unfold remember_received_sender_report. case_if; done. Qed.

Lemma remember_report_block_stats {E} self b now self' :
  remember_report_block (E:=E) self b now = Ok self' -> same_stats self self'.
Proof.
  unfold remember_report_block, update_rtt_estimate. intros H.
  repeat case_if_in H; try by (injection H as <-). cbn zeta in H.
  destruct (rtt_estimate_ self) as [old|].
  - destruct (Duration.from_secs_f64 _) as [r| |]; [|done..]. by injection H as <-.
  - by injection H as <-.
Qed.

(** ** The reports written *)

Definition report_block (self : t) (ssrc now : Z) (max max_in_last : Z) : ReportBlock.t :=
  let lost := saturating_sub (cumulative_loss self) (cumulative_loss_in_last self) in
  ReportBlock.mk ssrc
    (if max - max_in_last =? 0 then 0 else u8 (u32 (256 * lost) / (max - max_in_last)))
    (Z.min (cumulative_loss self) MAX_I24) max (Z.shiftr (jitter_q4 self) 4)
    (match last_received_sender_info self with
     | Some info => get_lsr (SenderInfo.ntp_ts info) | None => 0 end)
    (match last_received_sender_info self with
     | Some _ => calculate_dlsr (last_sender_report_received_time self) now | None => 0 end).

Definition reported (self : t) (max : Z) : t :=
  self <| max_seqnum_in_last := Some max |> <| cumulative_loss_in_last := cumulative_loss self |>.

Lemma write_receiver_report_ok {E} self ssrc now out max max_in_last :
  ok self -> max_seqnum self = Some max -> max_seqnum_in_last self = Some max_in_last ->
  write_receiver_report_block_in_place (E:=E) self ssrc now out =
    Ok (reported self max,
        out ++ be_bytes 4 ssrc ++ to_vec (report_block self ssrc now max max_in_last)).
Proof.
  intros [(U & _ & L) _] Em El. rewrite Em, El in L. destruct L as (Um & Hl & _).
  unfold write_receiver_report_block_in_place. rewrite Em, El.
  assert (Integers.try_from 3 (Z.min (cumulative_loss self) MAX_I24)
    = Ok (Z.min (cumulative_loss self) MAX_I24)) as ->.
  { apply IntegersFacts.try_from_Ok. split; [done|]. change (Integers.MAX 3) with 16777215.
    change MAX_I24 with 8388607. lia. }
  rewrite mbind_Ok. unfold report_block, reported.
  assert (saturating_sub max max_in_last = max - max_in_last) as -> by (unfold saturating_sub; lia).
  match goal with |- context [last_received_sender_info (?s <| cumulative_loss_in_last := ?v |>)] =>
    change (last_received_sender_info (s <| cumulative_loss_in_last := v |>))
      with (last_received_sender_info self) end.
  destruct (last_received_sender_info self) as [info|]; cbv iota beta;
    rewrite write_app; reflexivity.
Qed.

Lemma reported_ok self max : ok self -> max_seqnum self = Some max -> ok (reported self max).
Proof.
  intros [(U & Ul & L) J] Em. rewrite Em in L. destruct (max_seqnum_in_last self); [|done].
  split; [|done]. unfold loss_ok, reported. simpl. rewrite Em. unfold uint in *. lia.
Qed.

Lemma write_sender_stats self ssrc now buffer :
  same_stats self (write_sender_report_block_in_place self ssrc now buffer).1.
Proof. unfold write_sender_report_block_in_place. by destruct (last_received_sender_info self). Qed.

Lemma write_report_ok self ssrc now buffer self' buffer' o :
  ok self -> write_report_block_in_place (E:=unit) self ssrc now buffer = Ok (self', buffer', o) ->
  ok self'.
Proof.
  intros Hok H. unfold write_report_block_in_place in H.
  destruct (rtcp_report_payload_type self) as [pt|] eqn:Et; [|res_inv; by subst].
  case_if_in H.
  - destruct (write_sender_report_block_in_place self ssrc now buffer) as [s b] eqn:Ew.
    assert (s = self') as <- by congruence. apply (same_stats_ok self); [|done].
    pose proof (write_sender_stats self ssrc now buffer). by rewrite Ew in *.
  - case_if_in H; [|res_inv; by subst].
    destruct (max_seqnum self) as [m|] eqn:Em, (max_seqnum_in_last self) as [l|] eqn:El.
    1: { rewrite (write_receiver_report_ok _ _ _ _ m l) in H by done. rewrite mbind_Ok in H.
         assert (reported self m = self') as <- by congruence. by apply reported_ok. }
    all: unfold rtcp_report_payload_type in Et; rewrite Em, ?El in Et;
      destruct (sent_since_last_report self); [|done].
    all: assert (RTCP_TYPE_SENDER_REPORT = pt) as <- by congruence; done.
Qed.

Lemma report_block_ok self ssrc now max l :
  ok self -> uint 32 ssrc -> uint 32 max -> RtcpFacts.block_ok (report_block self ssrc now max l).
Proof.
  intros [(U & _) J] Hs Hm. unfold RtcpFacts.block_ok, report_block. simpl.
  assert (uint 32 (Z.shiftr (jitter_q4 self) 4)).
  { unfold jitter_ok, JITTER_LIMIT in J. rewrite Z.shiftr_div_pow2 by lia. unfold uint. dlia. }
  assert (uint 24 (Z.min (cumulative_loss self) MAX_I24)).
  { change MAX_I24 with 8388607. unfold uint in *. lia. }
  repeat split; try apply Hs; try apply Hm; try by apply H. all: try by apply H0.
  1, 2: destruct (last_received_sender_info self); [apply wrap_uint|]; done.
  all: destruct (last_received_sender_info self); [|done].
  all: unfold calculate_dlsr, Duration.saturating_duration_since, saturating_sub, NANOS_TO_DELAY_UNIT.
  all: case_if; dlia.
Qed.

(** A receiver report is read back with the block that was written. *)
Lemma receiver_report_read header ssrc b :
  RtcpHeader.payload_type header = RTCP_TYPE_RECEIVER_REPORT ->
  RtcpHeader.count_or_format header = 1 -> RtcpHeader.length_in_words header = 7 ->
  uint 32 ssrc -> RtcpFacts.block_ok b ->
  ReceiverReport.from_bytes_after_header (be_bytes 4 ssrc ++ to_vec b) header =
    Ok (ReceiverReport.mk header ssrc [b]).
Proof.
  intros Hp Hc Hl Hs Hb. destruct (RtcpFacts.block_roundtrip b [] Hb) as [Hr Hlen].
  unfold ReceiverReport.from_bytes_after_header. rewrite Hp, Hc, Hl. cbn zeta.
  unfold ReceiverReport.SSRC_LENGTH, ReportBlock.LENGTH.
  assert (length (be_bytes 4 ssrc ++ to_vec b) = 28%nat) as E by (rewrite length_app, Hlen; done).
  rewrite E. change (negb (RTCP_TYPE_RECEIVER_REPORT =? RTCP_TYPE_RECEIVER_REPORT)) with false.
  cbv iota. change (((Z.to_nat 7 * 4 <? 4 + Z.to_nat 1 * 24) || (28 <? Z.to_nat 7 * 4))%nat) with false.
  cbv iota. unfold parse_u32. rewrite ReadFacts.slice_parse_be by (first [reflexivity|lia]).
  rewrite drop_0, RtcpFacts.be_field by done. rewrite slice_from_ok by lia. rewrite mbind_Ok.
  rewrite drop_app_length' by (by rewrite length_be_bytes).
  change (Z.to_nat 1) with 1%nat. cbn [ReportBlock.read_blocks].
  rewrite app_nil_r in Hr. rewrite Hr, mbind_Ok.
  unfold ReportBlock.LENGTH. rewrite slice_from_ok by lia. done.
Qed.

(** So is a sender report without blocks. *)
Lemma sender_report_read header i :
  RtcpHeader.payload_type header = RTCP_TYPE_SENDER_REPORT ->
  RtcpHeader.count_or_format header = 0 -> RtcpHeader.length_in_words header = 6 ->
  RtcpFacts.info_ok i ->
  SenderReport.from_bytes_after_header (to_vec i) header = Ok (SenderReport.mk header i []).
Proof.
  intros Hp Hc Hl Hi. destruct (RtcpFacts.info_roundtrip (E:=Report.Error) i [] Hi) as [Hr Hlen].
  unfold SenderReport.from_bytes_after_header. rewrite Hp, Hc, Hl, Hlen. cbn zeta.
  rewrite app_nil_r in Hr.
  change (negb (RTCP_TYPE_SENDER_REPORT =? RTCP_TYPE_SENDER_REPORT)) with false. cbv iota.
  change (((Z.to_nat 6 * 4 <? SenderInfo.SENDER_INFO_LENGTH + Z.to_nat 0 * ReportBlock.LENGTH)
    || (24 <? Z.to_nat 6 * 4))%nat) with false.
  cbv iota. rewrite Hr, mbind_Ok. unfold SenderInfo.SENDER_INFO_LENGTH.
  rewrite slice_from_ok by lia. done.
Qed.

(** ** The loss count is the number of sequence numbers not received *)

(** No packet is so far from the largest one that it looks like a restart. *)
Fixpoint calm (max : Z) (l : list Z) : Prop :=
  match l with
  | [] => True
  | s :: l => abs_diff s max <= SEQNUM_GAP_THRESHOLD /\ calm (Z.max max s) l
  end.

(** Sequence number, payload type, timestamp and time of arrival. *)
Definition receive_all (self : t) (l : list (Z * Z * Z * Z)) : t :=
  fold_left (fun self '(s, pt, ts, time) => remember_received self s pt ts time) l self.

Definition seqnum_of (x : Z * Z * Z * Z) : Z := let '(s, _, _, _) := x in s.

Definition missing (first max : Z) (received : list Z) : list Z :=
  filter (fun s => s ∉ received) (seqZ first (max - first + 1)).

Lemma filter_split_length {A} (P : A -> Prop) `{!forall x, Decision (P x)} (l : list A) :
  length l = (length (filter P l) + length (filter (fun x => ~ P x) l))%nat.
Proof.
  induction l as [|x l IH]; [done|]. rewrite !filter_cons.
  destruct (decide (P x)), (decide (~ P x)); simpl; try tauto; lia.
Qed.

Lemma missing_length first max received : first <= max ->
  NoDup received -> Forall (fun s => first <= s <= max) received ->
  Z.of_nat (length (missing first max received)) = max - first + 1 - Z.of_nat (length received).
Proof.
  intros Hm Hd Hall. unfold missing.
  pose proof (length_seqZ first (max - first + 1)) as Hl.
  rewrite (filter_split_length (fun s => s ∈ received)) in Hl.
  assert (length (filter (fun s => s ∈ received) (seqZ first (max - first + 1))) = length received) as E.
  { apply Permutation_length, NoDup_Permutation; [apply NoDup_filter, NoDup_seqZ|done|].
    intros s. rewrite list_elem_of_filter, elem_of_seqZ. rewrite Forall_forall in Hall.
    split; [naive_solver|]. intros Hs. specialize (Hall s Hs). split; [done|lia]. }
  lia.
Qed.

Lemma receive_all_missing self first received max l :
  max_seqnum self = Some max -> first <= max -> uint 32 max -> 0 <= first ->
  NoDup (received ++ map seqnum_of l) -> Forall (fun s => first <= s <= max) received ->
  Forall (fun s => first <= s /\ uint 32 s) (map seqnum_of l) -> calm max (map seqnum_of l) ->
  cumulative_loss self = max - first + 1 - Z.of_nat (length received) ->
  let m := fold_left Z.max (map seqnum_of l) max in
  max_seqnum (receive_all self l) = Some m /\
  cumulative_loss (receive_all self l) =
    Z.of_nat (length (missing first m (received ++ map seqnum_of l))).
Proof.
  revert self received max.
  induction l as [|[[[s pt] ts] time] l IH]; intros self received max Em Hf Hm H0 Hd Hr Hl Hc Hloss; simpl.
  - split; [done|]. rewrite app_nil_r in *. by rewrite missing_length.
  - simpl in Hd, Hl, Hc. inversion_clear Hl as [|? ? [Hs1 Hs2] Hl']. destruct Hc as [Hc1 Hc2].
    destruct (remember_received_calm self max s pt ts time Em Hm Hs2 Hc1) as (E1 & _ & E3 & _).
    assert (received ++ s :: map seqnum_of l ≡ₚ (s :: received) ++ map seqnum_of l) as Ep
      by (symmetry; apply Permutation_middle).
    rewrite Ep in Hd. pose proof (proj1 (proj1 (NoDup_app _ _) Hd)) as Hd'.
    destruct (IH (remember_received self s pt ts time) (s :: received) (Z.max max s)) as [A B];
      [done|lia|unfold uint in *; lia|done|done| |done|done| |].
    + constructor; [lia|]. eapply Forall_impl; [exact Hr|]. simpl. lia.
    + rewrite E3. simpl length. unfold loss_after, saturating_add, saturating_sub, umax.
      destruct (Z.ltb_spec max s); [unfold uint in *; lia|].
      pose proof (missing_length first max (s :: received) Hf Hd') as Hmiss.
      simpl length in Hmiss. rewrite Hloss.
      assert (Forall (fun x => first <= x <= max) (s :: received)) by (constructor; [lia|done]).
      specialize (Hmiss ltac:(done)). lia.
    + split; [exact A|]. rewrite B. f_equal. unfold missing.
      apply Permutation_length. apply Permutation_refl'. apply list_filter_iff.
      intros y. by rewrite Ep.
Qed.

(** ** Reachable statistics *)

Inductive Event :=
| Received (seqnum payload_type rtp_timestamp receive_time : Z)
| ReceivedSenderReport (report : SenderReport.t) (receive_time : Z)
| ReceivedBlock (block : ReportBlock.t) (now : Z)
| PacketSent (outgoing : Packet.t) (now : Z)
| ReportDue (ssrc now : Z).

Definition perform (self : t) (e : Event) : Res unit t :=
  match e with
  | Received s pt ts time => Ok (remember_received self s pt ts time)
  | ReceivedSenderReport r time => Ok (remember_received_sender_report self r time)
  | ReceivedBlock b now => remember_report_block self b now
  | PacketSent p now => Ok (remember_sent self p now)
  | ReportDue ssrc now => '(self, _, _) ← write_report_block_in_place self ssrc now []; Ok self
  end.

Inductive reachable : t -> Prop :=
| reach_new now : reachable (new now)
| reach_step self e self' : reachable self -> perform self e = Ok self' -> reachable self'.

Lemma report_perform_ok self e self' : ok self -> perform self e = Ok self' -> ok self'.
Proof.
  intros Hok H. destruct e; simpl in H; try (injection H as <-).
  - by apply remember_received_ok.
  - by apply (same_stats_ok self); [apply remember_sender_report_stats|].
  - by apply (same_stats_ok self); [apply (remember_report_block_stats _ _ _ _ H)|].
  - by apply (same_stats_ok self); [apply remember_sent_stats|].
  - destruct (write_report_block_in_place self ssrc now []) as [[[s b] o]| |] eqn:E; [|done..].
    rewrite mbind_Ok in H. injection H as <-. by apply (write_report_ok _ _ _ _ _ _ _ Hok E).
Qed.

Lemma reachable_ok self : reachable self -> ok self.
Proof. induction 1; [apply new_ok|]. by eapply report_perform_ok. Qed.

End RtcpReportFacts.

Module RtcpReportProperties.
Import RtcpReportSender RtcpReportFacts.

(** The cumulative loss that an SSRC reports after receiving distinct packets
    in any order, none of them far enough from the largest to look like a
    restart, is exactly the number of sequence numbers from the first to the
    largest that have not arrived: reordered packets are no losses. *)
Theorem loss_counts_missing now first pt ts time l :
  uint 32 first -> NoDup (first :: map seqnum_of l) ->
  Forall (fun s => first <= s /\ uint 32 s) (map seqnum_of l) ->
  calm first (map seqnum_of l) ->
  let self := receive_all (new now) ((first, pt, ts, time) :: l) in
  let max := fold_left Z.max (map seqnum_of l) first in
  max_seqnum self = Some max /\
  cumulative_loss self = Z.of_nat (length (missing first max (first :: map seqnum_of l))).
Proof.
  intros Hf Hd Hl Hc. simpl.
  assert (u32 first = first) as E by by apply wrap_small.
  apply (receive_all_missing (remember_received (new now) first pt ts time) first [first] first);
    try done; unfold remember_received; simpl; rewrite ?E; try done; try apply Hf; try lia.
  constructor; [lia|done].
Qed.

Lemma loss_counts_missing_witness :
  let self := receive_all (new 0) [(7, 108, 0, 0); (12, 108, 0, 0); (9, 108, 0, 0); (8, 108, 0, 0)] in
  max_seqnum self = Some 12 /\ cumulative_loss self = 2.
Proof.
  apply (loss_counts_missing 0 7 108 0 0 [(12, 108, 0, 0); (9, 108, 0, 0); (8, 108, 0, 0)]).
  - unfold uint; lia.
  - apply (bool_decide_unpack _); vm_compute; exact I.
  - repeat constructor; unfold uint; simpl; lia.
  - vm_compute. repeat split; discriminate.
Defined.

(** Whatever was received and sent, in any order, a receiver report never
    panics; its loss fraction is the share of the packets expected since the
    last report that was lost, in 256ths, below 256 and with no overflow up to
    2^24 expected packets; its jitter is at most ten seconds of the fastest
    clock; and the peer reads back exactly the block that was written. *)
Theorem receiver_report_sound self ssrc now :
  reachable self -> uint 32 ssrc -> rtcp_report_payload_type self = Some RTCP_TYPE_RECEIVER_REPORT ->
  let header := RtcpHeader.mk false 1 RTCP_TYPE_RECEIVER_REPORT 7 in
  exists self' bytes block max max_in_last,
    write_report_block_in_place (E:=unit) self ssrc now [] =
      Ok (self', bytes, Some (RTCP_TYPE_RECEIVER_REPORT, 1, 28%nat)) /\
    ReceiverReport.from_bytes_after_header bytes header = Ok (ReceiverReport.mk header ssrc [block]) /\
    ReportBlock.ssrc block = ssrc /\ max_seqnum self = Some max /\
    max_seqnum_in_last self = Some max_in_last /\ max_seqnum_in_last self' = Some max /\
    ReportBlock.highest_sequence_num block = max /\ ReportBlock.jitter block <= 900000 /\
    let lost := saturating_sub (cumulative_loss self) (cumulative_loss_in_last self) in
    (max_in_last < max -> lost < max - max_in_last) /\
    (max_in_last < max <= max_in_last + 2 ^ 24 ->
     ReportBlock.fraction_loss block = 256 * lost / (max - max_in_last) /\
     ReportBlock.fraction_loss block < 256).
Proof.
  intros Hr Hs Ht header. pose proof (reachable_ok self Hr) as Hok.
  unfold write_report_block_in_place. rewrite Ht. unfold rtcp_report_payload_type in Ht.
  destruct (sent_since_last_report self); [done|]. pose proof (proj1 Hok) as (_ & _ & L).
  destruct (max_seqnum self) as [max|] eqn:Em; [|done].
  destruct (max_seqnum_in_last self) as [last|] eqn:El; [|done]. destruct L as (Um & Hle & Hub & Hlt).
  change (RTCP_TYPE_RECEIVER_REPORT =? RTCP_TYPE_SENDER_REPORT) with false.
  change (RTCP_TYPE_RECEIVER_REPORT =? RTCP_TYPE_RECEIVER_REPORT) with true. cbv iota.
  rewrite (write_receiver_report_ok _ _ _ _ max last) by done. rewrite mbind_Ok.
  eexists _, _, (report_block self ssrc now max last), max, last.
  split; [reflexivity|]. split; [apply receiver_report_read; try done; by apply report_block_ok|].
  do 5 (split; [done|]). split.
  { destruct Hok as [_ J]. unfold jitter_ok, JITTER_LIMIT in J. simpl.
    rewrite Z.shiftr_div_pow2 by lia. dlia. }
  unfold report_block. simpl.
  set (lost := saturating_sub (cumulative_loss self) (cumulative_loss_in_last self)).
  assert (last < max -> 0 <= lost < max - last) as Hlost by (unfold lost, saturating_sub; lia).
  split; [intros; by apply Hlost|]. intros [Hlm Hm]. specialize (Hlost Hlm).
  destruct (Z.eqb_spec (max - last) 0); [lia|].
  assert (0 <= 256 * lost / (max - last) < 256).
  { split; [apply Z.div_pos; lia|]. apply Z.div_lt_upper_bound; lia. }
  unfold u32, u8. rewrite (wrap_small 32) by (unfold uint; lia).
  rewrite (wrap_small 8) by (unfold uint; lia). split; [done|lia].
Qed.

Definition sample : t :=
  receive_all (new 0) [(7, 108, 0, 0); (12, 108, 0, 0); (9, 108, 0, 0)].

Lemma receiver_report_sound_witness :
  exists self' bytes block max max_in_last,
    write_report_block_in_place (E:=unit) sample 77 5 [] =
      Ok (self', bytes, Some (RTCP_TYPE_RECEIVER_REPORT, 1, 28%nat)) /\
    ReceiverReport.from_bytes_after_header bytes (RtcpHeader.mk false 1 201 7) =
      Ok (ReceiverReport.mk (RtcpHeader.mk false 1 201 7) 77 [block]) /\
    ReportBlock.ssrc block = 77 /\ max_seqnum sample = Some max /\
    max_seqnum_in_last sample = Some max_in_last /\ max_seqnum_in_last self' = Some max /\
    ReportBlock.highest_sequence_num block = max /\ ReportBlock.jitter block <= 900000 /\
    let lost := saturating_sub (cumulative_loss sample) (cumulative_loss_in_last sample) in
    (max_in_last < max -> lost < max - max_in_last) /\
    (max_in_last < max <= max_in_last + 2 ^ 24 ->
     ReportBlock.fraction_loss block = 256 * lost / (max - max_in_last) /\
     ReportBlock.fraction_loss block < 256).
Proof.
  apply (receiver_report_sound sample 77 5);
    [|unfold uint; lia|reflexivity..].
  apply (reach_step (receive_all (new 0) [(7, 108, 0, 0); (12, 108, 0, 0)]) (Received 9 108 0 0));
    [|vm_compute; reflexivity].
  apply (reach_step (receive_all (new 0) [(7, 108, 0, 0)]) (Received 12 108 0 0)); [|vm_compute; reflexivity].
  apply (reach_step (new 0) (Received 7 108 0 0)); [apply reach_new|vm_compute; reflexivity].
Defined.

End RtcpReportProperties.
