(* ===== verification/TransportCc.v ===== *)
(** * TransportCc: transport-wide congestion-control feedback

    [src/backend/src/transportcc.rs]: the sender that numbers packets and turns
    feedback into acknowledgements, the receiver that collects arrivals, and the
    feedback message between them: status chunks (run lengths and bit vectors)
    and arrival deltas.  Instants and durations are nanoseconds; a
    [RemoteInstant] is the duration since the remote epoch. *)
From S2P Require Import Prelude Common Collections Float Bytes RtpHeader.
Import Read Serialize Expand.

(** ** Status chunks *)

Inductive PacketStatus := NotReceived | ReceivedSmallDelta | ReceivedLargeOrNegativeDelta.

#[global] Instance PacketStatus_eq_dec : EqDecision PacketStatus.
Proof. solve_decision. Defined.

(** [status as u16] *)
Definition status_code (status : PacketStatus) : Z :=
  match status with
  | NotReceived => 0
  | ReceivedSmallDelta => 1
  | ReceivedLargeOrNegativeDelta => 2
  end.

Definition is_large (status : PacketStatus) : bool :=
  bool_decide (status = ReceivedLargeOrNegativeDelta).

(** Every caller masks [size] with 1 or 3, so the [unreachable!] is. *)
Definition status_from_u8 (size : Z) : option PacketStatus :=
  if size =? 0 then Some NotReceived
  else if size =? 1 then Some ReceivedSmallDelta
  else if size =? 2 then Some ReceivedLargeOrNegativeDelta
  else None.

Module PacketStatusChunk.

(** The numbers of bits: 13, or 14 in both vectors. *)
Inductive t :=
| RunLength (len : Z) (status : PacketStatus)
| Vector1 (len bits : Z)
| Vector2 (len bits : Z).

Definition len (self : t) : Z :=
  match self with RunLength len _ | Vector1 len _ | Vector2 len _ => len end.

Definition into_iter (self : t) : list (option PacketStatus) :=
  match self with
  | RunLength len status => replicate (Z.to_nat len) (Some status)
  | Vector1 len bits =>
      take (Z.to_nat len)
        (map (fun i => status_from_u8 (Z.land (Z.shiftr bits (15 - i)) 1)) (seqZ 2 14))
  | Vector2 len bits =>
      take (Z.to_nat len)
        (map (fun i => status_from_u8 (Z.land (Z.shiftr bits (14 - i)) 3)) [2; 4; 6; 8; 10; 12; 14])
  end.

Definition from_u16 (encoded : Z) : option t :=
  let tag := Z.shiftr encoded 14 in
  if (tag =? 1) || (tag =? 0) then
    match status_from_u8 (Z.land (Z.shiftr encoded 13) 3) with
    | Some status => Some (RunLength (Z.land encoded 8191) status)
    | None => None
    end
  else if tag =? 2 then Some (Vector1 14 (Z.land encoded 16383))
  else Some (Vector2 7 (Z.land encoded 16383)).

Definition as_16 (self : t) : Z :=
  match self with
  | RunLength len status => Z.lor (u16 (Z.shiftl (status_code status) 13)) len
  | Vector1 _ bits => Z.lor (Z.shiftl 2 14) bits
  | Vector2 _ bits => Z.lor (Z.shiftl 3 14) bits
  end.

(** The loop of [vector1_from_iter] and [vector2_from_iter]: [shift i] is where
    the [i]th status goes. *)
Fixpoint splice_all {E} (shift : Z -> Z) (i : Z) (statuses : list (option PacketStatus))
    (len bits : Z) : Res E (Z * Z) :=
  match statuses with
  | [] => Ok (len, bits)
  | status :: rest =>
      status ← unwrap status;
      splice_all shift (i + 1) rest (len + 1)
        (Z.lor bits (u16 (Z.shiftl (status_code status) (shift i))))
  end.

Definition vector1_from_iter {E} (statuses : list (option PacketStatus)) : Res E t :=
  '(len, bits) ← splice_all (fun i => 13 - i) 0 (take 14 statuses) 0 0;
  Ok (Vector1 len bits).

Definition vector2_from_iter {E} (statuses : list (option PacketStatus)) : Res E t :=
  '(len, bits) ← splice_all (fun i => 2 * (6 - i)) 0 (take 7 statuses) 0 0;
  Ok (Vector2 len bits).

(** The first and the last arms of [push]: a full chunk, and a [Vector2]. *)
Definition push_new (self : t) (status : PacketStatus) : t * option t :=
  (self, Some (RunLength 1 status)).

Definition push_vector2 (len bits : Z) (status : PacketStatus) : t * option t :=
  if 7 <=? len then push_new (Vector2 len bits) status
  else
    (Vector2 (len + 1) (Z.lor bits (u16 (Z.shiftl (status_code status) (2 * (6 - len))))), None).

(** [push] on the [Vector2] that [vector2_from_iter] makes *)
Definition push_as_vector2 {E} (statuses : list (option PacketStatus)) (status : PacketStatus)
    : Res E (t * option t) :=
  v ← vector2_from_iter statuses;
  match v with
  | Vector2 len bits => Ok (push_vector2 len bits status)
  | _ => Panic
  end.

Definition push_vector1 {E} (len bits : Z) (status : PacketStatus) : Res E (t * option t) :=
  let self := Vector1 len bits in
  if 14 <=? len then Ok (push_new self status)
  else if negb (is_large status) then
    Ok (Vector1 (len + 1) (Z.lor bits (u16 (Z.shiftl (status_code status) (13 - len)))), None)
  else if len <=? 6 then push_as_vector2 (into_iter self) status
  else
    first ← vector2_from_iter (take 7 (into_iter self));
    '(second, _) ← push_as_vector2 (drop 7 (into_iter self)) status;
    Ok (first, Some second).

(** [push] on the [Vector1] that [vector1_from_iter] makes *)
Definition push_as_vector1 {E} (statuses : list (option PacketStatus)) (status : PacketStatus)
    : Res E (t * option t) :=
  v ← vector1_from_iter statuses;
  match v with
  | Vector1 len bits => push_vector1 len bits status
  | _ => Panic
  end.

Definition push {E} (self : t) (status : PacketStatus) : Res E (t * option t) :=
  match self with
  | RunLength len existing_status =>
      if 8191 <=? len then Ok (push_new self status)
      else if bool_decide (status = existing_status) then Ok (RunLength (len + 1) status, None)
      else if (len <=? 13) && negb (is_large status) && negb (is_large existing_status)
      then push_as_vector1 (into_iter self) status
      else if len <=? 6 then push_as_vector2 (into_iter self) status
      else Ok (push_new self status)
  | Vector1 len bits => push_vector1 len bits status
  | Vector2 len bits => Ok (push_vector2 len bits status)
  end.

End PacketStatusChunk.

Module PacketStatusChunks.
Import PacketStatusChunk.

Definition t : Type := list PacketStatusChunk.t.

Definition push {E} (chunks : t) (status : PacketStatus) : Res E t :=
  match last chunks with
  | Some l =>
      '(last1, last2) ← PacketStatusChunk.push l status;
      Ok (removelast chunks ++ last1 :: match last2 with Some c => [c] | None => [] end)
  | None => Ok (chunks ++ [RunLength 1 status])
  end.

(** [status_chunks.push(status)], [n] times *)
Fixpoint push_n {E} (n : nat) (chunks : t) (status : PacketStatus) : Res E t :=
  match n with
  | O => Ok chunks
  | S n => chunks ← push chunks status; push_n n chunks status
  end.

Definition written_len (chunks : t) : nat := 2 * length chunks.
Definition write (chunks : t) (out : bytes) : bytes :=
  fold_left (fun out chunk => Serialize.write (w16 (as_16 chunk)) out) chunks out.

End PacketStatusChunks.

(** ** Feedback messages *)
Module Feedback.

Definition MICROS_PER_REFERENCE_TICK : Z := Z.shiftl 250 8.
Definition MICROS_PER_DELTA_TICK : Z := 250.
Definition MAX_SMALL_DELTA_TICKS : Z := 255.
Definition MAX_LARGE_DELTA_TICKS : Z := 32767.
Definition MIN_LARGE_DELTA_TICKS : Z := -32768.

Definition ticks_from_duration (duration micros_per_tick : Z) : Z :=
  u64 (Duration.as_micros duration) / micros_per_tick.

Definition duration_from_ticks (ticks micros_per_tick : Z) : Z :=
  Duration.from_micros (u64 (ticks * micros_per_tick)).

Definition ticks_from_before_and_after {E} (before after micros_per_tick : Z) : Res E Z :=
  if before <? after then
    d ← unwrap (Duration.checked_duration_since after before);
    Ok (i64 (ticks_from_duration d micros_per_tick))
  else
    d ← unwrap (Duration.checked_duration_since before after);
    Ok (i64 (- i64 (ticks_from_duration d micros_per_tick))).

(** ssrc, first sequence number, status count, reference time, feedback number;
    the status chunks; the deltas. *)
Definition Header : Type := U32 * (U16 * (U16 * (U24 * bytes))).
Record Message := message { header : Header; status_chunks : PacketStatusChunks.t; deltas : bytes }.

#[global] Instance message_writer : Writer Message := {
  written_len m :=
    (written_len (header m) + (PacketStatusChunks.written_len (status_chunks m)
     + length (deltas m)))%nat;
  write m out := PacketStatusChunks.write (status_chunks m) (write (header m) out) ++ deltas m
}.

(** The [while] loop: arrivals that fit into the message.  Returns the last
    sequence number, the deltas, the chunks and the arrivals left. *)
Fixpoint fill {E} (first_seqnum : Z) (arrivals : list (Z * Z)) (prev_seqnum prev_arrival : Z)
    (encoded_receive_deltas : bytes) (status_chunks : PacketStatusChunks.t)
    : Res E (Z * bytes * PacketStatusChunks.t * list (Z * Z)) :=
  match arrivals with
  | [] => Ok (prev_seqnum, encoded_receive_deltas, status_chunks, [])
  | (seqnum, arrival) :: rest =>
      let stop := fun chunks => Ok (prev_seqnum, encoded_receive_deltas, chunks, arrivals) in
      if u64 (first_seqnum + umax 16) <? seqnum then stop status_chunks
      else if (1100 <? length encoded_receive_deltas + PacketStatusChunks.written_len status_chunks)%nat
      then stop status_chunks
      else
        status_chunks ←
          PacketStatusChunks.push_n (Z.to_nat (seqnum - u64 (prev_seqnum + 1))) status_chunks
            NotReceived;
        delta_ticks ← ticks_from_before_and_after prev_arrival arrival MICROS_PER_DELTA_TICK;
        if (0 <=? delta_ticks) && (delta_ticks <=? MAX_SMALL_DELTA_TICKS) then
          status_chunks ← PacketStatusChunks.push status_chunks ReceivedSmallDelta;
          fill first_seqnum rest seqnum arrival
            (encoded_receive_deltas ++ [u8 delta_ticks]) status_chunks
        else if (MIN_LARGE_DELTA_TICKS <=? delta_ticks) && (delta_ticks <=? MAX_LARGE_DELTA_TICKS)
        then
          status_chunks ← PacketStatusChunks.push status_chunks ReceivedLargeOrNegativeDelta;
          fill first_seqnum rest seqnum arrival
            (encoded_receive_deltas ++ be_bytes 2 (u16 delta_ticks)) status_chunks
        else stop status_chunks
  end.

(** The iterator: a message per round.  A round that takes no arrival would
    repeat for ever; the fuel runs out then. *)
Fixpoint messages {E} (fuel : nat) (ssrc next_feedback_seqnum epoch : Z) (arrivals : list (Z * Z))
    : Res E (list Message * Z) :=
  match arrivals with
  | [] => Ok ([], next_feedback_seqnum)
  | (first_seqnum, first_arrival) :: _ =>
      match fuel with
      | O => Panic
      | S fuel =>
          let reference_time_ticks :=
            ticks_from_duration (Duration.saturating_duration_since first_arrival epoch)
              MICROS_PER_REFERENCE_TICK in
          let reference_time :=
            epoch + duration_from_ticks reference_time_ticks MICROS_PER_REFERENCE_TICK in
          '(last_seqnum, encoded_receive_deltas, status_chunks, arrivals) ←
            fill first_seqnum arrivals first_seqnum reference_time [] [];
          let status_count := u16 (u64 (last_seqnum - first_seqnum + 1)) in
          let header :=
            (w32 ssrc, (w16 (u16 first_seqnum), (w16 status_count,
             (w24 (Integers.truncate 3 (u32 reference_time_ticks)), [next_feedback_seqnum])))) in
          '(rest, next) ← messages fuel ssrc (u8 (next_feedback_seqnum + 1)) epoch arrivals;
          Ok (message header status_chunks encoded_receive_deltas :: rest, next)
      end
  end.

Definition write_feedback {E} (ssrc next_feedback_seqnum epoch : Z) (arrivals : list (Z * Z))
    : Res E (list Message * Z) :=
  messages (length arrivals) ssrc next_feedback_seqnum epoch arrivals.

(** [payload.read_uN::<BE>().ok()?] *)
Definition read_be (n : nat) (payload : bytes) : Res unit (Z * bytes) :=
  '(b, rest) ← ok_or tt (read_slice payload n); Ok (be_val b, rest).

(** The [while status_chunks_sum_count < status_count] loop; two bytes a round. *)
Fixpoint read_status_chunks (fuel : nat) (status_count sum_count : Z) (payload : bytes)
    : Res unit (list PacketStatusChunk.t * bytes) :=
  if sum_count <? status_count then
    match fuel with
    | O => Panic
    | S fuel =>
        '(encoded_status_chunk, payload) ← read_be 2 payload;
        status_chunk ← ok_or tt (PacketStatusChunk.from_u16 encoded_status_chunk);
        '(rest, payload) ←
          read_status_chunks fuel status_count (sum_count + PacketStatusChunk.len status_chunk)
            payload;
        Ok (status_chunk :: rest, payload)
    end
  else Ok ([], payload).

(** The [for] loop over the zipped sequence numbers and statuses. *)
Fixpoint read_arrivals (reference_time_ticks arrivals_sum_delta_ticks : Z)
    (l : list (Z * option PacketStatus)) (payload : bytes) : Res unit (list (Z * Z)) :=
  match l with
  | [] => Ok []
  | (seqnum, status) :: l =>
      status ← ok_or tt status;
      '(delta_ticks, payload) ←
        match status with
        | NotReceived => Ok (None, payload)
        | ReceivedSmallDelta => '(d, payload) ← read_be 1 payload; Ok (Some d, payload)
        | ReceivedLargeOrNegativeDelta =>
            '(d, payload) ← read_be 2 payload; Ok (Some (sint 16 d), payload)
        end;
      match delta_ticks with
      | Some delta_ticks =>
          let arrivals_sum_delta_ticks := i32 (arrivals_sum_delta_ticks + delta_ticks) in
          let arrival_micros :=
            u64 (i64 (i64 (MICROS_PER_REFERENCE_TICK * reference_time_ticks)
                      + i64 (MICROS_PER_DELTA_TICK * arrivals_sum_delta_ticks))) in
          rest ← read_arrivals reference_time_ticks arrivals_sum_delta_ticks l payload;
          Ok ((seqnum, Duration.from_micros arrival_micros) :: rest)
      | None => read_arrivals reference_time_ticks arrivals_sum_delta_ticks l payload
      end
  end.

(** What follows the base sequence number. *)
Definition read_statuses (base_seqnum : Z) (payload : bytes) : Res unit (Z * list (Z * Z)) :=
  '(status_count, payload) ← read_be 2 payload;
  '(reference_time_ticks, payload) ← read_be 3 payload;
  '(feedback_seqnum, payload) ← read_be 1 payload;
  '(status_chunks, payload) ← read_status_chunks (S (length payload)) status_count 0 payload;
  let seqnums := seqZ base_seqnum (u64 (base_seqnum + status_count) - base_seqnum) in
  let statuses := concat (map PacketStatusChunk.into_iter status_chunks) in
  arrivals ← read_arrivals reference_time_ticks 0 (zip seqnums statuses) payload;
  Ok (feedback_seqnum, arrivals).

(** The result and [*max_seqnum], which changes even when the rest is malformed. *)
Definition read_feedback (payload : bytes) (max_seqnum : Z)
    : Res unit (Z * list (Z * Z)) * Z :=
  match '(_, payload) ← read_be 4 payload; read_be 2 payload with
  | Ok (base_seqnum, payload) =>
      let '(base_seqnum, max_seqnum) := expand_seqnum base_seqnum max_seqnum in
      (read_statuses base_seqnum payload, max_seqnum)
  | Err e => (Err e, max_seqnum)
  | Panic => (Panic, max_seqnum)
  end.

End Feedback.

(** ** The two ends *)

(** [size] in bits *)
Record Ack := ack { size : Z; departure : Z; arrival : Z; feedback_arrival : Z }.

Module Sender.

Record t := mk {
  next_send_seqnum : Z;
  max_received_seqnum : Z;
  size_by_seqnum : TwoGenerationCache.t Z (Z * Z)
}.

Definition new (now : Z) : t := mk 1 0 (TwoGenerationCache.new (Duration.from_secs 10) now).

Definition increment_seqnum (self : t) : Z * t :=
  (next_send_seqnum self,
   mk (u64 (next_send_seqnum self + 1)) (max_received_seqnum self) (size_by_seqnum self)).

Definition remember_sent (self : t) (seqnum size now : Z) : t :=
  mk (next_send_seqnum self) (max_received_seqnum self)
     (TwoGenerationCache.insert (size_by_seqnum self) seqnum (size, now) now).

(** The inner loop: what was sent and not acknowledged yet. *)
Fixpoint correlate (self : t) (arrivals : list (Z * Z)) (feedback_arrival : Z) : t * list Ack :=
  match arrivals with
  | [] => (self, [])
  | (seqnum, arrival) :: rest =>
      let '(cache, sent) := TwoGenerationCache.remove (size_by_seqnum self) seqnum in
      let self := mk (next_send_seqnum self) (max_received_seqnum self) cache in
      let '(self, acks) := correlate self rest feedback_arrival in
      (self,
       match sent with
       | Some (size, departure) => ack size departure arrival feedback_arrival :: acks
       | None => acks
       end)
  end.

Fixpoint process_feedback_and_correlate_acks (self : t) (feedback : list bytes)
    (feedback_arrival : Z) : Res unit (t * list Ack) :=
  match feedback with
  | [] => Ok (self, [])
  | f :: feedback =>
      let '(r, max) := Feedback.read_feedback f (max_received_seqnum self) in
      let self := mk (next_send_seqnum self) max (size_by_seqnum self) in
      o ← ok_opt r;
      let '(self, acks) :=
        match o with
        | Some (_, arrivals) => correlate self arrivals feedback_arrival
        | None => (self, [])
        end in
      '(self, more) ← process_feedback_and_correlate_acks self feedback feedback_arrival;
      Ok (self, acks ++ more)
  end.

End Sender.

Module Receiver.

(** The [BTreeMap] is the list of its entries in the order of the keys. *)
Record t := mk {
  ssrc : Z;
  epoch : Z;
  next_feedback_seqnum : Z;
  unacked_arrival_by_seqnum : list (Z * Z)
}.

Definition new (ssrc epoch : Z) : t := mk ssrc epoch 1 [].

Definition remember_received (self : t) (seqnum arrival : Z) : t :=
  if existsb (fun e => e.1 =? seqnum) (unacked_arrival_by_seqnum self) then self
  else mk (ssrc self) (epoch self) (next_feedback_seqnum self)
          (KeySortedCache.btree_insert seqnum arrival (unacked_arrival_by_seqnum self)).

Definition send_acks {E} (self : t) : Res E (t * list Feedback.Message) :=
  '(messages, next) ←
    Feedback.write_feedback (ssrc self) (next_feedback_seqnum self) (epoch self)
      (unacked_arrival_by_seqnum self);
  Ok (mk (ssrc self) (epoch self) next [], messages).

End Receiver.

(** * Theorems *)

Module ChunkFacts.
Import PacketStatusChunk.

(** ** Statuses packed in slots of [w] bits, the first one highest *)
Fixpoint pack (w : Z) (n : nat) (l : list PacketStatus) : Z :=
  match l, n with
  | s :: l, S n => status_code s * 2 ^ (w * Z.of_nat n) + pack w n l
  | _, _ => 0
  end.

(** [w] bits are enough for the codes of [l]. *)
Definition fits (w : Z) (l : list PacketStatus) : Prop := Forall (fun s => status_code s < 2 ^ w) l.

Lemma fits_2 l : fits 2 l.
Proof. apply Forall_forall. intros [] _; done. Qed.

Lemma status_code_uint s : 0 <= status_code s.
Proof. by destruct s. Qed.

Lemma code_not_large s : is_large s = false <-> status_code s < 2 ^ 1.
Proof. unfold is_large. destruct s; simpl; split; try done; lia. Qed.

Lemma pow_split w a b : 0 < w ->
  2 ^ (w * Z.of_nat (a + b)) = 2 ^ (w * Z.of_nat a) * 2 ^ (w * Z.of_nat b).
Proof. intros. rewrite <- Z.pow_add_r by nia. f_equal. lia. Qed.

Lemma pow_slot_pos w n : 0 < w -> 0 < 2 ^ (w * Z.of_nat n).
Proof. intros. apply Z.pow_pos_nonneg; nia. Qed.

Lemma pow_succ_slot w n : 0 < w -> 2 ^ (w * Z.of_nat (S n)) = 2 ^ w * 2 ^ (w * Z.of_nat n).
Proof. intros. rewrite <- Z.pow_add_r by nia. f_equal. lia. Qed.

Lemma pack_uint w n l : 0 < w -> fits w l -> uint (w * Z.of_nat n) (pack w n l).
Proof.
  intros Hw. revert n. induction l as [|s l IH]; intros n Hf.
  - destruct n; simpl; (split; [lia|apply Z.pow_pos_nonneg; lia]).
  - destruct n as [|n]; [simpl; split; [lia|apply Z.pow_pos_nonneg; lia]|].
    inversion_clear Hf. specialize (IH n ltac:(done)). cbn [pack]. unfold uint in *.
    rewrite pow_succ_slot by done. pose proof (status_code_uint s). nia.
Qed.

Lemma pack_snoc w n l s : (length l < n)%nat ->
  pack w n (l ++ [s]) = pack w n l + status_code s * 2 ^ (w * Z.of_nat (n - 1 - length l)).
Proof.
  revert n. induction l as [|x l IH]; intros n Hn; destruct n as [|n]; simpl in Hn; try lia; cbn [app pack length].
  - rewrite Nat.sub_0_r. replace (S n - 1)%nat with n by lia. destruct n; simpl; lia.
  - rewrite IH by lia. rewrite Z.add_assoc. do 5 f_equal. lia.
Qed.

Lemma pack_low w n l : 0 < w -> (length l <= n)%nat -> pack w n l mod 2 ^ (w * Z.of_nat (n - length l)) = 0.
Proof.
  intros Hw. revert n. induction l as [|x l IH]; intros n Hn.
  - assert (pack w n [] = 0) as -> by (by destruct n). apply Z.mod_0_l, Z.pow_nonzero; nia.
  - destruct n as [|n]; simpl in Hn; [lia|]. cbn [pack length]. replace (S n - S (length l))%nat with (n - length l)%nat by lia.
    assert (2 ^ (w * Z.of_nat n) = 2 ^ (w * Z.of_nat (length l)) * 2 ^ (w * Z.of_nat (n - length l))) as ->.
    { rewrite <- pow_split by done. do 3 f_equal. lia. }
    pose proof (pow_slot_pos w (n - length l) Hw).
    rewrite Z.mul_assoc, Z.add_comm, Z.mod_add by lia. apply IH. lia.
Qed.

(** Splicing one more status in. *)
Lemma splice_pack w n l s : 0 < w -> w * Z.of_nat n <= 16 -> (length l < n)%nat -> status_code s < 2 ^ w ->
  Z.lor (pack w n l) (u16 (Z.shiftl (status_code s) (w * Z.of_nat (n - 1 - length l)))) =
    pack w n (l ++ [s]).
Proof.
  intros Hw Hn Hl Hs. rewrite Z.shiftl_mul_pow2 by nia. rewrite pack_snoc by done.
  pose proof (pow_slot_pos w (n - 1 - length l) Hw) as Hp.
  assert (w * Z.of_nat (n - length l) = w + w * Z.of_nat (n - 1 - length l)) as Ek.
  { replace (n - length l)%nat with (S (n - 1 - length l)) by lia. rewrite Nat2Z.inj_succ. ring. }
  assert (w * Z.of_nat (n - length l) <= 16) by nia.
  set (k := w * Z.of_nat (n - 1 - length l)) in *. assert (0 <= k) by (unfold k; nia).
  assert (uint (w + k) (status_code s * 2 ^ k)) as Hu.
  { pose proof (status_code_uint s). unfold uint. rewrite Z.pow_add_r by lia. nia. }
  unfold u16. rewrite (wrap_small 16).
  - rewrite (lor_add_low (w + k)); [done|lia| |done]. rewrite <- Ek. apply pack_low; lia.
  - destruct Hu. split; [done|]. eapply Z.lt_le_trans; [eassumption|]. apply Z.pow_le_mono_r; lia.
Qed.

(** Reading slot [i] back. *)
Lemma pack_slot w n l i : 0 < w -> fits w l -> (i < n)%nat ->
  wrap w (Z.shiftr (pack w n l) (w * Z.of_nat (n - 1 - i))) =
    match l !! i with Some s => status_code s | None => 0 end.
Proof.
  intros Hw. revert n i. induction l as [|s l IH]; intros n i Hf Hi.
  - assert (pack w n [] = 0) as -> by (by destruct n). rewrite Z.shiftr_0_l, lookup_nil. by apply Z.mod_0_l, Z.pow_nonzero; lia.
  - destruct n as [|n]; [lia|]. inversion_clear Hf as [|? ? Hs Hl]. cbn [pack].
    pose proof (pack_uint w n l Hw Hl) as Hu. pose proof (status_code_uint s).
    rewrite Z.shiftr_div_pow2 by nia. unfold wrap. pose proof (pow_slot_pos w n Hw). destruct i as [|i]; simpl lookup.
    + replace (S n - 1 - 0)%nat with n by lia. rewrite Z.add_comm, Z.div_add by lia.
      rewrite Z.div_small by apply Hu. rewrite Z.mod_small; lia.
    + replace (S n - 1 - S i)%nat with (n - 1 - i)%nat by lia.
      assert (2 ^ (w * Z.of_nat n) = 2 ^ (w * Z.of_nat i) * 2 ^ w * 2 ^ (w * Z.of_nat (n - 1 - i))) as ->.
      { rewrite <- (Z.mul_comm (2 ^ w)), <- pow_succ_slot, <- pow_split by done. do 3 f_equal. lia. }
      pose proof (pow_slot_pos w (n - 1 - i) Hw). assert (0 < 2 ^ w) by (apply Z.pow_pos_nonneg; lia).
      rewrite Z.mul_assoc, Z.add_comm, Z.div_add by lia. rewrite Z.mul_assoc, Z.mod_add by lia.
      rewrite <- Z.shiftr_div_pow2 by nia. apply IH; [done|lia].
Qed.

Lemma pack_padded w n l k : pack w n (l ++ replicate k NotReceived) = pack w n l.
Proof.
  revert n. induction l as [|s l IH]; intros n.
  - simpl. destruct n; [by destruct k|]. revert n. induction k as [|k IH]; intros n; [done|].
    cbn [replicate pack status_code]. destruct n; [by destruct k|]. by rewrite IH.
  - destruct n; [done|]. cbn [app pack]. by rewrite IH.
Qed.

Lemma status_from_code s : status_from_u8 (status_code s) = Some s.
Proof. by destruct s. Qed.

(** ** What a chunk stands for *)

#[local] Arguments pack : simpl never.

Definition encodes (c : t) (l : list PacketStatus) : Prop :=
  match c with
  | RunLength len status => 0 <= len <= 8191 /\ l = replicate (Z.to_nat len) status
  | Vector1 len bits => len = Z.of_nat (length l) /\ len <= 14 /\ fits 1 l /\ bits = pack 1 14 l
  | Vector2 len bits => len = Z.of_nat (length l) /\ len <= 7 /\ bits = pack 2 7 l
  end.

(** The chunk stands for nothing more once it is written. *)
Definition exact (c : t) : Prop :=
  match c with RunLength _ _ => True | Vector1 len _ => len = 14 | Vector2 len _ => len = 7 end.

Lemma encodes_len c l : encodes c l -> len c = Z.of_nat (length l).
Proof. destruct c; simpl; [intros [H ->]; rewrite length_replicate; lia|naive_solver..]. Qed.

(** The slots of a vector, in order. *)
Lemma take_slots (n : nat) l (f : Z -> option PacketStatus) k :
  (length l <= n)%nat ->
  (forall i, (i < n)%nat -> f (Z.of_nat i) = Some (match l !! i with Some s => s | None => NotReceived end)) ->
  k = length l -> take k (map f (seqZ 0 (Z.of_nat n))) = map Some l.
Proof.
  intros Hl Hf ->. apply list_eq. intros i. destruct (Nat.lt_ge_cases i (length l)) as [Hi|Hi].
  - rewrite lookup_take_lt, (list_lookup_fmap f), (list_lookup_fmap Some) by done.
    destruct (lookup_lt_is_Some_2 l i Hi) as [s Es]. rewrite Es. simpl.
    rewrite lookup_seqZ_lt by lia. simpl. rewrite Z.add_0_l, Hf by lia. by rewrite Es.
  - rewrite !lookup_ge_None_2; [done|by rewrite length_fmap|rewrite length_take; lia].
Qed.

Lemma slot_1 l i : fits 1 l -> (i < 14)%nat ->
  status_from_u8 (Z.land (Z.shiftr (pack 1 14 l) (13 - Z.of_nat i)) 1) =
    Some (match l !! i with Some s => s | None => NotReceived end).
Proof.
  intros Hf Hi. rewrite (land_ones_mod 1) by lia.
  replace (13 - Z.of_nat i) with (1 * Z.of_nat (14 - 1 - i)) by lia.
  rewrite pack_slot by (done || lia). destruct (l !! i); [apply status_from_code|done].
Qed.

Lemma slot_2 l i : (i < 7)%nat ->
  status_from_u8 (Z.land (Z.shiftr (pack 2 7 l) (2 * (6 - Z.of_nat i))) 3) =
    Some (match l !! i with Some s => s | None => NotReceived end).
Proof.
  intros Hi. rewrite (land_ones_mod 2) by lia.
  replace (2 * (6 - Z.of_nat i)) with (2 * Z.of_nat (7 - 1 - i)) by lia.
  rewrite pack_slot by (apply fits_2 || lia). destruct (l !! i); [apply status_from_code|done].
Qed.

Lemma iter_vector1 len bits :
  into_iter (Vector1 len bits) =
    take (Z.to_nat len)
      (map (fun i => status_from_u8 (Z.land (Z.shiftr bits (13 - i)) 1)) (seqZ 0 (Z.of_nat 14))).
Proof. reflexivity. Qed.

Lemma iter_vector2 len bits :
  into_iter (Vector2 len bits) =
    take (Z.to_nat len)
      (map (fun i => status_from_u8 (Z.land (Z.shiftr bits (2 * (6 - i))) 3)) (seqZ 0 (Z.of_nat 7))).
Proof. reflexivity. Qed.

Lemma into_iter_encodes c l : encodes c l -> into_iter c = map Some l.
Proof.
  destruct c as [len status|len bits|len bits].
  - intros [_ ->]. symmetry. apply (fmap_replicate Some).
  - intros (-> & Hl & Hf & ->). rewrite iter_vector1, Nat2Z.id. apply take_slots; [lia| |done].
    intros. by apply slot_1.
  - intros (-> & Hl & ->). rewrite iter_vector2, Nat2Z.id. apply take_slots; [lia| |done].
    intros. by apply slot_2.
Qed.

(** ** Pushing *)

Lemma splice_all_pack {E} w n (shift : Z -> Z) l : forall l0,
  0 < w -> w * Z.of_nat n <= 16 -> (forall i, (i < n)%nat -> shift (Z.of_nat i) = w * Z.of_nat (n - 1 - i)) ->
  fits w l -> (length (l0 ++ l) <= n)%nat ->
  splice_all (E:=E) shift (Z.of_nat (length l0)) (map Some l) (Z.of_nat (length l0)) (pack w n l0) =
    Ok (Z.of_nat (length (l0 ++ l)), pack w n (l0 ++ l)).
Proof.
  induction l as [|s l IH]; intros l0 Hw Hn Hs Hf Hl; cbn [map splice_all].
  - by rewrite app_nil_r.
  - inversion_clear Hf. rewrite length_app in Hl. simpl in Hl. cbn [unwrap]. rewrite mbind_Ok, Hs by lia.
    rewrite splice_pack by (done || lia).
    replace (Z.of_nat (length l0) + 1) with (Z.of_nat (length (l0 ++ [s]))) by (rewrite length_app; simpl; lia).
    rewrite IH by (done || (rewrite !length_app; simpl; lia)). by rewrite <- app_assoc.
Qed.

Lemma vector1_ok {E} l : fits 1 l -> (length l <= 14)%nat ->
  vector1_from_iter (E:=E) (map Some l) = Ok (Vector1 (Z.of_nat (length l)) (pack 1 14 l)).
Proof.
  intros Hf Hl. unfold vector1_from_iter. rewrite take_ge by (by rewrite length_map).
  rewrite (splice_all_pack 1 14 _ l [] ltac:(lia) ltac:(lia)); [done|intros; lia|done|done].
Qed.

Lemma vector2_ok {E} l : (length l <= 7)%nat ->
  vector2_from_iter (E:=E) (map Some l) = Ok (Vector2 (Z.of_nat (length l)) (pack 2 7 l)).
Proof.
  intros Hl. unfold vector2_from_iter. rewrite take_ge by (by rewrite length_map).
  rewrite (splice_all_pack 2 7 _ l [] ltac:(lia) ltac:(lia)); [done|intros; lia|apply fits_2|done].
Qed.

(** The chunks that stand for [l] after a push. *)
Definition pushed (r : t * option t) (l : list PacketStatus) : Prop :=
  match r with
  | (c, None) => encodes c l
  | (c, Some c') =>
      exists l1 l2, l = l1 ++ l2 /\ l2 <> [] /\ encodes c l1 /\ exact c /\ encodes c' l2
  end.

Lemma push_new_pushed c l s : encodes c l -> exact c -> pushed (push_new c s) (l ++ [s]).
Proof. intros. exists l, [s]. split_and!; try done. Qed.

Lemma push_vector2_pushed len bits l s : encodes (Vector2 len bits) l ->
  pushed (push_vector2 len bits s) (l ++ [s]).
Proof.
  intros (El & Hl & Eb). unfold push_vector2. destruct (Z.leb_spec 7 len) as [Hle|Hlt].
  - apply push_new_pushed; [done|simpl; lia].
  - rewrite El, Eb. simpl. rewrite length_app. simpl. split; [lia|]. split; [lia|].
    replace (2 * (6 - Z.of_nat (length l))) with (2 * Z.of_nat (7 - 1 - length l)) by lia.
    apply (splice_pack 2 7); [lia|lia|lia|]. apply (Forall_inv (fits_2 [s])).
Qed.

Lemma push_as_vector2_ok {E} l s : (length l <= 6)%nat ->
  exists c, push_as_vector2 (E:=E) (map Some l) s = Ok (c, None) /\ encodes c (l ++ [s]).
Proof.
  intros Hl. unfold push_as_vector2. rewrite vector2_ok by lia. rewrite mbind_Ok.
  assert (encodes (Vector2 (Z.of_nat (length l)) (pack 2 7 l)) l) as He by (split_and!; [done|lia|done]).
  pose proof (push_vector2_pushed _ _ l s He) as Hp.
  unfold push_vector2 in *. destruct (Z.leb_spec 7 (Z.of_nat (length l))); [lia|].
  eexists; split; [done|exact Hp].
Qed.

Lemma push_vector1_pushed {E} len bits l s : encodes (Vector1 len bits) l ->
  exists r, push_vector1 (E:=E) len bits s = Ok r /\ pushed r (l ++ [s]).
Proof.
  intros He. pose proof (into_iter_encodes _ _ He) as Hi. unfold push_vector1. rewrite Hi.
  destruct He as (El & Hl & Hf & Eb). destruct (Z.leb_spec 14 len).
  - eexists; split; [done|]. apply push_new_pushed; [by split_and!|simpl; lia].
  - destruct (is_large s) eqn:Es; cbn [negb].
    + destruct (Z.leb_spec len 6).
      * destruct (push_as_vector2_ok (E:=E) l s ltac:(lia)) as (c & -> & Hc). by eexists.
      * rewrite <- (firstn_skipn 7 l), map_app, take_app_length', drop_app_length'
          by (rewrite length_map, length_take; lia).
        rewrite vector2_ok by (rewrite length_take; lia). rewrite mbind_Ok.
        destruct (push_as_vector2_ok (E:=E) (drop 7 l) s ltac:(rewrite length_drop; lia)) as (c & -> & Hc).
        rewrite mbind_Ok. eexists; split; [done|]. exists (take 7 l), (drop 7 l ++ [s]).
        rewrite app_assoc. split_and!; try done.
        -- by destruct (drop 7 l).
        -- split_and!; [done|rewrite length_take; lia|done].
        -- simpl. rewrite length_take. lia.
    + eexists; split; [done|]. rewrite El, Eb. simpl. rewrite length_app. simpl.
      split; [lia|]. split; [lia|]. apply code_not_large in Es. split.
      * apply Forall_app. split; [done|by constructor].
      * replace (13 - Z.of_nat (length l)) with (1 * Z.of_nat (14 - 1 - length l)) by lia.
        apply (splice_pack 1 14); [lia|lia|lia|done].
Qed.

Lemma push_pushed {E} c l s : encodes c l ->
  exists r, push (E:=E) c s = Ok r /\ pushed r (l ++ [s]).
Proof.
  intros He. destruct c as [len status|len bits|len bits]; cbn [push].
  - pose proof (into_iter_encodes _ _ He) as Hi. rewrite Hi. pose proof He as [Hl El].
    assert (length l = Z.to_nat len) as Hlen by (by rewrite El, length_replicate).
    destruct (Z.leb_spec 8191 len); [eexists; split; [done|by apply push_new_pushed]|].
    case_bool_decide as Eq.
    { eexists; split; [done|]. simpl. split; [lia|]. rewrite El, <- Eq, <- replicate_cons_app.
      replace (Z.to_nat (len + 1)) with (S (Z.to_nat len)) by lia. done. }
    destruct (Z.leb_spec len 13), (is_large s) eqn:Es, (is_large status) eqn:Est; cbn [andb negb].
    4: { unfold push_as_vector1. assert (fits 1 l) as Hf.
         { rewrite El. apply Forall_replicate. by apply code_not_large. }
         rewrite vector1_ok by (done || lia). rewrite mbind_Ok. apply push_vector1_pushed.
         split_and!; [done|lia|done|done]. }
    all: destruct (Z.leb_spec len 6);
      [destruct (push_as_vector2_ok (E:=E) l s ltac:(lia)) as (c & -> & Hc); by eexists|].
    all: eexists; split; [done|by apply push_new_pushed].
  - by apply push_vector1_pushed.
  - eexists; split; [done|by apply push_vector2_pushed].
Qed.

(** ** Writing and reading *)

Lemma tagged w tag v : 0 <= w <= 14 -> uint w v -> 0 <= tag ->
  Z.lor (tag * 2 ^ w) v = tag * 2 ^ w + v.
Proof.
  intros. apply (lor_add_low w); [lia| |done]. apply Z.mod_mul, Z.pow_nonzero; lia.
Qed.

Lemma encodes_vector tag bits : uint 14 bits -> 2 <= tag <= 3 ->
  Z.shiftr (Z.lor (Z.shiftl tag 14) bits) 14 = tag /\
  Z.land (Z.lor (Z.shiftl tag 14) bits) 16383 = bits /\ uint 16 (Z.lor (Z.shiftl tag 14) bits).
Proof.
  intros Hb Ht. rewrite Z.shiftl_mul_pow2, tagged, Z.shiftr_div_pow2, (land_ones_mod 14) by (done || lia).
  unfold wrap, uint in *. dlia.
Qed.

(** A written chunk is read back, its free slots as packets not received. *)
Lemma decode_encodes c l : encodes c l -> uint 16 (as_16 c) /\
  exists c' k, from_u16 (as_16 c) = Some c' /\ encodes c' (l ++ replicate k NotReceived) /\
    (exact c -> k = 0%nat) /\ Z.of_nat (length l) <= len c'.
Proof.
  destruct c as [len status|len bits|len bits].
  - intros [Hl ->]. cbn [as_16].
    assert (Z.lor (u16 (Z.shiftl (status_code status) 13)) len = status_code status * 2 ^ 13 + len) as ->.
    { rewrite Z.shiftl_mul_pow2 by lia. unfold u16.
      rewrite wrap_small by (destruct status; unfold uint; simpl; lia).
      apply tagged; [lia|unfold uint; lia|by destruct status]. }
    split; [destruct status; unfold uint; simpl; lia|].
    exists (RunLength len status), 0%nat. unfold from_u16.
    rewrite !Z.shiftr_div_pow2, (land_ones_mod 2), (land_ones_mod 13) by lia.
    assert (wrap 2 ((status_code status * 2 ^ 13 + len) / 2 ^ 13) = status_code status) as ->.
    { unfold wrap. rewrite Z.add_comm, Z.div_add, Z.div_small by lia. by destruct status. }
    rewrite status_from_code.
    assert (wrap 13 (status_code status * 2 ^ 13 + len) = len) as ->.
    { unfold wrap. rewrite Z.add_comm, Z.mod_add by lia. apply Z.mod_small. lia. }
    rewrite app_nil_r, length_replicate. split_and!; try done; [|simpl; lia].
    assert ((status_code status * 2 ^ 13 + len) / 2 ^ 14 = status_code status / 2) as ->
      by (destruct status; simpl; dlia).
    by destruct status.
  - intros (El & Hl & Hf & Eb). pose proof (pack_uint 1 14 l ltac:(lia) Hf) as Hu. rewrite <- Eb in Hu.
    destruct (encodes_vector 2 bits Hu ltac:(lia)) as (E1 & E2 & E3). cbn [as_16]. split; [done|].
    exists (Vector1 14 bits), (14 - length l)%nat. unfold from_u16. rewrite E1, E2.
    split_and!; [done| |simpl; lia|simpl; lia]. split_and!; [rewrite length_app, length_replicate; lia|lia| |].
    + apply Forall_app. split; [done|]. by apply Forall_replicate.
    + by rewrite pack_padded.
  - intros (El & Hl & Eb). pose proof (pack_uint 2 7 l ltac:(lia) (fits_2 l)) as Hu. rewrite <- Eb in Hu.
    destruct (encodes_vector 3 bits Hu ltac:(lia)) as (E1 & E2 & E3). cbn [as_16]. split; [done|].
    exists (Vector2 7 bits), (7 - length l)%nat. unfold from_u16. rewrite E1, E2.
    split_and!; [done| |simpl; lia|simpl; lia]. split_and!; [rewrite length_app, length_replicate; lia|lia|].
    by rewrite pack_padded.
Qed.

Inductive whole : list t -> list PacketStatus -> Prop :=
| whole_nil : whole [] []
| whole_cons c l cs ls : encodes c l -> exact c -> whole cs ls -> whole (c :: cs) (l ++ ls).

Lemma whole_snoc cs ls c l : whole cs ls -> encodes c l -> exact c -> whole (cs ++ [c]) (ls ++ l).
Proof.
  intros Hw Hc He. induction Hw as [|c' l' cs ls ? ? ? IH]; simpl.
  - rewrite <- (app_nil_r l). by repeat constructor.
  - rewrite <- app_assoc. by constructor.
Qed.

(** The statuses pushed so far; only the last chunk may have free slots. *)
Definition represents (cs : PacketStatusChunks.t) (l : list PacketStatus) : Prop :=
  (cs = [] /\ l = []) \/
  exists init c l1 l2, cs = init ++ [c] /\ l = l1 ++ l2 /\ l2 <> [] /\ whole init l1 /\ encodes c l2.

Lemma push_represents {E} cs l s : represents cs l ->
  exists cs', PacketStatusChunks.push (E:=E) cs s = Ok cs' /\ represents cs' (l ++ [s]).
Proof.
  unfold PacketStatusChunks.push. intros [[-> ->]|(init & c & l1 & l2 & -> & -> & Hne & Hw & Hc)].
  - eexists; split; [done|]. right. exists [], (RunLength 1 s), [], [s].
    split_and!; try done. constructor.
  - rewrite last_snoc, removelast_last. destruct (push_pushed (E:=E) c l2 s Hc) as ([c1 o] & -> & Hp).
    rewrite mbind_Ok. eexists; split; [done|]. right. destruct o as [c2|].
    + destruct Hp as (m1 & m2 & Em & Hm & H1 & Hx & H2).
      exists (init ++ [c1]), c2, (l1 ++ m1), m2. rewrite <- !app_assoc, Em.
      split_and!; try done. by apply whole_snoc.
    + exists init, c1, l1, (l2 ++ [s]). rewrite app_assoc. split_and!; try done. by destruct l2.
Qed.

Lemma push_n_represents {E} n s : forall cs l, represents cs l ->
  exists cs', PacketStatusChunks.push_n (E:=E) n cs s = Ok cs' /\ represents cs' (l ++ replicate n s).
Proof.
  induction n as [|n IH]; intros cs l H; simpl.
  - exists cs. by rewrite app_nil_r.
  - destruct (push_represents (E:=E) cs l s H) as (cs' & -> & H'). rewrite mbind_Ok.
    destruct (IH cs' _ H') as (cs'' & -> & H''). exists cs''. by rewrite <- app_assoc in H''.
Qed.

Lemma write_chunks cs out :
  PacketStatusChunks.write cs out = out ++ concat (map (fun c => be_bytes 2 (as_16 c)) cs).
Proof.
  unfold PacketStatusChunks.write. revert out. induction cs as [|c cs IH]; intros out; cbn [fold_left map concat].
  - by rewrite app_nil_r.
  - rewrite IH. change (Serialize.write (w16 (as_16 c)) out) with (out ++ be_bytes 2 (as_16 c)).
    by rewrite app_assoc.
Qed.

Lemma read_be_bytes n z rest : Feedback.read_be n (be_bytes n z ++ rest) = Ok (wrap (8 * Z.of_nat n) z, rest).
Proof.
  unfold Feedback.read_be, read_slice. rewrite length_app, length_be_bytes.
  destruct (Nat.ltb_spec (n + length rest) n); [lia|]. cbn [ok_or]. rewrite mbind_Ok.
  rewrite take_app_length', drop_app_length' by (by rewrite length_be_bytes).
  by rewrite be_val_be_bytes.
Qed.

Lemma read_chunk fuel count sum c l tail : encodes c l -> sum < count ->
  exists c' k, encodes c' (l ++ replicate k NotReceived) /\ (exact c -> k = 0%nat) /\
    Z.of_nat (length l) <= len c' /\
    Feedback.read_status_chunks (S fuel) count sum (be_bytes 2 (as_16 c) ++ tail) =
      ('(rest, payload) ← Feedback.read_status_chunks fuel count (sum + len c') tail;
       Ok (c' :: rest, payload)).
Proof.
  intros Hc Hs. destruct (decode_encodes c l Hc) as (Hu & c' & k & E & He & Hk & Hl).
  exists c', k. split_and!; try done. cbn [Feedback.read_status_chunks].
  destruct (Z.ltb_spec sum count); [|lia]. rewrite read_be_bytes, mbind_Ok.
  rewrite wrap_small by done. rewrite E. reflexivity.
Qed.

Lemma read_whole cs ls : whole cs ls -> forall fuel count sum tail,
  sum + Z.of_nat (length ls) < count -> exists cs',
    concat (map into_iter cs') = map Some ls /\
    Feedback.read_status_chunks (length cs + fuel) count sum
      (concat (map (fun c => be_bytes 2 (as_16 c)) cs) ++ tail) =
      ('(rest, payload) ← Feedback.read_status_chunks fuel count (sum + Z.of_nat (length ls)) tail;
       Ok (cs' ++ rest, payload)).
Proof.
  induction 1 as [|c l cs ls Hc Hx Hw IH]; intros fuel count sum tail Hs.
  - exists []. split; [done|]. simpl. rewrite Z.add_0_r.
    by destruct (Feedback.read_status_chunks fuel count sum tail) as [[]| |].
  - rewrite length_app in Hs. cbn [length map concat Nat.add]. rewrite <- app_assoc.
    destruct (read_chunk (length cs + fuel) count sum c l
      (concat (map (fun c => be_bytes 2 (as_16 c)) cs) ++ tail) Hc ltac:(lia))
      as (c' & k & He & Hk & _ & ->).
    rewrite (Hk Hx) in He. simpl in He. rewrite app_nil_r in He.
    rewrite (encodes_len _ _ He). destruct (IH fuel count (sum + Z.of_nat (length l)) tail ltac:(lia))
      as (cs' & Ecs & ->).
    exists (c' :: cs'). split.
    + cbn [map concat]. by rewrite (into_iter_encodes _ _ He), Ecs, map_app.
    + rewrite length_app, Nat2Z.inj_add, Z.add_assoc.
      by destruct (Feedback.read_status_chunks fuel count _ tail) as [[]| |].
Qed.

(** Reading as many statuses as were pushed reads all the chunks and no more. *)
Lemma read_represents cs l fuel tail : represents cs l -> (length cs <= fuel)%nat -> exists cs' k,
  concat (map into_iter cs') = map Some (l ++ replicate k NotReceived) /\
  Feedback.read_status_chunks fuel (Z.of_nat (length l)) 0 (PacketStatusChunks.write cs [] ++ tail) =
    Ok (cs', tail).
Proof.
  intros H Hf. rewrite write_chunks. cbn [app].
  destruct H as [[-> ->]|(init & c & l1 & l2 & -> & -> & Hne & Hw & Hc)].
  - exists [], 0%nat. by destruct fuel.
  - rewrite length_app in Hf. simpl in Hf.
    assert (0 < length l2)%nat by (destruct l2; [done|simpl; lia]).
    replace fuel with (length init + S (fuel - length init - 1))%nat by lia.
    rewrite map_app, concat_app, <- app_assoc.
    destruct (read_whole init l1 Hw (S (fuel - length init - 1)) (Z.of_nat (length (l1 ++ l2))) 0
      (concat (map (fun c => be_bytes 2 (as_16 c)) [c]) ++ tail)) as (cs' & Ecs & ->);
      [rewrite length_app; lia|].
    cbn [map concat]. rewrite app_nil_r.
    destruct (read_chunk (fuel - length init - 1) (Z.of_nat (length (l1 ++ l2)))
      (0 + Z.of_nat (length l1)) c l2 tail Hc) as (c' & k & He & _ & Hl & ->);
      [rewrite length_app; lia|].
    assert (Feedback.read_status_chunks (fuel - length init - 1) (Z.of_nat (length (l1 ++ l2)))
      (0 + Z.of_nat (length l1) + len c') tail = Ok ([], tail)) as ->.
    { destruct (fuel - length init - 1)%nat; cbn [Feedback.read_status_chunks];
        (destruct (Z.ltb_spec (0 + Z.of_nat (length l1) + len c') (Z.of_nat (length (l1 ++ l2))));
         [rewrite length_app in *; lia|done]). }
    exists (cs' ++ [c']), k. split; [|done].
    rewrite map_app, concat_app, Ecs. cbn [map concat].
    by rewrite (into_iter_encodes _ _ He), app_nil_r, <- app_assoc, !map_app.
Qed.

End ChunkFacts.

Module FeedbackFacts.
Import Feedback ChunkFacts SerializeFacts.

(** ** What the writer puts into a message *)

(** 250 microseconds *)
Definition TICK : Z := 250000.

Definition delta (before after : Z) : Z :=
  if before <? after then (after - before) / TICK else - ((before - after) / TICK).

Lemma delta_error before after : Z.abs (TICK * delta before after - (after - before)) < TICK.
Proof. unfold delta, TICK. case_if; boolsplit; dlia. Qed.

Lemma as_ticks d : 0 <= d < 2 ^ 60 -> ticks_from_duration d MICROS_PER_DELTA_TICK = d / TICK.
Proof.
  intros. unfold ticks_from_duration, Duration.as_micros, u64, MICROS_PER_DELTA_TICK, TICK.
  rewrite wrap_small by (unfold uint; dlia). change (10 ^ 3) with 1000. dlia.
Qed.

Lemma delta_ok {E} before after : Z.abs (after - before) < 2 ^ 60 ->
  ticks_from_before_and_after (E:=E) before after MICROS_PER_DELTA_TICK = Ok (delta before after).
Proof.
  intros H. unfold ticks_from_before_and_after, delta, Duration.checked_duration_since.
  destruct (Z.ltb_spec before after).
  - destruct (Z.leb_spec before after); [|lia]. cbn [unwrap]. rewrite mbind_Ok, as_ticks by lia.
    unfold i64. rewrite sint_small; [done|lia|]. unfold int, TICK. dlia.
  - destruct (Z.leb_spec after before); [|lia]. cbn [unwrap]. rewrite mbind_Ok, as_ticks by lia.
    unfold i64. rewrite !sint_small; [done|lia| |lia|].
    all: rewrite ?sint_small; try lia; unfold int, TICK; dlia.
Qed.

Definition small (d : Z) : bool := (0 <=? d) && (d <=? MAX_SMALL_DELTA_TICKS).
Definition status_of (d : Z) : PacketStatus :=
  if small d then ReceivedSmallDelta else ReceivedLargeOrNegativeDelta.
Definition delta_bytes (d : Z) : bytes := if small d then [u8 d] else be_bytes 2 (u16 d).

Fixpoint statuses_of (prev_seqnum prev_arrival : Z) (l : list (Z * Z)) : list PacketStatus :=
  match l with
  | [] => []
  | (s, a) :: l =>
      replicate (Z.to_nat (s - (prev_seqnum + 1))) NotReceived
      ++ status_of (delta prev_arrival a) :: statuses_of s a l
  end.

Fixpoint deltas_of (prev_arrival : Z) (l : list (Z * Z)) : bytes :=
  match l with
  | [] => []
  | (_, a) :: l => delta_bytes (delta prev_arrival a) ++ deltas_of a l
  end.

(** Sequence numbers go up, and every arrival is close enough to the one before
    for its delta to fit. *)
Fixpoint encodable (prev_seqnum prev_arrival : Z) (l : list (Z * Z)) : Prop :=
  match l with
  | [] => True
  | (s, a) :: l =>
      prev_seqnum < s /\ MIN_LARGE_DELTA_TICKS <= delta prev_arrival a <= MAX_LARGE_DELTA_TICKS /\
      encodable s a l
  end.

Lemma encodable_app prev parr l l' : encodable prev parr (l ++ l') ->
  encodable prev parr l.
Proof.
  revert prev parr. induction l as [|[s a] l IH]; simpl; [done|]. naive_solver.
Qed.

Definition last_seqnum (prev : Z) (l : list (Z * Z)) : Z := (List.last l (prev, 0)).1.

Lemma last_seqnum_cons prev s a l : last_seqnum prev ((s, a) :: l) = last_seqnum s l.
Proof. unfold last_seqnum. destruct l as [|x l]; [done|]. cbn [List.last]. f_equal. revert x.
  induction l as [|y l IH]; intros x; [done|]. cbn [List.last]. apply IH. Qed.

Lemma last_seqnum_ge prev parr l : encodable prev parr l ->
  prev <= last_seqnum prev l /\
  Z.of_nat (length (statuses_of prev parr l)) = last_seqnum prev l - prev.
Proof.
  revert prev parr. induction l as [|[s a] l IH]; intros prev parr H.
  - unfold last_seqnum. simpl. lia.
  - destruct H as (H1 & _ & H3). rewrite last_seqnum_cons. destruct (IH _ _ H3).
    cbn [statuses_of]. rewrite length_app, length_replicate. cbn [length]. lia.
Qed.

Lemma delta_range prev a : Z.abs (delta prev a) <= 32768 -> Z.abs (a - prev) < 2 ^ 60.
Proof. pose proof (delta_error prev a). unfold TICK in *. lia. Qed.

(** One arrival that fits. *)
Lemma fill_cons {E} first s a l prev parr ds cs st :
  0 <= first < 2 ^ 62 -> s <= first + 65535 -> 0 <= prev < 2 ^ 62 ->
  (length ds + PacketStatusChunks.written_len cs <= 1100)%nat ->
  MIN_LARGE_DELTA_TICKS <= delta parr a <= MAX_LARGE_DELTA_TICKS -> represents cs st ->
  exists cs',
    fill (E:=E) first ((s, a) :: l) prev parr ds cs =
      fill first l s a (ds ++ delta_bytes (delta parr a)) cs' /\
    represents cs' (st ++ replicate (Z.to_nat (s - (prev + 1))) NotReceived ++ [status_of (delta parr a)]).
Proof.
  intros Hf Hs Hp Hlen Hd Hr. cbn [fill].
  assert (u64 (first + umax 16) = first + 65535) as -> by (apply wrap_small; unfold uint; simpl; lia).
  assert (u64 (prev + 1) = prev + 1) as -> by (apply wrap_small; unfold uint; lia).
  destruct (Z.ltb_spec (first + 65535) s); [lia|].
  destruct (Nat.ltb_spec 1100 (length ds + PacketStatusChunks.written_len cs)); [lia|].
  destruct (push_n_represents (E:=E) (Z.to_nat (s - (prev + 1))) NotReceived cs st Hr) as (cs1 & -> & H1).
  rewrite mbind_Ok, delta_ok by (apply delta_range; unfold MIN_LARGE_DELTA_TICKS, MAX_LARGE_DELTA_TICKS in *; lia).
  rewrite mbind_Ok. unfold status_of, delta_bytes. fold (small (delta parr a)).
  destruct (small (delta parr a)).
  - destruct (push_represents (E:=E) cs1 _ ReceivedSmallDelta H1) as (cs2 & -> & H2).
    exists cs2. rewrite <- app_assoc in H2. by split.
  - assert ((MIN_LARGE_DELTA_TICKS <=? delta parr a) && (delta parr a <=? MAX_LARGE_DELTA_TICKS) = true) as ->.
    { apply andb_true_intro. split; lia. }
    destruct (push_represents (E:=E) cs1 _ ReceivedLargeOrNegativeDelta H1) as (cs2 & -> & H2).
    exists cs2. rewrite <- app_assoc in H2. by split.
Qed.

(** [fill] takes a prefix of the arrivals and writes its statuses and deltas. *)
Lemma fill_ok {E} first l : forall prev parr ds cs st,
  encodable prev parr l -> 0 <= first < 2 ^ 62 -> 0 <= prev < 2 ^ 62 ->
  Forall (fun e => e.1 < 2 ^ 62) l -> represents cs st ->
  exists took rest cs',
    l = took ++ rest /\ Forall (fun e => e.1 <= first + 65535) took /\
    fill (E:=E) first l prev parr ds cs =
      Ok (last_seqnum prev took, ds ++ deltas_of parr took, cs', rest) /\
    represents cs' (st ++ statuses_of prev parr took).
Proof.
  induction l as [|[s a] l IH]; intros prev parr ds cs st He Hf Hp Hall Hr.
  - exists [], [], cs. simpl. rewrite !app_nil_r. split_and!; done.
  - destruct He as (H1 & H2 & H3). inversion_clear Hall as [|? ? Hs Hl]. simpl in Hs.
    destruct (Z.le_gt_cases s (first + 65535)) as [Hle|Hgt];
      [destruct (Nat.le_gt_cases (length ds + PacketStatusChunks.written_len cs) 1100) as [Hn|Hn]|].
    + destruct (fill_cons (E:=E) first s a l prev parr ds cs st Hf Hle Hp Hn H2 Hr) as (cs1 & E1 & R1).
      destruct (IH s a (ds ++ delta_bytes (delta parr a)) cs1 _ H3 Hf ltac:(lia) Hl R1)
        as (took & rest & cs' & -> & Ht & Ef & R).
      exists ((s, a) :: took), rest, cs'. split_and!; [done|by constructor| |].
      * rewrite E1, Ef, last_seqnum_cons. cbn [deltas_of]. by rewrite <- app_assoc.
      * cbn [statuses_of]. rewrite <- !app_assoc in R. exact R.
    + exists [], ((s, a) :: l), cs. simpl. rewrite !app_nil_r. split_and!; try done.
      assert (u64 (first + umax 16) = first + 65535) as -> by (apply wrap_small; unfold uint; simpl; lia).
      destruct (Z.ltb_spec (first + 65535) s); [lia|].
      destruct (Nat.ltb_spec 1100 (length ds + PacketStatusChunks.written_len cs)); [done|lia].
    + exists [], ((s, a) :: l), cs. simpl. rewrite !app_nil_r. split_and!; try done.
      assert (u64 (first + umax 16) = first + 65535) as -> by (apply wrap_small; unfold uint; simpl; lia).
      destruct (Z.ltb_spec (first + 65535) s); [done|lia].
Qed.

(** ** What the reader makes of it *)

Fixpoint times (ref sum prev_arrival : Z) (l : list (Z * Z)) : list (Z * Z) :=
  match l with
  | [] => []
  | (s, a) :: l =>
      let sum := sum + delta prev_arrival a in
      (s, Duration.from_micros (MICROS_PER_REFERENCE_TICK * ref + MICROS_PER_DELTA_TICK * sum))
      :: times ref sum a l
  end.

Lemma read_skip ref sum n m b x payload : 0 <= m ->
  read_arrivals ref sum (zip (seqZ b (Z.of_nat n + m)) (map Some (replicate n NotReceived) ++ x)) payload =
    read_arrivals ref sum (zip (seqZ (b + Z.of_nat n) m) x) payload.
Proof.
  intros Hm. revert b. induction n as [|n IH]; intros b.
  - simpl. by rewrite Z.add_0_r.
  - rewrite seqZ_cons by lia. cbn [replicate map app zip zip_with read_arrivals ok_or]. rewrite !mbind_Ok.
    replace (Z.pred (Z.of_nat (S n) + m)) with (Z.of_nat n + m) by lia.
    etrans; [apply IH|]. do 3 f_equal. lia.
Qed.

Lemma sint_wrap w z : 0 <= w -> sint w (wrap w z) = sint w z.
Proof. intros. unfold sint. by rewrite wrap_idem. Qed.

Lemma read_delta d payload : MIN_LARGE_DELTA_TICKS <= d <= MAX_LARGE_DELTA_TICKS ->
  match status_of d with
  | NotReceived => Ok (None, delta_bytes d ++ payload)
  | ReceivedSmallDelta => '(d, payload) ← read_be 1 (delta_bytes d ++ payload); Ok (Some d, payload)
  | ReceivedLargeOrNegativeDelta =>
      '(d, payload) ← read_be 2 (delta_bytes d ++ payload); Ok (Some (sint 16 d), payload)
  end = Ok (Some d, payload) :> Res unit _.
Proof.
  unfold MIN_LARGE_DELTA_TICKS, MAX_LARGE_DELTA_TICKS. intros Hd.
  unfold status_of, delta_bytes. destruct (small d) eqn:E.
  - unfold small, MAX_SMALL_DELTA_TICKS in E. boolsplit.
    assert ([u8 d] = be_bytes 1 d) as ->.
    { change (be_bytes 1 d) with [Z.land d (2 ^ 8 - 1)]. by rewrite land_ones_mod. }
    rewrite read_be_bytes. cbn [mbind Res_bind]. by rewrite wrap_small by (unfold uint; lia).
  - rewrite read_be_bytes. cbn [mbind Res_bind]. change (8 * Z.of_nat 2) with 16. unfold u16.
    rewrite wrap_idem, sint_wrap, sint_small by (lia || unfold int; lia). done.
Qed.

(** The sum of the deltas of a message fits in 32 bits. *)
Definition SUM_LIMIT : Z := 65535 * 32768.

Lemma arrival_micros ref sum : 0 <= ref < 2 ^ 24 -> Z.abs sum <= SUM_LIMIT ->
  0 <= MICROS_PER_REFERENCE_TICK * ref + MICROS_PER_DELTA_TICK * sum ->
  i32 sum = sum /\
  u64 (i64 (i64 (MICROS_PER_REFERENCE_TICK * ref) + i64 (MICROS_PER_DELTA_TICK * sum))) =
    MICROS_PER_REFERENCE_TICK * ref + MICROS_PER_DELTA_TICK * sum.
Proof.
  change MICROS_PER_REFERENCE_TICK with 64000. unfold MICROS_PER_DELTA_TICK, SUM_LIMIT. intros.
  split; [apply sint_small; [lia|unfold int; lia]|].
  unfold i64. rewrite (sint_small 64 (64000 * ref)), (sint_small 64 (250 * sum)), sint_small
    by (lia || unfold int; lia).
  apply wrap_small. unfold uint. lia.
Qed.

Lemma read_arrivals_ok ref l : forall prev parr sum tail,
  encodable prev parr l -> 0 <= ref < 2 ^ 24 ->
  Z.abs sum + 32768 * Z.of_nat (length l) <= SUM_LIMIT ->
  Forall (fun e => 0 <= e.2) (times ref sum parr l) ->
  read_arrivals ref sum
    (zip (seqZ (prev + 1) (Z.of_nat (length (statuses_of prev parr l))))
         (map Some (statuses_of prev parr l))) (deltas_of parr l ++ tail) =
    Ok (times ref sum parr l).
Proof.
  induction l as [|[s a] l IH]; intros prev parr sum tail He Hr Hs Ht; [done|].
  destruct He as (H1 & H2 & H3). cbn [statuses_of deltas_of times length] in *.
  inversion_clear Ht as [|? ? Ht1 Ht2]. cbn [snd] in Ht1.
  unfold Duration.from_micros in Ht1. change (10 ^ 3) with 1000 in Ht1.
  rewrite length_app, length_replicate, map_app, Nat2Z.inj_add, read_skip by lia.
  cbn [length map]. rewrite seqZ_cons by lia. cbn [zip zip_with].
  cbn [read_arrivals ok_or]. rewrite mbind_Ok, <- app_assoc, read_delta by done. rewrite mbind_Ok.
  replace (prev + 1 + Z.of_nat (Z.to_nat (s - (prev + 1)))) with s by lia.
  assert (Z.abs (sum + delta parr a) + 32768 * Z.of_nat (length l) <= SUM_LIMIT) as Hb.
  { unfold MIN_LARGE_DELTA_TICKS, MAX_LARGE_DELTA_TICKS in H2. lia. }
  destruct (arrival_micros ref (sum + delta parr a) Hr ltac:(lia) ltac:(lia)) as [-> ->].
  replace (Z.pred (Z.of_nat (S (length (statuses_of s a l))))) with
    (Z.of_nat (length (statuses_of s a l))) by lia.
  change (zip_with pair ?x ?y) with (zip x y). replace (Z.succ s) with (s + 1) by lia.
  by rewrite (IH s a _ tail H3 Hr Hb Ht2).
Qed.

(** How far the times are from the arrivals: less than a tick for each packet. *)
Lemma times_error ref epoch l : forall sum parr k bound,
  Z.abs (1000 * (MICROS_PER_REFERENCE_TICK * ref + MICROS_PER_DELTA_TICK * sum) - (parr - epoch)) <= TICK * k ->
  k + Z.of_nat (length l) <= bound ->
  Forall2 (fun e t => t.1 = e.1 /\ Z.abs (t.2 - (e.2 - epoch)) <= TICK * bound) l (times ref sum parr l).
Proof.
  change MICROS_PER_REFERENCE_TICK with 64000. unfold MICROS_PER_DELTA_TICK.
  induction l as [|[s a] l IH]; intros sum parr k bound Hk Hb; [constructor|].
  cbn [times length] in *. pose proof (delta_error parr a) as Hd. unfold TICK in *. constructor.
  - split; [done|]. cbn [fst snd]. unfold Duration.from_micros, MICROS_PER_DELTA_TICK.
    change MICROS_PER_REFERENCE_TICK with 64000. change (10 ^ 3) with 1000. lia.
  - apply (IH _ _ (k + 1)); lia.
Qed.

(** ** A message read back *)

Definition header_bytes (ssrc first count ref number : Z) : bytes :=
  be_bytes 4 ssrc ++ be_bytes 2 first ++ be_bytes 2 count ++ be_bytes 3 ref ++ [number].

Lemma to_vec_message ssrc first count ref number cs ds :
  to_vec (message (w32 ssrc, (w16 first, (w16 count, (w24 ref, [number])))) cs ds) =
    header_bytes ssrc first count ref number ++ PacketStatusChunks.write cs [] ++ ds.
Proof.
  change (to_vec _) with
    (PacketStatusChunks.write cs (header_bytes ssrc first count ref number) ++ ds).
  by rewrite !write_chunks, <- app_assoc.
Qed.

#[export] Instance message_laws : WriterLaws Message.
Proof.
  split.
  - intros [h cs ds] out. unfold to_vec. cbn [write message_writer header status_chunks deltas].
    rewrite !write_chunks, (write_app (T:=Header) h out). by rewrite !app_assoc.
  - intros [h cs ds]. unfold to_vec. cbn [write written_len message_writer header status_chunks deltas].
    rewrite write_chunks, !length_app. change (fold_left _ _ _) with (to_vec h).
    rewrite <- (written_len_ok (T:=Header) h). unfold PacketStatusChunks.written_len.
    assert (length (concat (map (fun c => be_bytes 2 (PacketStatusChunk.as_16 c)) cs)) = 2 * length cs)%nat
      as -> by (induction cs; simpl; lia).
    change (to_vec h) with (write h []). lia.
Qed.

Lemma expand_close first max : uint 62 first -> 0 <= max -> Z.abs (first - max) < 2 ^ 15 ->
  expand_seqnum (u16 first) max = (first, Z.max max first).
Proof.
  intros Hf Hm Hd. unfold expand_seqnum, u16.
  assert (uint 64 first) by (unfold uint in *; lia).
  pose proof (CountersFacts.expand_correct 16 max first ltac:(lia) Hm ltac:(done) Hd) as E.
  pose proof (CountersFacts.expand_max 16 (wrap 16 first) max) as M. rewrite E in M.
  destruct (Counters.expand_truncated_counter _ _ _). simpl in *. congruence.
Qed.

Lemma zip_short {A B} (l : list A) (a b : list B) : length l = length a -> zip l (a ++ b) = zip l a.
Proof. revert a. induction l as [|x l IH]; intros [|y a] H; simpl in *; try done. f_equal. auto. Qed.

Lemma read_message ssrc first ref number cs took reference max tail :
  uint 62 first -> 0 <= max -> Z.abs (first - max) < 2 ^ 15 -> 0 <= ref < 2 ^ 24 -> uint 8 number ->
  encodable (first - 1) reference took ->
  last_seqnum (first - 1) took - first + 1 < 2 ^ 16 ->
  represents cs (statuses_of (first - 1) reference took) ->
  Forall (fun e => 0 <= e.2) (times ref 0 reference took) ->
  read_feedback
    (header_bytes ssrc (u16 first) (last_seqnum (first - 1) took - first + 1) ref number
     ++ PacketStatusChunks.write cs [] ++ deltas_of reference took ++ tail) max =
    (Ok (number, times ref 0 reference took), Z.max max first).
Proof.
  intros Hf Hm Hd Href Hn He Hc Hr Ht. destruct (last_seqnum_ge _ _ _ He) as [Hge Hlen].
  set (st := statuses_of (first - 1) reference took) in *.
  set (count := last_seqnum (first - 1) took - first + 1) in *.
  assert (Z.of_nat (length st) = count) as Hst by (unfold count; lia).
  unfold read_feedback, header_bytes. rewrite <- !app_assoc, read_be_bytes, mbind_Ok, read_be_bytes.
  change (8 * Z.of_nat 2) with 16. unfold u16 at 1. rewrite wrap_idem by lia. fold (u16 first).
  rewrite expand_close by done. f_equal. unfold read_statuses.
  rewrite read_be_bytes, mbind_Ok, read_be_bytes, mbind_Ok.
  assert ([number] = be_bytes 1 number) as ->.
  { change (be_bytes 1 number) with [Z.land number (2 ^ 8 - 1)]. rewrite land_ones_mod by lia.
    by rewrite wrap_small. }
  rewrite read_be_bytes, mbind_Ok. change (8 * Z.of_nat 2) with 16. change (8 * Z.of_nat 3) with 24.
  change (8 * Z.of_nat 1) with 8.
  rewrite !wrap_small by (done || unfold uint in *; lia). rewrite <- Hst.
  destruct (read_represents cs st
    (S (length (PacketStatusChunks.write cs [] ++ deltas_of reference took ++ tail)))
    (deltas_of reference took ++ tail) Hr) as (cs' & k & Ecs & ->).
  { rewrite length_app, write_chunks. cbn [app]. clear. induction cs; simpl; [lia|].
    lia. }
  rewrite mbind_Ok. cbn zeta. rewrite Ecs.
  assert (u64 (first + Z.of_nat (length st)) - first = Z.of_nat (length st)) as ->.
  { unfold u64. rewrite wrap_small; [lia|]. unfold uint in *. lia. }
  rewrite map_app, zip_short by (rewrite length_seqZ, length_map; lia).
  pose proof (read_arrivals_ok ref took (first - 1) reference 0 tail He Href) as R.
  fold st in R. replace (first - 1 + 1) with first in R by lia. rewrite R; [done| |done].
  assert (length took <= length st)%nat; [|unfold SUM_LIMIT; lia].
  unfold st. clear. generalize (first - 1) as prev. generalize reference as parr.
  induction took as [|[s a] l IH]; intros; [done|]. cbn [statuses_of length]. rewrite length_app.
  cbn [length]. specialize (IH a s). lia.
Qed.

(** ** All the messages *)

(** What a peer learns from payloads that it reads in order. *)
Fixpoint read_all (max : Z) (payloads : list bytes) : option (list (Z * Z)) :=
  match payloads with
  | [] => Some []
  | b :: payloads =>
      match read_feedback b max with
      | (Ok (_, arrivals), max) =>
          match read_all max payloads with Some r => Some (arrivals ++ r) | None => None end
      | _ => None
      end
  end.

(** The payload that holds a message: RTCP pads it. *)
Definition holds (m : Message) (b : bytes) : Prop := exists tail, b = to_vec m ++ tail.

(** Much less than the RTCP length field can express. *)
Definition MESSAGE_LIMIT : nat := Z.to_nat 132186.
Definition short (m : Message) : Prop := (length (to_vec m) <= MESSAGE_LIMIT)%nat.

Lemma holds_to_vec ms : Forall2 holds ms (map to_vec ms).
Proof. induction ms; constructor; [|done]. exists []. by rewrite app_nil_r. Qed.

Lemma push_length {E} cs s cs' : PacketStatusChunks.push (E:=E) cs s = Ok cs' ->
  (length cs' <= S (length cs))%nat.
Proof.
  unfold PacketStatusChunks.push. destruct cs as [|c0 cs0]; [intros [= <-]; simpl; lia|].
  destruct (@exists_last _ (c0 :: cs0) ltac:(done)) as (init & c & ->).
  rewrite last_snoc, removelast_last. intros H. apply bind_Ok in H as ([c1 [c2|]] & _ & [= <-]);
      rewrite !length_app; simpl; lia.
Qed.

Lemma push_n_length {E} n s : forall cs cs', PacketStatusChunks.push_n (E:=E) n cs s = Ok cs' ->
  (length cs' <= n + length cs)%nat.
Proof.
  induction n as [|n IH]; intros cs cs' H; cbn [PacketStatusChunks.push_n] in H; [injection H as <-; lia|].
  apply bind_Ok in H as (cs1 & E1 & H). apply push_length in E1. apply IH in H. lia.
Qed.

(** The sizes of what a message holds. *)
Lemma fill_length {E} first l : forall below prev parr ds cs last ds' cs' rest,
  0 <= first < 2 ^ 62 -> 0 <= prev < 2 ^ 63 -> -1 <= below <= prev -> StronglySorted Z.lt (below :: l.*1) ->
  fill (E:=E) first l prev parr ds cs = Ok (last, ds', cs', rest) ->
  (length ds <= 1102)%nat -> below <= first + 65535 ->
  (length ds' <= 1102)%nat /\ Z.of_nat (length cs') <= Z.of_nat (length cs) + (first + 65535 - below).
Proof.
  induction l as [|[s a] l IH]; intros below prev parr ds cs last ds' cs' rest Hf Hp Hle Hs H Hd Hb;
    cbn [fill] in H; [injection H as _ <- <- _; lia|].
  assert (u64 (first + umax 16) = first + 65535) as Eu by (apply wrap_small; unfold uint; simpl; lia).
  assert (u64 (prev + 1) = prev + 1) as Ev by (apply wrap_small; unfold uint; lia).
  rewrite Eu, Ev in H. rewrite fmap_cons in Hs. cbn [fst] in Hs.
  inversion_clear Hs as [|? ? Hsorted Hall]. inversion_clear Hall as [|? ? Hlt _].
  destruct (Z.ltb_spec (first + 65535) s); [injection H as _ <- <- _; lia|].
  destruct (Nat.ltb_spec 1100 (length ds + PacketStatusChunks.written_len cs)); [injection H as _ <- <- _; lia|].
  apply bind_Ok in H as (cs1 & E1 & H). apply push_n_length in E1.
  apply bind_Ok in H as (d & _ & H).
  assert (forall ds2 cs2, (length ds2 <= length ds + 2)%nat -> (length cs2 <= S (length cs1))%nat ->
    fill (E:=E) first l s a ds2 cs2 = Ok (last, ds', cs', rest) ->
    (length ds' <= 1102)%nat /\ Z.of_nat (length cs') <= Z.of_nat (length cs) + (first + 65535 - below)) as Hgo.
  { intros ds2 cs2 Hds Hcs Hrun.
    destruct (IH s s a ds2 cs2 last ds' cs' rest Hf ltac:(lia) ltac:(lia) Hsorted Hrun ltac:(lia) ltac:(lia)).
    split; [done|lia]. }
  case_if_in H; [|case_if_in H].
  - apply bind_Ok in H as (cs2 & Ecs & H). apply push_length in Ecs. eapply Hgo; [|done|exact H].
    rewrite length_app. simpl. lia.
  - apply bind_Ok in H as (cs2 & Ecs & H). apply push_length in Ecs. eapply Hgo; [|done|exact H].
    rewrite length_app, length_be_bytes. lia.
  - injection H as _ <- <- _. lia.
Qed.

(** 64 milliseconds *)
Definition REFERENCE : Z := 64000000.

Lemma reference_ok epoch arrival : 0 <= arrival - epoch < 2 ^ 24 * REFERENCE ->
  let ref := ticks_from_duration (Duration.saturating_duration_since arrival epoch)
               MICROS_PER_REFERENCE_TICK in
  ref = (arrival - epoch) / REFERENCE /\ 0 <= ref < 2 ^ 24 /\
  Integers.truncate 3 (u32 ref) = ref /\
  epoch + duration_from_ticks ref MICROS_PER_REFERENCE_TICK = epoch + ref * REFERENCE /\
  0 <= delta (epoch + ref * REFERENCE) arrival <= 255.
Proof.
  intros H. cbn zeta. unfold REFERENCE in *.
  assert (ticks_from_duration (Duration.saturating_duration_since arrival epoch) MICROS_PER_REFERENCE_TICK
    = (arrival - epoch) / 64000000) as ->.
  { unfold ticks_from_duration, Duration.saturating_duration_since, Duration.as_micros, saturating_sub, u64.
    change MICROS_PER_REFERENCE_TICK with 64000. change (10 ^ 3) with 1000.
    rewrite Z.max_r by lia. rewrite wrap_small by (unfold uint; dlia). dlia. }
  set (ref := (arrival - epoch) / 64000000).
  assert (0 <= ref < 2 ^ 24) as Hr by (unfold ref; dlia).
  split; [done|]. split; [done|]. split; [|split].
  - rewrite IntegersFacts.truncate_wrap. unfold u32. rewrite !wrap_small; unfold uint in *; try lia.
    rewrite wrap_small; unfold uint; simpl; lia.
  - unfold duration_from_ticks, Duration.from_micros, u64. change MICROS_PER_REFERENCE_TICK with 64000.
    change (10 ^ 3) with 1000. rewrite wrap_small by (unfold uint; lia). lia.
  - unfold delta, TICK. case_if; boolsplit; unfold ref in *; dlia.
Qed.

Definition chained (l : list (Z * Z)) : Prop :=
  match l with [] => True | (s, a) :: l => encodable s a l end.

Lemma encodable_suffix l l' : forall prev parr, encodable prev parr (l ++ l') -> chained l'.
Proof.
  induction l as [|[s a] l IH]; intros prev parr H; simpl in H.
  - destruct l' as [|[s a] l']; [done|]. apply H.
  - destruct H as (_ & _ & H). by eapply IH.
Qed.

(** The sequence numbers are expanded as they were truncated. *)
Definition near (max : Z) (l : list (Z * Z)) : Prop := Forall (fun e => Z.abs (e.1 - max) < 2 ^ 15) l.

Lemma encodable_above prev parr l : encodable prev parr l -> Forall (fun e => prev < e.1) l.
Proof.
  revert prev parr. induction l as [|[s a] l IH]; intros prev parr H; [constructor|].
  destruct H as (H1 & _ & H3). constructor; [done|]. eapply Forall_impl; [apply (IH _ _ H3)|].
  simpl. lia.
Qed.

Lemma encodable_sorted prev parr l : encodable prev parr l -> StronglySorted Z.lt (prev :: l.*1).
Proof.
  revert prev parr. induction l as [|[s a] l IH]; intros prev parr H; [by repeat constructor|].
  pose proof (encodable_above _ _ _ H) as Hab. destruct H as (H1 & _ & H3). constructor; [by eapply IH|].
  by apply Forall_fmap.
Qed.

Lemma last_seqnum_in prev l : l <> [] -> exists a, (last_seqnum prev l, a) ∈ l.
Proof.
  intros Hne. unfold last_seqnum. destruct (exists_last Hne) as (l' & [s a] & ->).
  rewrite List.last_last. exists a. simpl. set_solver.
Qed.

(** The first message takes the first arrival, and what else fits. *)
Lemma fill_first {E} first a l reference :
  encodable first a l -> 0 <= first < 2 ^ 62 -> Forall (fun e => e.1 < 2 ^ 62) l ->
  0 <= delta reference a <= 255 ->
  exists took rest cs,
    l = took ++ rest /\
    fill (E:=E) first ((first, a) :: l) first reference [] [] =
      Ok (last_seqnum (first - 1) ((first, a) :: took), deltas_of reference ((first, a) :: took), cs, rest) /\
    encodable (first - 1) reference ((first, a) :: took) /\
    represents cs (statuses_of (first - 1) reference ((first, a) :: took)).
Proof.
  intros Hch Hf Hl Hd.
  destruct (fill_cons (E:=E) first first a l first reference [] [] [] Hf ltac:(lia) Hf
    ltac:(unfold PacketStatusChunks.written_len; simpl; lia)
    ltac:(unfold MIN_LARGE_DELTA_TICKS, MAX_LARGE_DELTA_TICKS; lia) ltac:(by left)) as (cs1 & E1 & R1).
  destruct (fill_ok (E:=E) first l first a ([] ++ delta_bytes (delta reference a)) cs1 _ Hch Hf Hf Hl R1)
    as (took & rest & cs & -> & _ & E2 & R2).
  exists took, rest, cs. split; [done|]. split; [|split].
  - rewrite E1, E2, last_seqnum_cons. done.
  - split; [lia|]. split; [unfold MIN_LARGE_DELTA_TICKS, MAX_LARGE_DELTA_TICKS; lia|].
    by eapply encodable_app.
  - cbn [statuses_of]. replace (Z.to_nat (first - (first + 1))) with 0%nat in R2 by lia.
    replace (Z.to_nat (first - (first - 1 + 1))) with 0%nat by lia. exact R2.
Qed.

(** A message spans less than 2^16 sequence numbers. *)
Lemma span_ok first a took max reference :
  encodable (first - 1) reference ((first, a) :: took) -> near max ((first, a) :: took) ->
  let last := last_seqnum (first - 1) ((first, a) :: took) in
  0 <= last - first < 2 ^ 16 - 1 /\ u16 (u64 (last - first + 1)) = last - first + 1.
Proof.
  intros Het Hn. cbn zeta. set (took' := (first, a) :: took) in *.
  destruct (last_seqnum_in (first - 1) took' ltac:(done)) as [x Hx].
  pose proof (proj1 (Forall_forall _ _) Hn _ Hx) as Hy. cbn [fst] in Hy.
  pose proof (proj1 (Forall_forall _ _) (encodable_above _ _ _ Het) _ Hx) as Hz. cbn [fst] in Hz.
  inversion_clear Hn as [|? ? Hd _]. cbn [fst] in Hd.
  split; [lia|]. unfold u16, u64. rewrite !wrap_small; unfold uint; rewrite ?wrap_small; unfold uint; lia.
Qed.

Definition close_times (epoch n : Z) : list (Z * Z) -> list (Z * Z) -> Prop :=
  Forall2 (fun e t => t.1 = e.1 /\ Z.abs (t.2 - (e.2 - epoch)) <= TICK * n).

Lemma times_close ref epoch n took : 0 <= n -> Z.of_nat (length took) <= n ->
  close_times epoch n took (times ref 0 (epoch + ref * REFERENCE) took).
Proof.
  intros. apply (times_error ref epoch took 0 (epoch + ref * REFERENCE) 0 n); [|lia].
  change MICROS_PER_REFERENCE_TICK with 64000. unfold REFERENCE, MICROS_PER_DELTA_TICK. lia.
Qed.

Lemma close_nonneg epoch n l t : close_times epoch n l t -> Forall (fun e => TICK * n <= e.2 - epoch) l ->
  Forall (fun e => 0 <= e.2) t.
Proof. induction 1; intros Hp; constructor; inversion_clear Hp; [lia|auto]. Qed.

(** What a receiver can acknowledge exactly: sequence numbers that the peer
    expands as they were, arrivals after the epoch and close to each other. *)
Record acknowledgeable (epoch max n : Z) (arrivals : list (Z * Z)) : Prop := {
  ack_chained : chained arrivals;
  ack_near : near max arrivals;
  ack_max : 0 <= max;
  ack_times : Forall (fun e => 0 <= e.1 < 2 ^ 61 /\ TICK * n <= e.2 - epoch < 2 ^ 24 * REFERENCE) arrivals;
  ack_count : Z.of_nat (length arrivals) <= n
}.

Lemma acknowledgeable_rest epoch max n first a took rest :
  acknowledgeable epoch max n ((first, a) :: took ++ rest) ->
  acknowledgeable epoch (Z.max max first) n rest.
Proof.
  intros [Hch Hnear Hmax Hall Hn]. inversion_clear Hnear as [|? ? Hd Hnear'].
  inversion_clear Hall as [|? ? _ Hall']. simpl in Hch, Hn. rewrite length_app in Hn.
  apply Forall_app in Hall' as [_ Har]. apply Forall_app in Hnear' as [_ Hnr]. split.
  - by eapply encodable_suffix.
  - pose proof (encodable_above _ _ _ Hch) as Hab. apply Forall_app in Hab as [_ Hab].
    apply Forall_forall. intros e He. rewrite Forall_forall in Hnr, Hab.
    specialize (Hnr e He). specialize (Hab e He). simpl in *. lia.
  - lia.
  - done.
  - lia.
Qed.

Lemma first_length {E} ssrc first' count ref number first a l reference last ds cs rest :
  encodable first a l -> 0 <= first < 2 ^ 62 ->
  fill (E:=E) first ((first, a) :: l) first reference [] [] = Ok (last, ds, cs, rest) ->
  short (message (w32 ssrc, (w16 first', (w16 count, (w24 ref, [number])))) cs ds).
Proof.
  intros He Hf Hfill.
  destruct (fill_length (E:=E) first ((first, a) :: l) (first - 1) first reference [] [] last ds cs rest)
    as [Hds Hcs]; try done; try (simpl; lia).
  - rewrite fmap_cons. apply StronglySorted_cons. pose proof (encodable_sorted _ _ _ He) as Hs.
    split; [|done]. inversion Hs as [|? ? Hs' Hall]; subst. constructor; [cbn; lia|].
    eapply Forall_impl; [exact Hall|]. simpl. lia.
  - unfold short, MESSAGE_LIMIT. rewrite to_vec_message, !length_app, write_chunks.
    unfold header_bytes. rewrite !length_app, !length_be_bytes. cbn [app length].
    assert (length (concat (map (fun c => be_bytes 2 (PacketStatusChunk.as_16 c)) cs)) = 2 * length cs)%nat
      as -> by (clear; induction cs; simpl; lia).
    simpl in Hcs. lia.
Qed.

Lemma messages_ok ssrc epoch n fuel : forall number arrivals max,
  acknowledgeable epoch max n arrivals -> uint 8 number -> (length arrivals <= fuel)%nat ->
  exists ms next r,
    messages (E:=unit) fuel ssrc number epoch arrivals = Ok (ms, next) /\
    (forall payloads, Forall2 holds ms payloads -> read_all max payloads = Some r) /\
    close_times epoch n arrivals r /\ Forall short ms.
Proof.
  induction fuel as [|fuel IH]; intros number arrivals max Hack Hnum Hfuel;
    (destruct arrivals as [|[first a] l];
      [exists [], number, []; split_and!; [done|by inversion 1|constructor|constructor]|]);
    [simpl in Hfuel; lia|].
  pose proof Hack as [Hch Hnear Hmax Hall Hn].
  inversion_clear Hall as [|? ? Ha Hall']. inversion Hnear as [|? ? Hd _]; subst. simpl in Ha, Hd, Hch, Hn.
  cbn [messages]. destruct Ha as [Hf0 Ha].
  destruct (reference_ok epoch a ltac:(unfold TICK in Ha; lia)) as (_ & Href & Etr & Eref & Hdelta).
  set (ref := ticks_from_duration _ MICROS_PER_REFERENCE_TICK) in *. cbn zeta. rewrite Eref, Etr.
  destruct (fill_first (E:=unit) first a l (epoch + ref * REFERENCE) Hch ltac:(lia)
    ltac:(eapply Forall_impl; [exact Hall'|]; simpl; lia) Hdelta)
    as (took & rest & cs & -> & Efill & Het & Hrep).
  assert (0 <= first < 2 ^ 62) as Hf by lia.
  pose proof (fun count => first_length ssrc (u16 first) count ref number _ _ _ _ _ _ _ _ Hch Hf Efill)
    as Hshort.
  rewrite Efill, mbind_Ok. clear Efill. set (took' := (first, a) :: took) in *. rewrite length_app in Hn.
  change ((first, a) :: took ++ rest) with (took' ++ rest) in *.
  pose proof (proj1 (Forall_app _ _ _) Hnear) as [Hnt _].
  destruct (span_ok first a took max _ Het Hnt) as [Hspan Ecount]. fold took' in Hspan, Ecount. rewrite Ecount.
  destruct (IH (u8 (number + 1)) rest (Z.max max first)) as (ms & next & r & -> & Er & Hr & Hms).
  { by apply (acknowledgeable_rest epoch max n first a took). }
  { apply wrap_uint. lia. }
  { simpl in Hfuel. rewrite length_app in Hfuel. lia. }
  rewrite mbind_Ok.
  assert (close_times epoch n took' (times ref 0 (epoch + ref * REFERENCE) took')) as Hclose.
  { apply times_close; [lia|]. simpl. lia. }
  eexists _, _, (times ref 0 (epoch + ref * REFERENCE) took' ++ r).
  split; [reflexivity|]. split; [|split; [by apply Forall2_app|by constructor]].
  intros payloads Hp. inversion Hp as [|? b ? payloads' [tail ->] Hp']; subst.
  cbn [read_all]. rewrite to_vec_message.
  match goal with |- context [(?A ++ ?B ++ ?C) ++ tail] =>
    replace ((A ++ B ++ C) ++ tail) with (A ++ B ++ C ++ tail) by (by rewrite <- (app_assoc A), <- (app_assoc B)) end.
  change (delta_bytes (delta (epoch + ref * REFERENCE) a) ++ deltas_of a took) with
    (deltas_of (epoch + ref * REFERENCE) took').
  rewrite (read_message ssrc first ref number cs took' (epoch + ref * REFERENCE) max tail);
    try done; [by rewrite (Er _ Hp')|lia|].
  apply (close_nonneg epoch n took'); [done|]. pose proof (ack_times _ _ _ _ Hack) as Ht.
  apply Forall_app in Ht as [Ht _]. eapply Forall_impl; [exact Ht|]. simpl. lia.
Qed.

(** ** The reader on any bytes *)

Lemma read_be_no_panic n payload : read_be n payload ≠ Panic.
Proof. unfold read_be, read_slice. by destruct (length payload <? n)%nat. Qed.

Lemma read_be_length n payload v rest : read_be n payload = Ok (v, rest) ->
  (length rest + n = length payload)%nat.
Proof.
  unfold read_be, read_slice. destruct (Nat.ltb_spec (length payload) n); [done|].
  cbn [ok_or]. rewrite mbind_Ok. intros [= _ <-]. rewrite length_drop. lia.
Qed.

Lemma read_status_chunks_no_panic fuel : forall count sum payload,
  (length payload < fuel)%nat -> read_status_chunks fuel count sum payload ≠ Panic.
Proof.
  induction fuel as [|fuel IH]; intros count sum payload Hf; [lia|]. cbn [read_status_chunks].
  case_if; [|done]. apply bind_no_panic; [apply read_be_no_panic|]. intros [v rest] Er.
  apply read_be_length in Er.
  apply bind_no_panic; [by destruct (PacketStatusChunk.from_u16 v)|]. intros c _.
  apply bind_no_panic; [apply IH; lia|]. by intros [].
Qed.

Lemma read_arrivals_no_panic ref l : forall sum payload, read_arrivals ref sum l payload ≠ Panic.
Proof.
  induction l as [|[s o] l IH]; intros sum payload; [done|]. cbn [read_arrivals].
  apply bind_no_panic; [by destruct o|]. intros status _. apply bind_no_panic.
  - destruct status; [done|..]; (apply bind_no_panic; [apply read_be_no_panic|by intros []]).
  - intros [[d|] p] _; [|apply IH]. apply bind_no_panic; [apply IH|done].
Qed.

Lemma read_statuses_no_panic base payload : read_statuses base payload ≠ Panic.
Proof.
  unfold read_statuses. do 3 (apply bind_no_panic; [apply read_be_no_panic|intros [? ?] _]).
  apply bind_no_panic; [apply read_status_chunks_no_panic; lia|]. intros [cs p] _.
  apply bind_no_panic; [apply read_arrivals_no_panic|done].
Qed.

Lemma read_feedback_no_panic payload max : (read_feedback payload max).1 ≠ Panic.
Proof.
  unfold read_feedback.
  assert (('(_, payload) ← read_be 4 payload; read_be 2 payload) ≠ Panic) as Hn.
  { apply bind_no_panic; [apply read_be_no_panic|]. intros [] _. apply read_be_no_panic. }
  destruct ('(_, payload) ← read_be 4 payload; read_be 2 payload) as [[b p]| |]; [|done|done].
  destruct (expand_seqnum b max). apply read_statuses_no_panic.
Qed.

(** The numbers it reports are among those it walks over, in their order. *)
Lemma read_arrivals_sublist ref l : forall sum payload r,
  read_arrivals ref sum l payload = Ok r -> r.*1 `sublist_of` l.*1.
Proof.
  induction l as [|[s o] l IH]; intros sum payload r H; [injection H as <-; constructor|].
  cbn [read_arrivals] in H. apply bind_Ok in H as (status & _ & H).
  apply bind_Ok in H as ([[d|] p] & _ & H).
  - apply bind_Ok in H as (rest & H & E). injection E as <-. cbn. constructor. by eapply IH.
  - cbn. constructor. by eapply IH.
Qed.

Lemma sublist_fst_zip {A B} (a : list A) (b : list B) : (zip a b).*1 `sublist_of` a.
Proof. revert b. induction a as [|x a IH]; intros [|y b]; simpl; repeat constructor; [apply sublist_nil_l|apply IH]. Qed.

Lemma read_statuses_NoDup base payload n r :
  read_statuses base payload = Ok (n, r) -> NoDup r.*1.
Proof.
  unfold read_statuses. intros H. do 3 (apply bind_Ok in H as ([? ?] & _ & H)).
  apply bind_Ok in H as ([cs p] & _ & H). apply bind_Ok in H as (r0 & H & [= _ ->]).
  apply read_arrivals_sublist in H. eapply sublist_NoDup; [apply NoDup_seqZ|].
  etrans; [exact H|apply sublist_fst_zip].
Qed.

(** ** The sender *)

(** The acknowledgements of [arrivals], each of something remembered. *)
Definition acks_of (cache : TwoGenerationCache.t Z (Z * Z)) (now : Z) (arrivals : list (Z * Z))
    : list Ack :=
  omap (fun '(s, a) =>
    match TwoGenerationCache.get cache s with
    | Some (size, departure) => Some (ack size departure a now)
    | None => None
    end) arrivals.

Lemma get_remove (c : TwoGenerationCache.t Z (Z * Z)) s k :
  TwoGenerationCache.get (TwoGenerationCache.remove c s).1 k =
    if decide (k = s) then None else TwoGenerationCache.get c k.
Proof.
  unfold TwoGenerationCache.get, TwoGenerationCache.remove. cbn. destruct (decide (k = s)) as [->|].
  - by rewrite !lookup_delete_eq.
  - by rewrite !lookup_delete_ne.
Qed.

Lemma acks_of_remove c s now l : s ∉ l.*1 ->
  acks_of (TwoGenerationCache.remove c s).1 now l = acks_of c now l.
Proof.
  induction l as [|[k a] l IH]; intros Hs; [done|]. rewrite fmap_cons, not_elem_of_cons in Hs.
  unfold acks_of. cbn [omap list_omap]. rewrite get_remove.
  destruct (decide (k = s)) as [->|]; [naive_solver|].
  fold (acks_of (TwoGenerationCache.remove c s).1 now l) (acks_of c now l).
  by rewrite IH by naive_solver.
Qed.

(** Each packet is acknowledged once, with what was remembered of it. *)
Lemma correlate_ok l now : forall self, NoDup l.*1 ->
  let '(self', acks) := Sender.correlate self l now in
  acks = acks_of (Sender.size_by_seqnum self) now l /\
  Sender.next_send_seqnum self' = Sender.next_send_seqnum self /\
  Sender.max_received_seqnum self' = Sender.max_received_seqnum self /\
  forall s, TwoGenerationCache.get (Sender.size_by_seqnum self') s =
    if decide (s ∈ l.*1) then None else TwoGenerationCache.get (Sender.size_by_seqnum self) s.
Proof.
  induction l as [|[s a] l IH]; intros self Hd; [done|].
  rewrite fmap_cons in Hd. apply NoDup_cons in Hd as [Hs Hd]. cbn [Sender.correlate].
  set (c := Sender.size_by_seqnum self).
  assert (TwoGenerationCache.remove c s = ((TwoGenerationCache.remove c s).1, TwoGenerationCache.get c s))
    as -> by done.
  specialize (IH (Sender.mk (Sender.next_send_seqnum self) (Sender.max_received_seqnum self)
    (TwoGenerationCache.remove c s).1) Hd).
  destruct (Sender.correlate _ l now) as [self' acks]. destruct IH as (-> & E1 & E2 & E3).
  cbn [Sender.size_by_seqnum] in *. rewrite acks_of_remove by done.
  split; [|split; [done|split; [done|]]].
  - unfold acks_of. cbn [omap list_omap]. by destruct (TwoGenerationCache.get c s) as [[]|].
  - intros k. rewrite E3, get_remove, fmap_cons.
    destruct (decide (k ∈ l.*1)), (decide (k = s)), (decide (k ∈ (s, a).1 :: l.*1)) as [Hk|Hk];
      try done; rewrite elem_of_cons in Hk; naive_solver.
Qed.

(** Messages processed one after the other acknowledge what [read_all] reads. *)
Lemma process_read_all now payloads : forall self r,
  read_all (Sender.max_received_seqnum self) payloads = Some r -> NoDup r.*1 ->
  exists self', Sender.process_feedback_and_correlate_acks self payloads now =
    Ok (self', acks_of (Sender.size_by_seqnum self) now r).
Proof.
  induction payloads as [|b payloads IH]; intros self r H Hd; cbn [read_all] in *.
  - injection H as <-. by eexists.
  - cbn [Sender.process_feedback_and_correlate_acks].
    destruct (read_feedback b (Sender.max_received_seqnum self)) as [[[n l]| |] max]; [|done..].
    destruct (read_all max payloads) as [r'|] eqn:Er; [|done]. injection H as <-.
    rewrite fmap_app in Hd. apply NoDup_app in Hd as (Hl & Hdis & Hr').
    cbn [ok_opt]. rewrite mbind_Ok.
    pose proof (correlate_ok l now (Sender.mk (Sender.next_send_seqnum self) max
      (Sender.size_by_seqnum self)) Hl) as Hc.
    destruct (Sender.correlate _ l now) as [self' acks]. destruct Hc as (-> & _ & Emax & Eget).
    cbn [Sender.size_by_seqnum Sender.max_received_seqnum] in *. subst max.
    destruct (IH self' r' Er Hr') as [self'' ->]. rewrite mbind_Ok. eexists. do 2 f_equal.
    unfold acks_of. rewrite omap_app. f_equal. apply list_omap_ext, Forall2_same_length_lookup.
    split; [done|]. intros i [s a] y E1 E2. rewrite E1 in E2. injection E2 as <-. rewrite Eget.
    destruct (decide (s ∈ l.*1)) as [Hs|]; [|done]. exfalso. apply (Hdis s Hs).
    apply list_elem_of_fmap. exists (s, a). split; [done|]. by eapply list_elem_of_lookup_2.
Qed.

End FeedbackFacts.

Module TransportCcProperties.
Import Feedback FeedbackFacts ChunkFacts.

(** Transport-wide feedback end to end.  What a receiver has collected
    (arrivals close to each other, their numbers near the largest the peer has
    seen), split into as many messages as needed, gives the peer one
    acknowledgement for each packet that it still remembers sending, with the
    size and departure it remembered and the arrival within a tick of 250
    microseconds per packet; and the receiver starts afresh. *)
Theorem tcc_acks_delivered (r : Receiver.t) (s : Sender.t) n now :
  acknowledgeable (Receiver.epoch r) (Sender.max_received_seqnum s) n
    (Receiver.unacked_arrival_by_seqnum r) ->
  NoDup (Receiver.unacked_arrival_by_seqnum r).*1 -> uint 8 (Receiver.next_feedback_seqnum r) ->
  exists r' messages s' arrivals,
    Receiver.send_acks (E:=unit) r = Ok (r', messages) /\
    Receiver.unacked_arrival_by_seqnum r' = [] /\
    Sender.process_feedback_and_correlate_acks s (map to_vec messages) now =
      Ok (s', acks_of (Sender.size_by_seqnum s) now arrivals) /\
    close_times (Receiver.epoch r) n (Receiver.unacked_arrival_by_seqnum r) arrivals.
Proof.
  intros Hack Hd Hn. unfold Receiver.send_acks, write_feedback.
  destruct (messages_ok (Receiver.ssrc r) _ n _ _ _ _ Hack Hn (le_n _)) as (ms & next & l & -> & Hr & Hc & _).
  assert (NoDup l.*1) as Hl.
  { assert (l.*1 = (Receiver.unacked_arrival_by_seqnum r).*1) as ->; [|done].
    clear -Hc. induction Hc as [|? ? ? ? [E _] _ IH]; [done|]. by rewrite !fmap_cons, E, IH. }
  destruct (process_read_all now (map to_vec ms) s l (Hr _ (holds_to_vec ms)) Hl) as [s' Hs']. rewrite mbind_Ok.
  eexists _, _, _, l. split; [reflexivity|]. done.
Qed.

(** Three packets, the second one lost, the third reordered before the last. *)
Definition sample_receiver : Receiver.t :=
  Receiver.remember_received
    (Receiver.remember_received (Receiver.remember_received (Receiver.new 77 0) 1 (10 ^ 9)) 5 (10 ^ 9 + 10 ^ 7))
    4 (10 ^ 9 + 2 * 10 ^ 7).

Definition sample_sender : Sender.t :=
  Sender.remember_sent (Sender.remember_sent (Sender.new 0) 1 8000 5) 4 9600 6.

Lemma tcc_acks_delivered_witness :
  exists r' messages s' arrivals,
    Receiver.send_acks (E:=unit) sample_receiver = Ok (r', messages) /\
    Receiver.unacked_arrival_by_seqnum r' = [] /\
    Sender.process_feedback_and_correlate_acks sample_sender (map to_vec messages) 99 =
      Ok (s', acks_of (Sender.size_by_seqnum sample_sender) 99 arrivals) /\
    close_times 0 3 (Receiver.unacked_arrival_by_seqnum sample_receiver) arrivals.
Proof.
  apply (tcc_acks_delivered sample_receiver sample_sender 3 99).
  - split.
    + vm_compute. repeat split; discriminate.
    + repeat constructor.
    + done.
    + repeat constructor; discriminate.
    + done.
  - apply (bool_decide_unpack _). vm_compute. exact I.
  - done.
Defined.

(** Any sequence of packet statuses, pushed one by one into chunks (run
    lengths that turn into one-bit and two-bit vectors and split when full) and
    written, is read back: all the chunks, nothing of what follows, and the same
    statuses. *)
Theorem status_chunks_roundtrip (l : list PacketStatus) tail :
  exists chunks,
    foldr (fun s k cs => cs ← PacketStatusChunks.push (E:=unit) cs s; k cs) Ok l [] = Ok chunks /\
    exists read,
      read_status_chunks (S (length (PacketStatusChunks.write chunks [] ++ tail)))
        (Z.of_nat (length l)) 0 (PacketStatusChunks.write chunks [] ++ tail) = Ok (read, tail) /\
      take (length l) (concat (map PacketStatusChunk.into_iter read)) = map Some l.
Proof.
  assert (forall l cs st, represents cs st -> exists chunks,
    foldr (fun s k cs => cs ← PacketStatusChunks.push (E:=unit) cs s; k cs) Ok l cs = Ok chunks /\
    represents chunks (st ++ l)) as H.
  { clear. intros l. induction l as [|s l IH]; intros cs st Hr; simpl.
    - exists cs. by rewrite app_nil_r.
    - destruct (push_represents (E:=unit) cs st s Hr) as (cs' & -> & Hr').
      destruct (IH cs' _ Hr') as (chunks & E & R). exists chunks. by rewrite <- app_assoc in R. }
  destruct (H l [] []) as (chunks & E & R); [by left|]. exists chunks. split; [exact E|].
  destruct (read_represents chunks l (S (length (PacketStatusChunks.write chunks [] ++ tail))) tail R)
    as (read & k & Er & Hread).
  { rewrite length_app, write_chunks. cbn [app]. clear. induction chunks; simpl; lia. }
  exists read. split; [exact Hread|]. rewrite Er, map_app. apply take_app_length'. by rewrite length_map.
Qed.

(** No feedback bytes make the reader panic, whatever they claim to hold, and
    no message acknowledges a number twice. *)
Theorem feedback_parse_total payload max :
  match (read_feedback payload max).1 with
  | Ok (_, arrivals) => NoDup arrivals.*1
  | Err _ => True
  | Panic => False
  end.
Proof.
  pose proof (read_feedback_no_panic payload max) as Hn. revert Hn. unfold read_feedback.
  destruct ('(_, payload) ← read_be 4 payload; read_be 2 payload) as [[b p]| |]; [|done|done].
  destruct (expand_seqnum b max) as [base m]. cbn [fst].
  destruct (read_statuses base p) as [[n r]| |] eqn:E; [|done|done].
  intros _. by eapply read_statuses_NoDup.
Qed.

(** ** Two messages that are not read as they were meant *)

(** A gap of exactly 2^16 - 1 numbers passes the check, and the status count of
    65536 is written as 0: neither packet is acknowledged. *)
Lemma status_count_wraps :
  match write_feedback (E:=unit) 77 1 0 [(1, 10 ^ 9); (65536, 10 ^ 9)] with
  | Ok ([m], _) => read_feedback (to_vec m) 1 = (Ok (1, []), 1)
  | _ => False
  end.
Proof. vm_compute. reflexivity. Qed.

(** When a delta does not fit, the gap before it has already been pushed: the
    message carries a chunk that its status count does not cover, and the reader
    takes it for a delta (0 instead of 10 ticks). *)
Lemma uncounted_chunk_read_as_delta :
  match write_feedback (E:=unit) 77 1 0 [(1, 2500000); (40, 9 * 10 ^ 9)] with
  | Ok (m :: _, _) => read_feedback (to_vec m) 1 = (Ok (1, [(1, 0)]), 1)
  | _ => False
  end.
Proof. vm_compute. reflexivity. Qed.

End TransportCcProperties.
