(* ===== verification/Pacer.v ===== *)
(** * Pacer: smoothing out what is sent

    [src/backend/src/pacer.rs]: the queues of media and retransmissions, the
    budget that spaces what is sent, padding when there is nothing to send.  A
    packet is an [rtp::Packet]; the padding generator is a function to a packet
    and whatever else it changes. *)
From S2P Require Import Prelude Float FloatBounds RtpHeader Packet.

Module Pacer.

Module Config.
Record t := mk {
  media_send_rate : Z;
  padding_send_rate : Z;
  padding_ssrc : option Z
}.
Definition default : t := mk 0 0 None.
End Config.

Definition MAX_DEBT_IN_TIME : Z := Duration.from_millis 500.

Record t := mk {
  config : Config.t;
  video_queue : list Packet.t;
  rtx_queue : list Packet.t;
  queued_size : Z;
  last_sent : option Z;
  media_debt : Z;
  padding_debt : Z
}.

#[global] Instance t_eta : Settable t := fun s =>
  mk (config s) (video_queue s) (rtx_queue s) (queued_size s) (last_sent s) (media_debt s)
     (padding_debt s).

Definition new (config : Config.t) : t := mk config [] [] 0 None 0 0.

(** [media.size()] *)
Definition size (p : Packet.t) : Z := DataRate.size_from_bytes (Packet.size p).

Definition queue_is_empty (self : t) : bool :=
  match video_queue self, rtx_queue self with
  | [], [] => true
  | _, _ => false
  end.

Definition calculate_next_media_send_time {E} (self : t) (now : Z) : Res E (option Z) :=
  if 0 <? Config.media_send_rate (config self) then
    match last_sent self with
    | Some last_sent_time =>
        drain_time ← DataRate.size_div_rate (media_debt self) (Config.media_send_rate (config self));
        Ok (Some (last_sent_time + drain_time))
    | None => Ok (Some now)
    end
  else Ok None.

Definition calculate_next_padding_send_time {E} (self : t) (now : Z) : Res E (option Z) :=
  if (0 <? Config.padding_send_rate (config self)) && (0 <? Config.media_send_rate (config self)) then
    match last_sent self with
    | Some last_sent_time =>
        media_drain_time ←
          DataRate.size_div_rate (media_debt self) (Config.media_send_rate (config self));
        padding_drain_time ←
          DataRate.size_div_rate (padding_debt self) (Config.padding_send_rate (config self));
        Ok (Some (last_sent_time + Z.max media_drain_time padding_drain_time))
    | None => Ok (Some now)
    end
  else Ok None.

Definition calculate_next_send_time {E} (self : t) (now : Z) : Res E (option Z) :=
  if queue_is_empty self then calculate_next_padding_send_time self now
  else calculate_next_media_send_time self now.

Definition update_budget_with_time (self : t) (now : Z) : t :=
  match last_sent self with
  | Some last_sent =>
      match Duration.checked_duration_since now last_sent with
      | Some delta =>
          self <| media_debt ::= fun d =>
                    DataRate.size_saturating_sub d
                      (Z.min d (DataRate.rate_mul_duration (Config.media_send_rate (config self)) delta)) |>
               <| padding_debt ::= fun d =>
                    DataRate.size_saturating_sub d
                      (Z.min d (DataRate.rate_mul_duration (Config.padding_send_rate (config self)) delta)) |>
               <| Pacer.last_sent := Some now |>
      | None => self
      end
  | None => self <| Pacer.last_sent := Some now |>
  end.

Definition update_budget_with_sent_padding (self : t) (size : Z) : t :=
  let self := self <| padding_debt ::= fun d => DataRate.size_add d size |> in
  if negb (Config.padding_send_rate (config self) =? 0) then
    self <| padding_debt ::= fun d =>
              Z.min d (DataRate.rate_mul_duration (Config.padding_send_rate (config self)) MAX_DEBT_IN_TIME) |>
  else self.

Definition update_budget_with_sent_data (self : t) (size : Z) : t :=
  let self := self <| media_debt ::= fun d => DataRate.size_add d size |> in
  let self :=
    if negb (Config.media_send_rate (config self) =? 0) then
      self <| media_debt ::= fun d =>
                Z.min d (DataRate.rate_mul_duration (Config.media_send_rate (config self)) MAX_DEBT_IN_TIME) |>
    else self in
  update_budget_with_sent_padding self size.

Definition set_config {E} (self : t) (config : Config.t) (now : Z) : Res E (t * option Z) :=
  old_schedule ← calculate_next_send_time self now;
  let self := self <| Pacer.config := config |> in
  let self := update_budget_with_sent_data self 0 in
  new_schedule ← calculate_next_send_time self now;
  match new_schedule with
  | Some new_schedule =>
      match old_schedule with
      | None =>
          if new_schedule <? now then Ok (update_budget_with_time self now, Some now)
          else Ok (self, Some new_schedule)
      | Some old_schedule =>
          if new_schedule <=? now then
            if now <? old_schedule then Ok (update_budget_with_time self now, Some now)
            else Ok (update_budget_with_time self old_schedule, Some now)
          else Ok (self, Some new_schedule)
      end
  | None => Ok (self, None)
  end.

Definition past_send_time (send_time : option Z) (now : Z) : bool :=
  match send_time with
  | Some send_time => send_time <=? now
  | None => false
  end.

(** The packet joins the queue of its kind. *)
Definition force_enqueue (self : t) (media : Packet.t) : t :=
  let self := self <| queued_size ::= fun s => DataRate.size_add s (size media) |> in
  if Packet.is_rtx media then self <| rtx_queue ::= fun q => q ++ [media] |>
  else self <| video_queue ::= fun q => q ++ [media] |>.

(** Returns what is to be sent now and when to dequeue. *)
Definition enqueue {E} (self : t) (media : Packet.t) (now : Z) :
    Res E (t * (option Packet.t * option Z)) :=
  next_media_send_time ← calculate_next_media_send_time self now;
  let was_empty := queue_is_empty self in
  if was_empty && past_send_time next_media_send_time now then
    let self := update_budget_with_time self now in
    let self := update_budget_with_sent_data self (size media) in
    next ← calculate_next_send_time self now;
    Ok (self, (Some media, next))
  else
    let self := self <| queued_size ::= fun s => DataRate.size_add s (size media) |> in
    let self :=
      if Packet.is_rtx media then self <| rtx_queue ::= fun q => q ++ [media] |>
      else self <| video_queue ::= fun q => q ++ [media] |> in
    if was_empty then
      next ← calculate_next_send_time self now;
      Ok (self, (None, next))
    else Ok (self, (None, None)).

Definition queue_delay {E} (self : t) (now : Z) : Res E (option Z) :=
  if bool_decide (is_Some (Config.padding_ssrc (config self)))
     && (0 <? Config.padding_send_rate (config self)) then
    next ← calculate_next_media_send_time self now;
    match next with
    | Some next_send =>
        match video_queue self with
        | media :: _ =>
            match Packet.entry_time media with
            | Some entry_time => Ok (Some (Duration.saturating_duration_since next_send entry_time))
            | None => Ok None
            end
        | [] => Ok (Some (Duration.saturating_duration_since now next_send))
        end
    | None => Ok None
    end
  else Ok None.

Fixpoint pop_queue (queue : list Packet.t) (queued_size now : Z) :
    option Packet.t * list Packet.t * Z :=
  match queue with
  | media :: queue =>
      let queued_size := DataRate.size_saturating_sub queued_size (size media) in
      if Packet.is_past_deadline media now then pop_queue queue queued_size now
      else (Some media, queue, queued_size)
  | [] => (None, [], queued_size)
  end.

Definition pop_rtx (self : t) (now : Z) : option Packet.t * t :=
  let '(media, queue, size) := pop_queue (rtx_queue self) (queued_size self) now in
  (media, self <| rtx_queue := queue |> <| queued_size := size |>).

Definition pop_video (self : t) (now : Z) : option Packet.t * t :=
  let '(media, queue, size) := pop_queue (video_queue self) (queued_size self) now in
  (media, self <| video_queue := queue |> <| queued_size := size |>).

(** [self.pop_rtx(now).or_else(|| self.pop_video(now))] *)
Definition pop (self : t) (now : Z) : option Packet.t * t :=
  match pop_rtx self now with
  | (Some media, self) => (Some media, self)
  | (None, self) => pop_video self now
  end.

Section Padding.
(** The padding generator returns a packet and the state of its owner. *)
Context {E W : Type} (generate_padding : Z -> Res E (option Packet.t * W)).

(** The second half of [dequeue]: "Maybe send padding". *)
Definition maybe_send_padding (self : t) (was_empty : bool) (now : Z) :
    Res E (t * (option Packet.t * option Z) * option W) :=
  match Config.padding_ssrc (config self) with
  | Some padding_ssrc =>
      next_padding_send_time ← calculate_next_padding_send_time self now;
      if past_send_time next_padding_send_time now then
        '(padding, w) ← generate_padding padding_ssrc;
        match padding with
        | Some padding =>
            let self := update_budget_with_time self now in
            let self := update_budget_with_sent_padding self (size padding) in
            next ← calculate_next_send_time self now;
            Ok (self, (Some padding, next), Some w)
        | None => Ok (self, (None, None), Some w)
        end
      else if negb was_empty then
        next ← calculate_next_send_time self now;
        Ok (self, (None, next), None)
      else Ok (self, (None, None), None)
  | None => Ok (self, (None, None), None)
  end.

Definition dequeue (self : t) (now : Z) : Res E (t * (option Packet.t * option Z) * option W) :=
  let was_empty := queue_is_empty self in
  if negb was_empty then
    next_media_send_time ← calculate_next_media_send_time self now;
    if past_send_time next_media_send_time now then
      match pop self now with
      | (Some media, self) =>
          let self := update_budget_with_time self now in
          let self := update_budget_with_sent_data self (size media) in
          next ← calculate_next_send_time self now;
          Ok (self, (Some media, next), None)
      | (None, self) => maybe_send_padding self was_empty now
      end
    else Ok (self, (None, None), None)
  else maybe_send_padding self was_empty now.

End Padding.
End Pacer.

(** * Theorems *)

Module PacerFacts.
Import Pacer FloatFacts.

(** The largest debt a rate allows. *)
Definition cap (rate : Z) : Z := DataRate.rate_mul_duration rate MAX_DEBT_IN_TIME.

Record config_ok (c : Config.t) : Prop := {
  co_media : uint 64 (Config.media_send_rate c);
  co_padding : uint 64 (Config.padding_send_rate c)
}.

(** What [set_config] and every send leave behind. *)
Record budget_ok (s : t) : Prop := {
  bo_config : config_ok (config s);
  bo_media : 0 <= media_debt s;
  bo_padding : 0 <= padding_debt s;
  bo_media_cap : Config.media_send_rate (config s) <> 0 -> media_debt s <= cap (Config.media_send_rate (config s));
  bo_padding_cap :
    Config.padding_send_rate (config s) <> 0 -> padding_debt s <= cap (Config.padding_send_rate (config s))
}.

Lemma cap_eq rate : cap rate = F64.to_u64 (F64.mul (F64.of_Z rate) half).
Proof. reflexivity. Qed.

(** A debt within its cap is drained within [MAX_DEBT_IN_TIME]. *)
Lemma drained {E} rate debt : uint 64 rate -> 0 < rate -> 0 <= debt -> (rate <> 0 -> debt <= cap rate) ->
  exists d, DataRate.size_div_rate (E := E) debt rate = Ok d /\ 0 <= d <= MAX_DEBT_IN_TIME.
Proof.
  intros [_ Hr] Hr0 Hd Hc. specialize (Hc ltac:(lia)). rewrite cap_eq in Hc. by apply half_rate_drained.
Qed.

(** When the next packet may go: within [MAX_DEBT_IN_TIME] of the last one. *)
Definition within (last_sent : option Z) (now : Z) (next : option Z) : Prop :=
  forall at_, next = Some at_ ->
    match last_sent with
    | Some t => t <= at_ <= t + MAX_DEBT_IN_TIME
    | None => at_ = now
    end.

Lemma next_media_ok {E} s now : budget_ok s ->
  exists next, calculate_next_media_send_time (E := E) s now = Ok next /\ within (last_sent s) now next /\
    (is_Some next <-> 0 < Config.media_send_rate (config s)).
Proof.
  intros []. unfold calculate_next_media_send_time. destruct (Z.ltb_spec 0 (Config.media_send_rate (config s))) as [Hr|Hr].
  - destruct (last_sent s) as [t|].
    + destruct (drained (E := E) _ _ (co_media _ bo_config0) Hr bo_media0 bo_media_cap0) as (d & -> & Hd).
      rewrite mbind_Ok. eexists. split; [done|]. split; [intros ? [= <-]; lia|by split; eauto].
    + eexists. split; [done|]. split; [by intros ? [= <-]|by split; eauto].
  - eexists. split; [done|]. split; [done|]. split; [by intros []|lia].
Qed.

Lemma next_padding_ok {E} s now : budget_ok s ->
  exists next, calculate_next_padding_send_time (E := E) s now = Ok next /\ within (last_sent s) now next /\
    (is_Some next <-> 0 < Config.media_send_rate (config s) /\ 0 < Config.padding_send_rate (config s)).
Proof.
  intros []. unfold calculate_next_padding_send_time.
  destruct (Z.ltb_spec 0 (Config.padding_send_rate (config s))) as [Hp|Hp],
    (Z.ltb_spec 0 (Config.media_send_rate (config s))) as [Hr|Hr]; cbn [andb];
    try (eexists; split; [done|]; split; [done|]; split; [by intros []|lia]).
  destruct (last_sent s) as [t|].
  - destruct (drained (E := E) _ _ (co_media _ bo_config0) Hr bo_media0 bo_media_cap0) as (d & -> & Hd).
    destruct (drained (E := E) _ _ (co_padding _ bo_config0) Hp bo_padding0 bo_padding_cap0) as (d' & -> & Hd').
    rewrite !mbind_Ok. eexists. split; [done|]. split; [intros ? [= <-]; lia|by split; eauto].
  - eexists. split; [done|]. split; [by intros ? [= <-]|by split; eauto].
Qed.

Lemma next_ok {E} s now : budget_ok s ->
  exists next, calculate_next_send_time (E := E) s now = Ok next /\ within (last_sent s) now next.
Proof.
  intros H. unfold calculate_next_send_time. case_if.
  - edestruct (next_padding_ok (E := E) s now H) as (n & ? & ? & _). eauto.
  - edestruct (next_media_ok (E := E) s now H) as (n & ? & ? & _). eauto.
Qed.

(** ** The budget *)

Lemma rate_mul_nonneg rate delta : 0 <= DataRate.rate_mul_duration rate delta.
Proof. apply to_u64_nonneg. Qed.

Lemma taken_back d rate delta : 0 <= d ->
  0 <= DataRate.size_saturating_sub d (Z.min d (DataRate.rate_mul_duration rate delta)) <= d.
Proof.
  intros Hd. pose proof (rate_mul_nonneg rate delta). set (x := DataRate.rate_mul_duration rate delta) in *.
  unfold DataRate.size_saturating_sub, DataRate.size_sub, u64, wrap. case_if; boolsplit; [|lia].
  pose proof (Z.mod_pos_bound (d - Z.min d x) (2 ^ 64) ltac:(lia)).
  pose proof (Z.mod_le (d - Z.min d x) (2 ^ 64) ltac:(lia) ltac:(lia)). lia.
Qed.

Lemma update_with_time_ok s now : budget_ok s ->
  budget_ok (update_budget_with_time s now) /\
  config (update_budget_with_time s now) = config s /\
  last_sent (update_budget_with_time s now) = Some (Z.max now (unwrap_or (last_sent s) now)).
Proof.
  intros []. unfold update_budget_with_time. destruct (last_sent s) as [t|] eqn:E; cbn [unwrap_or].
  - unfold Duration.checked_duration_since. destruct (Z.leb_spec t now).
    + split; [|split; [done|cbn; f_equal; lia]].
      pose proof (taken_back (media_debt s) (Config.media_send_rate (config s)) (now - t) bo_media0).
      pose proof (taken_back (padding_debt s) (Config.padding_send_rate (config s)) (now - t) bo_padding0).
      split; cbn; [done|lia|lia|intros; etrans; [|auto]; lia|intros; etrans; [|auto]; lia].
    + split; [done|]. split; [done|]. rewrite E. f_equal. lia.
  - split; [by split|]. split; [done|]. cbn. f_equal. lia.
Qed.

Lemma cap_nonneg rate : 0 <= cap rate.
Proof. apply rate_mul_nonneg. Qed.

Lemma size_add_nonneg a b : 0 <= DataRate.size_add a b.
Proof. unfold DataRate.size_add, u64. by apply wrap_uint. Qed.

(** The part of [budget_ok] that a new configuration leaves. *)
Record media_ok (s : t) : Prop := {
  mo_config : config_ok (config s);
  mo_media : 0 <= media_debt s;
  mo_media_cap : Config.media_send_rate (config s) <> 0 -> media_debt s <= cap (Config.media_send_rate (config s))
}.

Lemma budget_media_ok s : budget_ok s -> media_ok s.
Proof. by intros []. Qed.

Lemma sent_padding_ok s size : media_ok s ->
  budget_ok (update_budget_with_sent_padding s size) /\
  config (update_budget_with_sent_padding s size) = config s /\
  last_sent (update_budget_with_sent_padding s size) = last_sent s.
Proof.
  intros []. unfold update_budget_with_sent_padding. cbn.
  pose proof (size_add_nonneg (padding_debt s) size). pose proof (cap_nonneg (Config.padding_send_rate (config s))).
  fold (cap (Config.padding_send_rate (config s))). destruct (Z.eqb_spec (Config.padding_send_rate (config s)) 0); cbn [negb].
  - split; [|done]. split; cbn; [done..|lia].
  - split; [|done]. split; cbn; [done|done| |done|]; fold (cap (Config.padding_send_rate (config s))); lia.
Qed.

Lemma sent_data_ok s size : config_ok (config s) ->
  budget_ok (update_budget_with_sent_data s size) /\
  config (update_budget_with_sent_data s size) = config s /\
  last_sent (update_budget_with_sent_data s size) = last_sent s.
Proof.
  intros Hc. unfold update_budget_with_sent_data. cbn.
  set (s' := if negb _ then _ else _).
  assert (media_ok s' /\ config s' = config s /\ last_sent s' = last_sent s) as (H1 & H2 & H3).
  { pose proof (size_add_nonneg (media_debt s) size). pose proof (cap_nonneg (Config.media_send_rate (config s))).
    unfold s'. destruct (Z.eqb_spec (Config.media_send_rate (config s)) 0); cbn [negb];
      (split; [|done]); split; cbn; try done; fold (cap (Config.media_send_rate (config s))); lia. }
  destruct (sent_padding_ok s' size H1) as (? & -> & ->). by rewrite H2, H3.
Qed.

(** ** What the queues hold *)

Definition queue (rtx : bool) (s : t) : list Packet.t := if rtx then rtx_queue s else video_queue s.
Definition kind (rtx : bool) : list Packet.t -> list Packet.t := filter (fun p => Packet.is_rtx p = rtx).

(** Packets that left the queues: sent, or skipped at a time past their deadline. *)
Definition fate : Type := Packet.t * option Z.
Definition was_sent (f : fate) : bool := match f.2 with None => true | Some _ => false end.
Definition sent_of (l : list fate) : list Packet.t := (filter (fun f => was_sent f = true) l).*1.
Definition expired_ok (now : Z) (f : fate) : Prop :=
  match f.2 with Some at_ => at_ <= now /\ Packet.is_past_deadline f.1 at_ = true | None => True end.

(** The size of what is queued. *)
Definition total (l : list Packet.t) : Z := foldr (fun p n => size p + n) 0 l.

Lemma pop_queue_spec q n now media q' n' : pop_queue q n now = (media, q', n') ->
  exists gone, q = gone ++ option_list media ++ q' /\
    Forall (fun p => Packet.is_past_deadline p now = true) gone /\
    (forall p, media = Some p -> Packet.is_past_deadline p now = false) /\ (media = None -> q' = []) /\
    n' = fold_left (fun n p => DataRate.size_saturating_sub n (size p)) (gone ++ option_list media) n.
Proof.
  revert n. induction q as [|p q IH]; intros n; cbn [pop_queue].
  - intros [= <- <- <-]. exists []. split_and!; try done. 
  - case_if.
    + intros (gone & -> & Hg & Hm & Hn & ->)%IH. exists (p :: gone). split_and!; try done. by constructor.
    + intros [= <- <- <-]. exists []. split_and!; try done. by intros ? [= <-].
Qed.

End PacerFacts.

Module PacerSteps.
Import Pacer PacerFacts.

Definition same_queues (s s' : t) : Prop :=
  video_queue s' = video_queue s /\ rtx_queue s' = rtx_queue s /\ queued_size s' = queued_size s.

Lemma with_time_queues s now : same_queues s (update_budget_with_time s now).
Proof. unfold update_budget_with_time. by destruct (last_sent s); [destruct (Duration.checked_duration_since _ _)|]. Qed.

Lemma sent_padding_queues s n : same_queues s (update_budget_with_sent_padding s n).
Proof. unfold update_budget_with_sent_padding. cbn. by case_if. Qed.

Lemma sent_data_queues s n : same_queues s (update_budget_with_sent_data s n).
Proof.
  unfold update_budget_with_sent_data. cbn. destruct (sent_padding_queues
    (if negb (Config.media_send_rate (config s) =? 0)
     then s <| media_debt ::= fun d => DataRate.size_add d n |>
            <| media_debt ::= fun d => Z.min d (DataRate.rate_mul_duration (Config.media_send_rate (config s)) MAX_DEBT_IN_TIME) |>
     else s <| media_debt ::= fun d => DataRate.size_add d n |>) n) as (H1 & H2 & H3).
  unfold same_queues. cbn in *. rewrite H1, H2, H3. by case_if.
Qed.

Lemma same_queues_trans s1 s2 s3 : same_queues s1 s2 -> same_queues s2 s3 -> same_queues s1 s3.
Proof. unfold same_queues. intros (-> & -> & ->) (-> & -> & ->). done. Qed.

(** What every operation keeps of the budget: no debt above the caps, nothing
    sent in the future. *)
Record timely (now : Z) (s : t) : Prop := {
  ti_budget : budget_ok s;
  ti_last : forall at_, last_sent s = Some at_ -> at_ <= now
}.

(** A schedule that is no later than [MAX_DEBT_IN_TIME] from now. *)
Definition soon (now : Z) (next : option Z) : Prop := forall at_, next = Some at_ -> at_ <= now + MAX_DEBT_IN_TIME.

Lemma within_soon now s next : timely now s -> within (last_sent s) now next -> soon now next.
Proof.
  intros [_ Hl] Hw at_ E. specialize (Hw at_ E). destruct (last_sent s) as [t|].
  - specialize (Hl t eq_refl). unfold MAX_DEBT_IN_TIME, Duration.from_millis in *. lia.
  - subst. unfold MAX_DEBT_IN_TIME, Duration.from_millis. lia.
Qed.

Lemma timely_later now now' s : timely now s -> now <= now' -> timely now' s.
Proof. intros [? Hl] ?. split; [done|]. intros at_ E. specialize (Hl at_ E). lia. Qed.

Lemma with_time_timely now s at_ : timely now s -> at_ <= now -> timely now (update_budget_with_time s at_).
Proof.
  intros [Hb Hl] Hat. destruct (update_with_time_ok s at_ Hb) as (? & _ & E). split; [done|].
  intros u. rewrite E. intros [= <-]. destruct (last_sent s) as [v|]; cbn [unwrap_or]; [specialize (Hl v eq_refl)|]; lia.
Qed.

(** A packet is sent: the budget is charged. *)
Definition charge (padding : bool) (s : t) (now size : Z) : t :=
  if padding then update_budget_with_sent_padding (update_budget_with_time s now) size
  else update_budget_with_sent_data (update_budget_with_time s now) size.

Lemma charge_timely padding now s n : timely now s -> timely now (charge padding s now n).
Proof.
  intros H. destruct (with_time_timely now s now H ltac:(lia)) as [Hb Hl]. unfold charge. destruct padding.
  - destruct (sent_padding_ok (update_budget_with_time s now) n (budget_media_ok _ Hb)) as (? & _ & E).
    split; [done|]. by rewrite E.
  - destruct (sent_data_ok (update_budget_with_time s now) n (bo_config _ Hb)) as (? & _ & E).
    split; [done|]. by rewrite E.
Qed.

Lemma charge_queues padding s now n : same_queues s (charge padding s now n).
Proof.
  unfold charge. destruct padding; (eapply same_queues_trans; [apply with_time_queues|]);
    [apply sent_padding_queues|apply sent_data_queues].
Qed.

Lemma timely_next {E} now s : timely now s ->
  exists next, calculate_next_send_time (E := E) s now = Ok next /\ soon now next.
Proof. intros H. destruct (next_ok (E := E) s now (ti_budget _ _ H)) as (n & ? & ?). eauto using within_soon. Qed.

(** Queues do not enter the budget. *)
Lemma timely_ext now s s' : timely now s -> config s' = config s -> media_debt s' = media_debt s ->
  padding_debt s' = padding_debt s -> last_sent s' = last_sent s -> timely now s'.
Proof.
  intros [[] Hl] E1 E2 E3 E4. split; [|by rewrite E4]. split; rewrite ?E1, ?E2, ?E3; done.
Qed.

Definition push (s : t) (p : Packet.t) : t := force_enqueue s p.

Lemma push_timely now s p : timely now s -> timely now (push s p).
Proof. intros H. unfold push, force_enqueue. cbn. case_if; (eapply timely_ext; [exact H|done..]). Qed.

Lemma pop_timely now s at_ : timely now s -> timely now (pop s at_).2.
Proof.
  intros H. unfold pop, pop_rtx, pop_video.
  destruct (pop_queue (rtx_queue s) _ _) as [[[p|] q] n]; cbn [snd]; [by eapply timely_ext|].
  cbn. destruct (pop_queue (video_queue s) _ _) as [[? ?] ?]. by eapply timely_ext.
Qed.

(** ** The operations end, and soon ask to be called again *)

Lemma set_config_ok {E} now s c : timely now s -> config_ok c ->
  exists s' next, set_config (E := E) s c now = Ok (s', next) /\ timely now s' /\ soon now next /\ same_queues s s'.
Proof.
  intros H Hc. unfold set_config. destruct (timely_next (E := E) now s H) as (old & -> & _). rewrite mbind_Ok.
  set (s1 := update_budget_with_sent_data _ _).
  assert (timely now s1 /\ same_queues s s1) as [H1 Q1].
  { unfold s1. edestruct (sent_data_ok (s <| config := c |>) 0) as (? & _ & El); [cbn; exact Hc|]. split.
    - split; [done|]. rewrite El. apply H.
    - eapply same_queues_trans; [|apply sent_data_queues]. done. }
  clearbody s1. destruct (timely_next (E := E) now s1 H1) as (new & -> & Hs). rewrite mbind_Ok.
  assert (soon now (Some now)) as Hnow by (intros ? [= <-]; unfold MAX_DEBT_IN_TIME, Duration.from_millis; lia).
  destruct new as [new|]; [|eexists _, _; done].
  destruct old as [old|]; repeat case_if; boolsplit; eexists _, _; (split; [done|]); split_and!; try done;
    try (apply with_time_timely; [done|lia]); (eapply same_queues_trans; [exact Q1|apply with_time_queues]).
Qed.

Lemma enqueue_eq {E} s p now : enqueue (E := E) s p now =
  (next ← calculate_next_media_send_time s now;
   if queue_is_empty s && past_send_time next now then
     next ← calculate_next_send_time (charge false s now (size p)) now;
     Ok (charge false s now (size p), (Some p, next))
   else if queue_is_empty s then
     next ← calculate_next_send_time (push s p) now; Ok (push s p, (None, next))
   else Ok (push s p, (None, None))).
Proof. done. Qed.

Lemma enqueue_ok {E} now s p : timely now s ->
  exists s' out next, enqueue (E := E) s p now = Ok (s', (out, next)) /\ timely now s' /\ soon now next /\
    ((out = Some p /\ queue_is_empty s = true /\ same_queues s s') \/ (out = None /\ same_queues (push s p) s')).
Proof.
  intros H. rewrite enqueue_eq. destruct (next_media_ok (E := E) s now (ti_budget _ _ H)) as (n & -> & _).
  rewrite mbind_Ok. destruct (queue_is_empty s) eqn:Ee; cbn [andb].
  - case_if.
    + destruct (timely_next (E := E) now _ (charge_timely false now s (size p) H)) as (next & -> & ?).
      eexists _, _, _. split; [done|]. split_and!; [by apply charge_timely|done|]. left. split_and!; [done..|].
      apply charge_queues.
    + destruct (timely_next (E := E) now _ (push_timely now s p H)) as (next & -> & ?).
      eexists _, _, _. split; [done|]. split_and!; [by apply push_timely|done|]. by right.
  - eexists _, _, _. split; [done|]. split_and!; [by apply push_timely|done|]. by right.
Qed.

(** ** [pop]: the first packet that has not expired, retransmissions first *)

Definition live (now : Z) (p : Packet.t) : bool := negb (Packet.is_past_deadline p now).
Definition both (s : t) : list Packet.t := rtx_queue s ++ video_queue s.
Definition total_subtract (l : list Packet.t) (n : Z) : Z :=
  fold_left (fun n p => DataRate.size_saturating_sub n (size p)) l n.

(** What [pop] removes of one queue. *)
Definition removed (rtx : bool) (now : Z) (media : option Packet.t) (s s' : t) (gone : list Packet.t) : Prop :=
  queue rtx s = gone ++ option_list media ++ queue rtx s' /\
  Forall (fun p => Packet.is_past_deadline p now = true) gone.

Lemma pop_spec s now : exists gr mr gv mv, let s' := (pop s now).2 in
  removed true now mr s s' gr /\ removed false now mv s s' gv /\
  (pop s now).1 = match mr with Some p => Some p | None => mv end /\
  (forall p, (pop s now).1 = Some p -> Packet.is_past_deadline p now = false) /\
  (mr = None -> rtx_queue s' = []) /\
  (if mr then gv = [] /\ mv = None else (mv = None -> video_queue s' = [])) /\
  queued_size s' = total_subtract (gr ++ option_list mr ++ gv ++ option_list mv) (queued_size s).
Proof.
  unfold pop, pop_rtx, pop_video, removed, total_subtract.
  destruct (pop_queue (rtx_queue s) _ _) as [[mr qr] nr] eqn:Er.
  apply pop_queue_spec in Er as (gr & Hqr & Hgr & Hlr & Her & Hnr). destruct mr as [p|].
  - exists gr, (Some p), [], None. cbn. rewrite Hqr, Hnr. split_and!; done.
  - destruct (pop_queue (video_queue (s <| rtx_queue := qr |> <| queued_size := nr |>)) _ now)
      as [[mv qv] nv] eqn:Ev.
    change (pop_queue (video_queue s) nr now = (mv, qv, nv)) in Ev. apply pop_queue_spec in Ev as (gv & Hqv & Hgv & Hlv & Hev & Hnv).
    exists gr, None, gv, mv. cbn. rewrite (Her eq_refl) in *. cbn in *. rewrite Hqr, Hqv, Hnv, Hnr. split_and!; try done.
    by rewrite app_nil_r, (fold_left_app _ gr (gv ++ _)).
Qed.

(** ** [dequeue] *)

Section Dequeue.
Context {E W : Type} (gen : Z -> Res E (option Packet.t * W)).

(** The generator does not fail. *)
Definition generates : Prop := forall ssrc, exists r, gen ssrc = Ok r.

Definition padded (w : option W) : bool := match w with Some _ => true | None => false end.

Lemma maybe_send_padding_ok now s was_empty : timely now s -> generates ->
  exists s' out next w, maybe_send_padding gen s was_empty now = Ok (s', (out, next), w) /\
    timely now s' /\ soon now next /\ same_queues s s' /\ (w = None -> out = None).
Proof.
  intros H Hg. unfold maybe_send_padding. destruct (Config.padding_ssrc (config s)) as [ssrc|];
    [|eexists _, _, _, _; done].
  destruct (next_padding_ok (E := E) s now (ti_budget _ _ H)) as (n & -> & _). rewrite mbind_Ok. case_if.
  - destruct (Hg ssrc) as [[[p|] w] ->]; rewrite mbind_Ok; [|eexists _, _, _, _; done].
    destruct (timely_next (E := E) now _ (charge_timely true now s (size p) H)) as (next & En & ?).
    change (update_budget_with_sent_padding (update_budget_with_time s now) (size p)) with (charge true s now (size p)).
    rewrite En, mbind_Ok. eexists _, _, _, _. split; [done|].
    split_and!; [by apply charge_timely|done|apply charge_queues..|done].
  - case_if; [|eexists _, _, _, _; done]. destruct (timely_next (E := E) now s H) as (next & -> & ?).
    rewrite mbind_Ok. eexists _, _, _, _. done.
Qed.

(** The time has come to send media. *)
Definition due (s : t) (now : Z) : Prop :=
  exists at_, calculate_next_media_send_time (E := E) s now = Ok (Some at_) /\ at_ <= now.

Lemma dequeue_ok now s : timely now s -> generates ->
  exists s' out next w, dequeue gen s now = Ok (s', (out, next), w) /\ timely now s' /\ soon now next /\
    ((same_queues s s' /\ (w = None -> out = None) /\ (queue_is_empty s = true \/ (queue_is_empty s = false /\ out = None /\ w = None /\ ~ due s now))) \/
     (due s now /\ queue_is_empty s = false /\ same_queues (pop s now).2 s' /\
      match (pop s now).1 with Some p => out = Some p /\ w = None | None => w = None -> out = None end)).
Proof.
  intros H Hg. unfold dequeue. destruct (queue_is_empty s) eqn:Ee; cbn [negb].
  { destruct (maybe_send_padding_ok now s true H Hg) as (s' & out & next & w & -> & ? & ? & ? & ?).
    eexists _, _, _, _. split; [done|]. split_and!; [done..|]. left. auto. }
  destruct (next_media_ok (E := E) s now (ti_budget _ _ H)) as (n & En & _). rewrite En, mbind_Ok.
  destruct (past_send_time n now) eqn:Ep.
  - assert (due s now) as Hdue.
    { unfold past_send_time in Ep. destruct n as [at_|]; [|done]. boolsplit. by exists at_. }
    pose proof (pop_timely now s now H) as Hp. destruct (pop s now) as [[p|] s1]; cbn [fst snd] in *.
    + destruct (timely_next (E := E) now _ (charge_timely false now s1 (size p) Hp)) as (next & Enx & ?).
      change (update_budget_with_sent_data (update_budget_with_time s1 now) (size p)) with (charge false s1 now (size p)).
      rewrite Enx, mbind_Ok. eexists _, _, _, _. split; [done|].
      split_and!; [by apply charge_timely|done|]. right. split_and!; try done; apply charge_queues.
    + destruct (maybe_send_padding_ok now s1 false Hp Hg) as (s' & out & next & w & -> & ? & ? & ? & ?).
      eexists _, _, _, _. split; [done|]. split_and!; [done..|]. by right.
  - eexists _, _, _, _. split; [done|]. split_and!; [done|done|]. left. split_and!; [done..|]. right. split_and!; [done..|].
    intros (at_ & En' & Hat). rewrite En in En'. injection En' as ->. cbn in Ep. boolsplit. lia.
Qed.

End Dequeue.

End PacerSteps.

Module PacerReach.
Import Pacer PacerFacts PacerSteps.

(** Runs of a pacer: the time, the packets it was given and those it sent,
    padding aside. *)
Inductive reach : Z -> t -> list Packet.t -> list Packet.t -> Prop :=
| reach_new now c : config_ok c -> reach now (new c) [] []
| reach_set_config now s given sent now' c s' next :
    reach now s given sent -> now <= now' -> config_ok c ->
    set_config (E := unit) s c now' = Ok (s', next) -> reach now' s' given sent
| reach_enqueue now s given sent now' p s' out next :
    reach now s given sent -> now <= now' ->
    enqueue (E := unit) s p now' = Ok (s', (out, next)) ->
    reach now' s' (given ++ [p]) (sent ++ option_list out)
| reach_force_enqueue now s given sent p :
    reach now s given sent -> reach now (force_enqueue s p) (given ++ [p]) sent
| reach_dequeue now s given sent now' (gen : Z -> Res unit (option Packet.t * unit)) s' out next w :
    reach now s given sent -> now <= now' -> generates gen ->
    dequeue gen s now' = Ok (s', (out, next), w) ->
    reach now' s' given (sent ++ if padded w then [] else option_list out).

Lemma reach_timely now s given sent : reach now s given sent -> timely now s.
Proof.
  induction 1 as [now c Hc|now s g snt now' c s' next _ IH Hle Hc E|now s g snt now' p s' out next _ IH Hle E
    |now s g snt p _ IH|now s g snt now' gen s' out next w _ IH Hle Hg E].
  - split; [|done]. by split; cbn; [|done|done|intros; apply cap_nonneg|intros; apply cap_nonneg].
  - destruct (set_config_ok (E := unit) now' s c (timely_later _ _ _ IH Hle) Hc) as (? & ? & E' & ? & _).
    rewrite E in E'. by injection E' as <- <-.
  - destruct (enqueue_ok (E := unit) now' s p (timely_later _ _ _ IH Hle)) as (? & ? & ? & E' & ? & _).
    rewrite E in E'. by injection E' as <- <- <-.
  - by apply push_timely.
  - destruct (dequeue_ok gen now' s (timely_later _ _ _ IH Hle) Hg) as (? & ? & ? & ? & E' & ? & _).
    rewrite E in E'. by injection E' as <- <- <- <-.
Qed.

(** Each kind of packet leaves the pacer in the order it came: [fates] says
    what became of those that left. *)
Definition in_order (rtx : bool) (now : Z) (s : t) (given sent : list Packet.t) : Prop :=
  exists fates : list fate, kind rtx given = fates.*1 ++ queue rtx s /\ kind rtx sent = sent_of fates /\
    Forall (expired_ok now) fates.

Lemma kind_app rtx l l' : kind rtx (l ++ l') = kind rtx l ++ kind rtx l'.
Proof. apply filter_app. Qed.

Lemma sent_of_app l l' : sent_of (l ++ l') = sent_of l ++ sent_of l'.
Proof. unfold sent_of. by rewrite filter_app, fmap_app. Qed.

Lemma in_order_later rtx now now' s s' given sent : in_order rtx now s given sent -> now <= now' ->
  queue rtx s' = queue rtx s -> in_order rtx now' s' given sent.
Proof.
  intros (f & H1 & H2 & H3) Hle E. exists f. rewrite E. split_and!; [done..|].
  eapply Forall_impl; [exact H3|]. unfold expired_ok. intros [p [at_|]]; cbn; [intros []; split; [lia|done]|done].
Qed.

Lemma same_queue rtx s s' : same_queues s s' -> queue rtx s' = queue rtx s.
Proof. intros (? & ? & _). by destruct rtx. Qed.

(** A packet is queued. *)
Lemma in_order_push rtx now s given sent p : in_order rtx now s given sent ->
  in_order rtx now (push s p) (given ++ [p]) sent.
Proof.
  intros (f & H1 & H2 & H3). exists f. split_and!; [|done..]. rewrite kind_app, H1, <- app_assoc. f_equal.
  unfold push, force_enqueue, kind, queue. cbn.
  destruct rtx, (Packet.is_rtx p); cbn; by rewrite ?app_nil_r.
Qed.

(** A packet that found the queues empty is sent at once. *)
Lemma in_order_skip rtx now s given sent p : in_order rtx now s given sent -> queue_is_empty s = true ->
  in_order rtx now s (given ++ [p]) (sent ++ [p]).
Proof.
  intros (f & H1 & H2 & H3) He.
  assert (queue rtx s = []) as Eq.
  { unfold queue_is_empty in He. unfold queue. destruct (video_queue s), (rtx_queue s), rtx; done. }
  exists (f ++ map (fun q => (q, None)) (kind rtx [p])). rewrite Eq, app_nil_r in *. rewrite !kind_app, sent_of_app, H1, H2.
  unfold kind. cbn. case_decide; cbn; rewrite ?app_nil_r, ?fmap_app; split_and!; try done.
  apply Forall_app. split; [done|]. by constructor.
Qed.

Lemma fates_fst o (l : list Packet.t) : (map (fun q => (q, o)) l : list fate).*1 = l.
Proof. induction l as [|x l IH]; [done|]. cbn. f_equal. exact IH. Qed.

(** Packets leave a queue: those past their deadline, then one that is sent. *)
Lemma in_order_pop rtx now s s' given sent media gone : in_order rtx now s given sent ->
  removed rtx now media s s' gone ->
  in_order rtx now s' given (sent ++ option_list media).
Proof.
  intros (f & H1 & H2 & H3) [Hq Hg].
  exists (f ++ map (fun q => (q, Some now)) gone ++ map (fun q => (q, None)) (option_list media)).
  assert (forall p, media = Some p -> Packet.is_rtx p = rtx) as Hk.
  { intros p ->. assert (p ∈ kind rtx given) as Hin by (rewrite H1, Hq; set_solver). by apply list_elem_of_filter in Hin as []. }
  split_and!.
  - rewrite H1, Hq, !fmap_app, <- !app_assoc, fates_fst. f_equal. f_equal. by destruct media.
  - rewrite kind_app, H2, !sent_of_app. f_equal.
    assert (sent_of (map (fun q => (q, Some now)) gone) = []) as -> by (clear; induction gone; [done|]; done).
    destruct media as [p|]; [|done]. unfold kind. cbn.
    rewrite decide_True by (by apply Hk). done.
  - apply Forall_app. split; [done|]. apply Forall_app. split.
    + apply Forall_map. eapply Forall_impl; [exact Hg|]. intros p Hp. split; [cbn; lia|done].
    + by destruct media; constructor.
Qed.

(** A sent packet of the other kind does not matter. *)
Lemma in_order_other rtx now s given sent p : in_order rtx now s given sent -> Packet.is_rtx p <> rtx ->
  in_order rtx now s given (sent ++ [p]).
Proof.
  intros (f & H1 & H2 & H3) Hp. exists f. split_and!; [done| |done]. rewrite kind_app, H2. unfold kind. cbn.
  rewrite decide_False by done. by rewrite app_nil_r.
Qed.

Lemma queue_kind rtx now s given sent p : in_order rtx now s given sent -> p ∈ queue rtx s -> Packet.is_rtx p = rtx.
Proof.
  intros (f & H1 & _) Hin. assert (p ∈ kind rtx given) as H by (rewrite H1; set_solver).
  by apply list_elem_of_filter in H as [].
Qed.

(** [pop] moves both queues on. *)
Lemma in_order_popped now s given sent : (forall rtx, in_order rtx now s given sent) ->
  forall rtx, in_order rtx now (pop s now).2 given (sent ++ option_list (pop s now).1).
Proof.
  intros H. destruct (pop_spec s now) as (gr & mr & gv & mv & Hr & Hv & Ep & _ & _ & Hrest & _).
  rewrite Ep. clear Ep. assert (forall b media gone s', removed b now media s s' gone ->
    forall p, media = Some p -> Packet.is_rtx p = b) as Hk.
  { intros b media gone s' [Hq _] p ->. eapply queue_kind; [apply H|]. rewrite Hq. set_solver. }
  pose proof (in_order_pop _ _ _ _ _ _ _ _ (H true) Hr) as Pr.
  pose proof (in_order_pop _ _ _ _ _ _ _ _ (H false) Hv) as Pv. specialize (Hk _ _ _ _ Hr) as Kr.
  specialize (Hk _ _ _ _ Hv) as Kv. destruct mr as [p|].
  - destruct Hrest as [-> ->]. cbn in *. rewrite app_nil_r in Pv. intros []; [done|].
    apply in_order_other; [done|]. by rewrite (Kr p).
  - cbn in *. rewrite app_nil_r in Pr. intros []; [|done]. destruct mv as [p|]; cbn; [|by rewrite app_nil_r].
    apply in_order_other; [done|]. by rewrite (Kv p).
Qed.

Lemma reach_in_order now s given sent : reach now s given sent -> forall rtx, in_order rtx now s given sent.
Proof.
  intros H. induction H as [now c Hc|now s g snt now' c s' next Hr IH Hle Hc E|now s g snt now' p s' out next Hr IH Hle E
    |now s g snt p Hr IH|now s g snt now' gen s' out next w Hr IH Hle Hg E]; intros rtx.
  - exists []. by destruct rtx.
  - apply reach_timely in Hr.
    destruct (set_config_ok (E := unit) now' s c (timely_later _ _ _ Hr Hle) Hc) as (? & ? & E' & _ & _ & Hq).
    rewrite E in E'. injection E' as <- <-. eapply in_order_later; [done..|]. by apply same_queue.
  - apply reach_timely in Hr.
    destruct (enqueue_ok (E := unit) now' s p (timely_later _ _ _ Hr Hle)) as (? & ? & ? & E' & _ & _ & Hcase).
    rewrite E in E'. injection E' as <- <- <-.
    destruct Hcase as [(-> & He & Hq)|(-> & Hq)].
    + eapply in_order_later; [by apply in_order_skip|done|]. by apply same_queue.
    + cbn. rewrite app_nil_r. eapply in_order_later; [by apply in_order_push|done|]. by apply same_queue.
  - by apply in_order_push.
  - apply reach_timely in Hr.
    destruct (dequeue_ok gen now' s (timely_later _ _ _ Hr Hle) Hg) as (? & ? & ? & ? & E' & _ & _ & Hcase).
    rewrite E in E'. injection E' as <- <- <- <-.
    destruct Hcase as [(Hq & Hw & _)|(_ & _ & Hq & Hcase)].
    + assert ((if padded w then [] else option_list out) = []) as -> by (destruct w; [done|by rewrite Hw]).
      rewrite app_nil_r. eapply in_order_later; [done..|]. by apply same_queue.
    + assert ((if padded w then [] else option_list out) = option_list (pop s now').1) as ->.
      { destruct (pop s now').1; [by destruct Hcase as [-> ->]|]. destruct w; [done|by rewrite Hcase]. }
      eapply (in_order_later _ now' _ (pop s now').2); [|lia|by apply same_queue].
      apply in_order_popped. intros b. by eapply in_order_later.
Qed.

(** ** The size of what is queued *)

Lemma total_cons p l : total (p :: l) = size p + total l.
Proof. done. Qed.

Lemma total_app l l' : total (l ++ l') = total l + total l'.
Proof. induction l as [|p l IH]; [done|]. rewrite <- app_comm_cons, !total_cons, IH. lia. Qed.

Lemma size_nonneg p : 0 <= size p.
Proof. unfold size, DataRate.size_from_bytes, u64. by apply wrap_uint. Qed.

Lemma queue_total_nonneg l : 0 <= total l.
Proof. induction l as [|p l IH]; [done|]. rewrite total_cons. pose proof (size_nonneg p). lia. Qed.

Lemma subtract_total l n : 0 <= n -> total l + n < 2 ^ 64 -> total_subtract l (total l + n) = n.
Proof.
  induction l as [|p l IH]; [done|]. rewrite total_cons. pose proof (size_nonneg p). pose proof (queue_total_nonneg l).
  intros Hn Hlt. unfold total_subtract in *. cbn. rewrite <- (IH ltac:(lia) ltac:(lia)) at 2. f_equal.
  unfold DataRate.size_saturating_sub, DataRate.size_sub, u64. case_if; boolsplit; [|lia].
  rewrite wrap_small; [lia|unfold uint; lia].
Qed.

Definition queued_total (s : t) : Z := total (rtx_queue s) + total (video_queue s).

Lemma same_total s s' : same_queues s s' -> queued_size s = queued_total s -> queued_size s' = queued_total s'.
Proof. intros (E1 & E2 & E3). unfold queued_total. by rewrite E1, E2, E3. Qed.

Lemma push_total s p : queued_size s = queued_total s -> queued_total s + size p < 2 ^ 64 ->
  queued_size (push s p) = queued_total (push s p).
Proof.
  unfold queued_total. intros E Hlt. pose proof (size_nonneg p). pose proof (queue_total_nonneg (rtx_queue s)).
  pose proof (queue_total_nonneg (video_queue s)).
  assert (DataRate.size_add (queued_size s) (size p) = queued_size s + size p) as Ea
    by (unfold DataRate.size_add, u64; apply wrap_small; unfold uint; lia).
  assert (queued_size (push s p) = queued_size s + size p /\
    ((rtx_queue (push s p) = rtx_queue s ++ [p] /\ video_queue (push s p) = video_queue s) \/
     (rtx_queue (push s p) = rtx_queue s /\ video_queue (push s p) = video_queue s ++ [p])))
    as (-> & [[-> ->]|[-> ->]]) by (unfold push, force_enqueue; cbn; case_if; cbn; rewrite Ea; auto);
    rewrite total_app, total_cons; change (total []) with 0; lia.
Qed.

Lemma pop_total s now : queued_size s = queued_total s -> queued_total s < 2 ^ 64 ->
  queued_size (pop s now).2 = queued_total (pop s now).2.
Proof.
  unfold queued_total. intros E Hlt.
  destruct (pop_spec s now) as (gr & mr & gv & mv & [Hr _] & [Hv _] & _ & _ & _ & _ & ->).
  set (s' := (pop s now).2) in *. unfold queue in Hr, Hv. rewrite E, Hr, Hv in *.
  pose proof (queue_total_nonneg (rtx_queue s')). pose proof (queue_total_nonneg (video_queue s')).
  rewrite !total_app in *.
  pose proof (subtract_total (gr ++ option_list mr ++ gv ++ option_list mv)
    (total (rtx_queue s') + total (video_queue s'))) as Hs. rewrite !total_app in Hs.
  rewrite <- Hs by lia. f_equal. lia.
Qed.

(** What is queued is part of what was given. *)
Lemma kind_total l : total (kind true l) + total (kind false l) = total l.
Proof.
  unfold kind. induction l as [|p l IH]; [done|]. rewrite total_cons, <- IH, !filter_cons.
  destruct (Packet.is_rtx p); repeat case_decide; rewrite ?total_cons; try done; lia.
Qed.

Lemma queued_total_le now s given sent : (forall rtx, in_order rtx now s given sent) -> queued_total s <= total given.
Proof.
  intros H. destruct (H true) as (f & Hf & _), (H false) as (f' & Hf' & _).
  rewrite <- kind_total, Hf, Hf', !total_app. unfold queued_total, queue.
  pose proof (queue_total_nonneg f.*1). pose proof (queue_total_nonneg f'.*1). lia.
Qed.

Lemma reach_total now s given sent : reach now s given sent -> total given < 2 ^ 64 ->
  queued_size s = queued_total s.
Proof.
  intros H. pose proof (reach_in_order _ _ _ _ H) as Ho.
  induction H as [now c Hc|now s g snt now' c s' next Hr IH Hle Hc E|now s g snt now' p s' out next Hr IH Hle E
    |now s g snt p Hr IH|now s g snt now' gen s' out next w Hr IH Hle Hg E]; intros Ht.
  - done.
  - specialize (IH (reach_in_order _ _ _ _ Hr) Ht). apply reach_timely in Hr.
    destruct (set_config_ok (E := unit) now' s c (timely_later _ _ _ Hr Hle) Hc) as (? & ? & E' & _ & _ & Hq).
    rewrite E in E'. injection E' as <- <-. by eapply same_total.
  - rewrite total_app in Ht. cbn in Ht. pose proof (size_nonneg p).
    specialize (IH (reach_in_order _ _ _ _ Hr) ltac:(lia)).
    pose proof (queued_total_le _ _ _ _ (reach_in_order _ _ _ _ Hr)). apply reach_timely in Hr.
    destruct (enqueue_ok (E := unit) now' s p (timely_later _ _ _ Hr Hle)) as (? & ? & ? & E' & _ & _ & Hcase).
    rewrite E in E'. injection E' as <- <- <-.
    destruct Hcase as [(-> & He & Hq)|(-> & Hq)]; [by eapply same_total|].
    eapply same_total; [exact Hq|]. apply push_total; [done|lia].
  - rewrite total_app in Ht. cbn in Ht. pose proof (size_nonneg p).
    specialize (IH (reach_in_order _ _ _ _ Hr) ltac:(lia)).
    pose proof (queued_total_le _ _ _ _ (reach_in_order _ _ _ _ Hr)). apply push_total; [done|lia].
  - specialize (IH (reach_in_order _ _ _ _ Hr) Ht).
    pose proof (queued_total_le _ _ _ _ (reach_in_order _ _ _ _ Hr)). apply reach_timely in Hr.
    destruct (dequeue_ok gen now' s (timely_later _ _ _ Hr Hle) Hg) as (? & ? & ? & ? & E' & _ & _ & Hcase).
    rewrite E in E'. injection E' as <- <- <- <-.
    destruct Hcase as [(Hq & Hw & _)|(_ & _ & Hq & Hcase)]; [by eapply same_total|].
    eapply same_total; [exact Hq|]. apply pop_total; [done|lia].
Qed.

End PacerReach.

Module PacerProperties.
Import Pacer PacerFacts PacerSteps PacerReach.

Lemma find_live now gone media rest : Forall (fun p => Packet.is_past_deadline p now = true) gone ->
  (forall p, media = Some p -> Packet.is_past_deadline p now = false) -> (media = None -> rest = []) ->
  List.find (live now) (gone ++ option_list media ++ rest) = media.
Proof.
  intros Hg Hm Hr. induction Hg as [|p gone Hp _ IH]; cbn.
  - destruct media as [p|]; cbn; [unfold live; by rewrite (Hm p)|by rewrite Hr].
  - unfold live at 1. by rewrite Hp.
Qed.

(** [pop] takes the first live packet of both queues, and what is before it. *)
Lemma pop_first_live s now : (pop s now).1 = List.find (live now) (both s) /\
  exists gone, both s = gone ++ option_list (pop s now).1 ++ both (pop s now).2 /\
    Forall (fun p => Packet.is_past_deadline p now = true) gone /\
    ((pop s now).1 = None -> both (pop s now).2 = []).
Proof.
  destruct (pop_spec s now) as (gr & mr & gv & mv & [Hr Hgr] & [Hv Hgv] & Ep & Hlive & Er & Hrest & _).
  cbn zeta in *. unfold queue in Hr, Hv. set (s' := (pop s now).2) in *.
  enough (exists gone, both s = gone ++ option_list (pop s now).1 ++ both s' /\
    Forall (fun p => Packet.is_past_deadline p now = true) gone /\ ((pop s now).1 = None -> both s' = [])) as Hex.
  { split; [|done]. destruct Hex as (gone & -> & Hg & Hn). symmetry. by apply find_live. }
  unfold both. rewrite Hr, Hv, Ep. destruct mr as [p|].
  - destruct Hrest as [-> ->]. exists gr. split; [|done]. cbn. by rewrite <- !app_assoc.
  - rewrite (Er eq_refl) in *. exists (gr ++ gv). split; [|split; [by apply Forall_app|by intros ->%Hrest]].
    cbn. by rewrite app_nil_r, <- app_assoc.
Qed.

(** C37: Packets of each kind leave the pacer in the order they came, and the ones
    not sent were past their deadline; the queued size is the size of what is
    queued. *)
Theorem pacer_keeps_packets now s given sent : reach now s given sent ->
  (forall rtx, exists fates : list (Packet.t * option Z),
    filter (fun p => Packet.is_rtx p = rtx) given = fates.*1 ++ (if rtx then rtx_queue s else video_queue s) /\
    filter (fun p => Packet.is_rtx p = rtx) sent = (filter (fun f => was_sent f = true) fates).*1 /\
    Forall (fun f => match f.2 with
                     | Some at_ => at_ <= now /\ Packet.is_past_deadline f.1 at_ = true
                     | None => True
                     end) fates) /\
  (total given < 2 ^ 64 -> queued_size s = total (rtx_queue s) + total (video_queue s)).
Proof. intros H. split; [exact (reach_in_order _ _ _ _ H)|exact (reach_total _ _ _ _ H)]. Qed.

(** C38: Whatever was done with a pacer before, its operations do not panic and ask
    to be called again within half a second. *)
Theorem pacer_waits_at_most_half_a_second now s given sent now' : reach now s given sent -> now <= now' ->
  (forall c, config_ok c -> exists s' next, set_config (E := unit) s c now' = Ok (s', next) /\
    forall at_, next = Some at_ -> at_ <= now' + 500 * 10 ^ 6) /\
  (forall p, exists s' out next, enqueue (E := unit) s p now' = Ok (s', (out, next)) /\
    forall at_, next = Some at_ -> at_ <= now' + 500 * 10 ^ 6) /\
  (forall gen : Z -> Res unit (option Packet.t * unit), generates gen ->
    exists s' out next w, dequeue gen s now' = Ok (s', (out, next), w) /\
      forall at_, next = Some at_ -> at_ <= now' + 500 * 10 ^ 6).
Proof.
  intros H Hle. apply reach_timely in H. pose proof (timely_later _ _ _ H Hle) as Ht. split_and!.
  - intros c Hc. destruct (set_config_ok (E := unit) now' s c Ht Hc) as (? & ? & ? & _ & ? & _). eauto.
  - intros p. destruct (enqueue_ok (E := unit) now' s p Ht) as (? & ? & ? & ? & _ & ? & _). eauto.
  - intros gen Hg. destruct (dequeue_ok gen now' s Ht Hg) as (? & ? & ? & ? & ? & _ & ? & _). eauto 10.
Qed.

(** What a dequeue does with the queues: nothing before the time has come; then
    the first packet that has not expired is sent, retransmissions first; and
    only when there is none is padding asked for. *)
Theorem dequeue_sends_first_live now s given sent now' (gen : Z -> Res unit (option Packet.t * unit)) s' out next w :
  reach now s given sent -> now <= now' -> generates gen ->
  dequeue gen s now' = Ok (s', (out, next), w) ->
  let queued := rtx_queue s ++ video_queue s in
  let queued' := rtx_queue s' ++ video_queue s' in
  if queue_is_empty s then queued' = [] /\ (w = None -> out = None)
  else
    (~ due (E := unit) s now' /\ queued' = queued /\ out = None /\ w = None) \/
    (due (E := unit) s now' /\
     match List.find (fun p => negb (Packet.is_past_deadline p now')) queued with
     | Some p => out = Some p /\ w = None /\ exists gone, queued = gone ++ p :: queued' /\
                   Forall (fun p => Packet.is_past_deadline p now' = true) gone
     | None => queued' = [] /\ (w = None -> out = None)
     end).
Proof.
  intros H Hle Hg E. cbn zeta. apply reach_timely in H. pose proof (timely_later _ _ _ H Hle) as Ht.
  destruct (dequeue_ok gen now' s Ht Hg) as (? & ? & ? & ? & E' & _ & _ & Hcase).
  rewrite E in E'. injection E' as <- <- <- <-.
  destruct Hcase as [((Hv & Hr & _) & Hw & Hcase)|(Hdue & He & (Hv & Hr & _) & Hcase)].
  - rewrite Hv, Hr. destruct (queue_is_empty s) eqn:Ee.
    + split; [|done]. unfold queue_is_empty in Ee. by destruct (video_queue s), (rtx_queue s).
    + left. by destruct Hcase as [|(_ & -> & -> & Hn)].
  - rewrite Hv, Hr, He. right. split; [done|]. fold (both s) (both (pop s now').2) (live now').
    destruct (pop_first_live s now') as (Ef & gone & Eq & Hgone & Hnone). fold (live now'). rewrite <- Ef.
    destruct (pop s now').1 as [p|]; [|by auto]. destruct Hcase as [-> ->]. split_and!; [done..|]. by exists gone.
Qed.

(** ** A run *)

Definition video_packet (seqnum : Z) : Packet.t :=
  Packet.mk false 108 1000 seqnum None false 0 None None None None None (12, 12)%nat false (Some (10 ^ 9)) 0
    (replicate 1200 0).
Definition rtx_video_packet : Packet.t := Packet.mk false 118 1001 5 (Some 3) false 0 None None None None None (12, 12)%nat
  false (Some (10 ^ 9)) 0 (replicate 600 0).

Definition example_config : Config.t := Config.mk 1000000 500000 (Some 2000).
Definition no_padding (ssrc : Z) : Res unit (option Packet.t * unit) := Ok (None, ()).

(** Two packets arrive at once, then a retransmission: the first is sent, the
    others wait. *)
Definition run : Res unit (t * list Packet.t) :=
  '(s, (out, _)) ← enqueue (new example_config) (video_packet 1) 0;
  '(s, (out', _)) ← enqueue s (video_packet 2) 0;
  Ok (force_enqueue s rtx_video_packet, option_list out ++ option_list out').

Definition after_run : t := match run with Ok (s, _) => s | _ => new example_config end.

Lemma example_config_ok : config_ok example_config.
Proof. by split. Qed.

Lemma run_reach : reach 0 after_run [video_packet 1; video_packet 2; rtx_video_packet] [video_packet 1].
Proof.
  assert (exists s1 n1 s2 n2, enqueue (E := unit) (new example_config) (video_packet 1) 0 = Ok (s1, (Some (video_packet 1), n1)) /\
    enqueue (E := unit) s1 (video_packet 2) 0 = Ok (s2, (None, n2)) /\ after_run = force_enqueue s2 rtx_video_packet)
    as (s1 & n1 & s2 & n2 & E1 & E2 & ->).
  { eexists _, _, _, _. split; [vm_compute; reflexivity|]. split; [vm_compute; reflexivity|]. vm_compute. reflexivity. }
  apply (reach_force_enqueue 0 s2 [video_packet 1; video_packet 2]).
  apply (reach_enqueue 0 s1 [video_packet 1] [video_packet 1] 0 (video_packet 2) s2 None n2); [|lia|done].
  apply (reach_enqueue 0 (new example_config) [] [] 0 (video_packet 1) s1 (Some (video_packet 1)) n1); [|lia|done].
  apply reach_new, example_config_ok.
Qed.

Lemma no_padding_generates : generates no_padding.
Proof. intros ssrc. by eexists. Qed.

Lemma pacer_keeps_packets_witness : exists fates : list (Packet.t * option Z),
  [video_packet 1; video_packet 2] = fates.*1 ++ video_queue after_run.
Proof.
  destruct (proj1 (pacer_keeps_packets _ _ _ _ run_reach) false) as (fates & E & _). exists fates.
  exact E.
Defined.

Lemma pacer_waits_at_most_half_a_second_witness : exists s' out next w,
  dequeue no_padding after_run 1000 = Ok (s', (out, next), w) /\
  forall at_, next = Some at_ -> at_ <= 1000 + 500 * 10 ^ 6.
Proof.
  exact (proj2 (proj2 (pacer_waits_at_most_half_a_second _ _ _ _ 1000 run_reach ltac:(lia))) no_padding no_padding_generates).
Defined.

(** The retransmission goes first. *)
Lemma dequeue_sends_first_live_witness : exists s' next,
  dequeue no_padding after_run (10 ^ 8) = Ok (s', (Some rtx_video_packet, next), None) /\
  exists gone, rtx_queue after_run ++ video_queue after_run = gone ++ rtx_video_packet :: rtx_queue s' ++ video_queue s'.
Proof.
  assert (exists s' next, dequeue no_padding after_run (10 ^ 8) = Ok (s', (Some rtx_video_packet, next), None))
    as (s' & next & E) by (eexists _, _; vm_compute; reflexivity).
  exists s', next. split; [exact E|].
  pose proof (dequeue_sends_first_live _ _ _ _ _ _ _ _ _ _ run_reach (Z.le_trans 0 1 (10 ^ 8) ltac:(lia) ltac:(lia))
    no_padding_generates E) as H. cbn zeta in H.
  assert (queue_is_empty after_run = false) as Ee by (vm_compute; reflexivity). rewrite Ee in H.
  destruct H as [(_ & _ & Hout & _)|(_ & H)]; [discriminate Hout|].
  assert (List.find (fun p => negb (Packet.is_past_deadline p (10 ^ 8))) (rtx_queue after_run ++ video_queue after_run)
    = Some rtx_video_packet) as Ef by (vm_compute; reflexivity).
  rewrite Ef in H. destruct H as (_ & _ & gone & Hq & _). exists gone. exact Hq.
Defined.

End PacerProperties.
