(* ===== verification/Ice.v ===== *)
(** * Ice: STUN binding requests and responses

    [src/backend/src/ice.rs]: parsing of binding requests, their HMAC, the
    response made of a verified request, and the packets a client creates.
    HMAC-SHA1 and CRC-32 come from third-party crates: they are the operations of
    [HmacSha1] and [Crc32]. *)
From S2P Require Import Prelude Common Bytes Packet.
Import Read Serialize SpliceFacts.

(** [Hmac::<Sha1>] (key, message) *)
Class HmacSha1 := { hmac_sha1 : bytes -> bytes -> bytes }.
Class HmacSha1Laws `{HmacSha1} : Prop := {
  hmac_sha1_length : forall key m, length (hmac_sha1 key m) = 20%nat
}.

(** [CRC32.checksum] *)
Class Crc32 := { checksum : bytes -> Z }.

Module Ice.

Definition HEADER_LEN : nat := 20.
Definition HMAC_LEN : nat := 20.
Definition FINGERPRINT_LEN : nat := 4.
Definition ATTR_HEADER_LEN : nat := 4.
Definition BINDING_REQUEST_ID : bytes := [0; 1].
Definition BINDING_RESPONSE_ID : bytes := [1; 1].
Definition MAGIC_COOKIE : bytes := [33; 18; 164; 66].

Module AttributeId.
Definition USERNAME : Z := 6.
Definition MESSAGE_INTEGRITY : Z := 8.
Definition FINGERPRINT : Z := 32808.
Definition NOMINATION : Z := 37.
End AttributeId.

Definition FINGERPRINT_XOR_VALUE : Z := 1398035790.

Definition range : Type := nat * nat.

Record BindingRequestRanges := mk_ranges {
  username_range : range;
  hmac_range : range;
  fingerprint_range : range
}.

Definition join_username (sender_ufrag receiver_ufrag : bytes) : bytes :=
  receiver_ufrag ++ [58] ++ sender_ufrag.

Record BindingRequest := mk_request {
  packet : bytes;
  is_nominated : bool;
  ranges : BindingRequestRanges
}.

Inductive ParseError :=
| IncompleteHeader (length : nat)
| MissingUsernameAttribute
| MissingHMacAttribute
| MissingFingerprintAttribute
| DeclaredMessageLengthMismatch (declared actual : nat)
| WrongHMacLength (length expected : Z)
| WrongFingerprintLength (length expected : Z)
| FingerprintBeforeHMac
| ExpectedFingerprint (attr_id : Z)
| AttributeAfterFingerprint (attr_id : Z)
| AttributeRangePastPacketEnd (attr_id : Z) (bytes_past : nat).

Definition looks_like_header (packet : bytes) : bool :=
  (8 <=? length packet)%nat && bool_decide (take 2 packet = BINDING_REQUEST_ID)
  && bool_decide (take 4 (drop 4 packet) = MAGIC_COOKIE).

(** The states of the parser, and its local variables. *)
Inductive ParseState := ReadingAttributes | ExpectFingerprint | Done.

Record Parser := mk_parser {
  parse_mode : ParseState;
  username_ : option range;
  hmac_ : option range;
  fingerprint_ : option range;
  nomination_ : option range
}.

#[global] Instance Parser_eta : Settable Parser := fun s =>
  mk_parser (parse_mode s) (username_ s) (hmac_ s) (fingerprint_ s) (nomination_ s).

(** The [match parse_mode] on one attribute. *)
Definition parse_attribute (s : Parser) (attr_id attr_len : Z) (attr_range : range) : Res ParseError Parser :=
  let len := (attr_range.2 - attr_range.1)%nat in
  match parse_mode s with
  | ReadingAttributes =>
      if attr_id =? AttributeId.USERNAME then Ok (s <| username_ := Some attr_range |>)
      else if attr_id =? AttributeId.NOMINATION then Ok (s <| nomination_ := Some attr_range |>)
      else if attr_id =? AttributeId.MESSAGE_INTEGRITY then
        if negb (len =? HMAC_LEN)%nat then Err (WrongHMacLength attr_len (Z.of_nat HMAC_LEN))
        else Ok (s <| hmac_ := Some attr_range |> <| parse_mode := ExpectFingerprint |>)
      else if attr_id =? AttributeId.FINGERPRINT then Err FingerprintBeforeHMac
      else Ok s
  | ExpectFingerprint =>
      if negb (attr_id =? AttributeId.FINGERPRINT) then Err (ExpectedFingerprint attr_id)
      else if negb (len =? FINGERPRINT_LEN)%nat then
        Err (WrongFingerprintLength attr_len (Z.of_nat FINGERPRINT_LEN))
      else Ok (s <| fingerprint_ := Some attr_range |> <| parse_mode := Done |>)
  | Done => Err (AttributeAfterFingerprint attr_id)
  end.

(** The loop over the attributes; each takes at least [ATTR_HEADER_LEN] bytes. *)
Fixpoint parse_attributes (fuel : nat) (packet : bytes) (attr_start : nat) (s : Parser) : Res ParseError Parser :=
  match fuel with
  | O => Panic
  | S fuel =>
      if (length packet <? attr_start + ATTR_HEADER_LEN)%nat then Ok s
      else
        rest ← slice_from attr_start packet;
        attr_header ← slice_to ATTR_HEADER_LEN rest;
        h ← slice 0 2 attr_header; attr_id ← parse_u16 h;
        h ← slice 2 4 attr_header; attr_len ← parse_u16 h;
        let attr_val_start := (attr_start + ATTR_HEADER_LEN)%nat in
        let attr_val_end := (attr_val_start + Z.to_nat attr_len)%nat in
        if (length packet <? attr_val_end)%nat then
          Err (AttributeRangePastPacketEnd attr_id (attr_val_end - length packet))
        else
          s ← parse_attribute s attr_id attr_len (attr_val_start, attr_val_end);
          parse_attributes fuel packet (Math.round_up_to_multiple_of 4 attr_val_end) s
  end.

Definition parse (packet : bytes) : Res ParseError BindingRequest :=
  if (length packet <? HEADER_LEN)%nat then Err (IncompleteHeader (length packet))
  else
    h ← slice 2 4 packet; declared ← parse_u16 h;
    let declared_message_length := Z.to_nat declared in
    let actual_message_length := (length packet - HEADER_LEN)%nat in
    if negb (declared_message_length =? actual_message_length)%nat then
      Err (DeclaredMessageLengthMismatch declared_message_length actual_message_length)
    else
      s ← parse_attributes (S (length packet)) packet HEADER_LEN (mk_parser ReadingAttributes None None None None);
      username ← ok_or MissingUsernameAttribute (username_ s);
      hmac ← ok_or MissingHMacAttribute (hmac_ s);
      fingerprint ← ok_or MissingFingerprintAttribute (fingerprint_ s);
      Ok (mk_request packet (bool_decide (is_Some (nomination_ s))) (mk_ranges username hmac fingerprint)).

Definition nominated (self : BindingRequest) : bool := is_nominated self.
Definition hmac {E} (self : BindingRequest) : Res E bytes :=
  let '(a, b) := hmac_range (ranges self) in slice a b (packet self).
Definition fingerprint {E} (self : BindingRequest) : Res E bytes :=
  let '(a, b) := fingerprint_range (ranges self) in slice a b (packet self).
Definition username {E} (self : BindingRequest) : Res E bytes :=
  let '(a, b) := username_range (ranges self) in slice a b (packet self).
Definition len (self : BindingRequest) : nat := length (packet self).

(** [(n as u16).to_be_bytes()] *)
Definition u16_bytes (n : nat) : bytes := be_bytes 2 (u16 (Z.of_nat n)).

Section Crypto.
Context `{HmacSha1} `{Crc32}.

Definition calculate_hmac {E} (packet : bytes) (ranges : BindingRequestRanges) (pwd : bytes) : Res E bytes :=
  id ← slice 0 2 packet;
  rest ← slice 4 ((hmac_range ranges).1 - ATTR_HEADER_LEN) packet;
  Ok (hmac_sha1 pwd (id ++ u16_bytes ((hmac_range ranges).2 - HEADER_LEN) ++ rest)).

(** A [VerifiedBindingRequest] is the request; [MacError] is [Err ()]. *)
Definition verify_hmac (self : BindingRequest) (pwd : bytes) : Res unit BindingRequest :=
  mac ← calculate_hmac (packet self) (ranges self) pwd;
  given ← hmac self;
  if bool_decide (mac = given) then Ok self else Err ().

Definition recalculate_hmac_and_fingerprint_of_packet {E} (packet : bytes) (ranges : BindingRequestRanges)
    (pwd : bytes) : Res E bytes :=
  hmac ← calculate_hmac packet ranges pwd;
  packet ← copy_from_slice (hmac_range ranges).1 (hmac_range ranges).2 hmac packet;
  covered ← slice_to ((fingerprint_range ranges).1 - ATTR_HEADER_LEN) packet;
  let fingerprint := Z.lxor FINGERPRINT_XOR_VALUE (checksum covered) in
  copy_from_slice (fingerprint_range ranges).1 (fingerprint_range ranges).2 (be_bytes 4 fingerprint) packet.

Definition to_binding_response {E} (self : BindingRequest) (username pwd : bytes) : Res E bytes :=
  packet ← copy_from_slice 0 2 BINDING_RESPONSE_ID (packet self);
  packet ← copy_from_slice (username_range (ranges self)).1 (username_range (ranges self)).2 username packet;
  recalculate_hmac_and_fingerprint_of_packet packet (ranges self) pwd.

(** A writer of an attribute: its number, the length and the padded value. *)
Definition write_stun_attribute {E T} `{Writer T} (attribute_id : Z) (value : T) :
    Res E (U16 * U16 * T * bytes) :=
  let value_len := written_len value in
  let padded_len := Math.round_up_to_multiple_of 4 value_len in
  let padding_len := (padded_len - value_len)%nat in
  if Z.of_nat value_len <? 2 ^ 16 then
    Ok (w16 attribute_id, w16 (Z.of_nat value_len), value, replicate padding_len 0)
  else Panic.

(** [packet[header_len + attr_start + ATTR_HEADER_LEN..][..value.len()].copy_from_slice(value)] *)
Definition write_value_in_attr {E} (packet : bytes) (header_len attr_start : nat) (value : bytes) : Res E bytes :=
  let at_ := (header_len + attr_start + ATTR_HEADER_LEN)%nat in
  copy_from_slice at_ (at_ + length value) value packet.

Definition write_len_in_header {E} (packet : bytes) (len : nat) : Res E bytes :=
  copy_from_slice 2 4 (u16_bytes len) packet.

Definition create_packet {E} (message_type transaction_id username pwd : bytes) (nominated : bool) : Res E bytes :=
  username ← write_stun_attribute AttributeId.USERNAME username;
  nomination ← (if nominated then
                  w ← write_stun_attribute AttributeId.NOMINATION (); Ok (Some w)
                else Ok None);
  let hmaced_attrs := (username, nomination) in
  let hmaced_attrs_len := written_len hmaced_attrs in
  dummy_hmac ← write_stun_attribute AttributeId.MESSAGE_INTEGRITY (replicate HMAC_LEN 0);
  let fingerprinted_attrs := (hmaced_attrs, dummy_hmac) in
  let fingerprinted_attrs_len := written_len fingerprinted_attrs in
  dummy_fingerprint ← write_stun_attribute AttributeId.FINGERPRINT (w32 0);
  let attrs := (fingerprinted_attrs, dummy_fingerprint) in
  let attrs_len := written_len attrs in
  let header := (message_type, w16 (u16 (Z.of_nat attrs_len)), transaction_id) in
  let header_len := written_len header in
  let packet := to_vec (header, attrs) in
  packet ← write_len_in_header packet fingerprinted_attrs_len;
  hmaced ← slice_to (header_len + hmaced_attrs_len) packet;
  packet ← write_value_in_attr packet header_len hmaced_attrs_len (hmac_sha1 pwd hmaced);
  packet ← write_len_in_header packet attrs_len;
  covered ← slice_to (header_len + fingerprinted_attrs_len) packet;
  let fingerprint_value := Z.lxor FINGERPRINT_XOR_VALUE (checksum covered) in
  write_value_in_attr packet header_len fingerprinted_attrs_len (be_bytes 4 fingerprint_value).

Definition create_binding_request_packet {E} (transaction_id username pwd : bytes) (nominated : bool) : Res E bytes :=
  create_packet BINDING_REQUEST_ID transaction_id username pwd nominated.

Definition create_binding_response_packet {E} (transaction_id username pwd : bytes) (nominated : bool) : Res E bytes :=
  create_packet BINDING_RESPONSE_ID transaction_id username pwd nominated.

End Crypto.
End Ice.

(** * Theorems *)

Module IceFacts.
Import Ice.

(** ** Parsing *)

(** Where the parser is: what it remembers lies before [at_], in order. *)
Record parser_ok (packet : bytes) (at_ : nat) (s : Parser) : Prop := {
  po_username : forall r, username_ s = Some r -> (24 <= r.1 <= r.2 /\ r.2 <= at_ /\ r.2 <= length packet)%nat;
  po_hmac : forall r, hmac_ s = Some r -> (24 <= r.1 /\ r.2 = r.1 + 20 /\ r.2 <= at_ /\ r.2 <= length packet)%nat;
  po_fingerprint : forall r, fingerprint_ s = Some r -> (r.2 = r.1 + 4 /\ r.2 <= at_ /\ r.2 <= length packet)%nat;
  po_username_hmac : forall r h, username_ s = Some r -> hmac_ s = Some h -> (r.2 + 4 <= h.1)%nat;
  po_hmac_fingerprint : forall h f, hmac_ s = Some h -> fingerprint_ s = Some f -> (h.2 + 4 <= f.1)%nat;
  po_mode : match parse_mode s with
            | ReadingAttributes => hmac_ s = None /\ fingerprint_ s = None
            | ExpectFingerprint => is_Some (hmac_ s) /\ fingerprint_ s = None
            | Done => is_Some (hmac_ s) /\ is_Some (fingerprint_ s)
            end
}.

(** A range that appears in [s'] and not in [s] lies behind [at_]. *)
Definition same_or_behind (at_ : nat) (o o' : option range) : Prop :=
  o' = o \/ exists r, o' = Some r /\ (at_ + 4 <= r.1)%nat.

Record new_behind (at_ : nat) (s s' : Parser) : Prop := {
  nb_username : same_or_behind at_ (username_ s) (username_ s');
  nb_hmac : same_or_behind at_ (hmac_ s) (hmac_ s');
  nb_fingerprint : same_or_behind at_ (fingerprint_ s) (fingerprint_ s')
}.

Ltac ranges := intros; simplify_eq/=; repeat match goal with
  | H : forall r, Some ?x = Some r -> _ |- _ => specialize (H x eq_refl)
  | H : forall r h, Some ?x = Some r -> Some ?y = Some h -> _ |- _ => specialize (H x y eq_refl eq_refl)
  end; simplify_eq/=; try lia.

Lemma parse_attribute_ok packet at_ s id len v s' : parser_ok packet at_ s -> (20 <= at_)%nat ->
  (at_ + 4 + v <= length packet)%nat ->
  parse_attribute s id len (at_ + 4, at_ + 4 + v)%nat = Ok s' ->
  parser_ok packet (at_ + 4 + v) s' /\ new_behind at_ s s'.
Proof.
  destruct s as [mode u h f n]. intros [H1 H2 H3 H4 H5 H6] Hat Hv. cbn in *.
  assert (forall o, same_or_behind at_ o o) as Hsame by (by left).
  assert (forall o, same_or_behind at_ o (Some (at_ + 4, at_ + 4 + v)%nat)) as Hnew
    by (intros; right; eexists; split; [reflexivity|cbn; lia]).
  unfold parse_attribute, HMAC_LEN, FINGERPRINT_LEN. cbn [parse_mode fst snd].
  destruct mode; repeat case_if; intros [= <-]; boolsplit; (split; [|by split]);
    destruct H6 as [H6 H6']; split; cbn; try (destruct u, h, f; ranges; done).
Qed.

Lemma parser_later packet at_ at' s : parser_ok packet at_ s -> (at_ <= at')%nat -> parser_ok packet at' s.
Proof.
  intros [H1 H2 H3 H4 H5 H6] Hle. split; try done; intros r Hr;
    [specialize (H1 r Hr)|specialize (H2 r Hr)|specialize (H3 r Hr)]; lia.
Qed.

Lemma parse_attribute_no_panic s id len r : parse_attribute s id len r <> Panic.
Proof. unfold parse_attribute. destruct (parse_mode s); repeat case_if; done. Qed.

Lemma behind_trans at_ at' o o' o'' : (at_ <= at')%nat -> same_or_behind at_ o o' -> same_or_behind at' o' o'' ->
  same_or_behind at_ o o''.
Proof.
  intros Hle H [->|(r & -> & Hr)]; [done|]. right. exists r. split; [done|lia].
Qed.

(** The header of the attribute at [at_]. *)
Definition attr_id_at (packet : bytes) (at_ : nat) : Z := be_val (take 2 (drop at_ packet)).
Definition attr_len_at (packet : bytes) (at_ : nat) : Z := be_val (take 2 (drop (at_ + 2) packet)).

Lemma parse_attributes_step fuel packet at_ s : (at_ + 4 <= length packet)%nat ->
  parse_attributes (S fuel) packet at_ s =
    let end_ := (at_ + 4 + Z.to_nat (attr_len_at packet at_))%nat in
    if (length packet <? end_)%nat then
      Err (AttributeRangePastPacketEnd (attr_id_at packet at_) (end_ - length packet))
    else
      s ← parse_attribute s (attr_id_at packet at_) (attr_len_at packet at_) (at_ + 4, end_)%nat;
      parse_attributes fuel packet (Math.round_up_to_multiple_of 4 end_) s.
Proof.
  intros Hlen. cbn [parse_attributes]. unfold ATTR_HEADER_LEN.
  destruct (Nat.ltb_spec (length packet) (at_ + 4)); [lia|].
  unfold slice_from. rewrite (proj2 (Nat.leb_le at_ _)) by lia. rewrite mbind_Ok.
  unfold slice_to. rewrite length_drop, (proj2 (Nat.leb_le 4 _)) by lia. rewrite mbind_Ok.
  assert (length (take 4 (drop at_ packet)) = 4%nat) as Hl by (rewrite length_take, length_drop; lia).
  unfold parse_u16. rewrite (ReadFacts.slice_parse_be _ 0 2 2), (ReadFacts.slice_parse_be _ 2 4 2) by (rewrite ?Hl; lia).
  rewrite drop_0, take_take, skipn_firstn_comm, take_take, drop_drop. reflexivity.
Qed.

Lemma parse_attributes_ok fuel packet at_ s : parser_ok packet at_ s -> (20 <= at_)%nat ->
  (0 < fuel)%nat -> (length packet < fuel + at_)%nat ->
  match parse_attributes fuel packet at_ s with
  | Ok s' => (exists at', parser_ok packet at' s') /\ new_behind at_ s s'
  | Err _ => True
  | Panic => False
  end.
Proof.
  revert at_ s. induction fuel as [|fuel IH]; intros at_ s Hs Hat H0 Hf; [lia|].
  destruct (Nat.ltb_spec (length packet) (at_ + 4)) as [Hend|Hin].
  { cbn [parse_attributes]. unfold ATTR_HEADER_LEN. rewrite (proj2 (Nat.ltb_lt _ _)) by lia.
    split; [by eexists|]. split; by left. }
  rewrite parse_attributes_step by done. cbn zeta.
  set (v := Z.to_nat (attr_len_at packet at_)). destruct (Nat.ltb_spec (length packet) (at_ + 4 + v)); [done|].
  destruct (parse_attribute _ _ _ _) as [s1| |] eqn:E; [|done|by apply parse_attribute_no_panic in E].
  rewrite mbind_Ok. apply (parse_attribute_ok packet) in E as [Hok Hnew]; [|done..].
  pose proof (MathFacts.round_up_spec 4 (at_ + 4 + v) ltac:(lia)) as [Hr _].
  specialize (IH (Math.round_up_to_multiple_of 4 (at_ + 4 + v)) s1 (parser_later _ _ _ _ Hok (proj1 Hr))
    ltac:(lia) ltac:(lia) ltac:(lia)).
  destruct (parse_attributes fuel packet _ s1) as [s'| |]; [|done..].
  destruct IH as [Hex [B1 B2 B3]]. destruct Hnew as [A1 A2 A3]. split; [done|].
  split; (eapply behind_trans; [|done..]); lia.
Qed.

(** ** What the parser reads *)

(** The values the parser found, which it did not look into. *)
Definition in_values (s : Parser) (i : nat) : Prop :=
  exists r, (username_ s = Some r \/ hmac_ s = Some r \/ fingerprint_ s = Some r) /\ (r.1 <= i < r.2)%nat.

Lemma header_at_ext packet packet' at_ : (forall i, (at_ <= i < at_ + 4)%nat -> packet' !! i = packet !! i) ->
  attr_id_at packet' at_ = attr_id_at packet at_ /\ attr_len_at packet' at_ = attr_len_at packet at_.
Proof.
  intros H. unfold attr_id_at, attr_len_at. split; f_equal; apply list_eq; intros i.
  all: destruct (Nat.lt_ge_cases i 2); [rewrite !lookup_take_lt, !lookup_drop by done; apply H; lia|
    by rewrite !lookup_take_ge by done].
Qed.

Lemma not_in_values packet at_ s s' i : parser_ok packet at_ s -> new_behind at_ s s' ->
  (at_ <= i < at_ + 4)%nat -> ~ in_values s' i.
Proof.
  intros [H1 H2 H3 _ _ _] [B1 B2 B3] Hi (r & Hr & Hin).
  destruct Hr as [Hr|[Hr|Hr]];
    [destruct B1 as [B|(r' & B & Hb)]|destruct B2 as [B|(r' & B & Hb)]|destruct B3 as [B|(r' & B & Hb)]];
    rewrite B in Hr; try (simplify_eq; lia); [specialize (H1 r Hr)|specialize (H2 r Hr)|specialize (H3 r Hr)]; lia.
Qed.

(** Other values give the same parse. *)
Lemma parse_attributes_ext fuel packet packet' at_ s s' : parser_ok packet at_ s -> (20 <= at_)%nat ->
  (0 < fuel)%nat -> (length packet < fuel + at_)%nat ->
  length packet' = length packet ->
  (forall i, (20 <= i)%nat -> ~ in_values s' i -> packet' !! i = packet !! i) ->
  parse_attributes fuel packet at_ s = Ok s' -> parse_attributes fuel packet' at_ s = Ok s'.
Proof.
  intros Hs Hat H0 Hf Hl Hext. revert at_ s Hs Hat H0 Hf.
  induction fuel as [|fuel IH]; intros at_ s Hs Hat H0 Hf; [lia|].
  destruct (Nat.ltb_spec (length packet) (at_ + 4)) as [Hend|Hin].
  { cbn [parse_attributes]. unfold ATTR_HEADER_LEN. by rewrite Hl, (proj2 (Nat.ltb_lt _ _)) by lia. }
  intros E. pose proof (parse_attributes_ok (S fuel) packet at_ s Hs Hat H0 Hf) as Hall. rewrite E in Hall.
  destruct Hall as [_ Hb].
  destruct (header_at_ext packet packet' at_) as [Ei El].
  { intros i Hi. apply Hext; [lia|]. by eapply not_in_values. }
  rewrite parse_attributes_step in E |- * by lia. cbn zeta in E |- *. rewrite Ei, El, Hl.
  set (v := Z.to_nat (attr_len_at packet at_)) in *. destruct (Nat.ltb_spec (length packet) (at_ + 4 + v)); [done|].
  destruct (parse_attribute _ _ _ _) as [s1| |] eqn:E1; [|done..]. rewrite mbind_Ok in E |- *.
  apply (parse_attribute_ok packet) in E1 as [Hok _]; [|done..].
  pose proof (MathFacts.round_up_spec 4 (at_ + 4 + v) ltac:(lia)) as [Hr _].
  apply IH; [exact (parser_later _ _ _ _ Hok (proj1 Hr))|lia|lia|lia|exact E].
Qed.

(** ** Parsed requests *)

(** The parts a request consists of, in order and inside the packet. *)
Record ranges_ok (n : nat) (r : BindingRequestRanges) : Prop := {
  ro_username : (24 <= (username_range r).1 <= (username_range r).2)%nat;
  ro_hmac : ((username_range r).2 + 4 <= (hmac_range r).1)%nat;
  ro_hmac_len : (hmac_range r).2 = ((hmac_range r).1 + HMAC_LEN)%nat;
  ro_fingerprint : ((hmac_range r).2 + 4 <= (fingerprint_range r).1)%nat;
  ro_fingerprint_len : (fingerprint_range r).2 = ((fingerprint_range r).1 + FINGERPRINT_LEN)%nat;
  ro_end : ((fingerprint_range r).2 <= n)%nat
}.

Definition initial : Parser := mk_parser ReadingAttributes None None None None.

Lemma initial_ok packet : parser_ok packet 20 initial.
Proof. by split. Qed.

(** What [parse] accepts. *)
Record parsed (p : bytes) (s : Parser) (req : BindingRequest) : Prop := {
  pa_length : (20 <= length p)%nat;
  pa_declared : Z.to_nat (be_val (sub 2 2 p)) = (length p - 20)%nat;
  pa_loop : parse_attributes (S (length p)) p 20 initial = Ok s;
  pa_username : username_ s = Some (username_range (ranges req));
  pa_hmac : hmac_ s = Some (hmac_range (ranges req));
  pa_fingerprint : fingerprint_ s = Some (fingerprint_range (ranges req));
  pa_nominated : is_nominated req = bool_decide (is_Some (nomination_ s));
  pa_packet : packet req = p
}.

Lemma parse_eq p : (20 <= length p)%nat -> parse p =
  if negb (Z.to_nat (be_val (sub 2 2 p)) =? length p - 20)%nat then
    Err (DeclaredMessageLengthMismatch (Z.to_nat (be_val (sub 2 2 p))) (length p - 20))
  else
    s ← parse_attributes (S (length p)) p 20 initial;
    username ← ok_or MissingUsernameAttribute (username_ s);
    hmac ← ok_or MissingHMacAttribute (hmac_ s);
    fingerprint ← ok_or MissingFingerprintAttribute (fingerprint_ s);
    Ok (mk_request p (bool_decide (is_Some (nomination_ s))) (mk_ranges username hmac fingerprint)).
Proof.
  intros H. unfold parse, HEADER_LEN. rewrite (proj2 (Nat.ltb_ge _ _)) by done.
  unfold parse_u16. rewrite (ReadFacts.slice_parse_be _ 2 4 2) by lia. done.
Qed.

Lemma parse_parsed p req : parse p = Ok req <-> exists s, parsed p s req.
Proof.
  split.
  - destruct (Nat.lt_ge_cases (length p) 20) as [Hs|Hl].
    { unfold parse, HEADER_LEN. by rewrite (proj2 (Nat.ltb_lt _ _)). }
    rewrite parse_eq by done. destruct (Nat.eqb_spec (Z.to_nat (be_val (sub 2 2 p))) (length p - 20)); cbn [negb]; [|done].
    destruct (parse_attributes _ _ _ _) as [s| |] eqn:E; [|done..]. rewrite mbind_Ok.
    destruct (username_ s) eqn:Eu; [|done]. destruct (hmac_ s) eqn:Eh; [|done].
    destruct (fingerprint_ s) eqn:Ef; [|done]. intros [= <-]. exists s. by split.
  - intros [s [H1 H2 H3 H4 H5 H6 H7 H8]]. rewrite parse_eq, H2, Nat.eqb_refl, H3, mbind_Ok, H4, H5, H6 by done.
    cbn [negb ok_or]. rewrite !mbind_Ok, <- H7. destruct req as [q n [u h f]]. cbn in *. by subst.
Qed.

Lemma parsed_ranges p s req : parsed p s req -> ranges_ok (length p) (ranges req).
Proof.
  intros []. pose proof (parse_attributes_ok (S (length p)) p 20 initial (initial_ok p) ltac:(lia) ltac:(lia) ltac:(lia)) as H.
  rewrite pa_loop0 in H. destruct H as [[at' [H1 H2 H3 H4 H5 _]] _]. unfold HMAC_LEN, FINGERPRINT_LEN.
  specialize (H1 _ pa_username0). specialize (H2 _ pa_hmac0). specialize (H3 _ pa_fingerprint0).
  specialize (H4 _ _ pa_username0 pa_hmac0). specialize (H5 _ _ pa_hmac0 pa_fingerprint0). split; unfold HMAC_LEN, FINGERPRINT_LEN; lia.
Qed.

Lemma parse_no_panic p : parse p <> Panic.
Proof.
  destruct (Nat.lt_ge_cases (length p) 20) as [Hs|Hl].
  { unfold parse, HEADER_LEN. by rewrite (proj2 (Nat.ltb_lt _ _)). }
  rewrite parse_eq by done. case_if; [done|].
  pose proof (parse_attributes_ok (S (length p)) p 20 initial (initial_ok p) ltac:(lia) ltac:(lia) ltac:(lia)) as H.
  destruct (parse_attributes _ _ _ _) as [s| |]; [|done..]. rewrite mbind_Ok.
  by destruct (username_ s), (hmac_ s), (fingerprint_ s).
Qed.

(** A packet that differs only in its type and in the values parses alike. *)
Lemma parsed_ext p p' s req : parsed p s req -> length p' = length p ->
  (forall i, (2 <= i)%nat -> ~ in_values s i -> p' !! i = p !! i) ->
  parsed p' s (mk_request p' (is_nominated req) (ranges req)).
Proof.
  intros Hp Hl Hext. pose proof (parsed_ranges _ _ _ Hp) as Hr. destruct Hp. split; cbn [ranges is_nominated packet]; try done.
  - lia.
  - rewrite Hl, <- pa_declared0. do 2 f_equal. apply list_eq. intros i. rewrite !lookup_sub. case_if; [|done]. boolsplit.
    apply Hext; [lia|]. intros (r & Hin & Hi). destruct Hr.
    destruct Hin as [Hin|[Hin|Hin]]; rewrite Hin in *; simplify_eq; lia.
  - rewrite Hl. apply (parse_attributes_ext _ p); [apply initial_ok|lia|lia|lia|done| |exact pa_loop0]. intros i Hi. apply Hext. lia.
Qed.

(** ** Responses *)

Section Crypto.
Context `{HmacSha1Laws} `{Crc32}.

Lemma copy_splice {E} a b (src l : bytes) : (a <= b <= length l)%nat -> length src = (b - a)%nat ->
  copy_from_slice (E := E) a b src l = Ok (splice a src l).
Proof. intros Hab Hs. rewrite copy_from_slice_ok by done. unfold splice. do 4 f_equal. lia. Qed.

(** The MAC of a packet with these ranges. *)
Definition mac_of (p : bytes) (r : BindingRequestRanges) (pwd : bytes) : bytes :=
  hmac_sha1 pwd (sub 0 2 p ++ u16_bytes ((hmac_range r).2 - HEADER_LEN) ++ sub 4 ((hmac_range r).1 - 8) p).

Lemma calculate_hmac_eq {E} p r pwd : ranges_ok (length p) r -> calculate_hmac (E := E) p r pwd = Ok (mac_of p r pwd).
Proof.
  intros []. unfold calculate_hmac, ATTR_HEADER_LEN, mac_of, HMAC_LEN, FINGERPRINT_LEN in *.
  rewrite !slice_no_panic, !mbind_Ok by lia. unfold sub. rewrite drop_0.
  by replace ((hmac_range r).1 - 4 - 4)%nat with ((hmac_range r).1 - 8)%nat by lia.
Qed.

Lemma verify_hmac_eq p s req pwd : parsed p s req ->
  verify_hmac req pwd = if bool_decide (mac_of p (ranges req) pwd = sub (hmac_range (ranges req)).1 20 p)
                        then Ok req else Err ().
Proof.
  intros Hp. pose proof (parsed_ranges _ _ _ Hp) as Hr. destruct Hp. unfold verify_hmac, hmac.
  rewrite pa_packet0, calculate_hmac_eq, mbind_Ok by done. destruct (hmac_range (ranges req)) as [a b] eqn:Eh.
  destruct Hr. rewrite Eh in *. unfold HMAC_LEN, FINGERPRINT_LEN in *. cbn [fst snd] in *.
  rewrite slice_no_panic, mbind_Ok by lia. unfold sub. by replace (b - a)%nat with 20%nat by lia.
Qed.

(** The packet [to_binding_response] makes. *)
Definition response (p : bytes) (r : BindingRequestRanges) (name pwd : bytes) : bytes :=
  let p2 := splice (username_range r).1 name (splice 0 BINDING_RESPONSE_ID p) in
  let p3 := splice (hmac_range r).1 (mac_of p2 r pwd) p2 in
  splice (fingerprint_range r).1
    (be_bytes 4 (Z.lxor FINGERPRINT_XOR_VALUE (checksum (take ((fingerprint_range r).1 - 4) p3)))) p3.

Lemma mac_length p r pwd : length (mac_of p r pwd) = 20%nat.
Proof. apply hmac_sha1_length. Qed.

Lemma to_binding_response_eq {E} p s req name pwd : parsed p s req ->
  length name = ((username_range (ranges req)).2 - (username_range (ranges req)).1)%nat ->
  to_binding_response (E := E) req name pwd = Ok (response p (ranges req) name pwd).
Proof.
  intros Hp Hn. pose proof (parsed_ranges _ _ _ Hp) as Hr. destruct Hp. unfold to_binding_response, response.
  rewrite pa_packet0. pose proof Hr as Hr'. destruct Hr'. unfold HMAC_LEN, FINGERPRINT_LEN in *. set (r := ranges req) in *.
  rewrite (copy_splice 0 2), mbind_Ok by (done || lia). set (p1 := splice 0 _ p).
  assert (length p1 = length p) as L1 by (apply length_splice; cbn; lia).
  rewrite (copy_splice (username_range r).1), mbind_Ok by (done || lia). set (p2 := splice _ name p1).
  assert (length p2 = length p) as L2 by (unfold p2; rewrite length_splice; lia).
  unfold recalculate_hmac_and_fingerprint_of_packet. rewrite calculate_hmac_eq, mbind_Ok by (by rewrite L2).
  rewrite (copy_splice (hmac_range r).1), mbind_Ok by (rewrite ?mac_length; lia). set (p3 := splice _ _ p2).
  assert (length p3 = length p) as L3 by (unfold p3; rewrite length_splice; rewrite ?mac_length; lia).
  rewrite slice_to_ok, mbind_Ok by lia. rewrite copy_splice by (rewrite ?length_be_bytes; lia). done.
Qed.

(** What the response says. *)
Lemma response_parsed p s req name pwd : parsed p s req ->
  length name = ((username_range (ranges req)).2 - (username_range (ranges req)).1)%nat ->
  let q := response p (ranges req) name pwd in
  parsed q s (mk_request q (is_nominated req) (ranges req)) /\
  sub 0 2 q = BINDING_RESPONSE_ID /\ sub 4 16 q = sub 4 16 p /\
  sub (username_range (ranges req)).1 (length name) q = name /\
  mac_of q (ranges req) pwd = sub (hmac_range (ranges req)).1 20 q /\ length q = length p.
Proof.
  intros Hp Hn q. pose proof (parsed_ranges _ _ _ Hp) as Hr. set (r := ranges req) in *. destruct Hr.
  unfold HMAC_LEN, FINGERPRINT_LEN in *. unfold q, response. clear q.
  set (p1 := splice 0 _ p). assert (length p1 = length p) as L1 by (apply length_splice; cbn; lia).
  set (p2 := splice _ name p1). assert (length p2 = length p) as L2 by (unfold p2; rewrite length_splice; lia).
  set (mac := mac_of p2 r pwd). assert (length mac = 20%nat) as Lm by apply mac_length.
  set (p3 := splice _ mac p2). assert (length p3 = length p) as L3 by (unfold p3; rewrite length_splice; lia).
  set (f := be_bytes 4 _). assert (length f = 4%nat) as Lf by apply length_be_bytes.
  set (q := splice _ f p3). assert (length q = length p) as Lq by (unfold q; rewrite length_splice; lia).
  assert (forall c n, (c + n <= (hmac_range r).1)%nat -> sub c n q = sub c n p2) as Hq2.
  { intros c n Hc. unfold q. rewrite sub_splice_ne by lia. unfold p3. by rewrite sub_splice_ne by lia. }
  assert (forall c n, (c + n <= (username_range r).1)%nat -> sub c n p2 = sub c n p1) as Hp1.
  { intros c n Hc. unfold p2. by rewrite sub_splice_ne by lia. }
  assert (length BINDING_RESPONSE_ID = 2%nat) as Lb by done.
  split_and!.
  - apply (parsed_ext p); [done..|]. intros i Hi Hnot.
    assert (forall a b : nat, (username_ s = Some (a, b) \/ hmac_ s = Some (a, b) \/ fingerprint_ s = Some (a, b)) ->
      (i < a \/ b <= i)%nat) as Hout.
    { intros a b Hr. destruct (Nat.lt_ge_cases i a); [by left|]. destruct (Nat.le_gt_cases b i); [by right|].
      destruct Hnot. by exists (a, b). }
    destruct Hp. fold r in pa_username0, pa_hmac0, pa_fingerprint0.
    pose proof (Hout (username_range r).1 (username_range r).2) as O1. rewrite <- surjective_pairing in O1.
    pose proof (Hout (hmac_range r).1 (hmac_range r).2) as O2. rewrite <- surjective_pairing in O2.
    pose proof (Hout (fingerprint_range r).1 (fingerprint_range r).2) as O3. rewrite <- surjective_pairing in O3.
    specialize (O1 (or_introl pa_username0)). specialize (O2 (or_intror (or_introl pa_hmac0))).
    specialize (O3 (or_intror (or_intror pa_fingerprint0))).
    unfold q. rewrite lookup_splice_ne by lia. unfold p3. rewrite lookup_splice_ne by lia.
    unfold p2. rewrite lookup_splice_ne by lia. unfold p1. by rewrite lookup_splice_ne by lia.
  - rewrite Hq2, Hp1 by lia. unfold p1. by rewrite sub_splice_eq by (cbn; lia).
  - rewrite Hq2, Hp1 by lia. unfold p1. by rewrite sub_splice_ne by lia.
  - rewrite Hq2 by lia. unfold p2. by rewrite sub_splice_eq by lia.
  - unfold mac_of. rewrite !Hq2 by lia. fold (mac_of p2 r pwd) mac.
    unfold q. rewrite sub_splice_ne by lia. unfold p3. by rewrite sub_splice_eq by lia.
  - exact Lq.
Qed.

(** ** Created packets *)

(** An attribute on the wire. *)
Definition attr (id : Z) (v : bytes) : bytes :=
  be_bytes 2 id ++ be_bytes 2 (Z.of_nat (length v)) ++ v ++
  replicate (Math.round_up_to_multiple_of 4 (length v) - length v) 0.

Lemma splice_at pre new old post : length new = length old ->
  splice (length pre) new (pre ++ old ++ post) = pre ++ new ++ post.
Proof.
  intros Hl. unfold splice. rewrite take_app_length' by done. do 2 f_equal.
  rewrite <- drop_drop, drop_app_length. by rewrite Hl, drop_app_length.
Qed.

Import SerializeFacts.

(** A written attribute. *)
Lemma write_attr {E T} `{WriterLaws T} id (v : T) : Z.of_nat (written_len v) < 2 ^ 16 ->
  exists w, write_stun_attribute (E := E) id v = Ok w /\ to_vec w = attr id (to_vec v) /\
    written_len w = length (attr id (to_vec v)).
Proof.
  intros Hl. unfold write_stun_attribute. rewrite (proj2 (Z.ltb_lt _ _)) by done. set (w := (_, _)). exists w.
  assert (to_vec w = attr id (to_vec v)) as Hw.
  { unfold w, attr. by rewrite !to_vec_pair, written_len_ok, <- !app_assoc. }
  split; [done|]. split; [done|]. by rewrite <- Hw, written_len_ok.
Qed.

Definition header (message_type tid : bytes) (n : nat) : bytes := message_type ++ u16_bytes n ++ tid.

Definition body1 (name : bytes) (nominated : bool) : bytes :=
  attr AttributeId.USERNAME name ++ (if nominated then attr AttributeId.NOMINATION [] else []).

(** The packet [create_packet] makes. *)
Definition created (message_type tid name pwd : bytes) (nominated : bool) : bytes :=
  let b1 := body1 name nominated in
  let mac := hmac_sha1 pwd (header message_type tid (length b1 + 24) ++ b1) in
  let b2 := b1 ++ attr AttributeId.MESSAGE_INTEGRITY mac in
  let h := header message_type tid (length b1 + 32) in
  h ++ b2 ++ attr AttributeId.FINGERPRINT (be_bytes 4 (Z.lxor FINGERPRINT_XOR_VALUE (checksum (h ++ b2)))).

Lemma attr_length id v : length (attr id v) = (4 + Math.round_up_to_multiple_of 4 (length v))%nat.
Proof.
  unfold attr. rewrite !length_app, !length_be_bytes, length_replicate.
  pose proof (MathFacts.round_up_spec 4 (length v) ltac:(lia)). lia.
Qed.

Lemma header_length ty tid n : length ty = 2%nat -> length tid = 16%nat -> length (header ty tid n) = 20%nat.
Proof. intros Hty Htid. unfold header. by rewrite !length_app, Hty, Htid. Qed.

Lemma write_len_ok {E} ty tid n m b : length ty = 2%nat -> length tid = 16%nat ->
  write_len_in_header (E := E) (header ty tid n ++ b) m = Ok (header ty tid m ++ b).
Proof.
  intros Hty Htid. unfold write_len_in_header. rewrite copy_splice;
    [|rewrite length_app, header_length by done; lia|done]. f_equal. unfold header. rewrite <- !app_assoc.
  rewrite <- Hty. by apply splice_at.
Qed.

Lemma write_value_ok {E} h b id v v' post m n : length v = length v' -> m = length h -> n = length b ->
  write_value_in_attr (E := E) (h ++ b ++ attr id v ++ post) m n v' = Ok (h ++ b ++ attr id v' ++ post).
Proof.
  intros Hl -> ->. unfold write_value_in_attr, ATTR_HEADER_LEN. rewrite copy_splice;
    [|rewrite !length_app, attr_length; pose proof (MathFacts.round_up_spec 4 (length v) ltac:(lia)); lia|lia].
  f_equal. unfold attr. rewrite Hl, <- !app_assoc.
  set (h1 := be_bytes 2 id). set (h2 := be_bytes 2 _). set (z := replicate _ _).
  assert (length h1 = 2%nat /\ length h2 = 2%nat) as [L1 L2] by (split; apply length_be_bytes).
  replace (length h + length b + 4)%nat with (length (h ++ b ++ h1 ++ h2)) by (rewrite !length_app, L1, L2; lia).
  pose proof (splice_at (h ++ b ++ h1 ++ h2) v' v (z ++ post) (eq_sym Hl)) as Hs. rewrite <- !app_assoc in Hs. exact Hs.
Qed.

Lemma create_packet_eq {E} ty tid name pwd nominated : length ty = 2%nat -> length tid = 16%nat ->
  Z.of_nat (length name) < 2 ^ 16 ->
  create_packet (E := E) ty tid name pwd nominated = Ok (created ty tid name pwd nominated).
Proof.
  intros Hty Htid Hn. unfold create_packet.
  destruct (write_attr (E := E) AttributeId.USERNAME name ltac:(exact Hn)) as (w1 & -> & V1 & L1). rewrite mbind_Ok.
  change (to_vec name) with ([] ++ name) in V1, L1. cbn [app] in V1, L1.
  assert (exists w2 : option (U16 * U16 * unit * bytes),
    (if nominated then w ← write_stun_attribute AttributeId.NOMINATION (); Ok (Some w) else Ok None) = (Ok w2 : Res E _) /\
    to_vec w2 = (if nominated then attr AttributeId.NOMINATION [] else [])) as (w2 & -> & V2)
    by (destruct nominated; (eexists; split; [reflexivity|]); reflexivity).
  rewrite mbind_Ok.
  destruct (write_attr (E := E) AttributeId.MESSAGE_INTEGRITY (replicate HMAC_LEN 0)) as (w3 & -> & V3 & _); [reflexivity|].
  rewrite mbind_Ok. change (to_vec (replicate HMAC_LEN 0)) with (replicate HMAC_LEN 0) in V3.
  destruct (write_attr (E := E) AttributeId.FINGERPRINT (w32 0)) as (w4 & -> & V4 & _); [reflexivity|].
  rewrite mbind_Ok. change (to_vec (w32 0)) with (be_bytes 4 0) in V4.
  assert (to_vec (w1, w2) = body1 name nominated) as Vb by (by rewrite to_vec_pair, V1, V2).
  assert (to_vec (w1, w2, w3) = body1 name nominated ++ attr AttributeId.MESSAGE_INTEGRITY (replicate HMAC_LEN 0)) as Vf
    by (by rewrite to_vec_pair, Vb, V3).
  assert (to_vec (w1, w2, w3, w4) = body1 name nominated ++ attr AttributeId.MESSAGE_INTEGRITY (replicate HMAC_LEN 0) ++
    attr AttributeId.FINGERPRINT (be_bytes 4 0)) as Va by (by rewrite to_vec_pair, Vf, V4, <- app_assoc).
  rewrite <- (written_len_ok (w1, w2)), <- (written_len_ok (w1, w2, w3)), <- (written_len_ok (w1, w2, w3, w4)).
  set (w := (w1, w2, w3, w4)) in *. rewrite Vb, Vf, Va. cbn zeta.
  set (b1 := body1 name nominated). set (n := length (b1 ++ _ ++ _)). set (k := u16 (Z.of_nat n)).
  assert (to_vec (ty, w16 k, tid, w) = header ty tid n ++ b1 ++ attr AttributeId.MESSAGE_INTEGRITY (replicate HMAC_LEN 0) ++
    attr AttributeId.FINGERPRINT (be_bytes 4 0)) as ->
    by (rewrite !to_vec_pair, Va; unfold header; by rewrite <- !app_assoc).
  assert (written_len (ty, w16 k, tid) = 20%nat) as -> by (rewrite <- (written_len_ok (ty, w16 k, tid)), !to_vec_pair;
    rewrite !length_app; rewrite (written_len_ok ty), (written_len_ok tid), (written_len_ok (w16 k)); cbn; lia).
  assert (n = (length b1 + 32)%nat) as En by (unfold n; rewrite !length_app, !attr_length; reflexivity).
  assert (length (b1 ++ attr AttributeId.MESSAGE_INTEGRITY (replicate HMAC_LEN 0)) = (length b1 + 24)%nat) as Em
    by (rewrite length_app, attr_length; reflexivity).
  rewrite Em. clearbody n. subst n. clear w k V1 L1 V2 V3 V4 Vb Vf Va Em.
  rewrite write_len_ok, mbind_Ok by done.
  assert (forall m, length (header ty tid m) = 20%nat) as Lh by (intros; by apply header_length).
  rewrite slice_to_ok, mbind_Ok by (rewrite !length_app, Lh; lia).
  rewrite (app_assoc (header _ _ _) b1), take_app_length' by (rewrite length_app, Lh; lia).
  rewrite <- (app_assoc (header _ _ _) b1). set (mac := hmac_sha1 pwd _).
  assert (length mac = 20%nat) as Lm by apply hmac_sha1_length.
  rewrite write_value_ok, mbind_Ok by (by rewrite ?Lm, ?Lh).
  rewrite write_len_ok, mbind_Ok by done.
  assert (length (b1 ++ attr AttributeId.MESSAGE_INTEGRITY mac) = (length b1 + 24)%nat) as Lf
    by (rewrite length_app, attr_length, Lm; reflexivity).
  rewrite (app_assoc b1), slice_to_ok, mbind_Ok by (rewrite length_app, Lh, length_app, Lf; lia).
  rewrite (app_assoc (header _ _ _)), take_app_length' by (rewrite length_app, Lh, Lf; lia).
  rewrite <- (app_assoc (header _ _ _)). set (f := be_bytes 4 (Z.lxor _ _)).
  pose proof (write_value_ok (E := E) (header ty tid (length b1 + 32)) (b1 ++ attr AttributeId.MESSAGE_INTEGRITY mac)
    AttributeId.FINGERPRINT (be_bytes 4 0) f [] 20 (length b1 + 24) eq_refl ltac:(by rewrite Lh) ltac:(by rewrite Lf)) as Hv.
  rewrite !app_nil_r in Hv.
  exact Hv.
Qed.

(** The parser steps over a written attribute. *)
Lemma parse_attr fuel pre id v post s : (length pre mod 4 = 0)%nat -> uint 16 id -> Z.of_nat (length v) < 2 ^ 16 ->
  parse_attributes (S fuel) (pre ++ attr id v ++ post) (length pre) s =
    s ← parse_attribute s id (Z.of_nat (length v)) (length pre + 4, length pre + 4 + length v)%nat;
    parse_attributes fuel ((pre ++ attr id v) ++ post) (length (pre ++ attr id v)) s.
Proof.
  intros Hpre Hid Hv. pose proof (MathFacts.round_up_spec 4 (length v) ltac:(lia)) as [Hr Hr4].
  rewrite parse_attributes_step by (rewrite !length_app, attr_length; lia). cbn zeta.
  assert (attr_id_at (pre ++ attr id v ++ post) (length pre) = id) as ->.
  { unfold attr_id_at. rewrite drop_app_length. unfold attr. rewrite <- !app_assoc.
    rewrite take_app_length' by (by rewrite length_be_bytes). rewrite be_val_be_bytes. by apply wrap_small. }
  assert (attr_len_at (pre ++ attr id v ++ post) (length pre) = Z.of_nat (length v)) as ->.
  { unfold attr_len_at. rewrite <- drop_drop, drop_app_length. unfold attr. rewrite <- !app_assoc.
    rewrite drop_app_length' by (by rewrite length_be_bytes).
    rewrite take_app_length' by (by rewrite length_be_bytes). rewrite be_val_be_bytes. apply wrap_small.
    unfold uint. change (8 * Z.of_nat 2) with 16. lia. }
  rewrite Nat2Z.id, (proj2 (Nat.ltb_ge _ _)) by (rewrite !length_app, attr_length; lia).
  rewrite <- app_assoc, length_app, attr_length.
  assert (Math.round_up_to_multiple_of 4 (length pre + 4 + length v) =
    length pre + (4 + Math.round_up_to_multiple_of 4 (length v)))%nat as ->; [|done].
  unfold Math.round_up_to_multiple_of. apply Nat.Div0.div_exact in Hpre. rewrite Hpre.
  replace (4 * (length pre / 4) + 4 + length v + (4 - 1))%nat
    with (length v + (4 - 1) + (length pre / 4 + 1) * 4)%nat by lia.
  rewrite Nat.div_add by lia. lia.
Qed.

Lemma parse_end fuel p s : parse_attributes (S fuel) p (length p) s = Ok s.
Proof. cbn [parse_attributes]. unfold ATTR_HEADER_LEN. by rewrite (proj2 (Nat.ltb_lt _ _)) by lia. Qed.

Lemma attr_aligned pre id v : (length pre mod 4 = 0)%nat -> (length (pre ++ attr id v) mod 4 = 0)%nat.
Proof.
  intros H4. rewrite length_app, attr_length. pose proof (MathFacts.round_up_spec 4 (length v) ltac:(lia)) as [_ Hr].
  rewrite Nat.Div0.add_mod, H4, (Nat.Div0.add_mod 4), Hr. done.
Qed.

Definition created_request (ty tid name pwd : bytes) (nominated : bool) : BindingRequest :=
  let n := length (body1 name nominated) in
  mk_request (created ty tid name pwd nominated) nominated
    (mk_ranges (24, 24 + length name) (24 + n, 44 + n) (48 + n, 52 + n))%nat.

Lemma body1_length name nominated :
  (4 + length name <= length (body1 name nominated) < length name + 12)%nat.
Proof.
  pose proof (MathFacts.round_up_spec 4 (length name) ltac:(lia)) as [Hr _].
  unfold body1. rewrite length_app, attr_length.
  destruct nominated; [change (length (attr AttributeId.NOMINATION [])) with 4%nat|change (length (A := Z) []) with 0%nat]; lia.
Qed.

(** The parser on a list of written attributes. *)
Definition attrs (l : list (Z * bytes)) : bytes := concat (map (fun x => attr x.1 x.2) l).

Fixpoint run_attrs (at_ : nat) (l : list (Z * bytes)) (s : Parser) : Res ParseError Parser :=
  match l with
  | [] => Ok s
  | (id, v) :: l =>
      s ← parse_attribute s id (Z.of_nat (length v)) (at_ + 4, at_ + 4 + length v)%nat;
      run_attrs (at_ + (4 + Math.round_up_to_multiple_of 4 (length v))) l s
  end.

Lemma parse_attrs fuel pre l s : (length l < fuel)%nat -> (length pre mod 4 = 0)%nat ->
  Forall (fun x => uint 16 x.1 /\ Z.of_nat (length x.2) < 2 ^ 16) l ->
  parse_attributes fuel (pre ++ attrs l) (length pre) s = run_attrs (length pre) l s.
Proof.
  intros Hf H4 Hl. revert fuel pre s Hf H4. induction Hl as [|[id v] l [Hid Hv] _ IH]; intros fuel pre s Hf H4;
    (destruct fuel as [|fuel]; [cbn in Hf; lia|]).
  - unfold attrs. cbn [map concat run_attrs]. rewrite app_nil_r. apply parse_end.
  - change (attrs ((id, v) :: l)) with (attr id v ++ attrs l). cbn [run_attrs fst snd] in *.
    rewrite parse_attr by done. destruct (parse_attribute _ _ _ _) as [s1| |]; [|done..]. rewrite !mbind_Ok.
    rewrite IH; [|cbn in Hf; lia|by apply attr_aligned]. by rewrite length_app, attr_length.
Qed.

Definition created_attrs (name : bytes) (nominated : bool) (mac f : bytes) : list (Z * bytes) :=
  (AttributeId.USERNAME, name) :: (if nominated then [(AttributeId.NOMINATION, [])] else []) ++
  [(AttributeId.MESSAGE_INTEGRITY, mac); (AttributeId.FINGERPRINT, f)].

Lemma created_attrs_eq name nominated mac f :
  (body1 name nominated ++ attr AttributeId.MESSAGE_INTEGRITY mac) ++ attr AttributeId.FINGERPRINT f =
  attrs (created_attrs name nominated mac f).
Proof.
  unfold attrs, created_attrs, body1. destruct nominated; cbn [map concat app]; rewrite ?app_nil_r, <- ?app_assoc; done.
Qed.

Lemma parse_hmac u f n len a : parse_attribute (mk_parser ReadingAttributes u None f n) AttributeId.MESSAGE_INTEGRITY len
  (a, a + 20)%nat = Ok (mk_parser ExpectFingerprint u (Some (a, a + 20)%nat) f n).
Proof.
  unfold parse_attribute, HMAC_LEN. cbn [parse_mode fst snd]. replace (a + 20 - a)%nat with 20%nat by lia. done.
Qed.

Lemma parse_fingerprint u h n len a : parse_attribute (mk_parser ExpectFingerprint u h None n) AttributeId.FINGERPRINT len
  (a, a + 4)%nat = Ok (mk_parser Done u h (Some (a, a + 4)%nat) n).
Proof.
  unfold parse_attribute, FINGERPRINT_LEN. cbn [parse_mode fst snd]. replace (a + 4 - a)%nat with 4%nat by lia. done.
Qed.

(** The attributes of a created packet, one by one. *)
Lemma created_loop name nominated mac f : length mac = 20%nat -> length f = 4%nat ->
  let n := length (body1 name nominated) in
  exists o, run_attrs 20 (created_attrs name nominated mac f) initial =
    Ok (mk_parser Done (Some (24, 24 + length name)%nat) (Some (24 + n, 44 + n)%nat) (Some (48 + n, 52 + n)%nat) o) /\
    bool_decide (is_Some o) = nominated.
Proof.
  intros Lm Lf. cbn zeta. unfold body1. rewrite length_app, attr_length.
  set (k := Math.round_up_to_multiple_of 4 (length name)).
  set (o := if nominated then Some (20 + (4 + k) + 4, 20 + (4 + k) + 4 + length (A := Z) [])%nat else None).
  exists o. split; [|unfold o; by destruct nominated].
  set (at_ := (20 + (4 + k) + length (if nominated then attr AttributeId.NOMINATION [] else []))%nat).
  assert (run_attrs 20 (created_attrs name nominated mac f) initial =
    run_attrs at_ [(AttributeId.MESSAGE_INTEGRITY, mac); (AttributeId.FINGERPRINT, f)]
      (mk_parser ReadingAttributes (Some (24, 24 + length name)%nat) None None o)) as ->.
  { unfold created_attrs, at_, o. destruct nominated; [|rewrite Nat.add_0_r]; reflexivity. }
  cbn [run_attrs]. rewrite Lm, Lf, parse_hmac, mbind_Ok, parse_fingerprint, mbind_Ok.
  change (Math.round_up_to_multiple_of 4 20) with 20%nat. unfold at_.
  f_equal; f_equal; apply (f_equal Some), (f_equal2 pair); lia.
Qed.

Lemma created_parses ty tid name pwd nominated : length ty = 2%nat -> length tid = 16%nat ->
  Z.of_nat (length name) <= 65000 ->
  exists s, parsed (created ty tid name pwd nominated) s (created_request ty tid name pwd nominated) /\
    mac_of (created ty tid name pwd nominated) (ranges (created_request ty tid name pwd nominated)) pwd =
    sub (24 + length (body1 name nominated)) 20 (created ty tid name pwd nominated) /\
    sub 24 (length name) (created ty tid name pwd nominated) = name.
Proof.
  intros Hty Htid Hn. unfold created_request. set (p := created ty tid name pwd nominated). cbn [ranges].
  unfold created in p. pose proof (body1_length name nominated) as Hb1. cbn zeta in p.
  set (h := header ty tid (_ + 32)) in *. set (mac := hmac_sha1 pwd _) in *.
  assert (length mac = 20%nat) as Lm by apply hmac_sha1_length.
  set (f := be_bytes 4 _) in *. assert (length f = 4%nat) as Lf by apply length_be_bytes.
  assert (length h = 20%nat) as Lh by (by apply header_length).
  destruct (created_loop name nominated mac f Lm Lf) as (o & Hloop & Ho).
  set (b1 := body1 name nominated) in *. set (n := length b1) in *.
  assert (length (attr AttributeId.MESSAGE_INTEGRITY mac) = 24%nat) as La by (by rewrite attr_length, Lm).
  assert (length p = n + 52)%nat as Lp by (unfold p; rewrite !length_app, Lh, La, attr_length, Lf; fold n; cbn; lia).
  assert (sub 2 2 p = be_bytes 2 (Z.of_nat (n + 32))) as Hlen.
  { unfold p, h, header, sub. rewrite <- !app_assoc, drop_app_length' by done.
    rewrite take_app_length' by done. unfold u16_bytes. f_equal. apply wrap_small. unfold uint. lia. }
  eexists. split; [|split].
  - split; cbn [ranges packet is_nominated username_range hmac_range fingerprint_range].
    + lia.
    + rewrite Hlen, be_val_be_bytes, wrap_small by (unfold uint; change (8 * Z.of_nat 2) with 16; lia). lia.
    + unfold p at 2. unfold b1. rewrite created_attrs_eq. rewrite <- Lh at 1. rewrite parse_attrs; [by rewrite Lh| | |].
      * unfold created_attrs. cbn [length]. rewrite length_app. destruct nominated; cbn [length]; lia.
      * by rewrite Lh.
      * unfold created_attrs. constructor; [split; [done|cbn; lia]|]. apply Forall_app. split.
        { destruct nominated; [|done]. by repeat constructor. }
        { repeat constructor; cbn [fst snd]; rewrite ?Lm, ?Lf; done. }
    + done.
    + done.
    + done.
    + exact (eq_sym Ho).
    + done.
  - unfold mac_of. cbn [hmac_range fst snd].
    assert (sub 0 2 p = ty) as E1 by (unfold p, h, header, sub; rewrite <- !app_assoc; by rewrite drop_0, take_app_length').
    assert (sub 4 (24 + n - 8) p = tid ++ b1) as E2.
    { unfold p, h, header, sub. rewrite <- !app_assoc. change 4%nat with (2 + 2)%nat. rewrite <- drop_drop.
      rewrite drop_app_length', drop_app_length' by done.
      rewrite (app_assoc tid), take_app_length' by (rewrite length_app, Htid; fold n; lia). done. }
    rewrite E1, E2. unfold HEADER_LEN. replace (44 + n - 20)%nat with (n + 24)%nat by lia.
    assert (ty ++ u16_bytes (n + 24) ++ tid ++ b1 = header ty tid (n + 24) ++ b1) as ->
      by (unfold header; by rewrite <- !app_assoc).
    fold mac. unfold p, sub. unfold attr at 1. rewrite <- !app_assoc.
    rewrite (app_assoc h), (app_assoc (h ++ b1)), (app_assoc ((h ++ b1) ++ _)).
    rewrite drop_app_length' by (rewrite !length_app, Lh, !length_be_bytes; fold n; lia).
    by rewrite take_app_length' by (by rewrite Lm).
  - unfold p, sub, b1, body1. unfold attr at 1. rewrite <- !app_assoc.
    rewrite (app_assoc h), (app_assoc (h ++ _)).
    rewrite drop_app_length' by (rewrite !length_app, Lh, !length_be_bytes; lia). by rewrite take_app_length.
Qed.

(** Requests that were accepted can be read, *)
Lemma parse_safe p :
  parse p <> Panic /\
  forall req, parse p = Ok req ->
    ranges_ok (length p) (ranges req) /\ packet req = p /\
    (exists name, username (E := unit) req = Ok name) /\
    (exists mac, hmac (E := unit) req = Ok mac /\ length mac = HMAC_LEN) /\
    (exists f, fingerprint (E := unit) req = Ok f /\ length f = FINGERPRINT_LEN) /\
    (forall pwd, verify_hmac req pwd <> Panic).
Proof.
  split; [apply parse_no_panic|]. intros req [s Hs]%parse_parsed.
  pose proof (parsed_ranges _ _ _ Hs) as Hr. split; [done|]. split; [apply Hs|].
  pose proof (fun pwd => verify_hmac_eq _ _ _ pwd Hs) as Hv.
  unfold username, hmac, fingerprint, HMAC_LEN, FINGERPRINT_LEN. rewrite (pa_packet _ _ _ Hs).
  clear Hs. destruct Hr, (ranges req) as [[a b] [a' b'] [c d]]. cbn [username_range hmac_range fingerprint_range fst snd] in *.
  unfold HMAC_LEN, FINGERPRINT_LEN in *. rewrite !slice_no_panic by lia. split_and!.
  - by eexists.
  - eexists. split; [done|]. rewrite length_take, length_drop. lia.
  - eexists. split; [done|]. rewrite length_take, length_drop. lia.
  - intros pwd. rewrite Hv. by case_bool_decide.
Qed.

(** and answered. *)
Lemma response_verifies p req name pwd : parse p = Ok req ->
  let asked := ((username_range (ranges req)).2 - (username_range (ranges req)).1)%nat in
  (length name = asked -> exists q req', to_binding_response (E := unit) req name pwd = Ok q /\
    parse q = Ok req' /\ username (E := unit) req' = Ok name /\ nominated req' = nominated req /\
    verify_hmac req' pwd = Ok req' /\ take 2 q = BINDING_RESPONSE_ID /\
    take 16 (drop 4 q) = take 16 (drop 4 p) /\ length q = length p) /\
  (length name <> asked -> to_binding_response (E := unit) req name pwd = Panic).
Proof.
  intros [s Hs]%parse_parsed asked. split.
  - intros Hn. destruct (response_parsed _ _ _ name pwd Hs Hn) as (Hq & Hid & Htid & Hname & Hmac & Hlen).
    set (q := response p (ranges req) name pwd) in *. eexists q, _.
    split; [by eapply to_binding_response_eq|]. split; [apply parse_parsed; by exists s|].
    pose proof (parsed_ranges _ _ _ Hq) as Hr. cbn [ranges] in Hr. split; [|split; [done|split; [|split; [|split]]]].
    + unfold username. cbn [ranges packet]. destruct Hr. destruct (username_range (ranges req)) as [a b]. unfold asked in Hn.
      cbn [fst snd] in *. unfold HMAC_LEN, FINGERPRINT_LEN in *.
      rewrite slice_no_panic by lia. f_equal. etrans; [|exact Hname]. unfold sub. by rewrite Hn.
    + rewrite (verify_hmac_eq _ _ _ _ Hq). cbn [ranges]. by rewrite Hmac, bool_decide_true.
    + etrans; [|exact Hid]. unfold sub. by rewrite drop_0.
    + exact Htid.
    + exact Hlen.
  - intros Hn. pose proof (parsed_ranges _ _ _ Hs) as Hr. destruct Hr. unfold HMAC_LEN, FINGERPRINT_LEN in *.
    unfold to_binding_response. rewrite (pa_packet _ _ _ Hs).
    rewrite (copy_splice 0 2), mbind_Ok by (done || lia). unfold copy_from_slice at 1.
    assert ((length name =? (username_range (ranges req)).2 - (username_range (ranges req)).1)%nat = false) as ->
      by (by apply Nat.eqb_neq). by rewrite andb_false_r.
Qed.

End Crypto.
End IceFacts.

Module IceProperties.
Import Ice IceFacts.

Section Properties.
Context `{HmacSha1Laws} `{Crc32}.

(** No datagram makes the parser panic; what it accepts has a username, an HMAC
    of 20 bytes and a fingerprint of 4, in this order and inside the packet, so
    that none of the accessors panics. *)
Theorem binding_request_parse_safe p :
  parse p <> Panic /\
  forall req, parse p = Ok req ->
    ranges_ok (length p) (ranges req) /\ packet req = p /\
    (exists name, username (E := unit) req = Ok name) /\
    (exists mac, hmac (E := unit) req = Ok mac /\ length mac = HMAC_LEN) /\
    (exists f, fingerprint (E := unit) req = Ok f /\ length f = FINGERPRINT_LEN) /\
    (forall pwd, verify_hmac req pwd <> Panic).
Proof. apply parse_safe. Qed.

(** The request a client creates is accepted: it parses, says what the client
    put in it and carries the right HMAC. *)
Theorem created_request_verifies tid name pwd nominate :
  length tid = 16%nat -> Z.of_nat (length name) <= 65000 ->
  exists p req, create_binding_request_packet (E := unit) tid name pwd nominate = Ok p /\
    parse p = Ok req /\ username (E := unit) req = Ok name /\ nominated req = nominate /\
    verify_hmac req pwd = Ok req /\
    (take 4 tid = MAGIC_COOKIE -> looks_like_header p = true).
Proof.
  intros Htid Hn. destruct (created_parses BINDING_REQUEST_ID tid name pwd nominate eq_refl Htid Hn) as (s & Hs & Hmac & Hname).
  exists (created BINDING_REQUEST_ID tid name pwd nominate), (created_request BINDING_REQUEST_ID tid name pwd nominate).
  split; [unfold create_binding_request_packet; apply create_packet_eq; [done|done|lia]|].
  split; [apply parse_parsed; by exists s|]. pose proof (parsed_ranges _ _ _ Hs) as Hr.
  assert (24 + length name <= length (created BINDING_REQUEST_ID tid name pwd nominate))%nat as Hin
    by (destruct Hr; cbn in *; unfold HMAC_LEN, FINGERPRINT_LEN in *; lia).
  split; [|split; [done|split]].
  - unfold username, created_request. cbn [ranges username_range packet]. rewrite slice_no_panic by lia.
    f_equal. etrans; [|exact Hname]. unfold sub. f_equal. lia.
  - rewrite (verify_hmac_eq _ _ _ _ Hs), Hmac. by rewrite bool_decide_true.
  - intros Hc. unfold looks_like_header, created, header, u16_bytes. rewrite <- !app_assoc.
    set (rest := body1 name nominate ++ _). rewrite (proj2 (Nat.leb_le _ _)).
    2: { rewrite !length_app, length_be_bytes, Htid. cbn. lia. }
    set (l := be_bytes 2 _). assert (length l = 2%nat) as Ll by apply length_be_bytes. clearbody l rest.
    apply andb_true_intro. split; [apply andb_true_intro; split; [done|]|]; apply bool_decide_eq_true_2.
    + by apply take_app_length'.
    + rewrite (app_assoc BINDING_REQUEST_ID), drop_app_length' by (by rewrite length_app, Ll).
      by rewrite take_app_le by lia.
Qed.

(** The response to a request parses with the same nomination and transaction,
    the new username and an HMAC under the new password; a username of another
    length than the request's makes the server panic. *)
Theorem binding_response_verifies p req name pwd : parse p = Ok req ->
  let asked := ((username_range (ranges req)).2 - (username_range (ranges req)).1)%nat in
  (length name = asked -> exists q req', to_binding_response (E := unit) req name pwd = Ok q /\
    parse q = Ok req' /\ username (E := unit) req' = Ok name /\ nominated req' = nominated req /\
    verify_hmac req' pwd = Ok req' /\ take 2 q = BINDING_RESPONSE_ID /\
    take 16 (drop 4 q) = take 16 (drop 4 p) /\ length q = length p) /\
  (length name <> asked -> to_binding_response (E := unit) req name pwd = Panic).
Proof. apply response_verifies. Qed.

End Properties.

(** A stand-in for the HMAC and the checksum. *)
#[local] Instance toy_hmac : HmacSha1 := { hmac_sha1 key m := take 20 (key ++ m ++ replicate 20 0) }.
#[local] Instance toy_hmac_laws : HmacSha1Laws.
Proof. split. intros key m. unfold hmac_sha1, toy_hmac. rewrite length_take, !length_app, length_replicate. lia. Qed.
#[local] Instance toy_crc : Crc32 := { checksum m := u32 (fold_right Z.add 0 m) }.

Definition tid : bytes := MAGIC_COOKIE ++ replicate 12 7.
Definition request : bytes :=
  match create_binding_request_packet (E := unit) tid [97; 58; 98] [112] true with Ok p => p | _ => [] end.

Lemma binding_request_parse_safe_witness : exists req, parse request = Ok req /\ ranges_ok (length request) (ranges req).
Proof.
  assert (exists req, parse request = Ok req) as [req E] by (eexists; vm_compute; reflexivity).
  exists req. split; [exact E|]. exact (proj1 (proj2 (binding_request_parse_safe request) req E)).
Defined.

Lemma created_request_verifies_witness : exists p req,
  create_binding_request_packet (E := unit) tid [97; 58; 98] [112] true = Ok p /\ parse p = Ok req /\
  verify_hmac req [112] = Ok req /\ looks_like_header p = true.
Proof.
  destruct (created_request_verifies tid [97; 58; 98] [112] true ltac:(reflexivity) ltac:(vm_compute; discriminate))
    as (p & req & E1 & E2 & _ & _ & E3 & E4).
  exists p, req. split; [exact E1|]. split; [exact E2|]. split; [exact E3|]. apply E4. reflexivity.
Defined.

Lemma binding_response_verifies_witness : exists req q req', parse request = Ok req /\
  to_binding_response (E := unit) req [98; 58; 97] [113] = Ok q /\ parse q = Ok req' /\
  username (E := unit) req' = Ok [98; 58; 97].
Proof.
  assert (exists req, parse request = Ok req /\
    length [98; 58; 97] = ((username_range (ranges req)).2 - (username_range (ranges req)).1)%nat) as (req & E & Hl)
    by (eexists; split; vm_compute; reflexivity).
  destruct (proj1 (binding_response_verifies request req [98; 58; 97] [113] E) Hl) as (q & req' & E1 & E2 & E3 & _).
  exists req, q, req'. split; [exact E|]. split; [exact E1|]. split; [exact E2|]. exact E3.
Defined.

End IceProperties.
