(* ===== verification/Googcc.v ===== *)
(** * Googcc: congestion control

    [src/backend/src/googcc.rs] and [googcc/]: a stream combinator of the code is
    here a state machine that takes one item of its input and may yield one of
    its output; [latest_only] runs a machine over everything that is ready.
    [f64::powf] has no fixed result: it is the operation of the class [Powf]. *)
From Stdlib Require Import Floats.SpecFloat.
From S2P Require Import Prelude Float FloatBounds Common Collections TransportCc.

Class Powf := { powf : F64.t -> F64.t -> F64.t }.

Notation "#[ n ]" := (F64.of_Z n) (at level 0, n at level 200).

(** ** time_delta.rs: a time difference in seconds *)
Module TimeDelta.

Definition t : Type := F64.t.
Definition from_secs (secs : F64.t) : t := secs.
Definition from_millis (millis : F64.t) : t := F64.div millis #[1000].
Definition add (a b : t) : t := F64.add a b.
Definition sub (a b : t) : t := F64.sub a b.
Definition sub_duration (a : t) (d : Z) : t := F64.sub a (Duration.as_secs_f64 d).
Definition mul (a : t) (x : F64.t) : t := F64.mul a x.

(** [Instant::time_delta_since], also of [RemoteInstant] *)
Definition time_delta_since (self other : Z) : t :=
  if other <? self then Duration.as_secs_f64 (self - other)
  else F64.opp (Duration.as_secs_f64 (other - self)).

End TimeDelta.

(** ** math.rs *)
(** [exponential_moving_average] of data rates and of time differences *)
Definition exponential_moving_average_rate (average : Z) (alpha : F64.t) (update : Z) : Z :=
  DataRate.rate_add (DataRate.mul_f64 update alpha) (DataRate.mul_f64 average (F64.sub F64.one alpha)).
Definition exponential_moving_average_delta (average : TimeDelta.t) (alpha : F64.t) (update : TimeDelta.t) : TimeDelta.t :=
  TimeDelta.add (TimeDelta.mul update alpha) (TimeDelta.mul average (F64.sub F64.one alpha)).
Definition square (x : F64.t) : F64.t := F64.mul x x.

(** ** stream.rs *)
Module Stream.

(** Runs a machine over the items that are ready: what it yields, its state. *)
Fixpoint run {S I O} (step : S -> I -> option O * S) (s : S) (l : list I) : list O * S :=
  match l with
  | [] => ([], s)
  | i :: l =>
      let '(o, s) := step s i in
      let '(os, s) := run step s l in
      (option_list o ++ os, s)
  end.

(** [latest_only]: the last item, [None] when there is none yet. *)
Definition latest_only {O} (l : list O) : option O := last l.

End Stream.

(** ** feedback_rtts.rs *)
Module FeedbackRtts.

Definition FEEDBACK_RTTS_HISTORY_LEN : nat := 32.

Definition state : Type := RingBuffer.t Z.
Definition init : state := RingBuffer.new FEEDBACK_RTTS_HISTORY_LEN.

Definition max_duration (l : list Z) : option Z :=
  match l with
  | [] => None
  | d :: l => Some (fold_left Z.max l d)
  end.

Definition step (history : state) (acks : list Ack) : option Z * state :=
  match max_duration (map (fun ack => Duration.saturating_duration_since (feedback_arrival ack) (departure ack)) acks) with
  | Some max_feedback_rtt =>
      let history := (RingBuffer.push history max_feedback_rtt).1 in
      (Some (fold_left Z.add (RingBuffer.values history) 0 / Z.of_nat (RingBuffer.len history)), history)
  | None => (None, history)
  end.

End FeedbackRtts.

(** ** ack_rates.rs *)
Module AckedSizes.

Definition initial_ack_group_duration : Z := Duration.from_millis 500.
Definition subsequent_ack_group_duration : Z := Duration.from_millis 150.

Record group := mk {
  ack1 : Ack;
  accumulated_size : Z;
  accumulated_duration : Z;
  target_ack_group_duration : Z
}.
Definition state : Type := option group.
Definition init : state := None.

(** Yields (size, duration). *)
Definition step (s : state) (ack2 : Ack) : option (Z * Z) * state :=
  match s with
  | None => (None, Some (mk ack2 (size ack2) 0 initial_ack_group_duration))
  | Some (mk ack1 accumulated_size accumulated_duration target) =>
      let '(out, accumulated_size, accumulated_duration, target) :=
        if arrival ack2 <? arrival ack1 then (None, 0, 0, target)
        else
          let arrival_delta := saturating_sub (arrival ack2) (arrival ack1) in
          let accumulated_duration := accumulated_duration + arrival_delta in
          if target <? arrival_delta then
            (None, 0,
             Duration.from_micros (u64 (Duration.as_micros accumulated_duration) mod u64 (Duration.as_micros target)),
             target)
          else if target <=? accumulated_duration then
            (Some (accumulated_size, target), 0, saturating_sub accumulated_duration target,
             subsequent_ack_group_duration)
          else (None, accumulated_size, accumulated_duration, target) in
      (out, Some (mk ack2 (DataRate.size_add accumulated_size (size ack2)) accumulated_duration target))
  end.

End AckedSizes.

Module AckedRates.

(** (estimate, variance) *)
Definition state : Type := option (Z * F64.t).
Definition init : state := None.

Definition step (s : state) (group : Z * Z) : option Z * state :=
  let sample := DataRate.size_div_duration group.1 group.2 in
  match s with
  | None => (Some sample, Some (sample, #[50]))
  | Some (estimate, variance) =>
      let sample_variance :=
        square (F64.mul (DataRate.rate_div_rate (DataRate.rate_abs_diff sample estimate) estimate) #[10]) in
      let pred_variance := F64.add variance #[5] in
      let estimate :=
        DataRate.div_f64
          (DataRate.rate_add (DataRate.mul_f64 estimate sample_variance) (DataRate.mul_f64 sample pred_variance))
          (F64.add sample_variance pred_variance) in
      let variance := F64.div (F64.mul sample_variance pred_variance) (F64.add sample_variance pred_variance) in
      (Some estimate, Some (estimate, variance))
  end.

End AckedRates.

(** ** delay_directions.rs *)
Inductive DelayDirection := Increasing | Decreasing | Steady.
#[global] Instance DelayDirection_eq_dec : EqDecision DelayDirection.
Proof. solve_decision. Defined.

Record AckGroupSummary := summary {
  latest_departure : Z;
  latest_arrival : Z;
  latest_feedback_arrival : Z
}.

Module AckGroups.

Definition add (self : AckGroupSummary) (ack : Ack) : AckGroupSummary :=
  summary (Z.max (latest_departure self) (departure ack)) (Z.max (latest_arrival self) (arrival ack))
    (Z.max (latest_feedback_arrival self) (feedback_arrival ack)).

Definition from (ack : Ack) : AckGroupSummary :=
  summary (departure ack) (arrival ack) (feedback_arrival ack).

Definition ack_group_min_duration : TimeDelta.t := TimeDelta.from_millis #[5].
Definition ack_group_max_duration : TimeDelta.t := TimeDelta.from_millis #[100].

(** The first acknowledgement of the group that is open, and the group. *)
Definition state : Type := option (Ack * AckGroupSummary).
Definition init : state := None.

(** Whether an acknowledgement that did not depart before the group joins it. *)
Definition combines (first : Ack) (group : AckGroupSummary) (next : Ack) : bool :=
  let departed_at_same_time := departure next =? latest_departure group in
  let departure_gap := TimeDelta.time_delta_since (departure next) (latest_departure group) in
  let arrival_gap := TimeDelta.time_delta_since (arrival next) (latest_arrival group) in
  let departure_duration_would_be_small :=
    F64.le (TimeDelta.time_delta_since (departure next) (departure first)) ack_group_min_duration in
  let arrival_gap_is_small := F64.lt arrival_gap departure_gap && F64.le arrival_gap ack_group_min_duration in
  let arrival_duration_wouldnt_be_big :=
    F64.lt (TimeDelta.time_delta_since (arrival next) (arrival first)) ack_group_max_duration in
  departed_at_same_time || departure_duration_would_be_small
  || (arrival_gap_is_small && arrival_duration_wouldnt_be_big).

(** Yields (group_summary, next_after_group). *)
Definition step (s : state) (next : Ack) : option (AckGroupSummary * Ack) * state :=
  match s with
  | None => (None, Some (next, from next))
  | Some (first, group) =>
      if departure first <=? departure next then
        if combines first group next then (None, Some (first, add group next))
        else (Some (group, next), Some (next, from next))
      else (None, s)
  end.

End AckGroups.

Module AckDeltas.

Definition MAX_ARRIVAL_CHANGE : Z := Duration.from_secs 3.
Definition MAX_CONSECUTIVE_REORDERINGS : Z := 3.

(** The last good group and [consecutive_reorderings]. *)
Definition state : Type := option (AckGroupSummary * Z).
Definition init : state := None.

(** Yields (latest_ack, departure_delta, arrival_delta). *)
Definition step (s : state) (item : AckGroupSummary * Ack) : option (Ack * Z * TimeDelta.t) * state :=
  match s with
  | None => (None, Some (item.1, 0))
  | Some (group1, consecutive_reorderings) =>
      let '(group2, latest_ack) := item in
      if latest_departure group1 <? latest_departure group2 then
        let departure_delta :=
          Duration.saturating_duration_since (latest_departure group2) (latest_departure group1) in
        let arrival_delta := TimeDelta.time_delta_since (latest_arrival group2) (latest_arrival group1) in
        let feedback_delta :=
          Duration.saturating_duration_since (latest_feedback_arrival group2) (latest_feedback_arrival group1) in
        if latest_arrival group2 <? latest_arrival group1 then
          let consecutive_reorderings := u16 (consecutive_reorderings + 1) in
          if MAX_CONSECUTIVE_REORDERINGS <=? consecutive_reorderings then (None, None)
          else (None, Some (group1, consecutive_reorderings))
        else if F64.le (Duration.as_secs_f64 (feedback_delta + MAX_ARRIVAL_CHANGE)) arrival_delta then (None, None)
        else (Some (latest_ack, departure_delta, arrival_delta), Some (group2, 0))
      else (None, s)
  end.

End AckDeltas.

Definition f64_sum (l : list F64.t) : F64.t := fold_left F64.add l (S754_zero false).

Definition mean (values : list F64.t) : option F64.t :=
  match values with
  | [] => None
  | _ => Some (F64.div (f64_sum values) #[Z.of_nat (length values)])
  end.

Definition linear_regression (xys : list (F64.t * F64.t)) : option F64.t :=
  match mean xys.*1, mean xys.*2 with
  | Some x_avg, Some y_avg =>
      let x_diffs := map (fun x_i => F64.sub x_i x_avg) xys.*1 in
      let y_diffs := map (fun y_i => F64.sub y_i y_avg) xys.*2 in
      let numerator := f64_sum (zip_with F64.mul x_diffs y_diffs) in
      let denominator := f64_sum (map (fun x_diff => F64.mul x_diff x_diff) x_diffs) in
      if SFeqb denominator (S754_zero false) then None else Some (F64.div numerator denominator)
  | _, _ => None
  end.

Module DelaySlopes.

Definition history_len : nat := 20.
Definition moving_average_alpha : F64.t := F64.lit 9 10.
Definition max_sample_count : Z := 1000.

Record slopes := mk {
  first_ack : Ack;
  sample_count : Z;
  accumulated_delay : TimeDelta.t;
  smoothed_delay : TimeDelta.t;
  history : RingBuffer.t (F64.t * F64.t)
}.
Definition state : Type := option slopes.
Definition init : state := None.

(** Yields (now, delay_slope, duration, sample_count). *)
Definition step (s : state) (item : Ack * Z * TimeDelta.t) : option (Z * F64.t * Z * Z) * state :=
  let '(latest_ack, departure_delta, arrival_delta) := item in
  match s with
  | None =>
      let accumulated_delay := TimeDelta.sub_duration arrival_delta departure_delta in
      let history := (RingBuffer.push (RingBuffer.new history_len) (S754_zero false, accumulated_delay)).1 in
      (Some (feedback_arrival latest_ack, S754_zero false, departure_delta, 1),
       Some (mk latest_ack 1 accumulated_delay accumulated_delay history))
  | Some (mk first_ack sample_count accumulated_delay smoothed_delay history) =>
      let sample_count := if sample_count <? max_sample_count then sample_count + 1 else sample_count in
      let relative_arrival := TimeDelta.time_delta_since (arrival latest_ack) (arrival first_ack) in
      let accumulated_delay :=
        TimeDelta.add accumulated_delay (TimeDelta.sub_duration arrival_delta departure_delta) in
      let smoothed_delay := exponential_moving_average_delta smoothed_delay moving_average_alpha accumulated_delay in
      let history := (RingBuffer.push history (relative_arrival, smoothed_delay)).1 in
      let out :=
        if RingBuffer.is_full history then
          match linear_regression (RingBuffer.values history) with
          | Some delay_slope => Some (feedback_arrival latest_ack, delay_slope, departure_delta, sample_count)
          | None => None
          end
        else None in
      (out, Some (mk first_ack sample_count accumulated_delay smoothed_delay history))
  end.

End DelaySlopes.

Module DelayDirections.

Definition INITIAL_DELAY_SLOPE_THRESHOLD : F64.t := F64.lit 52 1000.
Definition MIN_DELAY_SLOPE_THRESHOLD : F64.t := F64.lit 25 1000.
Definition MAX_DELAY_SLOPE_THRESHOLD : F64.t := F64.lit 25 10.
Definition SLOPE_THRESHOLD_ADAPTATION_MAX_DIFFERENCE : F64.t := F64.lit 625 10000.
Definition sample_count_for_slope_shrinking : Z := 60.
Definition increasing_duration_threshold : Z := Duration.from_millis 10.
Definition slope_threshold_adaptation_max_duration : Z := Duration.from_millis 100.
Definition slope_threshold_adapt_up_diff_part_per_second : F64.t := F64.lit 87 10.
Definition slope_threshold_adapt_down_diff_part_per_second : F64.t := #[39].

Record directions := mk {
  prev_delay_slope : F64.t;
  direction : DelayDirection;
  increasing_count : Z;
  increasing_duration : option Z;
  slope_threshold : F64.t;
  slope_threshold_updated : Z
}.
Definition state : Type := option directions.
Definition init : state := None.

(** The new direction, with [increasing_count] and [increasing_duration]. *)
Definition turn (s : directions) (delay_slope shrunk_delay_slope : F64.t) (departure_delta : Z) :
    DelayDirection * Z * option Z :=
  if F64.lt (slope_threshold s) shrunk_delay_slope then
    let increasing_count := u64 (increasing_count s + 1) in
    let increasing_duration :=
      match increasing_duration s with
      | Some previous_increasing_duration => previous_increasing_duration + departure_delta
      | None => departure_delta / 2
      end in
    if (1 <? increasing_count) && (increasing_duration_threshold <? increasing_duration)
       && F64.le (prev_delay_slope s) delay_slope
    then (Increasing, 0, Some 0)
    else (direction s, increasing_count, Some increasing_duration)
  else if F64.lt shrunk_delay_slope (F64.opp (slope_threshold s)) then (Decreasing, 0, None)
  else (Steady, 0, None).

(** The threshold follows the slope. *)
Definition adapt (s : directions) (shrunk_delay_slope : F64.t) (now : Z) : F64.t :=
  let slope_threshold_diff := F64.sub (F64.abs shrunk_delay_slope) (slope_threshold s) in
  if F64.lt slope_threshold_diff SLOPE_THRESHOLD_ADAPTATION_MAX_DIFFERENCE then
    let adaption_duration :=
      Z.min slope_threshold_adaptation_max_duration
        (Duration.saturating_duration_since now (slope_threshold_updated s)) in
    let adaptation_diff_part_per_second :=
      if F64.lt (S754_zero false) slope_threshold_diff then slope_threshold_adapt_up_diff_part_per_second
      else slope_threshold_adapt_down_diff_part_per_second in
    let adaptation :=
      F64.mul (F64.mul adaptation_diff_part_per_second slope_threshold_diff) (Duration.as_secs_f64 adaption_duration) in
    F64.clamp (F64.add (slope_threshold s) adaptation) MIN_DELAY_SLOPE_THRESHOLD MAX_DELAY_SLOPE_THRESHOLD
  else slope_threshold s.

(** Yields (now, direction). *)
Definition step (s : state) (item : Z * F64.t * Z * Z) : option (Z * DelayDirection) * state :=
  let '(now, delay_slope, departure_delta, sample_count) := item in
  match s with
  | None =>
      (Some (now, Steady), Some (mk delay_slope Steady 0 None INITIAL_DELAY_SLOPE_THRESHOLD now))
  | Some s =>
      let shrunk_delay_slope :=
        F64.div (F64.mul delay_slope #[Z.min sample_count_for_slope_shrinking sample_count])
                #[sample_count_for_slope_shrinking] in
      let '(direction, increasing_count, increasing_duration) :=
        turn s delay_slope shrunk_delay_slope departure_delta in
      (Some (now, direction),
       Some (mk delay_slope direction increasing_count increasing_duration (adapt s shrunk_delay_slope now) now))
  end.

End DelayDirections.

(** ** googcc.rs *)
Module RateAverager.

Record t := mk { average : option Z; variance : Z }.

Definition new : t := mk None 400.
Definition alpha : F64.t := F64.lit 5 100.

Definition add_sample (self : t) (sample : Z) : t :=
  let average :=
    match average self with
    | Some average => exponential_moving_average_rate average alpha sample
    | None => sample
    end in
  let var := #[variance self] in
  let avg := #[average] in
  let sample := #[sample] in
  let var :=
    F64.clamp
      (F64.add (F64.mul (F64.sub F64.one alpha) var)
               (F64.div (F64.mul alpha (square (F64.sub avg sample))) (F64.max avg F64.one)))
      #[400] #[2500] in
  mk (Some average) (F64.to_u64 var).

Definition reset_if_sample_out_of_bounds (self : t) (sample : Z) : t :=
  match average self with
  | Some average =>
      let relative_bound := F64.to_u64 (F64.mul #[3] (F64.sqrt (F64.mul #[variance self] #[average]))) in
      if (DataRate.rate_add average relative_bound <? sample)
         || (sample <? DataRate.rate_saturating_sub average relative_bound)
      then new else self
  | None => self
  end.

End RateAverager.

Module Config.
Record t := mk {
  initial_target_send_rate : Z;
  min_target_send_rate : Z;
  max_target_send_rate : Z
}.

Definition default : t := mk (DataRate.from_kbps 800) (DataRate.from_kbps 100) (DataRate.from_kbps 30000).

(** [Ord::clamp] panics when the bounds are in the wrong order. *)
Definition clamp_target_send_rate {E} (self : t) (target_send_rate : Z) : Res E Z :=
  _ ← assert_ (min_target_send_rate self <=? max_target_send_rate self);
  Ok (if target_send_rate <? min_target_send_rate self then min_target_send_rate self
      else if max_target_send_rate self <? target_send_rate then max_target_send_rate self
      else target_send_rate).

End Config.

Module Request.
Record t := mk { base : Z; ideal : Z }.
Definition default : t := mk 0 0.
End Request.

Module TargetCalculator.

Record t := mk {
  acked_rate : option Z;
  acked_rate_when_overusing : RateAverager.t;
  config : Config.t;
  previous_direction : option DelayDirection;
  requested : Request.t;
  rtt : Z;
  target_send_rate : Z;
  target_send_rate_updated : Z
}.

#[global] Instance t_eta : Settable t := fun s =>
  mk (acked_rate s) (acked_rate_when_overusing s) (config s) (previous_direction s) (requested s) (rtt s)
     (target_send_rate s) (target_send_rate_updated s).

Definition new (config : Config.t) (start_time : Z) : t :=
  mk None RateAverager.new config None (Request.mk 0 (Config.max_target_send_rate config))
     (Duration.from_millis 100) (Config.initial_target_send_rate config) start_time.

Definition MULTIPLICATIVE_INCREASE_PER_SECOND : F64.t := F64.lit 8 100.
Definition MIN_MULTIPLICATIVE_INCREASE : Z := DataRate.from_kbps 1.
Definition ADDITIVE_INCREASE_PER_RTT : Z := DataRate.size_from_bytes 1200.
Definition ADDITIVE_INCREASE_RTT_PAD : Z := Duration.from_millis 100.
Definition MIN_ADDITIVE_INCREASE_PER_SECOND : Z := DataRate.from_kbps 4.
Definition MIN_RTT_FOR_DECREASE : Z := Duration.from_millis 10.
Definition MAX_RTT_FOR_DECREASE : Z := Duration.from_millis 200.
Definition DECREASE_FROM_ACKED_RATE_MULTIPLIER : F64.t := F64.lit 85 100.

Section Powf.
Context `{Powf}.

(** [if let Some(request) = request.take()]: the new request, and whether the
    target went back to the initial rate. *)
Definition take_request (self : t) (request : option Request.t) : t * bool :=
  match request with
  | Some request =>
      let previously_requested := requested self in
      let self := self <| requested := request |> in
      let tiny_send_rate := DataRate.from_kbps 150 in
      let previous_ideal_was_tiny := Request.ideal previously_requested <=? tiny_send_rate in
      let current_ideal_is_tiny := Request.ideal (requested self) <=? tiny_send_rate in
      let initial_target_send_rate :=
        Z.max (Config.initial_target_send_rate (config self))
              (DataRate.mul_f64 (Request.base (requested self)) (F64.lit 1 2)) in
      let target_below_initial := target_send_rate self <? initial_target_send_rate in
      if previous_ideal_was_tiny && negb current_ideal_is_tiny && target_below_initial then
        (self <| target_send_rate := initial_target_send_rate |>, true)
      else (self, false)
  | None => (self, false)
  end.

(** The branches of [match direction]: the state and the changed rate. *)
Definition steady (self : t) (now : Z) : t * Z :=
  let self :=
    match acked_rate self with
    | Some acked_rate =>
        self <| acked_rate_when_overusing ::=
                  fun a => RateAverager.reset_if_sample_out_of_bounds a acked_rate |>
    | None => self
    end in
  let increase_duration :=
    if negb (bool_decide (previous_direction self = Some Steady)) then 0
    else Duration.saturating_duration_since now (target_send_rate_updated self) in
  let increase :=
    match RateAverager.average (acked_rate_when_overusing self) with
    | None =>
        let multiplicative_increase_per_second :=
          if target_send_rate self <? Request.base (requested self) then
            F64.mul MULTIPLICATIVE_INCREASE_PER_SECOND #[2]
          else MULTIPLICATIVE_INCREASE_PER_SECOND in
        let multiplier :=
          F64.sub (powf (F64.add F64.one multiplicative_increase_per_second)
                        (F64.min (Duration.as_secs_f64 increase_duration) F64.one))
                  F64.one in
        Z.max MIN_MULTIPLICATIVE_INCREASE (DataRate.mul_f64 (target_send_rate self) multiplier)
    | Some _ =>
        let padded_rtt := rtt self + ADDITIVE_INCREASE_RTT_PAD in
        let increase_per_second :=
          Z.max MIN_ADDITIVE_INCREASE_PER_SECOND
                (DataRate.size_div_duration ADDITIVE_INCREASE_PER_RTT padded_rtt) in
        DataRate.mul_f64 increase_per_second (Duration.as_secs_f64 increase_duration)
    end in
  let increased_rate := DataRate.rate_add (target_send_rate self) increase in
  let increased_rate :=
    match acked_rate self with
    | Some acked_rate =>
        let acked_rate_based_limit :=
          DataRate.rate_add (DataRate.mul_f64 acked_rate (F64.lit 15 10)) (DataRate.from_kbps 10) in
        Z.min acked_rate_based_limit increased_rate
    | None => increased_rate
    end in
  (self, Z.max (target_send_rate self) increased_rate).

Definition clamp (x lo hi : Z) : Z := if x <? lo then lo else if hi <? x then hi else x.

Definition increasing (self : t) (now : Z) : t * option Z :=
  match acked_rate self with
  | Some acked_rate =>
      if (target_send_rate_updated self + clamp (rtt self) MIN_RTT_FOR_DECREASE MAX_RTT_FOR_DECREASE <=? now)
         || (acked_rate <=? DataRate.mul_f64 (target_send_rate self) (F64.lit 1 2)) then
        let decreased_rate := DataRate.mul_f64 acked_rate DECREASE_FROM_ACKED_RATE_MULTIPLIER in
        let decreased_rate :=
          if target_send_rate self <? decreased_rate then
            match RateAverager.average (acked_rate_when_overusing self) with
            | Some average => DataRate.mul_f64 average DECREASE_FROM_ACKED_RATE_MULTIPLIER
            | None => decreased_rate
            end
          else decreased_rate in
        let self :=
          self <| acked_rate_when_overusing ::= fun a =>
                    RateAverager.add_sample (RateAverager.reset_if_sample_out_of_bounds a acked_rate) acked_rate |> in
        (self, Some (Z.min (target_send_rate self) decreased_rate))
      else (self, None)
  | None => (self, Some (DataRate.div_f64 (target_send_rate self) #[2]))
  end.

Definition change (self : t) (direction : DelayDirection) (now : Z) : t * option Z :=
  match direction with
  | Decreasing => (self, None)
  | Steady => let '(self, rate) := steady self now in (self, Some rate)
  | Increasing => increasing self now
  end.

(** Returns the target when it was recalculated; the request is taken only when
    there is a delay direction. *)
Definition next {E} (self : t) (request : option Request.t) (delay_directions : option (Z * DelayDirection))
    (rtt acked_rate : option Z) : Res E (t * option Request.t * option Z) :=
  let self := match rtt with Some rtt => self <| TargetCalculator.rtt := rtt |> | None => self end in
  let self :=
    match acked_rate with
    | Some acked_rate => self <| TargetCalculator.acked_rate := Some acked_rate |>
    | None => self
    end in
  match delay_directions with
  | Some (now, direction) =>
      let '(self, reset_to_initial) := take_request self request in
      let '(self, changed_target_send_rate) := change self direction now in
      let self := self <| previous_direction := Some direction |> in
      if bool_decide (is_Some changed_target_send_rate) || reset_to_initial then
        rate ← Config.clamp_target_send_rate (config self)
                 (unwrap_or changed_target_send_rate (target_send_rate self));
        let self := self <| target_send_rate := rate |> <| target_send_rate_updated := now |> in
        Ok (self, None, Some (target_send_rate self))
      else Ok (self, None, None)
  | None => Ok (self, request, None)
  end.

End Powf.
End TargetCalculator.

Module CongestionController.
Import Stream.

Record t := mk {
  current_request : option Request.t;
  feedback_rtts : FeedbackRtts.state;
  acked_sizes : AckedSizes.state;
  acked_rates : AckedRates.state;
  ack_groups : AckGroups.state;
  ack_deltas : AckDeltas.state;
  delay_slopes : DelaySlopes.state;
  delay_directions : DelayDirections.state;
  calculator : TargetCalculator.t
}.

#[global] Instance t_eta : Settable t := fun s =>
  mk (current_request s) (feedback_rtts s) (acked_sizes s) (acked_rates s) (ack_groups s) (ack_deltas s)
     (delay_slopes s) (delay_directions s) (calculator s).

Definition new (config : Config.t) (now : Z) : t :=
  mk None FeedbackRtts.init AckedSizes.init AckedRates.init AckGroups.init AckDeltas.init DelaySlopes.init
     DelayDirections.init (TargetCalculator.new config now).

Definition request (self : t) (request : Request.t) : t := self <| current_request := Some request |>.

(** [estimate_acked_rates] *)
Definition estimate_acked_rates (self : t) (acks : list Ack) : list Z * t :=
  let '(groups, sizes) := run AckedSizes.step (acked_sizes self) acks in
  let '(rates, s) := run AckedRates.step (acked_rates self) groups in
  (rates, self <| acked_sizes := sizes |> <| acked_rates := s |>).

(** [calculate_delay_directions] *)
Definition calculate_delay_directions (self : t) (acks : list Ack) : list (Z * DelayDirection) * t :=
  let '(groups, s1) := run AckGroups.step (ack_groups self) acks in
  let '(deltas, s2) := run AckDeltas.step (ack_deltas self) groups in
  let '(slopes, s3) := run DelaySlopes.step (delay_slopes self) deltas in
  let '(directions, s4) := run DelayDirections.step (delay_directions self) slopes in
  (directions, self <| ack_groups := s1 |> <| ack_deltas := s2 |> <| delay_slopes := s3 |> <| delay_directions := s4 |>).

(** [sort_by_key(|ack| ack.arrival)], a stable sort. *)
Fixpoint insert_by_arrival (ack : Ack) (l : list Ack) : list Ack :=
  match l with
  | [] => [ack]
  | a :: rest => if arrival a <? arrival ack then a :: insert_by_arrival ack rest else ack :: l
  end.
Definition sort_by_arrival (l : list Ack) : list Ack := foldr insert_by_arrival [] l.

Definition recalculate_target_send_rate `{Powf} {E} (self : t) (acks : list Ack) : Res E (t * option Z) :=
  match acks with
  | [] => Ok (self, None)
  | _ =>
      let acks := sort_by_arrival acks in
      let '(rtts, s) := run FeedbackRtts.step (feedback_rtts self) [acks] in
      let self := self <| feedback_rtts := s |> in
      let '(rates, self) := estimate_acked_rates self acks in
      let '(directions, self) := calculate_delay_directions self acks in
      '(calculator, request, rate) ←
        TargetCalculator.next (calculator self) (current_request self) (latest_only directions)
          (latest_only rtts) (latest_only rates);
      Ok (self <| CongestionController.calculator := calculator |> <| current_request := request |>, rate)
  end.

Definition rtt (self : t) : Z := TargetCalculator.rtt (calculator self).

End CongestionController.

(** * Theorems *)

Module GoogccFacts.
Import TargetCalculator.

Section Powf.
Context `{Powf}.

(** The rate of a calculator: in [0, 2^64), and between the bounds once changed. *)
Definition within_config (c : Config.t) (rate : Z) : Prop :=
  Config.min_target_send_rate c <= rate <= Config.max_target_send_rate c.

Lemma clamp_config_ok {E} c rate : Config.min_target_send_rate c <= Config.max_target_send_rate c ->
  exists r, Config.clamp_target_send_rate (E := E) c rate = Ok r /\ within_config c r /\
    (within_config c rate -> r = rate) /\
    (forall lo, within_config c lo -> lo <= rate -> lo <= r) /\ (forall hi, within_config c hi -> rate <= hi -> r <= hi).
Proof.
  intros Hc. unfold Config.clamp_target_send_rate, within_config. rewrite (proj2 (Z.leb_le _ _)) by done.
  cbn [assert_]. rewrite mbind_Ok. eexists. split; [done|].
  repeat case_if; boolsplit; split_and!; intros; lia.
Qed.

(** What the parts of [next] leave alone. *)
Definition keeps (self self' : t) : Prop :=
  config self' = config self /\ target_send_rate self' = target_send_rate self /\ rtt self' = rtt self.

Lemma steady_ok self now : keeps self (steady self now).1 /\ target_send_rate self <= (steady self now).2.
Proof.
  unfold steady. cbn [fst snd].
  set (self' := match acked_rate self with Some _ => _ | None => _ end).
  assert (keeps self self') as Hk by (unfold self'; by destruct (acked_rate self)).
  split; [done|]. destruct Hk as (_ & -> & _). apply Z.le_max_l.
Qed.

Lemma increasing_ok self now : 0 <= target_send_rate self < 2 ^ 64 ->
  keeps self (increasing self now).1 /\ forall r, (increasing self now).2 = Some r -> r <= target_send_rate self.
Proof.
  intros Ht. unfold increasing. destruct (acked_rate self) as [a|]; cbn [fst snd].
  - case_if; cbn [fst snd]; (split; [done|]); [|done]. intros r [= <-]. apply Z.le_min_l.
  - split; [done|]. intros r [= <-]. by apply FloatFacts.half_of_integer_le.
Qed.

Lemma change_ok self direction now : 0 <= target_send_rate self < 2 ^ 64 ->
  keeps self (change self direction now).1 /\
  match direction with
  | Decreasing => (change self direction now).2 = None
  | Steady => exists r, (change self direction now).2 = Some r /\ target_send_rate self <= r
  | Increasing => forall r, (change self direction now).2 = Some r -> r <= target_send_rate self
  end.
Proof.
  intros Ht. unfold change. destruct direction.
  - by apply increasing_ok.
  - done.
  - pose proof (steady_ok self now). destruct (steady self now) as [s r]. cbn [fst snd] in *. naive_solver.
Qed.

Definition config_ok (c : Config.t) : Prop :=
  0 <= Config.min_target_send_rate c <= Config.max_target_send_rate c /\
  Config.max_target_send_rate c < 2 ^ 64 /\ 0 <= Config.initial_target_send_rate c < 2 ^ 64.

Record calculator_ok (c : Config.t) (self : t) : Prop := {
  ca_config : config self = c;
  ca_rate : 0 <= target_send_rate self < 2 ^ 64
}.

Lemma mul_f64_uint r x : 0 <= DataRate.mul_f64 r x < 2 ^ 64.
Proof.
  unfold DataRate.mul_f64. split; [apply FloatFacts.to_u64_nonneg|].
  unfold F64.to_u64, F64.to_uint. destruct (F64.mul _ _) as [|[]| |[] m e]; unfold umax; lia.
Qed.

Lemma take_request_ok c self request : config_ok c -> calculator_ok c self ->
  calculator_ok c (take_request self request).1 /\ rtt (take_request self request).1 = rtt self /\
  (request = None -> take_request self request = (self, false)).
Proof.
  intros (_ & _ & Hi) [Hc Hr]. unfold take_request. destruct request as [r|]; [|split; [by split|done]].
  pose proof (mul_f64_uint (Request.base r) (F64.lit 1 2)).
  cbn. rewrite Hc. case_if; cbn [fst]; (split; [|done]); split; cbn; try done. lia.
Qed.

Lemma calculator_next_ok {E} c self request directions rtt_ acked : config_ok c -> calculator_ok c self ->
  exists self' request' rate, next (E := E) self request directions rtt_ acked = Ok (self', request', rate) /\
    calculator_ok c self' /\ rtt self' = unwrap_or rtt_ (rtt self) /\
    (forall r, rate = Some r -> within_config c r /\ target_send_rate self' = r) /\
    (request = None -> rate = None -> target_send_rate self' = target_send_rate self) /\
    (request = None -> within_config c (target_send_rate self) ->
       within_config c (target_send_rate self') /\
       match option_map snd directions with
       | Some Steady => target_send_rate self <= target_send_rate self'
       | Some Increasing => target_send_rate self' <= target_send_rate self
       | Some Decreasing | None => target_send_rate self' = target_send_rate self
       end).
Proof.
  intros Hc Hs. unfold next.
  set (s1 := match acked with Some _ => _ | None => _ end).
  assert (calculator_ok c s1 /\ rtt s1 = unwrap_or rtt_ (rtt self) /\ target_send_rate s1 = target_send_rate self)
    as (H1 & Er & Et) by (unfold s1; destruct acked, rtt_, Hs; done).
  rewrite <- Er, <- Et. clearbody s1. clear Er Et Hs self rtt_ acked. rename s1 into self.
  destruct directions as [[now direction]|]; [|eexists _, _, _; split; [done|]; cbn; split_and!; [done..| |done]; done].
  pose proof (take_request_ok c self request Hc H1) as (H2 & Er2 & Hnone).
  destruct (take_request self request) as [s2 reset]. cbn [fst] in *.
  destruct (change_ok s2 direction now (ca_rate _ _ H2)) as [Hk Hd].
  destruct (change s2 direction now) as [s3 changed]. cbn [fst snd option_map] in *.
  destruct Hk as (Ek1 & Ek2 & Ek3). destruct H2 as [Ec2 Hr2].
  destruct (clamp_config_ok (E := E) c (unwrap_or changed (target_send_rate s3))) as (r & Ecl & Hin & Hid & Hlo & Hhi);
    [apply Hc|]. destruct Hc as (Hmin & Hmax & _).
  cbn. rewrite Ek1, Ec2, Ecl.
  assert (request = None -> s2 = self /\ reset = false) as Hn by (intros ->; by injection (Hnone eq_refl)).
  case_if.
  - rewrite mbind_Ok. eexists _, _, _. split; [done|]. cbn. split_and!.
    + split; cbn; [by rewrite Ek1|]. unfold within_config in Hin. lia.
    + by rewrite Ek3, Er2.
    + by intros ? [= <-].
    + intros Hreq. done.
    + intros Hreq Hw. destruct (Hn Hreq) as [-> ->]. split; [done|]. rewrite Ek2 in *.
      destruct direction.
      * apply Hhi; [done|]. destruct changed; [by apply Hd|done].
      * subst changed. done.
      * destruct Hd as (x & -> & Hx). by apply Hlo.
  - apply orb_false_elim in E0 as [E0 ->]. apply bool_decide_eq_false in E0.
    destruct changed; [by destruct E0|]. eexists _, _, _. split; [done|]. cbn. split_and!.
    + split; cbn; [by rewrite Ek1|by rewrite Ek2].
    + by rewrite Ek3, Er2.
    + done.
    + intros Hreq. destruct (Hn Hreq) as [-> _]. by intros _.
    + intros Hreq Hw. destruct (Hn Hreq) as [-> _]. rewrite Ek2. split; [done|].
      destruct direction; [lia|done|]. by destruct Hd as (? & ? & _).
Qed.

End Powf.
End GoogccFacts.

Module GoogccReach.
Import GoogccFacts CongestionController.

Section Powf.
Context `{Powf}.

(** Runs of a controller with the non-empty reports it was given. *)
Inductive reach (c : Config.t) : t -> list (list Ack) -> Prop :=
| reach_new now : reach c (new c now) []
| reach_request s reports r : reach c s reports -> reach c (request s r) reports
| reach_recalculate s reports acks s' rate : reach c s reports ->
    recalculate_target_send_rate (E := unit) s acks = Ok (s', rate) ->
    reach c s' (match acks with [] => reports | _ => reports ++ [acks] end).

(** The longest feedback round trip of a report. *)
Definition feedback_rtt (acks : list Ack) : Z :=
  foldr Z.max 0 (map (fun ack => Duration.saturating_duration_since (feedback_arrival ack) (departure ack)) acks).

Lemma insert_by_arrival_perm a l : insert_by_arrival a l ≡ₚ a :: l.
Proof. induction l as [|x l IH]; [done|]. cbn. case_if; [|done]. rewrite IH. constructor. Qed.

Lemma sort_by_arrival_perm l : sort_by_arrival l ≡ₚ l.
Proof. induction l as [|a l IH]; [done|]. cbn. by rewrite insert_by_arrival_perm, IH. Qed.

Lemma foldr_max_perm l l' : l ≡ₚ l' -> foldr Z.max 0 l = foldr Z.max 0 l'.
Proof. induction 1; cbn; lia. Qed.

Lemma fold_left_max l d : 0 <= d -> fold_left Z.max l d = Z.max d (foldr Z.max 0 l).
Proof. revert d. induction l as [|x l IH]; intros d Hd; cbn; [lia|]. rewrite IH by lia. lia. Qed.

Lemma max_duration_eq acks : acks <> [] ->
  FeedbackRtts.max_duration (map (fun ack => Duration.saturating_duration_since (feedback_arrival ack) (departure ack)) acks)
  = Some (feedback_rtt acks).
Proof.
  destruct acks as [|a acks]; [done|]. intros _. cbn. f_equal. rewrite fold_left_max; [done|].
  unfold Duration.saturating_duration_since, saturating_sub. lia.
Qed.

Lemma feedback_rtt_sorted acks : feedback_rtt (sort_by_arrival acks) = feedback_rtt acks.
Proof. unfold feedback_rtt. apply foldr_max_perm. by rewrite sort_by_arrival_perm. Qed.

Definition mean_rtt (l : list Z) : Z := fold_left Z.add l 0 / Z.of_nat (length l).

(** One report. *)
Lemma feedback_step s acks : (length (RingBuffer.values s) <= RingBuffer.limit s)%nat -> acks <> [] ->
  exists s', FeedbackRtts.step s acks = (Some (mean_rtt (RingBuffer.values s')), s') /\
    RingBuffer.limit s' = RingBuffer.limit s /\
    RingBuffer.values s' = lastn (RingBuffer.limit s) (RingBuffer.values s ++ [feedback_rtt acks]).
Proof.
  intros Hl Ha. unfold FeedbackRtts.step. rewrite max_duration_eq by done. eexists. split; [done|].
  by apply RingBufferFacts.push_values.
Qed.

(** [recalculate_target_send_rate] on sorted acknowledgements. *)
Definition recalculate_sorted {E} (self : t) (acks : list Ack) : Res E (t * option Z) :=
  let '(rtts, s) := Stream.run FeedbackRtts.step (feedback_rtts self) [acks] in
  let self := self <| feedback_rtts := s |> in
  let '(rates, self) := estimate_acked_rates self acks in
  let '(directions, self) := calculate_delay_directions self acks in
  '(calculator, request, rate) ←
    TargetCalculator.next (calculator self) (current_request self) (Stream.latest_only directions)
      (Stream.latest_only rtts) (Stream.latest_only rates);
  Ok (self <| CongestionController.calculator := calculator |> <| current_request := request |>, rate).

Lemma recalculate_nonempty {E} s acks : acks <> [] ->
  recalculate_target_send_rate (E := E) s acks = recalculate_sorted s (sort_by_arrival acks).
Proof. by destruct acks. Qed.

(** What a run knows of the reports. *)
Record inv (c : Config.t) (s : t) (reports : list (list Ack)) : Prop := {
  in_calculator : calculator_ok c (calculator s);
  in_limit : RingBuffer.limit (feedback_rtts s) = FeedbackRtts.FEEDBACK_RTTS_HISTORY_LEN;
  in_history : RingBuffer.values (feedback_rtts s) = lastn FeedbackRtts.FEEDBACK_RTTS_HISTORY_LEN (map feedback_rtt reports);
  in_rtt : reports <> [] -> rtt s = mean_rtt (RingBuffer.values (feedback_rtts s))
}.

Lemma recalculate_ok {E} c s reports acks : config_ok c -> inv c s reports ->
  exists s' rate, recalculate_target_send_rate (E := E) s acks = Ok (s', rate) /\
    inv c s' (match acks with [] => reports | _ => reports ++ [acks] end) /\
    (forall r, rate = Some r -> within_config c r /\ TargetCalculator.target_send_rate (calculator s') = r).
Proof.
  intros Hc [H1 H2 H3 H4]. destruct (decide (acks = [])) as [->|Ha]; [by eexists _, _|].
  assert (match acks with [] => reports | _ => reports ++ [acks] end = reports ++ [acks]) as -> by (by destruct acks).
  rewrite recalculate_nonempty by done.
  assert (sort_by_arrival acks <> []) as Hne.
  { intros E0. pose proof (sort_by_arrival_perm acks) as Hp. rewrite E0 in Hp. by apply Permutation_nil in Hp. }
  unfold recalculate_sorted. cbn [Stream.run].
  destruct (feedback_step (feedback_rtts s) (sort_by_arrival acks)) as (h & -> & Hl & Hv); [|done|].
  { rewrite H3, length_lastn, H2. lia. }
  rewrite feedback_rtt_sorted in Hv.
  destruct (estimate_acked_rates _ _) as [rates s1] eqn:E1.
  assert (calculator s1 = calculator s /\ feedback_rtts s1 = h) as [Ec1 Ef1].
  { unfold estimate_acked_rates in E1. destruct (Stream.run _ _ _) as [g z]. destruct (Stream.run _ _ _) as [g' z'].
    by injection E1 as _ <-. }
  destruct (calculate_delay_directions _ _) as [directions s2] eqn:E2.
  assert (calculator s2 = calculator s /\ feedback_rtts s2 = h) as [Ec2 Ef2].
  { unfold calculate_delay_directions in E2. do 4 destruct (Stream.run _ _ _) as [? ?]. injection E2 as _ <-. done. }
  clear E1 E2 Ec1 Ef1. rewrite <- Ec2 in H1.
  destruct (calculator_next_ok (E := E) c (calculator s2) (current_request s2) (Stream.latest_only directions)
    (Stream.latest_only [mean_rtt (RingBuffer.values h)]) (Stream.latest_only rates) Hc H1)
    as (calc & req & rate & En & Hok & Hrtt & Hrate & _).
  change (option_list (Some ?x) ++ []) with [x]. rewrite En, mbind_Ok. eexists _, _. split; [done|]. split; [|exact Hrate].
  split; cbn; [done|by rewrite Ef2, Hl| |].
  - by rewrite Ef2, Hv, H2, H3, map_app, RingBufferFacts.lastn_snoc.
  - intros _. rewrite Ef2. exact Hrtt.
Qed.

Lemma reach_inv c s reports : config_ok c -> reach c s reports -> inv c s reports.
Proof.
  intros Hc. induction 1 as [now|s reports r _ [H1 H2 H3 H4]|s reports acks s' rate _ IH E].
  - split; [|done..]. split; [done|]. cbn. by destruct Hc as (_ & _ & ?).
  - by split.
  - destruct (recalculate_ok (E := unit) c s reports acks Hc IH) as (s1 & r1 & E1 & Hi & _).
    rewrite E in E1. by injection E1 as <- <-.
Qed.

End Powf.
End GoogccReach.

Module GoogccProperties.
Import GoogccFacts GoogccReach.

Section Powf.
Context `{Powf}.

(** C39: Whatever acknowledgements arrived before, recalculating the target send rate
    does not panic and a new rate lies between the configured bounds. *)
Theorem target_rate_within_config c s reports acks :
  0 <= Config.min_target_send_rate c <= Config.max_target_send_rate c ->
  Config.max_target_send_rate c < 2 ^ 64 -> uint 64 (Config.initial_target_send_rate c) ->
  reach c s reports ->
  exists s' rate, CongestionController.recalculate_target_send_rate (E := unit) s acks = Ok (s', rate) /\
    forall r, rate = Some r ->
      Config.min_target_send_rate c <= r <= Config.max_target_send_rate c /\
      TargetCalculator.target_send_rate (CongestionController.calculator s') = r.
Proof.
  intros H1 H2 H3 Hr. assert (config_ok c) as Hc by done.
  destruct (recalculate_ok (E := unit) c s reports acks Hc (reach_inv _ _ _ Hc Hr)) as (s' & rate & E & _ & Hrate). eauto.
Qed.

(** A rate inside the bounds, with no new request: it does not fall while the
    delay is steady, does not rise while it increases and does not change while
    it decreases or nothing is known. *)
Theorem rate_follows_direction (self : TargetCalculator.t) directions rtt acked :
  let c := TargetCalculator.config self in
  0 <= Config.min_target_send_rate c <= TargetCalculator.target_send_rate self ->
  TargetCalculator.target_send_rate self <= Config.max_target_send_rate c < 2 ^ 64 ->
  uint 64 (Config.initial_target_send_rate c) ->
  exists self' rate, TargetCalculator.next (E := unit) self None directions rtt acked = Ok (self', None, rate) /\
    match option_map snd directions with
    | Some Steady => TargetCalculator.target_send_rate self <= TargetCalculator.target_send_rate self'
    | Some Increasing => TargetCalculator.target_send_rate self' <= TargetCalculator.target_send_rate self
    | Some Decreasing | None => TargetCalculator.target_send_rate self' = TargetCalculator.target_send_rate self
    end.
Proof.
  intros c H1 H2 H3. assert (config_ok c) as Hc by (unfold config_ok; split_and!; try lia; apply H3).
  assert (calculator_ok c self) as Hs by (split; [done|lia]).
  destruct (calculator_next_ok (E := unit) c self None directions rtt acked Hc Hs) as (self' & req & rate & E & _ & _ & _ & _ & Hdir).
  exists self', rate. assert (req = None) as ->.
  { revert E. unfold TargetCalculator.next. destruct directions as [[now d]|]; [|by intros [= _ <- _]].
    destruct (TargetCalculator.take_request _ _) as [s2 reset]. destruct (TargetCalculator.change _ _ _) as [s3 changed].
    case_if; [|by intros [= _ <- _]]. destruct (Config.clamp_target_send_rate _ _); [|done..].
    rewrite mbind_Ok. by intros [= _ <- _]. }
  split; [done|]. apply Hdir; [done|]. split; lia.
Qed.

(** The round trip time of a controller is the mean over the last 32 reports of
    the longest time one of a report's acknowledgements took to come back. *)
Theorem rtt_is_recent_mean c s reports :
  0 <= Config.min_target_send_rate c <= Config.max_target_send_rate c ->
  Config.max_target_send_rate c < 2 ^ 64 -> uint 64 (Config.initial_target_send_rate c) ->
  reach c s reports -> reports <> [] ->
  let recent := lastn 32 (map (fun acks => foldr Z.max 0
    (map (fun ack => Z.max 0 (feedback_arrival ack - departure ack)) acks)) reports) in
  CongestionController.rtt s = fold_left Z.add recent 0 / Z.of_nat (length recent).
Proof.
  intros H1 H2 H3 Hr Hne. assert (config_ok c) as Hc by done.
  destruct (reach_inv _ _ _ Hc Hr) as [_ _ Hh Hrtt]. cbn zeta. rewrite Hrtt, Hh by done. reflexivity.
Qed.

End Powf.

(** A stand-in for the power function. *)
#[local] Instance toy_powf : Powf := { powf x _ := x }.

Definition example_ack (n : Z) : Ack :=
  ack 9600 (n * 10 ^ 7) (n * 10 ^ 7) (n * 10 ^ 7 + 10 ^ 8 + n).
Definition example_reports : list (list Ack) := [[example_ack 1; example_ack 3]; [example_ack 2]].
Definition after (reports : list (list Ack)) : CongestionController.t :=
  fold_left (fun s acks =>
    match CongestionController.recalculate_target_send_rate (E := unit) s acks with Ok (s, _) => s | _ => s end)
    reports (CongestionController.new Config.default 0).

Lemma after_reach : reach Config.default (after example_reports) example_reports.
Proof.
  assert (exists s1 r1 s2 r2,
    CongestionController.recalculate_target_send_rate (E := unit) (CongestionController.new Config.default 0)
      [example_ack 1; example_ack 3] = Ok (s1, r1) /\
    CongestionController.recalculate_target_send_rate (E := unit) s1 [example_ack 2] = Ok (s2, r2) /\
    after example_reports = s2) as (s1 & r1 & s2 & r2 & E1 & E2 & ->).
  { eexists _, _, _, _. split; [vm_compute; reflexivity|]. split; vm_compute; reflexivity. }
  pose proof (reach_new Config.default 0) as R0.
  pose proof (reach_recalculate _ _ _ _ _ _ R0 E1) as R1. exact (reach_recalculate _ _ _ _ _ _ R1 E2).
Qed.

Lemma target_rate_within_config_witness : exists s' rate,
  CongestionController.recalculate_target_send_rate (E := unit) (after example_reports) [example_ack 4] = Ok (s', rate) /\
  forall r, rate = Some r -> 100000 <= r <= 30000000.
Proof.
  destruct (target_rate_within_config Config.default (after example_reports) example_reports [example_ack 4])
    as (s' & rate & E & Hr); [split; vm_compute; discriminate|vm_compute; reflexivity|split; [vm_compute; discriminate|vm_compute; reflexivity]
    |exact after_reach|].
  exists s', rate. split; [exact E|]. intros r Er. exact (proj1 (Hr r Er)).
Defined.

Lemma rate_follows_direction_witness : exists self' rate,
  TargetCalculator.next (E := unit) (TargetCalculator.new Config.default 0) None (Some (10 ^ 9, Increasing)) None None
    = Ok (self', None, rate) /\ TargetCalculator.target_send_rate self' <= 800000.
Proof.
  exact (rate_follows_direction (TargetCalculator.new Config.default 0) (Some (10 ^ 9, Increasing)) None None
    ltac:(split; vm_compute; discriminate) ltac:(split; [vm_compute; discriminate|vm_compute; reflexivity])
    ltac:(split; [vm_compute; discriminate|vm_compute; reflexivity])).
Defined.

Lemma rtt_is_recent_mean_witness : CongestionController.rtt (after example_reports) = (100000003 + 100000002) / 2.
Proof.
  exact (rtt_is_recent_mean Config.default (after example_reports) example_reports
    ltac:(split; vm_compute; discriminate) ltac:(vm_compute; reflexivity)
    ltac:(split; [vm_compute; discriminate|vm_compute; reflexivity]) after_reach ltac:(discriminate)).
Defined.

End GoogccProperties.
