(* ===== verification/RtpEndpoint.v ===== *)
(** * RtpEndpoint: one end of an SRTP connection

    [Endpoint] of [src/backend/src/rtp.rs]: it authenticates, deduplicates and
    unwraps what arrives, numbers, remembers and encrypts what leaves, and keeps
    the reports of each SSRC.  A method that may fail returns [None]; the
    endpoint it leaves behind is part of the result, since it keeps what was
    changed before the failure. *)
From S2P Require Import Prelude Common Collections Float Bytes Srtp RtpHeader Packet Replay Nack Rtx Rtcp RtcpReports TransportCc.
Import Read Serialize Srtp RtpTypes Expand.

(** The order in which the standard library's [HashMap] is iterated over is not
    specified: any order of its entries. *)
Class HashMapOrder := {
  entries : forall {V}, gmap Z V -> list (Z * V);
  entries_perm : forall {V} (m : gmap Z V), entries m ≡ₚ map_to_list m
}.

Definition RTCP_PAYLOAD_TYPES (pt : Z) : bool := (64 <=? pt) && (pt <=? 95).

Definition looks_like_rtp (packet : bytes) : bool :=
  match packet with
  | b0 :: b1 :: _ => (Z.shiftr b0 6 =? VERSION) && negb (RTCP_PAYLOAD_TYPES (Z.land b1 127))
  | _ => false
  end.

Definition looks_like_rtcp (packet : bytes) : bool :=
  match packet with
  | b0 :: b1 :: _ => (Z.shiftr b0 6 =? VERSION) && RTCP_PAYLOAD_TYPES (Z.land b1 127)
  | _ => false
  end.

Module Endpoint.
Import SequenceNumberReuseDetector(SequenceNumberReuse, UsedBefore, NotUsedBefore, TooOldToKnow).

Record IncomingSsrcState := mk_incoming {
  max_seqnum : Z;
  seqnum_reuse_detector : SequenceNumberReuseDetector.t;
  nack_sender : Nack.NackSender;
  rtcp_report_sender : RtcpReportSender.t
}.

#[global] Instance incoming_eta : Settable IncomingSsrcState := fun s =>
  mk_incoming (max_seqnum s) (seqnum_reuse_detector s) (nack_sender s) (rtcp_report_sender s).

Record EndpointStats := stats {
  remembered_packet_count : nat;
  remembered_packet_bytes : nat;
  rtt_estimate : option Z
}.

Record t := mk {
  decrypt : KeysAndSalts;
  encrypt : KeysAndSalts;
  rtcp_sender_ssrc : Z;
  next_outgoing_srtcp_index : Z;
  state_by_incoming_ssrc : gmap Z IncomingSsrcState;
  tcc_receiver : Receiver.t;
  tcc_sender : Sender.t;
  max_received_tcc_seqnum : Z;
  rtx_sender : Rtx.RtxSender;
  last_stats_calculated_time : Z;
  last_stats : option EndpointStats
}.

#[global] Instance t_eta : Settable t := fun e =>
  mk (decrypt e) (encrypt e) (rtcp_sender_ssrc e) (next_outgoing_srtcp_index e)
     (state_by_incoming_ssrc e) (tcc_receiver e) (tcc_sender e) (max_received_tcc_seqnum e)
     (rtx_sender e) (last_stats_calculated_time e) (last_stats e).

Definition new (decrypt encrypt : KeysAndSalts) (now rtcp_sender_ssrc ack_sender_ssrc : Z) : t :=
  mk decrypt encrypt rtcp_sender_ssrc 1 ∅ (Receiver.new ack_sender_ssrc now) (Sender.new now) 0
     (Rtx.new PACKET_LIFETIME now) now None.

(** [entry(ssrc).or_insert(..)]: the state, and the endpoint that has it.  The
    [Instant::now()] of the report sender is the caller's [now]. *)
Definition get_incoming_ssrc_state_mut (self : t) (ssrc now : Z) : IncomingSsrcState :=
  default (mk_incoming 0 SequenceNumberReuseDetector.default (Nack.new 250) (RtcpReportSender.new now))
          (state_by_incoming_ssrc self !! ssrc).

Definition set_incoming_ssrc_state (self : t) (ssrc : Z) (s : IncomingSsrcState) : t :=
  self <| state_by_incoming_ssrc ::= <[ssrc := s]> |>.

Section Endpoint.
Context `{Aead} `{HashMapOrder}.

(** ** Receiving *)

(** What [receive_rtp] remembers of a packet it accepts. *)
Definition remember_incoming (self : t) (incoming : Packet.t) (now : Z) : t :=
  let self :=
    if is_rtxable_payload_type (Packet.payload_type incoming) then
      let s := get_incoming_ssrc_state_mut self (Packet.ssrc incoming) now in
      set_incoming_ssrc_state self (Packet.ssrc incoming)
        (s <| nack_sender ::= fun n => Nack.remember_received n (Packet.seqnum incoming) |>)
    else self in
  let self :=
    if is_media_payload_type (Packet.payload_type incoming) then
      let s := get_incoming_ssrc_state_mut self (Packet.ssrc incoming) now in
      set_incoming_ssrc_state self (Packet.ssrc incoming)
        (s <| rtcp_report_sender ::= fun r =>
             RtcpReportSender.remember_received r (Packet.seqnum incoming)
               (Packet.payload_type incoming) (Packet.timestamp incoming) now |>)
    else self in
  match Packet.tcc_seqnum incoming with
  | Some tcc_seqnum =>
      self <| tcc_receiver ::= fun r => Receiver.remember_received r tcc_seqnum now |>
  | None => self
  end.

(** The original sequence number of a decrypted RTX packet; [None] when the
    payload is too short to hold one. *)
Definition unwrap_rtx (self : t) (header : Header.t) (incoming : Packet.t) (now : Z)
    : Res unit (t * option Packet.t) :=
  payload ← Packet.payload incoming;
  if is_rtx_payload_type (Header.payload_type header)
     && (Packet.padding_byte_count incoming <? Z.of_nat (length payload)) then
    let original_ssrc := from_rtx_ssrc (Header.ssrc header) in
    o ← ok_opt (read_u16 payload);
    match o with
    | None => Ok (self, None)
    | Some (seqnum_in_payload, _) =>
        let s := get_incoming_ssrc_state_mut self original_ssrc now in
        let '(original_seqnum, max) := expand_seqnum seqnum_in_payload (max_seqnum s) in
        Ok (set_incoming_ssrc_state self original_ssrc (s <| max_seqnum := max |>),
            Some (incoming <| Packet.seqnum_in_payload := Some original_seqnum |>))
    end
  else Ok (self, Some incoming).

(** The sequence numbers of a packet, before anything of it is authenticated:
    the transport-wide one, and the one in its header with the verdict of the
    duplicate detector. *)
Definition note_seqnums (self : t) (header : Header.t) (now : Z)
    : Res unit (t * option Z * Z * SequenceNumberReuse) :=
  let '(tcc_seqnum, max_tcc) :=
    match Header.tcc_seqnum header with
    | Some tcc_seqnum =>
        let '(full, max) := expand_seqnum tcc_seqnum (max_received_tcc_seqnum self) in
        (Some full, max)
    | None => (None, max_received_tcc_seqnum self)
    end in
  let self := self <| max_received_tcc_seqnum := max_tcc |> in
  let ssrc_state := get_incoming_ssrc_state_mut self (Header.ssrc header) now in
  let '(seqnum_in_header, max) := expand_seqnum (Header.seqnum header) (max_seqnum ssrc_state) in
  '(detector, reuse) ←
    SequenceNumberReuseDetector.remember_used (seqnum_reuse_detector ssrc_state) seqnum_in_header;
  Ok (set_incoming_ssrc_state self (Header.ssrc header)
        (ssrc_state <| max_seqnum := max |> <| seqnum_reuse_detector := detector |>),
      tcc_seqnum, seqnum_in_header, reuse).

(** The last byte of the payload counts the padding. *)
Definition read_padding (header : Header.t) (incoming : Packet.t) : Res unit Packet.t :=
  if Header.has_padding header then
    payload ← Packet.payload incoming;
    last ← idx payload (length payload - 1);
    Ok (incoming <| Packet.padding_byte_count := last |>)
  else Ok incoming.

Definition receive_rtp (self : t) (encrypted : bytes) (now : Z) : Res unit (t * option Packet.t) :=
  o ← ok_opt (Header.parse encrypted);
  match o with
  | None => Ok (self, None)
  | Some header =>
      '(self, tcc_seqnum, seqnum_in_header, reuse) ← note_seqnums self header now;
      match reuse with
      | UsedBefore | TooOldToKnow _ => Ok (self, None)
      | NotUsedBefore =>
          let incoming :=
            Packet.new header seqnum_in_header None false tcc_seqnum true
              (Some (now + PACKET_LIFETIME)) 0 encrypted in
          o ← ok_opt (Packet.decrypt_in_place incoming (key (rtp (decrypt self)))
                        (salt (rtp (decrypt self))));
          match o with
          | None => Ok (self, None)
          | Some incoming =>
              incoming ← read_padding header incoming;
              '(self, o) ← unwrap_rtx self header incoming now;
              match o with
              | None => Ok (self, None)
              | Some incoming => Ok (remember_incoming self incoming now, Some incoming)
              end
          end
      end
  end.

Record ProcessedControlPacket := processed {
  key_frame_requests : list Z;
  acks : list Ack;
  nacks : list Nack.t
}.

Definition remember_sender_report (self : t) (sender_report : SenderReport.t) (now : Z) : t :=
  let s := get_incoming_ssrc_state_mut self (SenderReport.ssrc sender_report) now in
  set_incoming_ssrc_state self (SenderReport.ssrc sender_report)
    (s <| rtcp_report_sender ::= fun r =>
         RtcpReportSender.remember_received_sender_report r sender_report now |>).

(** The body of the inner loop: reports on SSRCs that are not known are skipped. *)
Definition remember_report_block (self : t) (block : ReportBlock.t) (now : Z) : Res unit t :=
  match state_by_incoming_ssrc self !! ReportBlock.ssrc block with
  | None => Ok self
  | Some s =>
      r ← RtcpReportSender.remember_report_block (rtcp_report_sender s) block now;
      Ok (set_incoming_ssrc_state self (ReportBlock.ssrc block) (s <| rtcp_report_sender := r |>))
  end.

Fixpoint remember_report_blocks (self : t) (blocks : list ReportBlock.t) (now : Z) : Res unit t :=
  match blocks with
  | [] => Ok self
  | block :: blocks =>
      self ← remember_report_block self block now; remember_report_blocks self blocks now
  end.

Fixpoint remember_receiver_reports (self : t) (reports : list ReceiverReport.t) (now : Z)
    : Res unit t :=
  match reports with
  | [] => Ok self
  | rr :: reports =>
      self ←
        match state_by_incoming_ssrc self !! ReceiverReport.ssrc rr with
        | None => Ok self
        | Some _ => remember_report_blocks self (ReceiverReport.report_blocks rr) now
        end;
      remember_receiver_reports self reports now
  end.

Definition receive_rtcp (self : t) (encrypted : bytes) (now : Z)
    : Res unit (t * option ProcessedControlPacket) :=
  o ← ok_opt (ControlPacket.parse_and_decrypt_in_place encrypted (key (rtcp (decrypt self)))
                (salt (rtcp (decrypt self))));
  match o with
  | None => Ok (self, None)
  | Some incoming =>
      '(tcc_sender, acks) ←
        Sender.process_feedback_and_correlate_acks (tcc_sender self)
          (ControlPacket.tcc_feedbacks incoming) now;
      let self := self <| Endpoint.tcc_sender := tcc_sender |> in
      let self :=
        fold_left (fun self r => remember_sender_report self r now)
          (ControlPacket.sender_reports incoming) self in
      self ← remember_receiver_reports self (ControlPacket.receiver_reports incoming) now;
      Ok (self, Some (processed (ControlPacket.key_frame_requests incoming) acks
                                (ControlPacket.nacks incoming)))
  end.

(** ** Sending *)

Definition encrypt_and_send_rtp (self : t) (outgoing : Packet.t) (now : Z)
    : Res unit (t * option Packet.t) :=
  let self :=
    if is_rtxable_payload_type (Packet.payload_type outgoing)
    then self <| rtx_sender ::= fun r => Rtx.remember_sent r outgoing now |>
    else self in
  o ← ok_opt (Packet.encrypt_in_place outgoing (key (rtp (encrypt self))) (salt (rtp (encrypt self))));
  Ok (self, o).

Definition send_rtp (self : t) (incoming : Packet.t) (now : Z) : Res unit (t * option Packet.t) :=
  '(self, outgoing) ←
    (if Packet.is_rtx incoming then
       let '(seqnum, rtx) := Rtx.increment_seqnum (rtx_sender self) (Packet.ssrc_in_header incoming) in
       outgoing ← Packet.set_seqnum_in_header incoming seqnum;
       Ok (self <| rtx_sender := rtx |>, outgoing)
     else Ok (self, incoming));
  '(outgoing, tcc) ←
    Packet.set_tcc_seqnum_in_header_if_present outgoing Sender.increment_seqnum (tcc_sender self);
  encrypt_and_send_rtp (self <| tcc_sender := tcc |>) outgoing now.

Definition resend_rtp (self : t) (ssrc seqnum now : Z) : Res unit (t * option Packet.t) :=
  '(rtx_sender, tcc, o) ←
    Rtx.resend_as_rtx (rtx_sender self) ssrc seqnum now Sender.increment_seqnum (tcc_sender self);
  let self := self <| Endpoint.rtx_sender := rtx_sender |> <| tcc_sender := tcc |> in
  match o with
  | None => Ok (self, None)
  | Some rtx => encrypt_and_send_rtp self rtx now
  end.

Definition mark_as_sent (self : t) (ssrc seqnum : Z) : t :=
  self <| rtx_sender ::= fun r => Rtx.mark_as_sent r ssrc seqnum |>.

Definition send_padding (self : t) (rtx_ssrc now : Z) : Res unit (t * option Packet.t) :=
  let '(tcc_seqnum, tcc) := Sender.increment_seqnum (tcc_sender self) in
  '(rtx, padding) ← Rtx.send_padding (rtx_sender self) rtx_ssrc tcc_seqnum;
  encrypt_and_send_rtp (self <| tcc_sender := tcc |> <| rtx_sender := rtx |>) padding now.

Definition remember_sent_for_tcc (self : t) (outgoing : Packet.t) (now : Z) : t :=
  match Packet.tcc_seqnum outgoing with
  | Some tcc_seqnum =>
      self <| tcc_sender ::= fun s =>
        Sender.remember_sent s tcc_seqnum (DataRate.size_from_bytes (Packet.size outgoing)) now |>
  | None => self
  end.

Definition remember_sent_for_reports (self : t) (outgoing : Packet.t) (now : Z) : t :=
  if Packet.is_rtx outgoing || Packet.is_data outgoing then self
  else
    let s := get_incoming_ssrc_state_mut self (Packet.ssrc outgoing) now in
    set_incoming_ssrc_state self (Packet.ssrc outgoing)
      (s <| rtcp_report_sender ::= fun r => RtcpReportSender.remember_sent r outgoing now |>).

Definition remember_sent (self : t) (outgoing : Packet.t) (now : Z) : t :=
  remember_sent_for_reports (remember_sent_for_tcc self outgoing now) outgoing now.

Definition send_rtcp_and_increment_index {W} `{Writer W} (self : t) (pt count_or_format : Z)
    (is_padded : bool) (sender_ssrc : Z) (payload : W) : Res unit (t * option bytes) :=
  o ← ok_opt (ControlPacket.serialize_and_encrypt pt count_or_format is_padded sender_ssrc payload
                (next_outgoing_srtcp_index self) (key (rtcp (encrypt self))) (salt (rtcp (encrypt self))));
  Ok (match o with
      | Some serialized =>
          (self <| next_outgoing_srtcp_index ::= fun i => u32 (i + 1) |>, Some serialized)
      | None => (self, None)
      end).

Definition send_rtcp {W} `{Writer W} (self : t) (pt count_or_format : Z) (is_padded : bool)
    (payload : W) : Res unit (t * option bytes) :=
  send_rtcp_and_increment_index self pt count_or_format is_padded (rtcp_sender_ssrc self) payload.

(** [filter_map] over feedback messages *)
Fixpoint send_messages (self : t) (l : list Feedback.Message) : Res unit (t * list bytes) :=
  match l with
  | [] => Ok (self, [])
  | payload :: l =>
      '(self, o) ← send_rtcp self RTCP_TYPE_GENERIC_FEEDBACK RTCP_FORMAT_TRANSPORT_CC false payload;
      '(self, rest) ← send_messages self l;
      Ok (self, match o with Some b => b :: rest | None => rest end)
  end.

Definition send_acks (self : t) : Res unit (t * list bytes) :=
  '(receiver, messages) ← Receiver.send_acks (tcc_receiver self);
  send_messages (self <| tcc_receiver := receiver |>) messages.

(** The closure of [send_nacks] on one SSRC. *)
Definition send_nack (self : t) (ssrc now rtt : Z) (state : IncomingSsrcState)
    : Res unit (t * option bytes) :=
  '(nack_sender, seqnums) ← Nack.send_nacks (nack_sender state) now rtt;
  let self := set_incoming_ssrc_state self ssrc (state <| Endpoint.nack_sender := nack_sender |>) in
  match seqnums with
  | None => Ok (self, None)
  | Some seqnums =>
      payload ← Nack.write_nack ssrc seqnums;
      send_rtcp self RTCP_TYPE_GENERIC_FEEDBACK RTCP_FORMAT_NACK false payload
  end.

Fixpoint send_nacks_of (self : t) (now rtt : Z) (l : list (Z * IncomingSsrcState))
    : Res unit (t * list bytes) :=
  match l with
  | [] => Ok (self, [])
  | (ssrc, state) :: l =>
      '(self, o) ← send_nack self ssrc now rtt state;
      '(self, rest) ← send_nacks_of self now rtt l;
      Ok (self, match o with Some b => b :: rest | None => rest end)
  end.

Definition send_nacks (self : t) (now rtt : Z) : Res unit (t * list bytes) :=
  send_nacks_of self now rtt (entries (state_by_incoming_ssrc self)).

Definition send_pli (self : t) (pli_ssrc : Z) : Res unit (t * option bytes) :=
  send_rtcp self RTCP_TYPE_SPECIFIC_FEEDBACK RTCP_FORMAT_PLI false (w32 pli_ssrc).

(** [SenderReport::MIN_LENGTH], [RECEIVER_REPORT_MIN_LENGTH] *)
Definition SENDER_REPORT_MIN_LENGTH : nat := RtcpHeader.LENGTH + SenderInfo.SENDER_INFO_LENGTH.
Definition RECEIVER_REPORT_MIN_LENGTH : nat :=
  RtcpHeader.LENGTH + ReceiverReport.SSRC_LENGTH + ReportBlock.LENGTH.

(** The capacity of the buffer, which [with_capacity] allocates exactly. *)
Definition create_buffer_for_rtcp_reports (self : t) : option nat :=
  let expected_report_size :=
    fold_left (fun total_bytes '(_, state) =>
      match RtcpReportSender.rtcp_report_payload_type (rtcp_report_sender state) with
      | Some pt =>
          if pt =? RTCP_TYPE_SENDER_REPORT then (total_bytes + SENDER_REPORT_MIN_LENGTH)%nat
          else if pt =? RTCP_TYPE_RECEIVER_REPORT then (total_bytes + RECEIVER_REPORT_MIN_LENGTH)%nat
          else total_bytes
      | None => total_bytes
      end) (entries (state_by_incoming_ssrc self)) 0%nat in
  if (expected_report_size =? 0)%nat then None
  else Some (expected_report_size + SRTP_AUTH_TAG_LEN + SRTCP_FOOTER_LEN)%nat.

(** The loop of [send_rtcp_report]: the first SSRC that reports, and the buffer. *)
Fixpoint write_reports (self : t) (now : Z) (l : list (Z * IncomingSsrcState))
    (first_ssrc : option Z) (report_buffer : bytes) : Res unit (t * option Z * bytes) :=
  match l with
  | [] => Ok (self, first_ssrc, report_buffer)
  | (ssrc, state) :: l =>
      '(r, block_buffer, o) ←
        RtcpReportSender.write_report_block_in_place (rtcp_report_sender state) ssrc now [];
      let self := set_incoming_ssrc_state self ssrc (state <| rtcp_report_sender := r |>) in
      match o with
      | None => write_reports self now l first_ssrc report_buffer
      | Some (payload_type, block_count, report_length) =>
          let header :=
            RtcpHeader.mk false block_count payload_type
              (u16 (Z.shiftr (Z.of_nat report_length) 2)) in
          block ← slice_to report_length block_buffer;
          write_reports self now l
            (match first_ssrc with Some s => Some s | None => Some ssrc end)
            (write block (write header report_buffer))
      end
  end.

Definition encrypt_rtcp_packet_and_increment_index (self : t) (sender_ssrc : Z) (packet : bytes)
    : Res unit (t * option bytes) :=
  o ← ok_opt (ControlPacket.encrypt packet sender_ssrc (next_outgoing_srtcp_index self)
                (key (rtcp (encrypt self))) (salt (rtcp (encrypt self))));
  Ok (match o with
      | Some encrypted =>
          (self <| next_outgoing_srtcp_index ::= fun i => u32 (i + 1) |>, Some encrypted)
      | None => (self, None)
      end).

Definition send_rtcp_report (self : t) (now : Z) : Res unit (t * option bytes) :=
  match create_buffer_for_rtcp_reports self with
  | None => Ok (self, None)
  | Some capacity =>
      '(self, first_ssrc, report_buffer) ←
        write_reports self now (entries (state_by_incoming_ssrc self)) None [];
      let report_buffer :=
        take capacity report_buffer ++ replicate (capacity - length report_buffer) 0 in
      encrypt_rtcp_packet_and_increment_index self (default 0 first_ssrc) report_buffer
  end.

(** ** Statistics *)

Definition calculate_rtt (self : t) (now : Z) : option Z :=
  let '(count, sum) :=
    fold_left (fun '(count, sum) '(_, ssrc_state) =>
      match RtcpReportSender.rtt_estimate (rtcp_report_sender ssrc_state) with
      | Some (estimate, last_updated) =>
          if RTT_ESTIMATE_AGE_LIMIT <=? Duration.saturating_duration_since now last_updated
          then (count, sum) else (count + 1, sum + estimate)
      | None => (count, sum)
      end) (entries (state_by_incoming_ssrc self)) (0, 0) in
  if negb (count =? 0) then Some (sum / count) else None.

Definition update_stats (self : t) (now : Z) : t * EndpointStats :=
  let '(remembered_packet_count, remembered_packet_bytes) :=
    Rtx.remembered_packet_stats (rtx_sender self) in
  let s := stats remembered_packet_count remembered_packet_bytes (calculate_rtt self now) in
  (self <| last_stats := Some s |> <| last_stats_calculated_time := now |>, s).

Definition get_or_update_stats (self : t) (now : Z) : t * EndpointStats :=
  match last_stats self with
  | Some s =>
      if Duration.saturating_duration_since now (last_stats_calculated_time self)
         <? RTT_ESTIMATE_AGE_LIMIT then (self, s)
      else update_stats self now
  | None => update_stats self now
  end.

End Endpoint.

End Endpoint.

(** * Theorems *)

Module EndpointFacts.
Import Endpoint SequenceNumberReuseDetector(NotUsedBefore, UsedBefore, TooOldToKnow).
Import SequenceNumberReuseDetectorFacts(window_of) SerializeFacts.
#[local] Existing Instance FeedbackFacts.message_laws.

Lemma expand_uint w truncated max : 0 < w <= 64 ->
  uint 64 (Counters.expand_truncated_counter w truncated max).1.
Proof.
  intros Hw. unfold Counters.expand_truncated_counter. cbn [fst].
  apply uint_lor; [lia|apply wrap_uint; lia|]. rewrite Z.shiftl_1_l, land_ones_mod by lia.
  unfold wrap, uint. pose proof (Z.mod_pos_bound truncated (2 ^ w) ltac:(lia)).
  assert (2 ^ w <= 2 ^ 64) by (apply Z.pow_le_mono_r; lia). lia.
Qed.

(** ** Duplicate detectors *)

Definition detector (self : t) (ssrc : Z) : SequenceNumberReuseDetector.t :=
  match state_by_incoming_ssrc self !! ssrc with
  | Some s => seqnum_reuse_detector s
  | None => SequenceNumberReuseDetector.default
  end.

(** Every detector agrees with what was [seen] on its SSRC. *)
Definition windows (self : t) (seen : Z -> Z -> Prop) : Prop :=
  forall ssrc, window_of (detector self ssrc) (seen ssrc).

Lemma detector_get self ssrc now :
  seqnum_reuse_detector (get_incoming_ssrc_state_mut self ssrc now) = detector self ssrc.
Proof. unfold get_incoming_ssrc_state_mut, detector. by destruct (_ !! ssrc). Qed.

Lemma detector_set self ssrc s k :
  detector (set_incoming_ssrc_state self ssrc s) k =
    if decide (k = ssrc) then seqnum_reuse_detector s else detector self k.
Proof.
  unfold detector, set_incoming_ssrc_state. cbn. destruct (decide (k = ssrc)) as [->|].
  - by rewrite lookup_insert_eq.
  - by rewrite lookup_insert_ne.
Qed.

(** Operations that leave the detectors and the SRTCP index alone. *)
Record quiet (self self' : t) : Prop := {
  quiet_detector : forall k, detector self' k = detector self k;
  quiet_index : next_outgoing_srtcp_index self' = next_outgoing_srtcp_index self;
  quiet_ssrc : rtcp_sender_ssrc self' = rtcp_sender_ssrc self;
  quiet_keys : encrypt self' = encrypt self /\ decrypt self' = decrypt self
}.

Lemma quiet_refl self : quiet self self.
Proof. done. Qed.

Lemma quiet_trans a b c : quiet a b -> quiet b c -> quiet a c.
Proof.
  intros [A1 A2 A3 [A4 A5]] [B1 B2 B3 [B4 B5]]. split; [|congruence..|split; congruence].
  intros k. by rewrite B1, A1.
Qed.

Lemma quiet_set self ssrc s : seqnum_reuse_detector s = detector self ssrc ->
  quiet self (set_incoming_ssrc_state self ssrc s).
Proof.
  intros E. split; [|done..]. intros k. rewrite detector_set. by destruct (decide (k = ssrc)) as [->|].
Qed.

Lemma quiet_windows self self' seen : quiet self self' -> windows self seen -> windows self' seen.
Proof. intros [Hq _ _ _] Hw k. rewrite Hq. apply Hw. Qed.

#[local] Hint Resolve quiet_refl : core.

Ltac quiet_set := apply quiet_set; cbn; apply detector_get.

Section Endpoint.
Context `{AeadLaws} `{HashMapOrder}.

Lemma remember_incoming_quiet self p now : quiet self (remember_incoming self p now).
Proof.
  unfold remember_incoming.
  set (a := if is_rtxable_payload_type _ then _ else self).
  assert (quiet self a) as Ha by (unfold a; case_if; [quiet_set|done]).
  set (b := if is_media_payload_type _ then _ else a).
  assert (quiet a b) as Hb by (unfold b; case_if; [quiet_set|done]).
  apply (quiet_trans _ _ _ Ha), (quiet_trans _ _ _ Hb). clearbody b. by destruct (Packet.tcc_seqnum p).
Qed.

(** Decryption either refuses or replaces the payload by one of its length. *)
Lemma decrypt_in_place_cases p key salt : PacketFacts.cipher_parts p -> Packet.encrypted p = true ->
  Packet.decrypt_in_place p key salt = Err tt \/
  exists text, length text = ((Packet.payload_range_in_header p).2 - (Packet.payload_range_in_header p).1)%nat /\
    (bytes_ok (Packet.serialized p) -> bytes_ok text) /\
    Packet.decrypt_in_place p key salt =
      Ok (p <| Packet.serialized := take (Packet.payload_range_in_header p).1 (Packet.serialized p) ++ text
                 ++ drop (Packet.payload_range_in_header p).2 (Packet.serialized p) |>
            <| Packet.encrypted := false |>).
Proof.
  intros Hp He. pose proof Hp as Hp'. unfold Packet.decrypt_in_place. rewrite He. cbn [assert_].
  rewrite mbind_Ok, PacketFacts.prepare_ok, mbind_Ok by done.
  unfold PacketFacts.cipher_parts in Hp'. destruct (Packet.payload_range_in_header p) as [a e]. cbn [fst snd].
  destruct Hp' as [Hae Hl]. unfold SRTP_AUTH_TAG_LEN in *.
  assert (length (drop e (Packet.serialized p)) = 16%nat) as -> by (rewrite length_drop; lia).
  cbn [Nat.eqb assert_]. rewrite mbind_Ok.
  destruct (open _ _ _ _ _) as [text|] eqn:Eo; [|by left].
  right. exists text. split; [|split; [|done]].
  - rewrite (open_length _ _ _ _ _ _ Eo), PacketFacts.length_sub; [done|lia].
  - intros Hb. eapply open_bytes; [|exact Eo]. by apply Forall_take, Forall_drop.
Qed.

(** The original number of an RTX packet is read without a panic. *)
Lemma unwrap_rtx_ok self header p now a e :
  Packet.seqnum_in_payload p = None -> Packet.payload_range_in_header p = (a, e) ->
  (a <= e <= length (Packet.serialized p))%nat ->
  exists self' o, unwrap_rtx self header p now = Ok (self', o) /\ quiet self self' /\
    match o with
    | Some p' => Packet.ssrc_in_header p' = Packet.ssrc_in_header p /\
                 Packet.seqnum_in_header p' = Packet.seqnum_in_header p
    | None => True
    end.
Proof.
  intros Hn Hr Hl. unfold unwrap_rtx.
  assert (exists payload, Packet.payload p = Ok payload) as [payload ->].
  { unfold Packet.payload, Packet.payload_range, Packet.is_rtx. rewrite Hn, Hr. cbn [fst snd].
    rewrite slice_no_panic by lia. by eexists. }
  rewrite mbind_Ok. case_if; [|by exists self, (Some p)].
  pose proof (ReadFacts.read_u16_no_panic payload).
  destruct (read_u16 payload) as [[s rest]| |]; [| |done].
  - cbn [ok_opt]. rewrite mbind_Ok.
    destruct (expand_seqnum s _) as [full max]. eexists _, _. split; [reflexivity|]. split; [quiet_set|done].
  - exists self, None. done.
Qed.

(** The detectors after a packet is noted, and what its verdict means. *)
Lemma note_seqnums_ok self header now seen : windows self seen ->
  exists self' tcc s reuse seen',
    note_seqnums self header now = Ok (self', tcc, s, reuse) /\ windows self' seen' /\
    (forall k x, seen k x -> seen' k x) /\
    next_outgoing_srtcp_index self' = next_outgoing_srtcp_index self /\
    (reuse = NotUsedBefore -> ~ seen (Header.ssrc header) s /\ seen' (Header.ssrc header) s).
Proof.
  intros Hw. unfold note_seqnums.
  destruct (match Header.tcc_seqnum header with Some _ => _ | None => _ end) as [tcc max_tcc].
  set (self1 := self <| max_received_tcc_seqnum := max_tcc |>).
  assert (quiet self self1) as Q1 by done. set (ssrc := Header.ssrc header).
  pose proof (detector_get self1 ssrc now) as Ed.
  set (st := get_incoming_ssrc_state_mut self1 ssrc now) in *. cbn zeta.
  pose proof (expand_uint 16 (Header.seqnum header) (max_seqnum st) ltac:(lia)) as Hs.
  unfold expand_seqnum.
  destruct (Counters.expand_truncated_counter 16 (Header.seqnum header) (max_seqnum st)) as [s max]. cbn in Hs.
  pose proof (quiet_windows _ _ _ Q1 Hw ssrc) as Hw1. rewrite <- Ed in Hw1.
  destruct (SequenceNumberReuseDetectorFacts.remember_used_window _ _ s Hw1 Hs) as (d' & r & -> & Hold & Hnew).
  rewrite mbind_Ok. set (self2 := set_incoming_ssrc_state self1 ssrc _).
  assert (forall k, detector self2 k = if decide (k = ssrc) then d' else detector self k) as Hd2.
  { intros k. unfold self2. rewrite detector_set. by destruct (decide (k = ssrc)). }
  set (first := SequenceNumberReuseDetector.first (seqnum_reuse_detector st)) in *.
  exists self2, tcc, s, r, (fun k x => (k = ssrc /\ x = s /\ first <= s) \/ seen k x).
  split_and!; [done| |by auto|done|].
  - intros k. rewrite Hd2. destruct (decide (k = ssrc)) as [->|Hk].
    + destruct (Z.lt_ge_cases s first) as [Hlt|Hge].
      * destruct (Hold Hlt) as [-> _]. eapply SequenceNumberReuseDetectorFacts.window_ext; [|exact Hw1].
        intros x. cbn. intuition lia.
      * destruct (Hnew Hge) as (Hw' & _). eapply SequenceNumberReuseDetectorFacts.window_ext; [|exact Hw'].
        intros x. cbn. tauto.
    + eapply SequenceNumberReuseDetectorFacts.window_ext; [|exact (Hw k)]. intros x. cbn. tauto.
  - intros ->. destruct (Z.lt_ge_cases s first) as [Hlt|Hge]; [by destruct (Hold Hlt)|].
    split; [|by auto]. intros Hx. destruct (Hnew Hge) as (_ & _ & Hu & _). by specialize (Hu Hx).
Qed.

(** A decrypted packet has a payload, which is not empty if there is padding. *)
Lemma read_padding_ok header p a e : Packet.seqnum_in_payload p = None ->
  Packet.payload_range_in_header p = (a, e) -> (a <= e <= length (Packet.serialized p))%nat ->
  (Header.has_padding header = true -> (a < e)%nat) ->
  exists n, read_padding header p = Ok (p <| Packet.padding_byte_count := n |>).
Proof.
  intros Hn Hr Hl Hpad. unfold read_padding. destruct (Header.has_padding header).
  - specialize (Hpad eq_refl). unfold Packet.payload, Packet.payload_range, Packet.is_rtx. rewrite Hn, Hr.
    cbn [fst snd]. rewrite slice_no_panic, mbind_Ok by lia. set (payload := take _ _).
    destruct (lookup_lt_is_Some_2 payload (length payload - 1)) as [x Hx].
    { unfold payload. rewrite length_take, length_drop. lia. }
    unfold idx. rewrite Hx. by exists x.
  - exists (Packet.padding_byte_count p). by destruct p.
Qed.

Lemma receive_rtp_ok self b now seen :
  bytes_ok b -> windows self seen ->
  exists self' o seen',
    receive_rtp self b now = Ok (self', o) /\ windows self' seen' /\
    (forall k x, seen k x -> seen' k x) /\
    next_outgoing_srtcp_index self' = next_outgoing_srtcp_index self /\
    match o with
    | Some p =>
        ~ seen (Packet.ssrc_in_header p) (Packet.seqnum_in_header p) /\
        seen' (Packet.ssrc_in_header p) (Packet.seqnum_in_header p)
    | None => True
    end.
Proof.
  intros Hb Hw. unfold receive_rtp. pose proof (HeaderFacts.parse_ok b Hb) as Hp.
  destruct (Header.parse b) as [header| |]; [| |done]; cbn [ok_opt]; rewrite mbind_Ok;
    [|by exists self, None, seen].
  destruct (note_seqnums_ok self header now seen Hw) as (self2 & tcc & s & r & seen' & -> & Hw2 & Hsub & Hi & Hr).
  rewrite mbind_Ok.
  destruct r as [| |delta]; [by exists self2, None, seen'| |by exists self2, None, seen'].
  destruct (Hr eq_refl) as [Hfresh Hseen].
  set (incoming := Packet.new header s None false tcc true _ 0 b).
  pose proof (PacketFacts.new_packet_wf b header s false tcc true (Some (now + PACKET_LIFETIME)) 0 Hb Hp) as Hwf.
  fold incoming in Hwf. pose proof (PacketFacts.wf_cipher_parts _ Hwf) as Hc.
  destruct Hp as [_ _ Hpad _ _ _ _ _ _ _ _].
  destruct (decrypt_in_place_cases incoming (key (rtp (decrypt self2))) (salt (rtp (decrypt self2))) Hc eq_refl)
    as [->|(text & Htext & _ & ->)]; cbn [ok_opt]; rewrite mbind_Ok; [by exists self2, None, seen'|].
  set (p := incoming <| Packet.serialized := _ |> <| Packet.encrypted := false |>).
  destruct (Packet.payload_range_in_header incoming) as [a e] eqn:Er.
  assert (Header.payload_range header = (a, e)) as Eh by exact Er. rewrite Eh in Hpad. cbn [fst snd] in *.
  unfold PacketFacts.cipher_parts in Hc. rewrite Er in Hc. destruct Hc as [Hae Hlb].
  assert (length (Packet.serialized p) = length (Packet.serialized incoming)) as Hlen.
  { unfold p. cbn. rewrite !length_app, length_take, length_drop, Htext.
    unfold SRTP_AUTH_TAG_LEN in *. cbn in *. lia. }
  destruct (read_padding_ok header p a e eq_refl Er ltac:(rewrite Hlen; lia) Hpad) as [n ->].
  rewrite mbind_Ok.
  destruct (unwrap_rtx_ok self2 header (p <| Packet.padding_byte_count := n |>) now a e ltac:(done) ltac:(exact Er)
    ltac:(change (Packet.serialized (p <| Packet.padding_byte_count := n |>)) with (Packet.serialized p);
          rewrite Hlen; lia)) as (self3 & o & -> & Q3 & Ho).
  rewrite mbind_Ok. destruct o as [q|].
  - pose proof (remember_incoming_quiet self3 q now) as Q4. destruct Ho as [Es Eq].
    exists (remember_incoming self3 q now), (Some q), seen'. split_and!; [done| |done| |by rewrite Es, Eq..].
    + by apply (quiet_windows self3), (quiet_windows self2).
    + rewrite (quiet_index _ _ Q4), (quiet_index _ _ Q3). done.
  - exists self3, None, seen'. split_and!; try done; [by apply (quiet_windows self2)|].
    by rewrite (quiet_index _ _ Q3).
Qed.

(** What is received is a well-formed packet in the clear. *)
Lemma unwrap_rtx_wf self header p now self' q : PacketFacts.wf p -> Packet.seqnum_in_payload p = None ->
  unwrap_rtx self header p now = Ok (self', Some q) ->
  PacketFacts.wf q /\ Packet.encrypted q = Packet.encrypted p.
Proof.
  intros Hwf Hn E. unfold unwrap_rtx in E. rewrite PacketFacts.payload_sub, mbind_Ok in E by done.
  case_if_in E; [|by injection E as _ <-].
  match type of E with context [read_u16 ?l] => set (payload := l) in E end.
  destruct (read_u16 payload) as [[s rest]| |] eqn:Er; [|done..]. cbn [ok_opt] in E. rewrite mbind_Ok in E.
  destruct (expand_seqnum s _) as [full max]. injection E as _ <-. split; [|done].
  assert (2 <= length payload)%nat as Hlen by (destruct payload as [|? [|]]; [done|done|cbn; lia]). clear Er.
  destruct Hwf. unfold payload in Hlen. rewrite PacketFacts.length_sub in Hlen.
  2: { unfold SRTP_AUTH_TAG_LEN in *. lia. }
  rewrite PacketFacts.payload_range_1, PacketFacts.payload_range_2 in *. unfold Packet.is_rtx in *. rewrite Hn in *.
  cbn [bool_decide is_Some] in *. split; try done;
    rewrite ?PacketFacts.payload_range_1, ?PacketFacts.payload_range_2; unfold Packet.is_rtx; cbn in *; lia.
Qed.

Lemma receive_rtp_wf self b now self' p : bytes_ok b -> receive_rtp self b now = Ok (self', Some p) ->
  PacketFacts.wf p /\ Packet.encrypted p = false.
Proof.
  intros Hb E. unfold receive_rtp in E. pose proof (HeaderFacts.parse_ok b Hb) as Hp.
  destruct (Header.parse b) as [header| |]; [| |done]; cbn [ok_opt] in E; rewrite mbind_Ok in E; [|done].
  apply bind_Ok in E as ([[[s1 tcc] s] reuse] & _ & E). destruct reuse; [done| |done].
  set (incoming := Packet.new header s None false tcc true _ 0 b) in E.
  pose proof (PacketFacts.new_packet_wf b header s false tcc true (Some (now + PACKET_LIFETIME)) 0 Hb Hp) as Hwf.
  fold incoming in Hwf. pose proof (PacketFacts.wf_cipher_parts _ Hwf) as Hc.
  destruct (decrypt_in_place_cases incoming (key (rtp (decrypt s1))) (salt (rtp (decrypt s1))) Hc eq_refl)
    as [Ed|(text & Htext & Hbytes & Ed)]; rewrite Ed in E; cbn [ok_opt] in E; rewrite mbind_Ok in E; [done|].
  apply bind_Ok in E as (q & Eq & E). apply bind_Ok in E as ([s2 o] & Eu & E).
  destruct o as [r|]; [|done]. injection E as _ <-.
  set (l := take _ _ ++ text ++ _) in Eq.
  assert (PacketFacts.wf q /\ Packet.seqnum_in_payload q = None /\ Packet.encrypted q = false) as (Hq & Hn & He).
  { assert (PacketFacts.wf (incoming <| Packet.serialized := l |>)) as [].
    { destruct (Packet.payload_range_in_header incoming) as [a e] eqn:Er. unfold PacketFacts.cipher_parts in Hc.
      rewrite Er in Hc. destruct Hc as [Hae Hlen]. unfold SRTP_AUTH_TAG_LEN in *. cbn [fst snd] in *.
      apply PacketFacts.serialized_wf; [done| |].
      - unfold l, bytes_ok. rewrite !Forall_app. split_and!; [by apply Forall_take|by apply Hbytes, Hb|by apply Forall_drop].
      - unfold l. rewrite !length_app, length_take, length_drop, Htext. lia. }
    unfold read_padding in Eq. case_if_in Eq.
    - apply bind_Ok in Eq as (payload & _ & Eq). apply bind_Ok in Eq as (n & _ & [= <-]). by split_and!.
    - injection Eq as <-. by split_and!. }
  destruct (unwrap_rtx_wf _ _ _ _ _ _ Hq Hn Eu) as [? ?]. split; [done|congruence].
Qed.

(** ** Sending *)

(** The SRTCP index that a packet carries in its last four bytes. *)
Definition srtcp_index (packet : bytes) : Z :=
  be_val (drop (length packet - 4) packet) - 2 ^ 31.

(** The packets sent carry the next indices, in order. *)
Record emits (self self' : t) (outs : list bytes) : Prop := {
  emits_detector : forall k, detector self' k = detector self k;
  emits_index : next_outgoing_srtcp_index self' = next_outgoing_srtcp_index self + Z.of_nat (length outs);
  emits_outs : map srtcp_index outs = seqZ (next_outgoing_srtcp_index self) (Z.of_nat (length outs));
  emits_bound : 0 <= next_outgoing_srtcp_index self <= 2 ^ 31 -> next_outgoing_srtcp_index self' <= 2 ^ 31
}.

Lemma quiet_emits self self' : quiet self self' -> emits self self' [].
Proof. intros [Hd Hi _ _]. split; simpl; [done|lia|by rewrite seqZ_nil|lia]. Qed.

Lemma emits_trans a b c o1 o2 : emits a b o1 -> emits b c o2 -> emits a c (o1 ++ o2).
Proof.
  intros [A1 A2 A3 A4] [B1 B2 B3 B4]. split.
  - intros k. by rewrite B1, A1.
  - rewrite length_app. lia.
  - rewrite map_app, A3, B3, A2, length_app, Nat2Z.inj_add. symmetry. apply seqZ_app; lia.
  - intros Hb. specialize (A4 Hb). apply B4. lia.
Qed.

Definition opt_list {A} (o : option A) : list A := match o with Some x => [x] | None => [] end.

Lemma encrypted_index packet ssrc index key salt b : (28 <= length packet)%nat -> 0 <= index ->
  ControlPacket.encrypt packet ssrc index key salt = Ok b -> index < 2 ^ 31 /\ srtcp_index b = index.
Proof.
  intros Hl Hi E. destruct (RtcpFacts.encrypt_cases packet ssrc index key salt Hl) as [E'|(b' & E' & Hb & _ & Hf)];
    rewrite E in E'; [done|]. injection E' as <-. split; [done|].
  unfold srtcp_index. rewrite Hf. destruct (RtcpFacts.footer_value index ltac:(lia)) as [-> _]. lia.
Qed.

Lemma emit_one self i : next_outgoing_srtcp_index self = i -> 0 <= i < 2 ^ 31 -> forall b, srtcp_index b = i ->
  emits self (self <| next_outgoing_srtcp_index ::= fun i => u32 (i + 1) |>) [b].
Proof.
  intros Ei Hi b Hb. split; cbn.
  - done.
  - rewrite Ei. apply wrap_small. unfold uint. lia.
  - by rewrite Hb, Ei.
  - intros _. rewrite Ei. unfold u32. rewrite wrap_small; [lia|unfold uint; lia].
Qed.

Lemma send_rtcp_emits {W} `{WriterLaws W} self pt fmt (payload : W) :
  0 <= next_outgoing_srtcp_index self ->
  exists self' o, send_rtcp self pt fmt false payload = Ok (self', o) /\ emits self self' (opt_list o).
Proof.
  intros Hi. unfold send_rtcp, send_rtcp_and_increment_index.
  rewrite RtcpFacts.serialize_parts.
  set (packet := _ ++ _ ++ _ ++ _).
  assert (28 <= length packet)%nat as Hl.
  { unfold packet, RtcpFacts.wire_header. rewrite !length_app, !length_be_bytes, !length_replicate. simpl. lia. }
  destruct (RtcpFacts.encrypt_cases packet (rtcp_sender_ssrc self) (next_outgoing_srtcp_index self)
    (key (rtcp (encrypt self))) (salt (rtcp (encrypt self))) Hl) as [E|(b & E & _)]; rewrite E; cbn [ok_opt];
    rewrite mbind_Ok; do 2 eexists; (split; [reflexivity|]).
  - by apply quiet_emits.
  - destruct (encrypted_index _ _ _ _ _ _ Hl Hi E). apply (emit_one self (next_outgoing_srtcp_index self)); done.
Qed.

Lemma emits_nonneg a b o : emits a b o -> 0 <= next_outgoing_srtcp_index a -> 0 <= next_outgoing_srtcp_index b.
Proof. intros [_ E _ _] ?. lia. Qed.

Lemma send_messages_emits l : forall self, 0 <= next_outgoing_srtcp_index self ->
  exists self' outs, send_messages self l = Ok (self', outs) /\ emits self self' outs.
Proof.
  induction l as [|m l IH]; intros self Hi; cbn [send_messages].
  - exists self, []. split; [done|by apply quiet_emits].
  - destruct (send_rtcp_emits self RTCP_TYPE_GENERIC_FEEDBACK RTCP_FORMAT_TRANSPORT_CC m Hi) as (s1 & o & -> & E1).
    rewrite mbind_Ok. destruct (IH s1 (emits_nonneg _ _ _ E1 Hi)) as (s2 & outs & -> & E2).
    rewrite mbind_Ok. exists s2, (opt_list o ++ outs). split; [by destruct o|by apply (emits_trans _ s1)].
Qed.

Lemma send_acks_emits self self' outs : 0 <= next_outgoing_srtcp_index self ->
  send_acks self = Ok (self', outs) -> emits self self' outs.
Proof.
  intros Hi Hs. unfold send_acks in Hs. apply bind_Ok in Hs as ([r ms] & _ & Hs).
  match type of Hs with send_messages ?s1 _ = _ =>
    destruct (send_messages_emits ms s1 Hi) as (s & o & E & He) end.
  pose proof (eq_trans (eq_sym E) Hs) as [= <- <-]. by destruct He.
Qed.

Lemma send_nack_emits self ssrc now rtt state self' o : 0 <= next_outgoing_srtcp_index self ->
  seqnum_reuse_detector state = detector self ssrc ->
  send_nack self ssrc now rtt state = Ok (self', o) -> emits self self' (opt_list o).
Proof.
  intros Hi Hd Hs. unfold send_nack in Hs. apply bind_Ok in Hs as ([ns seqnums] & _ & Hs).
  set (self1 := set_incoming_ssrc_state self ssrc _) in Hs.
  assert (quiet self self1) as Q by (apply quiet_set; done).
  destruct seqnums as [seqnums|]; [|injection Hs as <- <-; by apply quiet_emits].
  apply bind_Ok in Hs as (payload & _ & Hs).
  destruct (send_rtcp_emits self1 RTCP_TYPE_GENERIC_FEEDBACK RTCP_FORMAT_NACK payload Hi) as (s & o' & E & He).
  pose proof (eq_trans (eq_sym E) Hs) as [= <- <-]. change (opt_list o') with ([] ++ opt_list o').
  eapply emits_trans; [by apply quiet_emits|done].
Qed.

Lemma send_nacks_of_emits now rtt l : forall self self' outs, 0 <= next_outgoing_srtcp_index self ->
  Forall (fun e => seqnum_reuse_detector e.2 = detector self e.1) l ->
  send_nacks_of self now rtt l = Ok (self', outs) -> emits self self' outs.
Proof.
  induction l as [|[ssrc state] l IH]; intros self self' outs Hi Hl Hs; cbn [send_nacks_of] in Hs.
  - injection Hs as <- <-. by apply quiet_emits.
  - inversion_clear Hl as [|? ? Hd Hl']. apply bind_Ok in Hs as ([s1 o] & E1 & Hs).
    apply bind_Ok in Hs as ([s2 rest] & E2 & Hs). injection Hs as <- <-.
    pose proof (send_nack_emits _ _ _ _ _ _ _ Hi Hd E1) as He.
    assert (emits s1 s2 rest) as He2.
    { apply (IH s1); [by eapply emits_nonneg| |done]. eapply Forall_impl; [exact Hl'|].
      intros [k st] Hk. cbn in *. by rewrite (emits_detector _ _ _ He). }
    pose proof (emits_trans _ _ _ _ _ He He2). by destruct o.
Qed.

Lemma entries_detector self :
  Forall (fun e => seqnum_reuse_detector e.2 = detector self e.1) (entries (state_by_incoming_ssrc self)).
Proof.
  rewrite entries_perm. apply Forall_forall. intros [k st] Hk%elem_of_map_to_list.
  unfold detector. cbn. by rewrite Hk.
Qed.

Lemma write_reports_quiet now l : forall self first buffer self' first' buffer',
  Forall (fun e => seqnum_reuse_detector e.2 = detector self e.1) l ->
  write_reports self now l first buffer = Ok (self', first', buffer') -> quiet self self'.
Proof.
  induction l as [|[ssrc state] l IH]; intros self first buffer self' first' buffer' Hl Hs;
    cbn [write_reports] in Hs.
  - by injection Hs as <- _ _.
  - inversion_clear Hl as [|? ? Hd Hl']. apply bind_Ok in Hs as ([[r block] o] & _ & Hs).
    set (self1 := set_incoming_ssrc_state self ssrc _) in Hs.
    assert (quiet self self1) as Q by (apply quiet_set; done). apply (quiet_trans _ _ _ Q).
    assert (Forall (fun e => seqnum_reuse_detector e.2 = detector self1 e.1) l) as Hl1.
    { eapply Forall_impl; [exact Hl'|]. intros [k st] Hk. by rewrite (quiet_detector _ _ Q). }
    destruct o as [[[pt count] len]|]; [apply bind_Ok in Hs as (b & _ & Hs)|]; by eapply IH.
Qed.

Lemma report_capacity self capacity : create_buffer_for_rtcp_reports self = Some capacity ->
  (48 <= capacity)%nat.
Proof.
  unfold create_buffer_for_rtcp_reports. generalize (entries (state_by_incoming_ssrc self)). intros l.
  match goal with |- context [fold_left ?f l 0%nat] => assert (forall n, n = 0%nat \/ (28 <= n)%nat ->
    fold_left f l n = 0%nat \/ (28 <= fold_left f l n)%nat) as Hf end.
  { induction l as [|[k st] l IH]; intros n Hn; [done|]. cbn [fold_left]. apply IH.
    unfold SENDER_REPORT_MIN_LENGTH, RECEIVER_REPORT_MIN_LENGTH, RtcpHeader.LENGTH, SenderInfo.SENDER_INFO_LENGTH,
      ReceiverReport.SSRC_LENGTH, ReportBlock.LENGTH.
    destruct (RtcpReportSender.rtcp_report_payload_type _); [repeat case_if|]; lia. }
  specialize (Hf 0%nat ltac:(by left)).
  match goal with |- context [fold_left ?f l 0%nat] => set (n := fold_left f l 0%nat) in * end.
  destruct (Nat.eqb_spec n 0); [done|].
  intros [= <-]. unfold SRTP_AUTH_TAG_LEN, SRTCP_FOOTER_LEN. lia.
Qed.

Lemma send_rtcp_report_emits self now self' o : 0 <= next_outgoing_srtcp_index self ->
  send_rtcp_report self now = Ok (self', o) -> emits self self' (opt_list o).
Proof.
  intros Hi Hs. unfold send_rtcp_report in Hs.
  destruct (create_buffer_for_rtcp_reports self) as [capacity|] eqn:Ec;
    [|injection Hs as <- <-; by apply quiet_emits].
  apply bind_Ok in Hs as ([[s1 first] buffer] & E1 & Hs).
  pose proof (write_reports_quiet _ _ _ _ _ _ _ _ (entries_detector self) E1) as Q.
  set (packet := take capacity buffer ++ _) in Hs.
  assert (28 <= length packet)%nat as Hl.
  { unfold packet. rewrite length_app, length_take, length_replicate.
    pose proof (report_capacity _ _ Ec). lia. }
  unfold encrypt_rtcp_packet_and_increment_index in Hs.
  rewrite (quiet_index _ _ Q) in Hs. rewrite (proj1 (quiet_keys _ _ Q)) in Hs.
  destruct (ControlPacket.encrypt packet (default 0 first) (next_outgoing_srtcp_index self) _ _) as [b| |] eqn:E;
    [| |done]; cbn [ok_opt] in Hs; rewrite mbind_Ok in Hs; injection Hs as <- <-; [|by apply quiet_emits].
  destruct (encrypted_index _ _ _ _ _ _ Hl Hi E). change (opt_list (Some b)) with ([] ++ [b]).
  eapply emits_trans; [by apply quiet_emits|].
  apply (emit_one s1 (next_outgoing_srtcp_index self)); [by apply quiet_index|lia|done].
Qed.

(** ** The operations that only change other state *)

Lemma remember_sender_reports_quiet now l : forall self,
  quiet self (fold_left (fun self r => remember_sender_report self r now) l self).
Proof.
  induction l as [|r l IH]; intros self; [done|]. cbn [fold_left]. eapply quiet_trans; [|apply IH].
  unfold remember_sender_report. quiet_set.
Qed.

Lemma remember_report_blocks_quiet now l : forall self self',
  remember_report_blocks self l now = Ok self' -> quiet self self'.
Proof.
  induction l as [|block l IH]; intros self self' Hs; cbn [remember_report_blocks] in Hs; [by injection Hs as <-|].
  apply bind_Ok in Hs as (s1 & E & Hs). eapply quiet_trans; [|by apply IH].
  unfold remember_report_block in E. destruct (_ !! _) as [st|] eqn:Es; [|by injection E as <-].
  apply bind_Ok in E as (r & _ & [= <-]). apply quiet_set. unfold detector. by rewrite Es.
Qed.

Lemma remember_receiver_reports_quiet now l : forall self self',
  remember_receiver_reports self l now = Ok self' -> quiet self self'.
Proof.
  induction l as [|rr l IH]; intros self self' Hs; cbn [remember_receiver_reports] in Hs; [by injection Hs as <-|].
  apply bind_Ok in Hs as (s1 & E & Hs). eapply quiet_trans; [|by apply IH].
  destruct (_ !! _); [by eapply remember_report_blocks_quiet|by injection E as <-].
Qed.

Lemma receive_rtcp_quiet self b now self' o : receive_rtcp self b now = Ok (self', o) -> quiet self self'.
Proof.
  unfold receive_rtcp. intros Hs. apply bind_Ok in Hs as ([incoming|] & _ & Hs); [|by injection Hs as <- _].
  apply bind_Ok in Hs as ([s acks] & _ & Hs). apply bind_Ok in Hs as (s2 & E & [= <- _]).
  eapply quiet_trans; [|by eapply remember_receiver_reports_quiet].
  eapply quiet_trans; [|apply remember_sender_reports_quiet]. done.
Qed.

Lemma encrypt_and_send_quiet self p now self' o : encrypt_and_send_rtp self p now = Ok (self', o) -> quiet self self'.
Proof.
  unfold encrypt_and_send_rtp. intros Hs. apply bind_Ok in Hs as (o' & _ & [= <- _]). by case_if.
Qed.

Lemma send_rtp_quiet self p now self' o : send_rtp self p now = Ok (self', o) -> quiet self self'.
Proof.
  unfold send_rtp. intros Hs. apply bind_Ok in Hs as ([s1 p1] & E & Hs).
  apply bind_Ok in Hs as ([p2 tcc] & _ & Hs).
  eapply quiet_trans; [|eapply quiet_trans; [|by eapply encrypt_and_send_quiet]]; [|done].
  case_if_in E; [|by injection E as <- _]. destruct (Rtx.increment_seqnum _ _) as [seqnum rtx].
  apply bind_Ok in E as (p' & _ & [= <- _]). done.
Qed.

Lemma resend_rtp_quiet self ssrc seqnum now self' o :
  resend_rtp self ssrc seqnum now = Ok (self', o) -> quiet self self'.
Proof.
  unfold resend_rtp. intros Hs. apply bind_Ok in Hs as ([[rtx tcc] [p|]] & _ & Hs); [|by injection Hs as <- _].
  eapply quiet_trans; [|by eapply encrypt_and_send_quiet]. done.
Qed.

Lemma send_padding_quiet self ssrc now self' o : send_padding self ssrc now = Ok (self', o) -> quiet self self'.
Proof.
  unfold send_padding. intros Hs. destruct (Sender.increment_seqnum _) as [n tcc].
  apply bind_Ok in Hs as ([rtx p] & _ & Hs). eapply quiet_trans; [|by eapply encrypt_and_send_quiet]. done.
Qed.

Lemma remember_sent_quiet self p now : quiet self (remember_sent self p now).
Proof.
  unfold remember_sent. apply (quiet_trans _ (remember_sent_for_tcc self p now)).
  - unfold remember_sent_for_tcc. by destruct (Packet.tcc_seqnum p).
  - unfold remember_sent_for_reports. case_if; [done|quiet_set].
Qed.

Lemma stats_quiet self now : quiet self (get_or_update_stats self now).1.
Proof.
  unfold get_or_update_stats, update_stats. destruct (Rtx.remembered_packet_stats _).
  destruct (last_stats self); [case_if|]; done.
Qed.

(** ** Runs *)

Inductive Event :=
| RtpArrived (packet : bytes) (now : Z)
| RtcpArrived (packet : bytes) (now : Z)
| RtpToSend (packet : Packet.t) (now : Z)
| ToResend (ssrc seqnum now : Z)
| MarkedAsSent (ssrc seqnum : Z)
| PaddingToSend (rtx_ssrc now : Z)
| WasSent (packet : Packet.t) (now : Z)
| AcksDue
| NacksDue (now rtt : Z)
| PliDue (ssrc : Z)
| ReportDue (now : Z)
| StatsWanted (now : Z).

(** The endpoint after an event, the (SSRC, sequence number) of a packet that it
    accepted, and the RTCP packets that it sends. *)
Definition perform (self : t) (e : Event) : Res unit (t * list (Z * Z) * list bytes) :=
  match e with
  | RtpArrived b now =>
      '(self, o) ← receive_rtp self b now;
      Ok (self, match o with
                | Some p => [(Packet.ssrc_in_header p, Packet.seqnum_in_header p)]
                | None => []
                end, [])
  | RtcpArrived b now => '(self, _) ← receive_rtcp self b now; Ok (self, [], [])
  | RtpToSend p now => '(self, _) ← send_rtp self p now; Ok (self, [], [])
  | ToResend ssrc seqnum now => '(self, _) ← resend_rtp self ssrc seqnum now; Ok (self, [], [])
  | MarkedAsSent ssrc seqnum => Ok (mark_as_sent self ssrc seqnum, [], [])
  | PaddingToSend rtx_ssrc now => '(self, _) ← send_padding self rtx_ssrc now; Ok (self, [], [])
  | WasSent p now => Ok (remember_sent self p now, [], [])
  | AcksDue => '(self, l) ← send_acks self; Ok (self, [], l)
  | NacksDue now rtt => '(self, l) ← send_nacks self now rtt; Ok (self, [], l)
  | PliDue ssrc => '(self, o) ← send_pli self ssrc; Ok (self, [], opt_list o)
  | ReportDue now => '(self, o) ← send_rtcp_report self now; Ok (self, [], opt_list o)
  | StatsWanted now => Ok ((get_or_update_stats self now).1, [], [])
  end.

Fixpoint run (self : t) (es : list Event) : Res unit (t * list (Z * Z) * list bytes) :=
  match es with
  | [] => Ok (self, [], [])
  | e :: es =>
      '(self, accepted, sent) ← perform self e;
      '(self, accepted', sent') ← run self es;
      Ok (self, accepted ++ accepted', sent ++ sent')
  end.

(** What the network delivers are bytes. *)
Definition event_ok (e : Event) : Prop :=
  match e with RtpArrived b _ | RtcpArrived b _ => bytes_ok b | _ => True end.

Lemma endpoint_perform_ok self e self' accepted sent seen :
  windows self seen -> event_ok e -> 0 <= next_outgoing_srtcp_index self ->
  perform self e = Ok (self', accepted, sent) ->
  exists seen', windows self' seen' /\ (forall k x, seen k x -> seen' k x) /\
    NoDup accepted /\ Forall (fun a => ~ seen a.1 a.2 /\ seen' a.1 a.2) accepted /\
    next_outgoing_srtcp_index self' = next_outgoing_srtcp_index self + Z.of_nat (length sent) /\
    map srtcp_index sent = seqZ (next_outgoing_srtcp_index self) (Z.of_nat (length sent)).
Proof.
  intros Hw He Hi Hp.
  assert (emits self self' sent -> accepted = [] -> exists seen', windows self' seen' /\
    (forall k x, seen k x -> seen' k x) /\ NoDup accepted /\
    Forall (fun a => ~ seen a.1 a.2 /\ seen' a.1 a.2) accepted /\
    next_outgoing_srtcp_index self' = next_outgoing_srtcp_index self + Z.of_nat (length sent) /\
    map srtcp_index sent = seqZ (next_outgoing_srtcp_index self) (Z.of_nat (length sent))) as Hemits.
  { intros [Hd Hx Ho _] ->. exists seen. split_and!; try done; [|constructor].
    intros k. rewrite Hd. apply Hw. }
  assert (quiet self self' -> sent = [] -> emits self self' sent) as Hquiet
    by (intros ? ->; by apply quiet_emits).
  destruct e; cbn [perform] in Hp.
  - destruct (receive_rtp_ok self packet now seen He Hw) as (s & o & seen' & E & Hw' & Hsub & Hx & Ho).
    rewrite E, mbind_Ok in Hp. injection Hp as <- <- <-. exists seen'.
    split; [done|]. split; [done|]. cbn [length]. rewrite Hx, Z.add_0_r, seqZ_nil by lia.
    destruct o; split_and!; try done; try constructor; try done; [apply not_elem_of_nil|constructor].
  - apply bind_Ok in Hp as ([s o] & E & [= <- <- <-]). apply receive_rtcp_quiet in E. auto.
  - apply bind_Ok in Hp as ([s o] & E & [= <- <- <-]). apply send_rtp_quiet in E. auto.
  - apply bind_Ok in Hp as ([s o] & E & [= <- <- <-]). apply resend_rtp_quiet in E. auto.
  - injection Hp as <- <- <-. apply Hemits; [apply Hquiet|]; done.
  - apply bind_Ok in Hp as ([s o] & E & [= <- <- <-]). apply send_padding_quiet in E. auto.
  - injection Hp as <- <- <-. apply Hemits; [apply Hquiet|]; try done. apply remember_sent_quiet.
  - apply bind_Ok in Hp as ([s l] & E & [= <- <- <-]). apply send_acks_emits in E; auto.
  - apply bind_Ok in Hp as ([s l] & E & [= <- <- <-]).
    apply send_nacks_of_emits in E; auto using entries_detector.
  - destruct (send_rtcp_emits self RTCP_TYPE_SPECIFIC_FEEDBACK RTCP_FORMAT_PLI (w32 ssrc) Hi) as (s & o & E & Hs).
    unfold send_pli in Hp. rewrite E, mbind_Ok in Hp. injection Hp as <- <- <-. auto.
  - apply bind_Ok in Hp as ([s o] & E & [= <- <- <-]). apply send_rtcp_report_emits in E; auto.
  - injection Hp as <- <- <-. apply Hemits; [apply Hquiet|]; try done. apply stats_quiet.
Qed.

Lemma run_ok es : forall self self' accepted sent seen,
  windows self seen -> Forall event_ok es -> 0 <= next_outgoing_srtcp_index self ->
  run self es = Ok (self', accepted, sent) ->
  NoDup accepted /\ Forall (fun a => ~ seen a.1 a.2) accepted /\
  map srtcp_index sent = seqZ (next_outgoing_srtcp_index self) (Z.of_nat (length sent)).
Proof.
  induction es as [|e es IH]; intros self self' accepted sent seen Hw He Hi Hr; cbn [run] in Hr.
  - injection Hr as _ <- <-. split_and!; [constructor|constructor|by rewrite seqZ_nil].
  - inversion_clear He as [|? ? He1 He2]. apply bind_Ok in Hr as ([[s1 a1] o1] & E1 & Hr).
    apply bind_Ok in Hr as ([[s2 a2] o2] & E2 & [= _ <- <-]).
    destruct (endpoint_perform_ok _ _ _ _ _ _ Hw He1 Hi E1) as (seen' & Hw' & Hsub & Hd & Ha & Hx & Ho).
    destruct (IH _ _ _ _ seen' Hw' He2 ltac:(lia) E2) as (Hd2 & Ha2 & Ho2). split_and!.
    + apply NoDup_app. split_and!; [done| |done]. intros x Hx1 Hx2. rewrite Forall_forall in Ha, Ha2.
      by apply (Ha2 x Hx2), Ha.
    + apply Forall_app. split; (eapply Forall_impl; [eassumption|]); cbn; naive_solver.
    + rewrite map_app, Ho, Ho2, Hx, length_app, Nat2Z.inj_add. symmetry. apply seqZ_app; lia.
Qed.

Lemma new_windows d e now r a : windows (new d e now r a) (fun _ _ => False).
Proof. intros k. unfold detector. cbn. rewrite lookup_empty. apply SequenceNumberReuseDetectorFacts.default_window. Qed.

End Endpoint.

End EndpointFacts.

Module RtpEndpointProperties.
Import Endpoint EndpointFacts.
#[local] Existing Instances SampleCipher.flip_aead SampleCipher.flip_aead_laws.

(** The order of [map_to_list] is one order. *)
#[local] Instance list_order : HashMapOrder := {|
  entries V m := map_to_list m; entries_perm V m := Permutation_refl _
|}.

Definition zero_keys : KeysAndSalts :=
  {| rtp := {| key := [0]; salt := replicate 12 0 |}; rtcp := {| key := [0]; salt := replicate 12 0 |} |}.

Definition sample : t := new zero_keys zero_keys 0 77 78.

(** No datagram makes an endpoint panic: whatever it received and sent
    before, [receive_rtp] returns, with a packet or without. *)
Theorem receive_rtp_total `{AeadLaws} `{HashMapOrder} d e now0 r a es self accepted sent b now :
  Forall event_ok es -> run (new d e now0 r a) es = Ok (self, accepted, sent) -> bytes_ok b ->
  exists self' o, receive_rtp self b now = Ok (self', o).
Proof.
  intros He Hr Hb.
  assert (exists seen, windows self seen) as [seen Hw].
  { assert (0 <= next_outgoing_srtcp_index (new d e now0 r a)) as Hi by done.
    revert Hr Hi He. generalize (new_windows d e now0 r a). generalize (new d e now0 r a), (fun _ _ : Z => False).
    revert accepted sent. induction es as [|ev es IH]; intros acc snt s0 seen Hw Hr Hi He; cbn [run] in Hr.
    - injection Hr as <- _ _. by exists seen.
    - inversion_clear He as [|? ? He1 He2]. apply bind_Ok in Hr as ([[s1 a1] o1] & E1 & Hr).
      apply bind_Ok in Hr as ([[s2 a2] o2] & E2 & [= <- _ _]).
      destruct (endpoint_perform_ok _ _ _ _ _ _ Hw He1 Hi E1) as (seen' & Hw' & _ & _ & _ & Hx & _).
      by eapply (IH a2 o2 s1 seen'); [..|lia|]. }
  destruct (receive_rtp_ok self b now seen Hb Hw) as (self' & o & _ & E & _). by exists self', o.
Qed.

Lemma receive_rtp_total_witness :
  exists self' o, receive_rtp sample (replicate 40 128) 5 = Ok (self', o).
Proof.
  apply (receive_rtp_total zero_keys zero_keys 0 77 78 [] sample [] [] (replicate 40 128) 5).
  - constructor.
  - reflexivity.
  - apply Forall_replicate. unfold byte_ok, uint. lia.
Defined.

(** C29: Replay protection of the whole endpoint: through any sequence of arrivals
    (in any order, duplicated, forged), sends, retransmissions and reports, no
    (SSRC, sequence number) is accepted twice. *)
Theorem srtp_packets_accepted_once `{AeadLaws} `{HashMapOrder} d e now r a es self accepted sent :
  Forall event_ok es -> run (new d e now r a) es = Ok (self, accepted, sent) -> NoDup accepted.
Proof.
  intros He Hr.
  by destruct (run_ok es _ _ _ _ _ (new_windows d e now r a) He ltac:(cbn; lia) Hr) as (Hd & _ & _).
Qed.

(** A packet of SSRC 5, for the cipher of the examples: payload [1; 2; 3]. *)
Definition sample_packet (seqnum : Z) : bytes :=
  [128; 102; 0; seqnum; 0; 0; 0; 9; 0; 0; 0; 5; 1; 2; 3] ++ replicate 16 7.

Definition sample_arrivals : list Event :=
  [RtpArrived (sample_packet 3) 1; RtpArrived (sample_packet 2) 2;
   RtpArrived (sample_packet 3) 3; RtpArrived (sample_packet 4) 4].

Lemma srtp_packets_accepted_once_witness :
  match run sample sample_arrivals with
  | Ok (_, accepted, _) => NoDup accepted /\ accepted = [(5, 3); (5, 2); (5, 4)]
  | _ => False
  end.
Proof.
  destruct (run sample sample_arrivals) as [[[self accepted] sent]| |] eqn:E; [|vm_compute in E; discriminate E..].
  split.
  - apply (srtp_packets_accepted_once zero_keys zero_keys 0 77 78 sample_arrivals self accepted sent); [|exact E].
    repeat constructor; vm_compute; discriminate.
  - vm_compute in E. injection E as _ <- _. reflexivity.
Defined.

(** C30: The SRTCP packets of an endpoint carry the indices 1, 2, 3, ... in the
    order they are sent, whatever happens in between (acknowledgements, NACKs,
    key frame requests and reports share one counter), so no index is used twice
    under its key. *)
Theorem srtcp_indices_increase `{AeadLaws} `{HashMapOrder} d e now r a es self accepted sent :
  Forall event_ok es -> run (new d e now r a) es = Ok (self, accepted, sent) ->
  map srtcp_index sent = seqZ 1 (Z.of_nat (length sent)).
Proof.
  intros He Hr.
  by destruct (run_ok es _ _ _ _ _ (new_windows d e now r a) He ltac:(cbn; lia) Hr) as (_ & _ & Hs).
Qed.

Definition sample_sends : list Event :=
  [PliDue 5; RtpArrived (sample_packet 3) 1; ReportDue 2; PliDue 6].

Lemma srtcp_indices_increase_witness :
  match run sample sample_sends with
  | Ok (_, _, sent) => map srtcp_index sent = [1; 2; 3]
  | _ => False
  end.
Proof.
  destruct (run sample sample_sends) as [[[self accepted] sent]| |] eqn:E; [|vm_compute in E; discriminate E..].
  rewrite (srtcp_indices_increase zero_keys zero_keys 0 77 78 sample_sends self accepted sent); [| |exact E].
  - vm_compute in E. injection E as _ _ <-. reflexivity.
  - repeat constructor; vm_compute; discriminate.
Defined.

(** A packet that fails authentication is marked as seen all the same: the
    genuine packet with its number is refused afterwards. *)
Lemma forged_packet_blocks_genuine :
  let forged := take 15 (sample_packet 3) ++ replicate 16 8 in
  let cipher := {| seal := seal; open key nonce aad c tag :=
                     if decide (tag = replicate 16 7) then open key nonce aad c tag else None |} in
  match @run cipher _ sample [RtpArrived forged 1; RtpArrived (sample_packet 3) 2],
        @run cipher _ sample [RtpArrived (sample_packet 3) 2] with
  | Ok (_, accepted, _), Ok (_, accepted', _) => accepted = [] /\ accepted' = [(5, 3)]
  | _, _ => False
  end.
Proof. vm_compute. split; reflexivity. Qed.

End RtpEndpointProperties.
