(* ===== verification/RtxNonces.v ===== *)
(** * RtxNonces: what an endpoint encrypts its retransmissions and padding with

    The nonce of an SRTP packet is made of its SSRC, its sequence number and the
    salt, so a sequence number of a retransmission stream that is used twice
    would be a nonce used twice under one key.  This file follows the RTX and
    padding packets through every operation of [Endpoint]: the packets that it
    relays, resends and makes up draw their numbers from the counters of one
    [RtxSender], and what is sealed is what the header says. *)
From S2P Require Import Prelude Common Collections Bytes Srtp RtpHeader Packet Rtx Rtcp RtcpReports TransportCc RtpEndpoint.
Import Read Serialize Srtp RtpTypes Expand.

Module RtxFiled.
Import Packet Rtx RtxFacts.

(** The SSRC of the stream that resends a packet. *)
Definition rtx_ssrc (p : Packet.t) : Z :=
  if is_rtx p then ssrc_in_header p else to_rtx_ssrc (ssrc_in_header p).

Lemma to_from_rtx_ssrc s : uint 32 s -> to_rtx_ssrc (from_rtx_ssrc s) = s.
Proof. unfold from_rtx_ssrc, to_rtx_ssrc, RTX_SSRC_OFFSET, u32, wrap, uint. intros. dlia. Qed.

Lemma rtx_ssrc_of_ssrc p : uint 32 (ssrc_in_header p) -> to_rtx_ssrc (ssrc p) = rtx_ssrc p.
Proof. intros U. unfold rtx_ssrc, ssrc. by destruct (is_rtx p); [apply to_from_rtx_ssrc|]. Qed.

(** ** What the setters leave alone *)

Lemma write_in_header_serialized {E} p x b r :
  write_in_header (E:=E) p x b = Ok r -> exists s, r = p <| serialized := s |>.
Proof.
  unfold write_in_header. destruct (assert_ _); [|done|done]. rewrite mbind_Ok.
  destruct (slice_to _ _); [|done|done]. rewrite mbind_Ok.
  destruct (copy_from_slice _ _ _ _); [|done|done]. rewrite mbind_Ok. intros [= <-]. by eexists.
Qed.

(** A packet that differs in its bytes, its header's sequence number and its
    transport-wide one. *)
Record renumbered (p r : Packet.t) : Prop := {
  rn_ssrc : ssrc_in_header r = ssrc_in_header p;
  rn_sip : seqnum_in_payload r = seqnum_in_payload p;
  rn_encrypted : encrypted r = encrypted p
}.

Lemma set_seqnum_renumbered {E} p v r : set_seqnum_in_header (E:=E) p v = Ok r -> renumbered p r.
Proof. intros H. by apply write_in_header_serialized in H as [s ->]. Qed.

Lemma set_tcc_renumbered {E S} p (get : S -> Z * S) s r s' :
  set_tcc_seqnum_in_header_if_present (E:=E) p get s = Ok (r, s') -> renumbered p r.
Proof.
  unfold set_tcc_seqnum_in_header_if_present.
  destruct (tcc_seqnum_range p); [|by intros [= <- <-]]. destruct (get s) as [tcc s1].
  intros H. apply bind_Ok in H as (r' & H & E'). injection E' as <- <-.
  by apply write_in_header_serialized in H as [b ->].
Qed.

Lemma set_payload_type_stream {E} p v r :
  set_payload_type_in_header (E:=E) p v = Ok r ->
  ssrc_in_header r = ssrc_in_header p /\ seqnum_in_payload r = seqnum_in_payload p.
Proof. intros H. by apply write_in_header_serialized in H as [s ->]. Qed.

Lemma set_ssrc_stream {E} p v r :
  set_ssrc_in_header (E:=E) p v = Ok r ->
  ssrc_in_header r = v /\ seqnum_in_payload r = seqnum_in_payload p.
Proof. intros H. by apply write_in_header_serialized in H as [s ->]. Qed.

Lemma rtx_packet_stream p q b :
  ssrc_in_header (rtx_packet p q b) = to_rtx_ssrc (ssrc_in_header p) /\
  seqnum_in_payload (rtx_packet p q b) = Some (seqnum_in_header p).
Proof. done. Qed.

Lemma to_rtx_stream p q r :
  to_rtx (E:=unit) p q = Ok r -> ssrc_in_header r = rtx_ssrc p /\ is_rtx r = true.
Proof.
  unfold to_rtx, rtx_ssrc. destruct (is_rtx p) eqn:E.
  - intros H. apply set_seqnum_renumbered in H as [H1 H2 _]. unfold is_rtx in *. by rewrite H1, H2.
  - intros H. apply bind_Ok in H as (h & _ & H). apply bind_Ok in H as (pl & _ & H). cbv zeta in H.
    destruct (rtx_packet_stream p q
      (h ++ be_bytes 2 (u16 (seqnum_in_header p)) ++ pl ++ replicate SRTP_AUTH_TAG_LEN 0)) as [R1 R2].
    revert H R1 R2. generalize (rtx_packet p q
      (h ++ be_bytes 2 (u16 (seqnum_in_header p)) ++ pl ++ replicate SRTP_AUTH_TAG_LEN 0)).
    intros rtx H R1 R2.
    apply bind_Ok in H as (p1 & H1 & H). apply bind_Ok in H as (p2 & H2 & H).
    apply set_payload_type_stream in H1 as [A1 A2]. apply set_ssrc_stream in H2 as [B1 B2].
    apply set_seqnum_renumbered in H as [C1 C2 _]. unfold is_rtx. split; [congruence|].
    by rewrite C2, B2, A2, R2.
Qed.

(** ** The cache of sent packets *)

(** Packets are filed under the SSRC they retransmit. *)
Definition filed (st : RtxSender) : Prop :=
  forall k p, (TwoGenerationCache.generation0 (previously_sent_by_seqnum st) !! k = Some p \/
               TwoGenerationCache.generation1 (previously_sent_by_seqnum st) !! k = Some p) ->
    k.1 = ssrc p /\ uint 32 (ssrc_in_header p).

Lemma filed_new limit now : filed (new limit now).
Proof. intros k p. cbn. rewrite !lookup_empty. by intros [[=]|[=]]. Qed.

Lemma filed_get st k p : filed st ->
  TwoGenerationCache.get (previously_sent_by_seqnum st) k = Some p -> k.1 = ssrc p /\ uint 32 (ssrc_in_header p).
Proof.
  unfold TwoGenerationCache.get. intros Hf Hg. apply (Hf k p).
  destruct (TwoGenerationCache.generation0 _ !! k); [left; congruence|by right].
Qed.

Lemma filed_same st st' : previously_sent_by_seqnum st' = previously_sent_by_seqnum st ->
  filed st -> filed st'.
Proof. unfold filed. by intros ->. Qed.

Lemma filed_remember st p now : filed st -> uint 32 (ssrc_in_header p) -> filed (remember_sent st p now).
Proof.
  intros Hf U. unfold remember_sent. case_if; [|done]. intros k r. cbn.
  unfold TwoGenerationCache.insert, TwoGenerationCache.swap_generations_if_its_been_too_long.
  destruct (_ <=? now); cbn.
  - intros [Hk|Hk].
    + apply lookup_insert_Some in Hk as [[<- <-]|[_ Hk]]; [done|by rewrite lookup_empty in Hk].
    + apply (Hf k r). by left.
  - intros [Hk|Hk].
    + apply lookup_insert_Some in Hk as [[<- <-]|[_ Hk]]; [done|]. apply (Hf k r). by left.
    + apply (Hf k r). by right.
Qed.

Lemma filed_update st st' b k :
  filed st ->
  previously_sent_by_seqnum st' =
    TwoGenerationCache.update (fun p => p <| pending_retransmission := b |>)
      (previously_sent_by_seqnum st) k ->
  filed st'.
Proof.
  intros Hf E k' r. rewrite E. unfold TwoGenerationCache.update.
  destruct (TwoGenerationCache.generation0 _ !! k) as [v|] eqn:E0;
    [|destruct (TwoGenerationCache.generation1 _ !! k) as [v|] eqn:E1; [|apply Hf]]; cbn;
    (intros [Hk|Hk]; [try apply lookup_insert_Some in Hk as [[<- <-]|[_ Hk]]
                     |try apply lookup_insert_Some in Hk as [[<- <-]|[_ Hk]]]);
    solve [apply (Hf k' r); auto | apply (Hf k v); auto].
Qed.

(** ** The numbers *)

(** The next number of one stream is used. *)
Definition takes (st st' : RtxSender) (x : Z) : Prop :=
  forall y, next st' y = if decide (y = x) then u64 (next st x + 1) else next st y.

(** The sender has used the number of [q], a packet of a 32-bit SSRC. *)
Record numbers (st st' : RtxSender) (q : Packet.t) : Prop := {
  num_seqnum : seqnum_in_header q = next st (ssrc_in_header q);
  num_ssrc : uint 32 (ssrc_in_header q);
  num_takes : takes st st' (ssrc_in_header q)
}.

Lemma resend_numbers st ssrc seqnum now {S} (get : S -> Z * S) s st' s' o :
  filed st -> resend_as_rtx st ssrc seqnum now get s = Ok (st', s', o) ->
  filed st' /\
  match o with
  | Some q => is_rtx q = true /\ numbers st st' q
  | None => forall x, next st' x = next st x
  end.
Proof.
  intros Hf H. unfold resend_as_rtx in H.
  destruct (get_next_spec st (to_rtx_ssrc ssrc)) as (E1 & E2 & E3).
  destruct (get_next_seqnum st (to_rtx_ssrc ssrc)) as [q st2]. cbn [fst snd] in *. subst q.
  pose proof (filed_same _ _ E3 Hf) as Hf2.
  destruct (TwoGenerationCache.get _ _) as [prev|] eqn:Eg; [|by injection H as <- <- <-].
  repeat (case_if_in H; [by injection H as <- <- <-|]).
  apply bind_Ok in H as (r & Hr & H).
  match type of H with context [increment_seqnum ?s ?k] =>
    destruct (increment_spec s k) as (_ & F2 & F3); pose proof (filed_update st2 s true (ssrc, seqnum) Hf2 eq_refl) as Hf3;
    destruct (increment_seqnum s k) as [q st3] end.
  cbn [fst snd] in *. apply bind_Ok in H as ([r' s1] & Hr' & H). injection H as <- <- <-.
  apply (filed_get st2) in Eg as [Eg U]; [|done]. cbn [fst] in Eg. subst ssrc.
  pose proof (PacketFacts.to_rtx_seqnum _ _ _ Hr) as Hq. apply to_rtx_stream in Hr as [Hs Hi].
  pose proof (PacketFacts.set_tcc_seqnum _ _ _ _ _ Hr') as Hq'.
  apply set_tcc_renumbered in Hr' as [Hs' Hi' _].
  assert (ssrc_in_header r' = to_rtx_ssrc (Packet.ssrc prev)) as Es
    by (rewrite Hs', Hs, rtx_ssrc_of_ssrc by done; done).
  split; [by eapply filed_same|]. split; [unfold is_rtx in *; by rewrite Hi'|].
  split; rewrite Es.
  - by rewrite Hq', Hq.
  - apply wrap_uint. lia.
  - intros y. rewrite F2. case_decide; [|apply E2]. by rewrite <- (E2 (to_rtx_ssrc _)).
Qed.

Lemma increment_numbers st x : takes st (increment_seqnum st x).2 x.
Proof. intros y. apply increment_spec. Qed.

End RtxFiled.

Module RtxNonces.
Import Endpoint EndpointFacts RtxFiled.

(** The nonce of a packet, as [Packet.prepare_for_crypto] makes it. *)
Definition nonce (keys : KeysAndSalts) (q : Packet.t) : bytes :=
  rtp_iv (Packet.ssrc_in_header q) (Packet.seqnum_in_header q) (salt (rtp keys)).

(** The bytes of [q] are a header, a text sealed under its nonce, and the tag. *)
Definition sealed `{Aead} (keys : KeysAndSalts) (q : Packet.t) : Prop :=
  exists aad plaintext ciphertext tag,
    seal (key (rtp keys)) (nonce keys q) aad plaintext = Some (ciphertext, tag) /\
    Packet.serialized q = aad ++ ciphertext ++ tag.

Section Endpoint.
Context `{Aead} `{HashMapOrder}.

(** The endpoint after an event, and the RTX and padding packets that it sends. *)
Definition dispatch (self : t) (e : Event) : Res unit (t * list Packet.t) :=
  match e with
  | RtpToSend p now =>
      '(self, o) ← send_rtp self p now;
      Ok (self, List.filter Packet.is_rtx (opt_list o))
  | ToResend ssrc seqnum now => '(self, o) ← resend_rtp self ssrc seqnum now; Ok (self, opt_list o)
  | PaddingToSend rtx_ssrc now => '(self, o) ← send_padding self rtx_ssrc now; Ok (self, opt_list o)
  | _ => '(self, _, _) ← perform self e; Ok (self, [])
  end.

Fixpoint dispatch_all (self : t) (es : list Event) : Res unit (t * list Packet.t) :=
  match es with
  | [] => Ok (self, [])
  | e :: es =>
      '(self, out) ← dispatch self e;
      '(self, outs) ← dispatch_all self es;
      Ok (self, out ++ outs)
  end.

(** The SSRCs that the endpoint is given are 32-bit. *)
Definition ssrcs_ok (e : Event) : Prop :=
  match e with
  | RtpToSend p _ => uint 32 (Packet.ssrc_in_header p)
  | PaddingToSend rtx_ssrc _ => uint 32 rtx_ssrc
  | _ => True
  end.

(** ** Operations that send nothing of the kind *)

Definition unnumbered (self self' : t) : Prop :=
  rtx_sender self' = rtx_sender self /\ encrypt self' = encrypt self.

Lemma unnumbered_refl self : unnumbered self self.
Proof. done. Qed.

Lemma unnumbered_trans a b c : unnumbered a b -> unnumbered b c -> unnumbered a c.
Proof. intros [? ?] [? ?]. split; congruence. Qed.

#[local] Hint Resolve unnumbered_refl : core.
#[local] Hint Extern 1 (unnumbered _ _) => (split; reflexivity) : core.

Lemma remember_incoming_unnumbered self p now : unnumbered self (remember_incoming self p now).
Proof.
  unfold remember_incoming. destruct (is_rtxable_payload_type _), (is_media_payload_type _),
    (Packet.tcc_seqnum p); auto.
Qed.

Lemma receive_rtp_unnumbered self b now self' o :
  receive_rtp self b now = Ok (self', o) -> unnumbered self self'.
Proof.
  unfold receive_rtp. intros Hr. apply bind_Ok in Hr as ([header|] & _ & Hr); [|by injection Hr as <- _].
  apply bind_Ok in Hr as ([[[s1 tcc] n] reuse] & Hn & Hr).
  assert (unnumbered self s1) as U1.
  { unfold note_seqnums in Hn.
    destruct (Header.tcc_seqnum header) as [x|]; [destruct (expand_seqnum x _)|];
      cbn beta iota zeta in Hn; destruct (expand_seqnum (Header.seqnum header) _);
      apply bind_Ok in Hn as ([? ?] & _ & [= <- _ _ _]); auto. }
  apply (unnumbered_trans _ _ _ U1). destruct reuse; try (injection Hr as <- _; done).
  apply bind_Ok in Hr as ([p|] & _ & Hr); [|by injection Hr as <- _].
  apply bind_Ok in Hr as (p' & _ & Hr). apply bind_Ok in Hr as ([s2 o2] & Hu & Hr).
  assert (unnumbered s1 s2) as U2.
  { unfold unwrap_rtx in Hu. apply bind_Ok in Hu as (pl & _ & Hu). case_if_in Hu; [|by injection Hu as <- _].
    apply bind_Ok in Hu as ([[? ?]|] & _ & Hu); [|by injection Hu as <- _].
    destruct (expand_seqnum _ _) as [? ?]. injection Hu as <- _. auto. }
  apply (unnumbered_trans _ _ _ U2). destruct o2; injection Hr as <- _; [apply remember_incoming_unnumbered|done].
Qed.

Lemma remember_report_blocks_unnumbered now l : forall self self',
  remember_report_blocks self l now = Ok self' -> unnumbered self self'.
Proof.
  induction l as [|b l IH]; intros self self' Hs; cbn in Hs; [by injection Hs as <-|].
  apply bind_Ok in Hs as (s & E & Hs). apply IH in Hs. refine (unnumbered_trans _ _ _ _ Hs).
  unfold remember_report_block in E. destruct (_ !! _); [|by injection E as <-].
  apply bind_Ok in E as (r & _ & [= <-]). auto.
Qed.

Lemma remember_receiver_reports_unnumbered now l : forall self self',
  remember_receiver_reports self l now = Ok self' -> unnumbered self self'.
Proof.
  induction l as [|b l IH]; intros self self' Hs; cbn in Hs; [by injection Hs as <-|].
  apply bind_Ok in Hs as (s & E & Hs). apply IH in Hs. refine (unnumbered_trans _ _ _ _ Hs).
  destruct (_ !! _); [by eapply remember_report_blocks_unnumbered|by injection E as <-].
Qed.

Lemma remember_sender_reports_unnumbered now l : forall self,
  unnumbered self (fold_left (fun self r => remember_sender_report self r now) l self).
Proof.
  induction l as [|b l IH]; intros self; cbn; [done|].
  by apply (unnumbered_trans _ (remember_sender_report self b now)).
Qed.

Lemma receive_rtcp_unnumbered self b now self' o :
  receive_rtcp self b now = Ok (self', o) -> unnumbered self self'.
Proof.
  unfold receive_rtcp. intros Hs. apply bind_Ok in Hs as ([p|] & _ & Hs); [|by injection Hs as <- _].
  apply bind_Ok in Hs as ([s acks] & _ & Hs). apply bind_Ok in Hs as (s2 & E & [= <- _]).
  eapply unnumbered_trans; [|by eapply remember_receiver_reports_unnumbered].
  eapply unnumbered_trans; [|apply remember_sender_reports_unnumbered]. auto.
Qed.

Lemma send_rtcp_unnumbered {W} `{Writer W} self pt fmt padded (payload : W) self' o :
  send_rtcp self pt fmt padded payload = Ok (self', o) -> unnumbered self self'.
Proof.
  unfold send_rtcp, send_rtcp_and_increment_index. intros Hs.
  apply bind_Ok in Hs as ([b|] & _ & [= <- _]); auto.
Qed.

Lemma send_messages_unnumbered l : forall self self' outs,
  send_messages self l = Ok (self', outs) -> unnumbered self self'.
Proof.
  induction l as [|m l IH]; intros self self' outs Hs; cbn [send_messages] in Hs; [by injection Hs as <- _|].
  apply bind_Ok in Hs as ([s o] & E & Hs). apply bind_Ok in Hs as ([s2 rest] & E2 & [= <- _]).
  apply send_rtcp_unnumbered in E. by apply (unnumbered_trans _ s), (IH _ _ rest).
Qed.

Lemma send_acks_unnumbered self self' outs : send_acks self = Ok (self', outs) -> unnumbered self self'.
Proof.
  unfold send_acks. intros Hs. apply bind_Ok in Hs as ([r ms] & _ & Hs).
  apply send_messages_unnumbered in Hs. refine (unnumbered_trans _ _ _ _ Hs). auto.
Qed.

Lemma send_nacks_of_unnumbered now rtt l : forall self self' outs,
  send_nacks_of self now rtt l = Ok (self', outs) -> unnumbered self self'.
Proof.
  induction l as [|[ssrc s] l IH]; intros self self' outs Hs; cbn [send_nacks_of] in Hs; [by injection Hs as <- _|].
  apply bind_Ok in Hs as ([s1 o] & E & Hs). apply bind_Ok in Hs as ([s2 rest] & E2 & [= <- _]).
  apply IH in E2. refine (unnumbered_trans _ _ _ _ E2). unfold send_nack in E.
  apply bind_Ok in E as ([n [seqnums|]] & _ & E); [|injection E as <- _; auto].
  apply bind_Ok in E as (w & _ & E). apply send_rtcp_unnumbered in E.
  refine (unnumbered_trans _ _ _ _ E). auto.
Qed.

Lemma write_reports_unnumbered now l : forall self first buffer self' first' buffer',
  write_reports self now l first buffer = Ok (self', first', buffer') -> unnumbered self self'.
Proof.
  induction l as [|[ssrc s] l IH]; intros self first buffer self' first' buffer' Hs;
    cbn [write_reports] in Hs; [by injection Hs as <- _ _|].
  apply bind_Ok in Hs as ([[r b] [[[pt n] len]|]] & _ & Hs); [apply bind_Ok in Hs as (blk & _ & Hs)|];
    apply IH in Hs; refine (unnumbered_trans _ _ _ _ Hs); auto.
Qed.

Lemma send_rtcp_report_unnumbered self now self' o :
  send_rtcp_report self now = Ok (self', o) -> unnumbered self self'.
Proof.
  unfold send_rtcp_report. destruct (create_buffer_for_rtcp_reports self); [|by intros [= <- _]].
  intros Hs. apply bind_Ok in Hs as ([[s f] b] & E & Hs). apply write_reports_unnumbered in E.
  apply (unnumbered_trans _ _ _ E). unfold encrypt_rtcp_packet_and_increment_index in Hs.
  apply bind_Ok in Hs as ([?|] & _ & [= <- _]); auto.
Qed.

Lemma remember_sent_unnumbered self p now : unnumbered self (remember_sent self p now).
Proof.
  unfold remember_sent, remember_sent_for_tcc, remember_sent_for_reports.
  destruct (Packet.tcc_seqnum p), (Packet.is_rtx p || Packet.is_data p); auto.
Qed.

Lemma stats_unnumbered self now : unnumbered self (get_or_update_stats self now).1.
Proof.
  unfold get_or_update_stats, update_stats. destruct (Rtx.remembered_packet_stats _).
  destruct (last_stats self); [case_if|]; auto.
Qed.

(** ** Operations that number a packet *)

(** The number of the next packet of a stream. *)
Definition next (self : t) (x : Z) : Z := RtxFacts.next (rtx_sender self) x.

(** The counters are between 1 and [k]. *)
Record counting (k : Z) (keys : KeysAndSalts) (self : t) : Prop := {
  cnt_filed : filed (rtx_sender self);
  cnt_keys : encrypt self = keys;
  cnt_next : forall x, 1 <= next self x <= k
}.

(** [q] is sealed under its nonce, with a number drawn between two states. *)
Record drawn (keys : KeysAndSalts) (self self' : t) (q : Packet.t) : Prop := {
  drawn_sealed : sealed keys q;
  drawn_ssrc : uint 32 (Packet.ssrc_in_header q);
  drawn_seqnum : next self (Packet.ssrc_in_header q) <= Packet.seqnum_in_header q
                   < next self' (Packet.ssrc_in_header q)
}.

(** A step: the counters do not go back, and at most one packet leaves. *)
Record advances (k : Z) (keys : KeysAndSalts) (self self' : t) (outs : list Packet.t) : Prop := {
  adv_counting : counting (k + 1) keys self';
  adv_next : forall x, next self x <= next self' x;
  adv_outs : outs = [] \/ exists q, outs = [q] /\ drawn keys self self' q
}.

Lemma unnumbered_advances k keys self self' :
  counting k keys self -> unnumbered self self' -> advances k keys self self' [].
Proof.
  intros [Cf Ck Cn] [Er Ee]. split; [|unfold next; by rewrite Er|by left].
  split; [by rewrite Er|congruence|]. intros x. unfold next. rewrite Er. specialize (Cn x).
  unfold next in Cn. lia.
Qed.

Lemma encrypt_in_place_sealed p keys q :
  Packet.encrypt_in_place p (key (rtp keys)) (salt (rtp keys)) = Ok q ->
  renumbered (p <| Packet.encrypted := true |>) q /\
  Packet.seqnum_in_header q = Packet.seqnum_in_header p /\ sealed keys q.
Proof.
  unfold Packet.encrypt_in_place. intros Hq. apply bind_Ok in Hq as ([] & _ & Hq).
  apply bind_Ok in Hq as ([[[iv aad] plaintext] tag] & Hp & Hq).
  apply bind_Ok in Hq as ([ciphertext computed] & Hs & Hq). apply bind_Ok in Hq as ([] & _ & [= <-]).
  split; [done|]. split; [done|]. exists aad, plaintext, ciphertext, computed. split; [|done].
  unfold Packet.prepare_for_crypto in Hp. destruct (Packet.payload_range_in_header p) as [a e].
  apply bind_Ok in Hp as ([? ?] & _ & Hp). apply bind_Ok in Hp as ([? ?] & _ & [= <- _ _ _]).
  unfold nonce. cbn. destruct (seal _ _ _ _); [|done]. by injection Hs as ->.
Qed.

(** What [encrypt_and_send_rtp] adds to the step that numbered its packet. *)
Lemma encrypt_and_send_advances k keys self self1 p now self' o outs :
  counting k keys self -> k < 2 ^ 64 - 1 -> filed (rtx_sender self1) -> encrypt self1 = encrypt self ->
  uint 32 (Packet.ssrc_in_header p) -> encrypt_and_send_rtp self1 p now = Ok (self', o) ->
  (forall x, next self1 x = next self x) /\ outs = [] \/
  numbers (rtx_sender self) (rtx_sender self1) p /\ outs = opt_list o ->
  advances k keys self self' outs.
Proof.
  intros [Cf Ck Cn] Hk F1 E1 U Hs Hn. unfold encrypt_and_send_rtp in Hs.
  set (self2 := if is_rtxable_payload_type (Packet.payload_type p) then _ else self1) in Hs.
  assert (filed (rtx_sender self2) /\ encrypt self2 = keys /\ forall x, next self2 x = next self1 x)
    as (F2 & E2 & N2).
  { unfold self2. case_if; [|by rewrite E1]. split; [by apply filed_remember|]. split; [by cbn; rewrite E1|].
    intros x. unfold next, RtxFacts.next. cbn. unfold Rtx.remember_sent. by case_if. }
  clearbody self2. apply bind_Ok in Hs as (o' & Ho & [= <- <-]).
  assert (forall x, next self x <= next self2 x <= next self x + 1) as N.
  { intros x. rewrite N2. destruct Hn as [[-> _]|[[_ _ T] _]]; [lia|]. specialize (Cn x). specialize (T x).
    unfold next in *. rewrite T. case_decide; [subst x|lia].
    unfold u64. rewrite wrap_small by (unfold uint; lia). lia. }
  split; [split; [done..|]|intros x; apply N|].
  { intros x. specialize (N x). specialize (Cn x). lia. }
  destruct Hn as [[_ ->]|[[S U' T] ->]]; [by left|]. destruct o' as [q|]; [|by left]. right. exists q.
  split; [done|]. rewrite E2 in Ho.
  destruct (Packet.encrypt_in_place _ _ _) as [q'| |] eqn:Eq; [|done|done]. injection Ho as ->.
  apply encrypt_in_place_sealed in Eq as ([Rs _ _] & Rq & Hse).
  assert (Packet.ssrc_in_header q = Packet.ssrc_in_header p) as Rs' by exact Rs.
  split; [done|by rewrite Rs'|]. rewrite Rs', Rq, N2, S. unfold next at 1. split; [lia|].
  specialize (T (Packet.ssrc_in_header p)). rewrite decide_True in T by done.
  specialize (Cn (Packet.ssrc_in_header p)). unfold next in *. rewrite T.
  unfold u64. rewrite wrap_small by (unfold uint; lia). lia.
Qed.

Lemma encrypt_and_send_is_rtx self p now self' q :
  encrypt_and_send_rtp self p now = Ok (self', Some q) -> Packet.is_rtx q = Packet.is_rtx p.
Proof.
  unfold encrypt_and_send_rtp. intros Hs. apply bind_Ok in Hs as (o & Ho & [= _ ->]).
  destruct (Packet.encrypt_in_place _ _ _) as [q'| |] eqn:Eq; [|done|done]. injection Ho as ->.
  apply encrypt_in_place_sealed in Eq as ([_ Hs _] & _). unfold Packet.is_rtx. by rewrite Hs.
Qed.

Lemma send_rtp_advances k keys self p now self' o :
  counting k keys self -> k < 2 ^ 64 - 1 -> uint 32 (Packet.ssrc_in_header p) ->
  send_rtp self p now = Ok (self', o) ->
  advances k keys self self' (List.filter Packet.is_rtx (opt_list o)).
Proof.
  intros C Hk U Hs. unfold send_rtp in Hs. apply bind_Ok in Hs as ([s1 p1] & E1 & Hs).
  apply bind_Ok in Hs as ([p2 tcc] & E2 & Hs).
  pose proof (PacketFacts.set_tcc_seqnum _ _ _ _ _ E2) as Hq.
  apply set_tcc_renumbered in E2 as [S2 P2 _].
  assert (forall q, o = Some q -> Packet.is_rtx q = Packet.is_rtx p1) as Hr.
  { intros q ->. apply encrypt_and_send_is_rtx in Hs. rewrite Hs. unfold Packet.is_rtx. by rewrite P2. }
  destruct (Packet.is_rtx p) eqn:Ex.
  - destruct (RtxFacts.increment_spec (rtx_sender self) (Packet.ssrc_in_header p)) as (I1 & _ & I3).
    pose proof (increment_numbers (rtx_sender self) (Packet.ssrc_in_header p)) as T.
    destruct (Rtx.increment_seqnum _ _) as [n rtx]. cbn [fst snd] in *.
    apply bind_Ok in E1 as (p' & E & [= <- <-]).
    pose proof (PacketFacts.set_seqnum_seqnum _ _ _ E) as Hn. apply set_seqnum_renumbered in E as [S1 P1 _].
    refine (encrypt_and_send_advances _ _ _ _ _ _ _ _ _ C Hk _ _ _ Hs _); [|done| |right; split].
    + eapply filed_same; [exact I3|apply C].
    + by rewrite S2, S1.
    + split; rewrite ?S2, ?S1; [by rewrite Hq, Hn|done|done].
    + destruct o as [q|]; [|done]. cbn. rewrite (Hr q eq_refl). unfold Packet.is_rtx in *. by rewrite P1, Ex.
  - injection E1 as <- <-.
    refine (encrypt_and_send_advances _ _ _ _ _ _ _ _ _ C Hk _ _ _ Hs _);
      [apply C|done|by rewrite S2|left; split; [done|]].
    destruct o as [q|]; [|done]. cbn. by rewrite (Hr q eq_refl), Ex.
Qed.

Lemma resend_rtp_advances k keys self ssrc seqnum now self' o :
  counting k keys self -> k < 2 ^ 64 - 1 -> resend_rtp self ssrc seqnum now = Ok (self', o) ->
  advances k keys self self' (opt_list o).
Proof.
  intros C Hk Hs. unfold resend_rtp in Hs. apply bind_Ok in Hs as ([[rtx tcc] r] & E & Hs).
  apply resend_numbers in E as [Hf Hr]; [|apply C]. destruct r as [p|].
  - destruct Hr as [_ Hn].
    refine (encrypt_and_send_advances _ _ _ _ _ _ _ _ _ C Hk _ _ _ Hs _);
      [exact Hf|done|apply Hn|right; by split].
  - injection Hs as <- <-. destruct C as [Cf Ck Cn]. split; [split; [done|done|]|intros x|by left].
    + intros x. unfold next. cbn. rewrite Hr. specialize (Cn x). unfold next in Cn. lia.
    + unfold next. cbn. by rewrite Hr.
Qed.

Lemma send_padding_advances k keys self rtx_ssrc now self' o :
  counting k keys self -> k < 2 ^ 64 - 1 -> uint 32 rtx_ssrc ->
  send_padding self rtx_ssrc now = Ok (self', o) -> advances k keys self self' (opt_list o).
Proof.
  intros C Hk U Hs. unfold send_padding, Rtx.send_padding in Hs.
  destruct (Sender.increment_seqnum _) as [n tcc].
  destruct (RtxFacts.increment_spec (rtx_sender self) rtx_ssrc) as (I1 & _ & I3).
  pose proof (increment_numbers (rtx_sender self) rtx_ssrc) as T.
  destruct (Rtx.increment_seqnum _ _) as [m rtx]. cbn [fst snd] in *.
  rewrite PacketFacts.with_empty_tag_ok in Hs. rewrite !mbind_Ok in Hs.
  refine (encrypt_and_send_advances _ _ _ _ _ _ _ _ _ C Hk _ _ _ Hs _); [|done| |right; split; [|done]].
  - eapply filed_same; [exact I3|apply C].
  - done.
  - by split.
Qed.

(** Every event of an endpoint is a step. *)
Lemma dispatch_advances k keys self e self' outs :
  counting k keys self -> k < 2 ^ 64 - 1 -> ssrcs_ok e -> dispatch self e = Ok (self', outs) ->
  advances k keys self self' outs.
Proof.
  intros C Hk U Hs. destruct e; cbn [dispatch perform] in Hs.
  all: try (apply bind_Ok in Hs as ([[s a] b] & E & [= <- <-])).
  all: try (apply bind_Ok in Hs as ([s o] & E & [= <- <-])).
  all: try (apply bind_Ok in E as ([s1 o1] & E & [= <- _ _])).
  all: try (injection E as <- _ _).
  - by eapply unnumbered_advances, receive_rtp_unnumbered.
  - by eapply unnumbered_advances, receive_rtcp_unnumbered.
  - by eapply send_rtp_advances.
  - by eapply resend_rtp_advances.
  - destruct C as [Cf Ck Cn]. split; [split; [|done|]|intros x; apply Z.le_refl|by left].
    + by apply (filed_update (rtx_sender self) _ false (ssrc, seqnum)).
    + intros x. destruct (Cn x). split; [done|]. apply (Z.le_trans _ k); [done|lia].
  - by eapply send_padding_advances.
  - eapply unnumbered_advances; [done|apply remember_sent_unnumbered].
  - by eapply unnumbered_advances, send_acks_unnumbered.
  - by eapply unnumbered_advances, send_nacks_of_unnumbered.
  - eapply unnumbered_advances; [done|]. unfold send_pli in E. exact (send_rtcp_unnumbered _ _ _ _ _ _ _ E).
  - by eapply unnumbered_advances, send_rtcp_report_unnumbered.
  - eapply unnumbered_advances; [done|apply stats_unnumbered].
Qed.

Lemma drawn_later keys a b c d q :
  (forall x, next a x <= next b x) -> (forall x, next c x <= next d x) ->
  drawn keys b c q -> drawn keys a d q.
Proof.
  intros Ha Hd [S U N]. split; [done..|].
  specialize (Ha (Packet.ssrc_in_header q)). specialize (Hd (Packet.ssrc_in_header q)). lia.
Qed.

(** A history: every packet is drawn within it, and no number is drawn twice. *)
Lemma dispatch_all_drawn es : forall k keys self self' outs,
  counting k keys self -> k + Z.of_nat (length es) < 2 ^ 64 -> Forall ssrcs_ok es ->
  dispatch_all self es = Ok (self', outs) ->
  counting (k + Z.of_nat (length es)) keys self' /\ (forall x, next self x <= next self' x) /\
  Forall (drawn keys self self') outs /\
  NoDup (map (fun q => (Packet.ssrc_in_header q, Packet.seqnum_in_header q)) outs).
Proof.
  induction es as [|e es IH]; intros k keys self self' outs C Hk Hes Hr; cbn [dispatch_all length] in *.
  - injection Hr as <- <-. rewrite Z.add_0_r. split_and!; [done|lia|constructor|constructor].
  - inversion_clear Hes as [|? ? He Hes']. apply bind_Ok in Hr as ([s1 o1] & E1 & Hr).
    apply bind_Ok in Hr as ([s2 o2] & E2 & [= <- <-]).
    destruct (dispatch_advances k keys self e s1 o1 C ltac:(lia) He E1) as [C1 N1 D1].
    destruct (IH (k + 1) keys s1 s2 o2 C1 ltac:(lia) Hes' E2) as (C2 & N2 & D2 & U2).
    split; [by replace (k + Z.of_nat (S (length es))) with (k + 1 + Z.of_nat (length es)) by lia|].
    split; [intros x; specialize (N1 x); specialize (N2 x); lia|].
    assert (Forall (drawn keys self s2) o2) as D2'
      by (eapply Forall_impl; [exact D2|]; intros q; by apply drawn_later).
    destruct D1 as [->|(q & -> & D1)]; [by split|]. split.
    + constructor; [|done]. by apply (drawn_later _ self self s1 s2).
    + cbn. constructor; [|done]. intros Hin. apply list_elem_of_fmap in Hin as (r & [= Es En] & Hin).
      rewrite Forall_forall in D2. destruct (D2 r Hin) as [_ _ Dr]. destruct D1 as [_ _ Dq].
      rewrite <- Es, <- En in Dr. lia.
Qed.

End Endpoint.

Lemma new_counting d e now r a : counting 1 e (new d e now r a).
Proof.
  split; [apply filed_new|done|]. intros x. unfold next, RtxFacts.next. cbn. rewrite lookup_empty. cbn. lia.
Qed.

(** Below 2^48, different (SSRC, sequence number) pairs make different nonces. *)
Lemma nonces_distinct keys l :
  length (salt (rtp keys)) = SRTP_SALT_LEN -> bytes_ok (salt (rtp keys)) ->
  Forall (fun q => uint 32 (Packet.ssrc_in_header q) /\ 0 <= Packet.seqnum_in_header q < 2 ^ 48) l ->
  NoDup (map (fun q => (Packet.ssrc_in_header q, Packet.seqnum_in_header q)) l) ->
  NoDup (map (nonce keys) l).
Proof.
  intros L S. induction l as [|q l IH]; intros D N; [constructor|].
  inversion_clear D as [|? ? [U Q] D']. cbn in N |- *. apply NoDup_cons in N as [N1 N2].
  apply NoDup_cons. split; [|by apply IH].
  intros Hin. apply list_elem_of_fmap in Hin as (q' & En & Hin). apply N1, list_elem_of_fmap.
  exists q'. split; [|done]. rewrite Forall_forall in D'. destruct (D' q' Hin) as [U' Q'].
  destruct (SrtpFacts.rtp_iv_inj _ _ _ _ _ U U' (proj1 Q) (proj1 Q') L S En) as [Es E].
  unfold wrap in E. rewrite !Z.mod_small in E by lia. by rewrite Es, E.
Qed.

End RtxNonces.

Module RtxNoncesProperties.
Import Endpoint EndpointFacts RtxNonces.
#[local] Existing Instances SampleCipher.flip_aead SampleCipher.flip_aead_laws.

(** The order of [map_to_list] is one order. *)
#[local] Instance list_order : HashMapOrder := {|
  entries V m := map_to_list m; entries_perm V m := Permutation_refl _
|}.

(** C28: No two RTX or padding packets that an endpoint sends are encrypted with
    the same SRTP nonce.  Through any history of an endpoint of fewer than
    2^48 - 1 events (packets relayed, resent, acknowledged or made up as
    padding, arrivals and reports in between), each RTX or padding packet that
    it returns is sealed, under the key of the endpoint, with the nonce made of
    the SSRC and sequence number of that packet, and these nonces are pairwise
    different. *)
Theorem rtx_nonces_distinct `{Aead} `{HashMapOrder} d e now r a es self outs :
  dispatch_all (new d e now r a) es = Ok (self, outs) ->
  Forall ssrcs_ok es -> Z.of_nat (length es) < 2 ^ 48 - 1 ->
  length (salt (rtp e)) = SRTP_SALT_LEN -> bytes_ok (salt (rtp e)) ->
  Forall (sealed e) outs /\ NoDup (map (nonce e) outs).
Proof.
  intros Hr Hes Hb L S.
  destruct (dispatch_all_drawn es 1 e _ _ _ (new_counting d e now r a) ltac:(lia) Hes Hr)
    as (C & _ & D & N).
  split; [eapply Forall_impl; [exact D|]; by intros q []|]. apply nonces_distinct; [done..| |exact N].
  eapply Forall_impl; [exact D|]. intros q [_ U Q]. split; [exact U|].
  destruct (new_counting d e now r a) as [_ _ C0].
  specialize (C0 (Packet.ssrc_in_header q)). pose proof (cnt_next _ _ _ C (Packet.ssrc_in_header q)). lia.
Qed.

Definition sample_keys : KeysAndSalts :=
  {| rtp := {| key := [0]; salt := replicate 12 0 |}; rtcp := {| key := [0]; salt := replicate 12 0 |} |}.

(** A video packet of SSRC 4, and a retransmission of it that another endpoint made. *)
Definition sample_video : list Packet.t :=
  match Packet.with_empty_tag (E:=unit) VP8_PAYLOAD_TYPE 7 0 4 None (Some 0) [1; 2] with
  | Ok p => match Packet.to_rtx (E:=unit) p 900 with Ok q => [p; q] | _ => [] end
  | _ => []
  end.

(** The video packet is sent and resent, padding fills a gap, a retransmission
    is relayed, and the packet is resent once more after it was sent. *)
Definition sample_history : list Event :=
  match sample_video with
  | [p; q] => [RtpToSend p 1; ToResend 4 7 2; PaddingToSend 5 3; RtpToSend q 4;
               MarkedAsSent 4 7; ToResend 4 7 5]
  | _ => []
  end.

Lemma rtx_nonces_distinct_witness :
  match dispatch_all (new sample_keys sample_keys 0 77 78) sample_history with
  | Ok (_, outs) =>
      map (fun q => (Packet.ssrc_in_header q, Packet.seqnum_in_header q)) outs =
        [(5, 1); (5, 2); (5, 3); (5, 4)] /\
      Forall (sealed sample_keys) outs /\ NoDup (map (nonce sample_keys) outs)
  | _ => False
  end.
Proof.
  assert (match dispatch_all (new sample_keys sample_keys 0 77 78) sample_history with
          | Ok (_, outs) =>
              map (fun q => (Packet.ssrc_in_header q, Packet.seqnum_in_header q)) outs =
                [(5, 1); (5, 2); (5, 3); (5, 4)]
          | _ => False
          end) as M by (vm_compute; reflexivity).
  destruct (dispatch_all (new sample_keys sample_keys 0 77 78) sample_history) as [[self outs]| |] eqn:E;
    [|destruct M..].
  split; [exact M|].
  apply (rtx_nonces_distinct sample_keys sample_keys 0 77 78 sample_history self outs); [exact E| | | |].
  - unfold sample_history. let v := eval vm_compute in sample_video in change sample_video with v.
    cbn match beta. repeat (apply Forall_cons; split); [..|constructor];
      cbn [ssrcs_ok Packet.ssrc_in_header]; unfold uint; lia || exact I.
  - unfold sample_history. let v := eval vm_compute in sample_video in change sample_video with v.
    cbn match beta. cbn [length]. lia.
  - reflexivity.
  - apply Forall_replicate. unfold byte_ok, uint. lia.
Defined.

End RtxNoncesProperties.
