(* ===== verification/EndpointDelivery.v ===== *)
(** * EndpointDelivery: two endpoints, end to end

    What one endpoint of [src/backend/src/rtp.rs] sends, the other receives: an
    encrypted media packet, a key frame request, a NACK and the acknowledgements
    of congestion control.  No definitions of the program here; the theorems
    compose the ones of [RtpHeader], [Packet], [Rtcp], [Nack], [TransportCc] and
    [RtpEndpoint]. *)
From S2P Require Import Prelude Common Collections Float Bytes Srtp RtpHeader Packet Replay Nack Rtx Rtcp RtcpReports TransportCc RtpEndpoint.
Import Read Serialize Srtp RtpTypes Expand.

Module HeaderLocality.
Import Header.

Lemma checked_split_app {A} (hd tl tl' : list A) n x y :
  checked_split_at (hd ++ tl) n = Some (x, y) -> (n <= length hd)%nat ->
  x = take n hd /\ y = drop n hd ++ tl /\
  checked_split_at (hd ++ tl') n = Some (take n hd, drop n hd ++ tl').
Proof.
  intros E Hn. apply ReadFacts.checked_split_at_Some in E as (_ & -> & ->).
  rewrite take_app_le, drop_app_le by lia. split_and!; [done..|].
  apply ReadFacts.checked_split_at_Some. rewrite length_app, take_app_le, drop_app_le by lia.
  split_and!; [lia|done..].
Qed.

Lemma checked_split_length {A} (l : list A) n x y :
  checked_split_at l n = Some (x, y) -> length x = n /\ length l = (n + length y)%nat.
Proof.
  intros E. apply ReadFacts.checked_split_at_Some in E as (? & -> & ->).
  rewrite length_take, length_drop. lia.
Qed.

Lemma ok_or_Ok {E A} (e : E) (o : option A) a : ok_or e o = Ok a -> o = Some a.
Proof. destruct o; cbn; congruence. Qed.

Lemma parse_hd hd tl tl' h :
  parse (hd ++ tl) = Ok h -> length hd = (payload_range h).1 -> length tl' = length tl ->
  parse (hd ++ tl') = Ok h.
Proof.
  intros Hp Hhd Htl. unfold parse in *.
  apply bind_Ok in Hp as ([mh rest] & E1 & Hp). apply ok_or_Ok in E1.
  apply bind_Ok in Hp as (b0 & Eb0 & Hp). cbv zeta in Hp.
  apply bind_Ok in Hp as (b1 & Eb1 & Hp).
  apply bind_Ok in Hp as (s1 & Es1 & Hp). apply bind_Ok in Hp as (seqnum & Eseq & Hp).
  apply bind_Ok in Hp as (s2 & Es2 & Hp). apply bind_Ok in Hp as (ts & Ets & Hp).
  apply bind_Ok in Hp as (s3 & Es3 & Hp). apply bind_Ok in Hp as (ssrc & Essrc & Hp).
  set (csrcs := (4 * Z.to_nat (Z.land b0 15))%nat) in *.
  apply bind_Ok in Hp as ([cs ext] & E2 & Hp). apply ok_or_Ok in E2.
  apply bind_Ok in Hp as ([e start] & E3 & Hp).
  destruct (Nat.ltb_spec (length (hd ++ tl)) (start + SRTP_AUTH_TAG_LEN)) as [|Hlen]; [done|].
  destruct (_ && (_ <=? start)%nat) eqn:Epad; [done|]. injection Hp as <-.
  cbn [payload_range fst] in Hhd. subst start.
  assert (12 + csrcs + (if (0 <? Z.shiftr (Z.land b0 16) 4)%Z then 4 else 0) <= length hd)%nat as Hbound.
  { destruct (0 <? Z.shiftr _ 4); [|injection E3; unfold RTP_MIN_HEADER_LEN in *; lia].
    apply bind_Ok in E3 as ([? ?] & _ & E3). do 4 (apply bind_Ok in E3 as (? & _ & E3)). cbv zeta in E3.
    apply bind_Ok in E3 as (? & _ & E3). apply bind_Ok in E3 as ([? ?] & _ & E3).
    apply bind_Ok in E3 as (? & _ & E3). injection E3 as _ E3. unfold RTP_MIN_HEADER_LEN, RTP_EXTENSIONS_HEADER_LEN in *. lia. }
  destruct (checked_split_app hd tl tl' _ _ _ E1) as (-> & -> & E1'); [unfold RTP_MIN_HEADER_LEN; lia|].
  rewrite E1'. cbn [ok_or]. rewrite mbind_Ok, Eb0, mbind_Ok. cbv zeta. rewrite Eb1, mbind_Ok.
  rewrite Es1, mbind_Ok, Eseq, mbind_Ok, Es2, mbind_Ok, Ets, mbind_Ok, Es3, mbind_Ok, Essrc, mbind_Ok.
  fold csrcs.
  destruct (checked_split_app _ tl tl' _ _ _ E2) as (-> & -> & E2');
    [rewrite length_drop; unfold RTP_MIN_HEADER_LEN; lia|].
  rewrite E2'. cbn [ok_or]. rewrite mbind_Ok.
  set (hd2 := drop csrcs _) in *.
  assert (length hd2 = length hd - 12 - csrcs)%nat as Hhd2 by (unfold hd2; rewrite !length_drop; done).
  clearbody hd2.
  match goal with |- context [mbind _ ?m] => assert (m = Ok (e, length hd)) as -> end.
  { destruct (0 <? Z.shiftr _ 4); [|exact E3].
    apply bind_Ok in E3 as ([eh ext] & E4 & E3). apply ok_or_Ok in E4.
    destruct (checked_split_app _ tl tl' _ _ _ E4) as (-> & -> & E4');
      [unfold RTP_EXTENSIONS_HEADER_LEN; lia|].
    rewrite E4'. cbn [ok_or]. rewrite mbind_Ok.
    apply bind_Ok in E3 as (s4 & Es4 & E3). apply bind_Ok in E3 as (profile & Eprofile & E3).
    apply bind_Ok in E3 as (s5 & Es5 & E3). apply bind_Ok in E3 as (len & Elen & E3).
    rewrite Es4, mbind_Ok, Eprofile, mbind_Ok, Es5, mbind_Ok, Elen, mbind_Ok. cbv zeta in E3 |- *.
    apply bind_Ok in E3 as (p & Ep & E3). apply bind_Ok in E3 as ([exts rest] & E5 & E3).
    apply ok_or_Ok in E5. apply bind_Ok in E3 as (e' & Ee & [= <- Estart]).
    rewrite Ep, mbind_Ok. unfold RTP_MIN_HEADER_LEN, RTP_EXTENSIONS_HEADER_LEN in *.
    destruct (checked_split_app _ tl tl' _ _ _ E5) as (-> & -> & E5'); [rewrite length_drop; lia|].
    rewrite E5'. cbn [ok_or]. rewrite mbind_Ok, Ee, mbind_Ok. by rewrite <- Estart. }
  rewrite mbind_Ok.
  assert (length (hd ++ tl') = length (hd ++ tl)) as -> by (rewrite !length_app; lia).
  destruct (Nat.ltb_spec (length (hd ++ tl)) (length hd + SRTP_AUTH_TAG_LEN)); [lia|].
  by rewrite Epad.
Qed.

(** What the parser finds depends on the header only: the same bytes up to the
    payload, and the same length, give the same header. *)
Lemma parse_same_header b b' h :
  parse b = Ok h -> length b' = length b ->
  take (payload_range h).1 b' = take (payload_range h).1 b -> ((payload_range h).1 <= length b)%nat ->
  parse b' = Ok h.
Proof.
  intros Hp Hl Ht Ha. set (a := (payload_range h).1) in *.
  rewrite <- (take_drop a b) in Hp. rewrite <- (take_drop a b'), Ht.
  apply (parse_hd _ (drop a b)); [done|rewrite length_take; lia|rewrite !length_drop; lia].
Qed.

End HeaderLocality.

Module DeliveryFacts.
Import Endpoint EndpointFacts SequenceNumberReuseDetector(NotUsedBefore) SerializeFacts.
#[local] Existing Instance FeedbackFacts.message_laws.

(** A packet whose parsed values say what its bytes say: what a sender hands to
    encryption. *)
Record consistent (p : Packet.t) (h : Header.t) : Prop := {
  consistent_bytes : bytes_ok (Packet.serialized p);
  consistent_parse : Header.parse (Packet.serialized p) = Ok h;
  consistent_ssrc : Header.ssrc h = Packet.ssrc_in_header p;
  consistent_seqnum : Header.seqnum h = u16 (Packet.seqnum_in_header p);
  consistent_range : Header.payload_range h = Packet.payload_range_in_header p;
  consistent_plain : Packet.encrypted p = false;
  (** an RTX packet holds the number of the original *)
  consistent_rtx : is_rtx_payload_type (Header.payload_type h) = true ->
    ((Header.payload_range h).1 + 2 <= (Header.payload_range h).2)%nat
}.

(** The receiver counts [p] among the packets it has not seen, and its number is
    near the largest one on its SSRC. *)
Record expects (self : t) (ssrc seqnum : Z) : Prop := {
  expects_uint : uint 64 seqnum;
  expects_near : forall s, state_by_incoming_ssrc self !! ssrc = Some s ->
    0 <= max_seqnum s /\ Z.abs (seqnum - max_seqnum s) < 2 ^ 15;
  expects_first : state_by_incoming_ssrc self !! ssrc = None -> seqnum < 2 ^ 15;
  expects_unused : exists d,
    SequenceNumberReuseDetector.remember_used (detector self ssrc) seqnum = Ok (d, NotUsedBefore)
}.

Section Delivery.
Context `{AeadLaws} `{HashMapOrder}.

Lemma note_expected self header now seqnum :
  expects self (Header.ssrc header) seqnum -> Header.seqnum header = u16 seqnum ->
  exists self' tcc, note_seqnums self header now = Ok (self', tcc, seqnum, NotUsedBefore) /\
    decrypt self' = decrypt self.
Proof.
  intros [Hu Hnear Hfirst [d Hd]] Hs. unfold note_seqnums.
  destruct (match Header.tcc_seqnum header with Some _ => _ | None => _ end) as [tcc max_tcc].
  set (self1 := self <| max_received_tcc_seqnum := max_tcc |>).
  pose proof (detector_get self1 (Header.ssrc header) now) as Ed.
  change (detector self1 (Header.ssrc header)) with (detector self (Header.ssrc header)) in Ed.
  set (st := get_incoming_ssrc_state_mut self1 (Header.ssrc header) now) in *. cbn zeta.
  assert (0 <= max_seqnum st /\ Z.abs (seqnum - max_seqnum st) < 2 ^ 15) as [Hm Hn].
  { unfold st, get_incoming_ssrc_state_mut, self1. cbn [state_by_incoming_ssrc set_field].
    destruct (state_by_incoming_ssrc self !! Header.ssrc header) as [s|] eqn:E; cbn; [auto|].
    specialize (Hfirst eq_refl). unfold uint in Hu. lia. }
  unfold expand_seqnum. rewrite Hs.
  pose proof (CountersFacts.expand_correct 16 (max_seqnum st) seqnum ltac:(lia) Hm Hu Hn) as E.
  change (wrap 16 seqnum) with (u16 seqnum) in E.
  destruct (Counters.expand_truncated_counter 16 (u16 seqnum) (max_seqnum st)) as [s max]. cbn in E. subst s.
  rewrite Ed, Hd, mbind_Ok. by eexists _, _.
Qed.

(** A decrypted RTX packet that is long enough is unwrapped. *)
Lemma unwrap_long self header p now a e :
  Packet.seqnum_in_payload p = None -> Packet.payload_range_in_header p = (a, e) ->
  (a <= e <= length (Packet.serialized p))%nat ->
  (is_rtx_payload_type (Header.payload_type header) = true -> (a + 2 <= e)%nat) ->
  exists self' o, unwrap_rtx self header p now =
    Ok (self', Some (p <| Packet.seqnum_in_payload := o |>)).
Proof.
  intros Hn Hr Hl Hx. unfold unwrap_rtx.
  assert (Packet.payload (E:=unit) p = Ok (take (e - a) (drop a (Packet.serialized p)))) as ->.
  { unfold Packet.payload, Packet.payload_range, Packet.is_rtx. rewrite Hn, Hr. cbn [fst snd].
    by rewrite slice_no_panic by lia. }
  rewrite mbind_Ok. set (payload := take _ _).
  assert (length payload = (e - a)%nat) as Hlen
    by (unfold payload; rewrite length_take, length_drop; lia).
  destruct (is_rtx_payload_type (Header.payload_type header) && _) eqn:E.
  - apply andb_true_iff in E as [E _]. specialize (Hx E).
    destruct payload as [|x [|y payload]]; [simpl in Hlen; lia..|].
    assert (exists v, read_u16 (x :: y :: payload) = Ok v) as [[v rest] ->].
    { unfold read_u16. eexists. cbn. reflexivity. }
    cbn [ok_opt]. rewrite mbind_Ok. destruct (expand_seqnum v _) as [full max]. by eexists _, (Some full).
  - exists self, (Packet.seqnum_in_payload p). by destruct p.
Qed.

(** Decryption looks at the numbers, the range and the bytes of a packet only. *)
Lemma decrypt_same p q key salt r :
  Packet.payload_range_in_header q = Packet.payload_range_in_header p ->
  Packet.ssrc_in_header q = Packet.ssrc_in_header p ->
  Packet.seqnum_in_header q = Packet.seqnum_in_header p ->
  Packet.serialized q = Packet.serialized p -> Packet.encrypted q = Packet.encrypted p ->
  Packet.decrypt_in_place p key salt = Ok r ->
  Packet.decrypt_in_place q key salt =
    Ok (q <| Packet.serialized := Packet.serialized r |> <| Packet.encrypted := false |>).
Proof.
  intros E1 E2 E3 E4 E5 E. unfold Packet.decrypt_in_place in *. rewrite E5.
  assert (Packet.prepare_for_crypto q salt = Packet.prepare_for_crypto p salt) as ->
    by (unfold Packet.prepare_for_crypto; by rewrite E1, E2, E3, E4).
  destruct (assert_ _); [|done|done]. rewrite mbind_Ok in *.
  destruct (Packet.prepare_for_crypto p salt) as [[[[nonce aad] ct] tag]| |]; [|done|done].
  rewrite mbind_Ok in *. destruct (assert_ _); [|done|done]. rewrite mbind_Ok in *.
  destruct (ok_or tt (open key nonce aad ct tag)) as [text| |]; [|done|done]. rewrite mbind_Ok in *.
  assert (Packet.serialized r = aad ++ text ++ tag) as -> by (injection E as <-; done). done.
Qed.

(** What encryption leaves in the clear. *)
Lemma encrypt_in_place_header p key salt c a e :
  Packet.payload_range_in_header p = (a, e) -> (a <= e)%nat ->
  length (Packet.serialized p) = (e + SRTP_AUTH_TAG_LEN)%nat ->
  Packet.encrypt_in_place p key salt = Ok c ->
  Packet.ssrc_in_header c = Packet.ssrc_in_header p /\
  Packet.seqnum_in_header c = Packet.seqnum_in_header p /\
  Packet.payload_range_in_header c = (a, e) /\
  length (Packet.serialized c) = length (Packet.serialized p) /\
  take a (Packet.serialized c) = take a (Packet.serialized p).
Proof.
  intros Hr Hae Hl E. unfold Packet.encrypt_in_place in E.
  destruct (assert_ _); [|done|done]. rewrite mbind_Ok in E.
  assert (PacketFacts.cipher_parts p) as Hc by (unfold PacketFacts.cipher_parts; by rewrite Hr).
  rewrite PacketFacts.prepare_ok, mbind_Ok in E by done. rewrite Hr in E. cbn [fst snd] in E.
  destruct (seal _ _ _ _) as [[ct tag]|] eqn:Es; [|done]. cbn [ok_or] in E. rewrite mbind_Ok in E.
  destruct (assert_ _); [|done|done]. rewrite mbind_Ok in E. injection E as <-.
  pose proof (seal_length _ _ _ _ _ _ Es) as [Hct Htag]. rewrite PacketFacts.length_sub in Hct by lia.
  cbn. split_and!; [done|done|done| |].
  - rewrite !length_app, length_take, Htag, Hct. unfold SRTP_AUTH_TAG_LEN in *. lia.
  - by rewrite take_app_length' by (rewrite length_take; lia).
Qed.

Lemma delivered sender receiver p h now later :
  rtp (encrypt sender) = rtp (decrypt receiver) -> consistent p h ->
  expects receiver (Packet.ssrc_in_header p) (Packet.seqnum_in_header p) ->
  forall sender' c, encrypt_and_send_rtp sender p now = Ok (sender', Some c) ->
  exists receiver' q, receive_rtp receiver (Packet.serialized c) later = Ok (receiver', Some q) /\
    Packet.ssrc_in_header q = Packet.ssrc_in_header p /\
    Packet.seqnum_in_header q = Packet.seqnum_in_header p /\
    Packet.payload_range_in_header q = Packet.payload_range_in_header p /\
    take (Packet.payload_range_in_header p).2 (Packet.serialized q) =
      take (Packet.payload_range_in_header p).2 (Packet.serialized p).
Proof.
  intros Hk [Hb Hp Hs Hn Hr He Hx] Hexp sender' c E. unfold encrypt_and_send_rtp in E. cbv zeta in E.
  set (s1 := if is_rtxable_payload_type _ then _ else sender) in E.
  assert (encrypt s1 = encrypt sender) as Es1 by (unfold s1; by case_if). rewrite Es1 in E.
  destruct (Packet.encrypt_in_place p (key (rtp (encrypt sender))) (salt (rtp (encrypt sender)))) as [c'| |] eqn:Ee;
    [|done|done]. cbn [ok_opt] in E. rewrite mbind_Ok in E. injection E as _ ->.
  pose proof (HeaderFacts.parse_ok _ Hb) as Hok. rewrite Hp in Hok.
  destruct Hok as [Hstart Hend Hpad _ _ _ _ _ _ _ _].
  rewrite Hr in Hstart, Hend, Hpad, Hx.
  destruct (Packet.payload_range_in_header p) as [a e] eqn:Er. cbn [fst snd] in *.
  destruct (encrypt_in_place_header p _ _ c a e Er ltac:(lia) Hend Ee) as (C1 & C2 & C3 & C4 & C5).
  assert (PacketFacts.cipher_parts p) as Hc.
  { unfold PacketFacts.cipher_parts. rewrite Er. split; [lia|done]. }
  destruct (PacketFacts.decrypt_encrypt p _ _ c Hc He Ee) as (C6 & _ & tag & Htag & D).
  unfold receive_rtp.
  rewrite (HeaderLocality.parse_same_header (Packet.serialized p) (Packet.serialized c) h);
    [|done|done|rewrite Hr; done|rewrite Hr, Hend; cbn; lia].
  cbn [ok_opt]. rewrite mbind_Ok. rewrite <- Hs in Hexp.
  destruct (note_expected receiver h later _ Hexp Hn) as (r1 & tcc & -> & Edec). rewrite mbind_Ok.
  cbv zeta. set (incoming := Packet.new h _ None false tcc true _ 0 _).
  rewrite Edec, <- Hk.
  rewrite (decrypt_same c incoming _ _ _ ltac:(cbn; congruence) ltac:(cbn; congruence)
    ltac:(cbn; congruence) eq_refl ltac:(cbn; congruence) D).
  cbn [ok_opt]. rewrite mbind_Ok.
  set (plain := incoming <| Packet.serialized := _ |> <| Packet.encrypted := false |>).
  assert (Packet.payload_range_in_header plain = (a, e)) as Ep by (cbn; congruence).
  set (text := take _ _ ++ tag) in plain.
  assert (length text = (e + SRTP_AUTH_TAG_LEN)%nat) as Hlen.
  { unfold text. rewrite Er. cbn [snd]. rewrite length_app, length_take, Htag, Hend.
    unfold SRTP_AUTH_TAG_LEN. lia. }
  assert (Packet.serialized plain = text) as Et by done.
  destruct (read_padding_ok h plain a e eq_refl Ep ltac:(rewrite Et; lia) Hpad) as [n ->]. rewrite mbind_Ok.
  destruct (unwrap_long r1 h (plain <| Packet.padding_byte_count := n |>) later a e)
    as (r2 & o & ->); [done|exact Ep| |exact Hx|]. 1: change (a <= e <= length (Packet.serialized plain))%nat; rewrite Et; lia.
  rewrite mbind_Ok.
  eexists _, _. split; [reflexivity|]. cbn. split_and!; [done|done|congruence|].
  unfold text. rewrite Er. cbn [snd]. rewrite take_app_length' by (rewrite length_take, Hend; lia). done.
Qed.

(** ** RTCP *)

(** What the peer parses out of a packet. *)
Definition understood (receiver : t) (b : bytes) (incoming : ControlPacket.t) : Prop :=
  ControlPacket.parse_and_decrypt_in_place b (key (rtcp (decrypt receiver)))
    (salt (rtcp (decrypt receiver))) = Ok incoming.

Lemma sent_rtcp {W} `{WriterLaws W} sender receiver pt fmt (payload : W) sender' b incoming :
  rtcp (encrypt sender) = rtcp (decrypt receiver) ->
  0 <= next_outgoing_srtcp_index sender -> uint 32 (rtcp_sender_ssrc sender) -> uint 5 fmt ->
  Z.of_nat (length (RtcpFacts.padded payload)) / 4 + 1 < 2 ^ 16 ->
  ControlPacket.add_packet ControlPacket.default
    (RtcpHeader.mk false fmt pt (Z.of_nat (length (RtcpFacts.padded payload)) / 4 + 1))
    (be_bytes 4 (rtcp_sender_ssrc sender) ++ RtcpFacts.padded payload) = Ok incoming ->
  send_rtcp sender pt fmt false payload = Ok (sender', Some b) -> understood receiver b incoming.
Proof.
  intros Hk Hi Hs Hf Hl Hadd E. unfold send_rtcp, send_rtcp_and_increment_index in E.
  destruct (ControlPacket.serialize_and_encrypt _ _ _ _ _ _ _ _) as [b'| |] eqn:Es; [|done|done].
  cbn [ok_opt] in E. rewrite mbind_Ok in E. injection E as _ ->.
  unfold understood. rewrite <- Hk, <- Hadd.
  apply (RtcpFacts.rtcp_roundtrip _ _ _ _ payload (next_outgoing_srtcp_index sender)); try done.
  split; [done|]. rewrite RtcpFacts.serialize_parts in Es.
  eapply encrypted_index; [|exact Hi|exact Es].
  unfold RtcpFacts.wire_header. rewrite !length_app, !length_be_bytes, !length_replicate. simpl. lia.
Qed.

(** Packets without reports leave the receiver as it was, but for its record of
    what was sent. *)
Lemma receive_understood receiver b incoming now tcc acks :
  understood receiver b incoming ->
  Sender.process_feedback_and_correlate_acks (tcc_sender receiver)
    (ControlPacket.tcc_feedbacks incoming) now = Ok (tcc, acks) ->
  ControlPacket.sender_reports incoming = [] -> ControlPacket.receiver_reports incoming = [] ->
  receive_rtcp receiver b now =
    Ok (receiver <| tcc_sender := tcc |>,
        Some (processed (ControlPacket.key_frame_requests incoming) acks (ControlPacket.nacks incoming))).
Proof.
  unfold understood, receive_rtcp. intros -> Ep E1 E2. cbn [ok_opt]. rewrite mbind_Ok, Ep, mbind_Ok.
  cbv zeta. by rewrite E1, E2.
Qed.

Lemma set_same_tcc (receiver : t) : receiver <| tcc_sender := tcc_sender receiver |> = receiver.
Proof. by destruct receiver. Qed.

Lemma pli_understood sender receiver ssrc sender' b now :
  rtcp (encrypt sender) = rtcp (decrypt receiver) ->
  0 <= next_outgoing_srtcp_index sender -> uint 32 (rtcp_sender_ssrc sender) -> uint 32 ssrc ->
  send_pli sender ssrc = Ok (sender', Some b) ->
  receive_rtcp receiver b now = Ok (receiver, Some (processed [ssrc] [] [])).
Proof.
  intros Hk Hi Hs Hu E.
  assert (RtcpFacts.padded (w32 ssrc) = be_bytes 4 ssrc) as Ep by done.
  assert (understood receiver b (ControlPacket.mk [ssrc] [] [] [] [])) as Hb.
  { apply (sent_rtcp sender receiver RTCP_TYPE_SPECIFIC_FEEDBACK RTCP_FORMAT_PLI (w32 ssrc) sender' b);
      [exact Hk|exact Hi|exact Hs|split; reflexivity || discriminate|rewrite Ep, length_be_bytes; reflexivity| |exact E].
    rewrite Ep.
    unfold ControlPacket.add_packet. rewrite slice_from_ok by (rewrite length_app, length_be_bytes; lia).
    rewrite mbind_Ok, drop_app_length' by (by rewrite length_be_bytes).
    cbn -[be_bytes slice parse_u32]. rewrite length_be_bytes. cbn -[be_bytes slice parse_u32].
    rewrite slice_no_panic by (rewrite length_be_bytes; lia). rewrite mbind_Ok.
    rewrite drop_0, take_ge by (by rewrite length_be_bytes).
    unfold parse_u32. rewrite <- (app_nil_r (be_bytes 4 ssrc)), ReadFacts.parse_be_bytes by done. done. }
  rewrite (receive_understood _ _ _ now (tcc_sender receiver) [] Hb eq_refl eq_refl eq_refl).
  by rewrite set_same_tcc.
Qed.

(** ** NACKs *)

(** What the sender of NACKs of an SSRC keeps: ascending numbers, not too many. *)
Record nack_ok (n : Nack.NackSender) : Prop := {
  nack_sorted : StronglySorted Z.lt (NackFacts.pending n);
  nack_uint : Forall (uint 64) (NackFacts.pending n);
  nack_limit : (length (NackFacts.pending n) <= 250)%nat
}.

Lemma retain_keys (f : Z -> Nack.Sent -> option Nack.Sent) (c : KeySortedCache.t Nack.Sent) :
  (KeySortedCache.value_by_key (KeySortedCache.retain c f)).*1 `sublist_of` (KeySortedCache.value_by_key c).*1.
Proof.
  unfold KeySortedCache.retain. cbn. induction (KeySortedCache.value_by_key c) as [|[k v] l IH]; [done|].
  cbn. destruct (f k v); cbn; by constructor.
Qed.

Lemma to_send_sublist now l : forall seqnums, Nack.to_send now l = Ok seqnums -> seqnums `sublist_of` l.*1.
Proof.
  induction l as [|[k v] l IH]; intros seqnums E; cbn [Nack.to_send] in E; [by injection E as <-|].
  apply bind_Ok in E as ([[a last] c] & _ & E). apply bind_Ok in E as (rest & Er & E). injection E as <-.
  cbn. case_if; constructor; auto.
Qed.

Lemma Forall_sublist {A} (P : A -> Prop) l k : l `sublist_of` k -> Forall P k -> Forall P l.
Proof. induction 1; intros Hf; [done|inversion_clear Hf; constructor; auto|inversion_clear Hf; auto]. Qed.

Lemma sublist_sorted (l k : list Z) : l `sublist_of` k -> StronglySorted Z.lt k -> StronglySorted Z.lt l.
Proof.
  induction 1 as [|x l k Hl IH|x l k Hl IH]; intros Hs; [done|..]; inversion_clear Hs as [|? ? Hs' Hall].
  - constructor; [auto|]. by eapply Forall_sublist.
  - auto.
Qed.

Lemma send_nacks_seqnums n now rtt n' seqnums : nack_ok n -> Nack.send_nacks n now rtt = Ok (n', Some seqnums) ->
  StronglySorted Z.lt seqnums /\ Forall (uint 64) seqnums /\ (length seqnums <= 250)%nat /\
  seqnums `sublist_of` NackFacts.pending n.
Proof.
  intros [Hs Hu Hl] E. unfold Nack.send_nacks in E. cbv zeta in E. case_if_in E; [|done].
  apply bind_Ok in E as (l & El & E). injection E as _ <-. apply to_send_sublist in El.
  assert (l `sublist_of` NackFacts.pending n) as Hsub by (etrans; [exact El|apply retain_keys]).
  split_and!; [by eapply sublist_sorted|by eapply Forall_sublist| |exact Hsub].
  etrans; [by eapply sublist_length|exact Hl].
Qed.

(** A NACK takes at most one item for each number. *)
Lemma write_items_length l : forall first mask items,
  Nack.write_items first mask l = Ok items -> (length items <= S (length l))%nat.
Proof.
  induction l as [|s l IH]; intros first mask items E; cbn [Nack.write_items] in E; [by injection E as <-|].
  cbv zeta in E. case_if_in E.
  - apply bind_Ok in E as (m & _ & E). apply IH in E. simpl. lia.
  - apply bind_Ok in E as (rest & Er & [= <-]). apply IH in Er. simpl. lia.
Qed.

Lemma write_nack_length ssrc seqnums w : Nack.write_nack ssrc seqnums = Ok w ->
  (length (to_vec w) <= 4 + 4 * length seqnums)%nat.
Proof.
  unfold Nack.write_nack. intros E. apply bind_Ok in E as (items & Ei & [= <-]).
  assert (length items <= length seqnums)%nat as Hl.
  { destruct seqnums as [|f l]; [by injection Ei as <-|]. by apply write_items_length in Ei. }
  rewrite written_len_ok. cbn. assert (sum_list_with (fun _ : U16 * U16 => 4%nat) items = 4 * length items)%nat as ->
    by (clear; induction items; simpl; lia).
  lia.
Qed.

Lemma nack_understood sender receiver ssrc state now rtt sender' b later :
  rtcp (encrypt sender) = rtcp (decrypt receiver) ->
  0 <= next_outgoing_srtcp_index sender -> uint 32 (rtcp_sender_ssrc sender) -> uint 32 ssrc ->
  nack_ok (nack_sender state) -> send_nack sender ssrc now rtt state = Ok (sender', Some b) ->
  exists n seqnums, Nack.send_nacks (nack_sender state) now rtt = Ok (n, Some seqnums) /\
    receive_rtcp receiver b later =
      Ok (receiver, Some (processed [] [] [Nack.nack ssrc (map u16 seqnums)])).
Proof.
  intros Hk Hi Hs Hu Hn E. unfold send_nack in E. apply bind_Ok in E as ([n o] & En & E). cbv zeta in E.
  destruct o as [seqnums|]; [|done]. exists n, seqnums. split; [done|].
  destruct (send_nacks_seqnums _ _ _ _ _ Hn En) as (Hsort & Hall & Hlen & _).
  apply bind_Ok in E as (w & Ew & E). pose proof (write_nack_length _ _ _ Ew) as Hw.
  unfold send_rtcp, send_rtcp_and_increment_index in E.
  destruct (ControlPacket.serialize_and_encrypt _ _ _ _ _ _ _ _) as [b'| |] eqn:Es; [|done|done].
  cbn [ok_opt] in E. rewrite mbind_Ok in E. injection E as _ ->.
  assert (0 <= next_outgoing_srtcp_index sender < 2 ^ 31) as Hi'.
  { split; [done|]. pose proof Es as Es'. rewrite RtcpFacts.serialize_parts in Es'.
    eapply encrypted_index; [|exact Hi|exact Es'].
    unfold RtcpFacts.wire_header. rewrite !length_app, !length_be_bytes, !length_replicate. simpl. lia. }
  assert (understood receiver b (ControlPacket.mk [] [] [Nack.nack ssrc (map u16 seqnums)] [] [])) as Hb.
  { unfold understood. rewrite <- Hk.
    refine (RtcpFacts.rtcp_nack _ ssrc seqnums _ _ _ w b Hs Hi' Hu Hsort Hall Ew _ Es). lia. }
  rewrite (receive_understood _ _ _ later (tcc_sender receiver) [] Hb eq_refl eq_refl eq_refl).
  by rewrite set_same_tcc.
Qed.

(** ** Acknowledgements *)

(** Packets received one after the other, and the acknowledgements they give. *)
Fixpoint receive_rtcps (self : t) (packets : list bytes) (now : Z) : Res unit (t * list Ack) :=
  match packets with
  | [] => Ok (self, [])
  | b :: packets =>
      '(self, o) ← receive_rtcp self b now;
      '(self, more) ← receive_rtcps self packets now;
      Ok (self, match o with Some p => acks p ++ more | None => more end)
  end.

(** The encrypted packets of the messages, as the peer takes them apart. *)
Definition carries (receiver : t) (b payload : bytes) : Prop :=
  understood receiver b (ControlPacket.mk [] [payload] [] [] []).

Lemma receive_rtcps_ok now packets payloads : forall receiver tcc acks,
  Forall2 (carries receiver) packets payloads ->
  Sender.process_feedback_and_correlate_acks (tcc_sender receiver) payloads now = Ok (tcc, acks) ->
  exists receiver', receive_rtcps receiver packets now = Ok (receiver', acks).
Proof.
  revert packets. induction payloads as [|x payloads IH]; intros packets receiver tcc acks Hc Hp.
  - inversion Hc; subst. injection Hp as _ <-. by exists receiver.
  - inversion Hc as [|b ? packets' ? Hb Hc']; subst. cbn [receive_rtcps].
    cbn [Sender.process_feedback_and_correlate_acks] in Hp.
    destruct (Feedback.read_feedback x _) as [r max] eqn:Er. apply bind_Ok in Hp as (o & Eo & Hp).
    destruct (match o with Some _ => _ | None => _ end) as [tcc1 acks1] eqn:Ec.
    apply bind_Ok in Hp as ([tcc2 more] & Hp & [= <- <-]).
    rewrite (receive_understood _ _ _ now tcc1 acks1 Hb); [|cbn|done..].
    + rewrite mbind_Ok.
      edestruct (IH packets' (receiver <| tcc_sender := tcc1 |>)) as [receiver' ->]; [exact Hc'|cbn; exact Hp|].
      rewrite mbind_Ok. by exists receiver'.
    + rewrite Er, Eo, mbind_Ok, Ec. by rewrite app_nil_r.
Qed.

(** AES-GCM refuses only texts far longer than a packet. *)
Definition seals : Prop := forall key nonce aad text, is_Some (seal key nonce aad text).

Lemma send_rtcp_sends {W} `{WriterLaws W} sender pt fmt (payload : W) : seals ->
  0 <= next_outgoing_srtcp_index sender < 2 ^ 31 ->
  exists b, send_rtcp sender pt fmt false payload =
    Ok (sender <| next_outgoing_srtcp_index ::= fun i => u32 (i + 1) |>, Some b).
Proof.
  intros Hseal [Hi Hi']. unfold send_rtcp, send_rtcp_and_increment_index.
  rewrite RtcpFacts.serialize_parts.
  destruct (RtcpFacts.iv_some (rtcp_sender_ssrc sender) _ (salt (rtcp (encrypt sender))) Hi') as [iv Hiv].
  set (h := RtcpFacts.wire_header _ _ _ _ _).
  assert (length h = 8%nat) as Hh.
  { unfold h, RtcpFacts.wire_header. rewrite !length_app, !length_be_bytes. done. }
  destruct (Hseal (key (rtcp (encrypt sender))) iv (h ++ RtcpFacts.footer (next_outgoing_srtcp_index sender))
    (RtcpFacts.padded payload)) as [[c tag] Es].
  rewrite (RtcpFacts.encrypt_parts h _ (replicate 16 0) (replicate 4 0) _ _ _ _ iv c tag) by done.
  cbn [ok_opt]. rewrite mbind_Ok. by eexists.
Qed.

Lemma message_fits m : FeedbackFacts.short m ->
  Z.of_nat (length (RtcpFacts.padded m)) / 4 + 1 < 2 ^ 16.
Proof.
  unfold FeedbackFacts.short, FeedbackFacts.MESSAGE_LIMIT. intros Hm.
  rewrite RtcpFacts.length_padded. rewrite written_len_ok in Hm.
  assert (Math.round_up_to_multiple_of 4 (written_len m) <= written_len m + 3)%nat as Hr.
  { unfold Math.round_up_to_multiple_of. replace (4 - 1)%nat with 3%nat by lia.
    pose proof (Nat.div_mod (written_len m + 3) 4 ltac:(lia)). lia. }
  generalize dependent (written_len m). intros n Hn Hr.
  apply Z.lt_le_trans with (33049 + 1); [|lia].
  assert (Z.of_nat (Math.round_up_to_multiple_of 4 n) / 4 < 33049); [|lia]. apply Z.div_lt_upper_bound; lia.
Qed.

Lemma send_messages_carried receiver ms : forall sender,
  rtcp (encrypt sender) = rtcp (decrypt receiver) -> seals -> Forall FeedbackFacts.short ms ->
  0 <= next_outgoing_srtcp_index sender -> uint 32 (rtcp_sender_ssrc sender) ->
  next_outgoing_srtcp_index sender + Z.of_nat (length ms) <= 2 ^ 31 ->
  exists sender' packets, send_messages sender ms = Ok (sender', packets) /\
    Forall2 (carries receiver) packets (map RtcpFacts.padded ms).
Proof.
  induction ms as [|m ms IH]; intros sender Hk Hseal Hms Hi Hs Hb; cbn [send_messages].
  - exists sender, []. split; [done|constructor].
  - inversion_clear Hms as [|? ? Hm Hms']. cbn [length] in Hb.
    destruct (send_rtcp_sends sender RTCP_TYPE_GENERIC_FEEDBACK RTCP_FORMAT_TRANSPORT_CC m Hseal ltac:(lia))
      as [b E]. rewrite E, mbind_Ok.
    set (sender1 := sender <| next_outgoing_srtcp_index ::= _ |>) in *.
    assert (next_outgoing_srtcp_index sender1 = next_outgoing_srtcp_index sender + 1) as Hi1.
    { unfold sender1, u32. cbn. apply wrap_small. unfold uint. lia. }
    destruct (IH sender1 Hk Hseal Hms' ltac:(lia) Hs ltac:(lia)) as (sender' & packets & -> & Hc).
    rewrite mbind_Ok. exists sender', (b :: packets). split; [done|]. cbn [map]. constructor; [|done].
    refine (sent_rtcp sender receiver _ _ m sender1 b _ Hk Hi Hs _ (message_fits m Hm) _ E).
    + split; [discriminate|reflexivity].
    + unfold ControlPacket.add_packet. rewrite slice_from_ok by (rewrite length_app, length_be_bytes; lia).
      rewrite mbind_Ok, drop_app_length' by (by rewrite length_be_bytes). done.
Qed.

Lemma messages_length {E} fuel : forall ssrc number epoch arrivals ms next,
  Feedback.messages (E:=E) fuel ssrc number epoch arrivals = Ok (ms, next) -> (length ms <= fuel)%nat.
Proof.
  induction fuel as [|fuel IH]; intros ssrc number epoch arrivals ms next Hm;
    destruct arrivals as [|[first a] l]; cbn [Feedback.messages] in Hm; try (injection Hm as <- _; simpl; lia); [done|].
  cbv zeta in Hm. apply bind_Ok in Hm as ([[[last ds] cs] rest] & _ & Hm).
  apply bind_Ok in Hm as ([ms' next'] & Hm & [= <- _]). apply IH in Hm. simpl. lia.
Qed.

Lemma holds_padded ms : Forall2 FeedbackFacts.holds ms (map RtcpFacts.padded ms).
Proof. induction ms; constructor; [|done]. by eexists. Qed.

Lemma acks_understood sender receiver n now :
  rtcp (encrypt sender) = rtcp (decrypt receiver) -> seals ->
  0 <= next_outgoing_srtcp_index sender -> uint 32 (rtcp_sender_ssrc sender) ->
  let pending := Receiver.unacked_arrival_by_seqnum (tcc_receiver sender) in
  next_outgoing_srtcp_index sender + Z.of_nat (length pending) <= 2 ^ 31 ->
  FeedbackFacts.acknowledgeable (Receiver.epoch (tcc_receiver sender))
    (Sender.max_received_seqnum (tcc_sender receiver)) n pending ->
  NoDup pending.*1 -> uint 8 (Receiver.next_feedback_seqnum (tcc_receiver sender)) ->
  exists sender' packets receiver' arrivals,
    send_acks sender = Ok (sender', packets) /\
    receive_rtcps receiver packets now =
      Ok (receiver', FeedbackFacts.acks_of (Sender.size_by_seqnum (tcc_sender receiver)) now arrivals) /\
    FeedbackFacts.close_times (Receiver.epoch (tcc_receiver sender)) n pending arrivals.
Proof.
  intros Hk Hseal Hi Hs pending Hb Hack Hd Hn. unfold send_acks, Receiver.send_acks, Feedback.write_feedback.
  destruct (FeedbackFacts.messages_ok (Receiver.ssrc (tcc_receiver sender)) _ n _ _ _ _ Hack Hn (le_n _))
    as (ms & next & l & Em & Hr & Hc & Hms).
  fold pending. rewrite Em, !mbind_Ok. pose proof (messages_length _ _ _ _ _ _ _ Em) as Hlen.
  assert (NoDup l.*1) as Hl.
  { assert (l.*1 = pending.*1) as ->; [|done]. clear -Hc.
    induction Hc as [|? ? ? ? [E _] _ IH]; [done|]. by rewrite !fmap_cons, E, IH. }
  match goal with |- context [send_messages ?s _] => set (sender1 := s) end.
  destruct (send_messages_carried receiver ms sender1 Hk Hseal Hms Hi Hs) as (sender' & packets & -> & Hcar).
  { change (next_outgoing_srtcp_index sender1) with (next_outgoing_srtcp_index sender). lia. }
  destruct (FeedbackFacts.process_read_all now (map RtcpFacts.padded ms) (tcc_sender receiver) l
    (Hr _ (holds_padded ms)) Hl) as [tcc Ep].
  destruct (receive_rtcps_ok now packets _ receiver tcc _ Hcar Ep) as [receiver' Er].
  by exists sender', packets, receiver', l.
Qed.

End Delivery.

End DeliveryFacts.

Module DeliveryProperties.
Import Endpoint EndpointFacts DeliveryFacts.
#[local] Existing Instances SampleCipher.flip_aead SampleCipher.flip_aead_laws.

#[local] Instance map_order : HashMapOrder := {|
  entries V m := map_to_list m; entries_perm V m := Permutation_refl _
|}.

(** C31: Media arrives as it was sent.  Whatever packet one endpoint encrypts (its
    parsed values in step with its bytes), the peer that holds the same keys, has
    not seen the number and whose largest number on the SSRC is less than 2^15
    away, accepts it: same SSRC, same full sequence number, and the same header
    and payload bytes. *)
Theorem media_delivered `{AeadLaws} `{HashMapOrder} sender receiver p h now later sender' c :
  rtp (encrypt sender) = rtp (decrypt receiver) -> consistent p h ->
  expects receiver (Packet.ssrc_in_header p) (Packet.seqnum_in_header p) ->
  encrypt_and_send_rtp sender p now = Ok (sender', Some c) ->
  exists receiver' q, receive_rtp receiver (Packet.serialized c) later = Ok (receiver', Some q) /\
    Packet.ssrc_in_header q = Packet.ssrc_in_header p /\
    Packet.seqnum_in_header q = Packet.seqnum_in_header p /\
    Packet.payload_range_in_header q = Packet.payload_range_in_header p /\
    take (Packet.payload_range_in_header p).2 (Packet.serialized q) =
      take (Packet.payload_range_in_header p).2 (Packet.serialized p).
Proof. intros Hk Hc He Hs. by eapply delivered. Qed.

Definition zero_keys : KeysAndSalts :=
  {| rtp := {| key := [0]; salt := replicate 12 0 |}; rtcp := {| key := [0]; salt := replicate 12 0 |} |}.

Definition idle : t := new zero_keys zero_keys 0 77 78.

Definition audio_header : Header.t :=
  Header.mk false false 102 9 3 5 None None None None (12, 15)%nat None.

Definition audio_packet : Packet.t :=
  Packet.new audio_header 9 None false None false (Some 0) 0
    ([128; 102; 0; 9; 0; 0; 0; 3; 0; 0; 0; 5; 1; 2; 3] ++ replicate 16 0).

Lemma media_delivered_witness :
  exists sender' c receiver' q,
    encrypt_and_send_rtp idle audio_packet 1 = Ok (sender', Some c) /\
    receive_rtp idle (Packet.serialized c) 2 = Ok (receiver', Some q) /\
    take 15 (Packet.serialized q) = take 15 (Packet.serialized audio_packet).
Proof.
  assert (exists sender' c, encrypt_and_send_rtp idle audio_packet 1 = Ok (sender', Some c)) as (s' & c & E)
    by (do 2 eexists; vm_compute; reflexivity).
  destruct (media_delivered idle idle audio_packet audio_header 1 2 s' c eq_refl) as (r' & q & Er & _ & _ & _ & Et).
  - split; try done. apply (bool_decide_unpack _). vm_compute. exact I.
  - split; try done. exists {| SequenceNumberReuseDetector.mask := 2 ^ 118; SequenceNumberReuseDetector.first := 0 |}.
    vm_compute. reflexivity.
  - exact E.
  - by exists s', c, r', q.
Defined.

(** Feedback reaches the peer.  A key frame request that an endpoint encrypts
    is read by the peer with the same keys as a request for that SSRC, and the
    NACK of an SSRC as a request for exactly the sequence numbers that its NACK
    sender lists, truncated to 16 bits; neither changes the peer. *)
Theorem requests_delivered `{AeadLaws} `{HashMapOrder} sender receiver ssrc later :
  rtcp (encrypt sender) = rtcp (decrypt receiver) ->
  0 <= next_outgoing_srtcp_index sender -> uint 32 (rtcp_sender_ssrc sender) -> uint 32 ssrc ->
  (forall sender' b, send_pli sender ssrc = Ok (sender', Some b) ->
     receive_rtcp receiver b later = Ok (receiver, Some (processed [ssrc] [] []))) /\
  (forall state now rtt sender' b, nack_ok (nack_sender state) ->
     send_nack sender ssrc now rtt state = Ok (sender', Some b) ->
     exists n seqnums, Nack.send_nacks (nack_sender state) now rtt = Ok (n, Some seqnums) /\
       receive_rtcp receiver b later =
         Ok (receiver, Some (processed [] [] [Nack.nack ssrc (map u16 seqnums)]))).
Proof.
  intros Hk Hi Hs Hu. split; intros.
  - by eapply pli_understood.
  - by eapply nack_understood.
Qed.

(** An SSRC on which 3 and 6 arrived. *)
Definition gap_state : IncomingSsrcState :=
  mk_incoming 6 SequenceNumberReuseDetector.default
    (Nack.remember_received (Nack.remember_received (Nack.new 250) 3) 6) (RtcpReportSender.new 0).

Lemma requests_delivered_witness :
  (exists sender' b, send_pli idle 5 = Ok (sender', Some b) /\
     receive_rtcp idle b 2 = Ok (idle, Some (processed [5] [] []))) /\
  (exists sender' b, send_nack idle 5 1 1 gap_state = Ok (sender', Some b) /\
     receive_rtcp idle b 2 = Ok (idle, Some (processed [] [] [Nack.nack 5 [4; 5]]))).
Proof.
  assert (uint 32 5 /\ uint 32 0 /\ uint 32 77) as (H5 & H0 & H77) by (unfold uint; lia).
  destruct (requests_delivered idle idle 5 2 eq_refl ltac:(discriminate) H77 H5) as [Hp Hn]. split.
  - assert (exists s' b, send_pli idle 5 = Ok (s', Some b)) as (s' & b & E)
      by (do 2 eexists; vm_compute; reflexivity).
    exists s', b. split; [exact E|exact (Hp s' b E)].
  - assert (exists s' b, send_nack idle 5 1 1 gap_state = Ok (s', Some b)) as (s' & b & E)
      by (do 2 eexists; vm_compute; reflexivity).
    exists s', b. split; [exact E|]. destruct (Hn gap_state 1 1 s' b) as (n & seqnums & En & Er).
    + split; [repeat constructor|repeat constructor; unfold uint; discriminate|].
      apply (bool_decide_unpack _). vm_compute. exact I.
    + exact E.
    + assert (Nack.send_nacks (nack_sender gap_state) 1 1 =
        Ok (match Nack.send_nacks (nack_sender gap_state) 1 1 with Ok (n, _) => n | _ => n end, Some [4; 5])) as En'
        by (vm_compute; reflexivity).
      rewrite En in En'. injection En' as ->. exact Er.
Defined.

(** C32: Congestion feedback end to end, for what the format can express.  Let
    the arrivals that an endpoint has collected be acknowledgeable: their
    sequence numbers go up and are within 2^15 of the largest one that the peer
    has heard of, each arrival is within the 16-bit signed number of
    250-microsecond ticks of the one before it, and each is at least a tick per
    packet after the epoch and within the 24 bits of the reference time.  Let the
    cipher not refuse a text and the SRTCP indices not reach 2^31.  Then the
    acknowledgements sent as SRTCP packets, and received in order by the peer with
    the same keys, give the peer one acknowledgement for each packet that it
    remembers sending, with the size and departure that it remembered and the
    arrival within a tick per packet, whatever padding RTCP adds to the messages.
    (Outside these bounds it fails: [status_count_wraps],
    [uncounted_chunk_read_as_delta].) *)
Theorem acks_delivered `{AeadLaws} `{HashMapOrder} sender receiver n now :
  rtcp (encrypt sender) = rtcp (decrypt receiver) -> seals ->
  0 <= next_outgoing_srtcp_index sender -> uint 32 (rtcp_sender_ssrc sender) ->
  next_outgoing_srtcp_index sender
    + Z.of_nat (length (Receiver.unacked_arrival_by_seqnum (tcc_receiver sender))) <= 2 ^ 31 ->
  FeedbackFacts.acknowledgeable (Receiver.epoch (tcc_receiver sender))
    (Sender.max_received_seqnum (tcc_sender receiver)) n
    (Receiver.unacked_arrival_by_seqnum (tcc_receiver sender)) ->
  NoDup (Receiver.unacked_arrival_by_seqnum (tcc_receiver sender)).*1 ->
  uint 8 (Receiver.next_feedback_seqnum (tcc_receiver sender)) ->
  exists sender' packets receiver' arrivals,
    send_acks sender = Ok (sender', packets) /\
    receive_rtcps receiver packets now =
      Ok (receiver', FeedbackFacts.acks_of (Sender.size_by_seqnum (tcc_sender receiver)) now arrivals) /\
    FeedbackFacts.close_times (Receiver.epoch (tcc_receiver sender)) n
      (Receiver.unacked_arrival_by_seqnum (tcc_receiver sender)) arrivals.
Proof. intros. by apply acks_understood. Qed.

Definition acking : t := idle <| tcc_receiver := TransportCcProperties.sample_receiver |>.
Definition acked : t := idle <| tcc_sender := TransportCcProperties.sample_sender |>.

Lemma acks_delivered_witness :
  exists sender' packets receiver' arrivals,
    send_acks acking = Ok (sender', packets) /\
    receive_rtcps acked packets 99 =
      Ok (receiver', FeedbackFacts.acks_of (Sender.size_by_seqnum TransportCcProperties.sample_sender) 99 arrivals) /\
    FeedbackFacts.close_times 0 3
      (Receiver.unacked_arrival_by_seqnum TransportCcProperties.sample_receiver) arrivals.
Proof.
  apply (acks_delivered acking acked 3 99).
  - reflexivity.
  - intros key nonce aad text. by eexists.
  - discriminate.
  - unfold uint. split; [discriminate|reflexivity].
  - discriminate.
  - split.
    + vm_compute. repeat split; discriminate.
    + repeat constructor.
    + done.
    + repeat constructor; discriminate.
    + done.
  - apply (bool_decide_unpack _). vm_compute. exact I.
  - split; [discriminate|reflexivity].
Defined.

End DeliveryProperties.
