(* ===== verification/Layers.v ===== *)
(** * Layers: demux IDs, layer IDs and the SSRCs made of them

    [src/common/src/call_ids.rs], [src/backend/src/call.rs] (the layer IDs and
    call sizes) and [src/backend/src/region.rs].  A [DemuxId] is its 32-bit
    number. *)
From S2P Require Import Prelude Common RtpHeader.
Import RtpTypes.

Module DemuxId.

Definition t : Type := Z.

(** [TryFrom<u32>]; the error carries the number. *)
Definition try_from (demux_id : Z) : Res Z t :=
  if Z.land demux_id 15 =? 0 then Ok demux_id else Err demux_id.

Definition DUMMY_DEMUX_ID : t := 0.

(** [Self::try_from(ssrc & 0b1..10000).expect(..)] *)
Definition from_ssrc {E} (ssrc : Z) : Res E t :=
  o ← ok_opt (try_from (Z.land ssrc 4294967280)); unwrap o.

(** The value [from_ssrc] has, which cannot panic ([LayersFacts.from_ssrc_ok]). *)
Definition of_ssrc (ssrc : Z) : t := Z.land ssrc 4294967280.

End DemuxId.

Module LayerId.

Inductive t := Audio | Video0 | Video1 | Video2 | RtpData.

#[export] Instance t_eq_dec : EqDecision t.
Proof. solve_decision. Defined.

(** [self as u32] *)
Definition to_u32 (self : t) : Z :=
  match self with Audio => 0 | Video0 => 2 | Video1 => 4 | Video2 => 6 | RtpData => 13 end.

Definition from_ssrc (ssrc : Z) : option t :=
  let low := Z.land ssrc 15 in
  if low =? 0 then Some Audio
  else if low =? 2 then Some Video0
  else if low =? 4 then Some Video1
  else if low =? 6 then Some Video2
  else if low =? 13 then Some RtpData
  else None.

Definition from_video_layer_index (video_layer_index : nat) : option t :=
  match video_layer_index with
  | 0%nat => Some Video0
  | 1%nat => Some Video1
  | 2%nat => Some Video2
  | _ => None
  end.

Definition layer_index_from_ssrc (ssrc : Z) : option nat :=
  match from_ssrc ssrc with
  | Some Video0 => Some 0%nat
  | Some Video1 => Some 1%nat
  | Some Video2 => Some 2%nat
  | _ => None
  end.

Definition to_ssrc (self : t) (demux_id : DemuxId.t) : Z := Z.lor demux_id (to_u32 self).

Definition to_rtx_ssrc (self : t) (demux_id : DemuxId.t) : Z :=
  RtpTypes.to_rtx_ssrc (to_ssrc self demux_id).

End LayerId.

Module CallSizeBucket.

Inductive t :=
| Empty | Solo | Pair | From3To6 | From7To9 | From10To19 | From20To29 | From30To49 | From50To79
| BeyondLimit.

Definition from (value : nat) : t :=
  let range a b := (a <=? value)%nat && (value <=? b)%nat in
  if (value =? 0)%nat then Empty
  else if (value =? 1)%nat then Solo
  else if (value =? 2)%nat then Pair
  else if range 3%nat 6%nat then From3To6
  else if range 7%nat 9%nat then From7To9
  else if range 10%nat 19%nat then From10To19
  else if range 20%nat 29%nat then From20To29
  else if range 30%nat 49%nat then From30To49
  else if range 50%nat 79%nat then From50To79
  else BeyondLimit.

End CallSizeBucket.

Module Region.

Inductive t :=
| Unset | Unknown | AsiaEast1 | AsiaEast2 | AsiaNortheast1 | AsiaNortheast3 | AsiaSouth1
| AsiaSoutheast1 | AsiaSoutheast2 | AustralianSoutheast2 | EuropeNorth1 | EuropeWest1
| EuropeWest2 | EuropeWest3 | EuropeWest4 | EuropeWest6 | NorthamericaNortheast1
| SouthamericaEast1 | UsCentral1 | UsEast1 | UsEast4 | UsWest1 | UsWest2 | UsWest3 | UsWest4.

#[global] Instance t_eq_dec : EqDecision t.
Proof. solve_decision. Defined.

Inductive GlobalArea := AsiaPacific | Europe | NorthAmerica | SouthAmerica.

#[export] Instance area_eq_dec : EqDecision GlobalArea.
Proof. solve_decision. Defined.

Definition area (self : t) : option GlobalArea :=
  match self with
  | AsiaEast1 | AsiaEast2 | AsiaNortheast1 | AsiaNortheast3 | AsiaSouth1 | AsiaSoutheast1
  | AsiaSoutheast2 | AustralianSoutheast2 => Some AsiaPacific
  | EuropeNorth1 | EuropeWest1 | EuropeWest2 | EuropeWest3 | EuropeWest4 | EuropeWest6 =>
      Some Europe
  | NorthamericaNortheast1 | UsCentral1 | UsEast1 | UsEast4 | UsWest1 | UsWest2 | UsWest3
  | UsWest4 => Some NorthAmerica
  | SouthamericaEast1 => Some SouthAmerica
  | Unset | Unknown => None
  end.

Definition same_area (self other : t) : bool :=
  let myarea := area self in
  bool_decide (is_Some myarea) && bool_decide (myarea = area other).

Inductive Relation := RelUnknown | SameRegion | SameArea | DifferentArea.

End Region.

(** * Theorems *)

Module LayersFacts.

(** A demux ID is a 32-bit number whose four low bits are clear. *)
Definition demux_ok (d : Z) : Prop := uint 32 d /\ Z.land d 15 = 0.

Lemma land_high_low ssrc : Z.land (Z.land ssrc 4294967280) 15 = 0.
Proof.
  rewrite <- Z.land_assoc. change (Z.land 4294967280 15) with 0. apply Z.land_0_r.
Qed.

Lemma from_ssrc_ok {E} ssrc : DemuxId.from_ssrc (E:=E) ssrc = Ok (DemuxId.of_ssrc ssrc).
Proof.
  unfold DemuxId.from_ssrc, DemuxId.try_from, DemuxId.of_ssrc. rewrite land_high_low. done.
Qed.

Lemma of_ssrc_ok ssrc : 0 <= ssrc -> demux_ok (DemuxId.of_ssrc ssrc).
Proof.
  intros. split; [|apply land_high_low]. unfold DemuxId.of_ssrc.
  apply DependencyDescriptorFacts.uint_bits; [lia | apply Z.land_nonneg; lia|].
  intros j Hj. rewrite Z.land_spec, (uint_testbit_high 32 4294967280), andb_false_r;
    [done | unfold uint; lia | lia].
Qed.

Lemma land_demux_high d : demux_ok d -> Z.land d 4294967280 = d.
Proof.
  intros [Hu Hl]. apply Z.bits_inj'. intros n Hn. rewrite Z.land_spec.
  destruct (Z.lt_ge_cases n 32).
  - change 4294967280 with (Z.lxor (Z.ones 32) 15). rewrite Z.lxor_spec, Z.ones_spec_low by lia.
    assert (Z.testbit (Z.land d 15) n = false) as B by (rewrite Hl; apply Z.bits_0).
    rewrite Z.land_spec in B. destruct (Z.testbit d n), (Z.testbit 15 n); done.
  - rewrite (uint_testbit_high 32 d) by (done || lia). done.
Qed.

Lemma land_layer l : Z.land (LayerId.to_u32 l) 4294967280 = 0 /\
  Z.land (LayerId.to_u32 l) 15 = LayerId.to_u32 l.
Proof. destruct l; split; reflexivity. Qed.

(** The two parts of an SSRC. *)
Lemma to_ssrc_parts l d : demux_ok d ->
  DemuxId.of_ssrc (LayerId.to_ssrc l d) = d /\
  LayerId.from_ssrc (LayerId.to_ssrc l d) = Some l.
Proof.
  intros Hd. unfold DemuxId.of_ssrc, LayerId.from_ssrc, LayerId.to_ssrc.
  rewrite !Z.land_lor_distr_l. destruct (land_layer l) as [-> ->].
  rewrite land_demux_high by done. destruct Hd as [_ ->]. rewrite Z.lor_0_r, Z.lor_0_l.
  split; [done|]. by destruct l.
Qed.

Lemma to_ssrc_inj l l' d d' : demux_ok d -> demux_ok d' ->
  LayerId.to_ssrc l d = LayerId.to_ssrc l' d' -> l = l' /\ d = d'.
Proof.
  intros Hd Hd' E. destruct (to_ssrc_parts l d Hd) as [A B], (to_ssrc_parts l' d' Hd') as [A' B'].
  rewrite E in A, B. split; congruence.
Qed.

Lemma to_ssrc_uint l d : demux_ok d -> uint 32 (LayerId.to_ssrc l d).
Proof.
  intros [Hu _]. unfold LayerId.to_ssrc. apply uint_lor; [lia|done|]. destruct l; unfold uint; simpl; lia.
Qed.

Lemma to_ssrc_add l d : demux_ok d -> LayerId.to_ssrc l d = d + LayerId.to_u32 l.
Proof.
  intros [Hu Hl]. unfold LayerId.to_ssrc. symmetry.
  assert (Z.land d (LayerId.to_u32 l) = 0) as E.
  { destruct (land_layer l) as [_ <-]. rewrite (Z.land_comm (LayerId.to_u32 l)), Z.land_assoc, Hl.
    apply Z.land_0_l. }
  rewrite <- Z.lxor_lor by done. by apply Z.add_nocarry_lxor.
Qed.

End LayersFacts.
