(* ===== verification/Allocation.v ===== *)
(** * Allocation: dividing a receiver's send rate among videos

    [src/backend/src/call.rs]: [ideal_video_layer_index], [ideal_send_rate],
    [requested_base_rate] and [allocate_send_rate].  Rates are bits per second,
    heights pixels; times are nanoseconds. *)
From S2P Require Import Prelude Common Float Layers.
Import DataRate.

Module Allocation.

Record AllocatableVideoLayer := layer { incoming_rate : Z; incoming_height : Z }.

(** [layers] has three elements, lower resolutions first. *)
Record AllocatableVideo := video {
  sender_demux_id : DemuxId.t;
  layers : list AllocatableVideoLayer;
  requested_height : Z;
  allocated_layer_index : option nat;
  interesting : option Z
}.

Record AllocatedVideo := allocated {
  a_sender_demux_id : DemuxId.t;
  layer_index : nat;
  rate : Z;
  height : Z
}.

(** [iter().position(f)], with the element found there. *)
Definition position {A} (f : A -> bool) (l : list A) : option (nat * A) := list_find f l.

(** [iter().rposition(f)] *)
Fixpoint rposition {A} (f : A -> bool) (l : list A) : option nat :=
  match l with
  | [] => None
  | x :: rest =>
      match rposition f rest with
      | Some i => Some (S i)
      | None => if f x then Some 0%nat else None
      end
  end.

Definition has_rate (l : AllocatableVideoLayer) : bool := 0 <? incoming_rate l.
Definition has_height (l : AllocatableVideoLayer) : bool := 0 <? incoming_height l.
Definition has_height_and_rate (l : AllocatableVideoLayer) : bool := has_rate l && has_height l.

Definition ideal_video_layer_index (v : AllocatableVideo) : option nat :=
  let has_enough_height_and_rate l := (requested_height v <=? incoming_height l) && has_rate l in
  if requested_height v =? 0 then None
  else
    match position has_enough_height_and_rate (layers v) with
    | Some (_, first_layer_which_has_enough) =>
        let ideal_height := incoming_height first_layer_which_has_enough in
        rposition (fun l => (incoming_height l =? ideal_height) && has_rate l) (layers v)
    | None => rposition has_height_and_rate (layers v)
    end.

(** [Some(video.layers[index?].incoming_rate)] *)
Definition rate_at (index : option nat) (v : AllocatableVideo) : Res unit (option Z) :=
  match index with
  | None => Ok None
  | Some i => l ← idx (layers v) i; Ok (Some (incoming_rate l))
  end.

(** [videos.iter().filter_map(f)], for an [f] that can panic *)
Fixpoint filter_map (f : AllocatableVideo -> Res unit (option Z)) (videos : list AllocatableVideo)
    : Res unit (list Z) :=
  match videos with
  | [] => Ok []
  | v :: rest =>
      r ← f v;
      rs ← filter_map f rest;
      Ok (match r with Some r => r :: rs | None => rs end)
  end.

Definition ideal_send_rate (videos : list AllocatableVideo) (max_requested_send_rate : Z)
    : Res unit Z :=
  rates ← filter_map (fun v => rate_at (ideal_video_layer_index v) v) videos;
  let allocatable := rate_sum rates in
  Ok (Z.min allocatable max_requested_send_rate).

Definition base_video_layer_index (v : AllocatableVideo) : Res unit (option nat) :=
  if requested_height v =? 0 then Ok None
  else
    l ← idx (layers v) 0;
    Ok (if incoming_rate l =? 0 then None else Some 0%nat).

Definition requested_base_rate (videos : list AllocatableVideo) (max_requested_send_rate : Z)
    : Res unit Z :=
  rates ← filter_map (fun v => i ← base_video_layer_index v; rate_at i v) videos;
  let allocatable := rate_sum rates in
  Ok (Z.min allocatable max_requested_send_rate).

(** The order of [sort_by_key(|video| Reverse((requested_height, interesting)))]:
    [a] strictly before [b]; [None] is the least [interesting]. *)
Definition option_lt (a b : option Z) : bool :=
  match a, b with
  | None, Some _ => true
  | Some x, Some y => x <? y
  | _, None => false
  end.

Definition before (a b : AllocatableVideo) : bool :=
  (requested_height b <? requested_height a)
  || ((requested_height a =? requested_height b) && option_lt (interesting b) (interesting a)).

(** A stable sort: [x], which preceded the elements of [l], stays before those
    that are not strictly before it. *)
Fixpoint insert_sorted (x : AllocatableVideo) (l : list AllocatableVideo) : list AllocatableVideo :=
  match l with
  | [] => [x]
  | y :: rest => if before y x then y :: insert_sorted x rest else x :: l
  end.

Definition sort_videos (l : list AllocatableVideo) : list AllocatableVideo :=
  foldr insert_sorted [] l.

Definition TARGET_RATE_MINIMUM_ALLOCATION_RATIO : F64.t := F64.p9.

(** What may be used of a target rate. *)
Definition allocatable_of (target_send_rate outgoing_queue_drain_rate ideal_send_rate : Z) : Z :=
  Z.min
    (Z.max (rate_saturating_sub target_send_rate outgoing_queue_drain_rate)
           (mul_f64 target_send_rate TARGET_RATE_MINIMUM_ALLOCATION_RATIO))
    ideal_send_rate.

(** [for possible_layer_index in layer_index + 1..=ideal_layer_index]: a higher
    layer with a lower rate takes over. *)
Definition cheaper_layer (v : AllocatableVideo) (layer_index ideal_layer_index : nat)
    (l : AllocatableVideoLayer) : Res unit (nat * AllocatableVideoLayer) :=
  foldl
    (fun (acc : Res unit (nat * AllocatableVideoLayer)) (possible_layer_index : nat) =>
       '(candidate_layer_index, l) ← acc;
       possible_layer ← idx (layers v) possible_layer_index;
       if negb (incoming_height possible_layer =? 0)
          && negb (incoming_rate possible_layer =? 0)
          && (incoming_rate possible_layer <? incoming_rate l)
       then Ok (possible_layer_index, possible_layer)
       else Ok (candidate_layer_index, l))
    (Ok (layer_index, l))
    (seq (layer_index + 1) (ideal_layer_index - layer_index)).

Definition Allocation : Type := gmap DemuxId.t AllocatedVideo * Z.

(** The body of the loop over the videos. *)
Definition allocate_video (existing different : Z) (layer_index : nat) (state : Allocation)
    (v : AllocatableVideo) : Res unit Allocation :=
  let '(allocated_by_sender_demux_id, allocated_rate) := state in
  l ← idx (layers v) layer_index;
  if (incoming_height l =? 0) && (incoming_rate l =? 0) then Ok state
  else
    match ideal_video_layer_index v with
    | None => Ok state
    | Some ideal_layer_index =>
        if (ideal_layer_index <? layer_index)%nat then Ok state
        else
          '(candidate_layer_index, l) ← cheaper_layer v layer_index ideal_layer_index l;
          let layer_rate := incoming_rate l in
          let lower_layer_rate :=
            unwrap_or (rate <$> allocated_by_sender_demux_id !! sender_demux_id v) 0 in
          let rate_increase := rate_saturating_sub layer_rate lower_layer_rate in
          let increased_allocated_rate := rate_add allocated_rate rate_increase in
          let allocatable_rate :=
            if bool_decide (Some candidate_layer_index = allocated_layer_index v)
            then existing else different in
          if allocatable_rate <? increased_allocated_rate then Ok state
          else
            Ok (<[sender_demux_id v :=
                    allocated (sender_demux_id v) candidate_layer_index (incoming_rate l)
                              (incoming_height l)]> allocated_by_sender_demux_id,
                increased_allocated_rate)
    end.

(** A [for] loop whose body can panic. *)
Fixpoint for_each {A S} (f : S -> A -> Res unit S) (s : S) (l : list A) : Res unit S :=
  match l with
  | [] => Ok s
  | x :: rest => s ← f s x; for_each f s rest
  end.

Definition allocate_layers (existing different : Z) (videos : list AllocatableVideo)
    : Res unit Allocation :=
  for_each
    (fun state layer_index => for_each (allocate_video existing different layer_index) state videos)
    (∅, 0) [0; 1; 2]%nat.

Definition allocate_send_rate (target_send_rate min_target_send_rate ideal_send_rate
    outgoing_queue_drain_rate : Z) (videos : list AllocatableVideo)
    : Res unit (gmap DemuxId.t AllocatedVideo) :=
  let different := allocatable_of min_target_send_rate outgoing_queue_drain_rate ideal_send_rate in
  let existing := allocatable_of target_send_rate outgoing_queue_drain_rate ideal_send_rate in
  '(allocated_by_sender_demux_id, _) ← allocate_layers existing different (sort_videos videos);
  Ok allocated_by_sender_demux_id.

(** [allocated.values().map(|allocated| allocated.rate).sum()] *)
Definition allocated_send_rate (m : gmap DemuxId.t AllocatedVideo) : Z :=
  map_fold (fun _ a acc => rate_add acc (rate a)) 0 m.

End Allocation.

(** * Theorems *)

Module AllocationFacts.
Import Allocation.

Lemma rposition_Some {A} (f : A -> bool) (l : list A) i :
  rposition f l = Some i -> exists x, l !! i = Some x /\ f x = true /\
    forall j y, (i < j)%nat -> l !! j = Some y -> f y = false.
Proof.
  revert i. induction l as [|x l IH]; intros i; simpl; [done|].
  assert (rposition f l = None -> forall j y, l !! j = Some y -> f y = false) as N.
  { clear IH i. induction l as [|z l IH]; simpl; intros H j y Hj; [done|].
    destruct (rposition f l) eqn:E; [done|]. destruct (f z) eqn:Ez; [done|].
    destruct j; simpl in Hj; [congruence|]. by eapply IH. }
  destruct (rposition f l) as [k|] eqn:E.
  - intros [= <-]. destruct (IH k eq_refl) as (y & Hy & Fy & M). exists y. split; [done|].
    split; [done|]. intros [|j] z Hj Hz; [lia|]. simpl in Hz. apply (M j); [lia|done].
  - destruct (f x) eqn:Fx; [|done]. intros [= <-]. exists x. split; [done|]. split; [done|].
    intros [|j] y Hj Hy; [lia|]. simpl in Hy. by eapply N.
Qed.

Lemma rposition_None {A} (f : A -> bool) (l : list A) :
  rposition f l = None <-> Forall (fun x => f x = false) l.
Proof.
  induction l as [|x l IH]; simpl; [done|]. rewrite Forall_cons.
  destruct (rposition f l), (f x); naive_solver.
Qed.

(** The ideal layer exists, has a rate, and satisfies the request if any layer
    with a rate does. *)
Lemma ideal_spec v i :
  ideal_video_layer_index v = Some i ->
  requested_height v ≠ 0 /\
  exists l, layers v !! i = Some l /\ has_rate l = true /\
    (requested_height v <= incoming_height l \/
     has_height l = true /\
     Forall (fun l' => has_rate l' = true -> incoming_height l' < requested_height v) (layers v)).
Proof.
  unfold ideal_video_layer_index, position. case_if; [done|]. intros H.
  apply Z.eqb_neq in E. split; [done|].
  destruct (list_find _ (layers v)) as [[k x]|] eqn:F.
  - apply list_find_Some in F as (Hx & Px & _). apply Is_true_true in Px.
    apply rposition_Some in H as (l & Hl & Pl & _). exists l.
    boolsplit. split; [done|]. split; [done|]. left. lia.
  - apply rposition_Some in H as (l & Hl & Pl & _). exists l. unfold has_height_and_rate in Pl.
    boolsplit. split; [done|]. split; [done|]. right. split; [done|].
    apply list_find_None in F. eapply Forall_impl; [exact F|]. intros l' N R. simpl in N.
    rewrite R, andb_true_r in N. destruct (requested_height v <=? incoming_height l') eqn:E'; [|lia].
    by destruct N.
Qed.

(** Nothing is ideal only when nothing was asked for or nothing comes in. *)
Lemma ideal_None v :
  ideal_video_layer_index v = None ->
  requested_height v = 0 \/ Forall (fun l => has_height_and_rate l = false) (layers v).
Proof.
  unfold ideal_video_layer_index, position. case_if; [left; lia|]. intros H. right.
  destruct (list_find _ (layers v)) as [[k x]|] eqn:F; [|by apply rposition_None].
  apply list_find_Some in F as (Hx & Px & _). apply Is_true_true in Px. exfalso.
  apply rposition_None in H. rewrite Forall_lookup in H. specialize (H k x Hx). boolsplit.
  simpl in H. rewrite Z.eqb_refl in H. simpl in H. congruence.
Qed.

(** The rates of an allocation, added up without wrapping. *)
Definition total (m : gmap DemuxId.t AllocatedVideo) : Z := map_fold (fun _ a acc => rate a + acc) 0 m.

Lemma total_insert_fresh m k a : m !! k = None -> total (<[k := a]> m) = rate a + total m.
Proof.
  intros. unfold total. rewrite map_fold_insert_L; [done| |done]. intros. lia.
Qed.

Lemma total_insert m k a :
  total (<[k := a]> m) = total m - unwrap_or (rate <$> m !! k) 0 + rate a.
Proof.
  destruct (m !! k) as [old|] eqn:E; simpl.
  - rewrite <- (insert_delete_eq m), total_insert_fresh by apply lookup_delete_eq.
    rewrite <- (insert_id m k old) at 2 by done. rewrite <- (insert_delete_eq m k old).
    rewrite total_insert_fresh by apply lookup_delete_eq. lia.
  - rewrite total_insert_fresh by done. lia.
Qed.

Lemma total_nonneg m : map_Forall (fun _ a => 0 <= rate a) m -> 0 <= total m.
Proof.
  unfold total. induction m as [|k a m Hk IH] using map_ind; [by rewrite map_fold_empty|].
  intros F. apply map_Forall_insert in F as [Fa F]; [|done].
  rewrite map_fold_insert_L; [specialize (IH F); lia|intros; lia|done].
Qed.

Lemma allocated_send_rate_total m : allocated_send_rate m = u64 (total m).
Proof.
  unfold allocated_send_rate, total.
  induction m as [|k a m Hk IH] using map_ind; [by rewrite !map_fold_empty|].
  rewrite !map_fold_insert_L; [|intros; lia|done| |done].
  - rewrite IH. unfold rate_add, u64, wrap. by rewrite Z.add_mod_idemp_l, Z.add_comm by lia.
  - intros. unfold rate_add, u64, wrap. rewrite !Z.add_mod_idemp_l by lia. f_equal. lia.
Qed.

(** Three layers, with rates that leave room for sums. *)
Definition video_ok (v : AllocatableVideo) : Prop :=
  length (layers v) = 3%nat /\ Forall (fun l => uint 62 (incoming_rate l)) (layers v).

(** The entry [a] of [k] is a layer of the video of [k] that is not above its
    ideal layer. *)
Definition entry_ok (videos : list AllocatableVideo) (k : DemuxId.t) (a : AllocatedVideo) : Prop :=
  exists v i, v ∈ videos /\ sender_demux_id v = k /\ a_sender_demux_id a = k /\
    ideal_video_layer_index v = Some i /\ (layer_index a <= i)%nat /\
    layers v !! layer_index a = Some (layer (rate a) (height a)).

Definition state_ok (cap : Z) (videos : list AllocatableVideo) (state : Allocation) : Prop :=
  map_Forall (entry_ok videos) state.1 /\ total state.1 <= state.2 /\ 0 <= state.2 <= cap.

Lemma idx_ok {E A} (l : list A) i : (i < length l)%nat ->
  exists x, l !! i = Some x /\ idx (E:=E) l i = Ok x.
Proof.
  intros H. destruct (lookup_lt_is_Some_2 l i H) as [x Hx]. exists x. split; [done|].
  unfold idx. by rewrite Hx.
Qed.

Lemma ideal_lt v i : video_ok v -> ideal_video_layer_index v = Some i -> (i < 3)%nat.
Proof.
  intros [L _] H. apply ideal_spec in H as (_ & l & Hl & _). apply lookup_lt_Some in Hl. lia.
Qed.

Lemma cheaper_layer_ok v n i l :
  length (layers v) = 3%nat -> (n <= i < 3)%nat -> layers v !! n = Some l ->
  exists c l', cheaper_layer v n i l = Ok (c, l') /\ (n <= c <= i)%nat /\
    layers v !! c = Some l' /\ incoming_rate l' <= incoming_rate l.
Proof.
  intros L Hi Hl. unfold cheaper_layer.
  assert (Forall (fun j => (n <= j <= i)%nat) (seq (n + 1) (i - n))) as F.
  { apply Forall_seq. lia. }
  cut (forall js c0 l0, Forall (fun j => (n <= j <= i)%nat) js -> (n <= c0 <= i)%nat ->
    layers v !! c0 = Some l0 -> incoming_rate l0 <= incoming_rate l ->
    exists c l', foldl
      (fun (acc : Res unit (nat * AllocatableVideoLayer)) (possible_layer_index : nat) =>
       '(candidate_layer_index, l) ← acc;
       possible_layer ← idx (layers v) possible_layer_index;
       if negb (incoming_height possible_layer =? 0)
          && negb (incoming_rate possible_layer =? 0)
          && (incoming_rate possible_layer <? incoming_rate l)
       then Ok (possible_layer_index, possible_layer)
       else Ok (candidate_layer_index, l)) (Ok (c0, l0)) js = Ok (c, l') /\ (n <= c <= i)%nat /\
      layers v !! c = Some l' /\ incoming_rate l' <= incoming_rate l).
  { intros C. apply C; [done|lia|done|lia]. }
  induction js as [|j js IH]; intros c0 l0 Hjs Hc Hl0 Hr; simpl; [by exists c0, l0|].
  inversion Hjs; subst.
  destruct (idx_ok (E:=unit) (layers v) j) as (x & Hx & ->); [lia|]. simpl.
  case_if.
  - boolsplit. apply IH; [done|lia|done|lia].
  - by apply IH.
Qed.

Lemma rate_saturating_sub_max a b : uint 64 a -> uint 64 b ->
  rate_saturating_sub a b = Z.max 0 (a - b).
Proof.
  intros. unfold rate_saturating_sub. case_if; boolsplit; [|lia].
  unfold rate_sub, u64. rewrite wrap_small by (unfold uint in *; lia). lia.
Qed.

Lemma entry_rate videos k a :
  Forall video_ok videos -> entry_ok videos k a -> uint 62 (rate a).
Proof.
  intros F (v & i & Hv & _ & _ & _ & _ & Hl). rewrite Forall_forall in F.
  destruct (F v Hv) as [_ R]. by apply (Forall_lookup_1 _ _ _ _ R Hl).
Qed.

(** One video of the inner loop. *)
Lemma allocate_video_ok existing different n videos state v cap :
  Forall video_ok videos -> v ∈ videos -> (n < 3)%nat ->
  existing <= cap -> different <= cap -> cap < 2 ^ 62 ->
  state_ok cap videos state ->
  exists state', allocate_video existing different n state v = Ok state' /\
    state_ok cap videos state'.
Proof.
  intros F Hv Hn He Hd Hcap (Hm & Ht & Hr). destruct state as [m r]. simpl in *.
  assert (video_ok v) as V by (rewrite Forall_forall in F; auto).
  unfold allocate_video. destruct (idx_ok (E:=unit) (layers v) n) as (l & Hl & ->);
    [destruct V; lia|]. rewrite mbind_Ok.
  assert (forall st, st = (m, r) -> exists state', Ok (E:=unit) st = Ok state' /\ state_ok cap videos state') as Same.
  { intros st ->. exists (m, r). done. }
  case_if; [by apply Same|].
  destruct (ideal_video_layer_index v) as [i|] eqn:Hi; [|by apply Same].
  case_if; [by apply Same|]. boolsplit.
  pose proof (ideal_lt v i V Hi) as Hi3.
  destruct (cheaper_layer_ok v n i l (proj1 V)) as (c & l' & -> & Hc & Hl' & Hrl); [lia|done|].
  rewrite mbind_Ok. cbn beta iota zeta.
  assert (uint 62 (incoming_rate l')) as U by (destruct V as [_ R]; apply (Forall_lookup_1 _ _ _ _ R Hl')).
  assert (0 <= unwrap_or (rate <$> m !! sender_demux_id v) 0 < 2 ^ 62) as Low.
  { destruct (m !! sender_demux_id v) as [old|] eqn:Eo; simpl; [|lia].
    apply Hm in Eo. by apply (entry_rate videos _ _ F Eo). }
  rewrite rate_saturating_sub_max by (unfold uint in *; lia).
  set (low := unwrap_or _ 0) in *. unfold rate_add, u64.
  rewrite wrap_small by (unfold uint in *; lia).
  match goal with |- context [if ?b then existing else different] => set (sel := b) end.
  case_if; [by apply Same|]. boolsplit.
  eexists. split; [reflexivity|]. split; [|split]; simpl.
  - apply map_Forall_insert_2; [|done]. exists v, i.
    do 4 (split; [done|]). simpl. split; [lia|]. rewrite Hl'. by destruct l'.
  - rewrite total_insert. fold low. simpl. lia.
  - destruct sel; lia.
Qed.

Lemma for_each_ok {A S} (I : S -> Prop) (f : S -> A -> Res unit S) l s :
  I s -> (forall s x, x ∈ l -> I s -> exists s', f s x = Ok s' /\ I s') ->
  exists s', for_each f s l = Ok s' /\ I s'.
Proof.
  revert s. induction l as [|x l IH]; intros s Hs Hf; simpl; [by exists s|].
  destruct (Hf s x) as (s' & -> & Hs'); [left|done|]. rewrite mbind_Ok.
  apply IH; [done|]. intros. apply Hf; [by right|done].
Qed.

Lemma insert_sorted_elem x y l : y ∈ insert_sorted x l <-> y = x \/ y ∈ l.
Proof.
  induction l as [|z l IH]; simpl; [set_solver|]. case_if; set_solver.
Qed.

Lemma sort_videos_elem y l : y ∈ sort_videos l <-> y ∈ l.
Proof.
  unfold sort_videos. induction l as [|x l IH]; simpl; [done|].
  rewrite insert_sorted_elem. set_solver.
Qed.

Lemma sort_videos_permutation l : sort_videos l ≡ₚ l.
Proof.
  assert (forall x l, insert_sorted x l ≡ₚ x :: l) as P.
  { intros x l'. induction l' as [|y l' IH]; simpl; [done|]. case_if; [|done].
    rewrite IH. constructor. }
  unfold sort_videos. induction l as [|x l IH]; simpl; [done|]. by rewrite P, IH.
Qed.

Lemma allocate_layers_ok existing different videos cap :
  Forall video_ok videos -> existing <= cap -> different <= cap -> 0 <= cap < 2 ^ 62 ->
  exists state, allocate_layers existing different videos = Ok state /\ state_ok cap videos state.
Proof.
  intros F He Hd Hcap. unfold allocate_layers. apply for_each_ok.
  - split; [apply map_Forall_empty|]. unfold total. simpl. rewrite map_fold_empty. lia.
  - intros s n Hn Hs. apply for_each_ok; [done|]. intros s' v Hv Hs'.
    apply (allocate_video_ok _ _ _ videos); try done; [|lia].
    repeat (apply elem_of_cons in Hn as [->|Hn]; [lia|]). by apply elem_of_nil in Hn.
Qed.

(** Without bounds on the rates: no panic, and entries that are layers of the
    videos. *)
Definition has_layers (v : AllocatableVideo) : Prop := length (layers v) = 3%nat.

Lemma ideal_lt3 v i : has_layers v -> ideal_video_layer_index v = Some i -> (i < 3)%nat.
Proof.
  intros L H. apply ideal_spec in H as (_ & l & Hl & _). apply lookup_lt_Some in Hl.
  unfold has_layers in L. lia.
Qed.

Lemma allocate_video_entries existing different n videos state v :
  Forall has_layers videos -> v ∈ videos -> (n < 3)%nat ->
  map_Forall (entry_ok videos) state.1 ->
  exists state', allocate_video existing different n state v = Ok state' /\
    map_Forall (entry_ok videos) state'.1.
Proof.
  intros F Hv Hn Hm. destruct state as [m r]. simpl in *.
  assert (has_layers v) as V by (rewrite Forall_forall in F; auto).
  assert (forall st, st = (m, r) -> exists state', Ok (E:=unit) st = Ok state' /\
    map_Forall (entry_ok videos) state'.1) as Same by (intros st ->; by exists (m, r)).
  unfold allocate_video. destruct (idx_ok (E:=unit) (layers v) n) as (l & Hl & ->);
    [unfold has_layers in V; lia|]. rewrite mbind_Ok.
  case_if; [by apply Same|].
  destruct (ideal_video_layer_index v) as [i|] eqn:Hi; [|by apply Same].
  case_if; [by apply Same|]. boolsplit. pose proof (ideal_lt3 v i V Hi).
  destruct (cheaper_layer_ok v n i l V) as (c & l' & -> & Hc & Hl' & _); [lia|done|].
  rewrite mbind_Ok. cbn beta iota zeta.
  match goal with |- context [if ?b then existing else different] => set (sel := b) end.
  case_if; [by apply Same|]. eexists. split; [reflexivity|]. simpl.
  apply map_Forall_insert_2; [|done]. exists v, i.
  do 4 (split; [done|]). simpl. split; [lia|]. rewrite Hl'. by destruct l'.
Qed.

Lemma allocate_send_rate_entries target min_target ideal drain videos :
  Forall has_layers videos ->
  exists m, allocate_send_rate target min_target ideal drain videos = Ok m /\
    map_Forall (entry_ok videos) m.
Proof.
  intros F. unfold allocate_send_rate, allocate_layers.
  match goal with |- context [for_each ?f ?s ?l] =>
    destruct (for_each_ok (fun st : Allocation => map_Forall (entry_ok videos) st.1) f l s)
      as ([m r] & -> & Hm) end.
  - apply map_Forall_empty.
  - intros s n Hn Hs. apply for_each_ok; [done|]. intros s' v Hv Hs'.
    rewrite sort_videos_elem in Hv. apply allocate_video_entries; [done|done| |done].
    repeat (apply elem_of_cons in Hn as [->|Hn]; [lia|]). by apply elem_of_nil in Hn.
  - by exists m.
Qed.

Lemma filter_map_ok f videos :
  (forall v, v ∈ videos -> exists o, f v = Ok o) -> exists rs, filter_map f videos = Ok rs.
Proof.
  induction videos as [|v videos IH]; intros Hf; simpl; [by eexists|].
  destruct (Hf v) as [o ->]; [left|]. destruct IH as [rs ->]; [intros; apply Hf; by right|].
  rewrite !mbind_Ok. by eexists.
Qed.

Lemma send_rates_ok videos max_rate :
  Forall has_layers videos ->
  (exists r, ideal_send_rate videos max_rate = Ok r) /\
  (exists r, requested_base_rate videos max_rate = Ok r).
Proof.
  intros F. rewrite Forall_forall in F. unfold ideal_send_rate, requested_base_rate. split.
  - destruct (filter_map_ok (fun v => rate_at (ideal_video_layer_index v) v) videos) as [rs ->];
      [|rewrite mbind_Ok; by eexists].
    intros v Hv. unfold rate_at. destruct (ideal_video_layer_index v) as [i|] eqn:E; [|by eexists].
    pose proof (ideal_lt3 v i (F v Hv) E). specialize (F v Hv). unfold has_layers in F.
    destruct (idx_ok (E:=unit) (layers v) i) as (l & _ & ->); [lia|]. rewrite mbind_Ok. by eexists.
  - destruct (filter_map_ok (fun v => i ← base_video_layer_index v; rate_at i v) videos) as [rs ->];
      [|rewrite mbind_Ok; by eexists].
    intros v Hv. specialize (F v Hv). unfold has_layers in F.
    destruct (idx_ok (E:=unit) (layers v) 0) as (l & _ & E); [lia|].
    unfold base_video_layer_index. case_if; rewrite ?E, !mbind_Ok; [by eexists|].
    case_if; unfold rate_at; [by eexists|]. rewrite E, mbind_Ok. by eexists.
Qed.

Lemma allocatable_nonneg target drain ideal : 0 <= ideal -> 0 <= allocatable_of target drain ideal.
Proof.
  intros. unfold allocatable_of. apply Z.min_glb; [|done].
  apply Z.max_le_iff. left. unfold rate_saturating_sub. case_if; [|lia].
  unfold rate_sub, u64. apply wrap_uint. lia.
Qed.

(** The whole allocation. *)
Lemma allocate_send_rate_ok target min_target ideal drain videos :
  Forall video_ok videos -> 0 <= ideal < 2 ^ 62 ->
  exists m, allocate_send_rate target min_target ideal drain videos = Ok m /\
    map_Forall (entry_ok videos) m /\
    allocated_send_rate m <= Z.max (allocatable_of target drain ideal) (allocatable_of min_target drain ideal) /\
    allocated_send_rate m <= ideal.
Proof.
  intros F Hi. unfold allocate_send_rate.
  pose proof (allocatable_nonneg target drain ideal (proj1 Hi)).
  pose proof (allocatable_nonneg min_target drain ideal (proj1 Hi)).
  set (e := allocatable_of target drain ideal) in *.
  set (d := allocatable_of min_target drain ideal) in *.
  assert (e <= ideal) by apply Z.le_min_r. assert (d <= ideal) by apply Z.le_min_r.
  destruct (allocate_layers_ok e d (sort_videos videos) (Z.max e d)) as ([m r] & -> & Sm & St & Sr);
    [|lia..|].
  { apply Forall_forall. intros v Hv. rewrite sort_videos_elem in Hv.
    rewrite Forall_forall in F. auto. }
  rewrite mbind_Ok. simpl in *. exists m. split; [done|].
  assert (map_Forall (entry_ok videos) m) as E.
  { intros k a Hk. destruct (Sm k a Hk) as (v & i & Hv & R). exists v, i.
    split; [by apply sort_videos_elem|done]. }
  split; [done|].
  assert (0 <= total m).
  { apply total_nonneg. intros k a Hk. destruct (entry_rate videos k a F (E k a Hk)). done. }
  rewrite allocated_send_rate_total. unfold u64. rewrite wrap_small by (unfold uint; lia). lia.
Qed.

End AllocationFacts.

Module AllocationProperties.
Import Allocation.

(** C34: Send rate allocation stays within its limits: it never panics, gives a
    video only a layer that exists, that is not above the layer that satisfies
    its request, and that is recorded with its own rate and height (a video
    nobody asked for gets none), and the rates of all allocated layers together
    exceed neither the ideal send rate nor the part of the target rates that may
    be allocated. *)
Theorem allocation_within_limits target min_target ideal drain videos :
  Forall AllocationFacts.video_ok videos -> 0 <= ideal < 2 ^ 62 ->
  exists m, allocate_send_rate target min_target ideal drain videos = Ok m /\
    map_Forall (AllocationFacts.entry_ok videos) m /\
    allocated_send_rate m <=
      Z.max (allocatable_of target drain ideal) (allocatable_of min_target drain ideal) /\
    allocated_send_rate m <= ideal.
Proof. apply AllocationFacts.allocate_send_rate_ok. Qed.

Lemma allocation_within_limits_witness :
  let videos :=
    [video 16 [layer 100 240; layer 300 480; layer 0 0] 480 None None;
     video 32 [layer 200 240; layer 500 480; layer 900 720] 720 (Some 1%nat) (Some 7)] in
  exists m, allocate_send_rate 1000 900 1200 100 videos = Ok m /\
    map_Forall (AllocationFacts.entry_ok videos) m /\ allocated_send_rate m <= 1200.
Proof.
  intros videos.
  destruct (allocation_within_limits 1000 900 1200 100 videos) as (m & E & F & _ & L).
  - repeat (constructor; [split; [reflexivity|repeat (constructor; [unfold uint; simpl; lia|]); constructor]|]).
    constructor.
  - lia.
  - exists m. split; [exact E|]. split; [exact F|exact L].
Defined.

(** The ideal layer of a video: none exactly for a video that is not
    requested or has no layer with both a rate and a height that could serve;
    otherwise a layer with a rate that is at least as high as requested, or, when
    no layer with a rate is, one with a rate and a height. *)
Theorem ideal_layer_serves_request v :
  match ideal_video_layer_index v with
  | Some i =>
      requested_height v ≠ 0 /\
      exists l, layers v !! i = Some l /\ has_rate l = true /\
        (requested_height v <= incoming_height l \/
         has_height l = true /\
         Forall (fun l' => has_rate l' = true -> incoming_height l' < requested_height v) (layers v))
  | None =>
      requested_height v = 0 \/ Forall (fun l => has_height_and_rate l = false) (layers v)
  end.
Proof.
  destruct (ideal_video_layer_index v) eqn:E.
  - by apply AllocationFacts.ideal_spec.
  - by apply AllocationFacts.ideal_None.
Qed.

End AllocationProperties.
