(* ===== verification/Forwarders.v ===== *)
(** * Forwarders: renumbering the packets sent to a receiver

    [src/backend/src/call.rs]: [SingleSsrcRtpForwarder] (audio and data),
    [Vp8SimulcastRtpForwarder] (video, N incoming SSRCs to one outgoing SSRC)
    and [VideoHeader].  A method that mutates its forwarder and returns an
    [Option] returns the new forwarder together with the option. *)
From S2P Require Import Prelude Common RtpHeader Vp8.
Import RtpTypes.

Module VideoHeader.

Inductive t :=
| VP8 (header : Vp8.ParsedHeader)
| DependencyDescriptor (descriptor : DependencyDescriptor.t).

Definition is_key_frame (self : t) : bool :=
  match self with
  | VP8 header => Vp8.is_key_frame header
  | DependencyDescriptor descriptor => DependencyDescriptor.is_key_frame descriptor
  end.

Definition resolution (self : t) : option PixelSize :=
  match self with
  | VP8 header => Vp8.resolution header
  | DependencyDescriptor descriptor => DependencyDescriptor.resolution descriptor
  end.

Definition picture_id (self : t) : option Z :=
  match self with VP8 header => Vp8.picture_id header | DependencyDescriptor _ => None end.

Definition tl0_pic_idx (self : t) : option Z :=
  match self with VP8 header => Vp8.tl0_pic_idx header | DependencyDescriptor _ => None end.

Definition truncated_frame_number (self : t) : option Z :=
  match self with
  | VP8 _ => None
  | DependencyDescriptor descriptor => DependencyDescriptor.truncated_frame_number descriptor
  end.

End VideoHeader.

Module SingleSsrcRtpForwarder.

Record t := mk { first_incoming : Z; first_outgoing : Z; max_outgoing : Z }.

Definition default : t := mk 0 0 0.

Definition FULL_CYCLE : Z := 65535 + 1.
Definition HALF_CYCLE : Z := FULL_CYCLE / 2.

Definition forward_rtp (self : t) (incoming : Z) : t * option Z :=
  match (d ← checked_sub incoming (first_incoming self); checked_add 64 (first_outgoing self) d)
  with
  | None => (self, None)
  | Some outgoing =>
      if u64 (u64 (max_outgoing self + HALF_CYCLE) - 1) <? outgoing then
        match checked_add 64 (max_outgoing self) 2 with
        | None => (self, None)
        | Some outgoing => (mk incoming outgoing (Z.max outgoing outgoing), Some outgoing)
        end
      else
        (mk (first_incoming self) (first_outgoing self) (Z.max (max_outgoing self) outgoing),
         Some outgoing)
  end.

End SingleSsrcRtpForwarder.

Module Vp8SimulcastRtpForwarder.

(** [Vp8RewrittenIds] *)
Record Ids := ids {
  seqnum : Z;
  timestamp : Z;
  picture_id : option Z;
  tl0_pic_idx : option Z;
  frame_number : option Z
}.

Definition default_ids : Ids := ids 0 0 (Some 0) (Some 0) (Some 1).

(** [if let (Some(lhs), Some(rhs)) = (a, b) { Some(f(lhs, rhs)?) } else { None }] *)
Definition both (f : Z -> Z -> option Z) (a b : option Z) : option (option Z) :=
  match a, b with
  | Some lhs, Some rhs => r ← f lhs rhs; Some (Some r)
  | _, _ => Some None
  end.

Definition combine_ids (f : Z -> Z -> option Z) (self other : Ids) : option Ids :=
  picture_id ← both f (picture_id self) (picture_id other);
  tl0_pic_idx ← both f (tl0_pic_idx self) (tl0_pic_idx other);
  frame_number ← both f (frame_number self) (frame_number other);
  seqnum ← f (seqnum self) (seqnum other);
  timestamp ← f (timestamp self) (timestamp other);
  Some (ids seqnum timestamp picture_id tl0_pic_idx frame_number).

Definition ids_checked_sub : Ids -> Ids -> option Ids := combine_ids checked_sub.
Definition ids_checked_add : Ids -> Ids -> option Ids := combine_ids (checked_add 64).

(** [max] on [Option<u64>], where [None] is least *)
Definition option_max (a b : option Z) : option Z :=
  match a, b with
  | Some x, Some y => Some (Z.max x y)
  | None, o | o, None => o
  end.

Definition ids_max (self other : Ids) : Ids :=
  ids (Z.max (seqnum self) (seqnum other)) (Z.max (timestamp self) (timestamp other))
      (option_max (picture_id self) (picture_id other))
      (option_max (tl0_pic_idx self) (tl0_pic_idx other))
      (option_max (frame_number self) (frame_number other)).

Inductive SwitchingState := DoNotSwitch | SwitchAtNextKeyFrame (ssrc : Z).

Record Forward := forward {
  incoming_ssrc : Z;
  needs_key_frame_ : bool;
  first_incoming : Ids;
  first_outgoing : Ids;
  max_incoming : Ids
}.

Inductive ForwardingState := Paused | Forwarding (f : Forward).

Record t := mk {
  outgoing_ssrc : Z;
  forwarding : ForwardingState;
  switching : SwitchingState;
  max_outgoing : Ids
}.

#[global] Instance t_eta : Settable t := fun s =>
  mk (outgoing_ssrc s) (forwarding s) (switching s) (max_outgoing s).

Definition new (outgoing_ssrc : Z) : t := mk outgoing_ssrc Paused DoNotSwitch default_ids.

Definition switching_ssrc (self : t) : option Z :=
  match switching self with SwitchAtNextKeyFrame ssrc => Some ssrc | DoNotSwitch => None end.

Definition forwarding_ssrc (self : t) : option Z :=
  match forwarding self with Forwarding f => Some (incoming_ssrc f) | Paused => None end.

Definition needs_key_frame (self : t) : option Z :=
  match switching self with
  | SwitchAtNextKeyFrame ssrc => Some ssrc
  | DoNotSwitch =>
      match forwarding self with
      | Forwarding f => if needs_key_frame_ f then Some (incoming_ssrc f) else None
      | Paused => None
      end
  end.

Definition set_desired_ssrc (self : t) (desired_incoming_ssrc : option Z) : t :=
  match desired_incoming_ssrc with
  | Some desired =>
      if negb (bool_decide (forwarding_ssrc self = Some desired))
         && negb (bool_decide (switching_ssrc self = Some desired))
      then self <| switching := SwitchAtNextKeyFrame desired |>
      else self
  | None => self <| forwarding := Paused |> <| switching := DoNotSwitch |>
  end.

Definition set_needs_key_frame (self : t) : t :=
  match forwarding self with
  | Forwarding f =>
      self <| forwarding := Forwarding (forward (incoming_ssrc f) true (first_incoming f)
                                          (first_outgoing f) (max_incoming f)) |>
  | Paused => self
  end.

(** [if let (Some(incoming), Some(max)) = .. { Some(expand(incoming, max)) }],
    with the new maximum *)
Definition expand_option (expand : Z -> Z -> Z * Z) (incoming max : option Z)
    : option Z * option Z :=
  match incoming, max with
  | Some incoming, Some max => let '(full, max) := expand incoming max in (Some full, Some max)
  | _, _ => (None, max)
  end.

(** The IDs of an incoming packet, expanded, and the new maxima. *)
Definition expand_ids (rtp_seqnum rtp_timestamp : Z) (header : VideoHeader.t) (max : Ids)
    : Ids * Ids :=
  let '(expanded_picture_id, max_picture_id) :=
    expand_option Vp8.expand_picture_id (VideoHeader.picture_id header) (picture_id max) in
  let '(expanded_tl0_pic_idx, max_tl0_pic_idx) :=
    expand_option Vp8.expand_tl0_pic_idx (VideoHeader.tl0_pic_idx header) (tl0_pic_idx max) in
  let '(expanded_frame_number, max_frame_number) :=
    expand_option Expand.expand_frame_number (VideoHeader.truncated_frame_number header)
      (frame_number max) in
  let '(expanded_timestamp, max_timestamp) :=
    Expand.expand_timestamp rtp_timestamp (timestamp max) in
  (ids rtp_seqnum expanded_timestamp expanded_picture_id expanded_tl0_pic_idx expanded_frame_number,
   ids (seqnum max) max_timestamp max_picture_id max_tl0_pic_idx max_frame_number).

(** A VP8 header has both IDs, a dependency descriptor neither. *)
Definition ids_present (header : VideoHeader.t) : bool :=
  match header, VideoHeader.picture_id header, VideoHeader.tl0_pic_idx header with
  | VideoHeader.VP8 _, None, _ | VideoHeader.VP8 _, _, None
  | VideoHeader.DependencyDescriptor _, Some _, _
  | VideoHeader.DependencyDescriptor _, _, Some _ => false
  | _, _, _ => true
  end.

(** The switch at a key frame of the desired SSRC; [None]: the IDs overflow. *)
Definition switch (self : t) (rtp_ssrc rtp_seqnum rtp_timestamp : Z) (header : VideoHeader.t)
    : option t :=
  if bool_decide (switching_ssrc self = Some rtp_ssrc) && VideoHeader.is_key_frame header then
    let first_incoming :=
      ids rtp_seqnum rtp_timestamp (VideoHeader.picture_id header) (VideoHeader.tl0_pic_idx header)
          (VideoHeader.truncated_frame_number header) in
    first_outgoing ←
      ids_checked_add (max_outgoing self) (ids 2 1 (Some 1) (Some 1) (Some 1));
    Some (mk (outgoing_ssrc self)
             (Forwarding (forward rtp_ssrc false first_incoming first_outgoing first_incoming))
             DoNotSwitch first_outgoing)
  else Some self.

Definition forward_vp8_rtp (self : t) (rtp_ssrc rtp_seqnum rtp_timestamp : Z)
    (header : VideoHeader.t) : t * option (Z * Ids) :=
  if negb (ids_present header) then (self, None)
  else
    match switch self rtp_ssrc rtp_seqnum rtp_timestamp header with
    | None => (self, None)
    | Some self =>
        match forwarding self with
        | Paused => (self, None)
        | Forwarding f =>
            if incoming_ssrc f =? rtp_ssrc then
              let '(incoming, max_incoming) :=
                expand_ids rtp_seqnum rtp_timestamp header (max_incoming f) in
              let state needs_key_frame :=
                Forwarding (forward (incoming_ssrc f) needs_key_frame (first_incoming f)
                                    (first_outgoing f) max_incoming) in
              match (d ← ids_checked_sub incoming (first_incoming f);
                     ids_checked_add (first_outgoing f) d) with
              | None => (self <| forwarding := state (needs_key_frame_ f) |>, None)
              | Some outgoing =>
                  (self <| max_outgoing := ids_max (max_outgoing self) outgoing |>
                        <| forwarding :=
                             state (if VideoHeader.is_key_frame header then false
                                    else needs_key_frame_ f) |>,
                   Some (outgoing_ssrc self, outgoing))
              end
            else (self, None)
        end
    end.

(** ** A forwarder's life: requests of the allocation, key frame requests of the
    receiver and incoming packets *)
Inductive Event :=
| SetDesired (ssrc : option Z)
| NeedsKeyFrame
| Incoming (rtp_ssrc rtp_seqnum rtp_timestamp : Z) (header : VideoHeader.t).

(** A forwarded packet: the SSRC and sequence number it came with, the SSRC and
    IDs it leaves with. *)
Record Sent := sent { from_ssrc : Z; from_seqnum : Z; to_ssrc : Z; to_ids : Ids }.

Definition step (self : t) (e : Event) : t * list Sent :=
  match e with
  | SetDesired ssrc => (set_desired_ssrc self ssrc, [])
  | NeedsKeyFrame => (set_needs_key_frame self, [])
  | Incoming rtp_ssrc rtp_seqnum rtp_timestamp header =>
      let '(self, out) := forward_vp8_rtp self rtp_ssrc rtp_seqnum rtp_timestamp header in
      (self, match out with
             | Some (ssrc, outgoing) => [sent rtp_ssrc rtp_seqnum ssrc outgoing]
             | None => []
             end)
  end.

(** The packets forwarded, latest first. *)
Definition run (self : t) (events : list Event) : t * list Sent :=
  foldl (fun '(self, log) e => let '(self, out) := step self e in (self, out ++ log))
        (self, []) events.

End Vp8SimulcastRtpForwarder.

(** * Theorems *)

Module SingleSsrcFacts.
Import SingleSsrcRtpForwarder.

(** The packets forwarded, latest first: (incoming, outgoing). *)
Definition run (self : t) (incoming : list Z) : t * list (Z * Z) :=
  foldl (fun '(self, log) i =>
           let '(self, out) := forward_rtp self i in
           (self, match out with Some o => (i, o) :: log | None => log end))
        (self, []) incoming.

Record inv (n : Z) (s : t) (log : list (Z * Z)) : Prop := {
  inv_first : 0 <= first_outgoing s <= max_outgoing s;
  inv_bound : max_outgoing s <= n * 2 ^ 15;
  inv_max : forall i o, (i, o) ∈ log -> o <= max_outgoing s;
  inv_shift : forall i o, (i, o) ∈ log -> first_outgoing s <= o ->
    i - first_incoming s = o - first_outgoing s;
  inv_once : forall i i' o, (i, o) ∈ log -> (i', o) ∈ log -> i = i'
}.

(** One packet: nothing, or a number within half a cycle of the largest. *)
Lemma forward_cases s i s' out :
  0 <= max_outgoing s -> max_outgoing s + 2 ^ 15 < 2 ^ 64 ->
  forward_rtp s i = (s', out) ->
  (out = None /\ s' = s) \/
  (exists o, out = Some o /\ o = first_outgoing s + (i - first_incoming s) /\
     first_incoming s <= i /\ o < max_outgoing s + 2 ^ 15 /\
     s' = mk (first_incoming s) (first_outgoing s) (Z.max (max_outgoing s) o)) \/
  (exists o, out = Some o /\ o = max_outgoing s + 2 /\ s' = mk i o o).
Proof.
  intros Hm Hb. unfold forward_rtp.
  destruct (checked_sub i (first_incoming s)) as [d|] eqn:Ed; simpl; [|intros [= <- <-]; by left].
  apply checked_sub_Some in Ed as [-> Hi].
  destruct (checked_add 64 _ _) as [o|] eqn:Eo; [|intros [= <- <-]; by left].
  apply checked_add_Some in Eo as [-> Ho].
  unfold HALF_CYCLE, FULL_CYCLE. unfold u64. change ((65535 + 1) / 2) with (2 ^ 15).
  rewrite (wrap_small 64 (_ + 2 ^ 15)) by (unfold uint; lia).
  rewrite wrap_small by (unfold uint; lia). case_if; boolsplit.
  - destruct (checked_add 64 (max_outgoing s) 2) as [o|] eqn:Eo; [|intros [= <- <-]; by left].
    apply checked_add_Some in Eo as [-> _]. intros [= <- <-]. right. right. eexists.
    split; [done|]. split; [done|]. by rewrite Z.max_id.
  - intros [= <- <-]. right. left. eexists. split; [done|]. split; [done|]. split; [done|].
    split; [lia|done].
Qed.

Lemma single_inv_step n s log i s' out :
  inv n s log -> 0 <= n < 2 ^ 48 -> forward_rtp s i = (s', out) ->
  inv (n + 1) s' (match out with Some o => (i, o) :: log | None => log end).
Proof.
  intros I Hn H. pose proof (inv_first _ _ _ I) as F. pose proof (inv_bound _ _ _ I) as B.
  destruct (forward_cases s i s' out ltac:(lia) ltac:(lia) H)
    as [(-> & ->)|[(o & -> & Eo & Hi & Ho & ->)|(o & -> & Eo & ->)]].
  - destruct I. split; try done. lia.
  - split; simpl; [lia|lia| | |].
    + intros j p Hj. apply elem_of_cons in Hj as [[= -> ->]|Hj]; [lia|].
      pose proof (inv_max _ _ _ I _ _ Hj). lia.
    + intros j p Hj Hp. apply elem_of_cons in Hj as [[= -> ->]|Hj]; [lia|].
      by apply (inv_shift _ _ _ I).
    + assert (forall j, (j, o) ∈ log -> j = i) as U.
      { intros j Hj. pose proof (inv_shift _ _ _ I _ _ Hj). lia. }
      intros j j' p Hj Hj'. apply elem_of_cons in Hj as [[= -> ->]|Hj], Hj' as [[= ->]|Hj'];
        subst; [done|symmetry; by apply U|by apply U|by apply (inv_once _ _ _ I _ _ _ Hj)].
  - split; simpl; [lia|lia| | |].
    + intros j p Hj. apply elem_of_cons in Hj as [[= -> ->]|Hj]; [lia|].
      pose proof (inv_max _ _ _ I _ _ Hj). lia.
    + intros j p Hj Hp. apply elem_of_cons in Hj as [[= -> ->]|Hj]; [lia|].
      pose proof (inv_max _ _ _ I _ _ Hj). lia.
    + assert (forall j, (j, o) ∈ log -> False) as U.
      { intros j Hj. pose proof (inv_max _ _ _ I _ _ Hj). lia. }
      intros j j' p Hj Hj'. apply elem_of_cons in Hj as [[= -> ->]|Hj], Hj' as [[= ->]|Hj'];
        subst; [done|by destruct (U _ Hj')|by destruct (U _ Hj)|by apply (inv_once _ _ _ I _ _ _ Hj)].
Qed.

Lemma single_run_snoc s l i :
  run s (l ++ [i]) =
    let '(s', log) := run s l in
    let '(s', out) := forward_rtp s' i in
    (s', match out with Some o => (i, o) :: log | None => log end).
Proof. unfold run. rewrite foldl_app. simpl. by destruct (foldl _ _ l). Qed.

Lemma single_run_inv l : Z.of_nat (length l) < 2 ^ 48 ->
  inv (Z.of_nat (length l)) (run default l).1 (run default l).2.
Proof.
  induction l as [|i l IH] using rev_ind; intros Hl.
  - split; simpl; [lia|lia|..]; intros; by match goal with H : _ ∈ [] |- _ => apply elem_of_nil in H end.
  - rewrite length_app in *. simpl in *. rewrite single_run_snoc. specialize (IH ltac:(lia)).
    destruct (run default l) as [s log]. simpl in *.
    destruct (forward_rtp s i) as [s' out] eqn:E. simpl.
    replace (Z.of_nat (length l + 1)) with (Z.of_nat (length l) + 1) by lia.
    apply (single_inv_step _ s); [done|lia|done].
Qed.

End SingleSsrcFacts.

Module Vp8ForwarderFacts.
Import SingleSsrcFacts Vp8SimulcastRtpForwarder.

Lemma combine_seqnum f a b c :
  combine_ids f a b = Some c -> f (seqnum a) (seqnum b) = Some (seqnum c).
Proof.
  unfold combine_ids. intros H.
  repeat match type of H with
  | _ ≫= _ = Some _ => apply bind_Some in H as (? & ? & H)
  end.
  injection H as <-. done.
Qed.

(** What is known of a forwarder after [log]: every number sent is at most the
    maximum; since the latest switch numbers keep their distance to the first
    one; and a number is sent for one incoming packet only. *)
Record inv (s : t) (log : list Sent) : Prop := {
  inv_ssrc : forall e, e ∈ log -> to_ssrc e = outgoing_ssrc s;
  inv_max : forall e, e ∈ log -> seqnum (to_ids e) <= seqnum (max_outgoing s);
  inv_forward : forall f, forwarding s = Forwarding f ->
    seqnum (first_outgoing f) <= seqnum (max_outgoing s) /\
    forall e, e ∈ log -> seqnum (first_outgoing f) <= seqnum (to_ids e) ->
      from_ssrc e = incoming_ssrc f /\
      from_seqnum e - seqnum (first_incoming f) = seqnum (to_ids e) - seqnum (first_outgoing f);
  inv_once : forall e e', e ∈ log -> e' ∈ log -> seqnum (to_ids e) = seqnum (to_ids e') ->
    from_ssrc e = from_ssrc e' /\ from_seqnum e = from_seqnum e'
}.

Lemma inv_new ssrc : inv (new ssrc) [].
Proof. split; intros; try done; by match goal with H : _ ∈ [] |- _ => apply elem_of_nil in H end. Qed.

(** The switch keeps the invariant: its first number is beyond all others. *)
Lemma inv_switch s log ssrc q ts h s' :
  inv s log -> switch s ssrc q ts h = Some s' -> inv s' log.
Proof.
  intros I. unfold switch. case_if; [|by intros [= <-]].
  intros H. apply bind_Some in H as (fo & Hfo & [= <-]).
  apply combine_seqnum in Hfo. apply checked_add_Some in Hfo as [Hfo _]. simpl in Hfo.
  destruct I. split; simpl; try done.
  - intros e He. specialize (inv_max0 e He). lia.
  - intros f [= <-]. simpl. split; [lia|]. intros e He Hs. specialize (inv_max0 e He). lia.
Qed.

Lemma inv_same_forward s log f f' m :
  inv s log -> forwarding s = Forwarding f -> incoming_ssrc f' = incoming_ssrc f ->
  first_incoming f' = first_incoming f -> first_outgoing f' = first_outgoing f ->
  switching (mk (outgoing_ssrc s) (Forwarding f') m (max_outgoing s)) = m ->
  inv (mk (outgoing_ssrc s) (Forwarding f') m (max_outgoing s)) log.
Proof.
  intros [I1 I2 I3 I4] Hf E1 E2 E3 _. split; simpl; try done.
  intros g [= <-]. rewrite E1, E2, E3. by apply I3.
Qed.

Lemma inv_sent s log f f' m e :
  inv s log -> forwarding s = Forwarding f -> incoming_ssrc f' = incoming_ssrc f ->
  first_incoming f' = first_incoming f -> first_outgoing f' = first_outgoing f ->
  from_ssrc e = incoming_ssrc f -> to_ssrc e = outgoing_ssrc s ->
  seqnum (to_ids e) = seqnum (first_outgoing f) + (from_seqnum e - seqnum (first_incoming f)) ->
  seqnum (first_incoming f) <= from_seqnum e ->
  inv (mk (outgoing_ssrc s) (Forwarding f') m (ids_max (max_outgoing s) (to_ids e))) (e :: log).
Proof.
  intros [I1 I2 I3 I4] Hf E1 E2 E3 Es Et Eq Hle. destruct (I3 f Hf) as [If Is].
  assert (forall e', e' ∈ log -> seqnum (to_ids e') = seqnum (to_ids e) ->
    from_ssrc e' = from_ssrc e /\ from_seqnum e' = from_seqnum e) as U.
  { intros e' He' E. destruct (Is e' He') as [A B]; [lia|]. rewrite A, Es. split; [done|lia]. }
  split; simpl.
  - intros e' He. apply elem_of_cons in He as [->|He]; [done|by apply I1].
  - intros e' He. apply elem_of_cons in He as [->|He]; [lia|]. specialize (I2 e' He). lia.
  - intros g [= <-]. rewrite E1, E2, E3. split; [lia|]. intros e' He Hs.
    apply elem_of_cons in He as [->|He]; [split; [done|lia]|by apply Is].
  - intros e1 e2 H1 H2 E. apply elem_of_cons in H1 as [->|H1], H2 as [->|H2].
    + done.
    + symmetry in E. destruct (U e2 H2 E). done.
    + by apply U.
    + by apply I4.
Qed.

(** The last step of [forward_vp8_rtp]. *)
Lemma outgoing_seqnum incoming fi fo o :
  (d ← ids_checked_sub incoming fi; ids_checked_add fo d) = Some o ->
  seqnum o = seqnum fo + (seqnum incoming - seqnum fi) /\ seqnum fi <= seqnum incoming.
Proof.
  intros H. apply bind_Some in H as (d & Hd & H).
  apply combine_seqnum in Hd, H. apply checked_sub_Some in Hd as [Hd ?].
  apply checked_add_Some in H as [H _]. lia.
Qed.

Lemma expand_ids_seqnum q ts h m : seqnum (expand_ids q ts h m).1 = q.
Proof.
  unfold expand_ids. destruct (expand_option _ _ _), (expand_option _ _ _), (expand_option _ _ _).
  by destruct (Expand.expand_timestamp _ _).
Qed.

Lemma video_inv_step s log e s' out :
  inv s log -> step s e = (s', out) -> inv s' (out ++ log).
Proof.
  intros I. destruct e as [ssrc| |ssrc q ts h]; simpl.
  - intros [= <- <-]. unfold set_desired_ssrc. destruct ssrc as [d|].
    + case_if; [|done]. destruct I. by split.
    + destruct I. split; simpl; try done.
  - intros [= <- <-]. unfold set_needs_key_frame.
    destruct (forwarding s) as [|f] eqn:Hf; [done|].
    by apply (inv_same_forward s log f).
  - destruct (forward_vp8_rtp s ssrc q ts h) as [s1 o] eqn:H. intros [= <- <-].
    unfold forward_vp8_rtp in H. case_if_in H; [by injection H as <- <-|].
    destruct (switch s ssrc q ts h) as [s2|] eqn:Hsw; [|by injection H as <- <-].
    apply (inv_switch _ _ _ _ _ _ _ I) in Hsw. clear I.
    destruct (forwarding s2) as [|f] eqn:Hf; [by injection H as <- <-|].
    case_if_in H; [|by injection H as <- <-]. boolsplit.
    pose proof (expand_ids_seqnum q ts h (max_incoming f)) as Eq.
    destruct (expand_ids q ts h (max_incoming f)) as [inc maxi]. simpl in Eq.
    match type of H with context [match ?x with _ => _ end] => destruct x as [og|] eqn:Eo end.
    + injection H as <- <-. apply outgoing_seqnum in Eo as [Eo Hle]. subst q.
      apply (inv_sent s2 log f _ _ (sent ssrc (seqnum inc) (outgoing_ssrc s2) og)); done.
    + injection H as <- <-. by apply (inv_same_forward s2 log f).
Qed.

Lemma video_run_snoc s l e :
  run s (l ++ [e]) =
    let '(s', log) := run s l in let '(s', out) := step s' e in (s', out ++ log).
Proof. unfold run. rewrite foldl_app. simpl. by destruct (foldl _ _ l). Qed.

Lemma video_run_inv ssrc l : inv (run (new ssrc) l).1 (run (new ssrc) l).2.
Proof.
  induction l as [|e l IH] using rev_ind; [apply inv_new|].
  rewrite video_run_snoc. destruct (run (new ssrc) l) as [s log]. simpl in IH.
  destruct (step s e) as [s' out] eqn:E. simpl. by eapply video_inv_step.
Qed.

(** The outgoing SSRC never changes. *)
Lemma step_outgoing_ssrc s e : outgoing_ssrc (step s e).1 = outgoing_ssrc s.
Proof.
  destruct e as [o| |rs q ts h]; simpl.
  - unfold set_desired_ssrc. destruct o; [by case_if|done].
  - unfold set_needs_key_frame. by destruct (forwarding s).
  - destruct (forward_vp8_rtp s rs q ts h) as [s1 o] eqn:F. simpl.
    unfold forward_vp8_rtp in F. case_if_in F; [by injection F as <- <-|].
    destruct (switch s rs q ts h) as [s2|] eqn:Hsw; [|by injection F as <- <-].
    assert (outgoing_ssrc s2 = outgoing_ssrc s) as <-.
    { unfold switch in Hsw. case_if_in Hsw; [|by injection Hsw as <-].
      by apply bind_Some in Hsw as (fo & _ & [= <-]). }
    destruct (forwarding s2) as [|f] eqn:Hf; [by injection F as <- <-|].
    case_if_in F; [|by injection F as <- <-].
    destruct (expand_ids _ _ _ _) as [inc maxi].
    match type of F with context [match ?x with _ => _ end] => destruct x as [og|] end;
      by injection F as <- <-.
Qed.

Lemma run_outgoing_ssrc ssrc l : outgoing_ssrc (run (new ssrc) l).1 = ssrc.
Proof.
  induction l as [|e l IH] using rev_ind; [done|]. rewrite video_run_snoc.
  destruct (run (new ssrc) l) as [s log]. simpl in IH.
  pose proof (step_outgoing_ssrc s e) as E. destruct (step s e). simpl in *. congruence.
Qed.

(** What a forwarder forwards or waits for, it was told to. *)
Definition active (s : t) (ssrc : Z) : Prop :=
  forwarding_ssrc s = Some ssrc \/ switching_ssrc s = Some ssrc.

Lemma step_active s e s' out ssrc :
  step s e = (s', out) -> (forall x, active s x -> x = ssrc -> False) ->
  e ≠ SetDesired (Some ssrc) ->
  ~ active s' ssrc /\ forall p, p ∈ out -> from_ssrc p ≠ ssrc.
Proof.
  intros H N Ne. assert (~ active s ssrc) as Na by (intros A; by apply (N ssrc)). clear N.
  assert (forall (p : Sent), p ∈ [] -> from_ssrc p ≠ ssrc) as Nil.
  { intros p Hp. by apply elem_of_nil in Hp. }
  destruct e as [o| |rs q ts h]; simpl in H.
  - injection H as <- <-. split; [|done]. unfold set_desired_ssrc. destruct o as [d|].
    + case_if; [|done]. intros [A|A]; simpl in A; [by apply Na; left|]. injection A as <-. done.
    + intros [A|A]; simpl in A; done.
  - injection H as <- <-. split; [|done]. unfold set_needs_key_frame, active, forwarding_ssrc, switching_ssrc in *.
    destruct (forwarding s) eqn:Hf; simpl in *; [by rewrite Hf|done].
  - destruct (forward_vp8_rtp s rs q ts h) as [s1 o] eqn:F. injection H as <- <-.
    unfold forward_vp8_rtp in F. case_if_in F; [by injection F as <- <-|].
    destruct (switch s rs q ts h) as [s2|] eqn:Hsw; [|by injection F as <- <-].
    assert (~ active s2 ssrc) as Na2.
    { unfold switch in Hsw. case_if_in Hsw; [|by injection Hsw as <-]. boolsplit.
      apply bind_Some in Hsw as (fo & _ & [= <-]). case_bool_decide; [|done].
      intros [A|A]; simpl in A; [|done]. injection A as ->. apply Na. by right. }
    clear Na. destruct (forwarding s2) as [|f] eqn:Hf; [by injection F as <- <-|].
    case_if_in F; [|by injection F as <- <-]. boolsplit. subst rs.
    destruct (expand_ids _ _ _ _) as [inc maxi].
    assert (incoming_ssrc f ≠ ssrc) as Nf.
    { intros Eq. apply Na2. left. unfold forwarding_ssrc. rewrite Hf. congruence. }
    unfold active, forwarding_ssrc, switching_ssrc in *. rewrite Hf in Na2.
    match type of F with context [match ?x with _ => _ end] => destruct x as [og|] end;
      injection F as <- <-; simpl; (split; [done|]); [|done].
    intros p Hp. apply list_elem_of_singleton in Hp as ->. done.
Qed.

Lemma run_active ssrc l x :
  SetDesired (Some x) ∉ l ->
  ~ active (run (new ssrc) l).1 x /\ forall p, p ∈ (run (new ssrc) l).2 -> from_ssrc p ≠ x.
Proof.
  induction l as [|e l IH] using rev_ind; intros N.
  { split; [by intros [A|A]|]. intros p Hp. by apply elem_of_nil in Hp. }
  rewrite not_elem_of_app, not_elem_of_cons in N. destruct N as (N & Ne & _).
  destruct (IH N) as [A L]. rewrite video_run_snoc. destruct (run (new ssrc) l) as [s log]. simpl in *.
  destruct (step s e) as [s' out] eqn:E. simpl.
  destruct (step_active s e s' out x E) as [A' L']; [by intros y Hy ->|by intros ->|].
  split; [done|]. intros p Hp. apply elem_of_app in Hp as [Hp|Hp]; auto.
Qed.

End Vp8ForwarderFacts.

Module ForwardersProperties.

(** An audio or data stream forwarded to a receiver never reuses a sequence
    number: whatever packets arrive, in any order, with gaps and repetitions, two
    packets are sent with the same number only if they arrived with the same
    number (fewer than 2^48 packets). *)
Theorem single_ssrc_no_reuse l i i' o :
  Z.of_nat (length l) < 2 ^ 48 ->
  let log := (SingleSsrcFacts.run SingleSsrcRtpForwarder.default l).2 in
  (i, o) ∈ log -> (i', o) ∈ log -> i = i'.
Proof. intros H. by apply (SingleSsrcFacts.inv_once _ _ _ (SingleSsrcFacts.single_run_inv l H)). Qed.

Lemma single_ssrc_no_reuse_witness :
  (SingleSsrcFacts.run SingleSsrcRtpForwarder.default [3; 100000; 5; 100001; 99999; 100000]).2 =
    [(100000, 5); (100001, 6); (100000, 5); (3, 3)] /\ 100000 = 100000.
Proof.
  split; [vm_compute; reflexivity|].
  apply (single_ssrc_no_reuse [3; 100000; 5; 100001; 99999; 100000] 100000 100000 5);
    [simpl; lia | vm_compute; left | vm_compute; left].
Defined.

(** A forwarded audio or data packet can be decoded: its number is less than
    half a 16-bit cycle above the largest one sent before, so a receiver that has
    that one, and is not half a cycle behind, expands the truncated number to the
    number that was sent. *)
Theorem single_ssrc_expandable (s s' : SingleSsrcRtpForwarder.t) i o :
  0 <= SingleSsrcRtpForwarder.max_outgoing s < 2 ^ 63 ->
  SingleSsrcRtpForwarder.forward_rtp s i = (s', Some o) ->
  SingleSsrcRtpForwarder.max_outgoing s - 2 ^ 15 < o -> 0 <= o ->
  Expand.expand_seqnum (u16 o) (SingleSsrcRtpForwarder.max_outgoing s) =
    (o, Z.max (SingleSsrcRtpForwarder.max_outgoing s) o).
Proof.
  intros Hm H Hlo Ho.
  assert (o < SingleSsrcRtpForwarder.max_outgoing s + 2 ^ 15) as Hhi.
  { destruct (SingleSsrcFacts.forward_cases s i s' (Some o) ltac:(lia) ltac:(lia) H)
      as [[? _]|[(p & [= <-] & _ & _ & Hp & _)|(p & [= <-] & Hp & _)]]; [done|lia|lia]. }
  unfold Expand.expand_seqnum, u16.
  pose proof (CountersFacts.expand_correct 16 (SingleSsrcRtpForwarder.max_outgoing s) o
    ltac:(lia) ltac:(lia) ltac:(unfold uint; lia) ltac:(lia)) as E.
  pose proof (CountersFacts.expand_max 16 (wrap 16 o) (SingleSsrcRtpForwarder.max_outgoing s)) as M.
  rewrite E in M. destruct (Counters.expand_truncated_counter _ _ _). simpl in *. congruence.
Qed.

Lemma single_ssrc_expandable_witness :
  Expand.expand_seqnum (u16 70002) 70000 = (70002, 70002).
Proof.
  apply (single_ssrc_expandable (SingleSsrcRtpForwarder.mk 0 0 70000)
           (SingleSsrcRtpForwarder.mk 500000 70002 70002) 500000 70002);
    [simpl; lia | vm_compute; reflexivity | simpl; lia | lia].
Defined.

(** C33: The video stream a receiver gets from one sender looks like one stream:
    through any sequence of layer switches, pauses, key frame requests and
    arrivals on any of the sender's SSRCs, all packets leave with the outgoing
    SSRC, and two packets leave with the same sequence number only if they came
    with the same SSRC and sequence number. *)
Theorem video_forwarder_no_reuse ssrc events e e' :
  let log := (Vp8SimulcastRtpForwarder.run (Vp8SimulcastRtpForwarder.new ssrc) events).2 in
  e ∈ log -> e' ∈ log ->
  Vp8SimulcastRtpForwarder.to_ssrc e = ssrc /\
  (Vp8SimulcastRtpForwarder.seqnum (Vp8SimulcastRtpForwarder.to_ids e) =
     Vp8SimulcastRtpForwarder.seqnum (Vp8SimulcastRtpForwarder.to_ids e') ->
   Vp8SimulcastRtpForwarder.from_ssrc e = Vp8SimulcastRtpForwarder.from_ssrc e' /\
   Vp8SimulcastRtpForwarder.from_seqnum e = Vp8SimulcastRtpForwarder.from_seqnum e').
Proof.
  intros log He He'. pose proof (Vp8ForwarderFacts.video_run_inv ssrc events) as I. split.
  - rewrite (Vp8ForwarderFacts.inv_ssrc _ _ I e He). apply Vp8ForwarderFacts.run_outgoing_ssrc.
  - by apply (Vp8ForwarderFacts.inv_once _ _ I).
Qed.

(** Nothing is forwarded that was not asked for: every video packet that
    leaves arrived on an SSRC that some earlier allocation had made the desired
    one; in particular nothing leaves a forwarder that was never given one. *)
Theorem video_forwarder_only_desired ssrc events e :
  e ∈ (Vp8SimulcastRtpForwarder.run (Vp8SimulcastRtpForwarder.new ssrc) events).2 ->
  Vp8SimulcastRtpForwarder.SetDesired (Some (Vp8SimulcastRtpForwarder.from_ssrc e)) ∈ events.
Proof.
  intros He. set (x := Vp8SimulcastRtpForwarder.from_ssrc e).
  destruct (decide (x ∈ omap (fun ev => match ev with
    | Vp8SimulcastRtpForwarder.SetDesired o => o | _ => None end) events)) as [D|D].
  - apply list_elem_of_omap in D as (ev & Hev & E). destruct ev; [by subst|done|done].
  - exfalso. destruct (Vp8ForwarderFacts.run_active ssrc events x) as [_ L]; [|by apply (L e He)].
    intros Hx. apply D, list_elem_of_omap. by eexists.
Qed.

Definition key_frame : VideoHeader.t := VideoHeader.VP8 (Vp8.mk (Some 7) (Some 3) true None).
Definition sample_events : list Vp8SimulcastRtpForwarder.Event :=
  [Vp8SimulcastRtpForwarder.SetDesired (Some 34); Vp8SimulcastRtpForwarder.Incoming 34 10 5 key_frame;
   Vp8SimulcastRtpForwarder.SetDesired (Some 36); Vp8SimulcastRtpForwarder.Incoming 36 900 7 key_frame].

Lemma video_forwarder_no_reuse_witness :
  let log := (Vp8SimulcastRtpForwarder.run (Vp8SimulcastRtpForwarder.new 32) sample_events).2 in
  map (fun e => Vp8SimulcastRtpForwarder.seqnum (Vp8SimulcastRtpForwarder.to_ids e)) log = [4; 2] /\
  exists e, head log = Some e /\ Vp8SimulcastRtpForwarder.to_ssrc e = 32.
Proof.
  split; [vm_compute; reflexivity|]. eexists. split; [vm_compute; reflexivity|].
  eapply (video_forwarder_no_reuse 32 sample_events); vm_compute; left.
Defined.

Lemma video_forwarder_only_desired_witness :
  exists e, head (Vp8SimulcastRtpForwarder.run (Vp8SimulcastRtpForwarder.new 32) sample_events).2 = Some e
    /\ Vp8SimulcastRtpForwarder.SetDesired (Some (Vp8SimulcastRtpForwarder.from_ssrc e)) ∈ sample_events.
Proof.
  eexists. split; [vm_compute; reflexivity|].
  apply (video_forwarder_only_desired 32 sample_events). vm_compute. left.
Defined.

End ForwardersProperties.
