(* ===== verification/ApprovedUsers.v ===== *)
(** * ApprovedUsers: the approval list and its persistence

    [src/backend/src/call/approval_persistence.rs].  A user ID is its string.
    The task that sends the list to the frontend is represented by the list it
    was given; what it has come to when [tick] looks at it is an argument of
    [tick], as is whether there is an asynchronous runtime to spawn it on.  The
    delay of a retry only changes when the request is made and is left out. *)
From stdpp Require Import strings.
From S2P Require Import Prelude.

Definition UserId : Type := string.

Module ApprovedUsers.

(** What a finished task yields: the status [OK], another status, or a failure
    of the task itself. *)
Inductive Outcome := StatusOk | StatusOther | TaskFailed.

Record t := mk {
  set : gset UserId;
  future : option (gset UserId);
  modified : bool;
  persistence_mode : bool;   (* a URL to persist to, or off *)
  retry_count : Z
}.

#[global] Instance t_eta : Settable t := fun s =>
  mk (set s) (future s) (modified s) (persistence_mode s) (retry_count s).

Definition new (users : list UserId) (url : bool) : t := mk (list_to_set users) None false url 0.

Definition contains (self : t) (value : UserId) : bool := bool_decide (value ∈ set self).

Definition insert (self : t) (value : UserId) : t * bool :=
  if bool_decide (value ∈ set self) then (self, false)
  else (self <| set := {[value]} ∪ set self |> <| modified := true |>, true).

Definition remove (self : t) (value : UserId) : t * bool :=
  if bool_decide (value ∈ set self)
  then (self <| set := set self ∖ {[value]} |> <| modified := true |>, true)
  else (self, false).

Definition spawn (self : t) (runtime : bool) : t :=
  if negb (persistence_mode self) then self <| modified := false |>
  else if negb runtime then self <| modified := false |>
  else self <| future := Some (set self) |>.

Definition is_busy (self : t) : bool := modified self || bool_decide (is_Some (future self)).

(** [outcome] is [None] while the task is running. *)
Definition tick (self : t) (outcome : option Outcome) (runtime : bool) : t :=
  let self :=
    match future self, outcome with
    | Some _, Some outcome =>
        let self := self <| future := None |> in
        let needs_retry := match outcome with StatusOther => true | _ => false end in
        if needs_retry && negb (modified self) then
          let self := self <| retry_count := u8 (retry_count self + 1) |> in
          if 3 <? retry_count self then self else spawn self runtime
        else self
    | _, _ => self
    end in
  if modified self && bool_decide (future self = None) then
    spawn (self <| modified := false |> <| retry_count := 0 |>) runtime
  else self.

(** ** The list and the frontend's copy of it *)

Inductive Event :=
| Insert (value : UserId)
| Remove (value : UserId)
| Tick (outcome : option Outcome).

(** The approval list and what the frontend stores: the body of a request that
    came back with [OK]. *)
Definition step (state : t * gset UserId) (e : Event) : t * gset UserId :=
  let '(self, stored) := state in
  match e with
  | Insert value => ((insert self value).1, stored)
  | Remove value => ((remove self value).1, stored)
  | Tick outcome =>
      (tick self outcome true,
       match future self, outcome with
       | Some body, Some StatusOk => body
       | _, _ => stored
       end)
  end.

End ApprovedUsers.

(** * Theorems *)

Module ApprovedUsersFacts.
Import ApprovedUsers.

Lemma insert_set s v : set (insert s v).1 = {[v]} ∪ set s.
Proof. unfold insert. case_bool_decide; simpl; [set_solver|done]. Qed.

Lemma remove_set s v : set (remove s v).1 = set s ∖ {[v]}.
Proof. unfold remove. case_bool_decide; simpl; [done|set_solver]. Qed.

Lemma spawn_set s r : set (spawn s r) = set s.
Proof. unfold spawn. by repeat case_if. Qed.

Lemma tick_set s o r : set (tick s o r) = set s.
Proof.
  unfold tick. set (s1 := match future s, o with Some _, Some _ => _ | _, _ => _ end).
  assert (set s1 = set s) as E.
  { unfold s1. destruct (future s), o as [[]|]; simpl; try done;
    repeat case_if; rewrite ?spawn_set; done. }
  case_if; [|done]. by rewrite spawn_set.
Qed.

Lemma contains_true s v : contains s v = true <-> v ∈ set s.
Proof. apply bool_decide_eq_true. Qed.

(** While nothing is left to be sent, the frontend has the list, unless the
    retries have run out. *)
Record inv (state : t * gset UserId) : Prop := {
  inv_on : persistence_mode state.1 = true;
  inv_retry : 0 <= retry_count state.1 <= 4;
  inv_retry_busy : is_Some (future state.1) -> retry_count state.1 <= 3;
  inv_future : forall body, modified state.1 = false -> future state.1 = Some body -> body = set state.1;
  inv_idle : modified state.1 = false -> future state.1 = None ->
    state.2 = set state.1 \/ 3 < retry_count state.1
}.

Lemma inv_modified s stored x :
  inv (s, stored) -> inv (s <| set := x |> <| modified := true |>, stored).
Proof. intros []. by split. Qed.

Ltac inv_fields := split; simpl; intros; first [done | lia | congruence | naive_solver lia].

Lemma approved_inv_step state e :
  inv state -> e ≠ Tick (Some TaskFailed) -> inv (step state e).
Proof.
  destruct state as [s stored]. intros I Ne. pose proof I as [On R Rb F D]. simpl in *.
  destruct e as [v|v|o]; simpl.
  - unfold insert. case_bool_decide; [done|]. by apply inv_modified.
  - unfold remove. case_bool_decide; [|done]. by apply inv_modified.
  - destruct (future s) as [body|] eqn:Ef.
    + specialize (Rb ltac:(by eexists)).
      destruct o as [[]|]; unfold tick; rewrite Ef; simpl; try done.
      * destruct (modified s) eqn:M; simpl; [|inv_fields].
        unfold spawn. simpl. rewrite On. simpl. inv_fields.
      * destruct (modified s) eqn:M; simpl.
        { rewrite M. unfold spawn. simpl. rewrite On. simpl. inv_fields. }
        unfold u8. rewrite wrap_small by (unfold uint; lia).
        destruct (3 <? retry_count s + 1) eqn:E3; boolsplit.
        { simpl. rewrite M. simpl. inv_fields. }
        unfold spawn. simpl. rewrite On. simpl. rewrite M. simpl.
        inv_fields.
      * rewrite Ef. rewrite bool_decide_eq_false_2, andb_false_r by done.
        inv_fields.
    + unfold tick. rewrite Ef. destruct (modified s) eqn:M; simpl.
      * rewrite ?Ef, bool_decide_eq_true_2 by done. simpl.
        unfold spawn. simpl. rewrite On. simpl. inv_fields.
      * exact I.
Qed.

End ApprovedUsersFacts.

Module ApprovedUsersProperties.
Import ApprovedUsers.

(** No change of the approval list is lost: starting from a list the frontend
    has, after any insertions, removals and ticks (with requests taking any time
    and failing any number of times, but no crash of the task), whenever nothing
    is pending the frontend stores exactly the current list, unless the last
    request was given up after its third retry. *)
Theorem approved_users_persisted users events :
  Tick (Some TaskFailed) ∉ events ->
  let '(self, stored) := foldl step (new users true, list_to_set users) events in
  is_busy self = false -> stored = set self \/ 3 < retry_count self.
Proof.
  intros N.
  assert (ApprovedUsersFacts.inv (foldl step (new users true, list_to_set users) events)) as I.
  { assert (ApprovedUsersFacts.inv (new users true, list_to_set users)) as I0.
    { ApprovedUsersFacts.inv_fields. }
    revert I0. generalize (new users true, list_to_set (C:=gset UserId) users).
    induction events as [|e events IH]; intros st I; simpl; [done|].
    rewrite not_elem_of_cons in N. destruct N. apply IH; [done|].
    by apply ApprovedUsersFacts.approved_inv_step. }
  destruct (foldl _ _ _) as [self stored]. intros B. unfold is_busy in B. boolsplit.
  apply bool_decide_eq_false, eq_None_not_Some in H0. by apply (ApprovedUsersFacts.inv_idle _ I).
Qed.

Lemma approved_users_persisted_witness :
  let '(self, stored) := foldl step (new [] true, ∅)
    [Insert "a"%string; Tick None; Insert "b"%string; Tick (Some StatusOther); Tick (Some StatusOk)] in
  stored = set self \/ 3 < retry_count self.
Proof.
  pose proof (approved_users_persisted []
    [Insert "a"%string; Tick None; Insert "b"%string; Tick (Some StatusOther); Tick (Some StatusOk)]) as H.
  set (r := foldl step _ _) in H. change (foldl step (new [] true, ∅) _) with r.
  assert (is_busy r.1 = false) as B by (vm_compute; reflexivity).
  destruct r as [self stored]. apply H; [|exact B].
  rewrite !not_elem_of_cons. repeat split; try discriminate. apply not_elem_of_nil.
Defined.

End ApprovedUsersProperties.
