(* ===== verification/Client.v ===== *)
(** * Client: the participants of a call

    [src/backend/src/call.rs]: [IncomingVideoState], [NonParticipantClient],
    [Client] and the messages of [src/backend/protobuf/group_call.proto].

    The protobuf codec (prost) and the reliable stream (the [mrp] crate) are not
    in this repository: they are the operations of the classes [Protos] and
    [Mrp].  A hash map is a [gmap]; where the code iterates over one, the model
    takes the order of [map_to_list]. *)
From stdpp Require Import strings.
From S2P Require Import Prelude Common Collections Float Srtp RtpHeader Audio Vp8 Packet.
From S2P Require Import Layers Allocation Forwarders ApprovedUsers.
Import RtpTypes.

(** ** Messages *)
Module Proto.

Record MrpHeader := mrp_header { seqnum : option Z; ack_num : option Z }.

Record VideoRequest := video_request { height : option Z; demux_id : option Z }.

Record VideoRequestMessage := video_request_message {
  requests : list VideoRequest;
  max_kbps : option Z;
  active_speaker_height : option Z
}.

#[global] Instance VideoRequest_eq_dec : EqDecision VideoRequest.
Proof. solve_decision. Defined.
#[global] Instance VideoRequestMessage_eq_dec : EqDecision VideoRequestMessage.
Proof. solve_decision. Defined.

Record RaiseHand := raise_hand { raise : option bool; raise_seqnum : option Z }.

(** The admin actions are lists of optional target demux IDs. *)
Record DeviceToSfu := device_to_sfu {
  d_video_request : option VideoRequestMessage;
  d_leave : bool;
  d_approve : list (option Z);
  d_deny : list (option Z);
  d_remove : list (option Z);
  d_block : list (option Z);
  d_raise_hand : option RaiseHand;
  d_mrp_header : option MrpHeader
}.

Record CurrentDevices := current_devices {
  all_demux_ids : list Z;
  demux_ids_with_video : list Z;
  allocated_heights : list Z
}.

Record Stats := stats {
  target_send_rate_kbps : option Z;
  ideal_send_rate_kbps : option Z;
  allocated_send_rate_kbps : option Z
}.

Record RaisedHands := raised_hands {
  demux_ids : list Z;
  seqnums : list Z;
  target_seqnum : option Z
}.

Record SfuToDevice := sfu_to_device {
  s_speaker : option (option Z);
  s_device_joined_or_left : bool;
  s_current_devices : option CurrentDevices;
  s_stats : option Stats;
  s_removed : bool;
  s_raised_hands : option RaisedHands;
  s_mrp_header : option MrpHeader
}.

#[global] Instance SfuToDevice_eta : Settable SfuToDevice := fun s =>
  sfu_to_device (s_speaker s) (s_device_joined_or_left s) (s_current_devices s) (s_stats s)
    (s_removed s) (s_raised_hands s) (s_mrp_header s).

Definition default_sfu_to_device : SfuToDevice :=
  sfu_to_device None false None None false None None.

End Proto.

Class Protos := {
  decode : bytes -> option Proto.DeviceToSfu;
  encode_to_vec : Proto.SfuToDevice -> bytes
}.

(** [MrpStream<SfuToDevice, DeviceToSfu>]: [receive] gives the messages that are
    ready, in order; [try_send_ack] the header to acknowledge with, if one is
    due; [try_resend] the messages to send again at a time. *)
Class Mrp := {
  MrpStream : Type;
  MrpReceiveError : Type;
  mrp_new : nat -> MrpStream;
  mrp_receive : MrpStream -> Proto.MrpHeader -> Proto.DeviceToSfu ->
    MrpStream * (MrpReceiveError + list Proto.DeviceToSfu);
  mrp_try_send_ack : MrpStream -> MrpStream * option Proto.MrpHeader;
  mrp_try_resend : MrpStream -> Z -> MrpStream * list Proto.SfuToDevice
}.

Inductive Error `{Mrp} :=
| InvalidClientToServerProtobuf
| UnauthorizedRtpSsrc (authorized received : DemuxId.t)
| InvalidVp8Header
| InvalidMrpHeader (e : MrpReceiveError)
| InvalidRtpLayerId
| UnknownDemuxId (demux_id : DemuxId.t)
| Leave.

#[export] Instance PixelSize_eq_dec : EqDecision PixelSize.
Proof. solve_decision. Defined.
#[export] Instance VideoRotation_eq_dec : EqDecision VideoRotation.
Proof. solve_decision. Defined.

(** ** Incoming video *)
Module IncomingVideoState.

Record t := mk {
  rate_tracker : DataRateTracker.t;
  original_resolution : option PixelSize;
  height : option Z
}.

#[global] Instance t_eta : Settable t := fun s =>
  mk (rate_tracker s) (original_resolution s) (height s).

Definition default : t := mk DataRateTracker.default None None.

Definition rate (self : t) : option Z := DataRateTracker.stable_rate (rate_tracker self).

Definition apply_rotation (self : t) (rotation : VideoRotation) : t :=
  match original_resolution self with
  | None => self
  | Some resolution =>
      self <| height := Some
        (match rotation with
         | RotationNone | Clockwise180 => RtpTypes.height resolution
         | Clockwise90 | Clockwise270 => RtpTypes.width resolution
         end) |>
  end.

Definition clear_resolution (self : t) : t :=
  self <| original_resolution := None |> <| height := None |>.

Definition as_allocatable_layer (self : t) : Allocation.AllocatableVideoLayer :=
  Allocation.layer (unwrap_or (rate self) 0) (unwrap_or (height self) 0).

End IncomingVideoState.

(** [connection.rs]: [ConnectionRates] *)
Record ConnectionRates := connection_rates_mk {
  video_rate : Z;
  audio_rate : Z;
  rtx_rate : Z;
  padding_rate : Z;
  non_media_rate : Z;
  incoming_audio_rate : Z;
  incoming_rtx_rate : Z;
  incoming_padding_rate : Z;
  incoming_non_media_rate : Z;
  incoming_discard_rate : Z
}.
Definition default_connection_rates : ConnectionRates :=
  connection_rates_mk 0 0 0 0 0 0 0 0 0 0.

(** ** Clients *)
Module NonParticipantClient.

Record t := mk {
  demux_id : DemuxId.t;
  user_id : UserId;
  is_admin : bool;
  region_relation : Region.Relation;
  next_server_to_client_data_rtp_seqnum : Z
}.

#[global] Instance t_eta : Settable t := fun c =>
  mk (demux_id c) (user_id c) (is_admin c) (region_relation c)
     (next_server_to_client_data_rtp_seqnum c).

End NonParticipantClient.

Module Client.

Section Client.
Context `{Mrp}.

Record t := mk {
  demux_id : DemuxId.t;
  user_id : UserId;
  is_admin : bool;
  region_relation : Region.Relation;
  incoming_video0 : IncomingVideoState.t;
  incoming_video1 : IncomingVideoState.t;
  incoming_video2 : IncomingVideoState.t;
  video_rotation : VideoRotation;
  incoming_audio_levels : LevelsTracker.t;
  became_active_speaker : option Z;
  video_request_proto : option Proto.VideoRequestMessage;
  requested_height_by_demux_id : gmap DemuxId.t Z;
  active_speaker_height : Z;
  target_send_rate : Z;
  current_generation_min_target_send_rate : Z;
  old_generation_min_target_send_rate : Z;
  next_min_target_generation_update_time : Z;
  outgoing_queue_drain_rate : Z;
  requested_max_send_rate : Z;
  send_rate_allocated : Z;
  requested_base_rate : Z;
  ideal_send_rate : Z;
  allocated_send_rate : Z;
  connection_rates : ConnectionRates;
  padding_ssrc : option Z;
  audio_forwarder_by_sender_demux_id : gmap DemuxId.t SingleSsrcRtpForwarder.t;
  video_forwarder_by_sender_demux_id : gmap DemuxId.t Vp8SimulcastRtpForwarder.t;
  data_forwarder_by_sender_demux_id : gmap DemuxId.t SingleSsrcRtpForwarder.t;
  allocated_height_by_sender_demux_id : gmap DemuxId.t Z;
  reliable_mrp_stream : MrpStream;
  next_server_to_client_data_rtp_seqnum : Z
}.

#[global] Instance t_eta : Settable t := fun c =>
  mk (demux_id c) (user_id c) (is_admin c) (region_relation c) (incoming_video0 c)
     (incoming_video1 c) (incoming_video2 c) (video_rotation c) (incoming_audio_levels c)
     (became_active_speaker c) (video_request_proto c) (requested_height_by_demux_id c)
     (active_speaker_height c) (target_send_rate c) (current_generation_min_target_send_rate c)
     (old_generation_min_target_send_rate c) (next_min_target_generation_update_time c)
     (outgoing_queue_drain_rate c) (requested_max_send_rate c) (send_rate_allocated c)
     (requested_base_rate c) (ideal_send_rate c) (allocated_send_rate c) (connection_rates c)
     (padding_ssrc c) (audio_forwarder_by_sender_demux_id c)
     (video_forwarder_by_sender_demux_id c) (data_forwarder_by_sender_demux_id c)
     (allocated_height_by_sender_demux_id c) (reliable_mrp_stream c)
     (next_server_to_client_data_rtp_seqnum c).

Definition MAX_MRP_WINDOW_SIZE : nat := 64.

Definition new (pending_client_info : NonParticipantClient.t)
    (initial_target_send_rate requested_max_send_rate now : Z) : t := {|
  demux_id := NonParticipantClient.demux_id pending_client_info;
  user_id := NonParticipantClient.user_id pending_client_info;
  is_admin := NonParticipantClient.is_admin pending_client_info;
  region_relation := NonParticipantClient.region_relation pending_client_info;
  incoming_video0 := IncomingVideoState.default;
  incoming_video1 := IncomingVideoState.default;
  incoming_video2 := IncomingVideoState.default;
  video_rotation := RotationNone;
  incoming_audio_levels := LevelsTracker.default;
  became_active_speaker := None;
  video_request_proto := None;
  requested_height_by_demux_id := ∅;
  active_speaker_height := 0;
  target_send_rate := initial_target_send_rate;
  current_generation_min_target_send_rate := initial_target_send_rate;
  old_generation_min_target_send_rate := initial_target_send_rate;
  next_min_target_generation_update_time := now;
  outgoing_queue_drain_rate := 0;
  requested_max_send_rate := requested_max_send_rate;
  send_rate_allocated := now;
  requested_base_rate := 0;
  ideal_send_rate := 0;
  allocated_send_rate := 0;
  connection_rates := default_connection_rates;
  padding_ssrc := None;
  audio_forwarder_by_sender_demux_id := ∅;
  video_forwarder_by_sender_demux_id := ∅;
  data_forwarder_by_sender_demux_id := ∅;
  allocated_height_by_sender_demux_id := ∅;
  reliable_mrp_stream := mrp_new MAX_MRP_WINDOW_SIZE;
  next_server_to_client_data_rtp_seqnum :=
    NonParticipantClient.next_server_to_client_data_rtp_seqnum pending_client_info
|}.

(** [From<Client> for NonParticipantClient] *)
Definition into_non_participant (client : t) : NonParticipantClient.t :=
  NonParticipantClient.mk (demux_id client) (user_id client) (is_admin client)
    (region_relation client) (next_server_to_client_data_rtp_seqnum client).

Definition min_target_send_rate (self : t) : Z :=
  Z.min (current_generation_min_target_send_rate self) (old_generation_min_target_send_rate self).

(** The header of an incoming video packet. *)
Definition read_video_header (incoming_rtp : Packet.t) : Res Error VideoHeader.t :=
  match Packet.dependency_descriptor incoming_rtp with
  | Some (descriptor, _) => Ok (VideoHeader.DependencyDescriptor descriptor)
  | None =>
      payload ← Packet.payload incoming_rtp;
      h ← map_err (fun _ => InvalidVp8Header) (Vp8.read payload);
      Ok (VideoHeader.VP8 h)
  end.

(** What a packet of a layer changes of that layer: the rate and the
    resolution. *)
Definition note_incoming (size now : Z) (header : VideoHeader.t) (v : IncomingVideoState.t)
    : IncomingVideoState.t :=
  let v := v <| IncomingVideoState.rate_tracker ::=
                  fun r => DataRateTracker.push_bytes r size now |> in
  match VideoHeader.resolution header with
  | Some resolution => v <| IncomingVideoState.original_resolution := Some resolution |>
  | None => v
  end.

(** The layer, with the update of its field; [None] for other SSRCs. *)
Definition video_layer (layer_id : option LayerId.t) (self : t)
    : option (IncomingVideoState.t * (IncomingVideoState.t -> t)) :=
  match layer_id with
  | Some LayerId.Video0 => Some (incoming_video0 self, fun v => self <| incoming_video0 := v |>)
  | Some LayerId.Video1 => Some (incoming_video1 self, fun v => self <| incoming_video1 := v |>)
  | Some LayerId.Video2 => Some (incoming_video2 self, fun v => self <| incoming_video2 := v |>)
  | _ => None
  end.

(** Higher resolutions are cleared when the resolution or rotation changes. *)
Definition apply_new_resolution (layer_id : option LayerId.t) (self : t) : t :=
  let rotate v := IncomingVideoState.apply_rotation v (video_rotation self) in
  let self :=
    self <| incoming_video0 ::= rotate |> <| incoming_video1 ::= rotate |>
         <| incoming_video2 ::= rotate |> in
  match layer_id with
  | Some LayerId.Video0 =>
      self <| incoming_video1 ::= IncomingVideoState.clear_resolution |>
           <| incoming_video2 ::= IncomingVideoState.clear_resolution |>
  | Some LayerId.Video1 => self <| incoming_video2 ::= IncomingVideoState.clear_resolution |>
  | _ => self
  end.

Definition parse_vp8_header_and_update_incoming_video_rate_and_resolution
    (self : t) (incoming_rtp : Packet.t) (now : Z) : Res Error (t * option VideoHeader.t) :=
  incoming_vp8 ← read_video_header incoming_rtp;
  let incoming_layer_id := LayerId.from_ssrc (Packet.ssrc incoming_rtp) in
  let size := Packet.size incoming_rtp in
  '(incoming_video, put) ← ok_or InvalidRtpLayerId (video_layer incoming_layer_id self);
  let old_resolution := IncomingVideoState.original_resolution incoming_video in
  let incoming_video := note_incoming size now incoming_vp8 incoming_video in
  let self := put incoming_video in
  let new_resolution := IncomingVideoState.original_resolution incoming_video in
  let old_rotation := video_rotation self in
  let self :=
    match Packet.video_rotation incoming_rtp with
    | Some rotation => self <| video_rotation := rotation |>
    | None => self
    end in
  let self :=
    if negb (bool_decide (old_resolution = new_resolution))
       || negb (bool_decide (old_rotation = video_rotation self))
    then apply_new_resolution incoming_layer_id self else self in
  Ok (self, Some incoming_vp8).

(** [entry(sender).or_default()] of an audio or data forwarder, then
    [forward_rtp], and the rewritten packet *)
Definition forward_single (forwarders : gmap DemuxId.t SingleSsrcRtpForwarder.t)
    (incoming_rtp : Packet.t)
    : Res Error (gmap DemuxId.t SingleSsrcRtpForwarder.t * option Packet.t) :=
  sender_demux_id ← DemuxId.from_ssrc (Packet.ssrc incoming_rtp);
  let forwarder := default SingleSsrcRtpForwarder.default (forwarders !! sender_demux_id) in
  let '(forwarder, outgoing_seqnum) :=
    SingleSsrcRtpForwarder.forward_rtp forwarder (Packet.seqnum incoming_rtp) in
  let forwarders := <[sender_demux_id := forwarder]> forwarders in
  match outgoing_seqnum with
  | None => Ok (forwarders, None)
  | Some outgoing_seqnum =>
      outgoing_rtp ← Packet.rewrite incoming_rtp (Packet.ssrc incoming_rtp) outgoing_seqnum
                       (Packet.timestamp incoming_rtp);
      Ok (forwarders, Some outgoing_rtp)
  end.

Definition forward_audio_rtp (self : t) (incoming_rtp : Packet.t)
    : Res Error (t * option Packet.t) :=
  '(forwarders, out) ← forward_single (audio_forwarder_by_sender_demux_id self) incoming_rtp;
  Ok (self <| audio_forwarder_by_sender_demux_id := forwarders |>, out).

Definition forward_data_rtp (self : t) (incoming_rtp : Packet.t)
    : Res Error (t * option Packet.t) :=
  '(forwarders, out) ← forward_single (data_forwarder_by_sender_demux_id self) incoming_rtp;
  Ok (self <| data_forwarder_by_sender_demux_id := forwarders |>, out).

(** [vp8::modify_header(outgoing_rtp.payload_mut(), ..)] *)
Definition modify_vp8_payload (outgoing_rtp : Packet.t) (picture_id tl0_pic_idx : Z)
    : Res Error Packet.t :=
  _ ← assert_ (negb (Packet.encrypted outgoing_rtp));
  let '(a, e) := Packet.payload_range outgoing_rtp in
  payload ← Packet.payload outgoing_rtp;
  payload ← Vp8.modify_header payload (u16 picture_id) (u8 tl0_pic_idx);
  Ok (outgoing_rtp <| Packet.serialized ::= fun s => take a s ++ payload ++ drop e s |>).

(** The IDs of the outgoing packet. *)
Definition rewrite_video (incoming_rtp : Packet.t) (outgoing_ssrc : Z)
    (outgoing : Vp8SimulcastRtpForwarder.Ids) : Res Error Packet.t :=
  outgoing_rtp ←
    Packet.rewrite incoming_rtp outgoing_ssrc (Vp8SimulcastRtpForwarder.seqnum outgoing)
      (u32 (Vp8SimulcastRtpForwarder.timestamp outgoing));
  outgoing_rtp ←
    match Vp8SimulcastRtpForwarder.frame_number outgoing with
    | None => Ok outgoing_rtp
    | Some frame_number =>
        let outgoing_rtp :=
          outgoing_rtp <| Packet.dependency_descriptor ::= fmap (fun d : DependencyDescriptor.t * range =>
            (DependencyDescriptor.mk (DependencyDescriptor.is_key_frame d.1)
               (DependencyDescriptor.resolution d.1) (Some (u16 frame_number)), d.2)) |> in
        Packet.set_frame_number_in_header outgoing_rtp frame_number
    end;
  match Vp8SimulcastRtpForwarder.picture_id outgoing,
        Vp8SimulcastRtpForwarder.tl0_pic_idx outgoing with
  | Some picture_id, Some tl0_pic_idx => modify_vp8_payload outgoing_rtp picture_id tl0_pic_idx
  | _, _ => Ok outgoing_rtp
  end.

Definition forward_video_rtp (self : t) (incoming_rtp : Packet.t)
    (incoming_vp8 : option VideoHeader.t) : Res Error (t * option Packet.t) :=
  match incoming_vp8 with
  | None => Ok (self, None)
  | Some incoming_vp8 =>
      sender_demux_id ← DemuxId.from_ssrc (Packet.ssrc incoming_rtp);
      match video_forwarder_by_sender_demux_id self !! sender_demux_id with
      | None => Ok (self, None)
      | Some forwarder =>
          let '(forwarder, out) :=
            Vp8SimulcastRtpForwarder.forward_vp8_rtp forwarder (Packet.ssrc incoming_rtp)
              (Packet.seqnum incoming_rtp) (Packet.timestamp incoming_rtp) incoming_vp8 in
          let self :=
            self <| video_forwarder_by_sender_demux_id ::= insert sender_demux_id forwarder |> in
          match out with
          | None => Ok (self, None)
          | Some (outgoing_ssrc, outgoing) =>
              outgoing_rtp ← rewrite_video incoming_rtp outgoing_ssrc outgoing;
              Ok (self, Some outgoing_rtp)
          end
      end
  end.

End Client.
End Client.
