(* ===== verification/Connection.v ===== *)
(** * Connection: the transport of one client

    [src/backend/src/connection.rs]: ICE, SRTP, acknowledgements, retransmissions,
    congestion control and pacing of the connection to a client, and the
    [SocketLocator] of [src/backend/src/packet_server.rs].  A method that takes
    [&mut self] returns the new state; one that returns [Result] returns the
    state together with the result, because what it did before failing stays
    done.  The outer outcome is only ever [Ok] or [Panic].  Packets to send and
    dequeues to schedule are appended to the lists they are given. *)
From S2P Require Import Prelude Float Srtp RtpHeader Packet Nack TransportCc RtpEndpoint Pacer Ice Googcc Layers Client.

(** ** [std::net] *)
Inductive SocketAddr :=
| SocketAddrV4 (ip port : Z)
| SocketAddrV6 (ip port flowinfo scope_id : Z).

(** [addr.ip().to_canonical().is_ipv6()]: an IPv4-mapped address (::ffff:0:0/96)
    counts as IPv4. *)
Definition is_canonical_ipv6 (addr : SocketAddr) : bool :=
  match addr with
  | SocketAddrV4 _ _ => false
  | SocketAddrV6 ip _ _ _ => negb (Z.shiftr ip 32 =? 65535)
  end.

(** ** packet_server.rs *)
Inductive SocketLocator :=
| Udp (addr : SocketAddr)
| Tcp (id : Z) (is_ipv6 is_tls : bool).

#[global] Instance SocketAddr_eq_dec : EqDecision SocketAddr.
Proof. solve_decision. Defined.
#[global] Instance SocketLocator_eq_dec : EqDecision SocketLocator.
Proof. solve_decision. Defined.
#[global] Instance SocketLocator_countable : Countable SocketLocator.
Proof.
  apply (inj_countable'
    (fun l => match l with
              | Udp (SocketAddrV4 ip port) => inl (ip, port)
              | Udp (SocketAddrV6 ip port f s) => inr (inl (ip, port, f, s))
              | Tcp id v6 tls => inr (inr (id, v6, tls))
              end)
    (fun x => match x with
              | inl (ip, port) => Udp (SocketAddrV4 ip port)
              | inr (inl (ip, port, f, s)) => Udp (SocketAddrV6 ip port f s)
              | inr (inr (id, v6, tls)) => Tcp id v6 tls
              end)).
  by intros [[]|].
Defined.

(** ** connection.rs *)
Module Connection.

Definition RTCP_SENDER_SSRC : Z := 0.
Definition NACK_CALCULATION_INTERVAL : Z := Duration.from_millis 20.
Definition ACK_CALCULATION_INTERVAL : Z := Duration.from_millis 100.
Definition RTCP_REPORT_INTERVAL : Z := Duration.from_secs 5.

Inductive Error :=
| ReceivedIceWithInvalidHmac (hmac : bytes)
| ReceivedIceWithInvalidUsername (username : bytes)
| ReceivedInvalidRtp
| ReceivedInvalidRtcp.

Inductive AddressType := UdpV4 | UdpV6 | TcpV4 | TcpV6 | TlsV4 | TlsV6.

Record Ice := mk_ice {
  request_username : bytes;
  response_username : bytes;
  pwd : bytes;
  binding_request_received : option Z
}.

Record Rtp := mk_rtp {
  ack_ssrc : Z;
  endpoint : Endpoint.t;
  acks_sent : option Z;
  nacks_sent : option Z;
  rtcp_report_sent : option Z
}.

Record CongestionControl := mk_congestion {
  controller : CongestionController.t;
  pacer : Pacer.t
}.

Record t := mk {
  created : Z;
  region_relation : Region.Relation;
  inactivity_timeout : Z;
  ice : Ice;
  rtp : Rtp;
  congestion_control : CongestionControl;
  outgoing_addr : option SocketLocator;
  outgoing_addr_type : option AddressType;
  video_rate : DataRateTracker.t;
  audio_rate : DataRateTracker.t;
  rtx_rate : DataRateTracker.t;
  padding_rate : DataRateTracker.t;
  non_media_rate : DataRateTracker.t;
  incoming_audio_rate : DataRateTracker.t;
  incoming_rtx_rate : DataRateTracker.t;
  incoming_padding_rate : DataRateTracker.t;
  incoming_non_media_rate : DataRateTracker.t;
  incoming_discard_rate : DataRateTracker.t
}.

#[global] Instance ice_eta : Settable Ice := fun s =>
  mk_ice (request_username s) (response_username s) (pwd s) (binding_request_received s).
#[global] Instance rtp_eta : Settable Rtp := fun s =>
  mk_rtp (ack_ssrc s) (endpoint s) (acks_sent s) (nacks_sent s) (rtcp_report_sent s).
#[global] Instance congestion_eta : Settable CongestionControl := fun s =>
  mk_congestion (controller s) (pacer s).
#[global] Instance t_eta : Settable t := fun s =>
  mk (created s) (region_relation s) (inactivity_timeout s) (ice s) (rtp s) (congestion_control s)
     (outgoing_addr s) (outgoing_addr_type s) (video_rate s) (audio_rate s) (rtx_rate s) (padding_rate s)
     (non_media_rate s) (incoming_audio_rate s) (incoming_rtx_rate s) (incoming_padding_rate s)
     (incoming_non_media_rate s) (incoming_discard_rate s).

(** [&mut self.rtp.endpoint], [&mut self.congestion_control.pacer] *)
Definition with_endpoint (self : t) (e : Endpoint.t) : t :=
  self <| rtp ::= fun r => r <| endpoint := e |> |>.
Definition with_pacer (self : t) (p : Pacer.t) : t :=
  self <| congestion_control ::= fun c => c <| pacer := p |> |>.

Definition push_incoming_non_media_bytes (self : t) (size : nat) (now : Z) : t :=
  self <| incoming_non_media_rate ::= fun r => DataRateTracker.push_bytes r (Z.of_nat size) now |>.
Definition push_outgoing_non_media_bytes (self : t) (size : nat) (now : Z) : t :=
  self <| non_media_rate ::= fun r => DataRateTracker.push_bytes r (Z.of_nat size) now |>.
Definition push_outgoing_video (self : t) (size now : Z) : t :=
  self <| video_rate ::= fun r => DataRateTracker.push r size now |>.

Definition ice_request_username (self : t) : bytes := request_username (ice self).

(** What a method appends to. *)
Definition Packets : Type := list (bytes * SocketLocator).
Definition Schedule : Type := list (Z * SocketLocator).

Definition inactive (self : t) (now : Z) : bool :=
  let last_activity := default (created self) (binding_request_received (ice self)) in
  last_activity + inactivity_timeout self <=? now.

(** The type of the address switched to. *)
Definition address_type (sender_addr : SocketLocator) : AddressType :=
  match sender_addr with
  | Udp addr => if is_canonical_ipv6 addr then UdpV6 else UdpV4
  | Tcp _ false false => TcpV4
  | Tcp _ false true => TlsV4
  | Tcp _ true false => TcpV6
  | Tcp _ true true => TlsV6
  end.

Section Connection.
Context `{BlockCipher} `{Aead} `{HashMapOrder} `{HmacSha1} `{Crc32} `{Powf}.

Definition new (ice_request_username ice_response_username ice_pwd srtp_master_key_material : bytes) (ack_ssrc : Z)
    (googcc_config : Config.t) (inactivity_timeout : Z) (region_relation : Region.Relation) (now : Z) : t :=
  let '(decrypt, encrypt) := Srtp.derive_client_and_server_from_master_key_material srtp_master_key_material in
  let rtp_endpoint := Endpoint.new decrypt encrypt now RTCP_SENDER_SSRC ack_ssrc in
  let rate := DataRateTracker.default in
  mk now region_relation inactivity_timeout
     (mk_ice ice_request_username ice_response_username ice_pwd None)
     (mk_rtp ack_ssrc rtp_endpoint None None None)
     (mk_congestion (CongestionController.new googcc_config now)
        (Pacer.new (Pacer.Config.mk (Config.initial_target_send_rate googcc_config)
                                    (Config.initial_target_send_rate googcc_config) None)))
     None None rate rate rate rate rate rate rate rate rate rate.

Definition handle_ice_binding_request (self : t) (sender_addr : SocketLocator) (binding_request : Ice.BindingRequest)
    (now : Z) : Res unit (t * Res Error bytes) :=
  let self := push_incoming_non_media_bytes self (Ice.len binding_request) now in
  verified ← ok_opt (Ice.verify_hmac binding_request (pwd (ice self)));
  match verified with
  | None =>
      hmac ← Ice.hmac binding_request;
      Ok (self, Err (ReceivedIceWithInvalidHmac hmac))
  | Some verified_binding_request =>
      username ← Ice.username verified_binding_request;
      if negb (bool_decide (username = request_username (ice self))) then
        Ok (self, Err (ReceivedIceWithInvalidUsername username))
      else
        let self :=
          if Ice.nominated verified_binding_request
             && negb (bool_decide (outgoing_addr self = Some sender_addr)) then
            self <| outgoing_addr := Some sender_addr |>
                 <| outgoing_addr_type := Some (address_type sender_addr) |>
          else self in
        let self := self <| ice ::= fun i => i <| binding_request_received := Some now |> |> in
        response ← Ice.to_binding_response verified_binding_request (response_username (ice self)) (pwd (ice self));
        Ok (push_outgoing_non_media_bytes self (length response) now, Ok response)
  end.

Definition handle_rtp_packet (self : t) (incoming_packet : bytes) (now : Z) :
    Res unit (t * Res Error (option Packet.t)) :=
  let size := Z.of_nat (length incoming_packet) in
  '(e, packet) ← Endpoint.receive_rtp (endpoint (rtp self)) incoming_packet now;
  let self := with_endpoint self e in
  match packet with
  | Some packet =>
      if Packet.is_rtx packet then
        Ok (self <| incoming_rtx_rate ::= fun r => DataRateTracker.push_bytes r size now |>, Ok (Some packet))
      else if Packet.is_audio packet then
        Ok (self <| incoming_audio_rate ::= fun r => DataRateTracker.push_bytes r size now |>, Ok (Some packet))
      else
        payload ← Packet.payload packet;
        if Z.of_nat (length payload) <=? Packet.padding_byte_count packet then
          let size := DataRate.size_as_bytes (Pacer.size packet) in
          Ok (self <| incoming_padding_rate ::= fun r => DataRateTracker.push_bytes r size now |>, Ok None)
        else if negb (Packet.is_video packet) then
          Ok (push_incoming_non_media_bytes self (length incoming_packet) now, Ok (Some packet))
        else Ok (self, Ok (Some packet))
  | None =>
      Ok (self <| incoming_discard_rate ::= fun r => DataRateTracker.push_bytes r size now |>,
          Err ReceivedInvalidRtp)
  end.

Record HandleRtcpResult := mk_rtcp_result {
  incoming_key_frame_requests : list Z;
  packets_to_send : Packets;
  dequeues_to_schedule : Schedule;
  new_target_send_rate : option Z
}.

(** The body of the loops over the NACKs: one number that was asked for. *)
Definition resend_nacked (self : t) (outgoing_addr : SocketLocator) (ssrc seqnum now : Z)
    (packets_to_send : Packets) (dequeues_to_schedule : Schedule) : Res unit (t * Packets * Schedule) :=
  '(e, rtx) ← Endpoint.resend_rtp (endpoint (rtp self)) ssrc seqnum now;
  let self := with_endpoint self e in
  match rtx with
  | Some rtx =>
      '(p, (outgoing_rtp, dequeue_time)) ← Pacer.enqueue (pacer (congestion_control self)) rtx now;
      let self := with_pacer self p in
      let '(self, packets_to_send) :=
        match outgoing_rtp with
        | Some outgoing_rtp =>
            let self := with_endpoint self (Endpoint.remember_sent (endpoint (rtp self)) outgoing_rtp now) in
            let size := Pacer.size outgoing_rtp in
            let self := self <| rtx_rate ::= fun r => DataRateTracker.push r size now |> in
            (with_endpoint self (Endpoint.mark_as_sent (endpoint (rtp self)) ssrc seqnum),
             packets_to_send ++ [(Packet.serialized outgoing_rtp, outgoing_addr)])
        | None => (self, packets_to_send)
        end in
      Ok (self, packets_to_send,
          match dequeue_time with
          | Some dequeue_time => [(dequeue_time, outgoing_addr)]
          | None => dequeues_to_schedule
          end)
  | None => Ok (self, packets_to_send, dequeues_to_schedule)
  end.

(** The loops, over the pairs of SSRC and number in the order of the NACKs. *)
Fixpoint resend_all (self : t) (outgoing_addr : SocketLocator) (l : list (Z * Z)) (now : Z)
    (packets_to_send : Packets) (dequeues_to_schedule : Schedule) : Res unit (t * Packets * Schedule) :=
  match l with
  | [] => Ok (self, packets_to_send, dequeues_to_schedule)
  | (ssrc, seqnum) :: l =>
      '(self, packets_to_send, dequeues_to_schedule) ←
        resend_nacked self outgoing_addr ssrc seqnum now packets_to_send dequeues_to_schedule;
      resend_all self outgoing_addr l now packets_to_send dequeues_to_schedule
  end.

Definition nacked (nacks : list Nack.t) : list (Z * Z) :=
  concat (map (fun n => map (pair (Nack.ssrc n)) (Nack.seqnums n)) nacks).

Definition handle_rtcp_packet (self : t) (incoming_packet : bytes) (now : Z) :
    Res unit (t * Res Error HandleRtcpResult) :=
  let self := push_incoming_non_media_bytes self (length incoming_packet) now in
  '(e, rtcp) ← Endpoint.receive_rtcp (endpoint (rtp self)) incoming_packet now;
  let self := with_endpoint self e in
  match rtcp with
  | None => Ok (self, Err ReceivedInvalidRtcp)
  | Some rtcp =>
      '(c, new_target_send_rate) ←
        CongestionController.recalculate_target_send_rate (controller (congestion_control self)) (Endpoint.acks rtcp);
      let self := self <| congestion_control ::= fun cc => cc <| controller := c |> |> in
      '(self, packets_to_send, dequeues_to_schedule) ←
        match outgoing_addr self with
        | Some outgoing_addr => resend_all self outgoing_addr (nacked (Endpoint.nacks rtcp)) now [] []
        | None => Ok (self, [], [])
        end;
      Ok (self, Ok (mk_rtcp_result (Endpoint.key_frame_requests rtcp) packets_to_send dequeues_to_schedule
                      new_target_send_rate))
  end.

(** Encrypts the packet; what is congestion controlled goes through the pacer. *)
Definition send_or_enqueue_rtp (self : t) (outgoing_rtp : Packet.t) (rtp_to_send : Packets)
    (outgoing_dequeue_schedule : Schedule) (now : Z) : Res unit (t * Packets * Schedule) :=
  match outgoing_addr self with
  | Some outgoing_addr =>
      '(e, sent) ← Endpoint.send_rtp (endpoint (rtp self)) outgoing_rtp now;
      let self := with_endpoint self e in
      match sent with
      | None => Ok (self, rtp_to_send, outgoing_dequeue_schedule)
      | Some outgoing_rtp =>
          match Packet.tcc_seqnum outgoing_rtp with
          | Some _ =>
              '(p, (outgoing_rtp, dequeue_time)) ← Pacer.enqueue (pacer (congestion_control self)) outgoing_rtp now;
              let self := with_pacer self p in
              let '(self, rtp_to_send) :=
                match outgoing_rtp with
                | Some outgoing_rtp =>
                    let self :=
                      with_endpoint self (Endpoint.remember_sent (endpoint (rtp self)) outgoing_rtp now) in
                    (push_outgoing_video self (Pacer.size outgoing_rtp) now,
                     rtp_to_send ++ [(Packet.serialized outgoing_rtp, outgoing_addr)])
                | None => (self, rtp_to_send)
                end in
              Ok (self, rtp_to_send,
                  match dequeue_time with
                  | Some dequeue_time => outgoing_dequeue_schedule ++ [(dequeue_time, outgoing_addr)]
                  | None => outgoing_dequeue_schedule
                  end)
          | None =>
              let self :=
                with_endpoint self (Endpoint.remember_sent_for_reports (endpoint (rtp self)) outgoing_rtp now) in
              let size := Pacer.size outgoing_rtp in
              let self :=
                if Packet.is_audio outgoing_rtp then
                  self <| audio_rate ::= fun r => DataRateTracker.push r size now |>
                else if Packet.is_video outgoing_rtp then push_outgoing_video self size now
                else push_outgoing_non_media_bytes self (Z.to_nat (DataRate.size_as_bytes size)) now in
              Ok (self, rtp_to_send ++ [(Packet.serialized outgoing_rtp, outgoing_addr)], outgoing_dequeue_schedule)
          end
      end
  | None =>
      if bool_decide (is_Some (Packet.tcc_seqnum outgoing_rtp)) && Packet.is_video outgoing_rtp then
        Ok (with_pacer self (Pacer.force_enqueue (pacer (congestion_control self)) outgoing_rtp),
            rtp_to_send, outgoing_dequeue_schedule)
      else Ok (self, rtp_to_send, outgoing_dequeue_schedule)
  end.

Definition dequeue_outgoing_rtp (self : t) (now : Z) :
    Res unit (t * option (SocketLocator * option bytes * option Z)) :=
  match outgoing_addr self with
  | None => Ok (self, None)
  | Some outgoing_addr =>
      let generate_padding padding_ssrc :=
        '(e, padding) ← Endpoint.send_padding (endpoint (rtp self)) padding_ssrc now; Ok (padding, e) in
      '(p, (outgoing_rtp, dequeue_time), e) ←
        Pacer.dequeue generate_padding (pacer (congestion_control self)) now;
      let self := with_endpoint (with_pacer self p) (default (endpoint (rtp self)) e) in
      match outgoing_rtp with
      | Some outgoing_rtp =>
          let self := with_endpoint self (Endpoint.remember_sent (endpoint (rtp self)) outgoing_rtp now) in
          let size := Pacer.size outgoing_rtp in
          let self :=
            if Packet.is_padding outgoing_rtp then
              self <| padding_rate ::= fun r => DataRateTracker.push r size now |>
            else if Packet.is_rtx outgoing_rtp then
              with_endpoint self
                (Endpoint.mark_as_sent (endpoint (rtp self)) (Packet.ssrc outgoing_rtp) (u16 (Packet.seqnum outgoing_rtp)))
                <| rtx_rate ::= fun r => DataRateTracker.push r size now |>
            else push_outgoing_video self size now in
          Ok (self, Some (outgoing_addr, Some (Packet.serialized outgoing_rtp), dequeue_time))
      | None =>
          match dequeue_time with
          | Some _ => Ok (self, Some (outgoing_addr, None, dequeue_time))
          | None => Ok (self, None)
          end
      end
  end.

Definition send_key_frame_request (self : t) (ssrc now : Z) : Res unit (t * option (bytes * SocketLocator)) :=
  match outgoing_addr self with
  | None => Ok (self, None)
  | Some outgoing_addr =>
      '(e, rtcp_packet) ← Endpoint.send_pli (endpoint (rtp self)) ssrc;
      let self := with_endpoint self e in
      match rtcp_packet with
      | None => Ok (self, None)
      | Some rtcp_packet =>
          Ok (push_outgoing_non_media_bytes self (length rtcp_packet) now, Some (rtcp_packet, outgoing_addr))
      end
  end.

(** [rtt]: the one of the RTCP reports, unless congestion control is far off. *)
Definition RTCP_RTT_LAG_THRESHOLD : Z := Duration.from_millis 250.

Definition rtt (self : t) (now : Z) : t * Z :=
  let cc_rtt := CongestionController.rtt (controller (congestion_control self)) in
  let '(e, stats) := Endpoint.get_or_update_stats (endpoint (rtp self)) now in
  let self := with_endpoint self e in
  match Endpoint.rtt_estimate stats with
  | Some rtcp_rtt =>
      if Duration.abs_diff cc_rtt rtcp_rtt <? RTCP_RTT_LAG_THRESHOLD then (self, rtcp_rtt) else (self, cc_rtt)
  | None => (self, cc_rtt)
  end.

(** Whether an interval has passed since the last time, if there was one. *)
Definition sent_recently (sent : option Z) (interval now : Z) : bool :=
  match sent with
  | Some sent => now <? sent + interval
  | None => false
  end.

(** The bytes of the packets, and the packets with their address. *)
Definition total_len (l : list bytes) : nat := fold_left (fun n p => n + length p)%nat l 0%nat.
Definition addressed (addr : SocketLocator) (l : list bytes) : Packets := map (fun p => (p, addr)) l.

Definition send_acks_if_its_been_too_long (self : t) (packets_to_send : Packets) (now : Z) : Res unit (t * Packets) :=
  if sent_recently (acks_sent (rtp self)) ACK_CALCULATION_INTERVAL now then Ok (self, packets_to_send)
  else
    match outgoing_addr self with
    | Some outgoing_addr =>
        '(e, acks) ← Endpoint.send_acks (endpoint (rtp self));
        let self := push_outgoing_non_media_bytes (with_endpoint self e) (total_len acks) now in
        Ok (self <| rtp ::= fun r => r <| acks_sent := Some now |> |>, packets_to_send ++ addressed outgoing_addr acks)
    | None => Ok (self, packets_to_send)
    end.

Definition RTT_GRACE_MULTIPLIER : F64.t := F64.lit 11 10.

Definition send_nacks_if_its_been_too_long (self : t) (packets_to_send : Packets) (now : Z) : Res unit (t * Packets) :=
  if sent_recently (nacks_sent (rtp self)) NACK_CALCULATION_INTERVAL now then Ok (self, packets_to_send)
  else
    match outgoing_addr self with
    | Some outgoing_addr =>
        let '(self, rtt) := rtt self now in
        rtt ← Duration.mul_f64 rtt RTT_GRACE_MULTIPLIER;
        '(e, nacks) ← Endpoint.send_nacks (endpoint (rtp self)) now rtt;
        let self := push_outgoing_non_media_bytes (with_endpoint self e) (total_len nacks) now in
        Ok (self <| rtp ::= fun r => r <| nacks_sent := Some now |> |>, packets_to_send ++ addressed outgoing_addr nacks)
    | None => Ok (self, packets_to_send)
    end.

Definition send_rtcp_report_if_its_been_too_long (self : t) (packets_to_send : Packets) (now : Z) :
    Res unit (t * Packets) :=
  if sent_recently (rtcp_report_sent (rtp self)) RTCP_REPORT_INTERVAL now then Ok (self, packets_to_send)
  else
    match outgoing_addr self with
    | Some outgoing_addr =>
        '(e, report) ← Endpoint.send_rtcp_report (endpoint (rtp self)) now;
        let self := with_endpoint self e in
        let '(self, packets_to_send) :=
          match report with
          | Some rtcp_report_packet =>
              (push_outgoing_non_media_bytes self (length rtcp_report_packet) now,
               packets_to_send ++ [(rtcp_report_packet, outgoing_addr)])
          | None => (self, packets_to_send)
          end in
        Ok (self <| rtp ::= fun r => r <| rtcp_report_sent := Some now |> |>, packets_to_send)
    | None => Ok (self, packets_to_send)
    end.

Definition tick (self : t) (packets_to_send : Packets) (now : Z) : Res unit (t * Packets) :=
  '(self, packets_to_send) ← send_acks_if_its_been_too_long self packets_to_send now;
  '(self, packets_to_send) ← send_nacks_if_its_been_too_long self packets_to_send now;
  send_rtcp_report_if_its_been_too_long self packets_to_send now.

Definition outgoing_queue_size (self : t) : Z := Pacer.queued_size (pacer (congestion_control self)).
Definition outgoing_queue_delay (self : t) (now : Z) : Res unit (option Z) :=
  Pacer.queue_delay (pacer (congestion_control self)) now.
Definition rtp_endpoint_stats (self : t) (now : Z) : t * Endpoint.EndpointStats :=
  let '(e, stats) := Endpoint.update_stats (endpoint (rtp self)) now in (with_endpoint self e, stats).

Definition configure_congestion_control (self : t) (outgoing_dequeue_schedule : Schedule) (googcc_request : Request.t)
    (pacer_config : Pacer.Config.t) (now : Z) : Res unit (t * Schedule) :=
  let self :=
    self <| congestion_control ::= fun c => c <| controller ::= fun c => CongestionController.request c googcc_request |> |> in
  '(p, dequeue_time) ← Pacer.set_config (pacer (congestion_control self)) pacer_config now;
  Ok (with_pacer self p,
      match dequeue_time, outgoing_addr self with
      | Some dequeue_time, Some outgoing_addr => outgoing_dequeue_schedule ++ [(dequeue_time, outgoing_addr)]
      | _, _ => outgoing_dequeue_schedule
      end).

Definition current_rates (self : t) (now : Z) : t * ConnectionRates :=
  let update r := DataRateTracker.update r now in
  let self :=
    self <| video_rate ::= update |> <| audio_rate ::= update |> <| rtx_rate ::= update |>
         <| padding_rate ::= update |> <| non_media_rate ::= update |>
         <| incoming_audio_rate ::= update |> <| incoming_rtx_rate ::= update |>
         <| incoming_padding_rate ::= update |> <| incoming_non_media_rate ::= update |>
         <| incoming_discard_rate ::= update |> in
  let rate r := default 0 (DataRateTracker.rate r) in
  (self, connection_rates_mk (rate (video_rate self)) (rate (audio_rate self)) (rate (rtx_rate self))
           (rate (padding_rate self)) (rate (non_media_rate self)) (rate (incoming_audio_rate self))
           (rate (incoming_rtx_rate self)) (rate (incoming_padding_rate self)) (rate (incoming_non_media_rate self))
           (rate (incoming_discard_rate self))).

End Connection.

(** [ConnectionRates::outgoing_rate_bps] *)
Definition outgoing_rate_bps (r : ConnectionRates) : Z :=
  u64 (u64 (Client.audio_rate r + Client.video_rate r) + Client.non_media_rate r).

End Connection.

(** * Theorems *)

Module ConnectionFacts.
Import Connection.

Section Connection.
Context `{BlockCipher} `{Aead} `{HashMapOrder} `{HmacSha1} `{Crc32} `{Powf}.

(** ** What only a binding request changes *)

Record same_ice (self self' : t) : Prop := {
  si_ice : ice self' = ice self;
  si_addr : outgoing_addr self' = outgoing_addr self;
  si_created : created self' = created self;
  si_timeout : inactivity_timeout self' = inactivity_timeout self
}.

#[global] Instance same_ice_preorder : PreOrder same_ice.
Proof. split; [by split|]. intros a b c [] []. split; congruence. Qed.

(** Packets that go to the outgoing address. *)
Definition goes_to (self : t) (l : Packets) : Prop := Forall (fun p => outgoing_addr self = Some p.2) l.

Lemma goes_to_app self l l' : goes_to self (l ++ l') <-> goes_to self l /\ goes_to self l'.
Proof. apply Forall_app. Qed.

Lemma goes_to_same self self' l : same_ice self self' -> goes_to self' l <-> goes_to self l.
Proof. intros [_ E _ _]. unfold goes_to. by rewrite E. Qed.

Lemma goes_to_addressed self addr l : outgoing_addr self = Some addr -> goes_to self (addressed addr l).
Proof. intros E. unfold goes_to, addressed. apply Forall_map, Forall_forall. by intros. Qed.

Lemma goes_to_one self addr p : outgoing_addr self = Some addr -> goes_to self [(p, addr)].
Proof. intros E. by repeat constructor. Qed.

(** An operation on a connection that appends to the packets to send. *)
Definition appends (self self' : t) (l l' : Packets) : Prop :=
  same_ice self self' /\ exists added, l' = l ++ added /\ goes_to self added.

Lemma appends_none self self' l : same_ice self self' -> appends self self' l l.
Proof. intros Hs. split; [done|]. exists []. rewrite app_nil_r. split; [done|constructor]. Qed.

Lemma appends_trans a b c l l' l'' : appends a b l l' -> appends b c l' l'' -> appends a c l l''.
Proof.
  intros [Hs (x & -> & Hx)] [Hs' (y & -> & Hy)]. split; [by etransitivity|].
  exists (x ++ y). split; [by rewrite app_assoc|]. apply goes_to_app. split; [done|]. by apply (goes_to_same a b).
Qed.

Lemma appends_addressed self self' addr l added : same_ice self self' -> outgoing_addr self = Some addr ->
  appends self self' l (l ++ addressed addr added).
Proof. intros Hs E. split; [done|]. eexists. split; [done|]. by apply goes_to_addressed. Qed.

Lemma appends_one self self' addr l p : same_ice self self' -> outgoing_addr self = Some addr ->
  appends self self' l (l ++ [(p, addr)]).
Proof. intros Hs E. split; [done|]. eexists. split; [done|]. by apply goes_to_one. Qed.

#[local] Hint Extern 1 (same_ice _ _) => (by split) : core.

Lemma handle_rtp_same self b now self' r : handle_rtp_packet self b now = Ok (self', r) -> same_ice self self'.
Proof.
  unfold handle_rtp_packet. intros E. apply bind_Ok in E as ([e o] & _ & E).
  destruct o as [p|]; [|by injection E as <- _].
  case_if_in E; [by injection E as <- _|]. case_if_in E; [by injection E as <- _|].
  apply bind_Ok in E as (payload & _ & E). case_if_in E; [by injection E as <- _|].
  case_if_in E; by injection E as <- _.
Qed.

Lemma resend_nacked_appends self addr ssrc seqnum now l d self' l' d' : outgoing_addr self = Some addr ->
  resend_nacked self addr ssrc seqnum now l d = Ok (self', l', d') -> appends self self' l l'.
Proof.
  intros Ha E. unfold resend_nacked in E. apply bind_Ok in E as ([e o] & _ & E).
  destruct o as [rtx|]; [|injection E as <- <- _; by apply appends_none].
  apply bind_Ok in E as ([p [out dequeue]] & _ & E). destruct out as [out|]; injection E as <- <- _.
  - by apply appends_one.
  - by apply appends_none.
Qed.

Lemma resend_all_appends addr now nacks : forall self l d self' l' d', outgoing_addr self = Some addr ->
  resend_all self addr nacks now l d = Ok (self', l', d') -> appends self self' l l'.
Proof.
  induction nacks as [|[ssrc seqnum] nacks IH]; intros self l d self' l' d' Ha E; cbn [resend_all] in E.
  - injection E as <- <- _. by apply appends_none.
  - apply bind_Ok in E as ([[s1 l1] d1] & E1 & E). apply resend_nacked_appends in E1; [|done].
    eapply appends_trans; [exact E1|]. eapply IH; [|exact E]. destruct E1 as [[_ -> _ _] _]. exact Ha.
Qed.

Lemma handle_rtcp_appends self b now self' r : handle_rtcp_packet self b now = Ok (self', r) ->
  same_ice self self' /\ match r with Ok r => goes_to self (packets_to_send r) | _ => True end.
Proof.
  unfold handle_rtcp_packet. intros E. apply bind_Ok in E as ([e o] & _ & E).
  destruct o as [rtcp|]; [|by injection E as <- <-].
  apply bind_Ok in E as ([c rate] & _ & E). apply bind_Ok in E as ([[s l] d] & E1 & E). injection E as <- <-.
  match type of E1 with context [outgoing_addr ?s] => set (s1 := s) in E1 end.
  assert (same_ice self s1) as Hs by done. clearbody s1.
  destruct (outgoing_addr s1) as [addr|] eqn:Ea; [|injection E1 as <- <- _; split; [done|constructor]].
  apply resend_all_appends in E1 as [Hs' (added & El & Hg)]; [|done]. cbn in El. subst l. split; [by etransitivity|].
  by apply (goes_to_same _ s1).
Qed.

Lemma send_or_enqueue_appends self p l d now self' l' d' :
  send_or_enqueue_rtp self p l d now = Ok (self', l', d') -> appends self self' l l'.
Proof.
  unfold send_or_enqueue_rtp. intros E. destruct (outgoing_addr self) as [addr|] eqn:Ea.
  - apply bind_Ok in E as ([e o] & _ & E). destruct o as [out|]; [|injection E as <- <- _; by apply appends_none].
    destruct (Packet.tcc_seqnum out).
    + apply bind_Ok in E as ([q [out' dequeue]] & _ & E). destruct out' as [out'|]; injection E as <- <- _.
      * by apply appends_one.
      * by apply appends_none.
    + injection E as <- <- _. apply appends_one; [|done]. repeat case_if; done.
  - case_if_in E; injection E as <- <- _; by apply appends_none.
Qed.

Lemma dequeue_same self now self' o : dequeue_outgoing_rtp self now = Ok (self', o) ->
  same_ice self self' /\ match o with Some (addr, _, _) => outgoing_addr self = Some addr | None => True end.
Proof.
  unfold dequeue_outgoing_rtp. intros E. destruct (outgoing_addr self) as [addr|] eqn:Ea; [|by injection E as <- <-].
  apply bind_Ok in E as ([[p [out dequeue]] w] & _ & E).
  destruct out as [out|]; [|destruct dequeue; injection E as <- <-; split; done].
  injection E as <- <-. split; [|done]. repeat case_if; done.
Qed.

Lemma key_frame_same self ssrc now self' o : send_key_frame_request self ssrc now = Ok (self', o) ->
  same_ice self self' /\ match o with Some (_, addr) => outgoing_addr self = Some addr | None => True end.
Proof.
  unfold send_key_frame_request. intros E. destruct (outgoing_addr self) as [addr|] eqn:Ea; [|by injection E as <- <-].
  apply bind_Ok in E as ([e o'] & _ & E). by destruct o'; injection E as <- <-.
Qed.

Lemma configure_same self d request config now self' d' :
  configure_congestion_control self d request config now = Ok (self', d') -> same_ice self self'.
Proof. unfold configure_congestion_control. intros E. apply bind_Ok in E as ([p o] & _ & E). by injection E as <- _. Qed.

Lemma rtt_same self now : same_ice self (rtt self now).1.
Proof.
  unfold rtt. destruct (Endpoint.get_or_update_stats _ _) as [e stats].
  destruct (Endpoint.rtt_estimate stats); [case_if|]; done.
Qed.

Lemma tick_appends self l now self' l' : tick self l now = Ok (self', l') -> appends self self' l l'.
Proof.
  unfold tick. intros E. apply bind_Ok in E as ([s1 l1] & E1 & E). apply bind_Ok in E as ([s2 l2] & E2 & E3).
  apply (appends_trans _ s1 _ _ l1).
  { unfold send_acks_if_its_been_too_long in E1. case_if_in E1; [injection E1 as <- <-; by apply appends_none|].
    destruct (outgoing_addr self) as [addr|] eqn:Ea; [|injection E1 as <- <-; by apply appends_none].
    apply bind_Ok in E1 as ([e acks] & _ & E1). injection E1 as <- <-. by apply appends_addressed. }
  apply (appends_trans _ s2 _ _ l2).
  { unfold send_nacks_if_its_been_too_long in E2. case_if_in E2; [injection E2 as <- <-; by apply appends_none|].
    destruct (outgoing_addr s1) as [addr|] eqn:Ea; [|injection E2 as <- <-; by apply appends_none].
    pose proof (rtt_same s1 now) as Hs. destruct (rtt s1 now) as [s r]. cbn [fst] in Hs.
    apply bind_Ok in E2 as (r' & _ & E2). apply bind_Ok in E2 as ([e nacks] & _ & E2). injection E2 as <- <-.
    apply appends_addressed; [|done]. etransitivity; [exact Hs|done]. }
  unfold send_rtcp_report_if_its_been_too_long in E3. case_if_in E3; [injection E3 as <- <-; by apply appends_none|].
  destruct (outgoing_addr s2) as [addr|] eqn:Ea; [|injection E3 as <- <-; by apply appends_none].
  apply bind_Ok in E3 as ([e o] & _ & E3). destruct o; injection E3 as <- <-; [by apply appends_one|by apply appends_none].
Qed.


(** ** Binding requests *)

(** What a connection with this name and password makes of a datagram: [None] if
    it is not a valid request, else whether it nominates its address. *)
Definition accepts (username pwd packet : bytes) : option bool :=
  match Ice.parse packet with
  | Ok req =>
      match Ice.verify_hmac req pwd, Ice.username (E := unit) req with
      | Ok _, Ok name => if bool_decide (name = username) then Some (Ice.nominated req) else None
      | _, _ => None
      end
  | _ => None
  end.

(** The response to a request. *)
Definition answers (name pwd : bytes) (request response : bytes) : Prop :=
  exists req, Ice.parse response = Ok req /\ Ice.username (E := unit) req = Ok name /\
    Ice.verify_hmac req pwd = Ok req /\ take 2 response = Ice.BINDING_RESPONSE_ID /\
    take 16 (drop 4 response) = take 16 (drop 4 request).

Lemma username_length req name p : Ice.parse p = Ok req -> Ice.username (E := unit) req = Ok name ->
  length name = ((Ice.username_range (Ice.ranges req)).2 - (Ice.username_range (Ice.ranges req)).1)%nat.
Proof.
  intros [s Hs]%IceFacts.parse_parsed. pose proof (IceFacts.parsed_ranges _ _ _ Hs) as Hr. unfold Ice.username.
  rewrite (IceFacts.pa_packet _ _ _ Hs). destruct Hr. destruct (Ice.username_range (Ice.ranges req)) as [a b].
  unfold Ice.HMAC_LEN, Ice.FINGERPRINT_LEN in *. cbn [fst snd] in *. rewrite slice_no_panic by lia. intros [= <-].
  rewrite length_take, length_drop. lia.
Qed.

End Connection.

Section Requests.
Context `{BlockCipher} `{Aead} `{HashMapOrder} `{HmacSha1Laws} `{Crc32} `{Powf}.

Lemma handle_request_ok self addr p req now : Ice.parse p = Ok req ->
  length (response_username (ice self)) = length (request_username (ice self)) ->
  exists self' r, handle_ice_binding_request self addr req now = Ok (self', r) /\
    created self' = created self /\ inactivity_timeout self' = inactivity_timeout self /\
    match accepts (request_username (ice self)) (pwd (ice self)) p with
    | Some nominated =>
        ice self' = ice self <| binding_request_received := Some now |> /\
        outgoing_addr self' = (if nominated then Some addr else outgoing_addr self) /\
        exists q, r = Ok q /\ answers (response_username (ice self)) (pwd (ice self)) p q
    | None => (exists e, r = Err e) /\ ice self' = ice self /\ outgoing_addr self' = outgoing_addr self
    end.
Proof.
  intros Hp Hlen. pose proof (IceFacts.parse_safe p) as [_ Hsafe].
  destruct (Hsafe req Hp) as (_ & Epacket & [name Ename] & (mac & Emac & _) & _ & Hv). clear Hsafe. specialize (Hv (pwd (ice self))).
  unfold handle_ice_binding_request, accepts. rewrite Hp. cbn zeta. set (s1 := push_incoming_non_media_bytes self _ _).
  assert (same_ice self s1) as Hs by done. change (ice s1) with (ice self).
  unfold ok_opt. destruct (Ice.verify_hmac req (pwd (ice self))) as [req'|[]|] eqn:Ev; [| |done].
  2: { rewrite mbind_Ok, Emac, mbind_Ok. eexists _, _. split; [done|]. split_and!; try done. by eexists. }
  assert (req' = req) as ->.
  { revert Ev. unfold Ice.verify_hmac. destruct (Ice.calculate_hmac _ _ _); [|done..]. rewrite mbind_Ok.
    destruct (Ice.hmac req); [|done..]. rewrite mbind_Ok. case_if; congruence. }
  rewrite mbind_Ok, Ename, mbind_Ok. case_bool_decide as En; cbn [negb].
  2: { eexists _, _. split; [done|]. split_and!; try done. by eexists. }
  subst name. pose proof (username_length _ _ _ Hp Ename) as Hl.
  destruct (proj1 (IceFacts.response_verifies p req (response_username (ice self)) (pwd (ice self)) Hp) ltac:(lia))
    as (q & req' & Eq & Hq & Hn & _ & Hmac & Hid & Htid & _).
  set (s2 := if _ && _ then _ else s1).
  assert (ice s2 = ice self /\ created s2 = created self /\ inactivity_timeout s2 = inactivity_timeout self /\
    outgoing_addr s2 = if Ice.nominated req then Some addr else outgoing_addr self) as (E1 & E2 & E3 & E4).
  { unfold s2. destruct (Ice.nominated req); cbn [andb]; [|by split_and!].
    case_bool_decide as Ea; cbn [negb]; split_and!; try done. }
  clearbody s2. cbn. rewrite E1, Eq, mbind_Ok. eexists _, _. split; [done|]. cbn. rewrite E1. split_and!; [done..|].
  eexists. split; [done|]. by exists req'.
Qed.

(** ** Runs of a connection *)

Inductive Event :=
| IceArrived (sender : SocketLocator) (packet : bytes) (now : Z)
| RtpArrived (packet : bytes) (now : Z)
| RtcpArrived (packet : bytes) (now : Z)
| RtpToSend (packet : Packet.t) (now : Z)
| DequeueDue (now : Z)
| KeyFrameWanted (ssrc now : Z)
| Ticked (now : Z)
| Configured (request : Request.t) (config : Pacer.Config.t) (now : Z)
| RatesWanted (now : Z)
| RttWanted (now : Z).

(** The connection after an event and what is sent: the response to a binding
    request is handed back to the server, which sends it to the requester. *)
Definition perform (self : t) (e : Event) : Res unit (t * Packets) :=
  match e with
  | IceArrived sender packet now =>
      match Ice.parse packet with
      | Ok req =>
          '(self, r) ← handle_ice_binding_request self sender req now;
          Ok (self, match r with Ok response => [(response, sender)] | _ => [] end)
      | Err _ => Ok (self, [])
      | Panic => Panic
      end
  | RtpArrived packet now => '(self, _) ← handle_rtp_packet self packet now; Ok (self, [])
  | RtcpArrived packet now =>
      '(self, r) ← handle_rtcp_packet self packet now;
      Ok (self, match r with Ok r => packets_to_send r | _ => [] end)
  | RtpToSend packet now =>
      '(self, l, _) ← send_or_enqueue_rtp self packet [] [] now; Ok (self, l)
  | DequeueDue now =>
      '(self, o) ← dequeue_outgoing_rtp self now;
      Ok (self, match o with Some (addr, Some p, _) => [(p, addr)] | _ => [] end)
  | KeyFrameWanted ssrc now => '(self, o) ← send_key_frame_request self ssrc now; Ok (self, option_list o)
  | Ticked now => tick self [] now
  | Configured request config now =>
      '(self, _) ← configure_congestion_control self [] request config now; Ok (self, [])
  | RatesWanted now => Ok ((current_rates self now).1, [])
  | RttWanted now => Ok ((rtt self now).1, [])
  end.

(** What is sent at each event. *)
Fixpoint run (self : t) (es : list Event) : Res unit (t * list Packets) :=
  match es with
  | [] => Ok (self, [])
  | e :: es =>
      '(self, sent) ← perform self e;
      '(self, sents) ← run self es;
      Ok (self, sent :: sents)
  end.

(** What the events say of the client: the address it nominated last, and when
    its last valid request came. *)
Definition nominee (name pwd : bytes) (es : list Event) : option SocketLocator :=
  fold_left (fun a e =>
    match e with
    | IceArrived sender packet _ => match accepts name pwd packet with Some true => Some sender | _ => a end
    | _ => a
    end) es None.

Definition last_request (name pwd : bytes) (es : list Event) : option Z :=
  fold_left (fun l e =>
    match e with
    | IceArrived _ packet now => match accepts name pwd packet with Some _ => Some now | None => l end
    | _ => l
    end) es None.

(** What an event sends when [nominated] is the address nominated before: a valid
    binding request is answered by one response, back to where it came from; any
    other datagram of the kind is not answered; all else goes to [nominated]. *)
Definition addressed_to (name reply_name pwd : bytes) (nominated : option SocketLocator) (e : Event) (sent : Packets) : Prop :=
  match e with
  | IceArrived sender packet _ =>
      match accepts name pwd packet with
      | Some _ => exists response, sent = [(response, sender)] /\ answers reply_name pwd packet response
      | None => sent = []
      end
  | _ => Forall (fun p => nominated = Some p.2) sent
  end.

(** A connection after these events. *)
Record follows (c : t) (self : t) (es : list Event) : Prop := {
  fo_ice : ice self = ice c <| binding_request_received := last_request (request_username (ice c)) (pwd (ice c)) es |>;
  fo_addr : outgoing_addr self = nominee (request_username (ice c)) (pwd (ice c)) es;
  fo_created : created self = created c;
  fo_timeout : inactivity_timeout self = inactivity_timeout c
}.

Lemma follows_same c self self' es e : follows c self es -> same_ice self self' ->
  match e with IceArrived _ _ _ => False | _ => True end -> follows c self' (es ++ [e]).
Proof.
  intros [] [] He. unfold nominee, last_request in *. split; unfold nominee, last_request; rewrite ?fold_left_app; cbn.
  - rewrite si_ice0, fo_ice0. by destruct e.
  - rewrite si_addr0, fo_addr0. by destruct e.
  - congruence.
  - congruence.
Qed.

Lemma perform_follows c self es e self' sent :
  length (response_username (ice c)) = length (request_username (ice c)) -> follows c self es ->
  perform self e = Ok (self', sent) ->
  follows c self' (es ++ [e]) /\
  addressed_to (request_username (ice c)) (response_username (ice c)) (pwd (ice c)) (outgoing_addr self) e sent.
Proof.
  intros Hl Hf Hp. destruct e; cbn [perform] in Hp.
  - destruct (Ice.parse packet) as [req| |] eqn:Eparse; [| |done].
    + destruct (handle_request_ok self sender packet req now Eparse) as (s & r & E & Hc & Ht & Hr).
      { by rewrite (fo_ice _ _ _ Hf). }
      rewrite E, mbind_Ok in Hp. injection Hp as <- <-. destruct Hf.
      rewrite fo_ice0 in Hr. cbn in Hr. unfold nominee, last_request in *. cbn [addressed_to]. split.
      2: { destruct (accepts _ _ packet).
           - destruct Hr as (_ & _ & q & -> & Hq). by exists q.
           - by destruct Hr as ((err & ->) & _). }
      split; unfold nominee, last_request; rewrite ?fold_left_app; cbn; [| |congruence..];
        destruct (accepts _ _ packet) as [nominated|].
      * destruct Hr as (-> & _). done.
      * by destruct Hr as (_ & -> & _).
      * destruct Hr as (_ & -> & _). by destruct nominated.
      * by destruct Hr as (_ & _ & ->).
    + injection Hp as <- <-. destruct Hf. unfold nominee, last_request in *.
      assert (accepts (request_username (ice c)) (pwd (ice c)) packet = None) as En by (unfold accepts; by rewrite Eparse).
      split; [|cbn; by rewrite En].
      split; unfold nominee, last_request; rewrite ?fold_left_app; cbn; rewrite ?En; done.
  - apply bind_Ok in Hp as ([s r] & E & [= <- <-]). apply handle_rtp_same in E. split; [by eapply follows_same|constructor].
  - apply bind_Ok in Hp as ([s r] & E & [= <- <-]). apply handle_rtcp_appends in E as [Hs Hg].
    split; [by eapply follows_same|]. destruct r; [done|constructor..].
  - apply bind_Ok in Hp as ([[s l] d] & E & [= <- <-]). apply send_or_enqueue_appends in E as [Hs (added & -> & Hg)].
    split; [by eapply follows_same|done].
  - apply bind_Ok in Hp as ([s o] & E & [= <- <-]). apply dequeue_same in E as [Hs Hg]. split; [by eapply follows_same|].
    destruct o as [[[addr [p|]] d]|]; [by apply goes_to_one|constructor..].
  - apply bind_Ok in Hp as ([s o] & E & [= <- <-]). apply key_frame_same in E as [Hs Hg]. split; [by eapply follows_same|].
    destruct o as [[p addr]|]; [by apply goes_to_one|constructor].
  - apply tick_appends in Hp as [Hs (added & -> & Hg)]. split; [by eapply follows_same|done].
  - apply bind_Ok in Hp as ([s d] & E & [= <- <-]). apply configure_same in E. split; [by eapply follows_same|constructor].
  - injection Hp as <- <-. split; [eapply follows_same; [done|by split|done]|constructor].
  - injection Hp as <- <-. split; [eapply follows_same; [done|apply rtt_same|done]|constructor].
Qed.

Lemma run_follows c es : forall before self self' sents,
  length (response_username (ice c)) = length (request_username (ice c)) -> follows c self before ->
  run self es = Ok (self', sents) ->
  follows c self' (before ++ es) /\
  forall i e sent, es !! i = Some e -> sents !! i = Some sent ->
    addressed_to (request_username (ice c)) (response_username (ice c)) (pwd (ice c))
      (nominee (request_username (ice c)) (pwd (ice c)) (before ++ take i es)) e sent.
Proof.
  induction es as [|e es IH]; intros before self self' sents Hl Hf Hr; cbn [run] in Hr.
  - injection Hr as <- <-. by rewrite app_nil_r.
  - apply bind_Ok in Hr as ([s1 l1] & E1 & Hr). apply bind_Ok in Hr as ([s2 ls] & E2 & [= <- <-]).
    destruct (perform_follows _ _ _ _ _ _ Hl Hf E1) as [Hf1 Hg].
    destruct (IH _ _ _ _ Hl Hf1 E2) as [Hf2 Hls]. rewrite <- app_assoc in Hf2. split; [done|].
    intros [|i] e' sent; cbn.
    + intros [= <-] [= <-]. rewrite app_nil_r, <- (fo_addr _ _ _ Hf). exact Hg.
    + intros He Hi. specialize (Hls i e' sent He Hi). by rewrite <- app_assoc in Hls.
Qed.

End Requests.
End ConnectionFacts.

Module ConnectionProperties.
Import Connection ConnectionFacts.

Section Properties.
Context `{BlockCipher} `{Aead} `{HashMapOrder} `{HmacSha1Laws} `{Crc32} `{Powf}.

(** C36: A datagram that parses as a binding request never makes a connection panic.
    If its HMAC verifies and it carries the connection's user name it is
    answered, counts as activity and, if it nominates its address, packets go
    there from then on; otherwise it is refused and changes neither. *)
Theorem binding_requests_authenticated self addr p req now : Ice.parse p = Ok req ->
  length (response_username (ice self)) = length (request_username (ice self)) ->
  exists self' r, handle_ice_binding_request self addr req now = Ok (self', r) /\
    match accepts (request_username (ice self)) (pwd (ice self)) p with
    | Some nominated =>
        binding_request_received (ice self') = Some now /\
        outgoing_addr self' = (if nominated then Some addr else outgoing_addr self) /\
        exists q, r = Ok q /\ answers (response_username (ice self)) (pwd (ice self)) p q
    | None => (exists e, r = Err e) /\ ice self' = ice self /\ outgoing_addr self' = outgoing_addr self
    end.
Proof.
  intros Hp Hl. destruct (handle_request_ok self addr p req now Hp Hl) as (self' & r & E & _ & _ & Hr).
  exists self', r. split; [done|]. destruct (accepts _ _ p); [|done]. by destruct Hr as (-> & ? & ?).
Qed.

(** C35: Whatever happens to a connection, media, RTCP and all else it sends goes to the
    address that the last valid nominating request came from, and before there is one none is
    sent; only a binding request is answered to whoever sent it: by exactly one response if it
    is valid, and by nothing otherwise. *)
Theorem sends_only_to_nominated_address request response pwd keys ssrc config timeout relation now es self sents :
  length response = length request ->
  run (new request response pwd keys ssrc config timeout relation now) es = Ok (self, sents) ->
  outgoing_addr self = nominee request pwd es /\
  forall i e sent, es !! i = Some e -> sents !! i = Some sent ->
    match e with
    | IceArrived sender packet _ =>
        match accepts request pwd packet with
        | Some _ => exists q, sent = [(q, sender)] /\ answers response pwd packet q
        | None => sent = []
        end
    | _ => forall p addr, (p, addr) ∈ sent -> nominee request pwd (take i es) = Some addr
    end.
Proof.
  intros Hl Hr. set (c := new _ _ _ _ _ _ _ _ _) in Hr.
  assert (follows c c []) as Hc by (by split).
  destruct (run_follows c es [] c self sents Hl Hc Hr) as [[_ Ha _ _] Hs]. split; [exact Ha|].
  intros i e sent He Hi. specialize (Hs i e sent He Hi). cbn in Hs.
  destruct e; [exact Hs|..]; intros p addr Hin; cbn in Hs; rewrite Forall_forall in Hs; exact (Hs _ Hin).
Qed.

(** A connection is inactive once its timeout has passed since the last valid
    binding request, or since it was created if there was none, and not before:
    nothing else keeps it alive and nothing else ends it. *)
Theorem inactive_after_silence request response pwd keys ssrc config timeout relation created es self sents now :
  length response = length request ->
  run (new request response pwd keys ssrc config timeout relation created) es = Ok (self, sents) ->
  inactive self now = true <-> default created (last_request request pwd es) + timeout <= now.
Proof.
  intros Hl Hr. set (c := new _ _ _ _ _ _ _ _ _) in Hr.
  assert (follows c c []) as Hc by (by split).
  destruct (run_follows c es [] c self sents Hl Hc Hr) as [[Hi _ Hcr Ht] _].
  unfold inactive. rewrite Hi, Hcr, Ht. cbn. apply Z.leb_le.
Qed.

End Properties.

(** Stand-ins for the code outside the repository. *)
#[local] Existing Instances SampleCipher.flip_aead IceProperties.toy_hmac IceProperties.toy_hmac_laws IceProperties.toy_crc.
#[local] Instance toy_block : BlockCipher := { encrypt_block key b := take 16 b }.
#[local] Instance list_order : HashMapOrder := {|
  entries V m := map_to_list m; entries_perm V m := Permutation_refl _
|}.
#[local] Instance toy_powf : Powf := { powf x _ := x }.

Definition name : bytes := [97; 58; 98].
Definition reply_name : bytes := [98; 58; 97].
Definition phone : SocketLocator := Udp (SocketAddrV4 16909060 5000).
Definition laptop : SocketLocator := Tcp 7 true false.
Definition binding_request (nominate : bool) (pwd : bytes) : bytes :=
  match Ice.create_binding_request_packet (E := unit) IceProperties.tid name pwd nominate with Ok p => p | _ => [] end.
Definition example : t :=
  new name reply_name [112] (replicate 56 1) 16 Config.default (Duration.from_secs 30) Region.SameRegion 0.
(** A key frame request before and after the laptop is nominated; a forged
    request from elsewhere. *)
Definition events : list Event :=
  [KeyFrameWanted 5 1; IceArrived phone (binding_request false [112]) 2; IceArrived laptop (binding_request true [112]) 3;
   KeyFrameWanted 5 4; IceArrived phone (binding_request true [113]) 5; KeyFrameWanted 5 6; RttWanted 7].

Lemma binding_requests_authenticated_witness : exists req self' q,
  Ice.parse (binding_request true [112]) = Ok req /\
  handle_ice_binding_request example laptop req 3 = Ok (self', Ok q) /\ outgoing_addr self' = Some laptop.
Proof.
  assert (exists req, Ice.parse (binding_request true [112]) = Ok req) as [req E] by (eexists; vm_compute; reflexivity).
  destruct (binding_requests_authenticated example laptop (binding_request true [112]) req 3 E eq_refl) as (self' & r & E' & Hr).
  assert (accepts (request_username (ice example)) (pwd (ice example)) (binding_request true [112]) = Some true) as Ea
    by (vm_compute; reflexivity).
  rewrite Ea in Hr. destruct Hr as (_ & Ho & q & -> & _). exists req, self', q.
  split; [exact E|]. split; [exact E'|exact Ho].
Defined.

Lemma sends_only_to_nominated_address_witness : exists self sents,
  run example events = Ok (self, sents) /\ map length sents = [0; 1; 1; 1; 0; 1; 0]%nat /\
  outgoing_addr self = Some laptop.
Proof.
  assert (exists self sents, run example events = Ok (self, sents) /\ map length sents = [0; 1; 1; 1; 0; 1; 0]%nat)
    as (self & sents & E & El) by (eexists _, _; split; vm_compute; reflexivity).
  exists self, sents. split; [exact E|]. split; [exact El|].
  pose proof (proj1 (sends_only_to_nominated_address name reply_name [112] (replicate 56 1) 16 Config.default
    (Duration.from_secs 30) Region.SameRegion 0 events self sents eq_refl E)) as Ha.
  rewrite Ha. vm_compute. reflexivity.
Defined.

Lemma inactive_after_silence_witness : exists self sents,
  run example events = Ok (self, sents) /\ inactive self (3 + Duration.from_secs 30) = true.
Proof.
  assert (exists self sents, run example events = Ok (self, sents)) as (self & sents & E)
    by (eexists _, _; vm_compute; reflexivity).
  exists self, sents. split; [exact E|].
  apply (proj2 (inactive_after_silence name reply_name [112] (replicate 56 1) 16 Config.default
    (Duration.from_secs 30) Region.SameRegion 0 events self sents (3 + Duration.from_secs 30) eq_refl E)).
  vm_compute. discriminate.
Defined.

(** A video packet that is queued before an address is nominated was never
    encrypted, and is sent as it is once there is one; the same packet sent a
    little later is encrypted. *)
Definition video_packet : Packet.t :=
  Packet.mk false 108 32 3 None false 9 None None None (Some 5) None (12, 15)%nat false (Some (10 ^ 9)) 0
    ([128; 108; 0; 3; 0; 0; 0; 9; 0; 0; 0; 32; 1; 2; 3] ++ replicate 16 0).

Lemma queued_packet_sent_in_clear :
  match run example [RtpToSend video_packet 1; IceArrived laptop (binding_request true [112]) 2; DequeueDue 3],
        run example [IceArrived laptop (binding_request true [112]) 2; RtpToSend video_packet 3] with
  | Ok (_, sents), Ok (_, sents') =>
      drop 2 sents = [[(Packet.serialized video_packet, laptop)]] /\
      exists encrypted, drop 1 sents' = [[(encrypted, laptop)]] /\ take 3 (drop 12 encrypted) = [0; 3; 2]
  | _, _ => False
  end.
Proof. vm_compute. split; [reflexivity|]. eexists. split; reflexivity. Qed.

End ConnectionProperties.
