(* ===== verification/Call.v ===== *)
(** * Call: membership, media forwarding and the messages of a group call

    [src/backend/src/call.rs], [struct Call].  Operations take and return the
    state.  The outer [Res Error] of a result is only ever [Ok] or [Panic];
    a handler that can fail returns its state together with an inner result,
    because what it did before failing stays done.  Times are nanoseconds of the
    monotonic clock.  Logging, events and timers are left out. *)
From stdpp Require Import strings.
From S2P Require Import Prelude Common Collections Float Bytes Srtp RtpHeader Audio Vp8.
From S2P Require Import Packet Layers Allocation Forwarders ApprovedUsers Client.
Import RtpTypes.

Module Call.

Section Call.
Context `{Mrp} `{Protos}.

Definition ms (n : Z) : Z := Duration.from_millis n.
Definition CLIENT_SERVER_DATA_SSRC : Z := 1.
Definition CLIENT_SERVER_DATA_PAYLOAD_TYPE : Z := 101.
Definition KEY_FRAME_REQUEST_CALCULATION_INTERVAL : Z := ms 5.
Definition KEY_FRAME_REQUEST_RESEND_INTERVAL : Z := ms 200.
Definition HIGH_RES_KEY_FRAME_REQUEST_RESEND_INTERVAL : Z := ms 500.
Definition SEND_RATE_REALLOCATION_INTERVAL : Z := ms 1000.
Definition ACTIVE_SPEAKER_CALCULATION_INTERVAL : Z := ms 300.
Definition STATS_MESSAGE_INTERVAL : Z := Duration.from_secs 1.
Definition REMOVED_CLIENTS_UPDATE_INTERVAL : Z := Duration.from_secs 1.
Definition RAISED_HANDS_MESSAGE_INTERVAL : Z := Duration.from_secs 1.
Definition MIN_TARGET_SEND_RATE_GENERATION_INTERVAL : Z := ms 2500.

Inductive ClientStatus := Active | Pending | Blocked.
Inductive CallActivity := CallActive | CallInactive | CallWaiting.

(** [CallTimeStats] *)
Record CallTime := call_time_mk { empty : Z; solo : Z; pair : Z; many : Z }.

#[global] Instance CallTime_eta : Settable CallTime := fun c =>
  call_time_mk (empty c) (solo c) (pair c) (many c).

Record RaisedHand := raised_hand { hand_demux_id : DemuxId.t; hand_raise : bool }.

Record t := mk {
  room_id : option string;
  creator_id : UserId;
  new_clients_require_approval : bool;
  persist_approval_for_all_users_who_join : bool;
  created : Z;
  active_speaker_message_interval : Z;
  initial_target_send_rate : Z;
  default_requested_max_send_rate : Z;
  clients : list Client.t;
  pending_clients : list NonParticipantClient.t;
  removed_clients : list NonParticipantClient.t;
  client_added_or_removed : Z;
  clients_update_sent : Z;
  approved_users : ApprovedUsers.t;
  denied_users : gset UserId;
  blocked_users : gset UserId;
  active_speaker_id : option DemuxId.t;
  active_speaker_calculated : Z;
  active_speaker_update_sent : Z;
  raised_hands : option (list RaisedHand);
  raised_hands_seqnums : gmap DemuxId.t Z;
  stats_update_sent : Z;
  removed_clients_update_sent : Z;
  raised_hands_sent : Z;
  key_frame_requests_sent : Z;
  key_frame_request_sent_by_ssrc : gmap Z Z;
  call_time : CallTime
}.

#[global] Instance t_eta : Settable t := fun c =>
  mk (room_id c) (creator_id c) (new_clients_require_approval c)
     (persist_approval_for_all_users_who_join c) (created c) (active_speaker_message_interval c)
     (initial_target_send_rate c) (default_requested_max_send_rate c) (clients c)
     (pending_clients c) (removed_clients c) (client_added_or_removed c) (clients_update_sent c)
     (approved_users c) (denied_users c) (blocked_users c) (active_speaker_id c)
     (active_speaker_calculated c) (active_speaker_update_sent c) (raised_hands c)
     (raised_hands_seqnums c) (stats_update_sent c) (removed_clients_update_sent c)
     (raised_hands_sent c) (key_frame_requests_sent c) (key_frame_request_sent_by_ssrc c)
     (call_time c).

Definition RtpToSend : Type := DemuxId.t * Packet.t.
(** The client to send to and the SSRC of the request. *)
Definition KeyFrameRequestToSend : Type := DemuxId.t * Z.

Definition new (room_id : option string) (creator_id : UserId)
    (new_clients_require_approval persist_approval_for_all_users_who_join : bool)
    (active_speaker_message_interval initial_target_send_rate default_requested_max_send_rate now
       system_now : Z) (approved_users : option (list UserId)) (approved_users_persistence_url : bool)
    : t := {|
  room_id := room_id;
  creator_id := creator_id;
  new_clients_require_approval := new_clients_require_approval;
  persist_approval_for_all_users_who_join := persist_approval_for_all_users_who_join;
  created := system_now;
  active_speaker_message_interval := active_speaker_message_interval;
  initial_target_send_rate := initial_target_send_rate;
  default_requested_max_send_rate := default_requested_max_send_rate;
  clients := [];
  pending_clients := [];
  removed_clients := [];
  client_added_or_removed := now;
  clients_update_sent := now;
  approved_users :=
    ApprovedUsers.new (unwrap_or approved_users [])
      (approved_users_persistence_url && bool_decide (is_Some room_id));
  denied_users := ∅;
  blocked_users := ∅;
  active_speaker_id := None;
  active_speaker_calculated := now - ACTIVE_SPEAKER_CALCULATION_INTERVAL;
  active_speaker_update_sent := now;
  raised_hands := None;
  raised_hands_seqnums := ∅;
  stats_update_sent := now;
  removed_clients_update_sent := now - REMOVED_CLIENTS_UPDATE_INTERVAL;
  raised_hands_sent := now - RAISED_HANDS_MESSAGE_INTERVAL;
  key_frame_requests_sent := now - KEY_FRAME_REQUEST_CALCULATION_INTERVAL;
  key_frame_request_sent_by_ssrc := ∅;
  call_time := call_time_mk 0 0 0 0
|}.

Definition size (self : t) : nat := length (clients self).
Definition size_bucket (self : t) : CallSizeBucket.t := CallSizeBucket.from (size self).

(** [outcome] and [runtime] are what [ApprovedUsers::tick] finds. *)
Definition activity (self : t) (now inactivity_timeout : Z)
    (outcome : option ApprovedUsers.Outcome) (runtime : bool) : t * CallActivity :=
  match clients self, pending_clients self, removed_clients self with
  | [], [], [] =>
      let self := self <| approved_users ::= fun a => ApprovedUsers.tick a outcome runtime |> in
      (self,
       if negb (ApprovedUsers.is_busy (approved_users self))
          && (client_added_or_removed self + inactivity_timeout <=? now)
       then CallInactive else CallWaiting)
  | _, _, _ => (self, CallActive)
  end.

Definition is_client (d : DemuxId.t) (c : Client.t) : bool := Client.demux_id c =? d.
Definition is_non_participant (d : DemuxId.t) (c : NonParticipantClient.t) : bool :=
  NonParticipantClient.demux_id c =? d.

Definition has_client (self : t) (demux_id : DemuxId.t) : bool :=
  existsb (is_client demux_id) (clients self)
  || existsb (is_non_participant demux_id) (pending_clients self)
  || existsb (is_non_participant demux_id) (removed_clients self).

Definition is_admin (self : t) (user_id : UserId) : bool :=
  existsb (fun c => Client.is_admin c && bool_decide (Client.user_id c = user_id)) (clients self).

Definition find_client (self : t) (demux_id : DemuxId.t) : option Client.t :=
  find (is_client demux_id) (clients self).

(** The mutation of the client that [find_client_mut] finds, if any. *)
Fixpoint modify_first {A} (p : A -> bool) (f : A -> A) (l : list A) : list A :=
  match l with
  | [] => []
  | x :: rest => if p x then f x :: rest else x :: modify_first p f rest
  end.

Definition modify_client (demux_id : DemuxId.t) (f : Client.t -> Client.t) (self : t) : t :=
  self <| clients ::= modify_first (is_client demux_id) f |>.

(** [position] of the element that satisfies [p], then [swap_remove]: the element
    and the list, in which the last element takes its place. *)
Definition swap_remove {A} (p : A -> bool) (l : list A) : option (A * list A) :=
  match list_find p l with
  | None => None
  | Some (i, x) =>
      Some (x, match last l with
               | Some y => take (length l - 1) (<[i := y]> l)
               | None => l
               end)
  end.

Definition will_add_or_remove_client (self : t) (now : Z) : t :=
  let increment := Duration.saturating_duration_since now (client_added_or_removed self) in
  let self :=
    self <| call_time ::= fun c =>
      match length (clients self) with
      | 0%nat => c <| empty ::= Z.add increment |>
      | 1%nat => c <| solo ::= Z.add increment |>
      | 2%nat => c <| pair ::= Z.add increment |>
      | _ => c <| many ::= Z.add increment |>
      end |> in
  self <| client_added_or_removed := now |>.

(** ** Allocation *)

(** A computation whose errors are the code's panics. *)
Definition no_err {E A} (m : Res unit A) : Res E A :=
  match m with Ok a => Ok a | _ => Panic end.

(** What [receiver] could be sent of [sender]. *)
Definition allocatable_video (self : t) (receiver : Client.t) (sender : Client.t)
    : option Allocation.AllocatableVideo :=
  if Client.demux_id sender =? Client.demux_id receiver then None
  else
    let requested_height :=
      unwrap_or (Client.requested_height_by_demux_id receiver !! Client.demux_id sender) 1 in
    let requested_height :=
      if bool_decide (Some (Client.demux_id sender) = active_speaker_id self)
         && (requested_height <? Client.active_speaker_height receiver)
      then Client.active_speaker_height receiver else requested_height in
    let allocated_layer_index :=
      f ← Client.video_forwarder_by_sender_demux_id receiver !! Client.demux_id sender;
      ssrc ← Vp8SimulcastRtpForwarder.forwarding_ssrc f;
      LayerId.layer_index_from_ssrc ssrc in
    Some (Allocation.video (Client.demux_id sender)
            [IncomingVideoState.as_allocatable_layer (Client.incoming_video0 sender);
             IncomingVideoState.as_allocatable_layer (Client.incoming_video1 sender);
             IncomingVideoState.as_allocatable_layer (Client.incoming_video2 sender)]
            requested_height allocated_layer_index (Client.became_active_speaker sender)).

(** The loop body for one sender: the height and the forwarder of [receiver]. *)
Definition apply_allocation (allocated : gmap DemuxId.t Allocation.AllocatedVideo)
    (receiver : Client.t) (sender_demux_id : DemuxId.t) : Res Error Client.t :=
  '(receiver, desired_incoming_ssrc) ←
    match allocated !! sender_demux_id with
    | None => Ok (receiver, None)
    | Some allocated_video =>
        let receiver :=
          receiver <| Client.allocated_height_by_sender_demux_id ::=
                        insert sender_demux_id (Allocation.height allocated_video) |> in
        layer_id ← unwrap (LayerId.from_video_layer_index (Allocation.layer_index allocated_video));
        Ok (receiver,
            Some (LayerId.to_ssrc layer_id (Allocation.a_sender_demux_id allocated_video)))
    end;
  let forwarder :=
    default (Vp8SimulcastRtpForwarder.new (LayerId.to_ssrc LayerId.Video0 sender_demux_id))
      (Client.video_forwarder_by_sender_demux_id receiver !! sender_demux_id) in
  let forwarder := Vp8SimulcastRtpForwarder.set_desired_ssrc forwarder desired_incoming_ssrc in
  Ok (receiver <| Client.video_forwarder_by_sender_demux_id ::= insert sender_demux_id forwarder |>).

Fixpoint apply_allocations (allocated : gmap DemuxId.t Allocation.AllocatedVideo)
    (receiver : Client.t) (sender_demux_ids : list DemuxId.t) : Res Error Client.t :=
  match sender_demux_ids with
  | [] => Ok receiver
  | d :: rest =>
      receiver ← apply_allocation allocated receiver d;
      apply_allocations allocated receiver rest
  end.

Definition allocate_video_layers (self : t) (receiver_demux_id : DemuxId.t)
    (new_target_send_rate min_target_send_rate now : Z) : Res Error t :=
  receiver ← unwrap (find_client self receiver_demux_id);
  let allocatable_videos := omap (allocatable_video self receiver) (clients self) in
  let sender_demux_ids :=
    List.filter (fun d => negb (d =? Client.demux_id receiver))
      (map Allocation.sender_demux_id allocatable_videos) in
  requested_base_rate ← no_err
    (Allocation.requested_base_rate allocatable_videos (Client.requested_max_send_rate receiver));
  ideal_send_rate ← no_err
    (Allocation.ideal_send_rate allocatable_videos (Client.requested_max_send_rate receiver));
  allocated ← no_err
    (Allocation.allocate_send_rate new_target_send_rate min_target_send_rate ideal_send_rate
       (Client.outgoing_queue_drain_rate receiver) allocatable_videos);
  let allocated_send_rate := Allocation.allocated_send_rate allocated in
  receiver ←
    apply_allocations allocated
      (receiver <| Client.allocated_height_by_sender_demux_id := ∅ |>) sender_demux_ids;
  let receiver :=
    receiver <| Client.target_send_rate := new_target_send_rate |>
             <| Client.requested_base_rate := requested_base_rate |>
             <| Client.ideal_send_rate := ideal_send_rate |>
             <| Client.allocated_send_rate := allocated_send_rate |>
             <| Client.send_rate_allocated := now |> in
  Ok (modify_client receiver_demux_id (fun _ => receiver) self).

Fixpoint allocate_for (self : t) (receivers : list (DemuxId.t * Z * Z)) (now : Z) : Res Error t :=
  match receivers with
  | [] => Ok self
  | (receiver_demux_id, target_send_rate, min_target_send_rate) :: rest =>
      self ← allocate_video_layers self receiver_demux_id target_send_rate min_target_send_rate now;
      allocate_for self rest now
  end.

Definition rates_of (c : Client.t) : DemuxId.t * Z * Z :=
  (Client.demux_id c, Client.target_send_rate c, Client.min_target_send_rate c).

Definition reallocate_target_send_rates (self : t) (now : Z) : Res Error t :=
  allocate_for self (map rates_of (clients self)) now.

Definition reallocate_target_send_rates_if_its_been_too_long (self : t) (now : Z) : Res Error t :=
  let receivers :=
    map rates_of
      (List.filter (fun c => Client.send_rate_allocated c + SEND_RATE_REALLOCATION_INTERVAL <? now)
         (clients self)) in
  allocate_for self receivers now.

(** ** Membership *)

Definition padding_ssrc (sender : Client.t) : option Z :=
  Some (LayerId.to_rtx_ssrc LayerId.Video0 (Client.demux_id sender)).

Definition update_padding_ssrcs (self : t) : t :=
  self <| clients ::= fun clients =>
    match clients with
    | [] => []
    | [lonely] => [lonely <| Client.padding_ssrc := None |>]
    | first :: second :: rest =>
        (first <| Client.padding_ssrc := padding_ssrc second |>)
        :: (second <| Client.padding_ssrc := padding_ssrc first |>)
        :: map (fun receiver => receiver <| Client.padding_ssrc := padding_ssrc first |>) rest
    end |>.

Definition promote_client (self : t) (pending_client : NonParticipantClient.t) (now : Z)
    : Res Error t :=
  let self := will_add_or_remove_client self now in
  let demux_id := NonParticipantClient.demux_id pending_client in
  let self :=
    self <| clients ::= fun l =>
      l ++ [Client.new pending_client (initial_target_send_rate self)
              (default_requested_max_send_rate self) now] |> in
  self ← allocate_video_layers self demux_id (initial_target_send_rate self)
           (initial_target_send_rate self) now;
  Ok (update_padding_ssrcs self).

Definition add_client (self : t) (demux_id : DemuxId.t) (user_id : UserId) (is_admin : bool)
    (region_relation : Region.Relation) (now : Z) : Res Error (t * ClientStatus) :=
  let pending_client := NonParticipantClient.mk demux_id user_id is_admin region_relation 1 in
  if bool_decide (user_id ∈ blocked_users self) then
    Ok (self <| removed_clients ::= fun l => l ++ [pending_client] |>, Blocked)
  else if is_admin || negb (new_clients_require_approval self)
          || ApprovedUsers.contains (approved_users self) user_id then
    let self :=
      if persist_approval_for_all_users_who_join self
      then self <| approved_users ::= fun a => (ApprovedUsers.insert a user_id).1 |>
      else self in
    self ← promote_client self pending_client now;
    Ok (self, Active)
  else
    let self := will_add_or_remove_client self now in
    Ok (self <| pending_clients ::= fun l => l ++ [pending_client] |>, Pending).

Fixpoint promote_clients (self : t) (l : list NonParticipantClient.t) (now : Z) : Res Error t :=
  match l with
  | [] => Ok self
  | c :: rest => self ← promote_client self c now; promote_clients self rest now
  end.

Definition find_pending_user (self : t) (demux_id : DemuxId.t) : option UserId :=
  NonParticipantClient.user_id <$> find (is_non_participant demux_id) (pending_clients self).

Definition of_user (user_id : UserId) (c : NonParticipantClient.t) : bool :=
  bool_decide (NonParticipantClient.user_id c = user_id).

Definition approve_pending_client (self : t) (demux_id : DemuxId.t) (now : Z) : Res Error t :=
  match find_pending_user self demux_id with
  | None => Ok self
  | Some user_id =>
      let '(matching, rest) := Iter.drain_filter (of_user user_id) (pending_clients self) in
      self ← promote_clients (self <| pending_clients := rest |>) matching now;
      Ok (self <| denied_users ::= fun s => s ∖ {[user_id]} |>
               <| approved_users ::= fun a => (ApprovedUsers.insert a user_id).1 |>)
  end.

Definition deny_pending_client (self : t) (demux_id : DemuxId.t) (now : Z) : t :=
  match find_pending_user self demux_id with
  | None => self
  | Some user_id =>
      let self := will_add_or_remove_client self now in
      let '(matching, rest) := Iter.drain_filter (of_user user_id) (pending_clients self) in
      let self :=
        self <| pending_clients := rest |> <| removed_clients ::= fun l => l ++ matching |> in
      let repeated := bool_decide (user_id ∈ denied_users self) in
      let self := self <| denied_users ::= fun s => {[user_id]} ∪ s |> in
      if repeated then self <| blocked_users ::= fun s => {[user_id]} ∪ s |> else self
  end.

Definition forget_sender (client : Client.t) (demux_id : DemuxId.t) : Client.t :=
  client <| Client.audio_forwarder_by_sender_demux_id ::= delete demux_id |>
         <| Client.video_forwarder_by_sender_demux_id ::= delete demux_id |>
         <| Client.data_forwarder_by_sender_demux_id ::= delete demux_id |>.

Definition update_for_removed_clients (self : t) (removed_demux_ids : list DemuxId.t) (now : Z)
    : Res Error t :=
  self ← reallocate_target_send_rates self now;
  let self := update_padding_ssrcs self in
  let self := self <| clients ::= map (fun c => fold_left forget_sender removed_demux_ids c) |> in
  Ok (self <| key_frame_request_sent_by_ssrc ::=
        base.filter (fun e : Z * Z => DemuxId.of_ssrc e.1 ∉ removed_demux_ids) |>).

Definition remove_client (self : t) (demux_id : DemuxId.t) (now : Z)
    : Res Error (t * option Client.t) :=
  match swap_remove (is_client demux_id) (clients self) with
  | None => Ok (self, None)
  | Some (removed_client, rest) =>
      let self := will_add_or_remove_client self now in
      self ← update_for_removed_clients (self <| clients := rest |>) [demux_id] now;
      Ok (self, Some removed_client)
  end.

Definition send_raised_hands_on_next_tick (self : t) (now : Z) : t :=
  self <| raised_hands_sent := now - RAISED_HANDS_MESSAGE_INTERVAL |>.

Definition is_hand (d : DemuxId.t) (h : RaisedHand) : bool := hand_demux_id h =? d.

Definition lower_raised_hand (self : t) (demux_id : DemuxId.t) (now : Z) : t :=
  match raised_hands self with
  | None => self
  | Some hands =>
      match find (is_hand demux_id) hands with
      | Some h =>
          if hand_raise h then
            send_raised_hands_on_next_tick
              (self <| raised_hands := Some (modify_first (is_hand demux_id)
                         (fun h => raised_hand (hand_demux_id h) false) hands) |>) now
          else self
      | None => self
      end
  end.

Definition drop_client (self : t) (demux_id : DemuxId.t) (now : Z) : Res Error t :=
  '(self, removed) ← remove_client self demux_id now;
  let self :=
    match removed with
    | Some _ => self
    | None =>
        match swap_remove (is_non_participant demux_id) (pending_clients self) with
        | Some (_, rest) => will_add_or_remove_client self now <| pending_clients := rest |>
        | None =>
            match swap_remove (is_non_participant demux_id) (removed_clients self) with
            | Some (_, rest) => self <| removed_clients := rest |>
            | None => self
            end
        end
    end in
  Ok (lower_raised_hand self demux_id now).

Definition force_remove_client (self : t) (demux_id : DemuxId.t) (now : Z) : Res Error t :=
  '(self, removed) ← remove_client self demux_id now;
  match removed with
  | None => Ok self
  | Some client =>
      let self :=
        if existsb (fun c => bool_decide (Client.user_id c = Client.user_id client)) (clients self)
        then self
        else self <| approved_users ::= fun a =>
                       (ApprovedUsers.remove a (Client.user_id client)).1 |> in
      let self :=
        self <| removed_clients ::= fun l => l ++ [Client.into_non_participant client] |> in
      Ok (lower_raised_hand self demux_id now)
  end.

Definition block_client (self : t) (demux_id : DemuxId.t) (now : Z) : Res Error t :=
  match find_client self demux_id with
  | None => Ok self
  | Some client =>
      let user_id := Client.user_id client in
      let self := will_add_or_remove_client self now in
      let '(removed, rest) :=
        Iter.drain_filter (fun c => bool_decide (Client.user_id c = user_id)) (clients self) in
      let removed_demux_ids := map Client.demux_id removed in
      let self :=
        self <| clients := rest |>
             <| removed_clients ::= fun l => l ++ map Client.into_non_participant removed |> in
      self ← update_for_removed_clients self removed_demux_ids now;
      Ok (self <| approved_users ::= fun a => (ApprovedUsers.remove a user_id).1 |>
               <| blocked_users ::= fun s => {[user_id]} ∪ s |>)
  end.

Definition handle_raise_hand (self : t) (now : Z) (raise_hand : Proto.RaiseHand)
    (sender_demux_id : DemuxId.t) : t :=
  match Proto.raise raise_hand, Proto.raise_seqnum raise_hand with
  | Some raise, Some seqnum =>
      let hands := unwrap_or (raised_hands self) [] in
      let self := self <| raised_hands := Some hands |> in
      let hand := raised_hand sender_demux_id raise in
      match list_find (is_hand sender_demux_id) hands with
      | Some (index, _) =>
          match raised_hands_seqnums self !! sender_demux_id with
          | Some current_seqnum =>
              if current_seqnum <? seqnum then
                send_raised_hands_on_next_tick
                  (self <| raised_hands := Some (delete index hands ++ [hand]) |>
                        <| raised_hands_seqnums ::= insert sender_demux_id seqnum |>) now
              else self
          | None => self
          end
      | None =>
          send_raised_hands_on_next_tick
            (self <| raised_hands := Some (hands ++ [hand]) |>
                  <| raised_hands_seqnums ::= insert sender_demux_id seqnum |>) now
      end
  | _, _ => self
  end.

End Call.
End Call.
