(* ===== verification/CallHandlers.v ===== *)
(** * CallHandlers: packets, messages and ticks of a call

    [src/backend/src/call.rs], the rest of [struct Call]: what arrives from the
    clients and from congestion control, and what [tick] sends. *)
From stdpp Require Import strings.
From S2P Require Import Prelude Common Collections Float Bytes Srtp RtpHeader Audio Vp8.
From S2P Require Import Packet Layers Allocation Forwarders ApprovedUsers Client Call.
Import RtpTypes.

Module Handlers.
Import Call.

Section Handlers.
Context `{Mrp} `{Protos}.

(** A failed handler's error or what it sends. *)
Definition Outcome : Type := Res Error (list RtpToSend).

(** ** Messages to the clients *)

Definition encode_sfu_to_device_inner (update : Proto.SfuToDevice)
    (next_server_to_client_data_rtp_seqnum payload_type : Z) : Res Error (Packet.t * Z) :=
  let seqnum := next_server_to_client_data_rtp_seqnum in
  packet ← Packet.with_empty_tag payload_type seqnum (u32 seqnum) CLIENT_SERVER_DATA_SSRC None None
             (encode_to_vec update);
  Ok (packet, u64 (seqnum + 1)).

Definition encode_to_client (update : Proto.SfuToDevice) (client : Client.t)
    : Res Error (Client.t * RtpToSend) :=
  '(packet, next) ←
    encode_sfu_to_device_inner update (Client.next_server_to_client_data_rtp_seqnum client)
      CLIENT_SERVER_DATA_PAYLOAD_TYPE;
  Ok (client <| Client.next_server_to_client_data_rtp_seqnum := next |>,
      (Client.demux_id client, packet)).

Definition encode_to_non_participant (update : Proto.SfuToDevice) (client : NonParticipantClient.t)
    : Res Error (NonParticipantClient.t * RtpToSend) :=
  '(packet, next) ←
    encode_sfu_to_device_inner update
      (NonParticipantClient.next_server_to_client_data_rtp_seqnum client)
      CLIENT_SERVER_DATA_PAYLOAD_TYPE;
  Ok (client <| NonParticipantClient.next_server_to_client_data_rtp_seqnum := next |>,
      (NonParticipantClient.demux_id client, packet)).

(** A loop over mutable elements that sends packets. *)
Fixpoint send_to_all {A} (f : A -> Res Error (A * list RtpToSend)) (l : list A)
    : Res Error (list A * list RtpToSend) :=
  match l with
  | [] => Ok ([], [])
  | c :: rest =>
      '(c, out) ← f c;
      '(rest, outs) ← send_to_all f rest;
      Ok (c :: rest, out ++ outs)
  end.

Definition one {A} (r : A * RtpToSend) : A * list RtpToSend := (r.1, [r.2]).

Definition current_devices_of (client : Client.t) : Proto.CurrentDevices :=
  let shown :=
    List.filter
      (fun e : DemuxId.t * Vp8SimulcastRtpForwarder.t =>
         bool_decide (is_Some (Vp8SimulcastRtpForwarder.forwarding_ssrc e.2))
         || bool_decide (is_Some (Vp8SimulcastRtpForwarder.needs_key_frame e.2)))
      (map_to_list (Client.video_forwarder_by_sender_demux_id client)) in
  Proto.current_devices [] (map fst shown)
    (map (fun e => unwrap_or (Client.allocated_height_by_sender_demux_id client !! e.1) 0) shown).

Definition stats_of (client : Client.t) : Proto.Stats :=
  let kbps r := Some (u32 (DataRate.as_kbps r)) in
  Proto.stats (kbps (Client.target_send_rate client)) (kbps (Client.ideal_send_rate client))
    (kbps (Client.allocated_send_rate client)).

Definition send_update_proto_to_participating_clients (self : t)
    (client_was_added_or_removed active_speaker_just_changed : bool) (now : Z)
    : Res Error (t * list RtpToSend) :=
  let update := Proto.default_sfu_to_device in
  let update :=
    if client_was_added_or_removed then update <| Proto.s_device_joined_or_left := true |>
    else update in
  let '(self, update) :=
    if active_speaker_just_changed || Proto.s_device_joined_or_left update
       || (active_speaker_update_sent self + active_speaker_message_interval self <=? now)
    then
      (self <| active_speaker_update_sent := now |>,
       match active_speaker_id self with
       | Some demux_id => update <| Proto.s_speaker := Some (Some demux_id) |>
       | None => update
       end)
    else (self, update) in
  let send_stats := stats_update_sent self + STATS_MESSAGE_INTERVAL <=? now in
  if Proto.s_device_joined_or_left update || bool_decide (is_Some (Proto.s_speaker update))
     || send_stats
  then
    '(clients, out) ←
      send_to_all
        (fun client =>
           let update := update <| Proto.s_current_devices := Some (current_devices_of client) |> in
           let update :=
             if send_stats then update <| Proto.s_stats := Some (stats_of client) |> else update in
           r ← encode_to_client update client;
           Ok (one r))
        (clients self);
    let self := self <| Call.clients := clients |> in
    Ok (if send_stats then self <| stats_update_sent := now |> else self, out)
  else Ok (self, []).

Definition send_update_proto_to_pending_clients (self : t) (client_was_added_or_removed : bool)
    : Res Error (t * list RtpToSend) :=
  if bool_decide (pending_clients self = []) || negb client_was_added_or_removed then Ok (self, [])
  else
    let update := Proto.default_sfu_to_device <| Proto.s_device_joined_or_left := true |> in
    '(l, out) ←
      send_to_all (fun c => r ← encode_to_non_participant update c; Ok (one r)) (pending_clients self);
    Ok (self <| pending_clients := l |>, out).

Definition send_update_proto_to_removed_clients (self : t) (now : Z)
    : Res Error (t * list RtpToSend) :=
  if bool_decide (removed_clients self = [])
     || (now <? removed_clients_update_sent self + REMOVED_CLIENTS_UPDATE_INTERVAL)
  then Ok (self, [])
  else
    let self := self <| removed_clients_update_sent := now |> in
    let update := Proto.default_sfu_to_device <| Proto.s_removed := true |> in
    '(l, out) ←
      send_to_all (fun c => r ← encode_to_non_participant update c; Ok (one r)) (removed_clients self);
    Ok (self <| removed_clients := l |>, out).

Definition seqnum_of (self : t) (d : DemuxId.t) : Z := unwrap_or (raised_hands_seqnums self !! d) 0.

Definition send_raised_hands_proto_to_clients (self : t) (now : Z) : Res Error (t * list RtpToSend) :=
  if raised_hands_sent self + RAISED_HANDS_MESSAGE_INTERVAL <=? now then
    match raised_hands self with
    | None => Ok (self, [])
    | Some hands =>
        let raised := List.filter hand_raise hands in
        let demux_ids := map hand_demux_id raised in
        let seqnums := map (fun h => seqnum_of self (hand_demux_id h)) raised in
        '(clients, out) ←
          send_to_all
            (fun client =>
               let update :=
                 Proto.default_sfu_to_device
                   <| Proto.s_raised_hands :=
                        Some (Proto.raised_hands demux_ids seqnums
                                (Some (seqnum_of self (Client.demux_id client)))) |> in
               r ← encode_to_client update client;
               Ok (one r))
            (clients self);
        Ok (self <| Call.clients := clients |> <| raised_hands_sent := now |>, out)
    end
  else Ok (self, []).

Fixpoint encode_all (updates : list Proto.SfuToDevice) (client : Client.t)
    : Res Error (Client.t * list RtpToSend) :=
  match updates with
  | [] => Ok (client, [])
  | u :: rest =>
      '(client, out) ← encode_to_client u client;
      '(client, outs) ← encode_all rest client;
      Ok (client, out :: outs)
  end.

Definition send_mrp_updates (self : t) (now : Z) : Res Error (t * list RtpToSend) :=
  '(clients, out) ←
    send_to_all
      (fun client =>
         let '(stream, header) := mrp_try_send_ack (Client.reliable_mrp_stream client) in
         let client := client <| Client.reliable_mrp_stream := stream |> in
         '(client, acks) ←
           encode_all
             (match header with
              | Some header => [Proto.default_sfu_to_device <| Proto.s_mrp_header := Some header |>]
              | None => []
              end) client;
         let '(stream, resent) := mrp_try_resend (Client.reliable_mrp_stream client) now in
         let client := client <| Client.reliable_mrp_stream := stream |> in
         '(client, resends) ← encode_all resent client;
         Ok (client, acks ++ resends))
      (clients self);
  Ok (self <| Call.clients := clients |>, out).

(** ** The active speaker *)

Fixpoint most_active_of (most_active : Client.t) (contenders : list Client.t) : Res Error Client.t :=
  match contenders with
  | [] => Ok most_active
  | contender :: rest =>
      better ←
        (if Client.demux_id contender =? Client.demux_id most_active then Ok false
         else no_err (LevelsTracker.more_active_than_most_active
                        (Client.incoming_audio_levels contender)
                        (Client.incoming_audio_levels most_active)));
      most_active_of (if (better : bool) then contender else most_active) rest
  end.

Definition calculate_active_speaker (self : t) (now : Z) : Res Error (t * option DemuxId.t) :=
  match clients self with
  | [] => Ok (self, None)
  | first :: _ =>
      let most_active :=
        default first (d ← active_speaker_id self; find_client self d) in
      most_active ← most_active_of most_active (clients self);
      let most_active_demux_id := Client.demux_id most_active in
      if bool_decide (active_speaker_id self = Some most_active_demux_id) then Ok (self, None)
      else
        _ ← unwrap (find_client self most_active_demux_id);
        let self :=
          modify_client most_active_demux_id
            (fun c => c <| Client.became_active_speaker := Some now |>) self in
        Ok (self <| active_speaker_id := Some most_active_demux_id |>, Some most_active_demux_id)
  end.

(** ** Key frame requests *)

Definition incoming_video_height (self : t) (ssrc : Z) : Res Error (option Z) :=
  demux_id ← DemuxId.from_ssrc ssrc;
  Ok (client ← find_client self demux_id;
      layer ← LayerId.from_ssrc ssrc;
      match layer with
      | LayerId.Video0 => IncomingVideoState.height (Client.incoming_video0 client)
      | LayerId.Video1 => IncomingVideoState.height (Client.incoming_video1 client)
      | LayerId.Video2 => IncomingVideoState.height (Client.incoming_video2 client)
      | LayerId.Audio | LayerId.RtpData => None
      end).

Definition desired_incoming_ssrcs (self : t) : gset Z :=
  list_to_set (mjoin (map (fun receiver =>
    omap (fun e : DemuxId.t * Vp8SimulcastRtpForwarder.t => Vp8SimulcastRtpForwarder.needs_key_frame e.2)
      (map_to_list (Client.video_forwarder_by_sender_demux_id receiver))) (clients self))).

(** The closure of [filter_map] for one SSRC. *)
Definition request_key_frame (self : t) (now : Z) (desired_incoming_ssrc : Z)
    : Res Error (t * list KeyFrameRequestToSend) :=
  let sent := key_frame_request_sent_by_ssrc self !! desired_incoming_ssrc in
  let within interval := match sent with Some s => now <? s + interval | None => false end in
  if within KEY_FRAME_REQUEST_RESEND_INTERVAL then Ok (self, [])
  else
    video_height ← incoming_video_height self desired_incoming_ssrc;
    if (720 <? unwrap_or video_height 0) && within HIGH_RES_KEY_FRAME_REQUEST_RESEND_INTERVAL
    then Ok (self, [])
    else
      demux_id ← DemuxId.from_ssrc desired_incoming_ssrc;
      Ok (self <| key_frame_request_sent_by_ssrc ::= insert desired_incoming_ssrc now |>,
          [(demux_id, desired_incoming_ssrc)]).

Fixpoint request_key_frames (self : t) (now : Z) (ssrcs : list Z)
    : Res Error (t * list KeyFrameRequestToSend) :=
  match ssrcs with
  | [] => Ok (self, [])
  | ssrc :: rest =>
      '(self, out) ← request_key_frame self now ssrc;
      '(self, outs) ← request_key_frames self now rest;
      Ok (self, out ++ outs)
  end.

Definition send_key_frame_requests_if_its_been_too_long (self : t) (now : Z)
    : Res Error (t * list KeyFrameRequestToSend) :=
  if now <? key_frame_requests_sent self + KEY_FRAME_REQUEST_CALCULATION_INTERVAL
  then Ok (self, [])
  else
    '(self, out) ← request_key_frames self now (elements (desired_incoming_ssrcs self));
    Ok (self <| key_frame_requests_sent := now |>, out).

(** [key_frame_requests] are the SSRCs requested. *)
Definition mark_needs_key_frame (requester : Client.t) (key_frame_requests : list Z) : Client.t :=
  fold_left
    (fun requester ssrc =>
       requester <| Client.video_forwarder_by_sender_demux_id ::=
         alter Vp8SimulcastRtpForwarder.set_needs_key_frame (DemuxId.of_ssrc ssrc) |>)
    key_frame_requests requester.

Definition handle_key_frame_requests (self : t) (requester_id : DemuxId.t)
    (key_frame_requests : list Z) (now : Z) : Res Error (t * list KeyFrameRequestToSend) :=
  match find_client self requester_id with
  | None => Ok (self, [])
  | Some _ =>
      let self :=
        modify_client requester_id (fun c => mark_needs_key_frame c key_frame_requests) self in
      send_key_frame_requests_if_its_been_too_long self now
  end.

(** ** Rates from congestion control *)

Definition set_target_send_rate (self : t) (receiver_demux_id : DemuxId.t)
    (new_target_send_rate now : Z) : t * Res Error unit :=
  match find_client self receiver_demux_id with
  | None => (self, Err (UnknownDemuxId receiver_demux_id))
  | Some _ =>
      (modify_client receiver_demux_id
         (fun r =>
            let r := r <| Client.target_send_rate := new_target_send_rate |> in
            if Client.next_min_target_generation_update_time r <? now then
              r <| Client.old_generation_min_target_send_rate :=
                     Client.current_generation_min_target_send_rate r |>
                <| Client.current_generation_min_target_send_rate := new_target_send_rate |>
                <| Client.next_min_target_generation_update_time :=
                     now + MIN_TARGET_SEND_RATE_GENERATION_INTERVAL |>
            else if new_target_send_rate <? Client.current_generation_min_target_send_rate r then
              r <| Client.current_generation_min_target_send_rate := new_target_send_rate |>
            else r) self,
       Ok tt)
  end.

Definition set_outgoing_queue_drain_rate (self : t) (receiver_demux_id : DemuxId.t)
    (outgoing_queue_drain_rate : Z) : t * Res Error unit :=
  match find_client self receiver_demux_id with
  | None => (self, Err (UnknownDemuxId receiver_demux_id))
  | Some _ =>
      (modify_client receiver_demux_id
         (fun r => r <| Client.outgoing_queue_drain_rate := outgoing_queue_drain_rate |>) self, Ok tt)
  end.

Definition set_connection_rates (self : t) (receiver_demux_id : DemuxId.t)
    (connection_rates : ConnectionRates) : t * Res Error unit :=
  match find_client self receiver_demux_id with
  | None => (self, Err (UnknownDemuxId receiver_demux_id))
  | Some _ =>
      (modify_client receiver_demux_id
         (fun r => r <| Client.connection_rates := connection_rates |>) self, Ok tt)
  end.

Record SendRateAllocationInfo := info {
  i_demux_id : DemuxId.t;
  i_padding_ssrc : option Z;
  i_target_send_rate : Z;
  i_requested_base_rate : Z;
  i_ideal_send_rate : Z
}.

Definition get_send_rate_allocation_info (self : t) : list SendRateAllocationInfo :=
  map (fun c => info (Client.demux_id c) (Client.padding_ssrc c) (Client.target_send_rate c)
                  (Client.requested_base_rate c) (Client.ideal_send_rate c)) (clients self).

Definition get_client_ids (self : t) : list (DemuxId.t * UserId) :=
  map (fun c => (Client.demux_id c, Client.user_id c)) (clients self).

Definition get_pending_client_ids (self : t) (include_user_ids : bool)
    : list (DemuxId.t * option UserId) :=
  map (fun c => (NonParticipantClient.demux_id c,
                 if include_user_ids then Some (NonParticipantClient.user_id c) else None))
      (pending_clients self).

(** ** Messages from the clients *)

Definition requested_heights (requests : list Proto.VideoRequest) : gmap DemuxId.t Z :=
  fold_left
    (fun m request =>
       match Proto.height request, Proto.demux_id request with
       | Some raw_height, Some raw_demux_id =>
           match DemuxId.try_from raw_demux_id with
           | Ok demux_id => <[demux_id := u16 raw_height]> m
           | _ => m
           end
       | _, _ => m
       end) requests ∅.

Definition apply_video_request (default_requested_max_send_rate : Z)
    (request : Proto.VideoRequestMessage) (sender : Client.t) : Client.t :=
  sender <| Client.requested_height_by_demux_id := requested_heights (Proto.requests request) |>
         <| Client.requested_max_send_rate :=
              unwrap_or (DataRate.from_kbps <$> Proto.max_kbps request)
                default_requested_max_send_rate |>
         <| Client.active_speaker_height :=
              unwrap_or (u16 <$> Proto.active_speaker_height request) 0 |>
         <| Client.video_request_proto := Some request |>.

Definition handle_video_request (self : t) (sender : Client.t)
    (video_request : option Proto.VideoRequestMessage) (now : Z) : Res Error t :=
  if bool_decide (video_request = Client.video_request_proto sender) then Ok self
  else
    match video_request with
    | None => Ok self
    | Some request =>
        let sender_demux_id := Client.demux_id sender in
        let self :=
          modify_client sender_demux_id
            (apply_video_request (default_requested_max_send_rate self) request) self in
        allocate_video_layers self sender_demux_id (Client.target_send_rate sender)
          (Client.min_target_send_rate sender) now
    end.

(** One list of admin actions; an action without a valid target is skipped. *)
Fixpoint handle_actions (f : t -> DemuxId.t -> Z -> Res Error t) (self : t)
    (actions : list (option Z)) (now : Z) : Res Error t :=
  match actions with
  | [] => Ok self
  | action :: rest =>
      self ←
        match action with
        | Some target =>
            match DemuxId.try_from target with
            | Ok demux_id => f self demux_id now
            | _ => Ok self
            end
        | None => Ok self
        end;
      handle_actions f self rest now
  end.

Definition handle_admin_actions (self : t) (proto : Proto.DeviceToSfu) (now : Z) : Res Error t :=
  self ← handle_actions approve_pending_client self (Proto.d_approve proto) now;
  self ← handle_actions (fun self d now => Ok (deny_pending_client self d now)) self
           (Proto.d_deny proto) now;
  self ← handle_actions force_remove_client self (Proto.d_remove proto) now;
  handle_actions block_client self (Proto.d_block proto) now.

(** One message: [None] when the sender is no longer a client. *)
Definition handle_ready_proto (self : t) (proto : Proto.DeviceToSfu) (sender_demux_id : DemuxId.t)
    (now : Z) : Res Error (option t) :=
  match find_client self sender_demux_id with
  | None => Ok None
  | Some sender =>
      let sender_is_admin := Client.is_admin sender in
      self ← handle_video_request self sender (Proto.d_video_request proto) now;
      self ← (if sender_is_admin then handle_admin_actions self proto now else Ok self);
      Ok (Some (match Proto.d_raise_hand proto with
                | Some raise_hand => handle_raise_hand self now raise_hand sender_demux_id
                | None => self
                end))
  end.

Fixpoint handle_ready_protos (self : t) (protos : list Proto.DeviceToSfu)
    (sender_demux_id : DemuxId.t) (now : Z) : Res Error (t * Outcome) :=
  match protos with
  | [] => Ok (self, Ok [])
  | proto :: rest =>
      o ← handle_ready_proto self proto sender_demux_id now;
      match o with
      | None => Ok (self, Err (UnknownDemuxId sender_demux_id))
      | Some self => handle_ready_protos self rest sender_demux_id now
      end
  end.

Definition handle_device_to_sfu (self : t) (proto : Proto.DeviceToSfu)
    (sender_demux_id : DemuxId.t) (now : Z) : Res Error (t * Outcome) :=
  if Proto.d_leave proto then
    self ← drop_client self sender_demux_id now;
    Ok (self, Err Leave)
  else
    match find_client self sender_demux_id with
    | None => Ok (self, Err (UnknownDemuxId sender_demux_id))
    | Some sender =>
        match Proto.d_mrp_header proto with
        | None => handle_ready_protos self [proto] sender_demux_id now
        | Some header =>
            let '(stream, result) := mrp_receive (Client.reliable_mrp_stream sender) header proto in
            let self :=
              modify_client sender_demux_id
                (fun c => c <| Client.reliable_mrp_stream := stream |>) self in
            match result with
            | inr ready_protos => handle_ready_protos self ready_protos sender_demux_id now
            | inl e => Ok (self, Err (InvalidMrpHeader e))
            end
        end
    end.

(** ** Media *)

Definition forward_to (layer_id : LayerId.t) (incoming_rtp : Packet.t)
    (incoming_vp8 : option VideoHeader.t) (receiver : Client.t)
    : Res Error (Client.t * option Packet.t) :=
  match layer_id with
  | LayerId.Audio =>
      let is_silence := bool_decide (Packet.audio_level incoming_rtp = Some 0) in
      if is_silence then Ok (receiver, None) else Client.forward_audio_rtp receiver incoming_rtp
  | LayerId.RtpData => Client.forward_data_rtp receiver incoming_rtp
  | LayerId.Video0 | LayerId.Video1 | LayerId.Video2 =>
      Client.forward_video_rtp receiver incoming_rtp incoming_vp8
  end.

Definition forward_to_receiver (sender_demux_id : DemuxId.t) (layer_id : LayerId.t)
    (incoming_rtp : Packet.t) (incoming_vp8 : option VideoHeader.t) (receiver : Client.t)
    : Res Error (Client.t * list RtpToSend) :=
  if Client.demux_id receiver =? sender_demux_id then Ok (receiver, [])
  else
    '(receiver, out) ← forward_to layer_id incoming_rtp incoming_vp8 receiver;
    Ok (receiver, match out with
                  | Some rtp_to_forward => [(Client.demux_id receiver, rtp_to_forward)]
                  | None => []
                  end).

(** The part of [handle_media_rtp] after the VP8 header. *)
Definition forward_media (self : t) (sender_demux_id : DemuxId.t) (incoming_rtp : Packet.t)
    (incoming_vp8 : option VideoHeader.t) : Res Error (t * Outcome) :=
  let self :=
    match Packet.audio_level incoming_rtp with
    | Some audio_level =>
        modify_client sender_demux_id
          (fun c => c <| Client.incoming_audio_levels ::=
                           fun l => LevelsTracker.push l audio_level |>) self
    | None => self
    end in
  match LayerId.from_ssrc (Packet.ssrc incoming_rtp) with
  | None => Ok (self, Err InvalidRtpLayerId)
  | Some layer_id =>
      '(clients, out) ←
        send_to_all (forward_to_receiver sender_demux_id layer_id incoming_rtp incoming_vp8)
          (clients self);
      Ok (self <| Call.clients := clients |>, Ok out)
  end.

Definition handle_media_rtp (self : t) (sender_demux_id : DemuxId.t) (incoming_rtp : Packet.t)
    (now : Z) : Res Error (t * Outcome) :=
  match find_client self sender_demux_id with
  | None => Ok (self, Err (UnknownDemuxId sender_demux_id))
  | Some sender =>
      authorized_sender_demux_id ← DemuxId.from_ssrc (Packet.ssrc incoming_rtp);
      if negb (authorized_sender_demux_id =? sender_demux_id) then
        Ok (self, Err (UnauthorizedRtpSsrc authorized_sender_demux_id sender_demux_id))
      else if Packet.is_vp8 incoming_rtp then
        match Client.parse_vp8_header_and_update_incoming_video_rate_and_resolution sender
                incoming_rtp now with
        | Ok (sender, incoming_vp8) =>
            let self := modify_client sender_demux_id (fun _ => sender) self in
            match incoming_vp8 with
            | Some incoming_vp8 =>
                forward_media self sender_demux_id incoming_rtp (Some incoming_vp8)
            | None => Ok (self, Ok [])
            end
        | Err e => Ok (self, Err e)
        | Panic => Panic
        end
      else forward_media self sender_demux_id incoming_rtp None
  end.

Definition handle_rtp (self : t) (sender_demux_id : DemuxId.t) (incoming_rtp : Packet.t) (now : Z)
    : Res Error (t * Outcome) :=
  if (Packet.ssrc incoming_rtp =? CLIENT_SERVER_DATA_SSRC)
     && (Packet.payload_type incoming_rtp =? CLIENT_SERVER_DATA_PAYLOAD_TYPE) then
    payload ← Packet.payload incoming_rtp;
    match decode payload with
    | None => Ok (self, Err InvalidClientToServerProtobuf)
    | Some proto => handle_device_to_sfu self proto sender_demux_id now
    end
  else handle_media_rtp self sender_demux_id incoming_rtp now.

(** ** The tick *)

Definition update_rates (now : Z) (sender : Client.t) : Client.t :=
  let update v :=
    v <| IncomingVideoState.rate_tracker ::= fun r => DataRateTracker.update r now |> in
  sender <| Client.incoming_video0 ::= update |> <| Client.incoming_video1 ::= update |>
         <| Client.incoming_video2 ::= update |>.

(** [map(..).max().unwrap_or(0)] of heights, which are not negative *)
Definition max_requested_active_speaker_height (self : t) (active_speaker_id : DemuxId.t) : Z :=
  fold_left Z.max
    (map Client.active_speaker_height
       (List.filter (fun c => negb (Client.demux_id c =? active_speaker_id)) (clients self))) 0.

(** The requests for the higher layers of a new active speaker. *)
Definition active_speaker_requests (self : t) (new_active_speaker : option DemuxId.t)
    : Res Error (list KeyFrameRequestToSend) :=
  match new_active_speaker with
  | None => Ok []
  | Some active_speaker_id =>
      active_speaker ← unwrap (find_client self active_speaker_id);
      match IncomingVideoState.height (Client.incoming_video0 active_speaker) with
      | Some layer0_height =>
          Ok (if layer0_height <? max_requested_active_speaker_height self active_speaker_id then
                [(active_speaker_id, LayerId.to_ssrc LayerId.Video1 active_speaker_id);
                 (active_speaker_id, LayerId.to_ssrc LayerId.Video2 active_speaker_id)]
              else [])
      | None => Ok []
      end
  end.

Definition tick (self : t) (now : Z) (outcome : option ApprovedUsers.Outcome) (runtime : bool)
    : Res Error (t * list RtpToSend * list KeyFrameRequestToSend) :=
  let self := self <| approved_users ::= fun a => ApprovedUsers.tick a outcome runtime |> in
  let self := self <| Call.clients ::= map (update_rates now) |> in
  '(self, new_active_speaker) ←
    (if active_speaker_calculated self + ACTIVE_SPEAKER_CALCULATION_INTERVAL <? now
     then calculate_active_speaker (self <| active_speaker_calculated := now |>) now
     else Ok (self, None));
  let client_was_added_or_removed := clients_update_sent self <? client_added_or_removed self in
  let self := if client_was_added_or_removed then self <| clients_update_sent := now |> else self in
  self ← reallocate_target_send_rates_if_its_been_too_long self now;
  '(self, out1) ←
    send_update_proto_to_participating_clients self client_was_added_or_removed
      (bool_decide (is_Some new_active_speaker)) now;
  '(self, out2) ← send_update_proto_to_pending_clients self client_was_added_or_removed;
  '(self, out3) ← send_update_proto_to_removed_clients self now;
  '(self, out4) ← send_raised_hands_proto_to_clients self now;
  '(self, key_frame_requests) ← send_key_frame_requests_if_its_been_too_long self now;
  more ← active_speaker_requests self new_active_speaker;
  '(self, out5) ← send_mrp_updates self now;
  Ok (self, out1 ++ out2 ++ out3 ++ out4 ++ out5, key_frame_requests ++ more).

End Handlers.
End Handlers.
