(* ===== verification/CallSpec.v ===== *)
(** * CallSpec: what a call promises about its members

    An abstract specification of membership: who participates (and on which SSRC
    padding is sent to them), who waits for approval, who was removed and has
    not left yet, and which users are approved, denied and blocked.  [CallFacts]
    shows that every operation of [Call] and [Handlers] implements it. *)
From stdpp Require Import strings.
From S2P Require Import Prelude Bytes Layers ApprovedUsers Client Call.

Module Spec.

Record Member := member { m_demux : DemuxId.t; m_user : UserId; m_admin : bool }.

#[global] Instance Member_eq_dec : EqDecision Member.
Proof. solve_decision. Defined.

Record State := state {
  participants : list (Member * option Z);
  pending : list Member;
  removed : list Member;
  approved : gset UserId;
  denied : gset UserId;
  blocked : gset UserId;
  require_approval : bool;
  persist_approval : bool
}.

#[global] Instance State_eta : Settable State := fun s =>
  state (participants s) (pending s) (removed s) (approved s) (denied s) (blocked s)
        (require_approval s) (persist_approval s).

(** The SSRC padding is sent on: the RTX SSRC of the base video layer of the first
    participant, or of the second for the first; none for a lone participant. *)
Definition padding_of (d : DemuxId.t) : option Z := Some (LayerId.to_rtx_ssrc LayerId.Video0 d).

Definition assign_padding (l : list (Member * option Z)) : list (Member * option Z) :=
  match l with
  | [] => []
  | [lonely] => [(lonely.1, None)]
  | first :: second :: rest =>
      (first.1, padding_of (m_demux second.1)) :: (second.1, padding_of (m_demux first.1))
      :: map (fun e => (e.1, padding_of (m_demux first.1))) rest
  end.

Definition is_member (d : DemuxId.t) (m : Member) : bool := m_demux m =? d.
Definition of_user (u : UserId) (m : Member) : bool := bool_decide (m_user m = u).

Definition join (s : State) (m : Member) : State :=
  s <| participants ::= fun l => assign_padding (l ++ [(m, None)]) |>.

Definition add (s : State) (m : Member) : State * Call.ClientStatus :=
  if bool_decide (m_user m ∈ blocked s) then (s <| removed ::= fun l => l ++ [m] |>, Call.Blocked)
  else if m_admin m || negb (require_approval s) || bool_decide (m_user m ∈ approved s) then
    let s := if persist_approval s then s <| approved ::= fun a => {[m_user m]} ∪ a |> else s in
    (join s m, Call.Active)
  else (s <| pending ::= fun l => l ++ [m] |>, Call.Pending).

Definition approve (s : State) (d : DemuxId.t) : State :=
  match find (is_member d) (pending s) with
  | None => s
  | Some m =>
      let u := m_user m in
      let s' := s <| pending ::= List.filter (fun m => negb (of_user u m)) |> in
      fold_left join (List.filter (of_user u) (pending s)) s'
        <| denied ::= fun x => x ∖ {[u]} |> <| approved ::= fun x => {[u]} ∪ x |>
  end.

Definition deny (s : State) (d : DemuxId.t) : State :=
  match find (is_member d) (pending s) with
  | None => s
  | Some m =>
      let u := m_user m in
      let s' :=
        s <| pending ::= List.filter (fun m => negb (of_user u m)) |>
          <| removed ::= fun l => l ++ List.filter (of_user u) (pending s) |>
          <| denied ::= fun x => {[u]} ∪ x |> in
      if bool_decide (u ∈ denied s) then s' <| blocked ::= fun x => {[u]} ∪ x |> else s'
  end.

(** The participant with an ID, and the state without it. *)
Definition leave (s : State) (d : DemuxId.t) : option (Member * State) :=
  match Call.swap_remove (fun e : Member * option Z => is_member d e.1) (participants s) with
  | None => None
  | Some (e, rest) => Some (e.1, s <| participants := assign_padding rest |>)
  end.

Definition drop (s : State) (d : DemuxId.t) : State :=
  match leave s d with
  | Some (_, s) => s
  | None =>
      match Call.swap_remove (is_member d) (pending s) with
      | Some (_, rest) => s <| pending := rest |>
      | None =>
          match Call.swap_remove (is_member d) (removed s) with
          | Some (_, rest) => s <| removed := rest |>
          | None => s
          end
      end
  end.

(** Approval is revoked with the user's last device. *)
Definition force_remove (s : State) (d : DemuxId.t) : State :=
  match leave s d with
  | None => s
  | Some (m, s) =>
      let s :=
        if existsb (fun e => of_user (m_user m) e.1) (participants s) then s
        else s <| approved ::= fun x => x ∖ {[m_user m]} |> in
      s <| removed ::= fun l => l ++ [m] |>
  end.

Definition block (s : State) (d : DemuxId.t) : State :=
  match find (fun e => is_member d e.1) (participants s) with
  | None => s
  | Some e =>
      let u := m_user e.1 in
      s <| participants ::= fun l => assign_padding (List.filter (fun e => negb (of_user u e.1)) l) |>
        <| removed ::= fun l =>
             l ++ map fst (List.filter (fun e => of_user u e.1) (participants s)) |>
        <| approved ::= fun x => x ∖ {[u]} |>
        <| blocked ::= fun x => {[u]} ∪ x |>
  end.

(** A list of admin actions on optional targets. *)
Definition act (f : State -> DemuxId.t -> State) (s : State) (target : option Z) : State :=
  match target with
  | Some raw => match DemuxId.try_from raw with Ok d => f s d | _ => s end
  | None => s
  end.

Definition admin_actions (s : State) (proto : Proto.DeviceToSfu) : State :=
  let s := fold_left (act approve) (Proto.d_approve proto) s in
  let s := fold_left (act deny) (Proto.d_deny proto) s in
  let s := fold_left (act force_remove) (Proto.d_remove proto) s in
  fold_left (act block) (Proto.d_block proto) s.

Definition find_participant (s : State) (d : DemuxId.t) : option Member :=
  fst <$> find (fun e => is_member d e.1) (participants s).

(** A message of a participant: only an admin's actions count. *)
Definition message (s : State) (sender : DemuxId.t) (proto : Proto.DeviceToSfu) : State :=
  match find_participant s sender with
  | Some m => if m_admin m then admin_actions s proto else s
  | None => s
  end.

(** All demux IDs in use. *)
Definition demux_ids (s : State) : list DemuxId.t :=
  map m_demux (map fst (participants s) ++ pending s ++ removed s).

End Spec.

(** * Theorems *)

Module SpecFacts.
Import Spec.

Definition members (s : State) : list Member := map fst (participants s).

Lemma fst_assign_padding l : map fst (assign_padding l) = map fst l.
Proof.
  destruct l as [|x [|y l]]; simpl; [done..|]. do 2 f_equal. rewrite map_map. by apply map_ext.
Qed.

Lemma assign_padding_idem l : assign_padding (assign_padding l) = assign_padding l.
Proof.
  destruct l as [|x [|y l]]; simpl; [done..|]. do 2 f_equal. rewrite map_map. by apply map_ext.
Qed.

Lemma members_join s m : members (join s m) = members s ++ [m].
Proof. unfold members, join. simpl. by rewrite fst_assign_padding, map_app. Qed.

Lemma members_joins l : forall s, members (fold_left join l s) = members s ++ l.
Proof.
  induction l as [|m l IH]; intros s; simpl; [by rewrite app_nil_r|].
  by rewrite IH, members_join, <- app_assoc.
Qed.

(** Joining changes the participants only. *)
Lemma join_rest s m :
  pending (join s m) = pending s /\ removed (join s m) = removed s /\
  approved (join s m) = approved s /\ denied (join s m) = denied s /\
  blocked (join s m) = blocked s /\ require_approval (join s m) = require_approval s.
Proof. done. Qed.

Lemma joins_rest l : forall s,
  pending (fold_left join l s) = pending s /\ removed (fold_left join l s) = removed s /\
  approved (fold_left join l s) = approved s /\ denied (fold_left join l s) = denied s /\
  blocked (fold_left join l s) = blocked s /\
  require_approval (fold_left join l s) = require_approval s.
Proof.
  induction l as [|m l IH]; intros s; simpl; [done|].
  destruct (IH (join s m)) as (-> & -> & -> & -> & -> & ->). done.
Qed.

Lemma joins_padding l : forall s,
  participants s = assign_padding (participants s) ->
  participants (fold_left join l s) = assign_padding (participants (fold_left join l s)).
Proof.
  induction l as [|m l IH]; intros s Hs; simpl; [done|].
  apply IH. unfold join. simpl. by rewrite assign_padding_idem.
Qed.

Lemma list_find_Some_perm {A} (p : A -> bool) (l : list A) i x :
  list_find p l = Some (i, x) -> l !! i = Some x /\ p x = true.
Proof. intros (Hi & Hp & _)%list_find_Some. split; [done|]. by apply Is_true_true. Qed.

Lemma swap_remove_perm {A} (p : A -> bool) (l : list A) x rest :
  Call.swap_remove p l = Some (x, rest) -> p x = true /\ l ≡ₚ x :: rest.
Proof.
  unfold Call.swap_remove. destruct (list_find p l) as [[i y]|] eqn:Hf; [|done].
  apply list_find_Some_perm in Hf as [Hi Hp].
  intros [= <- <-]. split; [done|].
  assert (l ≠ []) as Hne by (intros ->; by destruct i).
  destruct (exists_last Hne) as (l' & z & ->). rewrite last_snoc, length_app. simpl.
  replace (length l' + 1 - 1)%nat with (length l') by lia.
  destruct (decide (i = length l')) as [->|Hl].
  - rewrite list_lookup_middle in Hi by done. injection Hi as <-.
    rewrite insert_app_r_alt by lia. rewrite Nat.sub_diag. simpl.
    rewrite take_app_length. by rewrite Permutation_app_comm.
  - assert (i < length l')%nat as Hlt.
    { apply lookup_lt_Some in Hi. rewrite length_app in Hi. simpl in Hi. lia. }
    rewrite lookup_app_l in Hi by done. rewrite insert_app_l by done.
    rewrite take_app_length' by (by rewrite length_insert).
    rewrite Permutation_app_comm. simpl.
    rewrite <- (take_drop_middle l' i y) at 1 by done.
    rewrite (insert_take_drop l' i z) by done. rewrite !Permutation_middle.
    rewrite (Permutation_swap z y). by rewrite <- !Permutation_middle.
Qed.

Lemma filter_perm {A} (p : A -> bool) (l : list A) :
  List.filter p l ++ List.filter (fun x => negb (p x)) l ≡ₚ l.
Proof.
  induction l as [|x l IH]; simpl; [done|]. destruct (p x); simpl.
  - by constructor.
  - rewrite <- Permutation_middle. by constructor.
Qed.

(** ** The invariant

    [bits u b]: a device of user [u] may join with admin bit [b].  Whether a device
    joins as an admin is up to the request, so that a user may have devices of
    both kinds; what the code promises then is less. *)
Definition steady (bits : UserId -> bool -> Prop) (u : UserId) : Prop := forall a b, bits u a -> bits u b -> a = b.

Record inv (bits : UserId -> bool -> Prop) (s : State) : Prop := {
  inv_demux : NoDup (demux_ids s);
  inv_admin : forall m, m ∈ members s ++ pending s -> bits (m_user m) (m_admin m);
  inv_pending : forall m, m ∈ pending s -> m_admin m = false /\ require_approval s = true;
  inv_unapproved : forall m, m ∈ pending s -> steady bits (m_user m) -> m_user m ∉ approved s;
  inv_approved : forall m, m ∈ members s -> m_admin m = false -> require_approval s = true ->
    m_user m ∈ approved s;
  inv_blocked : forall m, m ∈ members s ++ pending s -> steady bits (m_user m) -> m_user m ∉ blocked s;
  inv_padding : participants s = assign_padding (participants s)
}.

Lemma demux_ids_members s :
  demux_ids s = map m_demux (members s) ++ map m_demux (pending s) ++ map m_demux (removed s).
Proof. unfold demux_ids, members. by rewrite !map_app. Qed.

(** The state after members have moved between the lists. *)
Lemma demux_perm s s' l :
  members s' ++ pending s' ++ removed s' ≡ₚ l -> l ≡ₚ members s ++ pending s ++ removed s ->
  NoDup (demux_ids s) -> NoDup (demux_ids s').
Proof.
  unfold demux_ids. intros P1 P2 N. fold (members s) in N. fold (members s').
  assert (map m_demux (members s' ++ pending s' ++ removed s') ≡ₚ
          map m_demux (members s ++ pending s ++ removed s)) as ->; [|done].
  apply Permutation_map. by rewrite P1.
Qed.

Lemma filter_elem {A} (p : A -> bool) (l : list A) x :
  x ∈ List.filter p l <-> x ∈ l /\ p x = true.
Proof. rewrite !list_elem_of_In. apply filter_In. Qed.

Lemma filter_all {A} (p : A -> bool) (l : list A) :
  (forall x, x ∈ l -> p x = true) -> List.filter p l = l.
Proof.
  induction l as [|x l IH]; intros Hp; simpl; [done|]. rewrite Hp by (by left).
  f_equal. apply IH. intros y Hy. apply Hp. by right.
Qed.

Lemma filter_fst {A B} (p : A -> bool) (l : list (A * B)) :
  map fst (List.filter (fun e => p e.1) l) = List.filter p (map fst l).
Proof. induction l as [|x l IH]; simpl; [done|]. destruct (p x.1); simpl; by rewrite IH. Qed.

Lemma of_user_true u m : of_user u m = true <-> m_user m = u.
Proof. apply bool_decide_eq_true. Qed.

Lemma of_user_false u m : negb (of_user u m) = true <-> m_user m ≠ u.
Proof. rewrite negb_true_iff. apply bool_decide_eq_false. Qed.

Lemma find_elem {A} (p : A -> bool) (l : list A) x : find p l = Some x -> x ∈ l /\ p x = true.
Proof. intros Hf%find_some. by rewrite list_elem_of_In. Qed.

Lemma inv_join bits s m :
  inv bits s -> m_demux m ∉ demux_ids s -> bits (m_user m) (m_admin m) ->
  m_user m ∉ blocked s ->
  (m_admin m = false -> require_approval s = true -> m_user m ∈ approved s) ->
  inv bits (join s m).
Proof.
  intros [I1 I2 I3 I7 I4 I5 I6] Hd Ha Hb Hp. pose proof (join_rest s m) as (E1 & E2 & E3 & E4 & E5 & E6).
  assert (forall x, x ∈ members (join s m) -> x ∈ members s \/ x = m) as Hm.
  { intros x. rewrite members_join, elem_of_app, list_elem_of_singleton. done. }
  assert (forall x, x ∈ members (join s m) ++ pending s -> x ∈ members s ++ pending s \/ x = m) as Hmp.
  { intros x. rewrite !elem_of_app. intros [Hx|]; [|by auto]. destruct (Hm x Hx); auto. }
  split; rewrite ?E1, ?E3, ?E5, ?E6.
  - rewrite demux_ids_members, members_join, E1, E2, map_app.
    rewrite demux_ids_members in I1, Hd.
    rewrite <- app_assoc, (Permutation_app_comm _ (map m_demux [m] ++ _)), <- app_assoc.
    simpl. constructor; [|by rewrite Permutation_app_comm].
    rewrite Permutation_app_comm. done.
  - intros x Hx. destruct (Hmp x Hx) as [| ->]; [by apply I2|done].
  - done.
  - done.
  - intros x Hx. destruct (Hm x Hx) as [| ->]; [by apply I4|done].
  - intros x Hx. destruct (Hmp x Hx) as [| ->]; [by apply I5|done].
  - unfold join. simpl. by rewrite assign_padding_idem.
Qed.

Lemma inv_add bits s m :
  inv bits s -> m_demux m ∉ demux_ids s -> bits (m_user m) (m_admin m) ->
  inv bits (add s m).1.
Proof.
  intros I Hd Ha. unfold add. case_bool_decide as Hb.
  { destruct I as [I1 I2 I3 I7 I4 I5 I6]. split; try done. simpl. unfold demux_ids in *. simpl.
    rewrite !app_assoc, map_app. apply NoDup_app. split; [by rewrite <- !app_assoc|].
    rewrite <- !app_assoc. split; [|apply NoDup_singleton].
    intros d Hd' Hs. apply list_elem_of_singleton in Hs as ->. done. }
  destruct (m_admin m || negb (require_approval s) || bool_decide (m_user m ∈ approved s)) eqn:J.
  - assert (m_admin m = false -> require_approval s = true -> m_user m ∈ approved s) as Hp.
    { intros E1 E2. rewrite E1, E2 in J. simpl in J. by apply bool_decide_eq_true in J. }
    simpl. destruct (persist_approval s); [|by apply inv_join].
    apply inv_join; try done; [|simpl; set_solver].
    destruct I as [I1 I2 I3 I7 I4 I5 I6]. split; try done; simpl.
    + intros x Hx Hs. destruct (I3 x Hx) as (Ex & Rx). pose proof (I7 x Hx Hs) as Nx.
      rewrite not_elem_of_union, not_elem_of_singleton. split; [|done]. intros Eu.
      assert (m_admin m = false) as Em.
      { rewrite <- Ex. apply Hs; [by rewrite Eu|]. apply I2, elem_of_app. by right. }
      apply Nx. rewrite Eu. by apply Hp.
    + intros x Hx E1 E2. specialize (I4 x Hx E1 E2). set_solver.
  - boolsplit. apply bool_decide_eq_false in H0. destruct I as [I1 I2 I3 I7 I4 I5 I6].
    split; try done; simpl.
    + unfold demux_ids in *. simpl.
      rewrite <- app_assoc, (Permutation_app_comm [m]). rewrite !app_assoc, map_app.
      apply NoDup_app. split; [by rewrite <- !app_assoc|]. rewrite <- !app_assoc.
      split; [|apply NoDup_singleton].
      intros d Hd' Hs. apply list_elem_of_singleton in Hs as ->. done.
    + intros x. unfold members. simpl. rewrite !elem_of_app, list_elem_of_singleton.
      intros [Hx|[Hx| ->]]; [apply I2; set_solver..|done].
    + intros x. rewrite elem_of_app, list_elem_of_singleton. intros [Hx| ->]; [by apply I3|done].
    + intros x. rewrite elem_of_app, list_elem_of_singleton. intros [Hx| ->]; [by apply I7|done].
    + intros x. unfold members. simpl. rewrite !elem_of_app, list_elem_of_singleton.
      intros [Hx|[Hx| ->]]; [apply I5; set_solver..|done].
Qed.

Lemma inv_approve bits s d : inv bits s -> inv bits (approve s d).
Proof.
  intros I. unfold approve. destruct (find (is_member d) (pending s)) as [m|] eqn:Hf; [|done].
  apply find_elem in Hf as [Hm _]. set (u := m_user m) in *.
  set (s' := s <| pending ::= _ |>). set (l := List.filter (of_user u) (pending s)).
  pose proof (members_joins l s') as Em. pose proof (joins_rest l s') as (Ep & Er & Ea & _ & Eb & Eq).
  pose proof (joins_padding l s') as Epad. destruct I as [I1 I2 I3 I7 I4 I5 I6].
  set (s2 := fold_left join l s') in *. change (members s') with (members s) in Em.
  assert (forall x, x ∈ l -> x ∈ pending s /\ m_user x = u) as Hl.
  { intros x [Hx Hu]%filter_elem. apply of_user_true in Hu. done. }
  assert (forall x, x ∈ pending s2 -> x ∈ pending s /\ m_user x ≠ u) as Hp.
  { rewrite Ep. simpl. intros x [Hx Hu]%filter_elem. apply of_user_false in Hu. done. }
  assert (forall x, x ∈ members s2 ++ pending s2 -> x ∈ members s ++ pending s) as Hmp.
  { intros x. rewrite Em, !elem_of_app. intros [[Hx|Hx]|Hx]; [by left| |];
      right; [by apply Hl|by apply Hp]. }
  split; simpl.
  - change (NoDup (demux_ids s2)).
    apply (demux_perm s s2 (members s ++ pending s ++ removed s)); [|done|done].
    rewrite Em, Ep, Er. simpl. unfold l. rewrite <- app_assoc. f_equiv. rewrite app_assoc. f_equiv.
    apply filter_perm.
  - intros x Hx. by apply I2, Hmp.
  - rewrite Eq. intros x Hx. destruct (Hp x Hx) as [Hx' Hu]. by apply I3.
  - rewrite Ea. intros x Hx Hs. destruct (Hp x Hx) as [Hx' Hu]. specialize (I7 x Hx' Hs). simpl. set_solver.
  - rewrite Ea, Eq. change (forall x, x ∈ members s2 -> m_admin x = false ->
      require_approval s = true -> m_user x ∈ {[u]} ∪ approved s).
    intros x Hx E1 E2. rewrite Em in Hx. apply elem_of_app in Hx as [Hx|Hx].
    + specialize (I4 x Hx E1 E2). set_solver.
    + apply Hl in Hx as [_ ->]. set_solver.
  - rewrite Eb. intros x Hx. by apply I5, Hmp.
  - apply Epad. done.
Qed.

Lemma inv_deny bits s d : inv bits s -> inv bits (deny s d).
Proof.
  intros I. unfold deny. destruct (find (is_member d) (pending s)) as [m|] eqn:Hf; [|done].
  apply find_elem in Hf as [Hm _]. set (u := m_user m) in *. destruct I as [I1 I2 I3 I7 I4 I5 I6].
  set (s1 := s <| pending ::= _ |> <| removed ::= _ |> <| denied ::= _ |>).
  assert (forall x, x ∈ pending s1 -> x ∈ pending s /\ m_user x ≠ u) as Hp.
  { simpl. intros x [Hx Hu]%filter_elem. apply of_user_false in Hu. done. }
  assert (forall x, x ∈ members s ++ pending s1 -> x ∈ members s ++ pending s) as Hmp.
  { intros x. rewrite !elem_of_app. intros [Hx|Hx]; [by left|right; by apply Hp]. }
  assert (inv bits s1) as J.
  { split; try done.
    - apply (demux_perm s s1 (members s ++ pending s ++ removed s)); [|done|done]. simpl.
      change (members s1) with (members s). f_equiv.
      rewrite (Permutation_app_comm (removed s)), app_assoc. f_equiv.
      rewrite Permutation_app_comm. apply filter_perm.
    - intros x Hx. by apply I2, Hmp.
    - intros x Hx. by apply I3, Hp.
    - intros x Hx. by apply I7, Hp.
    - intros x Hx. by apply I5, Hmp. }
  case_bool_decide; [|done]. destruct J as [J1 J2 J3 J7 J4 J5 J6]. split; try done. simpl.
  intros x Hx Hs. specialize (J5 x Hx Hs). rewrite not_elem_of_union, not_elem_of_singleton.
  split; [|done]. apply elem_of_app in Hx as [Hx|Hx]; [|by apply Hp in Hx as [_ ?]].
  intros Eu. change (x ∈ members s) in Hx. fold u in Eu. rewrite Eu in Hs.
  destruct (I3 m Hm) as (Ea & Er). apply (I7 m Hm Hs). fold u. rewrite <- Eu.
  apply I4; [done| |done]. rewrite <- Ea. apply Hs; [rewrite <- Eu|]; apply I2, elem_of_app; auto.
Qed.

Lemma inv_leave bits s d m s' :
  inv bits s -> leave s d = Some (m, s') ->
  members s ≡ₚ m :: members s' /\ pending s' = pending s /\ removed s' = removed s /\
  approved s' = approved s /\ blocked s' = blocked s /\ require_approval s' = require_approval s /\
  participants s' = assign_padding (participants s').
Proof.
  intros I. unfold leave.
  destruct (Call.swap_remove _ (participants s)) as [[e rest]|] eqn:Hs; [|done]. intros [= <- <-].
  apply swap_remove_perm in Hs as [_ P]. split; [|simpl; by rewrite assign_padding_idem].
  unfold members. simpl. rewrite fst_assign_padding, P. done.
Qed.

(** A state with fewer participants and pending members. *)
Lemma inv_fewer bits s s' :
  inv bits s -> NoDup (demux_ids s') ->
  (forall x, x ∈ members s' -> x ∈ members s) -> (forall x, x ∈ pending s' -> x ∈ pending s) ->
  (forall x, x ∈ members s' -> m_user x ∈ approved s -> m_user x ∈ approved s') ->
  approved s' ⊆ approved s ->
  (forall x, x ∈ members s' ++ pending s' -> steady bits (m_user x) -> m_user x ∉ blocked s -> m_user x ∉ blocked s') ->
  require_approval s' = require_approval s ->
  participants s' = assign_padding (participants s') ->
  inv bits s'.
Proof.
  intros [I1 I2 I3 I7 I4 I5 I6] N Hm Hp Ha Hs Hb Er Hpad.
  assert (forall x, x ∈ members s' ++ pending s' -> x ∈ members s ++ pending s) as Hmp.
  { intros x. rewrite !elem_of_app. intros [Hx|Hx]; auto. }
  split; try done.
  - intros x Hx. by apply I2, Hmp.
  - intros x Hx. rewrite Er. by apply I3, Hp.
  - intros x Hx Hst. specialize (I7 x (Hp x Hx) Hst). set_solver.
  - intros x Hx E1 E2. rewrite Er in E2. apply Ha; [done|]. by apply I4; [apply Hm| |].
  - intros x Hx Hst. apply Hb; [done..|]. by apply I5; [apply Hmp|].
Qed.

Lemma inv_force_remove bits s d : inv bits s -> inv bits (force_remove s d).
Proof.
  intros I. unfold force_remove. destruct (leave s d) as [[m s1]|] eqn:Hl; [|done].
  destruct (inv_leave _ _ _ _ _ I Hl) as (P & Ep & Er & Ea & Eb & Eq & Epad).
  match goal with |- context [if ?b then s1 else ?s2] => set (s3 := if b then s1 else s2) end.
  assert (members s3 = members s1 /\ pending s3 = pending s /\ removed s3 = removed s /\
    blocked s3 = blocked s /\ require_approval s3 = require_approval s /\
    participants s3 = participants s1) as (M3 & P3 & R3 & B3 & Q3 & L3).
  { unfold s3. by case_if. }
  apply (inv_fewer bits s); [done|..]; simpl.
  - apply (demux_perm s _ (m :: members s1 ++ pending s ++ removed s));
      [| |apply I].
    + change (members (s3 <| removed ::= fun l => l ++ [m] |>)) with (members s3). simpl.
      rewrite M3, P3, R3, !app_assoc, (Permutation_app_comm _ [m]). done.
    + by rewrite P.
  - change (forall x, x ∈ members s3 -> x ∈ members s). rewrite M3. intros x Hx. rewrite P. by right.
  - by rewrite P3.
  - change (forall x, x ∈ members s3 -> m_user x ∈ approved s -> m_user x ∈ approved s3).
    rewrite M3. intros x Hx Ha. unfold s3. case_if; [by rewrite Ea|]. simpl. rewrite Ea.
    apply elem_of_difference. split; [done|]. rewrite not_elem_of_singleton. intros Eu.
    apply list_elem_of_fmap in Hx as (e & -> & He).
    match goal with E : existsb _ _ = false |- _ => rewrite <- not_true_iff_false, existsb_exists in E; apply E end.
    exists e. split; [by apply list_elem_of_In|]. by apply of_user_true.
  - unfold s3. case_if; simpl; rewrite Ea; set_solver.
  - intros x Hx. by rewrite B3.
  - done.
  - by rewrite L3.
Qed.

Lemma inv_block bits s d : inv bits s -> inv bits (block s d).
Proof.
  intros I. unfold block.
  destruct (find _ (participants s)) as [e|] eqn:Hf; [|done]. apply find_elem in Hf as [He _].
  set (u := m_user e.1) in *.
  set (s' := s <| participants ::= _ |> <| removed ::= _ |> <| approved ::= _ |> <| blocked ::= _ |>).
  assert (members s' = List.filter (fun m => negb (of_user u m)) (members s)) as M.
  { unfold members, s'. simpl. rewrite fst_assign_padding.
    apply (filter_fst (fun m => negb (of_user u m))). }
  assert (forall x, x ∈ members s' -> x ∈ members s /\ m_user x ≠ u) as Hm.
  { rewrite M. intros x [Hx Hu]%filter_elem. apply of_user_false in Hu. done. }
  assert (e.1 ∈ members s) as Hin by (apply list_elem_of_fmap; by exists e).
  assert (forall x, x ∈ pending s -> steady bits (m_user x) -> m_user x ≠ u) as Hpu.
  { intros x Hx Hs Eu. destruct I as [I1 I2 I3 I7 I4 I5 I6]. destruct (I3 x Hx) as (E1 & E3).
    apply (I7 x Hx Hs). rewrite Eu. apply I4; [done| |done].
    rewrite <- E1. apply Hs; [rewrite Eu; fold u; apply (I2 e.1)|apply I2]; apply elem_of_app; auto. }
  apply (inv_fewer bits s); [done|..].
  - apply (demux_perm s s' (members s ++ pending s ++ removed s)); [|done|apply I].
    rewrite M. simpl.
    assert (map fst (List.filter (fun e0 => of_user u e0.1) (participants s)) =
            List.filter (of_user u) (members s)) as ->.
    { apply (filter_fst (of_user u)). }
    pose proof (filter_perm (of_user u) (members s)) as P. revert P.
    generalize (List.filter (of_user u) (members s)), (List.filter (fun m => negb (of_user u m)) (members s)).
    intros l1 l2 P. rewrite <- P. rewrite !app_assoc, (Permutation_app_comm _ l1), !app_assoc. done.
  - intros x Hx. by apply Hm.
  - done.
  - intros x Hx Ha. simpl. apply Hm in Hx as [_ Hx]. set_solver.
  - simpl. set_solver.
  - intros x Hx Hs Hb. simpl. rewrite not_elem_of_union, not_elem_of_singleton. split; [|done].
    apply elem_of_app in Hx as [Hx|Hx]; [by apply Hm|by apply Hpu].
  - done.
  - unfold s'. simpl. by rewrite assign_padding_idem.
Qed.

Lemma inv_drop bits s d : inv bits s -> inv bits (drop s d).
Proof.
  intros I. unfold drop. destruct (leave s d) as [[m s1]|] eqn:Hl.
  { destruct (inv_leave _ _ _ _ _ I Hl) as (P & Ep & Er & Ea & Eb & Eq & Epad).
    apply (inv_fewer bits s); try done; rewrite ?Ea, ?Eb, ?Ep; try done.
    - destruct I as [N _ _ _ _ _ _]. rewrite demux_ids_members, P in N. simpl in N.
      inversion N as [|? ? _ N']; subst. by rewrite demux_ids_members, Ep, Er.
    - intros x Hx. rewrite P. by right. }
  clear Hl. destruct (Call.swap_remove _ (pending s)) as [[m rest]|] eqn:Hs.
  { apply swap_remove_perm in Hs as [_ P]. apply (inv_fewer bits s); try done; simpl.
    - destruct I as [N _ _ _ _ _ _]. rewrite demux_ids_members in *. simpl.
      change (members (s <| pending := rest |>)) with (members s).
      rewrite P in N. simpl in N. rewrite <- Permutation_middle in N. by inversion N.
    - intros x Hx. rewrite P. by right.
    - apply I. }
  clear Hs. destruct (Call.swap_remove _ (removed s)) as [[m rest]|] eqn:Hs; [|done].
  apply swap_remove_perm in Hs as [_ P]. apply (inv_fewer bits s); try done; simpl.
  - destruct I as [N _ _ _ _ _ _]. rewrite demux_ids_members in *. simpl.
    change (members (s <| removed := rest |>)) with (members s).
    rewrite P in N. simpl in N. rewrite !app_assoc, <- Permutation_middle in N. rewrite !app_assoc.
    by inversion N.
  - apply I.
Qed.

(** ** What a blocked user can do *)

(** [u] stays blocked, and no device of [u] gets in. *)
Definition kept_out (u : UserId) (s s' : State) : Prop :=
  u ∈ blocked s -> u ∈ blocked s' /\ forall m, m_user m = u -> m ∈ members s' ++ pending s' -> m ∈ members s ++ pending s.

Lemma kept_out_refl u s : kept_out u s s.
Proof. done. Qed.

Lemma kept_out_trans u a b c : kept_out u a b -> kept_out u b c -> kept_out u a c.
Proof. intros H1 H2 Hu. destruct (H1 Hu) as [Hb Ha]. destruct (H2 Hb) as [Hc Hd]. auto. Qed.

Lemma kept_out_fewer u s s' : blocked s ⊆ blocked s' -> (forall m, m ∈ members s' -> m ∈ members s ++ pending s) ->
  (forall m, m ∈ pending s' -> m ∈ pending s) -> kept_out u s s'.
Proof.
  intros Hb Hm Hp Hu. split; [by apply Hb|]. intros m _ [Hx|Hx]%elem_of_app; [by apply Hm|]. apply elem_of_app. auto.
Qed.

Lemma kept_out_add u s m : kept_out u s (add s m).1.
Proof.
  intros Hu. unfold add. case_bool_decide as Hb; [done|].
  assert (m_user m <> u) as Hne by congruence. case_if; cbn [fst].
  - assert (forall s0, blocked s0 = blocked s -> members s0 = members s -> pending s0 = pending s ->
      u ∈ blocked (join s0 m) /\ forall x, m_user x = u -> x ∈ members (join s0 m) ++ pending (join s0 m) -> x ∈ members s ++ pending s) as Hj.
    { intros s0 E1 E2 E3. split; [by rewrite <- E1 in Hu|]. intros x Ex. rewrite members_join, E2. change (pending (join s0 m)) with (pending s0).
      rewrite E3, !elem_of_app, list_elem_of_singleton. intuition congruence. }
    by destruct (persist_approval s); apply Hj.
  - split; [done|]. intros x Ex. change (members _) with (members s). cbn. rewrite !elem_of_app, list_elem_of_singleton. intuition congruence.
Qed.

Lemma kept_out_approve u s d : kept_out u s (approve s d).
Proof.
  unfold approve. destruct (find (is_member d) (pending s)) as [m|]; [|by apply kept_out_refl].
  set (s' := s <| pending ::= _ |>). set (l := List.filter (Spec.of_user (m_user m)) (pending s)).
  pose proof (members_joins l s') as Em. pose proof (joins_rest l s') as (Ep & _ & _ & _ & Eb & _).
  apply kept_out_fewer; simpl.
  - by rewrite Eb.
  - intros x Hx. change (x ∈ members (fold_left join l s')) in Hx. rewrite Em, elem_of_app in Hx. apply elem_of_app.
    destruct Hx as [Hx|[Hx _]%filter_elem]; auto.
  - rewrite Ep. by intros x [Hx _]%filter_elem.
Qed.

Lemma kept_out_deny u s d : kept_out u s (deny s d).
Proof.
  unfold deny. destruct (find (is_member d) (pending s)) as [m|]; [|by apply kept_out_refl].
  case_bool_decide; (apply kept_out_fewer; simpl; [set_solver| |by intros x [Hx _]%filter_elem]);
    intros x Hx; apply elem_of_app; by left.
Qed.

Lemma leave_fewer s d m s' : leave s d = Some (m, s') ->
  (forall x, x ∈ members s' -> x ∈ members s) /\ pending s' = pending s /\ blocked s' = blocked s.
Proof.
  unfold leave. destruct (Call.swap_remove _ _) as [[e rest]|] eqn:Hs; [|done]. intros [= <- <-].
  apply swap_remove_perm in Hs as [_ P]. split; [|done]. intros x. unfold members. simpl. rewrite fst_assign_padding, P. by right.
Qed.

Lemma kept_out_force_remove u s d : kept_out u s (force_remove s d).
Proof.
  unfold force_remove. destruct (leave s d) as [[m s1]|] eqn:Hl; [|by apply kept_out_refl].
  apply leave_fewer in Hl as (Hm & Hp & Hb).
  case_if; (apply kept_out_fewer; simpl; [by rewrite Hb| |by rewrite Hp]);
    intros x Hx; apply elem_of_app; left; by apply Hm.
Qed.

Lemma kept_out_block u s d : kept_out u s (block s d).
Proof.
  unfold block. destruct (find _ (participants s)) as [e|]; [|by apply kept_out_refl].
  apply kept_out_fewer; simpl; [set_solver| |done]. intros x. unfold members. simpl. rewrite fst_assign_padding.
  rewrite (filter_fst (fun m => negb (Spec.of_user (m_user e.1) m))). intros [Hx _]%filter_elem. apply elem_of_app. by left.
Qed.

Lemma kept_out_drop u s d : kept_out u s (drop s d).
Proof.
  unfold drop. destruct (leave s d) as [[m s1]|] eqn:Hl.
  { apply leave_fewer in Hl as (Hm & Hp & Hb). apply kept_out_fewer; [by rewrite Hb| |by rewrite Hp].
    intros x Hx. apply elem_of_app. left. by apply Hm. }
  destruct (Call.swap_remove _ (pending s)) as [[m rest]|] eqn:Hs.
  { apply swap_remove_perm in Hs as [_ P]. apply kept_out_fewer; simpl; [done| |].
    - intros x Hx. apply elem_of_app. by left.
    - intros x Hx. rewrite P. by right. }
  destruct (Call.swap_remove _ (removed s)) as [[m rest]|]; [|by apply kept_out_refl].
  apply kept_out_fewer; simpl; [done| |done]. intros x Hx. apply elem_of_app. by left.
Qed.

Lemma kept_out_acts u f l : (forall s d, kept_out u s (f s d)) -> forall s, kept_out u s (fold_left (act f) l s).
Proof.
  intros Hf. induction l as [|t l IH]; intros s; simpl; [apply kept_out_refl|].
  eapply kept_out_trans; [|apply IH]. unfold act. destruct t as [raw|]; [|apply kept_out_refl].
  destruct (DemuxId.try_from raw); [apply Hf|apply kept_out_refl..].
Qed.

Lemma kept_out_message u s d m : kept_out u s (message s d m).
Proof.
  unfold message. destruct (find_participant s d) as [x|]; [|apply kept_out_refl].
  destruct (m_admin x); [|apply kept_out_refl]. unfold admin_actions.
  eapply kept_out_trans; [|apply kept_out_acts, kept_out_block]. eapply kept_out_trans; [|apply kept_out_acts, kept_out_force_remove].
  eapply kept_out_trans; [|apply kept_out_acts, kept_out_deny]. apply kept_out_acts, kept_out_approve.
Qed.

(** Blocking a user leaves the pending devices of the user; approving one of them lets them in. *)
Lemma block_then_approve s d1 d2 e m :
  find (fun e => is_member d1 e.1) (participants s) = Some e -> find (is_member d2) (pending s) = Some m ->
  m_user m = m_user e.1 ->
  let s' := approve (block s d1) d2 in m_user m ∈ blocked s' /\ m ∈ members s'.
Proof.
  intros He Hm Hu. unfold block. rewrite He. set (s1 := s <| participants ::= _ |> <| removed ::= _ |> <| approved ::= _ |> <| blocked ::= _ |>).
  unfold approve. change (pending s1) with (pending s). rewrite Hm. set (s2 := s1 <| pending ::= _ |>). set (l := List.filter _ (pending s)).
  pose proof (members_joins l s2) as Em. pose proof (joins_rest l s2) as (_ & _ & _ & _ & Eb & _). simpl. split.
  - rewrite Eb. simpl. rewrite Hu. set_solver.
  - change (m ∈ members (fold_left join l s2)). rewrite Em. apply elem_of_app. right. apply find_elem in Hm as [Hm _].
    apply filter_elem. split; [done|]. by apply of_user_true.
Qed.

End SpecFacts.
