(* ===== verification/CallFacts.v ===== *)
(** * CallFacts: calls implement the membership specification

    Every membership operation of [Call] ends without a panic in a state whose
    abstraction is the one [Spec] gives; allocation and the messages keep the
    abstraction. *)
From stdpp Require Import strings.
From S2P Require Import Prelude Common Collections Float Bytes Srtp RtpHeader Audio Vp8.
From S2P Require Import Packet Layers Allocation Forwarders ApprovedUsers Client Call.
From S2P Require Import CallHandlers CallSpec.

Module CallFacts.
Import Call Handlers Spec.

Section CallFacts.
Context `{Mrp} `{Protos}.

Definition member_of (c : Client.t) : Member :=
  member (Client.demux_id c) (Client.user_id c) (Client.is_admin c).
Definition np_member (c : NonParticipantClient.t) : Member :=
  member (NonParticipantClient.demux_id c) (NonParticipantClient.user_id c)
         (NonParticipantClient.is_admin c).

(** What [Spec] sees of a participant. *)
Definition core (c : Client.t) : Member * option Z := (member_of c, Client.padding_ssrc c).

Definition abs (c : Call.t) : State :=
  state (map core (clients c)) (map np_member (pending_clients c))
    (map np_member (removed_clients c)) (ApprovedUsers.set (approved_users c)) (denied_users c)
    (blocked_users c) (new_clients_require_approval c) (persist_approval_for_all_users_who_join c).

(** ** Lists *)

Lemma find_map {A B} (g : A -> B) (p : B -> bool) (l : list A) :
  find p (map g l) = g <$> find (fun x => p (g x)) l.
Proof. induction l as [|x l IH]; simpl; [done|]. by destruct (p (g x)). Qed.

Lemma filter_map_comm {A B} (g : A -> B) (p : B -> bool) (l : list A) :
  List.filter p (map g l) = map g (List.filter (fun x => p (g x)) l).
Proof. induction l as [|x l IH]; simpl; [done|]. destruct (p (g x)); simpl; by rewrite IH. Qed.

Lemma existsb_map {A B} (g : A -> B) (p : B -> bool) (l : list A) :
  existsb p (map g l) = existsb (fun x => p (g x)) l.
Proof. induction l as [|x l IH]; simpl; [done|]. by rewrite IH. Qed.

Lemma list_find_map {A B} (g : A -> B) (p : B -> bool) (l : list A) :
  list_find p (map g l) = (fun e => (e.1, g e.2)) <$> list_find (fun x => p (g x)) l.
Proof.
  induction l as [|x l IH]; simpl; [done|].
  destruct (p (g x)) eqn:E; repeat case_decide; try done; try (by rewrite E in *); try naive_solver.
  rewrite IH. by destruct (list_find _ l).
Qed.

Lemma last_map {A B} (g : A -> B) (l : list A) : last (map g l) = g <$> last l.
Proof. apply fmap_last. Qed.

Lemma swap_remove_map {A B} (g : A -> B) (p : B -> bool) (l : list A) :
  swap_remove p (map g l) =
    (fun e => (g e.1, map g e.2)) <$> swap_remove (fun x => p (g x)) l.
Proof.
  unfold swap_remove. rewrite list_find_map.
  destruct (list_find (fun x => p (g x)) l) as [[i x]|]; simpl; [|done].
  rewrite last_map, length_map. destruct (last l); simpl; [|done].
  do 2 f_equal. etrans; [|symmetry; apply fmap_take]. f_equal.
  symmetry. apply list_fmap_insert.
Qed.

Lemma modify_first_map {A B} (g : A -> B) (p : A -> bool) (f : A -> A) (l : list A) :
  (forall x, find p l = Some x -> g (f x) = g x) -> map g (modify_first p f l) = map g l.
Proof.
  induction l as [|x l IH]; simpl; [done|]. intros Hf.
  destruct (p x); simpl; f_equal; [by apply Hf|by apply IH].
Qed.

Lemma find_Some_In {A} (p : A -> bool) (l : list A) x : find p l = Some x -> x ∈ l /\ p x = true.
Proof. intros H1%find_some. by rewrite list_elem_of_In. Qed.

Lemma find_client_Some c d r : find_client c d = Some r -> r ∈ clients c /\ Client.demux_id r = d.
Proof.
  intros [Hin Hp]%find_Some_In. unfold is_client in Hp. boolsplit. done.
Qed.

Lemma find_client_in c d :
  d ∈ map Client.demux_id (clients c) -> exists r, find_client c d = Some r.
Proof.
  unfold find_client. induction (clients c) as [|x l IH]; simpl; intros Hd.
  - by apply elem_of_nil in Hd.
  - unfold is_client at 1. destruct (Client.demux_id x =? d) eqn:E; [by eexists|].
    apply elem_of_cons in Hd as [->|Hd]; [by rewrite Z.eqb_refl in E|by apply IH].
Qed.

(** ** Allocation keeps everything but the receiver's rates and forwarders *)

(** [c'] is [c] with clients that look the same to [Spec]. *)
Definition same (c c' : Call.t) : Prop :=
  exists l, c' = c <| clients := l |> /\ map core l = map core (clients c).

Lemma same_refl c : same c c.
Proof. exists (clients c). split; [by destruct c|done]. Qed.

Lemma same_trans c1 c2 c3 : same c1 c2 -> same c2 c3 -> same c1 c3.
Proof. intros (l & -> & E) (l' & -> & E'). exists l'. split; [done|]. by rewrite E'. Qed.

Lemma same_abs c c' : same c c' -> abs c' = abs c.
Proof. intros (l & -> & E). unfold abs. simpl. by rewrite E. Qed.

Lemma core_demux (l l' : list Client.t) :
  map core l = map core l' -> map Client.demux_id l = map Client.demux_id l'.
Proof.
  intros E. apply (f_equal (map (fun e : Member * option Z => m_demux e.1))) in E.
  by rewrite !map_map in E.
Qed.

Lemma same_demux c c' : same c c' -> map Client.demux_id (clients c') = map Client.demux_id (clients c).
Proof. intros (l & -> & E). by apply core_demux. Qed.

Lemma no_err_ok {E A} (m : Res unit A) a : m = Ok a -> no_err (E:=E) m = Ok a.
Proof. by intros ->. Qed.

Lemma apply_allocations_ok allocated ds : forall r,
  (forall k a, allocated !! k = Some a -> (Allocation.layer_index a < 3)%nat) ->
  exists r', apply_allocations allocated r ds = Ok r' /\ core r' = core r.
Proof.
  induction ds as [|d ds IH]; intros r Ha; simpl; [by exists r|].
  assert (exists r', apply_allocation allocated r d = Ok r' /\ core r' = core r) as (r1 & -> & E).
  { unfold apply_allocation. destruct (allocated !! d) as [a|] eqn:Ed; simpl.
    - specialize (Ha d a Ed).
      destruct (Allocation.layer_index a) as [|[|[|]]]; simpl; [by eexists..|lia].
    - by eexists. }
  rewrite mbind_Ok. destruct (IH r1 Ha) as (r2 & -> & E2). exists r2. split; [done|]. congruence.
Qed.

Lemma allocate_ok c d t mt now :
  d ∈ map Client.demux_id (clients c) ->
  exists c', allocate_video_layers c d t mt now = Ok c' /\ same c c'.
Proof.
  intros Hd. destruct (find_client_in c d Hd) as [r Hr]. unfold allocate_video_layers.
  rewrite Hr. simpl unwrap. rewrite mbind_Ok.
  set (videos := omap (allocatable_video c r) (clients c)).
  assert (Forall AllocationFacts.has_layers videos) as F.
  { apply Forall_forall. intros v Hv. apply list_elem_of_omap in Hv as (x & _ & E).
    unfold allocatable_video in E. case_if_in E; [done|]. by injection E as <-. }
  destruct (AllocationFacts.send_rates_ok videos (Client.requested_max_send_rate r) F)
    as [[ideal Ei] [base Eb]].
  rewrite (no_err_ok _ _ Eb), mbind_Ok, (no_err_ok _ _ Ei), mbind_Ok.
  destruct (AllocationFacts.allocate_send_rate_entries t mt ideal
    (Client.outgoing_queue_drain_rate r) videos F) as (m & Em & Hm).
  rewrite (no_err_ok _ _ Em), mbind_Ok.
  match goal with |- context [apply_allocations m ?r0 ?ds] =>
    destruct (apply_allocations_ok m ds r0) as (r' & -> & E) end.
  { intros k a Hk. destruct (Hm k a Hk) as (v & i & Hv & _ & _ & Hi & Hl & _).
    rewrite Forall_forall in F. pose proof (AllocationFacts.ideal_lt3 v i (F v Hv) Hi). lia. }
  rewrite mbind_Ok. eexists. split; [reflexivity|].
  eexists. split; [reflexivity|]. apply modify_first_map. intros x Hx.
  unfold find_client in Hr. rewrite Hr in Hx. injection Hx as <-.
  change (core r' = core r). rewrite E. done.
Qed.

Lemma allocate_for_ok now rs : forall c,
  (forall e, e ∈ rs -> e.1.1 ∈ map Client.demux_id (clients c)) ->
  exists c', allocate_for c rs now = Ok c' /\ same c c'.
Proof.
  induction rs as [|[[d t] mt] rs IH]; intros c Hin; simpl; [exists c; split; [done|apply same_refl]|].
  destruct (allocate_ok c d t mt now) as (c1 & -> & S1); [apply (Hin (d, t, mt)); left|].
  rewrite mbind_Ok. destruct (IH c1) as (c2 & -> & S2).
  { intros e He. rewrite (same_demux _ _ S1). apply Hin. by right. }
  exists c2. split; [done|]. by eapply same_trans.
Qed.

Lemma rates_of_in l e : e ∈ map rates_of l -> e.1.1 ∈ map Client.demux_id l.
Proof.
  intros (x & -> & Hx)%list_elem_of_fmap. apply list_elem_of_fmap. by exists x.
Qed.

Lemma reallocate_ok c now : exists c', reallocate_target_send_rates c now = Ok c' /\ same c c'.
Proof. apply allocate_for_ok. apply rates_of_in. Qed.

Lemma reallocate_if_ok c now :
  exists c', reallocate_target_send_rates_if_its_been_too_long c now = Ok c' /\ same c c'.
Proof.
  apply allocate_for_ok. intros e He. apply rates_of_in in He.
  apply list_elem_of_fmap in He as (x & -> & Hx). apply list_elem_of_fmap. exists x. split; [done|].
  apply list_elem_of_In, filter_In in Hx as [Hx _]. by apply list_elem_of_In.
Qed.

(** ** Membership operations *)

Lemma abs_will c now : abs (will_add_or_remove_client c now) = abs c.
Proof. done. Qed.

Lemma core_update_padding c :
  map core (clients (update_padding_ssrcs c)) = assign_padding (map core (clients c)).
Proof.
  simpl. destruct (clients c) as [|x [|y l]]; simpl; [done..|].
  unfold core, padding_of, padding_ssrc. simpl. do 2 f_equal. rewrite !map_map. done.
Qed.

Lemma abs_update_padding c :
  abs (update_padding_ssrcs c) = abs c <| participants ::= assign_padding |>.
Proof. unfold abs. rewrite core_update_padding. done. Qed.

Lemma promote_ok c p now :
  exists c', promote_client c p now = Ok c' /\ abs c' = join (abs c) (np_member p).
Proof.
  unfold promote_client. set (c1 := will_add_or_remove_client c now <| clients ::= _ |>).
  destruct (allocate_ok c1 (NonParticipantClient.demux_id p) (initial_target_send_rate c1)
    (initial_target_send_rate c1) now) as (c2 & E & S).
  { unfold c1. simpl. rewrite map_app. apply elem_of_app. right. simpl. left. }
  eexists. rewrite E, mbind_Ok. split; [reflexivity|].
  rewrite abs_update_padding, (same_abs _ _ S). unfold abs, join, c1. simpl. by rewrite map_app.
Qed.

Lemma promote_clients_ok now l : forall c,
  exists c', promote_clients c l now = Ok c' /\
    abs c' = fold_left join (map np_member l) (abs c).
Proof.
  induction l as [|p l IH]; intros c; simpl; [by exists c|].
  destruct (promote_ok c p now) as (c1 & -> & E1). rewrite mbind_Ok.
  destruct (IH c1) as (c2 & -> & E2). exists c2. split; [done|]. by rewrite E2, E1.
Qed.

Lemma add_ok c d u a rel now :
  exists c' st, add_client c d u a rel now = Ok (c', st) /\
    add (abs c) (member d u a) = (abs c', st).
Proof.
  unfold add_client, add, ApprovedUsers.contains. simpl.
  case_bool_decide; [do 2 eexists; split; [reflexivity|]; unfold abs; simpl; by rewrite map_app|].
  case_if.
  - set (c1 := if persist_approval_for_all_users_who_join c then _ else c).
    destruct (promote_ok c1 (NonParticipantClient.mk d u a rel 1) now) as (c2 & -> & E2).
    rewrite mbind_Ok. exists c2, Active. split; [done|]. rewrite E2. f_equal.
    unfold c1. destruct (persist_approval_for_all_users_who_join c); [|done].
    unfold abs. simpl. by rewrite ApprovedUsersFacts.insert_set.
  - do 2 eexists. split; [reflexivity|]. unfold abs. simpl. by rewrite map_app.
Qed.

Lemma find_pending_abs c d :
  find_pending_user c d = m_user <$> find (is_member d) (pending (abs c)).
Proof.
  unfold find_pending_user. simpl. rewrite find_map.
  change (fun x => is_member d (np_member x)) with (is_non_participant d).
  by destruct (find _ (pending_clients c)).
Qed.

Lemma drain_abs u (l : list NonParticipantClient.t) :
  let '(a, b) := Iter.drain_filter (Call.of_user u) l in
  map np_member a = List.filter (of_user u) (map np_member l) /\
  map np_member b = List.filter (fun m => negb (of_user u m)) (map np_member l).
Proof. rewrite IterFacts.drain_filter_spec, !filter_map_comm. done. Qed.

Lemma approve_ok c d now :
  exists c', approve_pending_client c d now = Ok c' /\ abs c' = approve (abs c) d.
Proof.
  unfold approve_pending_client, approve. rewrite find_pending_abs.
  destruct (find (is_member d) (pending (abs c))) as [m|]; simpl; [|by exists c].
  pose proof (drain_abs (m_user m) (pending_clients c)) as D.
  destruct (Iter.drain_filter _ _) as [a b]. destruct D as [Da Db].
  destruct (promote_clients_ok now a (c <| pending_clients := b |>)) as (c1 & -> & E1).
  rewrite mbind_Ok. eexists. split; [reflexivity|].
  rewrite Da in E1. unfold abs at 1. simpl. rewrite ApprovedUsersFacts.insert_set.
  match type of E1 with _ = fold_left _ _ ?s1 =>
    match goal with |- context [fold_left _ _ ?s2] => assert (s1 = s2) as Es end end.
  { unfold abs. simpl. by rewrite Db. }
  rewrite <- Es, <- E1. done.
Qed.

Lemma deny_abs c d now : abs (deny_pending_client c d now) = deny (abs c) d.
Proof.
  unfold deny_pending_client, deny. rewrite find_pending_abs.
  destruct (find (is_member d) (pending (abs c))) as [m|]; simpl; [|done].
  pose proof (drain_abs (m_user m) (pending_clients c)) as D. simpl.
  destruct (Iter.drain_filter _ _) as [a b]. destruct D as [Da Db].
  case_bool_decide; unfold abs; simpl; rewrite Db, map_app, Da; done.
Qed.

Lemma core_forget ds (c : Client.t) : core (fold_left forget_sender ds c) = core c.
Proof. revert c. induction ds as [|d ds IH]; intros c; simpl; [done|]. by rewrite IH. Qed.

Lemma update_removed_ok c ds now :
  exists c', update_for_removed_clients c ds now = Ok c' /\
    abs c' = abs c <| participants ::= assign_padding |>.
Proof.
  unfold update_for_removed_clients. destruct (reallocate_ok c now) as (c1 & -> & S).
  rewrite mbind_Ok. eexists. split; [reflexivity|].
  rewrite <- (same_abs _ _ S), <- abs_update_padding.
  unfold abs. simpl. rewrite map_map. f_equal. apply map_ext. intros. apply core_forget.
Qed.

Lemma remove_ok c d now :
  exists c' r, remove_client c d now = Ok (c', r) /\
    match r with
    | Some x => leave (abs c) d = Some (member_of x, abs c')
    | None => leave (abs c) d = None /\ c' = c
    end.
Proof.
  unfold remove_client, leave. simpl. rewrite swap_remove_map.
  change (fun x => is_member d (core x).1) with (is_client d).
  destruct (swap_remove (is_client d) (clients c)) as [[x rest]|]; simpl; [|by exists c, None].
  match goal with |- context [update_for_removed_clients ?c1 _ _] =>
    destruct (update_removed_ok c1 [d] now) as (c2 & -> & E2) end.
  rewrite mbind_Ok. exists c2, (Some x). split; [done|]. rewrite E2. done.
Qed.

Lemma abs_lower c d now : abs (lower_raised_hand c d now) = abs c.
Proof.
  unfold lower_raised_hand. destruct (raised_hands c); [|done].
  destruct (find _ _); [|done]. by case_if.
Qed.

Lemma drop_ok c d now : exists c', drop_client c d now = Ok c' /\ abs c' = drop (abs c) d.
Proof.
  unfold drop_client, drop. destruct (remove_ok c d now) as (c1 & r & -> & Hr).
  rewrite mbind_Ok. eexists. split; [reflexivity|]. rewrite abs_lower.
  destruct r as [x|]; [by rewrite Hr|]. destruct Hr as [-> ->]. simpl.
  rewrite !swap_remove_map. change (fun x => is_member d (np_member x)) with (is_non_participant d).
  destruct (swap_remove _ (pending_clients c)) as [[y rest]|]; simpl; [done|].
  by destruct (swap_remove _ (removed_clients c)) as [[y rest]|].
Qed.

Lemma force_remove_ok c d now :
  exists c', force_remove_client c d now = Ok c' /\ abs c' = force_remove (abs c) d.
Proof.
  unfold force_remove_client, force_remove. destruct (remove_ok c d now) as (c1 & r & -> & Hr).
  rewrite mbind_Ok. destruct r as [x|]; [|destruct Hr as [-> ->]; by eexists].
  rewrite Hr. eexists. split; [reflexivity|]. rewrite abs_lower. simpl.
  rewrite existsb_map.
  change (fun y => of_user (Client.user_id x) (core y).1)
    with (fun y => bool_decide (Client.user_id y = Client.user_id x)).
  case_if; unfold abs; simpl; rewrite map_app; [done|]. by rewrite ApprovedUsersFacts.remove_set.
Qed.

Lemma block_ok c d now : exists c', block_client c d now = Ok c' /\ abs c' = block (abs c) d.
Proof.
  unfold block_client, block, find_client. simpl. rewrite find_map.
  change (fun x => is_member d (core x).1) with (is_client d).
  destruct (find (is_client d) (clients c)) as [x|]; simpl; [|by exists c].
  rewrite IterFacts.drain_filter_spec.
  match goal with |- context [update_for_removed_clients ?c1 ?ds _] =>
    destruct (update_removed_ok c1 ds now) as (c2 & -> & E2) end.
  rewrite mbind_Ok. eexists. split; [reflexivity|].
  match type of E2 with _ = ?s => transitivity
    (s <| approved ::= fun a => a ∖ {[Client.user_id x]} |> <| blocked ::= union {[Client.user_id x]} |>) end.
  - rewrite <- E2. unfold abs at 1. simpl. by rewrite ApprovedUsersFacts.remove_set.
  - unfold abs, set_field. simpl. rewrite map_app, !map_map, !filter_map_comm, map_map. done.
Qed.

(** ** Messages *)

Lemma modify_same c d f :
  (forall x, find_client c d = Some x -> core (f x) = core x) -> same c (modify_client d f c).
Proof.
  intros Hf. eexists. split; [reflexivity|]. by apply modify_first_map.
Qed.

Lemma find_participant_abs c d :
  find_participant (abs c) d = member_of <$> find_client c d.
Proof.
  unfold find_participant, find_client. simpl. rewrite find_map.
  change (fun x => is_member d (core x).1) with (is_client d).
  by destruct (find _ (clients c)).
Qed.

Lemma find_client_demux c d r : find_client c d = Some r -> d ∈ map Client.demux_id (clients c).
Proof.
  intros [Hr <-]%find_client_Some. by apply list_elem_of_fmap_2.
Qed.

Lemma actions_ok f g now l :
  (forall c d, exists c', f c d now = Ok c' /\ abs c' = g (abs c) d) ->
  forall c, exists c', handle_actions f c l now = Ok c' /\ abs c' = fold_left (act g) l (abs c).
Proof.
  intros Hf. induction l as [|a l IH]; intros c; simpl; [by exists c|].
  assert (exists c1, match a with
    | Some target => match DemuxId.try_from target with Ok d => f c d now | _ => Ok c end
    | None => Ok c end = Ok c1 /\ abs c1 = act g (abs c) a) as (c1 & -> & E1).
  { destruct a as [t|]; simpl; [|by exists c].
    destruct (DemuxId.try_from t); [apply Hf|by exists c..]. }
  rewrite mbind_Ok. destruct (IH c1) as (c2 & -> & E2). exists c2. split; [done|]. by rewrite E2, E1.
Qed.

Lemma admin_actions_ok c proto now :
  exists c', handle_admin_actions c proto now = Ok c' /\ abs c' = admin_actions (abs c) proto.
Proof.
  unfold handle_admin_actions, admin_actions.
  destruct (actions_ok approve_pending_client approve now (Proto.d_approve proto)
    (fun c d => approve_ok c d now) c) as (c1 & -> & <-).
  rewrite mbind_Ok.
  destruct (actions_ok (fun c d now => Ok (deny_pending_client c d now)) deny now (Proto.d_deny proto))
    with (c := c1) as (c2 & -> & <-).
  { intros. eexists. split; [reflexivity|]. apply deny_abs. }
  rewrite mbind_Ok.
  destruct (actions_ok force_remove_client force_remove now (Proto.d_remove proto)
    (fun c d => force_remove_ok c d now) c2) as (c3 & -> & <-).
  rewrite mbind_Ok.
  apply (actions_ok block_client block now (Proto.d_block proto) (fun c d => block_ok c d now)).
Qed.

Lemma video_request_ok c r vr now :
  find_client c (Client.demux_id r) = Some r ->
  exists c', handle_video_request c r vr now = Ok c' /\ same c c'.
Proof.
  intros Hr. unfold handle_video_request.
  case_if; [exists c; split; [done|apply same_refl]|].
  destruct vr as [req|]; [|exists c; split; [done|apply same_refl]].
  set (f := apply_video_request _ req).
  assert (same c (modify_client (Client.demux_id r) f c)) as S by (apply modify_same; done).
  destruct (allocate_ok (modify_client (Client.demux_id r) f c) (Client.demux_id r)
    (Client.target_send_rate r) (Client.min_target_send_rate r) now) as (c1 & E1 & S1).
  { rewrite (same_demux _ _ S). by eapply find_client_demux. }
  exists c1. split; [done|]. by eapply same_trans.
Qed.

Lemma raise_hand_abs c now rh d : abs (handle_raise_hand c now rh d) = abs c.
Proof.
  unfold handle_raise_hand. destruct (Proto.raise rh), (Proto.raise_seqnum rh); try done.
  destruct (list_find _ _) as [[i h]|]; [|done].
  simpl. destruct (raised_hands_seqnums c !! d); [|done]. by case_if.
Qed.

Lemma ready_proto_ok c proto d now :
  exists o, handle_ready_proto c proto d now = Ok o /\
    match o with
    | Some c' => abs c' = message (abs c) d proto /\ is_Some (find_client c d)
    | None => find_client c d = None
    end.
Proof.
  unfold handle_ready_proto, message. rewrite find_participant_abs.
  destruct (find_client c d) as [r|] eqn:Hr; simpl; [|by exists None].
  destruct (find_client_Some _ _ _ Hr) as [_ <-].
  destruct (video_request_ok c r (Proto.d_video_request proto) now Hr) as (c1 & -> & S1).
  rewrite mbind_Ok. apply same_abs in S1.
  assert (exists c2, (if Client.is_admin r then handle_admin_actions c1 proto now else Ok c1) = Ok c2 /\
    abs c2 = if Client.is_admin r then admin_actions (abs c) proto else abs c) as (c2 & -> & E2).
  { destruct (Client.is_admin r); [|by exists c1].
    destruct (admin_actions_ok c1 proto now) as (c2 & -> & E2). exists c2. by rewrite E2, S1. }
  rewrite mbind_Ok. eexists. split; [reflexivity|]. simpl. split; [|by eexists].
  destruct (Proto.d_raise_hand proto); [rewrite raise_hand_abs|]; done.
Qed.

Definition messages (s : State) (d : DemuxId.t) (protos : list Proto.DeviceToSfu) : State :=
  fold_left (fun s p => message s d p) protos s.

Lemma messages_gone s d protos : find_participant s d = None -> messages s d protos = s.
Proof.
  intros E. unfold messages. induction protos as [|p l IH]; simpl; [done|].
  unfold message at 2. by rewrite E.
Qed.

Lemma ready_protos_ok d now protos : forall c,
  exists c' out, handle_ready_protos c protos d now = Ok (c', out) /\
    abs c' = messages (abs c) d protos.
Proof.
  induction protos as [|p l IH]; intros c; simpl; [by eexists _, _|].
  destruct (ready_proto_ok c p d now) as (o & -> & Ho). rewrite mbind_Ok.
  destruct o as [c1|].
  - destruct Ho as [E _]. destruct (IH c1) as (c2 & out & -> & E2). eexists _, _.
    split; [reflexivity|]. rewrite E2, E. done.
  - eexists _, _. split; [reflexivity|]. symmetry. apply (messages_gone _ d (p :: l)).
    by rewrite find_participant_abs, Ho.
Qed.

(** The messages that [proto] makes ready: itself, or those the reliable stream
    of its sender delivers. *)
Definition delivered (c : Call.t) (d : DemuxId.t) (proto : Proto.DeviceToSfu)
    : list Proto.DeviceToSfu :=
  match find_client c d, Proto.d_mrp_header proto with
  | None, _ => []
  | Some _, None => [proto]
  | Some r, Some header =>
      match (mrp_receive (Client.reliable_mrp_stream r) header proto).2 with
      | inr ready_protos => ready_protos
      | inl _ => []
      end
  end.

(** What a message from [d] does to the membership. *)
Lemma device_to_sfu_ok c proto d now :
  exists c' out, handle_device_to_sfu c proto d now = Ok (c', out) /\
    if Proto.d_leave proto then out = Err Leave /\ abs c' = drop (abs c) d
    else abs c' = messages (abs c) d (delivered c d proto).
Proof.
  unfold handle_device_to_sfu, delivered. destruct (Proto.d_leave proto).
  { destruct (drop_ok c d now) as (c1 & -> & E1). rewrite mbind_Ok. by eexists _, _. }
  destruct (find_client c d) as [r|] eqn:Hr; [|by eexists _, _].
  destruct (Proto.d_mrp_header proto) as [h|].
  - destruct (mrp_receive _ h proto) as [stream [e|ready]].
    + eexists _, _. split; [reflexivity|]. by apply (same_abs c), modify_same.
    + set (c1 := modify_client d _ c).
      assert (abs c1 = abs c) as E1 by (by apply same_abs, modify_same).
      destruct (ready_protos_ok d now ready c1) as (c2 & out & -> & E2).
      eexists _, _. split; [reflexivity|]. by rewrite E2, E1.
  - destruct (ready_protos_ok d now [proto] c) as (c2 & out & -> & E2).
    by eexists _, _.
Qed.

(** ** Ticks *)

Lemma send_to_all_ok {A B} (g : A -> B) f (l : list A) :
  (forall x, x ∈ l -> exists x' out, f x = Ok (x', out) /\ g x' = g x) ->
  exists l' outs, send_to_all f l = Ok (l', outs) /\ map g l' = map g l.
Proof.
  induction l as [|x l IH]; intros Hf; simpl; [by eexists _, _|].
  destruct (Hf x) as (x' & out & -> & E); [left|]. rewrite mbind_Ok.
  destruct IH as (l' & outs & -> & E'); [intros; apply Hf; by right|]. rewrite mbind_Ok.
  eexists _, _. split; [reflexivity|]. simpl. by rewrite E, E'.
Qed.

Lemma encode_inner_ok u q pt :
  exists p, encode_sfu_to_device_inner u q pt = Ok (p, u64 (q + 1)).
Proof.
  unfold encode_sfu_to_device_inner.
  match goal with |- context [Packet.with_empty_tag ?a ?b ?c ?d ?e ?f ?g] =>
    assert (exists p, Packet.with_empty_tag (E:=Error) a b c d e f g = Ok p) as (p & ->)
      by (eexists; reflexivity) end.
  rewrite mbind_Ok. by eexists.
Qed.

Lemma encode_to_client_ok u c :
  exists c' p, encode_to_client u c = Ok (c', p) /\ core c' = core c.
Proof.
  unfold encode_to_client.
  destruct (encode_inner_ok u (Client.next_server_to_client_data_rtp_seqnum c)
    CLIENT_SERVER_DATA_PAYLOAD_TYPE) as [p ->]. rewrite mbind_Ok. by eexists _, _.
Qed.

Lemma encode_to_np_ok u c :
  exists c' p, encode_to_non_participant u c = Ok (c', p) /\ np_member c' = np_member c.
Proof.
  unfold encode_to_non_participant.
  destruct (encode_inner_ok u (NonParticipantClient.next_server_to_client_data_rtp_seqnum c)
    CLIENT_SERVER_DATA_PAYLOAD_TYPE) as [p ->]. rewrite mbind_Ok. by eexists _, _.
Qed.

Lemma send_np_ok u l :
  exists l' outs, send_to_all (fun c => r ← encode_to_non_participant u c; Ok (one r)) l = Ok (l', outs)
    /\ map np_member l' = map np_member l.
Proof.
  apply send_to_all_ok. intros x _. destruct (encode_to_np_ok u x) as (c' & p & -> & E).
  rewrite mbind_Ok. by eexists _, _.
Qed.

(** A step of [tick]: it succeeds and keeps what [Spec] sees. *)
Definition keeps {A} (c : Call.t) (m : Res Error (Call.t * A)) : Prop :=
  exists c' a, m = Ok (c', a) /\ abs c' = abs c.

Lemma abs_clients c l : map core l = map core (clients c) -> abs (c <| clients := l |>) = abs c.
Proof. intros E. unfold abs. simpl. by rewrite E. Qed.

Lemma participating_keeps c b1 b2 now :
  keeps c (send_update_proto_to_participating_clients c b1 b2 now).
Proof.
  unfold send_update_proto_to_participating_clients.
  match goal with |- context [let '(_, _) := ?x in _] => set (su := x) end.
  assert (exists c1 u1, su = (c1, u1) /\ abs c1 = abs c /\ clients c1 = clients c) as (c1 & u1 & -> & E1 & C1).
  { unfold su. case_if; [|by eexists _, _]. by eexists _, _. }
  match goal with |- keeps c (if ?b then _ else _) => destruct b end; [|by eexists _, _].
  match goal with |- context [send_to_all ?f (clients c1)] =>
    destruct (send_to_all_ok core f (clients c1)) as (l & outs & -> & El) end.
  { intros x _. match goal with |- context [encode_to_client ?u x] =>
      destruct (encode_to_client_ok u x) as (x' & p & -> & E') end.
    rewrite mbind_Ok. by eexists _, _. }
  rewrite mbind_Ok. eexists _, _. split; [reflexivity|]. rewrite <- E1.
  case_if; [|by apply abs_clients]. apply (abs_clients c1 l El).
Qed.

Lemma pending_keeps c b : keeps c (send_update_proto_to_pending_clients c b).
Proof.
  unfold send_update_proto_to_pending_clients. case_if; [by eexists _, _|].
  match goal with |- context [encode_to_non_participant ?u] =>
    destruct (send_np_ok u (pending_clients c)) as (l & outs & -> & El) end.
  rewrite mbind_Ok. eexists _, _. split; [reflexivity|]. unfold abs. simpl. by rewrite El.
Qed.

Lemma removed_keeps c now : keeps c (send_update_proto_to_removed_clients c now).
Proof.
  unfold send_update_proto_to_removed_clients. case_if; [by eexists _, _|]. cbv zeta.
  change (removed_clients (c <| removed_clients_update_sent := now |>)) with (removed_clients c).
  match goal with |- context [encode_to_non_participant ?u] =>
    destruct (send_np_ok u (removed_clients c)) as (l & outs & -> & El) end.
  rewrite mbind_Ok. eexists _, _. split; [reflexivity|]. unfold abs. simpl. by rewrite El.
Qed.

Lemma hands_keeps c now : keeps c (send_raised_hands_proto_to_clients c now).
Proof.
  unfold send_raised_hands_proto_to_clients. case_if; [|by eexists _, _].
  destruct (raised_hands c); [|by eexists _, _].
  match goal with |- context [send_to_all ?f (clients c)] =>
    destruct (send_to_all_ok core f (clients c)) as (l' & outs & -> & El) end.
  { intros x _. match goal with |- context [encode_to_client ?u x] =>
      destruct (encode_to_client_ok u x) as (x' & p & -> & E') end.
    rewrite mbind_Ok. by eexists _, _. }
  rewrite mbind_Ok. eexists _, _. split; [reflexivity|]. apply (abs_clients c l' El).
Qed.

Lemma encode_all_ok us : forall c,
  exists c' outs, encode_all us c = Ok (c', outs) /\ core c' = core c.
Proof.
  induction us as [|u us IH]; intros c; cbn [encode_all]; [by eexists _, _|].
  destruct (encode_to_client_ok u c) as (c1 & p & -> & E1). rewrite mbind_Ok.
  destruct (IH c1) as (c2 & outs & -> & E2). rewrite mbind_Ok. eexists _, _.
  split; [reflexivity|]. congruence.
Qed.

Lemma mrp_keeps c now : keeps c (send_mrp_updates c now).
Proof.
  unfold send_mrp_updates.
  match goal with |- context [send_to_all ?f (clients c)] =>
    destruct (send_to_all_ok core f (clients c)) as (l' & outs & -> & El) end.
  { intros x _. destruct (mrp_try_send_ack _) as [st h].
    match goal with |- context [encode_all ?us ?y] =>
      destruct (encode_all_ok us y) as (x1 & o1 & -> & E1) end. rewrite mbind_Ok.
    destruct (mrp_try_resend _ _) as [st2 re].
    match goal with |- context [encode_all re ?y] =>
      destruct (encode_all_ok re y) as (x2 & o2 & -> & E2) end. rewrite mbind_Ok.
    eexists _, _. split; [reflexivity|]. rewrite E2. exact E1. }
  rewrite mbind_Ok. eexists _, _. split; [reflexivity|]. apply (abs_clients c l' El).
Qed.

(** ** The active speaker and key frames *)

Lemma abs_demux c c' : abs c' = abs c ->
  map Client.demux_id (clients c') = map Client.demux_id (clients c).
Proof. intros E. apply core_demux. by injection E. Qed.

Lemma most_active_ok l : forall m, exists x, most_active_of m l = Ok x /\ (x = m \/ x ∈ l).
Proof.
  induction l as [|y l IH]; intros m; cbn [most_active_of]; [exists m; auto|].
  assert (exists b : bool, (if Client.demux_id y =? Client.demux_id m then Ok (E:=Error) false
    else no_err (LevelsTracker.more_active_than_most_active (Client.incoming_audio_levels y)
                   (Client.incoming_audio_levels m))) = Ok b) as [b ->].
  { case_if; [by eexists|].
    destruct (AudioFacts.more_active_total (Client.incoming_audio_levels y)
      (Client.incoming_audio_levels m)) as [b ->]. by exists b. }
  rewrite mbind_Ok. destruct (IH (if b then y else m)) as (x & -> & Hx). exists x. split; [done|].
  destruct b, Hx as [->|Hx]; auto; right; by constructor.
Qed.

Lemma active_speaker_ok c now :
  exists c' o, calculate_active_speaker c now = Ok (c', o) /\ abs c' = abs c /\
    forall d, o = Some d -> d ∈ map Client.demux_id (clients c).
Proof.
  unfold calculate_active_speaker. destruct (clients c) as [|first rest] eqn:Hc; [by eexists _, _|].
  set (m0 := default first _).
  assert (m0 ∈ clients c) as Hm0.
  { unfold m0. destruct (active_speaker_id c) as [d|]; simpl; [|rewrite Hc; left].
    destruct (find_client c d) eqn:Hf; simpl; [|rewrite Hc; left].
    by apply find_client_Some in Hf as [? _]. }
  destruct (most_active_ok (first :: rest) m0) as (m & -> & Hm). rewrite mbind_Ok.
  assert (m ∈ clients c) as Hin by (rewrite Hc in *; by destruct Hm as [->|]).
  assert (Client.demux_id m ∈ map Client.demux_id (clients c)) as Hd.
  { apply list_elem_of_fmap. by exists m. }
  cbn zeta. case_if; [by eexists _, _|].
  destruct (find_client_in c _ Hd) as [x ->]. simpl unwrap. rewrite mbind_Ok.
  eexists _, _. split; [reflexivity|]. split; [|intros d [= <-]; by rewrite Hc in Hd].
  match goal with |- abs (modify_client ?d ?f c <| active_speaker_id := _ |>) = _ =>
    change (abs (modify_client d f c) = abs c) end.
  apply (same_abs c). by apply modify_same.
Qed.

Lemma request_key_frame_ok c now ssrc : keeps c (request_key_frame c now ssrc).
Proof.
  unfold request_key_frame. case_if; [by eexists _, _|].
  unfold incoming_video_height. rewrite LayersFacts.from_ssrc_ok, mbind_Ok.
  cbn [mbind Res_bind]. case_if; by eexists _, _.
Qed.

Lemma request_key_frames_ok now ssrcs : forall c, keeps c (request_key_frames c now ssrcs).
Proof.
  induction ssrcs as [|x l IH]; intros c; cbn [request_key_frames]; [by eexists _, _|].
  destruct (request_key_frame_ok c now x) as (c1 & o & -> & E1). rewrite mbind_Ok.
  destruct (IH c1) as (c2 & os & -> & E2). rewrite mbind_Ok. eexists _, _. split; [reflexivity|].
  by rewrite E2.
Qed.

Lemma key_frames_keep c now : keeps c (send_key_frame_requests_if_its_been_too_long c now).
Proof.
  unfold send_key_frame_requests_if_its_been_too_long. case_if; [by eexists _, _|].
  destruct (request_key_frames_ok now (elements (desired_incoming_ssrcs c)) c) as (c1 & o & -> & E1).
  rewrite mbind_Ok. eexists _, _. split; [reflexivity|]. done.
Qed.

Lemma core_mark l : forall c, core (mark_needs_key_frame c l) = core c.
Proof.
  unfold mark_needs_key_frame. induction l as [|x l IH]; intros c; simpl; [done|]. by rewrite IH.
Qed.

Lemma handle_key_frames_keep c d l now : keeps c (handle_key_frame_requests c d l now).
Proof.
  unfold handle_key_frame_requests. destruct (find_client c d); [|by eexists _, _].
  match goal with |- context [send_key_frame_requests_if_its_been_too_long ?c1 _] =>
    destruct (key_frames_keep c1 now) as (c2 & o & -> & E2) end.
  eexists _, _. split; [reflexivity|]. rewrite E2. apply same_abs, modify_same.
  intros. apply core_mark.
Qed.

(** A tick never panics and leaves the membership alone. *)
Lemma tick_keeps c now outcome runtime :
  exists c' out kfs, tick c now outcome runtime = Ok (c', out, kfs) /\ abs c' = abs c.
Proof.
  unfold tick. cbn zeta.
  set (c0 := c <| approved_users ::= _ |> <| clients ::= _ |>).
  assert (abs c0 = abs c) as E0.
  { unfold c0, abs. simpl. rewrite map_map, ApprovedUsersFacts.tick_set. done. }
  match goal with |- context [mbind _ (if ?b then ?x else ?y)] =>
    assert (exists c1 o, (if b then x else y) = Ok (c1, o) /\ abs c1 = abs c /\
      forall d, o = Some d -> d ∈ map Client.demux_id (clients c1)) as (c1 & o & -> & E1 & Ho) end.
  { case_if; [|by eexists _, _].
    match goal with |- context [calculate_active_speaker ?c2 _] =>
      destruct (active_speaker_ok c2 now) as (c1 & o & -> & E' & Ho) end.
    eexists _, _. split; [reflexivity|]. rewrite (abs_demux _ _ E'). by rewrite E'. }
  rewrite mbind_Ok. cbn beta iota zeta. clearbody c0. clear E0 c0.
  match goal with |- context [reallocate_target_send_rates_if_its_been_too_long ?c2 _] =>
    destruct (reallocate_if_ok c2 now) as (c3 & -> & S3); assert (abs c3 = abs c) as E3 end.
  { rewrite (same_abs _ _ S3). by case_if. }
  rewrite mbind_Ok. clear S3.
  match goal with |- context [send_update_proto_to_participating_clients ?c ?a ?b ?n] =>
    destruct (participating_keeps c a b n) as (c4 & o4 & -> & E4) end. rewrite mbind_Ok.
  match goal with |- context [send_update_proto_to_pending_clients ?c ?a] =>
    destruct (pending_keeps c a) as (c5 & o5 & -> & E5) end. rewrite mbind_Ok.
  match goal with |- context [send_update_proto_to_removed_clients ?c ?n] =>
    destruct (removed_keeps c n) as (c6 & o6 & -> & E6) end. rewrite mbind_Ok.
  match goal with |- context [send_raised_hands_proto_to_clients ?c ?n] =>
    destruct (hands_keeps c n) as (c7 & o7 & -> & E7) end. rewrite mbind_Ok.
  match goal with |- context [send_key_frame_requests_if_its_been_too_long ?c ?n] =>
    destruct (key_frames_keep c n) as (c8 & o8 & -> & E8) end. rewrite mbind_Ok.
  assert (abs c8 = abs c1) as E81 by congruence.
  assert (exists more, active_speaker_requests c8 o = Ok more) as [more ->].
  { unfold active_speaker_requests. destruct o as [d|]; [|by eexists].
    destruct (find_client_in c8 d) as [x ->]; [rewrite (abs_demux _ _ E81); by apply Ho|].
    simpl unwrap. rewrite mbind_Ok. case_match; by eexists. }
  rewrite mbind_Ok.
  match goal with |- context [send_mrp_updates ?c ?n] =>
    destruct (mrp_keeps c n) as (c9 & o9 & -> & E9) end. rewrite mbind_Ok.
  eexists _, _, _. split; [reflexivity|]. congruence.
Qed.

End CallFacts.
End CallFacts.
