(* ===== verification/MediaFacts.v ===== *)
(** * MediaFacts: forwarding media packets

    Every well-formed, decrypted packet is handled without a panic, whatever the
    state of the call; what is sent goes to the other participants only, and the
    membership is not affected. *)
From stdpp Require Import strings.
From S2P Require Import Prelude Common Collections Float Bytes Srtp RtpHeader Audio Vp8.
From S2P Require Import Packet Layers Allocation Forwarders ApprovedUsers Client Call.
From S2P Require Import CallHandlers CallSpec CallFacts.

Module MediaFacts.
Import Call Handlers Spec CallFacts PacketFacts.

(** The frame number is written inside the dependency descriptor. *)
Lemma set_frame_number_ok {E} p n : wf p -> Packet.encrypted p = false ->
  exists p', Packet.set_frame_number_in_header (E:=E) p n = Ok p' /\ wf p' /\
    Packet.encrypted p' = false /\ Packet.payload_range p' = Packet.payload_range p.
Proof.
  intros W Hen. unfold Packet.set_frame_number_in_header.
  destruct (Packet.dependency_descriptor p) as [[d [a b]]|] eqn:Ed; [|by exists p].
  destruct (wf_dd p W d a b Ed) as (Ha & Hab & Hb).
  pose proof (wf_start p W). pose proof (payload_range_1 p). pose proof (wf_end p W).
  pose proof (wf_tag p W) as T. unfold Srtp.SRTP_AUTH_TAG_LEN in T.
  simpl fst. rewrite (write_in_header_splice p); try done.
  - eexists. split; [reflexivity|]. split; [|done]. apply splice_wf; [done|apply be_bytes_ok|].
    rewrite length_be_bytes. lia.
  - destruct (Packet.is_rtx p); lia.
Qed.

Lemma payload_length {E} p : wf p ->
  exists b, Packet.payload (E:=E) p = Ok b /\
    length b = ((Packet.payload_range p).2 - (Packet.payload_range p).1)%nat.
Proof.
  intros W. rewrite payload_sub by done. eexists. split; [reflexivity|]. apply length_sub.
  pose proof (wf_end p W). pose proof (wf_tag p W). lia.
Qed.

Section Media.
Context `{Mrp} `{Protos}.

Lemma modify_vp8_ok p a b :
  wf p -> Packet.encrypted p = false ->
  (5 <= (Packet.payload_range p).2 - (Packet.payload_range p).1)%nat ->
  exists p', Client.modify_vp8_payload p a b = Ok p'.
Proof.
  intros W Hen L. unfold Client.modify_vp8_payload. rewrite Hen. cbn [negb assert_].
  rewrite mbind_Ok. destruct (Packet.payload_range p) as [x y] eqn:Er.
  destruct (payload_length (E:=Error) p W) as (pl & -> & Lp). rewrite mbind_Ok.
  rewrite Er in Lp. simpl in *.
  destruct (Vp8Facts.modify_header_ok (E:=Error) pl (u16 a) (u8 b)) as (pl' & -> & _); [lia|].
  rewrite mbind_Ok. by eexists.
Qed.

(** The IDs of an outgoing video packet are those its header has. *)
Lemma forwarded_ids s rs q ts h s' o out :
  Vp8SimulcastRtpForwarder.forward_vp8_rtp s rs q ts h = (s', Some (o, out)) ->
  (is_Some (Vp8SimulcastRtpForwarder.picture_id out) -> is_Some (VideoHeader.picture_id h)) /\
  (is_Some (Vp8SimulcastRtpForwarder.tl0_pic_idx out) -> is_Some (VideoHeader.tl0_pic_idx h)).
Proof.
  unfold Vp8SimulcastRtpForwarder.forward_vp8_rtp. case_if; [done|].
  destruct (Vp8SimulcastRtpForwarder.switch s rs q ts h) as [s2|]; [|done].
  destruct (Vp8SimulcastRtpForwarder.forwarding s2) as [|f]; [done|]. case_if; [|done].
  destruct (Vp8SimulcastRtpForwarder.expand_ids q ts h _) as [inc maxi] eqn:Ee.
  match goal with |- context [match ?x with _ => _ end] => destruct x as [og|] eqn:Eo end; [|done].
  intros [= _ _ <-]. apply bind_Some in Eo as (d & Ed & Eo).
  assert (forall f a b c, Vp8SimulcastRtpForwarder.combine_ids f a b = Some c ->
    (is_Some (Vp8SimulcastRtpForwarder.picture_id c) ->
       is_Some (Vp8SimulcastRtpForwarder.picture_id a) /\ is_Some (Vp8SimulcastRtpForwarder.picture_id b)) /\
    (is_Some (Vp8SimulcastRtpForwarder.tl0_pic_idx c) ->
       is_Some (Vp8SimulcastRtpForwarder.tl0_pic_idx a) /\ is_Some (Vp8SimulcastRtpForwarder.tl0_pic_idx b)))
    as C.
  { intros g a b c Hc. unfold Vp8SimulcastRtpForwarder.combine_ids in Hc.
    apply bind_Some in Hc as (x & Ex & Hc). apply bind_Some in Hc as (y & Ey & Hc).
    apply bind_Some in Hc as (z & _ & Hc). apply bind_Some in Hc as (u & _ & Hc).
    apply bind_Some in Hc as (v & _ & Hc). injection Hc as <-. simpl.
    unfold Vp8SimulcastRtpForwarder.both in Ex, Ey.
    split; intros [w ->].
    - destruct (Vp8SimulcastRtpForwarder.picture_id a), (Vp8SimulcastRtpForwarder.picture_id b); done.
    - destruct (Vp8SimulcastRtpForwarder.tl0_pic_idx a), (Vp8SimulcastRtpForwarder.tl0_pic_idx b); done. }
  destruct (C _ _ _ _ Ed) as [P1 T1], (C _ _ _ _ Eo) as [P2 T2].
  assert ((is_Some (Vp8SimulcastRtpForwarder.picture_id inc) -> is_Some (VideoHeader.picture_id h)) /\
    (is_Some (Vp8SimulcastRtpForwarder.tl0_pic_idx inc) -> is_Some (VideoHeader.tl0_pic_idx h))) as [I1 I2].
  { clear -Ee. unfold Vp8SimulcastRtpForwarder.expand_ids in Ee.
    destruct (Vp8SimulcastRtpForwarder.expand_option _ (VideoHeader.picture_id h) _) as [a1 a2] eqn:A.
    destruct (Vp8SimulcastRtpForwarder.expand_option _ (VideoHeader.tl0_pic_idx h) _) as [b1 b2] eqn:B.
    destruct (Vp8SimulcastRtpForwarder.expand_option _ (VideoHeader.truncated_frame_number h) _)
      as [c1 c2].
    destruct (Expand.expand_timestamp _ _) as [d1 d2]. injection Ee as <- _. simpl.
    unfold Vp8SimulcastRtpForwarder.expand_option in A, B.
    split; intros [w ->].
    - destruct (VideoHeader.picture_id h); [by eexists|by injection A].
    - destruct (VideoHeader.tl0_pic_idx h); [by eexists|by injection B]. }
  naive_solver.
Qed.

(** What a video header says about the payload it was read from. *)
Definition header_fits (p : Packet.t) (h : VideoHeader.t) : Prop :=
  is_Some (VideoHeader.picture_id h) -> is_Some (VideoHeader.tl0_pic_idx h) ->
  (5 <= (Packet.payload_range p).2 - (Packet.payload_range p).1)%nat.

Lemma read_header_ok p : wf p ->
  (exists e, Client.read_video_header p = Err e) \/
  (exists h, Client.read_video_header p = Ok h /\ header_fits p h).
Proof.
  intros W. unfold Client.read_video_header.
  destruct (Packet.dependency_descriptor p) as [[d r]|]; [right; eexists; split; [done|]; by intros [? ?]|].
  destruct (payload_length (E:=Error) p W) as (b & -> & L). rewrite mbind_Ok.
  pose proof (Vp8Facts.read_no_panic b). destruct (Vp8.read b) as [h|e|] eqn:Er; [|by left; eexists|done].
  right. eexists. split; [reflexivity|]. intros P T. rewrite <- L. by eapply Vp8Facts.read_length.
Qed.

Lemma rewrite_video_ok p ssrc out :
  wf p -> Packet.encrypted p = false ->
  (is_Some (Vp8SimulcastRtpForwarder.picture_id out) ->
   is_Some (Vp8SimulcastRtpForwarder.tl0_pic_idx out) ->
   (5 <= (Packet.payload_range p).2 - (Packet.payload_range p).1)%nat) ->
  exists p', Client.rewrite_video p ssrc out = Ok p'.
Proof.
  intros W Hen L. unfold Client.rewrite_video.
  destruct (rewrite_rewritten (E:=Error) p ssrc (Vp8SimulcastRtpForwarder.seqnum out)
    (u32 (Vp8SimulcastRtpForwarder.timestamp out)) W Hen) as (p1 & -> & R). rewrite mbind_Ok.
  pose proof (rw_wf _ _ _ _ _ R) as W1. pose proof (rw_encrypted _ _ _ _ _ R) as E1. rewrite Hen in E1.
  assert (Packet.payload_range p1 = Packet.payload_range p) as R1.
  { unfold Packet.payload_range. by rewrite (rw_rtx _ _ _ _ _ R), (rw_range _ _ _ _ _ R). }
  match goal with |- context [mbind _ ?m] =>
    assert (exists p2, m = Ok p2 /\ wf p2 /\ Packet.encrypted p2 = false /\
      Packet.payload_range p2 = Packet.payload_range p) as (p2 & -> & W2 & E2 & R2) end.
  { destruct (Vp8SimulcastRtpForwarder.frame_number out) as [n|]; [|by exists p1].
    match goal with |- context [Packet.set_frame_number_in_header ?q n] => set (q1 := q) end.
    assert (wf q1) as Wq.
    { destruct W1. split; try done. unfold q1. simpl.
      intros d a b Hd. destruct (Packet.dependency_descriptor p1) as [[d0 r0]|] eqn:Ed; simpl in Hd; [|done].
      injection Hd as <- ->. by apply (wf_dd0 d0). }
    destruct (set_frame_number_ok (E:=Error) q1 n Wq E1) as (p2 & -> & W2 & E2 & R2).
    exists p2. split; [done|]. split; [done|]. split; [done|]. rewrite R2, <- R1. done. }
  rewrite mbind_Ok.
  destruct (Vp8SimulcastRtpForwarder.picture_id out) as [a|]; [|by eexists].
  destruct (Vp8SimulcastRtpForwarder.tl0_pic_idx out) as [b|]; [|by eexists].
  apply modify_vp8_ok; [done|done|]. rewrite R2. apply L; by eexists.
Qed.

Lemma forward_video_ok c p vh :
  wf p -> Packet.encrypted p = false -> (forall h, vh = Some h -> header_fits p h) ->
  exists c' o, Client.forward_video_rtp c p vh = Ok (c', o) /\ core c' = core c.
Proof.
  intros W Hen Hf. unfold Client.forward_video_rtp. destruct vh as [h|]; [|by eexists _, _].
  rewrite LayersFacts.from_ssrc_ok, mbind_Ok.
  destruct (Client.video_forwarder_by_sender_demux_id c !! _) as [f|]; [|by eexists _, _].
  destruct (Vp8SimulcastRtpForwarder.forward_vp8_rtp f _ _ _ h) as [f' [[ssrc out]|]] eqn:Ef;
    [|by eexists _, _].
  apply forwarded_ids in Ef as [P T].
  destruct (rewrite_video_ok p ssrc out W Hen) as [q ->].
  { intros Hp Ht. apply (Hf h eq_refl); auto. }
  rewrite mbind_Ok. by eexists _, _.
Qed.

Lemma forward_single_ok m p : wf p -> Packet.encrypted p = false ->
  exists m' o, Client.forward_single m p = Ok (m', o).
Proof.
  intros W Hen. unfold Client.forward_single. rewrite LayersFacts.from_ssrc_ok, mbind_Ok.
  destruct (SingleSsrcRtpForwarder.forward_rtp _ _) as [f [q|]]; [|by eexists _, _].
  destruct (rewrite_rewritten (E:=Error) p (Packet.ssrc p) q (Packet.timestamp p) W Hen)
    as (p1 & -> & _). rewrite mbind_Ok. by eexists _, _.
Qed.

Lemma forward_to_ok l p vh c :
  wf p -> Packet.encrypted p = false -> (forall h, vh = Some h -> header_fits p h) ->
  exists c' o, forward_to l p vh c = Ok (c', o) /\ core c' = core c.
Proof.
  intros W Hen Hf. unfold forward_to.
  destruct l; try by apply forward_video_ok.
  - case_if; [by eexists _, _|]. unfold Client.forward_audio_rtp.
    destruct (forward_single_ok (Client.audio_forwarder_by_sender_demux_id c) p W Hen) as (m & o & ->).
    rewrite mbind_Ok. by eexists _, _.
  - unfold Client.forward_data_rtp.
    destruct (forward_single_ok (Client.data_forwarder_by_sender_demux_id c) p W Hen) as (m & o & ->).
    rewrite mbind_Ok. by eexists _, _.
Qed.

(** The loop over the receivers: at most one packet each, none to the sender. *)
Lemma forward_all_ok d l p vh cs :
  wf p -> Packet.encrypted p = false -> (forall h, vh = Some h -> header_fits p h) ->
  exists cs' out, send_to_all (forward_to_receiver d l p vh) cs = Ok (cs', out) /\
    map core cs' = map core cs /\
    map fst out `sublist_of` List.filter (fun x => negb (x =? d)) (map Client.demux_id cs).
Proof.
  intros W Hen Hf. induction cs as [|c cs IH]; cbn [send_to_all]; [by exists [], []|].
  destruct IH as (cs' & out & Eo & Ec & Hs).
  assert (exists c' o, forward_to_receiver d l p vh c = Ok (c', o) /\ core c' = core c /\
    if Client.demux_id c =? d then o = [] else map fst o `sublist_of` [Client.demux_id c])
    as (c' & o & -> & E1 & Ho).
  { unfold forward_to_receiver. destruct (Client.demux_id c =? d); [by eexists _, _|].
    destruct (forward_to_ok l p vh c W Hen Hf) as (c' & o & -> & E1). rewrite mbind_Ok.
    eexists _, _. split; [reflexivity|]. split; [done|].
    assert (Client.demux_id c' = Client.demux_id c) as D by (unfold core, member_of in E1; congruence).
    destruct o; simpl; [by rewrite D|apply sublist_nil_l]. }
  rewrite mbind_Ok, Eo, mbind_Ok. eexists _, _. split; [reflexivity|]. simpl. rewrite Ec, E1.
  split; [done|]. rewrite map_app. destruct (Client.demux_id c =? d); simpl; [by subst o|].
  by apply (sublist_app _ [Client.demux_id c]).
Qed.

(** What a handled media packet may do. *)
Definition media_result (c c' : Call.t) (d : DemuxId.t) (out : Outcome) : Prop :=
  abs c' = abs c /\
  match out with
  | Ok l => map fst l `sublist_of` List.filter (fun x => negb (x =? d)) (map Client.demux_id (clients c))
  | Err _ => True
  | Panic => False
  end.

Lemma forward_media_ok c d p vh :
  wf p -> Packet.encrypted p = false -> (forall h, vh = Some h -> header_fits p h) ->
  exists c' out, forward_media c d p vh = Ok (c', out) /\ media_result c c' d out.
Proof.
  intros W Hen Hf. unfold forward_media. cbn zeta.
  match goal with |- context [clients ?x] => set (c1 := x) end.
  assert (same c c1) as S.
  { unfold c1. destruct (Packet.audio_level p); [|apply same_refl]. by apply modify_same. }
  destruct (LayerId.from_ssrc (Packet.ssrc p)) as [l|].
  - destruct (forward_all_ok d l p vh (clients c1) W Hen Hf) as (cs' & out & -> & Ec & Hs).
    rewrite mbind_Ok. eexists _, _. split; [reflexivity|].
    split; [rewrite abs_clients by done; by apply same_abs|]. by rewrite <- (same_demux _ _ S).
  - eexists _, _. split; [reflexivity|]. split; [by apply same_abs|done].
Qed.

(** The layer states do not touch what the call knows of the sender. *)
Lemma parse_core r p now r' o :
  Client.parse_vp8_header_and_update_incoming_video_rate_and_resolution r p now = Ok (r', o) ->
  core r' = core r /\ exists h, o = Some h /\ Client.read_video_header p = Ok h.
Proof.
  unfold Client.parse_vp8_header_and_update_incoming_video_rate_and_resolution. intros Hp.
  apply bind_Ok in Hp as (h & Hh & Hp). apply bind_Ok in Hp as ([v put] & Hv & Hp).
  injection Hp as <- <-. split; [|by exists h].
  assert (forall v', core (put v') = core r) as P.
  { unfold Client.video_layer in Hv.
    destruct (LayerId.from_ssrc (Packet.ssrc p)) as [[]|]; try done; injection Hv as _ <-; done. }
  assert (forall l x, core (Client.apply_new_resolution l x) = core x) as A.
  { intros l x. unfold Client.apply_new_resolution. by destruct l as [[]|]. }
  destruct (Packet.video_rotation p); case_if; rewrite ?A; apply P.
Qed.

Lemma handle_media_ok c d p now :
  wf p -> Packet.encrypted p = false ->
  exists c' out, handle_media_rtp c d p now = Ok (c', out) /\ media_result c c' d out.
Proof.
  intros W Hen. unfold handle_media_rtp.
  destruct (find_client c d) as [r|] eqn:Hr; [|by eexists _, _].
  rewrite LayersFacts.from_ssrc_ok, mbind_Ok.
  case_if; [by eexists _, _|]. case_if; [|by apply forward_media_ok].
  destruct (Client.parse_vp8_header_and_update_incoming_video_rate_and_resolution r p now)
    as [[r' o]|e|] eqn:Ep.
  - apply parse_core in Ep as (Ec & h & -> & Eh).
    assert (same c (modify_client d (fun _ => r') c)) as S.
    { apply modify_same. intros x Hx. rewrite Hr in Hx. by injection Hx as <-. }
    destruct (forward_media_ok (modify_client d (fun _ => r') c) d p (Some h) W Hen)
      as (c' & out & -> & A & O).
    { intros h1 [= <-]. destruct (read_header_ok p W) as [[e Ee]|(h2 & Eh2 & F)]; [congruence|].
      rewrite Eh in Eh2. by injection Eh2 as <-. }
    eexists _, _. split; [reflexivity|]. split; [rewrite A; by apply same_abs|].
    destruct out; [|done..]. by rewrite <- (same_demux _ _ S).
  - by eexists _, _.
  - exfalso. unfold Client.parse_vp8_header_and_update_incoming_video_rate_and_resolution in Ep.
    destruct (read_header_ok p W) as [[e Ee]|(h' & Eh' & F)]; [by rewrite Ee in Ep|].
    rewrite Eh', mbind_Ok in Ep. by destruct (Client.video_layer _ r) as [[v put]|].
Qed.

End Media.
End MediaFacts.
