(* ===== verification/CallProperties.v ===== *)
(** * CallProperties: what holds of a call whatever happens to it

    The events are the calls [src/backend/src/sfu.rs] makes to a [Call]; the
    theorems are about every call reachable through them. *)
From stdpp Require Import strings.
From S2P Require Import Prelude Common Collections Float Bytes Srtp RtpHeader Audio Vp8.
From S2P Require Import Packet Layers Allocation Forwarders ApprovedUsers Client Call.
From S2P Require Import CallHandlers CallSpec CallFacts MediaFacts.

Module CallEvents.
Import Call Handlers Spec CallFacts.

Section CallEvents.
Context `{Mrp} `{Protos}.

(** The public operations of [Call] that change its state. *)
Inductive Event :=
| AddClient (d : DemuxId.t) (u : UserId) (admin : bool) (region : Region.Relation)
| DropClient (d : DemuxId.t)
| Rtp (d : DemuxId.t) (p : Packet.t)
| KeyFrameRequests (d : DemuxId.t) (ssrcs : list Z)
| SetTargetSendRate (d : DemuxId.t) (rate : Z)
| SetQueueDrainRate (d : DemuxId.t) (rate : Z)
| SetConnectionRates (d : DemuxId.t) (rates : ConnectionRates)
| Tick (outcome : option ApprovedUsers.Outcome) (runtime : bool)
| Activity (timeout : Z) (outcome : option ApprovedUsers.Outcome) (runtime : bool).

Definition perform (c : Call.t) (now : Z) (e : Event) : Res Error Call.t :=
  match e with
  | AddClient d u admin region => r ← add_client c d u admin region now; Ok r.1
  | DropClient d => drop_client c d now
  | Rtp d p => r ← handle_rtp c d p now; Ok r.1
  | KeyFrameRequests d ssrcs => r ← handle_key_frame_requests c d ssrcs now; Ok r.1
  | SetTargetSendRate d rate => Ok (set_target_send_rate c d rate now).1
  | SetQueueDrainRate d rate => Ok (set_outgoing_queue_drain_rate c d rate).1
  | SetConnectionRates d rates => Ok (set_connection_rates c d rates).1
  | Tick outcome runtime => r ← tick c now outcome runtime; Ok r.1.1
  | Activity timeout outcome runtime => Ok (activity c now timeout outcome runtime).1
  end.

(** The message a packet carries, if it is one. *)
Definition message_of (p : Packet.t) : option Proto.DeviceToSfu :=
  if (Packet.ssrc p =? CLIENT_SERVER_DATA_SSRC)
     && (Packet.payload_type p =? CLIENT_SERVER_DATA_PAYLOAD_TYPE)
  then match Packet.payload (E:=Error) p with Ok payload => decode payload | _ => None end
  else None.

(** What an event means for the membership.  MRP decides which messages of a
    reliable stream are delivered; everything else is determined. *)
Inductive spec_step (s : State) : Event -> State -> Prop :=
| step_add d u admin region :
    spec_step s (AddClient d u admin region) (add s (member d u admin)).1
| step_drop d : spec_step s (DropClient d) (drop s d)
| step_media d p : message_of p = None -> spec_step s (Rtp d p) s
| step_leave d p m :
    message_of p = Some m -> Proto.d_leave m = true -> spec_step s (Rtp d p) (drop s d)
| step_message d p m :
    message_of p = Some m -> Proto.d_leave m = false -> Proto.d_mrp_header m = None ->
    spec_step s (Rtp d p) (message s d m)
| step_reliable d p m ready :
    message_of p = Some m -> Proto.d_leave m = false -> is_Some (Proto.d_mrp_header m) ->
    spec_step s (Rtp d p) (messages s d ready)
| step_key_frames d ssrcs : spec_step s (KeyFrameRequests d ssrcs) s
| step_target_rate d rate : spec_step s (SetTargetSendRate d rate) s
| step_drain_rate d rate : spec_step s (SetQueueDrainRate d rate) s
| step_rates d rates : spec_step s (SetConnectionRates d rates) s
| step_tick outcome runtime : spec_step s (Tick outcome runtime) s
| step_activity timeout outcome runtime : spec_step s (Activity timeout outcome runtime) s.

(** Incoming packets are parsed and decrypted by the connection. *)
Definition decrypted (e : Event) : Prop :=
  match e with
  | Rtp _ p => PacketFacts.wf p /\ Packet.encrypted p = false
  | _ => True
  end.

(** The SFU refuses to add a demux ID that [has_client] knows.  Which users may
    join with which admin bit is a parameter, [fun _ _ => True] for any. *)
Definition admissible (admin_of : UserId -> bool -> Prop) (c : Call.t) (e : Event) : Prop :=
  decrypted e /\
  match e with
  | AddClient d u admin _ => has_client c d = false /\ admin_of u admin
  | _ => True
  end.

Inductive reachable (admin_of : UserId -> bool -> Prop) : Call.t -> Prop :=
| reach_new room creator require persist interval rate max_rate now system_now users url :
    reachable admin_of
      (Call.new room creator require persist interval rate max_rate now system_now users url)
| reach_event c now e c' :
    reachable admin_of c -> admissible admin_of c e -> perform c now e = Ok c' ->
    reachable admin_of c'.

End CallEvents.
End CallEvents.

(** * Theorems *)

Module CallEventFacts.
Import Call Handlers Spec SpecFacts CallFacts MediaFacts CallEvents.

Section CallEventFacts.
Context `{Mrp} `{Protos}.

Lemma modify_same_abs c d f :
  (forall x, core (f x) = core x) -> abs (modify_client d f c) = abs c.
Proof. intros E. apply same_abs, modify_same. auto. Qed.

Lemma activity_abs c now timeout outcome runtime : abs (activity c now timeout outcome runtime).1 = abs c.
Proof.
  unfold activity. destruct (clients c) eqn:E1, (pending_clients c) eqn:E2, (removed_clients c) eqn:E3; try done.
  cbn. unfold abs. simpl. by rewrite ApprovedUsersFacts.tick_set.
Qed.

Lemma rtp_ok c d p now :
  PacketFacts.wf p -> Packet.encrypted p = false ->
  exists c' out, handle_rtp c d p now = Ok (c', out) /\ spec_step (abs c) (Rtp d p) (abs c') /\
    (forall m, message_of p = Some m -> Proto.d_leave m = true -> out = Err Leave).
Proof.
  intros W Hen. unfold handle_rtp.
  destruct (_ && _) eqn:Hk.
  2: { destruct (handle_media_ok c d p now W Hen) as (c' & out & -> & E & _).
       assert (message_of p = None) as M by (unfold message_of; by rewrite Hk).
       eexists _, _. split; [reflexivity|]. rewrite E, M. split; [by apply step_media|done]. }
  destruct (payload_length (E:=Error) p W) as (b & Hb & _).
  assert (message_of p = decode b) as M by (unfold message_of; by rewrite Hk, Hb).
  rewrite Hb, mbind_Ok. destruct (decode b) as [m|].
  2: { eexists _, _. split; [reflexivity|]. rewrite M. split; [by apply step_media|done]. }
  destruct (device_to_sfu_ok c m d now) as (c' & out & -> & E).
  eexists _, _. split; [reflexivity|]. rewrite M. destruct (Proto.d_leave m) eqn:Hl.
  { destruct E as [-> ->]. split; [by apply (step_leave _ _ _ m)|done]. }
  split; [|intros ? [= <-]; congruence]. rewrite E. unfold delivered. destruct (Proto.d_mrp_header m) as [h|] eqn:Hh.
  - apply (step_reliable _ _ _ m); [done..|by rewrite Hh].
  - assert (messages (abs c) d (match find_client c d with Some _ => [m] | None => [] end) =
            message (abs c) d m) as F.
    { destruct (find_client c d) eqn:Hf; [done|]. unfold message, messages. simpl.
      by rewrite find_participant_abs, Hf. }
    rewrite F. by apply (step_message _ _ _ m).
Qed.

Lemma perform_ok c now e :
  decrypted e -> exists c', perform c now e = Ok c' /\ spec_step (abs c) e (abs c').
Proof.
  destruct e as [d u admin region|d|d p|d ssrcs|d rate|d rate|d rates|outcome runtime|timeout outcome runtime]; simpl.
  - intros _. destruct (add_ok c d u admin region now) as (c' & st & -> & E).
    rewrite mbind_Ok. eexists. split; [reflexivity|].
    simpl. replace (abs c') with (add (abs c) (member d u admin)).1 by (by rewrite E).
    apply step_add.
  - intros _. destruct (drop_ok c d now) as (c' & -> & E). eexists. split; [done|].
    rewrite E. constructor.
  - intros [W Hen]. destruct (rtp_ok c d p now W Hen) as (c' & out & -> & S & _).
    rewrite mbind_Ok. by eexists.
  - intros _. destruct (handle_key_frames_keep c d ssrcs now) as (c' & out & -> & E).
    rewrite mbind_Ok. eexists. split; [reflexivity|]. simpl. rewrite E. constructor.
  - intros _. eexists. split; [reflexivity|]. unfold set_target_send_rate.
    destruct (find_client c d); simpl; [|constructor].
    rewrite modify_same_abs; [constructor|]. intros x. repeat case_if; done.
  - intros _. eexists. split; [reflexivity|]. unfold set_outgoing_queue_drain_rate.
    destruct (find_client c d); simpl; [|constructor].
    rewrite modify_same_abs; [constructor|done].
  - intros _. eexists. split; [reflexivity|]. unfold set_connection_rates.
    destruct (find_client c d); simpl; [|constructor].
    rewrite modify_same_abs; [constructor|done].
  - intros _. destruct (tick_keeps c now outcome runtime) as (c' & out & kfs & -> & E).
    rewrite mbind_Ok. eexists. split; [reflexivity|]. simpl. rewrite E. constructor.
  - intros _. eexists. split; [reflexivity|]. rewrite activity_abs. constructor.
Qed.

(** ** The invariant along events *)

Lemma inv_acts admin_of f l :
  (forall s d, inv admin_of s -> inv admin_of (f s d)) ->
  forall s, inv admin_of s -> inv admin_of (fold_left (act f) l s).
Proof.
  intros Hf. induction l as [|t l IH]; intros s I; simpl; [done|]. apply IH.
  unfold act. destruct t as [raw|]; [|done]. destruct (DemuxId.try_from raw); [|done..].
  by apply Hf.
Qed.

Lemma inv_message admin_of s d m : inv admin_of s -> inv admin_of (message s d m).
Proof.
  intros I. unfold message. destruct (find_participant s d) as [x|]; [|done].
  destruct (m_admin x); [|done]. unfold admin_actions.
  apply inv_acts; [apply inv_block|]. apply inv_acts; [apply inv_force_remove|].
  apply inv_acts; [apply inv_deny|]. by apply inv_acts; [apply inv_approve|].
Qed.

Lemma inv_messages admin_of d ms : forall s, inv admin_of s -> inv admin_of (messages s d ms).
Proof.
  unfold messages. induction ms as [|m ms IH]; intros s I; simpl; [done|].
  by apply IH, inv_message.
Qed.

(** The devices of a user that participate or wait. *)
Definition devices (u : UserId) (c : Call.t) : list DemuxId.t :=
  map m_demux (List.filter (Spec.of_user u) (members (abs c) ++ pending (abs c))).

Lemma elem_of_devices u c d : d ∈ devices u c <-> exists m, m ∈ members (abs c) ++ pending (abs c) /\ m_user m = u /\ m_demux m = d.
Proof.
  unfold devices. rewrite list_elem_of_fmap. split.
  - intros (m & -> & [Hm Hu]%filter_elem). apply of_user_true in Hu. eauto.
  - intros (m & Hm & Hu & <-). exists m. split; [done|]. apply filter_elem. split; [done|]. by apply of_user_true.
Qed.

Lemma kept_out_step s e s' u : spec_step s e s' -> kept_out u s s'.
Proof.
  intros [d u' admin region|d|d p _|d p m _ _|d p m _ _ _|d p m ready _ _ _|d ssrcs|d rate|d rate|d rates|outcome runtime|timeout outcome runtime];
    try apply kept_out_refl.
  - apply kept_out_add.
  - apply kept_out_drop.
  - apply kept_out_drop.
  - apply kept_out_message.
  - unfold messages. revert s. induction ready as [|x l IH]; intros s; [apply kept_out_refl|].
    eapply kept_out_trans; [apply kept_out_message|apply IH].
Qed.

Lemma has_client_demux c d :
  has_client c d = false -> d ∉ demux_ids (abs c).
Proof.
  unfold has_client, demux_ids. intros [[Ha Hb]%orb_false_iff Hc]%orb_false_iff.
  simpl. rewrite !map_app, !map_map, !elem_of_app.
  assert (forall {A} (p : A -> bool) (g : A -> Z) (l : list A),
    (forall x, p x = (g x =? d)) -> existsb p l = false -> d ∉ map g l) as N.
  { intros A p g l Hp He [x [Ex Hx]]%list_elem_of_fmap.
    rewrite <- not_true_iff_false, existsb_exists in He. apply He. exists x.
    rewrite <- list_elem_of_In. split; [done|]. rewrite Hp. lia. }
  intros [Hx|[Hx|Hx]]; revert Hx; eapply N; done.
Qed.

Lemma inv_spec_step admin_of c e s' :
  admissible admin_of c e -> inv admin_of (abs c) -> spec_step (abs c) e s' -> inv admin_of s'.
Proof.
  intros [_ A] I S. destruct S; try done.
  - destruct A as [Hd ?]. apply inv_add; [done| |done]. by apply has_client_demux.
  - by apply inv_drop.
  - by apply inv_drop.
  - by apply inv_message.
  - by apply inv_messages.
Qed.

Lemma reachable_inv admin_of c : reachable admin_of c -> inv admin_of (abs c).
Proof.
  induction 1 as [|c now e c' _ IH A P].
  - split; simpl; try done; [apply NoDup_nil_2|..]; intros x Hx; by apply elem_of_nil in Hx.
  - destruct (perform_ok c now e (proj1 A)) as (c1 & E & S). rewrite P in E. injection E as <-.
    by eapply inv_spec_step.
Qed.

Lemma demux_ids_clients admin_of (c : Call.t) :
  inv admin_of (abs c) -> NoDup (map Client.demux_id (clients c)).
Proof.
  intros [N _ _ _ _ _ _]. unfold demux_ids in N. simpl in N. rewrite !map_app, !map_map in N.
  by apply NoDup_app in N as [N _].
Qed.

(** What [assign_padding] gives each client. *)
Lemma padding_lookup (l : list Client.t) x :
  map core l = assign_padding (map core l) -> NoDup (map Client.demux_id l) -> x ∈ l ->
  match Client.padding_ssrc x with
  | Some ssrc => exists y, y ∈ l /\ Client.demux_id y ≠ Client.demux_id x /\
      ssrc = LayerId.to_rtx_ssrc LayerId.Video0 (Client.demux_id y)
  | None => l = [x]
  end.
Proof.
  destruct l as [|a [|b l]]; simpl; intros E N Hx; [by apply elem_of_nil in Hx|..].
  - injection E as E. apply list_elem_of_singleton in Hx as ->. by rewrite E.
  - injection E as Ea Eb El. apply NoDup_cons in N as [Na N].
    assert (Client.demux_id a ≠ Client.demux_id b) as Hab by set_solver.
    apply elem_of_cons in Hx as [->|[->|Hx]%elem_of_cons].
    + rewrite Ea. exists b. split; [set_solver|]. by split.
    + rewrite Eb. exists a. split; [set_solver|]. by split.
    + apply list_elem_of_lookup in Hx as [i Hi].
      assert (map core l !! i = Some (core x)) as Hc by (by rewrite list_lookup_fmap, Hi).
      rewrite El, list_lookup_fmap, list_lookup_fmap, Hi in Hc. simpl in Hc.
      injection Hc as Ex. rewrite <- Ex. exists a. split; [set_solver|]. split; [|done].
      intros Eq. apply Na. rewrite Eq. right. apply list_elem_of_fmap. exists x. split; [done|].
      by apply list_elem_of_lookup_2 in Hi.
Qed.

Lemma messages_powerless s d ms :
  (forall m, find_participant s d = Some m -> m_admin m = false) -> messages s d ms = s.
Proof.
  intros Ha. unfold messages. induction ms as [|x ms IH]; simpl; [done|].
  assert (message s d x = s) as ->; [|done]. unfold message.
  destruct (find_participant s d) as [m|]; [|done]. by rewrite Ha.
Qed.

Lemma filter_sublist {A} (p : A -> bool) (l : list A) : List.filter p l `sublist_of` l.
Proof. induction l as [|x l IH]; simpl; [done|]. destruct (p x); by constructor. Qed.

End CallEventFacts.
End CallEventFacts.

(** ** Key frame requests *)
Module KeyFrameFacts.
Import Call Handlers.

Section KeyFrameFacts.
Context `{Mrp} `{Protos}.

(** The height of the video on an SSRC, as last received. *)
Definition video_height (c : Call.t) (ssrc : Z) : Z :=
  match incoming_video_height c ssrc with Ok h => unwrap_or h 0 | _ => 0 end.

(** Enough time has passed since the last request for the SSRC. *)
Definition may_request (c : Call.t) (now ssrc : Z) : Prop :=
  match key_frame_request_sent_by_ssrc c !! ssrc with
  | None => True
  | Some sent =>
      sent + KEY_FRAME_REQUEST_RESEND_INTERVAL <= now /\
      (720 < video_height c ssrc -> sent + HIGH_RES_KEY_FRAME_REQUEST_RESEND_INTERVAL <= now)
  end.

(** Some receiver waits for a key frame on the SSRC. *)
Definition wanted (c : Call.t) (ssrc : Z) : Prop :=
  exists receiver sender forwarder,
    receiver ∈ clients c /\
    Client.video_forwarder_by_sender_demux_id receiver !! sender = Some forwarder /\
    Vp8SimulcastRtpForwarder.needs_key_frame forwarder = Some ssrc.

Lemma desired_wanted c ssrc : ssrc ∈ desired_incoming_ssrcs c <-> wanted c ssrc.
Proof.
  unfold desired_incoming_ssrcs, wanted. rewrite elem_of_list_to_set, list_elem_of_join. split.
  - intros (l & Hs & (r & -> & Hr)%list_elem_of_fmap).
    apply list_elem_of_omap in Hs as ([d f] & Hf%elem_of_map_to_list & Hn).
    by exists r, d, f.
  - intros (r & d & f & Hr & Hf & Hn). eexists. split; [|apply list_elem_of_fmap; by exists r].
    apply list_elem_of_omap. exists (d, f). by rewrite elem_of_map_to_list.
Qed.

(** One SSRC. *)
Lemma request_key_frame_spec c now ssrc :
  exists m out, request_key_frame c now ssrc = Ok (c <| key_frame_request_sent_by_ssrc := m |>, out) /\
    ((may_request c now ssrc /\ out = [(DemuxId.of_ssrc ssrc, ssrc)] /\
      m = <[ssrc := now]> (key_frame_request_sent_by_ssrc c)) \/
     (~ may_request c now ssrc /\ out = [] /\ m = key_frame_request_sent_by_ssrc c)).
Proof.
  unfold request_key_frame, may_request, video_height.
  assert (c <| key_frame_request_sent_by_ssrc := key_frame_request_sent_by_ssrc c |> = c) as Ec
    by (by destruct c).
  unfold incoming_video_height. rewrite !LayersFacts.from_ssrc_ok, !mbind_Ok.
  destruct (key_frame_request_sent_by_ssrc c !! ssrc) as [s|].
  2: { rewrite andb_false_r. eexists _, _. split; [reflexivity|]. by left. }
  set (h := unwrap_or _ 0). case_if; boolsplit.
  { eexists (key_frame_request_sent_by_ssrc c), _. rewrite Ec. split; [reflexivity|]. right. split; [lia|done]. }
  case_if; boolsplit.
  - eexists (key_frame_request_sent_by_ssrc c), _. rewrite Ec. split; [reflexivity|]. right.
    split; [intros [_ F]; specialize (F ltac:(lia)); lia|done].
  - eexists _, _. split; [reflexivity|]. left. split; [|done]. lia.
Qed.

(** Many: each is requested exactly when it may be. *)
Lemma request_key_frames_spec now ssrcs : forall c, NoDup ssrcs ->
  exists m out, request_key_frames c now ssrcs = Ok (c <| key_frame_request_sent_by_ssrc := m |>, out) /\
    NoDup (map snd out) /\
    (forall ssrc, ssrc ∈ map snd out <-> ssrc ∈ ssrcs /\ may_request c now ssrc) /\
    (forall e, e ∈ out -> e.1 = DemuxId.of_ssrc e.2) /\
    (forall ssrc, m !! ssrc = if decide (ssrc ∈ map snd out) then Some now
                              else key_frame_request_sent_by_ssrc c !! ssrc).
Proof.
  induction ssrcs as [|x l IH]; intros c N; cbn [request_key_frames].
  { exists (key_frame_request_sent_by_ssrc c), []. split; [by destruct c|]. simpl.
    split; [constructor|]. split; [|split; [|done]]; set_solver. }
  apply NoDup_cons in N as [Hx N].
  destruct (request_key_frame_spec c now x) as (m1 & o1 & -> & H1). rewrite mbind_Ok.
  set (c1 := c <| key_frame_request_sent_by_ssrc := m1 |>).
  destruct (IH c1 N) as (m2 & o2 & -> & N2 & Ho & Hd & Hm). rewrite mbind_Ok.
  assert (forall y, y ∈ l -> may_request c1 now y <-> may_request c now y) as M1.
  { intros y Hy. unfold may_request. simpl.
    assert (m1 !! y = key_frame_request_sent_by_ssrc c !! y) as ->; [|done].
    destruct H1 as [(_ & _ & ->)|(_ & _ & ->)]; [|done]. rewrite lookup_insert_ne; [done|].
    intros ->. done. }
  exists m2, (o1 ++ o2). split; [done|]. rewrite map_app.
  assert (forall y, y ∈ map snd o1 <-> y = x /\ may_request c now x) as Ho1.
  { intros y. destruct H1 as [(Hq & -> & _)|(Hq & -> & _)]; simpl; set_solver. }
  split; [|split; [|split]].
  - apply NoDup_app. split; [|split; [|done]].
    + destruct H1 as [(_ & -> & _)|(_ & -> & _)]; simpl; [apply NoDup_singleton|apply NoDup_nil_2].
    + intros y [-> _]%Ho1 [Hy _]%Ho. done.
  - intros y. rewrite elem_of_app, Ho1, Ho, elem_of_cons. split.
    + intros [[-> Hq]|[Hy Hq]]; [by auto|]. rewrite M1 in Hq by done. auto.
    + intros [[->|Hy] Hq]; [by auto|]. right. by rewrite M1.
  - intros e [He|He]%elem_of_app; [|by apply Hd].
    destruct H1 as [(_ & -> & _)|(_ & -> & _)]; set_solver.
  - intros y. rewrite Hm. simpl. destruct (decide (y ∈ map snd o2)) as [Hy|Hy].
    { rewrite decide_True by (apply elem_of_app; by right). done. }
    destruct H1 as [(Hq & -> & ->)|(Hq & -> & ->)]; simpl.
    + destruct (decide (y = x)) as [->|Hne].
      * rewrite lookup_insert_eq, decide_True; [done|]. by left.
      * rewrite lookup_insert_ne by done. rewrite decide_False; [done|]. set_solver.
    + rewrite decide_False; [done|]. done.
Qed.

End KeyFrameFacts.
End KeyFrameFacts.

(** ** Raised hands *)
Module HandFacts.
Import Call.

Section HandFacts.
Context `{Mrp}.

(** A device has at most one entry, and exactly the devices with an entry have a
    sequence number. *)
Definition hands_ok (c : Call.t) : Prop :=
  match raised_hands c with
  | None => raised_hands_seqnums c = ∅
  | Some hands =>
      NoDup (map hand_demux_id hands) /\
      forall d, d ∈ map hand_demux_id hands <-> is_Some (raised_hands_seqnums c !! d)
  end.

Lemma delete_filter d i h (hands : list RaisedHand) :
  NoDup (map hand_demux_id hands) -> list_find (is_hand d) hands = Some (i, h) ->
  delete i hands = List.filter (fun h => negb (is_hand d h)) hands.
Proof.
  revert i. induction hands as [|x l IH]; intros i N; [done|]. simpl in N |- *.
  apply NoDup_cons in N as [Hx N]. destruct (decide (is_hand d x)) as [Hd|Hd].
  - intros [= <- ->]. apply Is_true_true in Hd. rewrite Hd. simpl.
    symmetry. apply SpecFacts.filter_all. intros y Hy. apply negb_true_iff.
    unfold is_hand in *. apply Z.eqb_neq. intros E. apply Hx. apply list_elem_of_fmap.
    exists y. split; [|done]. lia.
  - intros ([j y] & Hj & [= -> ->])%fmap_Some. destruct (is_hand d x) eqn:E; [done|]. simpl.
    f_equal. by apply IH.
Qed.

(** Replacing the hand of [d]. *)
Lemma hands_replace d r q (hands : list RaisedHand) (m : gmap Z Z) :
  NoDup (map hand_demux_id hands) ->
  (forall x, x ∈ map hand_demux_id hands <-> is_Some (m !! x)) ->
  let hands' := List.filter (fun h => negb (is_hand d h)) hands ++ [raised_hand d r] in
  NoDup (map hand_demux_id hands') /\
  (forall x, x ∈ map hand_demux_id hands' <-> is_Some (<[d := q]> m !! x)).
Proof.
  intros N D hands'.
  assert (map hand_demux_id hands' =
    List.filter (fun x => negb (x =? d)) (map hand_demux_id hands) ++ [d]) as ->.
  { unfold hands'. rewrite map_app. f_equal. by rewrite CallFacts.filter_map_comm. }
  split.
  - apply NoDup_app. split; [|split; [|apply NoDup_singleton]].
    + apply NoDup_ListNoDup, List.NoDup_filter, NoDup_ListNoDup, N.
    + intros x [_ Hx]%SpecFacts.filter_elem ->%list_elem_of_singleton.
      by rewrite Z.eqb_refl in Hx.
  - intros x. rewrite elem_of_app, SpecFacts.filter_elem, list_elem_of_singleton, D, negb_true_iff.
    destruct (decide (x = d)) as [->|Hx].
    + rewrite lookup_insert_eq. split; [by eexists|by right].
    + rewrite lookup_insert_ne by done. split; [intros [[? _]|?]; done|].
      intros Hs. left. split; [done|]. by apply Z.eqb_neq.
Qed.

Lemma raise_hand_spec c now rh d r q :
  hands_ok c -> Proto.raise rh = Some r -> Proto.raise_seqnum rh = Some q ->
  let c' := handle_raise_hand c now rh d in
  hands_ok c' /\
  if match raised_hands_seqnums c !! d with Some q0 => q0 <? q | None => true end then
    raised_hands c' =
      Some (List.filter (fun h => negb (is_hand d h)) (unwrap_or (raised_hands c) [])
            ++ [raised_hand d r]) /\
    raised_hands_seqnums c' = <[d := q]> (raised_hands_seqnums c)
  else raised_hands c' = raised_hands c /\ raised_hands_seqnums c' = raised_hands_seqnums c.
Proof.
  intros Hok Hr Hq. unfold handle_raise_hand. rewrite Hr, Hq. cbv zeta.
  set (hands := unwrap_or (raised_hands c) []).
  assert (NoDup (map hand_demux_id hands) /\
    forall x, x ∈ map hand_demux_id hands <-> is_Some (raised_hands_seqnums c !! x)) as [N D].
  { unfold hands_ok, hands in *. destruct (raised_hands c); simpl; [done|]. rewrite Hok.
    split; [constructor|]. intros x. rewrite lookup_empty, elem_of_nil. split; [done|].
    by intros [? ?]. }
  simpl. destruct (hands_replace d r q hands _ N D) as [N' D'].
  destruct (list_find (is_hand d) hands) as [[i h]|] eqn:Hf.
  - pose proof (delete_filter d i h hands N Hf) as Ed.
    apply list_find_Some in Hf as (Hi & Hd & _). apply Is_true_true in Hd.
    assert (is_Some (raised_hands_seqnums c !! d)) as [q0 Hq0].
    { apply D, list_elem_of_fmap. exists h. split; [unfold is_hand in Hd; lia|].
      by apply list_elem_of_lookup_2 in Hi. }
    rewrite Hq0. assert (raised_hands c = Some hands) as Eh.
    { unfold hands in *. by destruct (raised_hands c); simpl in *. }
    destruct (q0 <? q).
    + split; [|split; [|done]]; unfold hands_ok; simpl; rewrite Ed; done.
    + unfold hands_ok. simpl. rewrite Eh. done.
  - apply list_find_None in Hf. rewrite Forall_forall in Hf.
    assert (raised_hands_seqnums c !! d = None) as Hn.
    { apply eq_None_not_Some. intros Hs%D. apply list_elem_of_fmap in Hs as (h & -> & Hh).
      apply (Hf h Hh). apply Is_true_true. apply Z.eqb_refl. }
    rewrite Hn. assert (List.filter (fun h => negb (is_hand d h)) hands = hands) as Ef.
    { apply SpecFacts.filter_all. intros h Hh. apply negb_true_iff, not_true_iff_false.
      intros E%Is_true_true. by apply (Hf h). }
    rewrite Ef in N', D' |- *. unfold hands_ok. simpl. done.
Qed.

End HandFacts.
End HandFacts.

(** ** A sample call

    Alice is an admin and joins; Bob waits for approval and is approved; Carol
    waits.  The messages are single bytes. *)
Module SampleCall.
Import Call Handlers CallEvents CallEventFacts.

Definition nothing : Proto.DeviceToSfu :=
  Proto.device_to_sfu None false [] [] [] [] None None.

#[export] Instance sample_mrp : Mrp := {|
  MrpStream := unit;
  MrpReceiveError := unit;
  mrp_new := fun _ => tt;
  mrp_receive := fun s _ proto => (s, inr [proto]);
  mrp_try_send_ack := fun s => (s, None);
  mrp_try_resend := fun s _ => (s, [])
|}.

#[export] Instance sample_protos : Protos := {|
  decode := fun b =>
    match b with
    | [0] => Some (Proto.device_to_sfu None true [] [] [] [] None None)
    | [1; d] => Some (Proto.device_to_sfu None false [Some d] [] [] [] None None)
    | [2; d] => Some (Proto.device_to_sfu None false [] [Some d] [] [] None None)
    | [3; d] => Some (Proto.device_to_sfu None false [] [] [Some d] [] None None)
    | [4; d] => Some (Proto.device_to_sfu None false [] [] [] [Some d] None None)
    | _ => None
    end;
  encode_to_vec := fun _ => [9]
|}.

(** A packet with two bytes of payload. *)
Definition data_packet (pt ssrc a b : Z) : Packet.t :=
  Packet.mk false pt ssrc 1 None false 5 None None None None None (12, 14)%nat false None 0
    ([128; 101; 0; 1; 0; 0; 0; 5; 0; 0; 0; 1; a; b] ++ replicate 16 0).

Lemma data_packet_wf pt ssrc a b : byte_ok a -> byte_ok b -> PacketFacts.wf (data_packet pt ssrc a b).
Proof.
  intros Ha Hb. split; [simpl; lia| |reflexivity| |discriminate|discriminate].
  - unfold Packet.payload_range. destruct (Packet.is_rtx _); simpl; lia.
  - simpl. repeat (apply Forall_cons; split; [first [done|unfold byte_ok, uint; lia]|]). constructor.
Qed.

(** The call after an event. *)
Definition after (c : Call.t) (e : Z * Event) : Call.t :=
  match perform c e.1 e.2 with Ok c' => c' | _ => c end.

Lemma reach_after admin_of c e :
  reachable admin_of c -> admissible admin_of c e.2 -> reachable admin_of (after c e).
Proof.
  intros R A. destruct (perform_ok c e.1 e.2 (proj1 A)) as (c' & E & _). unfold after.
  rewrite E. by eapply reach_event.
Qed.

Definition admin_of (u : UserId) (admin : bool) : Prop := admin = bool_decide (u = "alice"%string).

Definition empty_call : Call.t :=
  Call.new (Some "room"%string) "alice"%string true true 1000 (2 * 10 ^ 6) (10 ^ 7) 0 0 None false.

Definition message (d a b : Z) : Event := Rtp d (data_packet 101 1 a b).

Definition joined : list (Z * Event) :=
  [(10, AddClient 16 "alice"%string true Region.RelUnknown);
   (20, AddClient 32 "bob"%string false Region.RelUnknown);
   (30, message 16 1 32);
   (40, AddClient 48 "carol"%string false Region.RelUnknown);
   (50, Tick None false)].

Definition call_of (events : list (Z * Event)) : Call.t := fold_left after events empty_call.

Fixpoint all_admissible (c : Call.t) (events : list (Z * Event)) : Prop :=
  match events with
  | [] => True
  | e :: events => admissible admin_of c e.2 /\ all_admissible (after c e) events
  end.

Lemma reach_call_of events : all_admissible empty_call events -> reachable admin_of (call_of events).
Proof.
  unfold call_of. assert (reachable admin_of empty_call) as R by apply reach_new. revert R.
  generalize empty_call as c. induction events as [|e l IH]; simpl; intros c R A; [done|].
  destruct A as [A1 A2]. apply IH; [by apply reach_after|done].
Qed.

Ltac solve_admissible :=
  repeat (split; [split;
    [first [exact I | split; [apply data_packet_wf; unfold byte_ok, uint; lia|reflexivity]]
    |first [exact I | split; reflexivity | vm_compute; split; reflexivity]]|]); exact I.

Lemma joined_reachable : reachable admin_of (call_of joined).
Proof. apply reach_call_of. solve_admissible. Qed.

(** Alice blocks Bob. *)
Definition with_block : list (Z * Event) := joined ++ [(60, message 16 4 32)].

Lemma with_block_reachable : reachable admin_of (call_of with_block).
Proof. apply reach_call_of. solve_admissible. Qed.

End SampleCall.

(** ** The properties *)
Module CallProperties.
Import Call Handlers Spec SpecFacts CallFacts MediaFacts CallEvents CallEventFacts.
Import KeyFrameFacts HandFacts.

Section CallProperties.
Context `{Mrp} `{Protos}.

(** C1: Calls implement the membership specification and never panic: every event, in any state
    of a call (an incoming packet being parsed and decrypted), ends in a state whose membership
    (participants with their padding SSRCs, pending and removed members, approved, denied and
    blocked users) is the one [Spec] gives for the event. *)
Theorem call_refines_membership c now e :
  decrypted e -> exists c', perform c now e = Ok c' /\ spec_step (abs c) e (abs c').
Proof. apply perform_ok. Qed.


(** Demux IDs are unique: in every reachable call, no two of the clients, pending and removed
    devices have the same demux ID. *)
Theorem demux_ids_unique admin_of c :
  reachable admin_of c ->
  NoDup (map Client.demux_id (clients c) ++
         map NonParticipantClient.demux_id (pending_clients c ++ removed_clients c)).
Proof.
  intros R. pose proof (inv_demux _ _ (reachable_inv _ _ R)) as I. unfold demux_ids in I.
  simpl in I. rewrite !map_app, !map_map in I. by rewrite map_app.
Qed.

(** Blocking a user forgets the devices of the user that wait for approval: when a user whose
    one device is in the call and whose other waits is blocked, approving the other, as an admin
    may do at any time later, lets the blocked user back into the call. *)
Theorem blocked_user_approved c d1 d2 r u now now' :
  find_client c d1 = Some r -> find_pending_user c d2 = Some u -> Client.user_id r = u ->
  exists c1 c2, block_client c d1 now = Ok c1 /\ approve_pending_client c1 d2 now' = Ok c2 /\
    u ∈ blocked_users c2 /\ exists x, x ∈ clients c2 /\ Client.demux_id x = d2 /\ Client.user_id x = u.
Proof.
  intros Hr Hp Hu. destruct (block_ok c d1 now) as (c1 & E1 & A1). destruct (approve_ok c1 d2 now') as (c2 & E2 & A2).
  exists c1, c2. split; [done|]. split; [done|]. rewrite A1 in A2.
  pose proof (find_participant_abs c d1) as Hf. rewrite Hr in Hf. unfold find_participant in Hf.
  destruct (find _ (participants (abs c))) as [e|] eqn:Ee; [|done]. injection Hf as Ef.
  rewrite find_pending_abs in Hp. destruct (find (is_member d2) (pending (abs c))) as [m|] eqn:Em; [|done]. injection Hp as Hp.
  destruct (block_then_approve (abs c) d1 d2 e m Ee Em) as [Hb Hm]; [by rewrite Ef, Hp|].
  rewrite <- A2, Hp in *. split; [exact Hb|].
  apply list_elem_of_fmap in Hm as (e2 & Hm & (x & -> & Hx)%list_elem_of_fmap). exists x. split; [done|].
  apply find_elem in Em as [_ Hd]. unfold is_member in Hd. rewrite Hm in Hd, Hp. cbn in Hd, Hp. boolsplit. done.
Qed.

(** C18: Approval is respected: in every reachable call that requires approval, each client is an
    admin or its user has been approved; and whoever waits for approval is not an admin and waits
    in a call that requires approval, and, if all devices of the user join with the same admin bit,
    has not been approved. *)
Theorem approval_respected bits c :
  reachable bits c ->
  (new_clients_require_approval c = true -> forall x, x ∈ clients c ->
     Client.is_admin x = true \/ ApprovedUsers.contains (approved_users c) (Client.user_id x) = true) /\
  forall x, x ∈ pending_clients c ->
    NonParticipantClient.is_admin x = false /\ new_clients_require_approval c = true /\
    (steady bits (NonParticipantClient.user_id x) ->
       ApprovedUsers.contains (approved_users c) (NonParticipantClient.user_id x) = false).
Proof.
  intros R. pose proof (reachable_inv _ _ R) as I. split.
  - intros Hr x Hx. destruct (Client.is_admin x) eqn:Ha; [by left|]. right.
    apply bool_decide_eq_true, (inv_approved _ _ I (member_of x)); [|done..].
    apply list_elem_of_fmap. exists (core x). split; [done|]. apply list_elem_of_fmap. by exists x.
  - intros x Hx. assert (np_member x ∈ pending (abs c)) as Hp by (apply list_elem_of_fmap; by exists x).
    destruct (inv_pending _ _ I _ Hp) as (E1 & E2). split_and!; [done..|]. intros Hs.
    by apply bool_decide_eq_false, (inv_unapproved _ _ I _ Hp).
Qed.

(** Padding looks like another participant's: in every reachable call, the SSRC on which a
    client is sent padding is the RTX SSRC of the base video layer of a different client of the
    call, and only a client that is alone has none. *)
Theorem padding_is_of_another_client admin_of c x :
  reachable admin_of c -> x ∈ clients c ->
  match Client.padding_ssrc x with
  | Some ssrc => exists y, y ∈ clients c /\ Client.demux_id y ≠ Client.demux_id x /\
      ssrc = LayerId.to_rtx_ssrc LayerId.Video0 (Client.demux_id y)
  | None => clients c = [x]
  end.
Proof.
  intros R Hx. pose proof (demux_ids_clients _ _ (reachable_inv _ _ R)) as N.
  pose proof (inv_padding _ _ (reachable_inv _ _ R)) as I. simpl in I.
  by apply padding_lookup.
Qed.

(** C26: Only admins act on others: a message of a client that is not an admin, unless it leaves,
    changes nothing about the membership, whatever admin actions it carries; and a message from
    a device that is not a client changes nothing at all and is refused. *)
Theorem only_admins_act c d proto now :
  Proto.d_leave proto = false ->
  (forall r, find_client c d = Some r -> Client.is_admin r = false) ->
  exists c' out, handle_device_to_sfu c proto d now = Ok (c', out) /\ abs c' = abs c /\
    (find_client c d = None -> c' = c /\ out = Err (UnknownDemuxId d)).
Proof.
  intros Hl Hadmin. destruct (device_to_sfu_ok c proto d now) as (c' & out & Hh & E).
  rewrite Hl in E. exists c', out. split; [done|]. split.
  - rewrite E. apply messages_powerless. rewrite find_participant_abs.
    intros m (r & Hr & ->)%fmap_Some. by apply Hadmin.
  - intros Hn. unfold handle_device_to_sfu in Hh. rewrite Hl, Hn in Hh. by injection Hh as <- <-.
Qed.

(** C27: Media reaches the other participants only: a media packet is never returned to its
    sender, goes to each other client at most once, in the order of the clients, and leaves the
    membership alone. *)
Theorem media_reaches_others c d p now :
  PacketFacts.wf p -> Packet.encrypted p = false ->
  exists c' out, handle_media_rtp c d p now = Ok (c', out) /\ abs c' = abs c /\
    forall l, out = Ok l ->
      map fst l `sublist_of` map Client.demux_id (clients c) /\ d ∉ map fst l.
Proof.
  intros W Hen. destruct (handle_media_ok c d p now W Hen) as (c' & out & Hh & E & O).
  exists c', out. split; [done|]. split; [done|]. intros l ->. split.
  - etrans; [exact O|]. apply filter_sublist.
  - intros Hd. apply sublist_submseteq in O.
    apply (elem_of_submseteq _ _ _ Hd) in O. apply filter_elem in O as [_ Hne].
    by rewrite Z.eqb_refl in Hne.
Qed.

(** A packet on somebody else's SSRC is refused: it reaches nobody, it changes neither the
    audio levels nor anything else of the call, and the error names both demux IDs. *)
Theorem foreign_ssrc_refused c d r p now :
  find_client c d = Some r -> DemuxId.of_ssrc (Packet.ssrc p) ≠ d ->
  handle_media_rtp c d p now =
    Ok (c, Err (UnauthorizedRtpSsrc (DemuxId.of_ssrc (Packet.ssrc p)) d)).
Proof.
  intros Hr Hd. unfold handle_media_rtp. rewrite Hr, LayersFacts.from_ssrc_ok, mbind_Ok.
  by rewrite (proj2 (Z.eqb_neq _ _) Hd).
Qed.

(** Key frame requests are throttled: they are recalculated at most every 5 ms; then exactly
    the SSRCs are requested for which some receiver waits for a key frame and whose last request
    is at least 200 ms old (500 ms when the video is higher than 720), each once, from the client
    that sends it, and the time is recorded. *)
Theorem key_frame_requests_throttled c now :
  exists c' out, send_key_frame_requests_if_its_been_too_long c now = Ok (c', out) /\
    (now < key_frame_requests_sent c + KEY_FRAME_REQUEST_CALCULATION_INTERVAL ->
       c' = c /\ out = []) /\
    (key_frame_requests_sent c + KEY_FRAME_REQUEST_CALCULATION_INTERVAL <= now ->
       key_frame_requests_sent c' = now /\ NoDup (map snd out) /\
       (forall ssrc, ssrc ∈ map snd out <-> wanted c ssrc /\ may_request c now ssrc) /\
       (forall e, e ∈ out -> e.1 = DemuxId.of_ssrc e.2) /\
       forall ssrc, key_frame_request_sent_by_ssrc c' !! ssrc =
         if decide (ssrc ∈ map snd out) then Some now else key_frame_request_sent_by_ssrc c !! ssrc).
Proof.
  unfold send_key_frame_requests_if_its_been_too_long. case_if; boolsplit.
  { eexists _, _. split; [reflexivity|]. split; [done|lia]. }
  destruct (request_key_frames_spec now (elements (desired_incoming_ssrcs c)) c) as
    (m & out & -> & N & Ho & Hd & Hm); [apply NoDup_elements|].
  rewrite mbind_Ok. eexists _, _. split; [reflexivity|]. split; [lia|]. intros _.
  repeat split; try done; setoid_rewrite elem_of_elements in Ho; setoid_rewrite desired_wanted in Ho;
    by apply Ho.
Qed.

(** Raised hands follow the sequence numbers of their devices: a request with a new sequence
    number replaces the device's entry by one at the end of the list and leaves the order of the
    others alone; a request that is not newer changes nothing; and the list keeps one entry per
    device with a sequence number. *)
Theorem raised_hands_follow_seqnums c now rh d raise seqnum :
  hands_ok c -> Proto.raise rh = Some raise -> Proto.raise_seqnum rh = Some seqnum ->
  let c' := handle_raise_hand c now rh d in
  hands_ok c' /\
  if match raised_hands_seqnums c !! d with Some current => current <? seqnum | None => true end then
    raised_hands c' =
      Some (List.filter (fun h => negb (is_hand d h)) (unwrap_or (raised_hands c) [])
            ++ [raised_hand d raise]) /\
    raised_hands_seqnums c' = <[d := seqnum]> (raised_hands_seqnums c)
  else raised_hands c' = raised_hands c /\ raised_hands_seqnums c' = raised_hands_seqnums c.
Proof. apply raise_hand_spec. Qed.

(** A repeated denial blocks: denying a pending device moves all pending devices of its user
    to the removed ones and remembers the denial; if the user had been denied before, the user is
    blocked, and no later attempt to join succeeds. *)
Theorem repeated_denial_blocks c d u now :
  find_pending_user c d = Some u ->
  let c' := deny_pending_client c d now in
  pending_clients c' = List.filter (fun x => negb (Call.of_user u x)) (pending_clients c) /\
  removed_clients c' = removed_clients c ++ List.filter (Call.of_user u) (pending_clients c) /\
  denied_users c' = {[u]} ∪ denied_users c /\
  (u ∈ denied_users c -> u ∈ blocked_users c' /\
     forall d' admin region now', exists c'',
       add_client c' d' u admin region now' = Ok (c'', Blocked) /\ clients c'' = clients c) /\
  (u ∉ denied_users c -> blocked_users c' = blocked_users c).
Proof.
  intros Hu. unfold deny_pending_client. rewrite Hu, IterFacts.drain_filter_spec. cbv zeta.
  simpl. case_bool_decide as Hd; simpl.
  - repeat split; try done; [set_solver|]. intros d' admin region now'. unfold add_client.
    rewrite bool_decide_true by (simpl; set_solver). by eexists.
  - by repeat split.
Qed.

End CallProperties.

Import SampleCall.

Lemma call_refines_membership_witness :
  exists c', perform (call_of joined) 60 (SampleCall.message 16 4 32) = Ok c' /\
    spec_step (abs (call_of joined)) (SampleCall.message 16 4 32) (abs c').
Proof.
  apply call_refines_membership. split; [apply data_packet_wf; unfold byte_ok, uint; lia|reflexivity].
Defined.


(** Bob waits with one device and joins as an admin with another. *)
Definition two_devices : Call.t :=
  call_of [(10, AddClient 16 "alice"%string true Region.RelUnknown); (20, AddClient 32 "bob"%string false Region.RelUnknown);
           (30, AddClient 48 "bob"%string true Region.RelUnknown)].

Lemma blocked_user_approved_witness : exists c1 c2,
  block_client two_devices 48 40 = Ok c1 /\ approve_pending_client c1 32 50 = Ok c2 /\
  "bob"%string ∈ blocked_users c2 /\
  exists x, x ∈ clients c2 /\ Client.demux_id x = 32 /\ Client.user_id x = "bob"%string.
Proof.
  destruct (find_client two_devices 48) as [r|] eqn:E; [|by vm_compute in E].
  apply (blocked_user_approved two_devices 48 32 r "bob"%string 40 50 E).
  - vm_compute. reflexivity.
  - assert (Client.user_id <$> find_client two_devices 48 = Some "bob"%string) as Hb by (vm_compute; reflexivity).
    rewrite E in Hb. by injection Hb.
Defined.

Lemma demux_ids_unique_witness :
  NoDup (map Client.demux_id (clients (call_of joined)) ++
         map NonParticipantClient.demux_id
           (pending_clients (call_of joined) ++ removed_clients (call_of joined))).
Proof. apply (demux_ids_unique admin_of), joined_reachable. Defined.

Lemma approval_respected_witness :
  map Client.is_admin (clients (call_of joined)) = [true; false] /\
  forall x, x ∈ pending_clients (call_of joined) -> NonParticipantClient.is_admin x = false.
Proof.
  split; [vm_compute; reflexivity|]. intros x Hx.
  apply (approval_respected admin_of (call_of joined) joined_reachable). exact Hx.
Defined.

Lemma padding_is_of_another_client_witness :
  exists x, clients (call_of joined) !! 0%nat = Some x /\
    match Client.padding_ssrc x with
    | Some ssrc => exists y, y ∈ clients (call_of joined) /\
        Client.demux_id y ≠ Client.demux_id x /\
        ssrc = LayerId.to_rtx_ssrc LayerId.Video0 (Client.demux_id y)
    | None => clients (call_of joined) = [x]
    end.
Proof.
  destruct (clients (call_of joined) !! 0%nat) as [x|] eqn:E; [|by vm_compute in E].
  exists x. split; [reflexivity|].
  apply (padding_is_of_another_client admin_of (call_of joined) x joined_reachable).
  by apply list_elem_of_lookup_2 in E.
Defined.

Lemma bob_is_no_admin r : find_client (call_of joined) 32 = Some r -> Client.is_admin r = false.
Proof.
  assert (Client.is_admin <$> find_client (call_of joined) 32 = Some false) as E
    by (vm_compute; reflexivity).
  intros Hr. rewrite Hr in E. injection E as ->. reflexivity.
Qed.

Lemma only_admins_act_witness :
  exists c' out,
    handle_device_to_sfu (call_of joined)
      (Proto.device_to_sfu None false [] [] [] [Some 16] None None) 32 60 = Ok (c', out) /\
    abs c' = abs (call_of joined).
Proof.
  destruct (only_admins_act (call_of joined) 32
    (Proto.device_to_sfu None false [] [] [] [Some 16] None None) 60 eq_refl bob_is_no_admin)
    as (c' & out & E & A & _).
  exists c', out. split; [exact E|exact A].
Defined.

Lemma media_reaches_others_witness :
  exists c' out, handle_media_rtp (call_of joined) 16 (data_packet 102 16 7 7) 60 = Ok (c', out) /\
    abs c' = abs (call_of joined).
Proof.
  destruct (media_reaches_others (call_of joined) 16 (data_packet 102 16 7 7) 60) as
    (c' & out & E & A & _); [apply data_packet_wf; unfold byte_ok, uint; lia|reflexivity|].
  exists c', out. split; [exact E|exact A].
Defined.

Lemma foreign_ssrc_refused_witness :
  handle_media_rtp (call_of joined) 32 (data_packet 102 16 7 7) 60 =
    Ok (call_of joined, Err (UnauthorizedRtpSsrc 16 32)).
Proof.
  assert (exists r, find_client (call_of joined) 32 = Some r) as [r E]
    by (vm_compute; eexists; reflexivity).
  assert (DemuxId.of_ssrc (Packet.ssrc (data_packet 102 16 7 7)) ≠ 32) as Hd by discriminate.
  exact (foreign_ssrc_refused (call_of joined) 32 r (data_packet 102 16 7 7) 60 E Hd).
Defined.

Lemma raised_hands_follow_seqnums_witness :
  hands_ok (call_of joined) /\
  raised_hands (handle_raise_hand (call_of joined) 60 (Proto.raise_hand (Some true) (Some 3)) 32) =
    Some [raised_hand 32 true].
Proof.
  assert (hands_ok (call_of joined)) as Hok by (vm_compute; reflexivity). split; [exact Hok|].
  destruct (raised_hands_follow_seqnums (call_of joined) 60 (Proto.raise_hand (Some true) (Some 3))
    32 true 3 Hok eq_refl eq_refl) as [_ E].
  vm_compute (raised_hands_seqnums (call_of joined) !! 32) in E. destruct E as [-> _].
  vm_compute. reflexivity.
Defined.

Lemma repeated_denial_blocks_witness :
  find_pending_user (call_of joined) 48 = Some "carol"%string /\
  denied_users (deny_pending_client (call_of joined) 48 60) =
    {["carol"%string]} ∪ denied_users (call_of joined).
Proof.
  assert (find_pending_user (call_of joined) 48 = Some "carol"%string) as E
    by (vm_compute; reflexivity).
  split; [exact E|]. apply (repeated_denial_blocks (call_of joined) 48 "carol"%string 60 E).
Defined.

End CallProperties.
