(* ===== verification/Sfu.v ===== *)
(** * Sfu: the calls and connections of a server

    [src/backend/src/sfu.rs].  The mutexes around the server, its calls and its
    connections are left out: a packet is handled as one step.  [clock n] is the
    [n]-th reading of [Instant::now()] while a packet is handled.  What is looked
    up through an [Arc] is written back to the map it came from. *)
From stdpp Require Import strings.
From S2P Require Import Prelude Collections Float Srtp RtpHeader Packet RtpEndpoint Pacer Ice Googcc Layers ApprovedUsers Client Connection Call CallHandlers.

(** The [sm2_integrated] and [hkdf] crates.  A key pair is what
    [sm2_generate_key] returned, an argument of the operation that calls it. *)
Class Sm2 := {
  sm2_decompress_public_key : bytes -> Res string bytes;
  sm2_compute_ecdh : bytes -> bytes -> Res string bytes
}.
Class Hkdf := { expand_multi_info : bytes -> list bytes -> nat -> option bytes }.

Module Config.
(** The fields of [config::Config] that the SFU reads. *)
Record t := mk {
  initial_target_send_rate_kbps : Z;
  min_target_send_rate_kbps : Z;
  max_target_send_rate_kbps : Z;
  default_requested_max_send_rate_kbps : Z;
  outgoing_queue_drain_ms : Z;
  diagnostics_interval_secs : option Z;
  active_speaker_message_interval_ms : Z;
  inactivity_check_interval_secs : Z;
  inactivity_timeout_secs : Z;
  approved_users_persistence_url : bool;
  persist_approval_for_all_users_who_join : bool
}.
End Config.

Module Sfu.

Definition CallId : Type := bytes.

Record ConnectionId := connection_id { call_id : CallId; demux_id : DemuxId.t }.
#[global] Instance ConnectionId_eq_dec : EqDecision ConnectionId.
Proof. solve_decision. Defined.
#[global] Instance ConnectionId_countable : Countable ConnectionId.
Proof.
  apply (inj_countable' (fun i => (call_id i, demux_id i)) (fun x => connection_id x.1 x.2)). by intros [].
Defined.

Definition ascii_bytes (s : string) : bytes :=
  map (fun c => Z.of_nat (Ascii.nat_of_ascii c)) (String.list_ascii_of_string s).

Definition compress_public_key (raw : bytes) : Res unit bytes :=
  y_last_byte ← idx raw 63;
  x ← slice 0 32 raw;
  Ok ((if Z.land y_last_byte 1 =? 1 then 3 else 2) :: x).

Section Sfu.
Context `{Mrp} `{Protos}.

Inductive SfuError :=
| DuplicateDemuxIdDetected
| UnknownAddress (addr : SocketLocator)
| UnknownPacketType (addr : SocketLocator)
| MissingConnection (call_id : CallId) (demux_id : DemuxId.t)
| MissingCall (call_id : CallId)
| ParseIceBindingRequest (e : Ice.ParseError)
| IceBindingRequestUnknownUsername (username : bytes)
| ConnectionError (e : Connection.Error)
| CallError (e : Client.Error)
| CryptoError (message : string).

Record t := mk {
  config : Config.t;
  call_end_handler : bool;   (* whether one is set *)
  call_by_call_id : gmap CallId Call.t;
  connection_by_id : gmap ConnectionId Connection.t;
  connection_id_by_ice_request_username : gmap bytes ConnectionId;
  connection_id_by_address : TwoGenerationCache.t SocketLocator ConnectionId;
  activity_checked : Z;
  diagnostics_logged : Z;
  region : Region.t
}.

#[global] Instance t_eta : Settable t := fun s =>
  mk (config s) (call_end_handler s) (call_by_call_id s) (connection_by_id s) (connection_id_by_ice_request_username s)
     (connection_id_by_address s) (activity_checked s) (diagnostics_logged s) (region s).

Record HandleOutput := output { packets_to_send : Connection.Packets; dequeues_to_schedule : Connection.Schedule }.
Record TickOutput := tick_output {
  tick_packets_to_send : Connection.Packets;
  tick_dequeues_to_schedule : Connection.Schedule;
  expired_client_addrs : list SocketLocator;
  ended_calls : list (CallId * Call.t)   (* given to the handler *)
}.
Record CallSignalingInfo := signaling_info {
  size : nat;
  created : Z;
  creator_id : UserId;
  client_ids : list (DemuxId.t * UserId);
  pending_client_ids : list (DemuxId.t * option UserId)
}.

(** [region]: what the name in the configuration stands for, if anything. *)
Definition new (now : Z) (config : Config.t) (region : option Region.t) : t :=
  mk config false ∅ ∅ ∅ (TwoGenerationCache.new (Duration.from_secs 30) now) now now (default Region.Unknown region).

Definition set_call_ended_handler (self : t) : t := self <| call_end_handler := true |>.

Definition get_call_signaling_info (self : t) (call_id : CallId) (user_id : option UserId) : option CallSignalingInfo :=
  match call_by_call_id self !! call_id with
  | Some call =>
      let should_include_pending_user_ids :=
        match user_id with Some user_id => Call.is_admin call user_id | None => false end in
      Some (signaling_info (Call.size call) (Call.created call) (Call.creator_id call) (Handlers.get_client_ids call)
              (Handlers.get_pending_client_ids call should_include_pending_user_ids))
  | None => None
  end.

Definition get_region_relation (self : t) (r : Region.t) : Region.Relation :=
  if bool_decide (region self = Region.Unknown) then Region.RelUnknown
  else if bool_decide (r = region self) then Region.SameRegion
  else if Region.same_area (region self) r then Region.SameArea
  else Region.DifferentArea.

Definition set_call (self : t) (id : CallId) (call : Call.t) : t := self <| call_by_call_id ::= <[id := call]> |>.
Definition set_connection (self : t) (id : ConnectionId) (c : Connection.t) : t :=
  self <| connection_by_id ::= <[id := c]> |>.

Definition no_call_err {A} (r : Res Client.Error A) : Res unit A := map_err (fun _ => tt) r.

(** [?] *)
Definition try_ {A B} (self : t) (r : Res SfuError A) (k : A -> Res unit (t * Res SfuError B)) :
    Res unit (t * Res SfuError B) :=
  match r with
  | Ok a => k a
  | Err e => Ok (self, Err e)
  | Panic => Panic
  end.

Definition crypto_error (prefix : string) (e : string) : SfuError := CryptoError (prefix +:+ e).

Section Join.
Context `{BlockCipher} `{Sm2} `{Hkdf} `{Powf}.

(** The connection of a client that joined, from the keys both sides have. *)
Definition connect (self : t) (server_private_key client_public_key_raw client_hkdf_extra_info : bytes)
    (demux_id : DemuxId.t) (ice_request_username ice_response_username ice_pwd : bytes) (region_relation : Region.Relation)
    (now : Z) : Res unit (Res SfuError Connection.t) :=
  match sm2_compute_ecdh server_private_key client_public_key_raw with
  | Err e => Ok (Err (crypto_error "Shared key computation failed: " e))
  | Panic => Panic
  | Ok shared_secret =>
      srtp_master_key_material ←
        unwrap (expand_multi_info shared_secret
                  [ascii_bytes "Signal_Group_Call_20211105_SignallingDH_SRTPKey_KDF"; client_hkdf_extra_info]
                  Srtp.MASTER_KEY_MATERIAL_LEN);
      let c := config self in
      Ok (Ok (Connection.new ice_request_username ice_response_username ice_pwd srtp_master_key_material
                (LayerId.to_ssrc LayerId.Video0 demux_id)
                (Googcc.Config.mk (DataRate.from_kbps (Config.initial_target_send_rate_kbps c))
                   (DataRate.from_kbps (Config.min_target_send_rate_kbps c))
                   (DataRate.from_kbps (Config.max_target_send_rate_kbps c)))
                (Duration.from_secs (Config.inactivity_timeout_secs c)) region_relation now))
  end.

(** [key_pair] is what [sm2_generate_key] returns, [now] and [created] the clocks
    on entry, [locked_now] the clock once the call is locked. *)
Definition get_or_create_call_and_add_client (self : t) (call_id : CallId) (room_id : option string) (user_id : UserId)
    (demux_id : DemuxId.t) (server_ice_ufrag server_ice_pwd client_ice_ufrag client_dhe_public_key
    client_hkdf_extra_info : bytes) (region : Region.t) (new_clients_require_approval is_admin : bool)
    (approved_users : option (list UserId)) (now created locked_now : Z) (key_pair : Res string (bytes * bytes)) :
    Res unit (t * Res SfuError (bytes * Call.ClientStatus)) :=
  let c := config self in
  let ice_request_username := Ice.join_username client_ice_ufrag server_ice_ufrag in
  let ice_response_username := Ice.join_username server_ice_ufrag client_ice_ufrag in
  let id := connection_id call_id demux_id in
  let region_relation := get_region_relation self region in
  let call :=
    default (Call.new room_id user_id new_clients_require_approval (Config.persist_approval_for_all_users_who_join c)
               (Duration.from_millis (Config.active_speaker_message_interval_ms c))
               (DataRate.from_kbps (Config.initial_target_send_rate_kbps c))
               (DataRate.from_kbps (Config.default_requested_max_send_rate_kbps c)) now created approved_users
               (Config.approved_users_persistence_url c))
            (call_by_call_id self !! call_id) in
  let self := set_call self call_id call in
  if Call.has_client call demux_id then Ok (self, Err DuplicateDemuxIdDetected)
  else
    '(call, client_status) ←
      no_call_err (Call.add_client call demux_id user_id is_admin region_relation locked_now);
    let self := set_call self call_id call in
    try_ self (map_err (crypto_error "Key generation failed: ") key_pair)
      (fun '(server_private_key, server_public_key_raw) =>
    server_dhe_public_key ← compress_public_key server_public_key_raw;
    try_ self (map_err (crypto_error "Client public key decompression failed: ")
                 (sm2_decompress_public_key client_dhe_public_key))
      (fun client_public_key_raw =>
    connection ← connect self server_private_key client_public_key_raw client_hkdf_extra_info demux_id
                   ice_request_username ice_response_username server_ice_pwd region_relation now;
    try_ self connection (fun connection =>
      let self := set_connection self id connection in
      Ok (self <| connection_id_by_ice_request_username ::= <[ice_request_username := id]> |>,
          Ok (server_dhe_public_key, client_status))))).

End Join.

(** [remove_connection], also the second half of [remove_client_from_call]. *)
Definition remove_connection (self : t) (call_id : CallId) (demux_id : DemuxId.t) : t :=
  let id := connection_id call_id demux_id in
  match connection_by_id self !! id with
  | Some connection =>
      self <| connection_by_id ::= delete id |>
           <| connection_id_by_ice_request_username ::= delete (Connection.ice_request_username connection) |>
  | None => self
  end.

Definition remove_client_from_call (self : t) (now : Z) (call_id : CallId) (demux_id : DemuxId.t) : Res unit t :=
  self ←
    match call_by_call_id self !! call_id with
    | Some call => call ← no_call_err (Call.drop_client call demux_id now); Ok (set_call self call_id call)
    | None => Ok self
    end;
  Ok (remove_connection self call_id demux_id).

Definition get_connection (self : t) (id : ConnectionId) : Res SfuError (ConnectionId * Connection.t) :=
  match connection_by_id self !! id with
  | Some connection => Ok (id, connection)
  | None => Err (MissingConnection (call_id id) (demux_id id))
  end.

Definition get_connection_from_address (self : t) (address : SocketLocator) : Res SfuError (ConnectionId * Connection.t) :=
  match TwoGenerationCache.get (connection_id_by_address self) address with
  | Some id => get_connection self id
  | None => Err (UnknownAddress address)
  end.

Definition get_connection_from_ice_request_username (self : t) (username : bytes) :
    Res SfuError (ConnectionId * Connection.t) :=
  match connection_id_by_ice_request_username self !! username with
  | Some id => get_connection self id
  | None => Err (IceBindingRequestUnknownUsername username)
  end.

Definition get_call_from_id (self : t) (call_id : CallId) : Res SfuError Call.t :=
  match call_by_call_id self !! call_id with
  | Some call => Ok call
  | None => Err (MissingCall call_id)
  end.

(** ** Packets *)

Section Packets.
Context `{Aead} `{HashMapOrder} `{HmacSha1} `{Crc32} `{Powf}.

(** Sends each packet over the connection of its receiver, if there is one; the
    [i]-th at [clock i]. *)
Fixpoint send_outgoing_rtp (self : t) (call_id : CallId) (outgoing_rtp : list Call.RtpToSend) (clock : nat -> Z)
    (packets_to_send : Connection.Packets) (dequeues_to_schedule : Connection.Schedule) :
    Res unit (t * Connection.Packets * Connection.Schedule) :=
  match outgoing_rtp with
  | [] => Ok (self, packets_to_send, dequeues_to_schedule)
  | (demux_id, outgoing_rtp) :: rest =>
      let id := connection_id call_id demux_id in
      match connection_by_id self !! id with
      | Some outgoing_connection =>
          '(c, packets_to_send, dequeues_to_schedule) ←
            Connection.send_or_enqueue_rtp outgoing_connection outgoing_rtp packets_to_send dequeues_to_schedule (clock 0%nat);
          send_outgoing_rtp (set_connection self id c) call_id rest (fun n => clock (S n)) packets_to_send
            dequeues_to_schedule
      | None => send_outgoing_rtp self call_id rest clock packets_to_send dequeues_to_schedule
      end
  end.

Fixpoint send_key_frame_requests (self : t) (call_id : CallId) (requests : list Call.KeyFrameRequestToSend)
    (clock : nat -> Z) (packets_to_send : Connection.Packets) : Res unit (t * Connection.Packets) :=
  match requests with
  | [] => Ok (self, packets_to_send)
  | (demux_id, ssrc) :: rest =>
      let id := connection_id call_id demux_id in
      match connection_by_id self !! id with
      | Some outgoing_connection =>
          '(c, request) ← Connection.send_key_frame_request outgoing_connection ssrc (clock 0%nat);
          send_key_frame_requests (set_connection self id c) call_id rest (fun n => clock (S n))
            (packets_to_send ++ option_list request)
      | None => send_key_frame_requests self call_id rest clock packets_to_send
      end
  end.

Definition handle_rtp (self : t) (sender_addr : SocketLocator) (incoming_packet : bytes) (clock : nat -> Z) :
    Res unit (t * Res SfuError HandleOutput) :=
  try_ self (get_connection_from_address self sender_addr) (fun '(id, connection) =>
    '(connection, r) ← Connection.handle_rtp_packet connection incoming_packet (clock 0%nat);
    let self := set_connection self id connection in
    try_ self (map_err ConnectionError r) (fun incoming_rtp =>
      match incoming_rtp with
      | None => Ok (self, Ok (output [] []))
      | Some incoming_rtp =>
          try_ self (get_call_from_id self (call_id id)) (fun call =>
            '(call, r) ← no_call_err (Handlers.handle_rtp call (demux_id id) incoming_rtp (clock 1%nat));
            let self := set_call self (call_id id) call in
            match r with
            | Err Leave => Ok (remove_connection self (call_id id) (demux_id id), Ok (output [] []))
            | _ =>
                try_ self (map_err CallError r) (fun outgoing_rtp =>
                  '(self, packets_to_send, dequeues_to_schedule) ←
                    send_outgoing_rtp self (call_id id) outgoing_rtp (fun n => clock (2 + n)%nat) [] [];
                  Ok (self, Ok (output packets_to_send dequeues_to_schedule)))
            end)
      end)).

Definition handle_rtcp (self : t) (sender_addr : SocketLocator) (incoming_packet : bytes) (clock : nat -> Z) :
    Res unit (t * Res SfuError HandleOutput) :=
  try_ self (get_connection_from_address self sender_addr) (fun '(id, connection) =>
    let rtcp_now := clock 0%nat in
    '(connection, r) ← Connection.handle_rtcp_packet connection incoming_packet rtcp_now;
    let self := set_connection self id connection in
    try_ self (map_err ConnectionError r) (fun result =>
      try_ self (get_call_from_id self (call_id id)) (fun call =>
        let call :=
          match Connection.new_target_send_rate result with
          | Some new_target_send_rate =>
              (Handlers.set_target_send_rate call (demux_id id) new_target_send_rate rtcp_now).1
          | None => call
          end in
        '(call, outgoing_key_frame_requests) ←
          no_call_err (Handlers.handle_key_frame_requests call (demux_id id)
                         (Connection.incoming_key_frame_requests result) (clock 1%nat));
        '(self, packets_to_send) ←
          send_key_frame_requests (set_call self (call_id id) call) (call_id id) outgoing_key_frame_requests
            (fun n => clock (2 + n)%nat) (Connection.packets_to_send result);
        Ok (self, Ok (output packets_to_send (Connection.dequeues_to_schedule result)))))).

Definition handle_ice (self : t) (sender_addr : SocketLocator) (incoming_packet : bytes) (clock : nat -> Z) :
    Res unit (t * Res SfuError HandleOutput) :=
  try_ self (map_err ParseIceBindingRequest (Ice.parse incoming_packet)) (fun ice_binding_request =>
    username ← Ice.username ice_binding_request;
    try_ self (get_connection_from_ice_request_username self username) (fun '(id, connection) =>
      '(connection, r) ←
        Connection.handle_ice_binding_request connection sender_addr ice_binding_request (clock 0%nat);
      let self := set_connection self id connection in
      try_ self (map_err ConnectionError r) (fun outgoing_response =>
        Ok (self <| connection_id_by_address ::= fun c => TwoGenerationCache.insert_without_removing_old c sender_addr id |>,
            Ok (output [(outgoing_response, sender_addr)] []))))).

Definition handle_packet (self : t) (sender_addr : SocketLocator) (incoming_packet : bytes) (clock : nat -> Z) :
    Res unit (t * Res SfuError HandleOutput) :=
  if looks_like_rtp incoming_packet then handle_rtp self sender_addr incoming_packet clock
  else if looks_like_rtcp incoming_packet then handle_rtcp self sender_addr incoming_packet clock
  else if Ice.looks_like_header incoming_packet then handle_ice self sender_addr incoming_packet clock
  else Ok (self, Err (UnknownPacketType sender_addr)).

Definition handle_dequeue (self : t) (addr : SocketLocator) (now : Z) :
    Res unit (t * option (SocketLocator * option bytes * option Z)) :=
  match get_connection_from_address self addr with
  | Ok (id, connection) =>
      '(connection, r) ← Connection.dequeue_outgoing_rtp connection now;
      Ok (set_connection self id connection, r)
  | Err _ => Ok (self, None)
  | Panic => Panic
  end.

(** ** The tick *)
Section Tick.
Context `{MapOrder}.

(** [entry(id).or_default().push(x)] *)
Definition push_by_call {A} (m : gmap CallId (list A)) (id : CallId) (x : A) : gmap CallId (list A) :=
  <[id := default [] (m !! id) ++ [x]]> m.

(** The log reads the round trip time of each participant, which can recompute
    the statistics of its connection. *)
Definition diagnose_client (now : Z) (call_id : CallId) (self : t) (client : Client.t) : t :=
  let id := connection_id call_id (Client.demux_id client) in
  match connection_by_id self !! id with
  | Some connection => set_connection self id (Connection.rtt connection now).1
  | None => self
  end.

Definition log_diagnostics (self : t) (now : Z) : t :=
  match Config.diagnostics_interval_secs (config self) with
  | Some diagnostics_interval_secs =>
      if diagnostics_logged self + Duration.from_secs diagnostics_interval_secs <=? now then
        let self := self <| diagnostics_logged := now |> in
        fold_left (fun self '(call_id, call) => fold_left (diagnose_client now call_id) (Call.clients call) self)
          (map_entries (call_by_call_id self)) self
      else self
  | None => self
  end.

(** What [retain] over the connections collects. *)
Record Visit := visit {
  v_packets_to_send : Connection.Packets;
  v_usernames : gmap bytes ConnectionId;
  v_connections : gmap ConnectionId Connection.t;
  v_expired_demux_ids : gmap CallId (list DemuxId.t);
  v_outgoing_queue_sizes : gmap CallId (list (DemuxId.t * Z));
  v_connection_rates : gmap CallId (list (DemuxId.t * ConnectionRates))
}.

Definition visit_connection (check_for_inactivity : bool) (now : Z) (v : Visit) (e : ConnectionId * Connection.t) :
    Res unit Visit :=
  let '(id, connection) := e in
  if check_for_inactivity && Connection.inactive connection now then
    Ok (visit (v_packets_to_send v) (delete (Connection.ice_request_username connection) (v_usernames v))
          (delete id (v_connections v)) (push_by_call (v_expired_demux_ids v) (call_id id) (demux_id id))
          (v_outgoing_queue_sizes v) (v_connection_rates v))
  else
    '(connection, packets_to_send) ← Connection.tick connection (v_packets_to_send v) now;
    let queue_size := Connection.outgoing_queue_size connection in
    let '(connection, rates) := Connection.current_rates connection now in
    Ok (visit packets_to_send (v_usernames v) (<[id := connection]> (v_connections v)) (v_expired_demux_ids v)
          (push_by_call (v_outgoing_queue_sizes v) (call_id id) (demux_id id, queue_size))
          (push_by_call (v_connection_rates v) (call_id id) (demux_id id, rates))).

Fixpoint visit_connections (check_for_inactivity : bool) (now : Z) (v : Visit) (l : list (ConnectionId * Connection.t)) :
    Res unit Visit :=
  match l with
  | [] => Ok v
  | e :: l => v ← visit_connection check_for_inactivity now v e; visit_connections check_for_inactivity now v l
  end.

Definition CallTickResult : Type :=
  CallId * list Call.RtpToSend * list Call.KeyFrameRequestToSend * list Handlers.SendRateAllocationInfo.

(** The calls that stay, those that ended, and what the ticks of the calls ask for. *)
Record CallVisit := call_visit {
  v_calls : gmap CallId Call.t;
  v_ended : list (CallId * Call.t);
  v_results : list CallTickResult
}.

Fixpoint drop_clients (call : Call.t) (expired_demux_ids : list DemuxId.t) (now : Z) : Res unit Call.t :=
  match expired_demux_ids with
  | [] => Ok call
  | d :: l => call ← no_call_err (Call.drop_client call d now); drop_clients call l now
  end.

(** [outcome] and [runtime] are what the approved users of this call find at each
    of the two times they are asked. *)
Definition visit_call (self : t) (v : Visit) (now : Z)
    (outcomes : CallId -> bool -> option ApprovedUsers.Outcome * bool) (w : CallVisit) (e : CallId * Call.t) :
    Res unit CallVisit :=
  let '(id, call) := e in
  call ← drop_clients call (default [] (v_expired_demux_ids v !! id)) now;
  let '(call, activity) :=
    Call.activity call now (Duration.from_secs (Config.inactivity_timeout_secs (config self)))
      (outcomes id false).1 (outcomes id false).2 in
  match activity with
  | Call.CallInactive =>
      Ok (call_visit (delete id (v_calls w))
            (if call_end_handler self then v_ended w ++ [(id, call)] else v_ended w) (v_results w))
  | Call.CallWaiting => Ok (call_visit (<[id := call]> (v_calls w)) (v_ended w) (v_results w))
  | Call.CallActive =>
      let outgoing_queue_drain_duration := Duration.from_millis (Config.outgoing_queue_drain_ms (config self)) in
      let call :=
        fold_left (fun call '(demux_id, outgoing_queue_size) =>
          (Handlers.set_outgoing_queue_drain_rate call demux_id
             (DataRate.size_div_duration outgoing_queue_size outgoing_queue_drain_duration)).1)
          (default [] (v_outgoing_queue_sizes v !! id)) call in
      let call :=
        fold_left (fun call '(demux_id, rates) => (Handlers.set_connection_rates call demux_id rates).1)
          (default [] (v_connection_rates v !! id)) call in
      '(call, outgoing_rtp, outgoing_key_frame_requests) ←
        no_call_err (Handlers.tick call now (outcomes id true).1 (outcomes id true).2);
      Ok (call_visit (<[id := call]> (v_calls w)) (v_ended w)
            (v_results w ++ [(id, outgoing_rtp, outgoing_key_frame_requests, Handlers.get_send_rate_allocation_info call)]))
  end.

Fixpoint visit_calls (self : t) (v : Visit) (now : Z) (outcomes : CallId -> bool -> option ApprovedUsers.Outcome * bool)
    (w : CallVisit) (l : list (CallId * Call.t)) : Res unit CallVisit :=
  match l with
  | [] => Ok w
  | e :: l => w ← visit_call self v now outcomes w e; visit_calls self v now outcomes w l
  end.

Definition configure (self : t) (call_id : CallId) (info : Handlers.SendRateAllocationInfo) (now : Z)
    (dequeues_to_schedule : Connection.Schedule) : Res unit (t * Connection.Schedule) :=
  let id := connection_id call_id (Handlers.i_demux_id info) in
  match connection_by_id self !! id with
  | Some connection =>
      '(connection, dequeues_to_schedule) ←
        Connection.configure_congestion_control connection dequeues_to_schedule
          (Request.mk (Handlers.i_requested_base_rate info) (Handlers.i_ideal_send_rate info))
          (Pacer.Config.mk (Handlers.i_target_send_rate info)
             (Z.min (Handlers.i_ideal_send_rate info) (Handlers.i_target_send_rate info)) (Handlers.i_padding_ssrc info))
          now;
      Ok (set_connection self id connection, dequeues_to_schedule)
  | None => Ok (self, dequeues_to_schedule)
  end.

Fixpoint configure_all (self : t) (call_id : CallId) (infos : list Handlers.SendRateAllocationInfo) (now : Z)
    (dequeues_to_schedule : Connection.Schedule) : Res unit (t * Connection.Schedule) :=
  match infos with
  | [] => Ok (self, dequeues_to_schedule)
  | info :: infos =>
      '(self, dequeues_to_schedule) ← configure self call_id info now dequeues_to_schedule;
      configure_all self call_id infos now dequeues_to_schedule
  end.

Fixpoint apply_results (self : t) (results : list CallTickResult) (now : Z) (packets_to_send : Connection.Packets)
    (dequeues_to_schedule : Connection.Schedule) : Res unit (t * Connection.Packets * Connection.Schedule) :=
  match results with
  | [] => Ok (self, packets_to_send, dequeues_to_schedule)
  | (call_id, outgoing_rtp, outgoing_key_frame_requests, send_rate_allocation_infos) :: results =>
      '(self, dequeues_to_schedule) ←
        configure_all self call_id send_rate_allocation_infos now dequeues_to_schedule;
      '(self, packets_to_send) ←
        send_key_frame_requests self call_id outgoing_key_frame_requests (fun _ => now) packets_to_send;
      '(self, packets_to_send, dequeues_to_schedule) ←
        send_outgoing_rtp self call_id outgoing_rtp (fun _ => now) packets_to_send dequeues_to_schedule;
      apply_results self results now packets_to_send dequeues_to_schedule
  end.

Definition tick (self : t) (now : Z) (outcomes : CallId -> bool -> option ApprovedUsers.Outcome * bool) :
    Res unit (t * TickOutput) :=
  let self := log_diagnostics self now in
  let check_for_inactivity :=
    activity_checked self + Duration.from_secs (Config.inactivity_check_interval_secs (config self)) <=? now in
  let self := if check_for_inactivity then self <| activity_checked := now |> else self in
  v ← visit_connections check_for_inactivity now
        (visit [] (connection_id_by_ice_request_username self) (connection_by_id self) ∅ ∅ ∅)
        (map_entries (connection_by_id self));
  let self := self <| connection_by_id := v_connections v |>
                   <| connection_id_by_ice_request_username := v_usernames v |> in
  w ← visit_calls self v now outcomes (call_visit (call_by_call_id self) [] []) (map_entries (call_by_call_id self));
  let self := self <| call_by_call_id := v_calls w |> in
  '(self, packets_to_send, dequeues_to_schedule) ←
    apply_results self (v_results w) now (v_packets_to_send v) [];
  let '(addresses, expired_client_addrs) := TwoGenerationCache.remove_old (connection_id_by_address self) now in
  Ok (self <| connection_id_by_address := addresses |>,
      tick_output packets_to_send dequeues_to_schedule expired_client_addrs (v_ended w)).

End Tick.
End Packets.

End Sfu.
End Sfu.
