(* ===== verification/SfuFacts.v ===== *)
(** * SfuFacts: what holds of a server whatever it is given

    The events are the calls that [packet_server.rs], the signaling servers and
    the tick make to [Sfu]: joins and removals, packets, dequeues, ticks. *)
From stdpp Require Import strings.
From S2P Require Import Prelude Common Collections Float Bytes Srtp RtpHeader Packet RtpEndpoint Pacer Ice Googcc Layers ApprovedUsers.
From S2P Require Import Client Connection Call CallHandlers CallSpec CallFacts MediaFacts CallProperties Sfu.

(** ** Everyone in a call *)
Module EveryoneFacts.
Import Spec SpecFacts.

Definition everyone (s : State) : list Member := members s ++ pending s ++ removed s.

Lemma demux_ids_everyone s : demux_ids s = map m_demux (everyone s).
Proof. done. Qed.

Lemma everyone_approve s d : everyone (approve s d) ≡ₚ everyone s.
Proof.
  unfold approve. destruct (find (is_member d) (pending s)) as [m|]; [|done].
  set (u := m_user m). set (s' := s <| pending ::= _ |>). set (l := List.filter (of_user u) (pending s)).
  pose proof (members_joins l s') as Em. pose proof (joins_rest l s') as (Ep & Er & _).
  unfold everyone. change (members s') with (members s) in Em.
  set (s2 := fold_left join l s') in *. change (members s2 ++ pending s2 ++ removed s2 ≡ₚ members s ++ pending s ++ removed s).
  rewrite Em, Ep, Er. cbn. rewrite <- app_assoc. f_equiv. rewrite app_assoc. f_equiv. apply filter_perm.
Qed.

Lemma everyone_deny s d : everyone (deny s d) ≡ₚ everyone s.
Proof.
  unfold deny. destruct (find (is_member d) (pending s)) as [m|]; [|done]. set (u := m_user m).
  set (s1 := s <| pending ::= _ |> <| removed ::= _ |> <| denied ::= _ |>).
  assert (everyone s1 ≡ₚ everyone s) as E.
  { unfold everyone. cbn. change (members s1) with (members s). apply Permutation_app; [done|].
    rewrite (Permutation_app_comm (removed s)), app_assoc. f_equiv. rewrite Permutation_app_comm. apply filter_perm. }
  by case_bool_decide.
Qed.

Lemma leave_everyone s d m s' : leave s d = Some (m, s') ->
  members s ≡ₚ m :: members s' /\ m_demux m = d /\ pending s' = pending s /\ removed s' = removed s.
Proof.
  unfold leave. destruct (Call.swap_remove _ (participants s)) as [[e rest]|] eqn:Hs; [|done]. intros [= <- <-].
  apply swap_remove_perm in Hs as [Hd P]. unfold is_member in Hd. boolsplit. split; [|done].
  unfold members. cbn. by rewrite fst_assign_padding, P.
Qed.

Lemma everyone_force_remove s d : everyone (force_remove s d) ≡ₚ everyone s.
Proof.
  unfold force_remove. destruct (leave s d) as [[m s1]|] eqn:Hl; [|done].
  apply leave_everyone in Hl as (P & _ & Ep & Er). unfold everyone.
  match goal with |- context [if ?b then s1 else ?s2] => set (s3 := if b then s1 else s2) end.
  assert (members s3 = members s1 /\ pending s3 = pending s /\ removed s3 = removed s) as (M3 & P3 & R3)
    by (unfold s3; by case_if).
  change (members (s3 <| removed ::= fun l => l ++ [m] |>)) with (members s3). cbn.
  rewrite M3, P3, R3, P, !app_assoc, (Permutation_app_comm _ [m]). done.
Qed.

Lemma everyone_block s d : everyone (block s d) ≡ₚ everyone s.
Proof.
  unfold block. destruct (find _ (participants s)) as [e|]; [|done]. set (u := m_user e.1). unfold everyone.
  set (s' := s <| participants ::= _ |> <| removed ::= _ |> <| approved ::= _ |> <| blocked ::= _ |>).
  assert (members s' = List.filter (fun m => negb (of_user u m)) (members s)) as ->.
  { unfold members, s'. cbn. rewrite fst_assign_padding. apply (filter_fst (fun m => negb (of_user u m))). }
  cbn. assert (map fst (List.filter (fun e0 => of_user u e0.1) (participants s)) = List.filter (of_user u) (members s)) as ->
    by apply (filter_fst (of_user u)).
  pose proof (filter_perm (of_user u) (members s)) as P. revert P.
  generalize (List.filter (of_user u) (members s)), (List.filter (fun m => negb (of_user u m)) (members s)).
  intros l1 l2 P. rewrite <- P. rewrite !app_assoc, (Permutation_app_comm _ l1), !app_assoc. done.
Qed.

Lemma everyone_acts f l : (forall s d, everyone (f s d) ≡ₚ everyone s) ->
  forall s, everyone (fold_left (act f) l s) ≡ₚ everyone s.
Proof.
  intros Hf. induction l as [|t l IH]; intros s; cbn; [done|]. rewrite IH. unfold act.
  destruct t as [raw|]; [|done]. by destruct (DemuxId.try_from raw).
Qed.

Lemma everyone_message s d m : everyone (message s d m) ≡ₚ everyone s.
Proof.
  unfold message. destruct (find_participant s d) as [x|]; [|done]. destruct (m_admin x); [|done]. unfold admin_actions.
  by rewrite !everyone_acts by first [apply everyone_block|apply everyone_force_remove|apply everyone_deny|apply everyone_approve].
Qed.

Lemma everyone_messages d ms : forall s, everyone (CallFacts.messages s d ms) ≡ₚ everyone s.
Proof.
  unfold CallFacts.messages. induction ms as [|m ms IH]; intros s; cbn; [done|]. by rewrite IH, everyone_message.
Qed.

Lemma everyone_add s m : everyone (add s m).1 ≡ₚ m :: everyone s.
Proof.
  unfold add. case_bool_decide; [|case_if]; cbn [fst].
  - unfold everyone. cbn. change (members (s <| removed ::= fun l => l ++ [m] |>)) with (members s).
    by rewrite !app_assoc, (Permutation_app_comm _ [m]).
  - unfold everyone. rewrite members_join. cbn. assert (forall s', members s' = members s -> pending s' = pending s ->
      removed s' = removed s -> (members s' ++ [m]) ++ pending s' ++ removed s' ≡ₚ m :: members s ++ pending s ++ removed s) as Hs.
    { intros s' -> -> ->. by rewrite (Permutation_app_comm (members s)). }
    by case_if; apply Hs.
  - unfold everyone. cbn. change (members (s <| pending ::= fun l => l ++ [m] |>)) with (members s).
    rewrite <- (app_assoc (pending s)). by rewrite app_assoc, Permutation_app_comm, <- app_assoc, (Permutation_app_comm (removed s)), <- app_assoc.
Qed.

Lemma swap_remove_none {A} (p : A -> bool) (l : list A) : Call.swap_remove p l = None -> forall x, x ∈ l -> p x = false.
Proof.
  unfold Call.swap_remove. destruct (list_find p l) as [[i y]|] eqn:Hf; [done|]. intros _ x Hx.
  apply list_find_None in Hf. rewrite Forall_forall in Hf. specialize (Hf x Hx). by destruct (p x); [destruct Hf|].
Qed.

(** Only the one who leaves is gone. *)
Lemma drop_others s d d' : d' ∈ demux_ids s -> d' <> d -> d' ∈ demux_ids (drop s d).
Proof.
  rewrite !demux_ids_everyone. intros (m & -> & Hm)%list_elem_of_fmap Hne. apply list_elem_of_fmap. exists m. split; [done|].
  unfold drop. destruct (leave s d) as [[m' s1]|] eqn:Hl.
  { apply leave_everyone in Hl as (P & Hd & Ep & Er). unfold everyone in *. rewrite Ep, Er. rewrite P in Hm. set_solver. }
  clear Hl. unfold everyone in *. destruct (Call.swap_remove _ (pending s)) as [[m' rest]|] eqn:Hs.
  { apply swap_remove_perm in Hs as [Hd P]. unfold is_member in Hd. boolsplit. cbn.
    change (members (s <| pending := rest |>)) with (members s). rewrite P in Hm. set_solver. }
  clear Hs. destruct (Call.swap_remove _ (removed s)) as [[m' rest]|] eqn:Hs; [|done].
  apply swap_remove_perm in Hs as [Hd P]. unfold is_member in Hd. boolsplit. cbn.
  change (members (s <| removed := rest |>)) with (members s). rewrite P in Hm. set_solver.
Qed.

End EveryoneFacts.

(** ** Calls do not touch each other *)
Module IsolationFacts.
Import Sfu ConnectionFacts.

Section Sfu.
Context `{Mrp} `{Protos}.

Lemma try_Ok {A B} self (r : Res SfuError A) (k : A -> Res unit (t * Res SfuError B)) self' x :
  try_ self r k = Ok (self', x) ->
  (exists a, r = Ok a /\ k a = Ok (self', x)) \/ (exists e, r = Err e /\ self' = self /\ x = Err e).
Proof. destruct r as [a|e|]; cbn; [left; eauto|intros [= <- <-]; right; eauto|done]. Qed.

Lemma map_err_Ok {E F A} (f : E -> F) (m : Res E A) a : map_err f m = Ok a -> m = Ok a.
Proof. destruct m; cbn; congruence. Qed.

(** Only the call [C] and its connections changed. *)
Record within (C : CallId) (self self' : t) : Prop := {
  wi_calls : forall id, id <> C -> call_by_call_id self' !! id = call_by_call_id self !! id;
  wi_connections : forall id, call_id id <> C -> connection_by_id self' !! id = connection_by_id self !! id
}.

#[global] Instance within_preorder C : PreOrder (within C).
Proof.
  split; [by split|]. intros a b c [A1 A2] [B1 B2]. split; intros id Hid; [by rewrite B1, A1|by rewrite B2, A2].
Qed.

(** The same connections, with the same outgoing addresses. *)
Definition addr_of (self : t) (id : ConnectionId) : option (option SocketLocator) :=
  Connection.outgoing_addr <$> connection_by_id self !! id.
Definition same_addrs (self self' : t) : Prop := forall id, addr_of self' id = addr_of self id.

#[global] Instance same_addrs_preorder : PreOrder same_addrs.
Proof. split; [done|]. intros a b c E1 E2 id. by rewrite E2, E1. Qed.

(** What is done to a call and its connections. *)
Definition quiet_within (C : CallId) (self self' : t) : Prop := within C self self' /\ same_addrs self self'.

#[global] Instance quiet_within_preorder C : PreOrder (quiet_within C).
Proof. split; [by split|]. intros a b c [] []. split; by etransitivity. Qed.

Lemma set_call_quiet self id call : quiet_within id self (set_call self id call).
Proof. split; [|done]. split; [|done]. intros id' Hne. cbn. by rewrite lookup_insert_ne. Qed.

Lemma set_connection_within self id c : within (call_id id) self (set_connection self id c).
Proof. split; [done|]. intros id' Hne. cbn. rewrite lookup_insert_ne; [done|]. by intros ->. Qed.

Lemma set_connection_quiet self id c c' : connection_by_id self !! id = Some c ->
  Connection.outgoing_addr c' = Connection.outgoing_addr c -> quiet_within (call_id id) self (set_connection self id c').
Proof.
  intros Hc Ha. split; [apply set_connection_within|]. intros id'. unfold addr_of. cbn.
  destruct (decide (id' = id)) as [->|]; [|by rewrite lookup_insert_ne]. rewrite lookup_insert_eq, Hc. cbn. by rewrite Ha.
Qed.

Lemma remove_connection_within self C d : within C self (remove_connection self C d).
Proof.
  unfold remove_connection. destruct (connection_by_id self !! _); [|done]. split; [done|]. intros id Hne. cbn.
  rewrite lookup_delete_ne; [done|]. by intros <-.
Qed.

(** Packets that go to participants of the call [C]. *)
Definition goes_within (C : CallId) (self : t) (l : Connection.Packets) : Prop :=
  Forall (fun p => exists id, call_id id = C /\ addr_of self id = Some (Some p.2)) l.

Lemma goes_within_app C self l l' : goes_within C self (l ++ l') <-> goes_within C self l /\ goes_within C self l'.
Proof. apply Forall_app. Qed.

Lemma goes_within_same C self self' l : same_addrs self self' -> goes_within C self l -> goes_within C self' l.
Proof.
  intros Hs Hl. eapply Forall_impl; [exact Hl|]. intros p (id & Hid & Ha). exists id. by rewrite (Hs id).
Qed.

Lemma goes_to_within self id c l : connection_by_id self !! id = Some c -> goes_to c l -> goes_within (call_id id) self l.
Proof.
  intros Hc Hl. eapply Forall_impl; [exact Hl|]. intros p Ha. exists id. split; [done|]. unfold addr_of. rewrite Hc. cbn. by rewrite Ha.
Qed.

Lemma get_connection_Ok self id id' c : get_connection self id = Ok (id', c) ->
  id' = id /\ connection_by_id self !! id = Some c.
Proof. unfold get_connection. by destruct (connection_by_id self !! id); [intros [= <- <-]|]. Qed.

Lemma from_address_Ok self addr id c : get_connection_from_address self addr = Ok (id, c) ->
  TwoGenerationCache.get (connection_id_by_address self) addr = Some id /\ connection_by_id self !! id = Some c.
Proof.
  unfold get_connection_from_address. destruct (TwoGenerationCache.get _ _) as [id'|]; [|done].
  intros [-> ?]%get_connection_Ok. done.
Qed.

Lemma from_username_Ok self name id c : get_connection_from_ice_request_username self name = Ok (id, c) ->
  connection_id_by_ice_request_username self !! name = Some id /\ connection_by_id self !! id = Some c.
Proof.
  unfold get_connection_from_ice_request_username. destruct (_ !! name) as [id'|]; [|done].
  intros [-> ?]%get_connection_Ok. done.
Qed.

Lemma get_call_Ok self C call : get_call_from_id self C = Ok call -> call_by_call_id self !! C = Some call.
Proof. unfold get_call_from_id. by destruct (_ !! C); [intros [= <-]|]. Qed.

Section Packets.
Context `{Aead} `{HashMapOrder} `{HmacSha1} `{Crc32} `{Powf}.

Lemma send_outgoing_ok C outgoing : forall self clock l d self' l' d',
  send_outgoing_rtp self C outgoing clock l d = Ok (self', l', d') ->
  quiet_within C self self' /\ exists added, l' = l ++ added /\ goes_within C self added.
Proof.
  induction outgoing as [|[demux p] outgoing IH]; intros self clock l d self' l' d' E; cbn [send_outgoing_rtp] in E.
  - injection E as <- <- _. split; [done|]. exists []. rewrite app_nil_r. split; [done|constructor].
  - destruct (connection_by_id self !! _) as [c|] eqn:Ec; [|by apply IH in E].
    apply bind_Ok in E as ([[c' l1] d1] & E1 & E). apply send_or_enqueue_appends in E1 as [[_ Ha _ _] (x & -> & Hx)].
    pose proof (set_connection_quiet self _ c c' Ec Ha) as Q. cbn in Q.
    apply IH in E as [Q' (y & -> & Hy)]. split; [by etransitivity|]. exists (x ++ y). split; [by rewrite app_assoc|].
    apply goes_within_app. split.
    + by apply (goes_to_within _ (connection_id C demux) c).
    + apply (goes_within_same C (set_connection self (connection_id C demux) c')); [|done]. intros id. symmetry. apply Q.
Qed.

Lemma send_requests_ok C requests : forall self clock l self' l',
  send_key_frame_requests self C requests clock l = Ok (self', l') ->
  quiet_within C self self' /\ exists added, l' = l ++ added /\ goes_within C self added.
Proof.
  induction requests as [|[demux ssrc] requests IH]; intros self clock l self' l' E; cbn [send_key_frame_requests] in E.
  - injection E as <- <-. split; [done|]. exists []. rewrite app_nil_r. split; [done|constructor].
  - destruct (connection_by_id self !! _) as [c|] eqn:Ec; [|by apply IH in E].
    apply bind_Ok in E as ([c' o] & E1 & E). apply key_frame_same in E1 as [[_ Ha _ _] Ho].
    pose proof (set_connection_quiet self _ c c' Ec Ha) as Q. cbn in Q.
    apply IH in E as [Q' (y & -> & Hy)]. split; [by etransitivity|]. exists (option_list o ++ y). split; [by rewrite app_assoc|].
    apply goes_within_app. split.
    + apply (goes_to_within _ (connection_id C demux) c); [done|]. destruct o as [[p addr]|]; [by apply goes_to_one|constructor].
    + apply (goes_within_same C (set_connection self (connection_id C demux) c')); [|done]. intros id. symmetry. apply Q.
Qed.

(** The call a packet belongs to. *)
Definition sender_call (self : t) (sender_addr : SocketLocator) (packet : bytes) : option CallId :=
  if looks_like_rtp packet || looks_like_rtcp packet then
    call_id <$> TwoGenerationCache.get (connection_id_by_address self) sender_addr
  else if Ice.looks_like_header packet then
    match Ice.parse packet with
    | Ok req =>
        match Ice.username (E := unit) req with
        | Ok name => call_id <$> connection_id_by_ice_request_username self !! name
        | _ => None
        end
    | _ => None
    end
  else None.

(** The answer to a binding request is one packet, and goes back. *)
Definition answers (sender_addr : SocketLocator) (packet : bytes) (out : HandleOutput) (p : bytes) (addr : SocketLocator) : Prop :=
  looks_like_rtp packet = false /\ looks_like_rtcp packet = false /\ (exists req, Ice.parse packet = Ok req) /\
  addr = sender_addr /\ packets_to_send out = [(p, addr)].

Definition no_answer (out : HandleOutput) (p : bytes) (addr : SocketLocator) : Prop := False.

(** What a handler may do for a packet of the call [C]. *)
Definition stays_within (C : option CallId) (self self' : t) (r : Res SfuError HandleOutput)
    (extra : HandleOutput -> bytes -> SocketLocator -> Prop) : Prop :=
  match C with
  | Some C =>
      within C self self' /\
      forall out p addr, r = Ok out -> (p, addr) ∈ packets_to_send out ->
        extra out p addr \/ exists id, call_id id = C /\ addr_of self' id = Some (Some addr)
  | None => self' = self /\ exists e, r = Err e
  end.

Lemma stays_err self C e extra : stays_within C self self (Err e) extra.
Proof. destruct C; cbn; [|by eauto]. by split. Qed.

Lemma goes_elem C self l p addr : goes_within C self l -> (p, addr) ∈ l ->
  exists id, call_id id = C /\ addr_of self id = Some (Some addr).
Proof. intros Hl Hin. unfold goes_within in Hl. rewrite Forall_forall in Hl. exact (Hl _ Hin). Qed.

Lemma unknown_address self sender_addr : TwoGenerationCache.get (connection_id_by_address self) sender_addr = None ->
  get_connection_from_address self sender_addr = Err (UnknownAddress sender_addr).
Proof. intros E. unfold get_connection_from_address. by rewrite E. Qed.

Lemma handle_rtp_within self sender_addr b clock self' r : handle_rtp self sender_addr b clock = Ok (self', r) ->
  stays_within (call_id <$> TwoGenerationCache.get (connection_id_by_address self) sender_addr) self self' r no_answer.
Proof.
  intros E. unfold handle_rtp in E. apply try_Ok in E as [([id c] & E1 & E)|(e & _ & -> & ->)]; [|apply stays_err].
  apply from_address_Ok in E1 as [-> Hc]. apply bind_Ok in E as ([c' o] & E1 & E). apply handle_rtp_same in E1 as [_ Ha _ _].
  pose proof (set_connection_quiet self id c c' Hc Ha) as Q. set (s1 := set_connection self id c') in *. cbn [fmap option_fmap option_map].
  apply try_Ok in E as [(p & _ & E)|(e & _ & -> & ->)]; [|by split; [apply Q|]].
  destruct p as [p|]; [|injection E as <- <-; split; [apply Q|]; intros out q addr [= <-] Hin; by apply elem_of_nil in Hin].
  apply try_Ok in E as [(call & _ & E)|(e & _ & -> & ->)]; [|by split; [apply Q|]].
  apply bind_Ok in E as ([call' out] & _ & E).
  pose proof (set_call_quiet s1 (call_id id) call') as Q2. set (s2 := set_call s1 _ call') in *.
  assert (quiet_within (call_id id) self s2) as Q3 by (by etransitivity).
  assert (forall x, (out = Err Leave -> x = Ok (remove_connection s2 (call_id id) (demux_id id), Ok (output [] []))) ->
    (out <> Err Leave -> x = try_ s2 (map_err CallError out) (fun outgoing_rtp =>
       '(self, packets_to_send, dequeues_to_schedule) ←
         send_outgoing_rtp s2 (call_id id) outgoing_rtp (fun n => clock (2 + n)%nat) [] [];
       Ok (self, Ok (output packets_to_send dequeues_to_schedule)))) -> x = Ok (self', r) ->
    stays_within (Some (call_id id)) self self' r no_answer) as Hx.
  { intros x Hl Hn Ex. assert (out = Err Leave \/ out <> Err Leave) as [Eo|Eo].
    { destruct out as [|[]|]; first [by left|by right]. }
    - rewrite (Hl Eo) in Ex. injection Ex as <- <-. split.
      + etransitivity; [apply Q3|apply remove_connection_within].
      + intros ? q addr [= <-] Hin. by apply elem_of_nil in Hin.
    - rewrite (Hn Eo) in Ex. apply try_Ok in Ex as [(outgoing & _ & Ex)|(e & _ & -> & ->)]; [|by split; [apply Q3|]].
      apply bind_Ok in Ex as ([[s3 l] d] & E3 & [= <- <-]). apply send_outgoing_ok in E3 as [Q4 (added & -> & Hg)].
      split; [etransitivity; [apply Q3|apply Q4]|]. intros ? q addr [= <-] Hin. right. cbn in Hin.
      eapply goes_elem; [|exact Hin]. by apply (goes_within_same _ s2); [apply Q4|]. }
  apply (Hx _) in E; [done|..].
  - intros ->. done.
  - intros Hne. by destruct out as [|[]|].
Qed.

Lemma handle_rtcp_within self sender_addr b clock self' r : handle_rtcp self sender_addr b clock = Ok (self', r) ->
  stays_within (call_id <$> TwoGenerationCache.get (connection_id_by_address self) sender_addr) self self' r no_answer.
Proof.
  intros E. unfold handle_rtcp in E. apply try_Ok in E as [([id c] & E1 & E)|(e & _ & -> & ->)]; [|apply stays_err].
  apply from_address_Ok in E1 as [-> Hc]. apply bind_Ok in E as ([c' o] & E1 & E).
  apply handle_rtcp_appends in E1 as [[_ Ha _ _] Hg].
  pose proof (set_connection_quiet self id c c' Hc Ha) as Q. set (s1 := set_connection self id c') in *. cbn [fmap option_fmap option_map].
  apply try_Ok in E as [(result & Eo & E)|(e & _ & -> & ->)]; [|by split; [apply Q|]].
  apply map_err_Ok in Eo. subst o.
  apply try_Ok in E as [(call & _ & E)|(e & _ & -> & ->)]; [|by split; [apply Q|]].
  apply bind_Ok in E as ([call' requests] & _ & E). apply bind_Ok in E as ([s3 l] & E3 & [= <- <-]).
  pose proof (set_call_quiet s1 (call_id id) call') as Q2. set (s2 := set_call s1 _ call') in *.
  assert (quiet_within (call_id id) self s2) as Q3 by (by etransitivity).
  apply send_requests_ok in E3 as [Q4 (added & -> & Hadded)].
  split; [etransitivity; [apply Q3|apply Q4]|]. intros ? q addr [= <-] Hin. right. cbn in Hin.
  apply elem_of_app in Hin as [Hin|Hin]; (eapply goes_elem; [|exact Hin]).
  - apply (goes_within_same _ self); [etransitivity; [apply Q3|apply Q4]|]. by apply (goes_to_within _ id c).
  - apply (goes_within_same _ s2); [apply Q4|done].
Qed.

Lemma handle_ice_within self sender_addr b clock self' r : Ice.looks_like_header b = true ->
  looks_like_rtp b || looks_like_rtcp b = false -> handle_ice self sender_addr b clock = Ok (self', r) ->
  stays_within (sender_call self sender_addr b) self self' r (answers sender_addr b).
Proof.
  intros Hi Hr E. unfold sender_call. rewrite Hi, Hr. unfold handle_ice in E.
  apply try_Ok in E as [(req & E1 & E)|(e & _ & -> & ->)]; [|apply stays_err]. apply map_err_Ok in E1. rewrite E1.
  apply bind_Ok in E as (name & E2 & E). rewrite E2.
  apply try_Ok in E as [([id c] & E3 & E)|(e & _ & -> & ->)]; [|apply stays_err].
  apply from_username_Ok in E3 as [-> Hc]. apply bind_Ok in E as ([c' o] & _ & E).
  pose proof (set_connection_within self id c') as W. set (s1 := set_connection self id c') in *. cbn [fmap option_fmap option_map].
  apply try_Ok in E as [(response & _ & E)|(e & _ & -> & ->)]; [|by split].
  injection E as <- <-. split; [by destruct W|]. intros ? q addr [= <-] Hin. left. cbn in Hin.
  apply list_elem_of_singleton in Hin as [= -> ->]. apply orb_false_iff in Hr as [Hr1 Hr2].
  split_and!; [done..|by eexists|done|done].
Qed.

Lemma handle_packet_within self sender_addr b clock self' r : handle_packet self sender_addr b clock = Ok (self', r) ->
  stays_within (sender_call self sender_addr b) self self' r (answers sender_addr b).
Proof.
  intros E. unfold handle_packet in E.
  assert (forall C, stays_within C self self' r no_answer -> stays_within C self self' r (answers sender_addr b)) as Hw.
  { intros [C|]; [|done]. intros [Hwi Hout]. split; [done|]. intros out p addr Ho Hin.
    destruct (Hout out p addr Ho Hin) as [[]|]; by right. }
  destruct (looks_like_rtp b) eqn:E1.
  { unfold sender_call. rewrite E1. by apply Hw, (handle_rtp_within _ _ b clock). }
  destruct (looks_like_rtcp b) eqn:E2.
  { unfold sender_call. rewrite E1, E2. by apply Hw, (handle_rtcp_within _ _ b clock). }
  destruct (Ice.looks_like_header b) eqn:E3.
  - apply (handle_ice_within _ _ _ clock); [done|by rewrite E1, E2|done].
  - injection E as <- <-. apply stays_err.
Qed.

End Packets.
End Sfu.
End IsolationFacts.


(** ** Every call is one that events lead to, and every connection has its member *)
Module ReachFacts.
Import Spec SpecFacts CallFacts CallEvents CallEventFacts EveryoneFacts ConnectionFacts IsolationFacts Sfu.

Section Calls.
Context `{Mrp} `{Protos}.

(** The demux IDs of a call, those of pending and removed clients included. *)
Definition ids (c : Call.t) : list DemuxId.t := demux_ids (abs c).

Lemma has_client_ids c d : Call.has_client c d = true <-> d ∈ ids c.
Proof.
  unfold Call.has_client, ids, demux_ids. cbn. rewrite !map_app, !map_map, !elem_of_app, !orb_true_iff.
  assert (forall {A} (p : A -> bool) (g : A -> Z) (l : list A),
    (forall x, p x = (g x =? d)) -> existsb p l = true <-> d ∈ map g l) as N.
  { intros A p g l Hp. rewrite existsb_exists, list_elem_of_fmap. setoid_rewrite <- list_elem_of_In. setoid_rewrite Hp.
    setoid_rewrite Z.eqb_eq. split; intros (x & H1 & H2); exists x; [by rewrite H2|by rewrite H1]. }
  rewrite (N _ (Call.is_client d) (fun x => m_demux (core x).1)) by done.
  rewrite !(N _ (Call.is_non_participant d) (fun x => m_demux (np_member x))) by done. tauto.
Qed.

(** The event takes this client out of the call. *)
Definition drops (e : CallEvents.Event) (d : DemuxId.t) : Prop :=
  match e with
  | DropClient d' => d' = d
  | Rtp d' p => d' = d /\ exists m, message_of p = Some m /\ Proto.d_leave m = true
  | _ => False
  end.

Lemma spec_step_others s e s' d : spec_step s e s' -> d ∈ demux_ids s -> ~ drops e d -> d ∈ demux_ids s'.
Proof.
  intros Hs Hd Hn. assert (forall s', everyone s' ≡ₚ everyone s -> d ∈ demux_ids s') as Hp.
  { intros s1 E. rewrite demux_ids_everyone, E, <- demux_ids_everyone. done. }
  destruct Hs; try done; cbn in Hn.
  - rewrite demux_ids_everyone in *. rewrite everyone_add. by right.
  - apply drop_others; [done|congruence].
  - apply drop_others; [done|]. intros ->. apply Hn. eauto.
  - apply Hp, everyone_message.
  - apply Hp, everyone_messages.
Qed.

(** What an admissible event leaves of a call. *)
Lemma event_ok admin_of c now e c' : CallEvents.reachable admin_of c -> admissible admin_of c e ->
  CallEvents.perform c now e = Ok c' ->
  CallEvents.reachable admin_of c' /\ forall d, d ∈ ids c -> ~ drops e d -> d ∈ ids c'.
Proof.
  intros R A P. split; [by eapply reach_event|]. intros d Hd Hn.
  destruct (perform_ok c now e (proj1 A)) as (c1 & E & S). rewrite P in E. injection E as <-.
  by eapply spec_step_others.
Qed.

(** An event that drops nobody. *)
Definition harmless (e : CallEvents.Event) : Prop :=
  match e with
  | KeyFrameRequests _ _ | SetTargetSendRate _ _ | SetQueueDrainRate _ _ | SetConnectionRates _ _ | Tick _ _ | Activity _ _ _ => True
  | _ => False
  end.

Lemma spec_step_harmless s e s' : spec_step s e s' -> harmless e -> s' = s.
Proof. by destruct 1. Qed.

(** A call got to from another without losing a member; with the same members. *)
Definition grows (admin_of : UserId -> bool -> Prop) (c c' : Call.t) : Prop :=
  CallEvents.reachable admin_of c -> CallEvents.reachable admin_of c' /\ ids c ⊆ ids c'.
Definition keeps (admin_of : UserId -> bool -> Prop) (c c' : Call.t) : Prop :=
  CallEvents.reachable admin_of c -> CallEvents.reachable admin_of c' /\ ids c' = ids c.

#[global] Instance keeps_preorder admin_of : PreOrder (keeps admin_of).
Proof.
  split; [by split|]. intros a b c H1 H2 Ha. destruct (H1 Ha) as [Hb E1]. destruct (H2 Hb) as [Hc E2].
  split; [done|]. by rewrite E2.
Qed.

Lemma keeps_grows admin_of c c' : keeps admin_of c c' -> grows admin_of c c'.
Proof. intros Hk R. destruct (Hk R) as [R' E]. split; [done|]. by rewrite E. Qed.

Lemma harmless_keeps admin_of c now e c' : harmless e -> CallEvents.perform c now e = Ok c' -> keeps admin_of c c'.
Proof.
  intros Hh P R. assert (admissible admin_of c e) as A by by destruct e. split; [by eapply reach_event|].
  destruct (perform_ok c now e (proj1 A)) as (c1 & E & S). rewrite P in E. injection E as <-. unfold ids.
  by rewrite (spec_step_harmless _ _ _ S).
Qed.

Lemma fold_keeps admin_of {A} (f : Call.t -> A -> Call.t) (l : list A) :
  (forall c x, keeps admin_of c (f c x)) -> forall c, keeps admin_of c (fold_left f l c).
Proof. intros Hf. induction l as [|x l IH]; intros c; cbn; [done|]. etransitivity; [apply Hf|apply IH]. Qed.

(** Dropping a client takes exactly that one out. *)
Lemma drop_ids admin_of c d : CallEvents.reachable admin_of c -> d ∉ demux_ids (drop (abs c) d).
Proof.
  intros R. pose proof (inv_demux _ _ (reachable_inv _ _ R)) as N. revert N. rewrite !demux_ids_everyone.
  generalize (abs c) as s. intros s. assert (forall l, map m_demux (everyone s) ≡ₚ d :: l -> NoDup (map m_demux (everyone s)) -> d ∉ l) as Hn.
  { intros l P N. rewrite P in N. by apply NoDup_cons in N as [? _]. }
  intros N. unfold drop. destruct (leave s d) as [[m s1]|] eqn:Hl.
  { apply leave_everyone in Hl as (P & Hd & Ep & Er). apply Hn; [|done]. unfold everyone. rewrite P, Ep, Er. cbn.
    by rewrite Hd. }
  assert (d ∉ map m_demux (members s)) as Hm.
  { unfold leave in Hl. destruct (Call.swap_remove _ (participants s)) as [[e rest]|] eqn:Hs; [done|].
    pose proof (swap_remove_none _ _ Hs) as Hno. intros (m & -> & Hin)%list_elem_of_fmap. unfold members in Hin.
    apply list_elem_of_fmap in Hin as (e & -> & Hin). specialize (Hno e Hin). unfold is_member in Hno. by rewrite Z.eqb_refl in Hno. }
  assert (forall q l, Call.swap_remove q l = None -> q = is_member d -> d ∉ map m_demux l) as Hnone.
  { intros q l Hs -> (m & -> & Hin)%list_elem_of_fmap. pose proof (swap_remove_none _ _ Hs m Hin) as Hno.
    unfold is_member in Hno. by rewrite Z.eqb_refl in Hno. }
  destruct (Call.swap_remove _ (pending s)) as [[m rest]|] eqn:Hp.
  { apply swap_remove_perm in Hp as [Hd P]. unfold is_member in Hd. boolsplit. apply Hn; [|done]. unfold everyone. cbn.
    change (members (s <| pending := rest |>)) with (members s). rewrite P. rewrite <- Hd, !map_app. cbn.
    symmetry. apply Permutation_middle. }
  destruct (Call.swap_remove _ (removed s)) as [[m rest]|] eqn:Hr.
  { apply swap_remove_perm in Hr as [Hd P]. unfold is_member in Hd. boolsplit. apply Hn; [|done]. unfold everyone. cbn.
    change (members (s <| removed := rest |>)) with (members s). rewrite P. rewrite <- Hd, !map_app. cbn.
    rewrite !app_assoc. symmetry. apply Permutation_middle. }
  unfold everyone. rewrite !map_app, !elem_of_app. apply Hnone in Hp; [|done]. apply Hnone in Hr; [|done]. tauto.
Qed.

Lemma drop_fewer s d d' : d' ∈ demux_ids (drop s d) -> d' ∈ demux_ids s.
Proof.
  rewrite !demux_ids_everyone. intros (m & -> & Hm)%list_elem_of_fmap. apply list_elem_of_fmap. exists m. split; [done|].
  unfold drop in Hm. destruct (leave s d) as [[m' s1]|] eqn:Hl.
  { apply leave_everyone in Hl as (P & _ & Ep & Er). unfold everyone in *. rewrite Ep, Er in Hm. rewrite P. set_solver. }
  clear Hl. unfold everyone in *. destruct (Call.swap_remove _ (pending s)) as [[m' rest]|] eqn:Hs.
  { apply swap_remove_perm in Hs as [_ P]. cbn in Hm. change (members (s <| pending := rest |>)) with (members s) in Hm.
    rewrite P. set_solver. }
  clear Hs. destruct (Call.swap_remove _ (removed s)) as [[m' rest]|] eqn:Hs; [|done].
  apply swap_remove_perm in Hs as [_ P]. cbn in Hm. change (members (s <| removed := rest |>)) with (members s) in Hm.
  rewrite P. set_solver.
Qed.

Lemma drop_clients_ok admin_of now l : forall c c', CallEvents.reachable admin_of c -> drop_clients c l now = Ok c' ->
  CallEvents.reachable admin_of c' /\ forall d, d ∈ ids c' <-> d ∈ ids c /\ d ∉ l.
Proof.
  induction l as [|d l IH]; intros c c' R E; cbn [drop_clients] in E.
  - injection E as <-. split; [done|]. intros d. pose proof (not_elem_of_nil d). tauto.
  - apply bind_Ok in E as (c1 & E1 & E). apply map_err_Ok in E1.
    destruct (perform_ok c now (DropClient d) I) as (c2 & P & S). cbn in P. rewrite E1 in P. injection P as <-.
    assert (abs c1 = drop (abs c) d) as Ea.
    { clear -S. revert S. generalize (abs c), (abs c1). intros s s' S. by inversion S. }
    assert (CallEvents.reachable admin_of c1) as R1 by (by eapply (reach_event _ c now (DropClient d))).
    destruct (IH c1 c' R1 E) as [R' Hd]. split; [done|]. intros d'. rewrite Hd. unfold ids. rewrite Ea.
    pose proof (drop_ids admin_of c d R). pose proof (drop_fewer (abs c) d d'). pose proof (drop_others (abs c) d d').
    rewrite not_elem_of_cons. destruct (decide (d' = d)) as [->|]; tauto.
Qed.

End Calls.

Section Sfu.
Context `{Mrp} `{Protos}.

(** [admin_of]: which users are admins of which call. *)
Record sfu_ok (admin_of : CallId -> UserId -> bool -> Prop) (self : t) : Prop := {
  so_calls : forall id call, call_by_call_id self !! id = Some call -> CallEvents.reachable (admin_of id) call;
  so_members : forall id, is_Some (connection_by_id self !! id) ->
    exists call, call_by_call_id self !! call_id id = Some call /\ demux_id id ∈ ids call
}.

(** The same calls, and no new connections. *)
Definition fewer_connections (self self' : t) : Prop :=
  call_by_call_id self' = call_by_call_id self /\
  forall id, is_Some (connection_by_id self' !! id) -> is_Some (connection_by_id self !! id).

#[global] Instance fewer_connections_preorder : PreOrder fewer_connections.
Proof. split; [by split|]. intros a b c [A1 A2] [B1 B2]. split; [by rewrite B1|auto]. Qed.

Lemma fewer_ok admin_of self self' : sfu_ok admin_of self -> fewer_connections self self' -> sfu_ok admin_of self'.
Proof. intros [Hc Hm] [Ec Es]. split; rewrite Ec; auto. Qed.

Lemma set_connection_fewer self id c c' : connection_by_id self !! id = Some c ->
  fewer_connections self (set_connection self id c').
Proof.
  intros Hc. split; [done|]. intros id'. cbn. destruct (decide (id' = id)) as [->|]; [by rewrite Hc|].
  by rewrite lookup_insert_ne.
Qed.

(** The same calls and connections, each as inactive as before. *)
Definition idle (self : t) (now : Z) (id : ConnectionId) : option bool :=
  (fun c => Connection.inactive c now) <$> connection_by_id self !! id.
Record same_idle (self self' : t) : Prop := {
  sd_calls : call_by_call_id self' = call_by_call_id self;
  sd_idle : forall now id, idle self' now id = idle self now id;
  sd_config : config self' = config self;
  sd_checked : activity_checked self' = activity_checked self;
  sd_handler : call_end_handler self' = call_end_handler self
}.

#[global] Instance same_idle_preorder : PreOrder same_idle.
Proof. split; [by split|]. intros a b c [] []. split; [congruence| |congruence..]. intros now id. congruence. Qed.

Lemma same_idle_fewer self self' : same_idle self self' -> fewer_connections self self'.
Proof.
  intros [Ec Ei _ _ _]. split; [done|]. intros id [c Hc]. specialize (Ei 0 id). unfold idle in Ei. rewrite Hc in Ei.
  destruct (connection_by_id self !! id); [done|discriminate].
Qed.

Lemma same_ice_inactive c c' now : same_ice c c' -> Connection.inactive c' now = Connection.inactive c now.
Proof. intros [Ei _ Ec Et]. unfold Connection.inactive. by rewrite Ei, Ec, Et. Qed.

Lemma set_connection_idle self id c c' : connection_by_id self !! id = Some c -> same_ice c c' ->
  same_idle self (set_connection self id c').
Proof.
  intros Hc Hs. split; [done| |done..]. intros now id'. unfold idle. cbn. destruct (decide (id' = id)) as [->|]; [|by rewrite lookup_insert_ne].
  rewrite lookup_insert_eq, Hc. cbn. by rewrite (same_ice_inactive c).
Qed.

Lemma remove_connection_fewer self C d : fewer_connections self (remove_connection self C d).
Proof.
  unfold remove_connection. destruct (connection_by_id self !! _); [|done]. split; [done|]. intros id. cbn.
  intros [c Hc]. apply lookup_delete_Some in Hc as [_ Hc]. by rewrite Hc.
Qed.

Lemma remove_connection_gone self C d : connection_by_id (remove_connection self C d) !! connection_id C d = None.
Proof. unfold remove_connection. destruct (connection_by_id self !! _) eqn:E; [|done]. apply lookup_delete_eq. Qed.

(** A call got to from another without losing a member, but [d]. *)
Lemma set_call_but admin_of self C call call' d : sfu_ok admin_of self -> call_by_call_id self !! C = Some call ->
  CallEvents.reachable (admin_of C) call' -> (forall d', d' ∈ ids call -> d' <> d -> d' ∈ ids call') ->
  sfu_ok admin_of (remove_connection (set_call self C call') C d).
Proof.
  intros [Hc Hm] Ec R Hs. pose proof (remove_connection_fewer (set_call self C call') C d) as [Ecalls Hf].
  split; rewrite Ecalls; cbn.
  - intros id c. destruct (decide (id = C)) as [->|]; [|rewrite lookup_insert_ne by done; auto].
    rewrite lookup_insert_eq. by intros [= <-].
  - intros id Hi. destruct (Hm id (Hf id Hi)) as (c & Ec' & Hd). destruct (decide (call_id id = C)) as [<-|].
    + rewrite lookup_insert_eq. exists call'. split; [done|]. rewrite Ec in Ec'. injection Ec' as <-. apply Hs; [done|].
      intros <-. destruct id as [C d]. cbn in Hi. rewrite remove_connection_gone in Hi. by destruct Hi.
    + rewrite lookup_insert_ne by done. eauto.
Qed.

Lemma set_call_grows admin_of self C call call' : sfu_ok admin_of self -> call_by_call_id self !! C = Some call ->
  grows (admin_of C) call call' -> sfu_ok admin_of (set_call self C call').
Proof.
  intros [Hc Hm] Ec G. destruct (G (Hc _ _ Ec)) as [R Hs]. split; cbn.
  - intros id c. destruct (decide (id = C)) as [->|]; [|rewrite lookup_insert_ne by done; auto].
    rewrite lookup_insert_eq. by intros [= <-].
  - intros id Hi. destruct (Hm id Hi) as (c & Ec' & Hd). destruct (decide (call_id id = C)) as [<-|].
    + rewrite lookup_insert_eq. exists call'. split; [done|]. rewrite Ec in Ec'. injection Ec' as <-. auto.
    + rewrite lookup_insert_ne by done. eauto.
Qed.

End Sfu.

Section Packets.
Context `{Mrp} `{Protos} `{AeadLaws} `{HashMapOrder} `{HmacSha1} `{Crc32} `{Powf}.

Lemma send_outgoing_idle C outgoing : forall self clock l d self' l' d',
  send_outgoing_rtp self C outgoing clock l d = Ok (self', l', d') -> same_idle self self'.
Proof.
  induction outgoing as [|[demux p] outgoing IH]; intros self clock l d self' l' d' E; cbn [send_outgoing_rtp] in E.
  - by injection E as <- _ _.
  - destruct (connection_by_id self !! _) as [c|] eqn:Ec; [|by apply IH in E].
    apply bind_Ok in E as ([[c' l1] d1] & E1 & E). apply send_or_enqueue_appends in E1 as [Hs _].
    etransitivity; [by eapply set_connection_idle|]. by eapply IH.
Qed.

Lemma send_requests_idle C requests : forall self clock l self' l',
  send_key_frame_requests self C requests clock l = Ok (self', l') -> same_idle self self'.
Proof.
  induction requests as [|[demux ssrc] requests IH]; intros self clock l self' l' E; cbn [send_key_frame_requests] in E.
  - by injection E as <- _.
  - destruct (connection_by_id self !! _) as [c|] eqn:Ec; [|by apply IH in E].
    apply bind_Ok in E as ([c' o] & E1 & E). apply key_frame_same in E1 as [Hs _].
    etransitivity; [by eapply set_connection_idle|]. by eapply IH.
Qed.

Lemma incoming_packet_wf c b now c' p : bytes_ok b -> Connection.handle_rtp_packet c b now = Ok (c', Ok (Some p)) ->
  PacketFacts.wf p /\ Packet.encrypted p = false.
Proof.
  intros Hb E. unfold Connection.handle_rtp_packet in E. apply bind_Ok in E as ([e o] & E1 & E).
  destruct o as [q|]; [|done]. apply EndpointFacts.receive_rtp_wf in E1; [|done].
  assert (q = p) as ->; [|done]. case_if_in E; [by injection E as _ <-|]. case_if_in E; [by injection E as _ <-|].
  apply bind_Ok in E as (payload & _ & E). case_if_in E; [done|]. case_if_in E; by injection E as _ <-.
Qed.

Variable admin_of : CallId -> UserId -> bool -> Prop.

Lemma call_rtp_ok self C d p now call call' out : sfu_ok admin_of self -> call_by_call_id self !! C = Some call ->
  PacketFacts.wf p -> Packet.encrypted p = false -> Handlers.handle_rtp call d p now = Ok (call', out) ->
  (out = Err Leave -> sfu_ok admin_of (remove_connection (set_call self C call') C d)) /\
  (out <> Err Leave -> sfu_ok admin_of (set_call self C call')).
Proof.
  intros Hok Ec Hw Hen E. assert (CallEvents.perform call now (Rtp d p) = Ok call') as P by (cbn; by rewrite E).
  pose proof (so_calls _ _ Hok _ _ Ec) as R. destruct (event_ok (admin_of C) call now (Rtp d p) call' R) as [R' Hs]; [by split|done|].
  split; intros Ho.
  - apply (set_call_but _ _ _ call); [done..|]. intros d' Hd Hne. apply Hs; [done|]. cbn. by intros [<- _].
  - apply (set_call_grows _ _ _ call); [done..|]. intros _. split; [done|]. intros d' Hd. apply Hs; [done|]. cbn.
    intros (_ & m & Hm & Hl). destruct (rtp_ok call d p now Hw Hen) as (c2 & out2 & E2 & _ & Hleave).
    rewrite E2 in E. injection E as <- <-. by apply Ho, (Hleave m).
Qed.

Lemma handle_rtp_ok self addr b clock self' r : bytes_ok b -> sfu_ok admin_of self ->
  handle_rtp self addr b clock = Ok (self', r) -> sfu_ok admin_of self'.
Proof.
  intros Hb Hok E. unfold handle_rtp in E. apply try_Ok in E as [([id c] & E1 & E)|(e & _ & -> & ->)]; [|done].
  apply from_address_Ok in E1 as [_ Hc]. apply bind_Ok in E as ([c' o] & E1 & E).
  pose proof (set_connection_fewer self id c c' Hc) as F. set (s1 := set_connection self id c') in *.
  assert (sfu_ok admin_of s1) as Hok1 by by eapply fewer_ok.
  apply try_Ok in E as [(p & Ep & E)|(e & _ & -> & ->)]; [|done]. apply map_err_Ok in Ep. subst o.
  destruct p as [p|]; [|by injection E as <- <-]. apply incoming_packet_wf in E1 as [Hw Hen]; [|done].
  apply try_Ok in E as [(call & E2 & E)|(e & _ & -> & ->)]; [|done]. apply get_call_Ok in E2.
  apply bind_Ok in E as ([call' out] & E3 & E). apply map_err_Ok in E3.
  destruct (call_rtp_ok _ _ _ _ _ _ _ _ Hok1 E2 Hw Hen E3) as [Hl Hn].
  assert (out <> Err Leave -> try_ (set_call s1 (call_id id) call') (map_err CallError out) (fun outgoing_rtp =>
       '(self, packets_to_send, dequeues_to_schedule) ←
         send_outgoing_rtp (set_call s1 (call_id id) call') (call_id id) outgoing_rtp (fun n => clock (2 + n)%nat) [] [];
       Ok (self, Ok (output packets_to_send dequeues_to_schedule))) = Ok (self', r) -> sfu_ok admin_of self') as Hrest.
  { intros Hne Ex. apply try_Ok in Ex as [(outgoing & _ & Ex)|(e & _ & -> & ->)]; [|by apply Hn].
    apply bind_Ok in Ex as ([[s3 l] d] & E4 & [= <- <-]). apply send_outgoing_idle, same_idle_fewer in E4.
    eapply fewer_ok; [by apply Hn|done]. }
  destruct out as [|[]|]; try (by apply Hrest). injection E as <- <-. by apply Hl.
Qed.

Lemma handle_rtcp_ok self addr b clock self' r : sfu_ok admin_of self ->
  handle_rtcp self addr b clock = Ok (self', r) -> sfu_ok admin_of self'.
Proof.
  intros Hok E. unfold handle_rtcp in E. apply try_Ok in E as [([id c] & E1 & E)|(e & _ & -> & ->)]; [|done].
  apply from_address_Ok in E1 as [_ Hc]. apply bind_Ok in E as ([c' o] & E1 & E).
  pose proof (set_connection_fewer self id c c' Hc) as F. set (s1 := set_connection self id c') in *.
  assert (sfu_ok admin_of s1) as Hok1 by by eapply fewer_ok.
  apply try_Ok in E as [(result & _ & E)|(e & _ & -> & ->)]; [|done].
  apply try_Ok in E as [(call & E2 & E)|(e & _ & -> & ->)]; [|done]. apply get_call_Ok in E2.
  apply bind_Ok in E as ([call' requests] & E3 & E). apply map_err_Ok in E3. apply bind_Ok in E as ([s3 l] & E4 & [= <- <-]).
  apply send_requests_idle, same_idle_fewer in E4. eapply fewer_ok; [|exact E4]. apply (set_call_grows _ _ _ call); [done..|].
  apply keeps_grows.
  match type of E3 with Handlers.handle_key_frame_requests ?c1 ?d ?ssrcs ?now = _ =>
    transitivity c1; [|apply (harmless_keeps _ c1 now (KeyFrameRequests d ssrcs)); [done|cbn; by rewrite E3]] end.
  destruct (Connection.new_target_send_rate result) as [rate|]; [|done].
  by apply (harmless_keeps _ call (clock 0%nat) (SetTargetSendRate (demux_id id) rate)).
Qed.

Lemma handle_ice_ok self addr b clock self' r : sfu_ok admin_of self ->
  handle_ice self addr b clock = Ok (self', r) -> sfu_ok admin_of self'.
Proof.
  intros Hok E. unfold handle_ice in E. apply try_Ok in E as [(req & _ & E)|(e & _ & -> & ->)]; [|done].
  apply bind_Ok in E as (name & _ & E). apply try_Ok in E as [([id c] & E1 & E)|(e & _ & -> & ->)]; [|done].
  apply from_username_Ok in E1 as [_ Hc]. apply bind_Ok in E as ([c' o] & _ & E).
  pose proof (set_connection_fewer self id c c' Hc) as F.
  apply try_Ok in E as [(response & _ & E)|(e & _ & -> & ->)]; [|by eapply fewer_ok].
  injection E as <- <-. eapply fewer_ok; [exact Hok|]. by etransitivity.
Qed.

Lemma handle_packet_ok self addr b clock self' r : bytes_ok b -> sfu_ok admin_of self ->
  handle_packet self addr b clock = Ok (self', r) -> sfu_ok admin_of self'.
Proof.
  intros Hb Hok. unfold handle_packet. repeat case_if.
  - by apply handle_rtp_ok.
  - by apply handle_rtcp_ok.
  - by apply handle_ice_ok.
  - by intros [= <- _].
Qed.

Lemma handle_dequeue_ok self addr now self' r : sfu_ok admin_of self ->
  handle_dequeue self addr now = Ok (self', r) -> sfu_ok admin_of self'.
Proof.
  intros Hok E. unfold handle_dequeue in E. destruct (get_connection_from_address self addr) as [[id c]|e|] eqn:Ec; [|by injection E as <- _|done].
  apply from_address_Ok in Ec as [_ Hc]. apply bind_Ok in E as ([c' o] & _ & [= <- _]).
  eapply fewer_ok; [done|]. by eapply set_connection_fewer.
Qed.

Lemma remove_client_ok self now C d self' : sfu_ok admin_of self ->
  remove_client_from_call self now C d = Ok self' -> sfu_ok admin_of self'.
Proof.
  intros Hok E. unfold remove_client_from_call in E. destruct (call_by_call_id self !! C) as [call|] eqn:Ec.
  - apply bind_Ok in E as (s1 & E1 & [= <-]). apply bind_Ok in E1 as (call' & E2 & [= <-]). apply map_err_Ok in E2.
    destruct (event_ok (admin_of C) call now (DropClient d) call' (so_calls _ _ Hok _ _ Ec)) as [R' Hs]; [by split|done|].
    apply (set_call_but _ _ _ call); [done..|]. intros d' Hd Hne. apply Hs; [done|]. cbn. congruence.
  - rewrite mbind_Ok in E. injection E as <-. eapply fewer_ok; [done|apply remove_connection_fewer].
Qed.

End Packets.
(** ** Joining *)
Section Join.
Context `{Mrp} `{Protos} `{BlockCipher} `{Sm2} `{Hkdf} `{Powf}.
Variable admin_of : CallId -> UserId -> bool -> Prop.

Lemma set_call_new self C call : sfu_ok admin_of self -> call_by_call_id self !! C = None ->
  CallEvents.reachable (admin_of C) call -> sfu_ok admin_of (set_call self C call).
Proof.
  intros [Hc Hm] En R. split; cbn.
  - intros id c. destruct (decide (id = C)) as [->|]; [|rewrite lookup_insert_ne by done; auto].
    rewrite lookup_insert_eq. by intros [= <-].
  - intros id Hi. destruct (Hm id Hi) as (c & Ec & Hd). exists c. split; [|done]. rewrite lookup_insert_ne; [done|]. congruence.
Qed.

(** A connection for a member. *)
Lemma set_connection_member self id c call : sfu_ok admin_of self -> call_by_call_id self !! call_id id = Some call ->
  demux_id id ∈ ids call -> sfu_ok admin_of (set_connection self id c).
Proof.
  intros [Hc Hm] Ec Hd. split; [done|]. cbn. intros id'. destruct (decide (id' = id)) as [->|]; [by exists call|].
  rewrite lookup_insert_ne by done. auto.
Qed.

Lemma set_call_twice self C c1 c2 : set_call (set_call self C c1) C c2 = set_call self C c2.
Proof.
  unfold set_call, set_field. cbn. f_equal. by rewrite insert_insert_eq.
Qed.

(** What joining does to the call. *)
Lemma add_client_ok self C call d u is_admin rel now call' status : sfu_ok admin_of self ->
  call_by_call_id self !! C = Some call -> Call.has_client call d = false -> admin_of C u is_admin ->
  Call.add_client call d u is_admin rel now = Ok (call', status) ->
  sfu_ok admin_of (set_call self C call') /\ d ∈ ids call'.
Proof.
  intros Hok Ec Hh Ha E. set (e := AddClient d u is_admin rel).
  assert (CallEvents.perform call now e = Ok call') as P by (cbn; by rewrite E).
  pose proof (so_calls _ _ Hok _ _ Ec) as R. destruct (event_ok (admin_of C) call now e call' R) as [R' Hs]; [done..|].
  split.
  - apply (set_call_grows _ _ _ call); [done..|]. intros _. split; [done|]. intros d' Hd. apply Hs; [done|]. by intros [].
  - destruct (perform_ok call now e I) as (c2 & P2 & S). rewrite P in P2. injection P2 as <-.
    assert (abs call' = (add (abs call) (member d u is_admin)).1) as Ea.
    { clear -S. revert S. generalize (abs call), (abs call'). intros s s' S. by inversion S. }
    unfold ids. rewrite Ea, demux_ids_everyone, everyone_add. by left.
Qed.

Lemma join_ok self C room u d sufrag spwd cufrag key extra region require is_admin users now created locked pair self' r :
  sfu_ok admin_of self -> admin_of C u is_admin ->
  get_or_create_call_and_add_client self C room u d sufrag spwd cufrag key extra region require is_admin users
    now created locked pair = Ok (self', r) -> sfu_ok admin_of self'.
Proof.
  intros Hok Ha E. unfold get_or_create_call_and_add_client in E.
  match type of E with context [default ?n (call_by_call_id self !! C)] =>
    set (call := default n (call_by_call_id self !! C)) in E end.
  assert (sfu_ok admin_of (set_call self C call)) as Hok1.
  { unfold call. destruct (call_by_call_id self !! C) as [c|] eqn:Ec; cbn [default].
    - by apply (set_call_grows _ _ _ c).
    - apply set_call_new; [done..|apply reach_new]. }
  destruct (Call.has_client call d) eqn:Hh; [by injection E as <- <-|].
  apply bind_Ok in E as ([call' status] & E1 & E). apply map_err_Ok in E1. rewrite set_call_twice in E.
  assert (call_by_call_id (set_call self C call) !! C = Some call) as Ec by apply lookup_insert_eq.
  destruct (add_client_ok _ _ _ _ _ _ _ _ _ _ Hok1 Ec Hh Ha E1) as [Hok2 Hd]. rewrite set_call_twice in Hok2.
  apply try_Ok in E as [([private public] & _ & E)|(e & _ & -> & ->)]; [|done].
  apply bind_Ok in E as (server_key & _ & E).
  apply try_Ok in E as [(client_key & _ & E)|(e & _ & -> & ->)]; [|done].
  apply bind_Ok in E as (connection & _ & E).
  apply try_Ok in E as [(c & _ & E)|(e & _ & -> & ->)]; [|done].
  injection E as <- <-.
  eapply fewer_ok; [apply (set_connection_member _ (connection_id C d) c call' Hok2); [apply lookup_insert_eq|done]|]. by split.
Qed.

End Join.

(** ** Ticks *)
Section Tick.
Context `{Mrp} `{Protos} `{Aead} `{HashMapOrder} `{HmacSha1} `{Crc32} `{Powf} `{MapOrder}.

Lemma log_idle self now : same_idle self (log_diagnostics self now).
Proof.
  assert (forall C l s, same_idle s (fold_left (diagnose_client now C) l s)) as Hl.
  { intros C l. induction l as [|x l IH]; intros s; cbn; [done|]. etransitivity; [|apply IH]. unfold diagnose_client.
    destruct (connection_by_id s !! _) as [c|] eqn:Ec; [|done]. eapply set_connection_idle; [exact Ec|apply rtt_same]. }
  assert (forall (l : list (CallId * Call.t)) s, same_idle s
    (fold_left (fun s '(C, call) => fold_left (diagnose_client now C) (Call.clients call) s) l s)) as Hc.
  { induction l as [|[C call] l IH]; intros s; cbn; [done|]. etransitivity; [apply Hl|apply IH]. }
  unfold log_diagnostics. destruct (Config.diagnostics_interval_secs (config self)); [|done]. case_if; [|done].
  transitivity (self <| diagnostics_logged := now |>); [by split|apply Hc].
Qed.

(** The expired demux IDs of a call. *)
Definition expired (v : Visit) (C : CallId) : list DemuxId.t := default [] (v_expired_demux_ids v !! C).

Lemma push_by_call_elem {A} (m : gmap CallId (list A)) C C' (x y : A) :
  y ∈ default [] (push_by_call m C x !! C') <-> y ∈ default [] (m !! C') \/ (C' = C /\ y = x).
Proof.
  unfold push_by_call. destruct (decide (C' = C)) as [->|].
  - rewrite lookup_insert_eq. cbn. rewrite elem_of_app, list_elem_of_singleton. tauto.
  - rewrite lookup_insert_ne by done. tauto.
Qed.

(** What a visit leaves of a connection. *)
Definition visited (check : bool) (now : Z) (c : Connection.t) (o : option Connection.t) : Prop :=
  if check && Connection.inactive c now then o = None else exists c', o = Some c' /\ same_ice c c'.

Lemma visit_connection_ok check now v id c v' : visit_connection check now v (id, c) = Ok v' ->
  visited check now c (v_connections v' !! id) /\
  (forall id', id' <> id -> v_connections v' !! id' = v_connections v !! id') /\
  forall C d, d ∈ expired v' C <-> d ∈ expired v C \/ (id = connection_id C d /\ check && Connection.inactive c now = true).
Proof.
  unfold visit_connection, visited. destruct (check && Connection.inactive c now) eqn:Ei; intros E.
  - injection E as <-. split; [apply lookup_delete_eq|]. split; [intros id' Hne; cbn; by rewrite lookup_delete_ne|].
    intros C d. unfold expired. cbn. rewrite push_by_call_elem. destruct id as [C' d']. cbn.
    split; (intros [?|Hx]; [by left|right]); [by destruct Hx as [-> ->]|by destruct Hx as [[= -> ->] _]].
  - apply bind_Ok in E as ([c1 l] & E1 & E). apply tick_appends in E1 as [Hs _].
    assert (same_ice c1 (Connection.current_rates c1 now).1) as Hs2 by done.
    destruct (Connection.current_rates c1 now) as [c2 rates]. cbn [fst] in Hs2.
    injection E as <-. split; [exists c2; split; [apply lookup_insert_eq|by etransitivity]|].
    split; [intros id' Hne; cbn; by rewrite lookup_insert_ne|]. intros C d. unfold expired. cbn.
    split; [by left|]. intros [|[_ ?]]; [done|congruence].
Qed.

Lemma visit_connections_ok check now l : forall v v', NoDup (map fst l) -> visit_connections check now v l = Ok v' ->
  (forall id c, (id, c) ∈ l -> visited check now c (v_connections v' !! id)) /\
  (forall id, id ∉ map fst l -> v_connections v' !! id = v_connections v !! id) /\
  forall C d, d ∈ expired v' C <->
    d ∈ expired v C \/ exists c, (connection_id C d, c) ∈ l /\ check && Connection.inactive c now = true.
Proof.
  induction l as [|[id c] l IH]; intros v v' N E; cbn [visit_connections] in E.
  - injection E as <-. repeat split; try (intros; set_solver).
  - apply bind_Ok in E as (v1 & E1 & E). apply visit_connection_ok in E1 as (V1 & O1 & X1).
    apply NoDup_cons in N as [Nid N]. destruct (IH v1 v' N E) as (V2 & O2 & X2). split; [|split].
    + intros id' c' [[= -> ->]|Hin]%elem_of_cons; [by rewrite O2|auto].
    + intros id' Hn. cbn in Hn. rewrite not_elem_of_cons in Hn. destruct Hn as [Hne Hn]. by rewrite O2, O1.
    + intros C d. rewrite X2, X1. split.
      * intros [[?|[-> ?]]|(c' & Hin & ?)]; [by left|right; exists c; split; [by left|done]|right; exists c'; split; [by right|done]].
      * intros [?|(c' & [[= -> ->]|Hin]%elem_of_cons & ?)]; [by left; left|by left; right|right; eauto].
Qed.

(** What the visit leaves of a call: nothing if everyone expired, or the call
    without those who did. *)
Definition call_visited (admin : UserId -> bool -> Prop) (gone : list DemuxId.t) (call : Call.t) (o : option Call.t) : Prop :=
  match o with
  | Some call' => CallEvents.reachable admin call' /\ forall d, d ∈ ids call' <-> d ∈ ids call /\ d ∉ gone
  | None => forall d, d ∈ ids call -> d ∈ gone
  end.

Lemma activity_inactive_empty call now timeout outcome runtime :
  (Call.activity call now timeout outcome runtime).2 = Call.CallInactive -> ids call = [].
Proof.
  unfold Call.activity, ids, demux_ids. destruct (Call.clients call) eqn:E1, (Call.pending_clients call) eqn:E2,
    (Call.removed_clients call) eqn:E3; try done. intros _. cbn. by rewrite E1, E2, E3.
Qed.

Lemma visit_call_ok admin self v now outcomes w C call w' : CallEvents.reachable admin call ->
  visit_call self v now outcomes w (C, call) = Ok w' ->
  call_visited admin (expired v C) call (v_calls w' !! C) /\
  (forall id, id <> C -> v_calls w' !! id = v_calls w !! id) /\
  forall id, id ∈ map fst (v_ended w') <->
    id ∈ map fst (v_ended w) \/ (id = C /\ call_end_handler self = true /\ v_calls w' !! C = None).
Proof.
  intros R E. unfold visit_call in E. apply bind_Ok in E as (c1 & E1 & E).
  destruct (drop_clients_ok _ _ _ _ _ R E1) as [R1 Hd1].
  pose proof (harmless_keeps admin c1 now (Activity (Duration.from_secs (Config.inactivity_timeout_secs (config self)))
    (outcomes C false).1 (outcomes C false).2) _ I eq_refl R1) as [R2 Hd2]. fold (expired v C) in Hd1.
  pose proof (activity_inactive_empty c1 now (Duration.from_secs (Config.inactivity_timeout_secs (config self)))
    (outcomes C false).1 (outcomes C false).2) as Hempty.
  destruct (Call.activity c1 now _ _ _) as [c2 a]. cbn [fst snd] in *. destruct a.
  - match type of E with context [Handlers.tick ?c _ _ _] => assert (keeps admin c2 c) as [R3 Hd3]; [|done|set (c3 := c) in *] end.
    { etransitivity; apply fold_keeps; intros c [d q].
      - by eapply (harmless_keeps admin c now (SetQueueDrainRate d _)).
      - by apply (harmless_keeps admin c now (SetConnectionRates d q)). }
    apply bind_Ok in E as ([[c4 o] k] & E4 & E). injection E as <-. apply map_err_Ok in E4.
    destruct (harmless_keeps admin c3 now (CallEvents.Tick (outcomes C true).1 (outcomes C true).2) c4 I) as [R4 Hd4];
      [cbn; by rewrite E4|done|]. cbn. split; [|split].
    + rewrite lookup_insert_eq. split; [done|]. intros d. by rewrite Hd4, Hd3, Hd2, Hd1.
    + intros id Hne. by rewrite lookup_insert_ne.
    + intros id. rewrite lookup_insert_eq. intuition congruence.
  - injection E as <-. cbn. split; [|split].
    + rewrite lookup_delete_eq. intros d Hd. destruct (decide (d ∈ expired v C)); [done|].
      assert (d ∈ ids c1) as Hx by (by apply Hd1). rewrite Hempty in Hx by done. by apply elem_of_nil in Hx.
    + intros id Hne. by rewrite lookup_delete_ne.
    + intros id. rewrite lookup_delete_eq. case_if; [|intuition congruence]. rewrite map_app, elem_of_app. cbn.
      rewrite list_elem_of_singleton. tauto.
  - injection E as <-. cbn. split; [|split].
    + rewrite lookup_insert_eq. split; [done|]. intros d. by rewrite Hd2, Hd1.
    + intros id Hne. by rewrite lookup_insert_ne.
    + intros id. rewrite lookup_insert_eq. intuition congruence.
Qed.

Lemma visit_calls_ok admin_of self v now outcomes l : forall w w', NoDup (map fst l) ->
  (forall C call, (C, call) ∈ l -> CallEvents.reachable (admin_of C) call) -> visit_calls self v now outcomes w l = Ok w' ->
  (forall C call, (C, call) ∈ l -> call_visited (admin_of C) (expired v C) call (v_calls w' !! C)) /\
  (forall C, C ∉ map fst l -> v_calls w' !! C = v_calls w !! C) /\
  forall C, C ∈ map fst (v_ended w') <->
    C ∈ map fst (v_ended w) \/ (C ∈ map fst l /\ call_end_handler self = true /\ v_calls w' !! C = None).
Proof.
  induction l as [|[C call] l IH]; intros w w' N R E; cbn [visit_calls] in E.
  - injection E as <-. split; [|split]; [intros C call Hin; by apply elem_of_nil in Hin|done|].
    intros C. pose proof (not_elem_of_nil C). cbn. tauto.
  - apply bind_Ok in E as (w1 & E1 & E). apply (visit_call_ok (admin_of C)) in E1 as (V1 & O1 & X1); [|apply R; by left].
    apply NoDup_cons in N as [NC N]. destruct (IH w1 w' N) as (V2 & O2 & X2); [|done|].
    { intros C' call' Hin. apply R. by right. }
    split; [|split].
    + intros C' call' [[= -> ->]|Hin]%elem_of_cons; [by rewrite O2|auto].
    + intros C' Hn. cbn in Hn. rewrite not_elem_of_cons in Hn. destruct Hn as [Hne Hn]. by rewrite O2, O1.
    + intros C'. rewrite X2, X1. cbn. rewrite elem_of_cons. destruct (decide (C' = C)) as [->|]; [rewrite (O2 C NC)|]; tauto.
Qed.

Lemma configure_idle self C info now d self' d' : configure self C info now d = Ok (self', d') -> same_idle self self'.
Proof.
  unfold configure. intros E. destruct (connection_by_id self !! _) as [c|] eqn:Ec; [|by injection E as <- _].
  apply bind_Ok in E as ([c' d1] & E1 & [= <- _]). apply configure_same in E1. by eapply set_connection_idle.
Qed.

Lemma configure_all_idle C now infos : forall self d self' d', configure_all self C infos now d = Ok (self', d') -> same_idle self self'.
Proof.
  induction infos as [|info infos IH]; intros self d self' d' E; cbn [configure_all] in E; [by injection E as <- _|].
  apply bind_Ok in E as ([s1 d1] & E1 & E). etransitivity; [by eapply configure_idle|by eapply IH].
Qed.

Lemma apply_results_idle now results : forall self l d self' l' d',
  apply_results self results now l d = Ok (self', l', d') -> same_idle self self'.
Proof.
  induction results as [|[[[C outgoing] requests] infos] results IH]; intros self l d self' l' d' E; cbn [apply_results] in E;
    [by injection E as <- _ _|].
  apply bind_Ok in E as ([s1 d1] & E1 & E). apply bind_Ok in E as ([s2 l2] & E2 & E).
  apply bind_Ok in E as ([[s3 l3] d3] & E3 & E). apply configure_all_idle in E1. apply send_requests_idle in E2.
  apply send_outgoing_idle in E3. transitivity s1; [done|]. transitivity s2; [done|]. transitivity s3; [done|]. by eapply IH.
Qed.

(** The tick checks for inactivity, and this connection is inactive. *)
Definition times_out (self : t) (now : Z) (id : ConnectionId) : Prop :=
  activity_checked self + Duration.from_secs (Config.inactivity_check_interval_secs (config self)) <= now /\
  idle self now id = Some true.

#[global] Instance times_out_dec self now id : Decision (times_out self now id).
Proof. unfold times_out. apply _. Defined.

Record tick_effect (self : t) (now : Z) (self' : t) (ended : list CallId) : Prop := {
  te_connections : forall id at_, idle self' at_ id = if decide (times_out self now id) then None else idle self at_ id;
  te_calls : forall C call, call_by_call_id self !! C = Some call ->
    match call_by_call_id self' !! C with
    | Some call' => forall d, d ∈ ids call' <-> d ∈ ids call /\ ~ times_out self now (connection_id C d)
    | None => forall d, d ∈ ids call -> times_out self now (connection_id C d)
    end;
  te_no_new : forall C, call_by_call_id self !! C = None -> call_by_call_id self' !! C = None;
  te_ended : forall C, C ∈ ended <->
    call_end_handler self = true /\ is_Some (call_by_call_id self !! C) /\ call_by_call_id self' !! C = None
}.

Lemma tick_effect_ok admin_of self now outcomes self' out : sfu_ok admin_of self -> tick self now outcomes = Ok (self', out) ->
  tick_effect self now self' (map fst (ended_calls out)) /\
  forall C call, call_by_call_id self' !! C = Some call -> CallEvents.reachable (admin_of C) call.
Proof.
  intros Hok E. unfold tick in E. destruct (log_idle self now) as [Lc Li Lcfg Lch Lh].
  set (s0 := log_diagnostics self now) in *. set (check := _ <=? now) in E.
  set (s1 := if check then s0 <| activity_checked := now |> else s0) in E.
  assert (connection_by_id s1 = connection_by_id s0 /\ call_by_call_id s1 = call_by_call_id self /\
    call_end_handler s1 = call_end_handler self) as (S1 & S2 & S3) by (unfold s1; by destruct check).
  assert (check = true <-> activity_checked self + Duration.from_secs (Config.inactivity_check_interval_secs (config self)) <= now)
    as Hcheck by (unfold check; rewrite Lch, Lcfg; lia).
  clearbody s0 s1 check.
  apply bind_Ok in E as (v & Ev & E). apply visit_connections_ok in Ev as (V & O & X); [|apply map_entries_nodup].
  apply bind_Ok in E as (w & Ew & E). cbn in Ew. apply (visit_calls_ok admin_of) in Ew as (Vc & Oc & Xc);
    [|apply map_entries_nodup|intros C call Hin; apply map_entries_elem in Hin; apply (so_calls _ _ Hok); by rewrite <- S2].
  cbn in O, X, Oc, Xc. apply bind_Ok in E as ([[s2 l] d] & E2 & E). apply apply_results_idle in E2 as [Ac Ai _ _ _].
  cbn in Ac. destruct (TwoGenerationCache.remove_old _ now) as [addresses expired_addrs]. injection E as <- <-. cbn.
  assert (forall C dd, dd ∈ expired v C <-> times_out self now (connection_id C dd)) as Hexp.
  { intros C dd. rewrite X. unfold times_out. rewrite <- Hcheck, <- Li. unfold idle. rewrite <- S1. unfold expired at 1. cbn.
    rewrite fmap_Some. setoid_rewrite map_entries_elem. pose proof (not_elem_of_nil dd).
    split; [intros [?|(c & ? & [? ?]%andb_true_iff)]; [tauto|eauto]|intros (? & c & ? & Hc); right; exists c; by rewrite <- Hc, andb_true_r]. }
  assert (forall id at_, idle s2 at_ id = if decide (times_out self now id) then None else idle self at_ id) as Hidle.
  { intros id at_. rewrite Ai, <- Li. unfold idle at 1. cbn. destruct (connection_by_id s0 !! id) as [c|] eqn:Ec.
    - specialize (V id c). rewrite map_entries_elem, S1 in V. specialize (V Ec). unfold visited in V.
      assert (check && Connection.inactive c now = true <-> times_out self now id) as Ht.
      { unfold times_out. rewrite <- Hcheck, <- Li, andb_true_iff. unfold idle. rewrite Ec. cbn. intuition congruence. }
      case_decide as Hd; [apply Ht in Hd; rewrite Hd in V; by rewrite V|].
      destruct (check && _); [tauto|]. destruct V as (c' & -> & Hs). unfold idle. rewrite Ec. cbn. by rewrite (same_ice_inactive c).
    - rewrite O; [|intros ([? c] & -> & Hin)%list_elem_of_fmap; apply map_entries_elem in Hin; cbn in Ec; congruence].
      rewrite S1, Ec. unfold idle. rewrite Ec. by case_decide. }
  assert (forall C call, call_by_call_id self !! C = Some call ->
    call_visited (admin_of C) (expired v C) call (v_calls w !! C)) as Hcalls.
  { intros C call Hc. apply Vc, map_entries_elem. by rewrite S2. }
  assert (forall C, call_by_call_id self !! C = None -> v_calls w !! C = None) as Hnone.
  { intros C Hc. rewrite Oc, S2; [done|]. intros ([? c] & -> & Hin)%list_elem_of_fmap. apply map_entries_elem in Hin.
    rewrite S2 in Hin. cbn in Hc. congruence. }
  split.
  - split; cbn; rewrite ?Ac.
    + exact Hidle.
    + intros C call Hc. specialize (Hcalls C call Hc). unfold call_visited in Hcalls.
      destruct (v_calls w !! C); [destruct Hcalls as [_ Hd]|]; intros dd; rewrite <- Hexp; auto.
    + exact Hnone.
    + intros C. rewrite Xc, S3, S2. pose proof (not_elem_of_nil C). rewrite list_elem_of_fmap.
      split; [intros [?|((? & -> & Hin) & ? & ?)]; [tauto|]|intros (? & [c Hc] & ?); right].
      * destruct x as [C c]. apply map_entries_elem in Hin. split; [done|]. split; [by exists c|done].
      * split; [|done]. exists (C, c). by rewrite map_entries_elem.
  - cbn. rewrite Ac. intros C call' Hc'. destruct (call_by_call_id self !! C) as [call|] eqn:Hc.
    + specialize (Hcalls C call Hc). rewrite Hc' in Hcalls. by destruct Hcalls.
    + rewrite Hnone in Hc'; done.
Qed.

Lemma tick_ok admin_of self now outcomes self' out : sfu_ok admin_of self -> tick self now outcomes = Ok (self', out) ->
  sfu_ok admin_of self'.
Proof.
  intros Hok E. destruct (tick_effect_ok admin_of _ _ _ _ _ Hok E) as [[Hi Hc _ _] Hr]. split; [done|].
  intros [C d] [c Ec]. pose proof (Hi (connection_id C d) 0) as Hid. unfold idle in Hid at 1. rewrite Ec in Hid. cbn in Hid.
  case_decide as Hd; [done|]. destruct (so_members _ _ Hok (connection_id C d)) as (call & Hcall & Hm).
  { unfold idle in Hid. by destruct (connection_by_id self !! _). }
  cbn in Hcall, Hm. specialize (Hc C call Hcall). cbn. destruct (call_by_call_id self' !! C) as [call'|].
  - exists call'. split; [done|]. by apply Hc.
  - by destruct Hd; apply Hc.
Qed.

End Tick.
End ReachFacts.
