(* ===== verification/SfuProperties.v ===== *)
(** * SfuProperties: what holds of a server whatever is asked of it

    The events are the calls that packet_server.rs, the signaling servers and
    the tick thread make to [Sfu]; the theorems are about every server reachable
    through them. *)
From stdpp Require Import strings.
From S2P Require Import Prelude Common Collections Float Bytes Srtp RtpHeader Packet RtpEndpoint Pacer Ice Googcc Layers ApprovedUsers.
From S2P Require Import Client Connection Call CallHandlers CallSpec CallFacts MediaFacts CallProperties Sfu SfuFacts.

Module SfuEvents.
Import Sfu.

Section Events.
Context `{Mrp} `{Protos} `{BlockCipher} `{AeadLaws} `{HashMapOrder} `{HmacSha1} `{Crc32} `{Powf} `{Sm2} `{Hkdf} `{MapOrder}.

(** What a client that joins brings, and the server's key pair. *)
Record JoinRequest := join_request {
  j_call_id : CallId;
  j_room_id : option string;
  j_user_id : UserId;
  j_demux_id : DemuxId.t;
  j_server_ice_ufrag : bytes;
  j_server_ice_pwd : bytes;
  j_client_ice_ufrag : bytes;
  j_client_dhe_public_key : bytes;
  j_client_hkdf_extra_info : bytes;
  j_region : Region.t;
  j_new_clients_require_approval : bool;
  j_is_admin : bool;
  j_approved_users : option (list UserId);
  j_key_pair : Res string (bytes * bytes)
}.

Definition join (self : t) (j : JoinRequest) (now created locked_now : Z) :
    Res unit (t * Res SfuError (bytes * Call.ClientStatus)) :=
  get_or_create_call_and_add_client self (j_call_id j) (j_room_id j) (j_user_id j) (j_demux_id j) (j_server_ice_ufrag j)
    (j_server_ice_pwd j) (j_client_ice_ufrag j) (j_client_dhe_public_key j) (j_client_hkdf_extra_info j) (j_region j)
    (j_new_clients_require_approval j) (j_is_admin j) (j_approved_users j) now created locked_now (j_key_pair j).

Inductive Event :=
| Joins (j : JoinRequest) (now created locked_now : Z)
| Leaves (call_id : CallId) (demux_id : DemuxId.t) (now : Z)
| PacketArrives (sender_addr : SocketLocator) (packet : bytes) (clock : nat -> Z)
| DequeueDue (addr : SocketLocator) (now : Z)
| TickDue (now : Z) (outcomes : CallId -> bool -> option ApprovedUsers.Outcome * bool).

Definition perform (self : t) (e : Event) : Res unit t :=
  match e with
  | Joins j now created locked_now => r ← join self j now created locked_now; Ok r.1
  | Leaves call_id demux_id now => remove_client_from_call self now call_id demux_id
  | PacketArrives sender_addr packet clock => r ← handle_packet self sender_addr packet clock; Ok r.1
  | DequeueDue addr now => r ← handle_dequeue self addr now; Ok r.1
  | TickDue now outcomes => r ← tick self now outcomes; Ok r.1
  end.

(** A datagram is made of bytes.  Which users may join which call with which admin
    bit is a parameter, [anyone] for any user and any bit. *)
Definition admissible (admin_of : CallId -> UserId -> bool -> Prop) (e : Event) : Prop :=
  match e with
  | Joins j _ _ _ => admin_of (j_call_id j) (j_user_id j) (j_is_admin j)
  | PacketArrives _ packet _ => bytes_ok packet
  | _ => True
  end.

Definition anyone (C : CallId) (u : UserId) (admin : bool) : Prop := True.

Inductive reachable (admin_of : CallId -> UserId -> bool -> Prop) : t -> Prop :=
| reach_new now config region : reachable admin_of (new now config region)
| reach_event self e self' : reachable admin_of self -> admissible admin_of e -> perform self e = Ok self' ->
    reachable admin_of self'.

(** Some ticks. *)
Inductive ticks : t -> t -> Prop :=
| no_tick self : ticks self self
| one_tick self now outcomes self1 out self2 : tick self now outcomes = Ok (self1, out) -> ticks self1 self2 -> ticks self self2.

End Events.
End SfuEvents.

Module SfuEventFacts.
Import Sfu SfuEvents IsolationFacts ReachFacts.

Section Facts.
Context `{Mrp} `{Protos} `{BlockCipher} `{AeadLaws} `{HashMapOrder} `{HmacSha1} `{Crc32} `{Powf} `{Sm2} `{Hkdf} `{MapOrder}.
Variable admin_of : CallId -> UserId -> bool -> Prop.

Lemma reachable_sfu_ok self : reachable admin_of self -> sfu_ok admin_of self.
Proof.
  induction 1 as [now config region|self e self' _ IH A E].
  - split; cbn; [by intros id call Hc%lookup_empty_Some|]. intros id [c Hc]. by apply lookup_empty_Some in Hc.
  - destruct e; cbn in A, E.
    + apply bind_Ok in E as ([s r] & E & [= <-]). by apply (join_ok admin_of) in E.
    + by apply (remove_client_ok admin_of) in E.
    + apply bind_Ok in E as ([s r] & E & [= <-]). by apply (handle_packet_ok admin_of) in E.
    + apply bind_Ok in E as ([s r] & E & [= <-]). by apply (handle_dequeue_ok admin_of) in E.
    + apply bind_Ok in E as ([s r] & E & [= <-]). by apply (tick_ok admin_of) in E.
Qed.

(** A member without a connection. *)
Definition ghost (self : t) (C : CallId) (d : DemuxId.t) : Prop :=
  connection_by_id self !! connection_id C d = None /\
  exists call, call_by_call_id self !! C = Some call /\ d ∈ ids call.

Lemma tick_ghost self now outcomes self' out C d : sfu_ok admin_of self -> tick self now outcomes = Ok (self', out) ->
  ghost self C d -> ghost self' C d.
Proof.
  intros Hok E [Hn (call & Hc & Hd)]. destruct (tick_effect_ok admin_of _ _ _ _ _ Hok E) as [[Hi Hcalls _ _] _].
  assert (~ times_out self now (connection_id C d)) as Ht by (intros [_ Ht]; unfold idle in Ht; by rewrite Hn in Ht).
  split.
  - specialize (Hi (connection_id C d) 0). rewrite decide_False in Hi by done. unfold idle in Hi. rewrite Hn in Hi.
    by destruct (connection_by_id self' !! _).
  - specialize (Hcalls C call Hc). destruct (call_by_call_id self' !! C) as [call'|].
    + exists call'. split; [done|]. by apply Hcalls.
    + by destruct Ht; apply Hcalls.
Qed.

Lemma ticks_ghost self self' C d : sfu_ok admin_of self -> ticks self self' -> ghost self C d -> ghost self' C d.
Proof.
  intros Hok Ht. induction Ht as [|self now outcomes s1 out s2 E _ IH]; [done|]. intros Hg.
  apply IH; [by eapply tick_ok|by eapply tick_ghost].
Qed.

Lemma failed_join_ghost self j now created locked_now self' m : sfu_ok admin_of self -> admissible admin_of (Joins j now created locked_now) ->
  join self j now created locked_now = Ok (self', Err (CryptoError m)) -> ghost self' (j_call_id j) (j_demux_id j).
Proof.
  intros Hok A E. cbn in A. unfold join, get_or_create_call_and_add_client in E.
  match type of E with context [default ?n (call_by_call_id self !! ?C)] =>
    set (call := default n (call_by_call_id self !! C)) in E end.
  set (C := j_call_id j) in *. set (d := j_demux_id j) in *.
  assert (sfu_ok admin_of (set_call self C call)) as Hok1.
  { unfold call. destruct (call_by_call_id self !! C) as [c|] eqn:Ec; cbn [default].
    - by apply (set_call_grows _ _ _ c).
    - apply set_call_new; [done..|apply CallEvents.reach_new]. }
  destruct (Call.has_client call d) eqn:Hh; [done|].
  assert (connection_by_id self !! connection_id C d = None) as Hn.
  { apply eq_None_not_Some. intros Hs. destruct (so_members _ _ Hok1 (connection_id C d) Hs) as (c & Hc & Hd). cbn in Hc.
    rewrite lookup_insert_eq in Hc. injection Hc as <-. by apply CallEventFacts.has_client_demux in Hh. }
  apply bind_Ok in E as ([call' status] & E1 & E). apply map_err_Ok in E1. rewrite set_call_twice in E.
  assert (call_by_call_id (set_call self C call) !! C = Some call) as Ec by apply lookup_insert_eq.
  destruct (add_client_ok admin_of _ _ _ _ _ _ _ _ _ _ Hok1 Ec Hh A E1) as [_ Hd].
  assert (ghost (set_call self C call') C d) as Hg.
  { split; [done|]. exists call'. split; [apply lookup_insert_eq|done]. }
  apply try_Ok in E as [([private public] & _ & E)|(e & _ & -> & _)]; [|done].
  apply bind_Ok in E as (server_key & _ & E).
  apply try_Ok in E as [(client_key & _ & E)|(e & _ & -> & _)]; [|done].
  apply bind_Ok in E as (connection & _ & E).
  apply try_Ok in E as [(c & _ & E)|(e & _ & -> & _)]; done.
Qed.

End Facts.
End SfuEventFacts.

(** * Theorems *)
Module SfuProperties.
Import Sfu SfuEvents SfuEventFacts IsolationFacts ReachFacts.

Section Properties.
Context `{Mrp} `{Protos} `{BlockCipher} `{AeadLaws} `{HashMapOrder} `{HmacSha1} `{Crc32} `{Powf} `{Sm2} `{Hkdf} `{MapOrder}.

(** C19: In every reachable server (whoever joins, with whichever admin bit in each
    join), each call is one that the events of a call lead to, so that what is
    shown of those calls holds of it; and each connection belongs to a client of
    a call that is there, so that no packet is answered with a missing call. *)
Theorem server_calls_reachable admin_of self : reachable admin_of self ->
  (forall C call, call_by_call_id self !! C = Some call -> CallEvents.reachable (admin_of C) call) /\
  (forall C d c, connection_by_id self !! connection_id C d = Some c ->
     exists call, get_call_from_id self C = Ok call /\ Call.has_client call d = true).
Proof.
  intros [Hc Hm]%reachable_sfu_ok. split; [done|]. intros C d c Hi. destruct (Hm (connection_id C d)) as (call & Hcall & Hd); [by rewrite Hi|].
  exists call. unfold get_call_from_id. cbn in Hcall. rewrite Hcall. split; [done|].
  destruct (Call.has_client call d) eqn:Hh; [done|]. by apply CallEventFacts.has_client_demux in Hh.
Qed.

(** C20: Calls do not reach each other: a packet whose sender is unknown changes nothing and is
    refused; any other changes the sender's call and its connections only, and what is sent
    in response goes to an address nominated by a client of that call; but a packet that is a
    STUN message, and neither RTP nor RTCP, may be answered by one packet back to its sender. *)
Theorem calls_are_isolated self sender_addr packet clock self' r :
  handle_packet self sender_addr packet clock = Ok (self', r) ->
  match sender_call self sender_addr packet with
  | None => self' = self /\ exists e, r = Err e
  | Some C =>
      (forall C', C' <> C -> call_by_call_id self' !! C' = call_by_call_id self !! C') /\
      (forall C' d, C' <> C -> connection_by_id self' !! connection_id C' d = connection_by_id self !! connection_id C' d) /\
      forall out p addr, r = Ok out -> (p, addr) ∈ packets_to_send out ->
        (looks_like_rtp packet = false /\ looks_like_rtcp packet = false /\ (exists req, Ice.parse packet = Ok req) /\
         addr = sender_addr /\ packets_to_send out = [(p, addr)]) \/
        exists d c, connection_by_id self' !! connection_id C d = Some c /\ Connection.outgoing_addr c = Some addr
  end.
Proof.
  intros E. apply handle_packet_within in E. unfold stays_within in E. destruct (sender_call self sender_addr packet) as [C|]; [|done].
  destruct E as [[Hcalls Hconns] Hout]. split; [done|]. split; [intros C' d Hne; by apply Hconns|]. intros out p addr Ho Hin.
  destruct (Hout out p addr Ho Hin) as [Ha|([C' d] & Hid & Ha)]; [by left|right]. cbn in Hid. subst C'.
  unfold addr_of in Ha. apply fmap_Some in Ha as (c & Hc & Ha). by exists d, c.
Qed.

(** C21: A tick ends what has fallen silent and nothing else: once the check is due, it closes
    exactly the connections that are inactive and takes their clients out of their calls; all
    other clients stay; a call is gone only when no client is left in it; and the handler, if
    one is set, gets exactly the calls that ended. *)
Theorem tick_ends_only_silence admin_of self now outcomes self' out : reachable admin_of self ->
  tick self now outcomes = Ok (self', out) ->
  let due := activity_checked self + Duration.from_secs (Config.inactivity_check_interval_secs (config self)) <= now in
  let silent C d := due /\ exists c, connection_by_id self !! connection_id C d = Some c /\ Connection.inactive c now = true in
  (forall C d, is_Some (connection_by_id self' !! connection_id C d) <->
     is_Some (connection_by_id self !! connection_id C d) /\ ~ silent C d) /\
  (forall C call, call_by_call_id self !! C = Some call ->
     match call_by_call_id self' !! C with
     | Some call' => forall d, Call.has_client call' d = true <-> Call.has_client call d = true /\ ~ silent C d
     | None => forall d, Call.has_client call d = true -> silent C d
     end) /\
  forall C, C ∈ map fst (ended_calls out) <->
    call_end_handler self = true /\ is_Some (call_by_call_id self !! C) /\ call_by_call_id self' !! C = None.
Proof.
  intros Hok%reachable_sfu_ok E due silent. destruct (tick_effect_ok admin_of _ _ _ _ _ Hok E) as [[Hi Hc _ He] _].
  assert (forall C d, times_out self now (connection_id C d) <-> silent C d) as Hs.
  { intros C d. unfold times_out, silent, idle. by rewrite fmap_Some; setoid_rewrite (eq_comm true). }
  assert (forall call d, Call.has_client call d = true <-> d ∈ ids call) as Hh by apply has_client_ids.
  split; [|split; [|exact He]].
  - intros C d. specialize (Hi (connection_id C d) 0). rewrite <- Hs. unfold idle in Hi at 1.
    case_decide as Hd; [destruct (connection_by_id self' !! _); [done|]; split; [by intros []|tauto]|].
    unfold idle in Hi. destruct (connection_by_id self' !! _), (connection_by_id self !! _); try done; tauto.
  - intros C call Hcall. specialize (Hc C call Hcall). destruct (call_by_call_id self' !! C) as [call'|]; intros d.
    + rewrite !Hh, <- Hs. apply Hc.
    + rewrite Hh, <- Hs. apply Hc.
Qed.

(** A join that fails on a key leaves a client behind: the client stays in its call without a
    connection, and no tick takes it out or ends the call. *)
Theorem failed_join_leaves_ghost admin_of self j now created locked_now self' m self'' : reachable admin_of self ->
  admin_of (j_call_id j) (j_user_id j) (j_is_admin j) ->
  join self j now created locked_now = Ok (self', Err (CryptoError m)) -> ticks self' self'' ->
  connection_by_id self'' !! connection_id (j_call_id j) (j_demux_id j) = None /\
  exists call, call_by_call_id self'' !! j_call_id j = Some call /\ Call.has_client call (j_demux_id j) = true.
Proof.
  intros Hok%reachable_sfu_ok A E Ht. pose proof (failed_join_ghost admin_of _ _ _ _ _ _ _ Hok A E) as Hg.
  assert (sfu_ok admin_of self') as Hok' by by eapply join_ok.
  destruct (ticks_ghost admin_of _ _ _ _ Hok' Ht Hg) as [Hn (call & Hc & Hd)]. split; [done|]. exists call. split; [done|].
  by apply has_client_ids.
Qed.

End Properties.
(** ** A sample server

    Alice joins a call and her phone is nominated; Bob joins with a key that is
    refused. *)

#[local] Existing Instances SampleCall.sample_mrp SampleCall.sample_protos SampleCipher.flip_aead SampleCipher.flip_aead_laws.
#[local] Existing Instances IceProperties.toy_hmac IceProperties.toy_crc.
#[local] Existing Instances ConnectionProperties.toy_block ConnectionProperties.list_order ConnectionProperties.toy_powf.
#[local] Instance toy_sm2 : Sm2 := {|
  sm2_decompress_public_key k := match k with [] => Err "no key"%string | _ => Ok k end;
  sm2_compute_ecdh private public := Ok (private ++ public)
|}.
#[local] Instance toy_hkdf : Hkdf := { expand_multi_info secret infos n := Some (replicate n 7) }.
#[local] Instance list_map_order : MapOrder := {|
  map_entries K V _ _ m := map_to_list m; map_entries_perm K V _ _ m := Permutation_refl _
|}.

Definition is_alice (u : UserId) : bool := bool_decide (u = "alice"%string).
Definition admins (C : CallId) (u : UserId) (admin : bool) : Prop := admin = is_alice u.

Definition config : Config.t := Config.mk 800 100 30000 5000 500 (Some 1) 1000 5 30 false false.
Definition server : t := new 0 config (Some Region.Unknown).

Definition room : CallId := [1; 2; 3].
Definition request (u : UserId) (d : DemuxId.t) (ufrag key : bytes) : JoinRequest :=
  join_request room None u d [97] [112] ufrag key [5] Region.Unknown false (is_alice u) None
    (Ok ([1], replicate 64 3)).
Definition phone : SocketLocator := ConnectionProperties.phone.
Definition events : list Event :=
  [Joins (request "alice" 16 [98] [9]) 1 1 1; PacketArrives phone (ConnectionProperties.binding_request true [112]) (fun _ => 2);
   Joins (request "bob" 32 [99] [8]) 3 3 3; TickDue 4 (fun _ _ => (None, false)); Leaves room 32 5].

Fixpoint run (self : t) (es : list Event) : Res unit t :=
  match es with [] => Ok self | e :: es => self ← perform self e; run self es end.

Lemma run_reachable es : forall self self', reachable admins self -> Forall (admissible admins) es ->
  run self es = Ok self' -> reachable admins self'.
Proof.
  induction es as [|e es IH]; intros self self' R F E; cbn [run] in E; [by injection E as <-|].
  apply bind_Ok in E as (s & E1 & E). apply Forall_cons in F as [F1 F]. apply (IH s); [|done..]. by eapply reach_event.
Qed.

Lemma bytes_check l : forallb (fun b => (0 <=? b) && (b <? 256)) l = true -> bytes_ok l.
Proof.
  rewrite forallb_forall. intros Hl. apply Forall_forall. intros b Hb%list_elem_of_In. specialize (Hl b Hb).
  unfold byte_ok, uint. boolsplit. lia.
Qed.

Lemma events_admissible : Forall (admissible admins) events.
Proof.
  apply Forall_cons. split; [reflexivity|]. apply Forall_cons. split; [apply bytes_check; vm_compute; reflexivity|].
  apply Forall_cons. split; [reflexivity|]. apply Forall_cons. split; [exact I|]. by apply Forall_singleton.
Qed.

(** The sample server after the first [n] events. *)
Definition after (n : nat) : Res unit t := run server (take n events).

Lemma after_reachable n self : after n = Ok self -> reachable admins self.
Proof.
  apply run_reachable; [apply reach_new|]. apply Forall_take, events_admissible.
Qed.

Definition quiet : CallId -> bool -> option ApprovedUsers.Outcome * bool := fun _ _ => (None, false).
Definition nomination : bytes := ConnectionProperties.binding_request true [112].

Lemma server_calls_reachable_witness : exists self c, after 5 = Ok self /\
  connection_by_id self !! connection_id room 16 = Some c /\
  exists call, get_call_from_id self room = Ok call /\ Call.has_client call 16 = true.
Proof.
  assert (match after 5 with Ok self => bool_decide (is_Some (connection_by_id self !! connection_id room 16)) | _ => false end = true)
    as Hr by (vm_compute; reflexivity).
  destruct (after 5) as [self| |] eqn:E; [|discriminate Hr..]. apply bool_decide_eq_true in Hr as [c Hc].
  exists self, c. split; [reflexivity|]. split; [exact Hc|].
  exact (proj2 (server_calls_reachable admins self (after_reachable 5 self E)) room 16 c Hc).
Defined.

Lemma calls_are_isolated_witness : exists self self' r,
  after 1 = Ok self /\ handle_packet self phone nomination (fun _ => 2) = Ok (self', r) /\
  sender_call self phone nomination = Some room /\
  forall C, C <> room -> call_by_call_id self' !! C = call_by_call_id self !! C.
Proof.
  assert (match after 1 with
          | Ok self => match handle_packet self phone nomination (fun _ => 2) with
                       | Ok _ => sender_call self phone nomination = Some room | _ => False end
          | _ => False end) as Es by (vm_compute; reflexivity).
  destruct (after 1) as [self| |] eqn:E; [|destruct Es..].
  destruct (handle_packet self phone nomination (fun _ => 2)) as [[self' r]| |] eqn:Eh; [|destruct Es..].
  exists self, self', r. split; [reflexivity|]. split; [exact Eh|]. split; [exact Es|].
  pose proof (calls_are_isolated self phone nomination (fun _ => 2) self' r Eh) as H.
  rewrite Es in H. exact (proj1 H).
Defined.

Lemma tick_ends_only_silence_witness : exists self self' out, after 3 = Ok self /\
  tick self (Duration.from_secs 40) quiet = Ok (self', out) /\
  is_Some (connection_by_id self !! connection_id room 16) /\ ~ is_Some (connection_by_id self' !! connection_id room 16).
Proof.
  set (now := Duration.from_secs 40).
  assert (match after 3 with
          | Ok self => match tick self now quiet, connection_by_id self !! connection_id room 16 with
                       | Ok _, Some c => Connection.inactive c now &&
                           (activity_checked self + Duration.from_secs (Config.inactivity_check_interval_secs (Sfu.config self)) <=? now)
                       | _, _ => false end
          | _ => false end = true) as Hr by (vm_compute; reflexivity).
  destruct (after 3) as [self| |] eqn:E; [|discriminate Hr..].
  destruct (tick self now quiet) as [[self' out]| |] eqn:Et; [|discriminate Hr..].
  destruct (connection_by_id self !! connection_id room 16) as [c|] eqn:Ec; [|discriminate Hr].
  apply andb_true_iff in Hr as [Hi Hd]. apply Z.leb_le in Hd.
  exists self, self', out. split; [reflexivity|]. split; [exact Et|]. split; [rewrite Ec; by exists c|]. intros Hs.
  apply (proj2 (proj1 (proj1 (tick_ends_only_silence admins self now quiet self' out (after_reachable 3 self E) Et) room 16) Hs)).
  split; [exact Hd|]. exists c. split; [exact Ec|exact Hi].
Defined.

Lemma failed_join_leaves_ghost_witness : exists self self' self'' out m, after 2 = Ok self /\
  join self (request "bob" 32 [99] []) 3 3 3 = Ok (self', Err (CryptoError m)) /\
  tick self' (Duration.from_secs 86400) quiet = Ok (self'', out) /\
  exists call, call_by_call_id self'' !! room = Some call /\ Call.has_client call 32 = true.
Proof.
  set (now := Duration.from_secs 86400).
  assert (match after 2 with
          | Ok self => match join self (request "bob" 32 [99] []) 3 3 3 with
                       | Ok (self', Err (CryptoError _)) => match tick self' now quiet with Ok _ => true | _ => false end
                       | _ => false end
          | _ => false end = true) as Hr by (vm_compute; reflexivity).
  destruct (after 2) as [self| |] eqn:E; [|discriminate Hr..].
  destruct (join self (request "bob" 32 [99] []) 3 3 3) as [[self' [|[]|]]| |] eqn:Ej; try discriminate Hr.
  destruct (tick self' now quiet) as [[self'' out]| |] eqn:Et; [|discriminate Hr..].
  exists self, self', self'', out, message. split; [reflexivity|]. split; [exact Ej|]. split; [exact Et|].
  exact (proj2 (failed_join_leaves_ghost admins self (request "bob" 32 [99] []) 3 3 3 self' message self'' (after_reachable 2 self E) eq_refl Ej
    (one_tick _ _ _ _ _ _ Et (no_tick _)))).
Defined.

End SfuProperties.
