(* ===== verification/LoadBalancer.v ===== *)
(** * LoadBalancer: which backend gets a new call

    [src/frontend/src/load_balancer.rs].  The task behind [LoadBalancer] handles
    one message at a time; a [oneshot::Sender] is a number, and what is sent on
    it is part of the result.  Starting a health checker is part of the result
    of [replace_map]; dropping its entry ends it. *)
From stdpp Require Import strings.
From S2P Require Import Prelude Collections.

Module LoadBalancer.

Notation Ipv4Addr := Z (only parsing).
Notation Sender := Z (only parsing).

Definition MAX_HOSTS : nat := 256.

Inductive LoadBalancerMessage :=
| Choose (reply : Sender)
| HostList (reply : Sender) (ips : list Ipv4Addr)
| HostWeight (ip : Ipv4Addr) (weight : Z).

Record ServerHealth := server_health {
  weight : option Z;   (* None before the first health check *)
  weight_left : Z;
  reported_weight : Z
}.
#[global] Instance health_eta : Settable ServerHealth := fun h =>
  server_health (weight h) (weight_left h) (reported_weight h).

(** [LoadBalancerTask] *)
Record t := mk {
  servers : gmap Ipv4Addr ServerHealth;
  total_weight : Z;
  total_weight_left : Z;
  unchecked_servers : Z;
  host_list_reply : option Sender
}.
#[global] Instance t_eta : Settable t := fun s =>
  mk (servers s) (total_weight s) (total_weight_left s) (unchecked_servers s) (host_list_reply s).

Definition default : t := mk ∅ 0 0 0 None.

(** What is sent on the reply channels. *)
Inductive Reply :=
| HostListReply (to : Sender) (result : Res string unit)
| ChooseReply (to : Sender) (result : Res string Ipv4Addr).

Definition maybe_send_host_list_reply (self : t) : t * list Reply :=
  if unchecked_servers self =? 0 then
    match host_list_reply self with
    | Some s => (self <| host_list_reply := None |>, [HostListReply s (Ok ())])
    | None => (self, [])
    end
  else (self, []).

(** The weight that is logged. *)
Definition report (self : t) (h : ServerHealth) (w : Z) : Z :=
  if (0 <? w) && (total_weight self =? 0) then w
  else if (w =? 0) && (total_weight self =? unwrap_or (weight h) 0) then w
  else if (reported_weight h =? 0) || (w =? 0) then w
  else reported_weight h.

Definition update_weight (self : t) (ip w : Z) : t * list Reply :=
  match servers self !! ip with
  | Some h =>
      let reported := report self h w in
      let self :=
        if w =? 0 then self <| total_weight_left ::= fun l => u16 (l - weight_left h) |>
        else self <| total_weight_left := 0 |> in
      let self := self <| servers ::= <[ip := server_health (Some w) w reported]> |> in
      let '(self, replies) :=
        match weight h with
        | Some old_weight => (self <| total_weight ::= fun t => u16 (t - old_weight) |>, [])
        | None => maybe_send_host_list_reply (self <| unchecked_servers ::= fun n => u16 (n - 1) |>)
        end in
      (self <| total_weight ::= fun t => u16 (t + w) |>, replies)
  | None => (self, [])
  end.

(** The hosts that stay move to the new map, the others are new: their health
    checkers are started. *)
Record Replacing := replacing {
  old_map : gmap Ipv4Addr ServerHealth;
  new_map : gmap Ipv4Addr ServerHealth;
  unchecked : Z;
  started : list Ipv4Addr
}.

Definition replace_host (r : Replacing) (host_ip : Ipv4Addr) : Replacing :=
  match old_map r !! host_ip with
  | Some old_server_health =>
      replacing (delete host_ip (old_map r)) (<[host_ip := old_server_health]> (new_map r)) (unchecked r) (started r)
  | None =>
      replacing (old_map r) (<[host_ip := server_health None 0 0]> (new_map r)) (u16 (unchecked r + 1))
        (started r ++ [host_ip])
  end.

(** A host that is gone takes its weight with it. *)
Definition remove_host (self : t) (h : ServerHealth) : t :=
  match weight h with
  | Some w =>
      self <| total_weight ::= fun t => u16 (t - w) |>
           <| total_weight_left ::= fun l => u16 (l - weight_left h) |>
  | None => self <| unchecked_servers ::= fun n => u16 (n - 1) |>
  end.

Section Order.
Context `{MapOrder}.

Definition replace_map (self : t) (host_list : list Ipv4Addr) : t * list Reply * list Ipv4Addr :=
  let r := fold_left replace_host host_list (replacing (servers self) ∅ (unchecked_servers self) []) in
  let self := self <| unchecked_servers := unchecked r |> in
  let self := fold_left (fun self e => remove_host self e.2) (map_entries (old_map r)) self in
  let '(self, replies) := maybe_send_host_list_reply self in
  (self <| servers := new_map r |>, replies, started r).

(** The host whose share of the balls left the number [n] falls into. *)
Fixpoint draw (l : list (Ipv4Addr * ServerHealth)) (n : Z) : option (Ipv4Addr * ServerHealth) :=
  match l with
  | [] => None
  | (ip, h) :: l => if n <? weight_left h then Some (ip, h) else draw l (u16 (n - weight_left h))
  end.

(** [gen_range m] is what [rng.gen_range(0..m)] returns. *)
Definition choose (self : t) (gen_range : Z -> Z) : t * Res string Ipv4Addr :=
  if bool_decide (servers self = ∅) then (self, Err "no hosts in load balancer"%string)
  else if 0 <? total_weight self then
    let self :=
      if total_weight_left self =? 0 then
        self <| total_weight_left := total_weight self |>
             <| servers ::= fmap (fun h => h <| weight_left := unwrap_or (weight h) 0 |>) |>
      else self in
    match draw (map_entries (servers self)) (gen_range (total_weight_left self)) with
    | Some (ip, h) =>
        (self <| servers ::= <[ip := h <| weight_left ::= fun l => u8 (l - 1) |>]> |>
              <| total_weight_left ::= fun l => u16 (l - 1) |>, Ok ip)
    | None => (self, Err "no healthy hosts"%string)
    end
  else (self, Err "no healthy hosts"%string).

(** One message of [recv].  [gen_range] is used if it is a [Choose]. *)
Definition recv (self : t) (m : LoadBalancerMessage) (gen_range : Z -> Z) : t * list Reply * list Ipv4Addr :=
  match m with
  | Choose sender =>
      let '(self, r) := choose self gen_range in (self, [ChooseReply sender r], [])
  | HostList reply_sender ips =>
      let replies :=
        match host_list_reply self with
        | Some s => [HostListReply s (Err "concurrent updates"%string)]
        | None => []
        end in
      let self := self <| host_list_reply := Some reply_sender |> in
      let '(self, replies', started) := replace_map self ips in
      (self, replies ++ replies', started)
  | HostWeight ip w => let '(self, replies) := update_weight self ip w in (self, replies, [])
  end.

End Order.

(** The weight of a response to a health check: [None] for no response or one
    that is not OK, [Some None] for a body that does not parse. *)
Definition healthcheck_weight (response : option (option Z)) : Z :=
  match response with
  | Some (Some cpu_idle_pct) => u8 (1 + cpu_idle_pct)
  | Some None => 1
  | None => 0
  end.

(** What a health checker sends, and the weight it sent last. *)
Definition healthcheck (ip : Ipv4Addr) (last_weight : option Z) (response : option (option Z)) :
    option Z * list LoadBalancerMessage :=
  let weight := healthcheck_weight response in
  if bool_decide (last_weight = Some weight) then (last_weight, []) else (Some weight, [HostWeight ip weight]).

(** [LoadBalancer::new_with_ips]: what is sent to the task before it waits for [reply]. *)
Definition new_with_ips (reply : Sender) (instance_ips : list Ipv4Addr) : Res string LoadBalancerMessage :=
  if (MAX_HOSTS <? length instance_ips)%nat then Err "Too many hosts"%string else Ok (HostList reply instance_ips).

End LoadBalancer.

(** * Theorems *)
Module LoadBalancerFacts.
Import LoadBalancer.

(** ** Sums over the hosts *)
Definition lsum (f : ServerHealth -> Z) (l : list (Ipv4Addr * ServerHealth)) : Z := foldr (fun e n => f e.2 + n) 0 l.
Definition sum (f : ServerHealth -> Z) (m : gmap Ipv4Addr ServerHealth) : Z := lsum f (map_to_list m).

Lemma lsum_perm f l l' : l ≡ₚ l' -> lsum f l = lsum f l'.
Proof. unfold lsum. induction 1; simpl; lia. Qed.

Lemma sum_empty f : sum f ∅ = 0.
Proof. unfold sum. by rewrite map_to_list_empty. Qed.

Lemma sum_insert f m k h : m !! k = None -> sum f (<[k := h]> m) = f h + sum f m.
Proof. intros Hn. unfold sum. by rewrite (lsum_perm f _ _ (map_to_list_insert m k h Hn)). Qed.

Lemma sum_delete f m k h : m !! k = Some h -> sum f m = f h + sum f (delete k m).
Proof.
  intros Hk. rewrite <- (insert_delete_id m k h Hk) at 1. apply sum_insert, lookup_delete_eq.
Qed.

Lemma sum_update f m k h h' : m !! k = Some h -> sum f (<[k := h']> m) = f h' - f h + sum f m.
Proof.
  intros Hk. rewrite <- insert_delete_eq, sum_insert by apply lookup_delete_eq. rewrite (sum_delete f m k h Hk). lia.
Qed.

Lemma sum_fmap f g m : sum f (g <$> m) = sum (fun h => f (g h)) m.
Proof.
  unfold sum. rewrite map_to_list_fmap. generalize (map_to_list m). intros l. unfold lsum.
  induction l as [|[k h] l IH]; [done|]. cbn [fmap list_fmap foldr prod_map snd]. by rewrite <- IH.
Qed.

Lemma sum_bounds f m b : (forall k h, m !! k = Some h -> 0 <= f h <= b) -> 0 <= sum f m <= b * Z.of_nat (size m).
Proof.
  intros Hf. unfold sum. rewrite <- length_map_to_list.
  assert (forall e, e ∈ map_to_list m -> 0 <= f e.2 <= b) as Hl by (intros [k h] He%elem_of_map_to_list; eauto).
  revert Hl. generalize (map_to_list m). intros l Hl. unfold lsum. induction l as [|e l IH]; simpl; [lia|].
  pose proof (Hl e (list_elem_of_here _ _)). assert (forall e, e ∈ l -> 0 <= f e.2 <= b) as Hl' by (intros; apply Hl; by right).
  specialize (IH Hl'). lia.
Qed.

Lemma sum_zero f m : (forall k h, m !! k = Some h -> 0 <= f h) -> sum f m = 0 -> forall k h, m !! k = Some h -> f h = 0.
Proof.
  intros Hf Hs k h Hk. rewrite (sum_delete f m k h Hk) in Hs. pose proof (Hf k h Hk).
  assert (0 <= sum f (delete k m)); [|lia]. apply (sum_bounds f _ (foldr Z.max 0 (map (fun e => f e.2) (map_to_list m)))).
  intros k' h' [_ Hk']%lookup_delete_Some. split; [by eapply Hf|].
  apply elem_of_map_to_list in Hk'. clear -Hk'. induction (map_to_list m) as [|e l IH]; simpl; [by apply elem_of_nil in Hk'|].
  apply elem_of_cons in Hk' as [<-|Hk']; simpl; [lia|]. specialize (IH Hk'). lia.
Qed.

Definition healthy (h : ServerHealth) : Z := unwrap_or (weight h) 0.
Definition is_unchecked (h : ServerHealth) : Z := match weight h with Some _ => 0 | None => 1 end.

Definition health_ok (h : ServerHealth) : Prop :=
  0 <= weight_left h <= 255 /\ 0 <= healthy h <= 255 /\ weight_left h <= healthy h.

(** ** The totals *)
Record inv (self : t) : Prop := {
  iv_health : forall ip h, servers self !! ip = Some h -> health_ok h;
  iv_size : (size (servers self) <= MAX_HOSTS)%nat;
  iv_left : uint 16 (total_weight_left self);
  iv_total : total_weight self = sum healthy (servers self);
  iv_unchecked : unchecked_servers self = sum is_unchecked (servers self);
  iv_reply : is_Some (host_list_reply self) -> 0 < unchecked_servers self
}.

Lemma total_small self : inv self -> 0 <= sum healthy (servers self) <= 65280.
Proof.
  intros [Hh Hs _ _ _ _]. pose proof (sum_bounds healthy (servers self) 255 (fun ip h Hi => proj1 (proj2 (Hh ip h Hi)))).
  unfold MAX_HOSTS in Hs. lia.
Qed.

Lemma unchecked_small m : (size m <= MAX_HOSTS)%nat -> 0 <= sum is_unchecked m <= 256.
Proof.
  intros Hs. assert (0 <= sum is_unchecked m <= 1 * Z.of_nat (size m)); [|unfold MAX_HOSTS in Hs; lia].
  apply sum_bounds. intros k h _. unfold is_unchecked. destruct (weight h); lia.
Qed.

Lemma u16_small z : 0 <= z < 65536 -> u16 z = z.
Proof. intros Hz. apply wrap_small. unfold uint. lia. Qed.

(** Answering leaves the rest alone. *)
Lemma reply_ok self : let r := (maybe_send_host_list_reply self).1 in
  servers r = servers self /\ total_weight r = total_weight self /\ total_weight_left r = total_weight_left self /\
  unchecked_servers r = unchecked_servers self /\ (is_Some (host_list_reply r) -> unchecked_servers self <> 0).
Proof.
  unfold maybe_send_host_list_reply. case_if; [|by boolsplit].
  destruct (host_list_reply self) eqn:Er; simpl; rewrite ?Er; repeat split; by intros [].
Qed.

Lemma update_weight_inv self ip w : inv self -> 0 <= w <= 255 -> inv (update_weight self ip w).1.
Proof.
  intros I Hw. unfold update_weight. destruct (servers self !! ip) as [h|] eqn:Hip; [|done].
  destruct (iv_health _ I ip h Hip) as (Hl & Hh & Hlh). pose proof (total_small _ I). destruct I as [Ih Is Il It Iu Ir].
  set (s1 := if w =? 0 then _ else _).
  assert (servers s1 = servers self /\ total_weight s1 = total_weight self /\ unchecked_servers s1 = unchecked_servers self /\
    host_list_reply s1 = host_list_reply self) as (E1 & E2 & E3 & E4) by (unfold s1; by case_if).
  assert (uint 16 (total_weight_left s1)) as El by (unfold s1; case_if; [by apply wrap_uint|done]).
  set (h' := server_health (Some w) w (report self h w)). clearbody s1.
  assert (forall i x, <[ip := h']> (servers self) !! i = Some x -> health_ok x) as Hok.
  { intros i x [[<- <-]|[_ Hi]]%lookup_insert_Some; [|by eapply Ih]. unfold health_ok, healthy. simpl. lia. }
  assert (size (<[ip := h']> (servers self)) <= MAX_HOSTS)%nat as Hsz by (by rewrite map_size_insert_Some).
  pose proof (sum_update healthy _ ip h h' Hip) as Sh. pose proof (sum_update is_unchecked _ ip h h' Hip) as Su.
  pose proof (unchecked_small _ Is) as Hus. pose proof (unchecked_small _ Hsz) as Hus'.
  pose proof (sum_delete healthy _ ip h Hip) as Sd.
  assert (0 <= sum healthy (delete ip (servers self))) as Hd.
  { apply (sum_bounds healthy _ 255). intros k x [_ Hk]%lookup_delete_Some. by apply (Ih k x). }
  assert (healthy h' = w) as Eh' by done. assert (is_unchecked h' = 0) as Eu' by done. rewrite Eh' in Sh. rewrite Eu' in Su.
  assert (0 <= sum healthy (<[ip := h']> (servers self)) <= 65280) as Hsum.
  { pose proof (sum_bounds healthy (<[ip := h']> (servers self)) 255 (fun i x Hi => proj1 (proj2 (Hok i x Hi)))).
    unfold MAX_HOSTS in Hsz. lia. }
  destruct (weight h) as [old|] eqn:Ew.
  - assert (healthy h = old) as Eh by (unfold healthy; by rewrite Ew). assert (is_unchecked h = 0) as Eu by (unfold is_unchecked; by rewrite Ew).
    split; simpl; rewrite ?E1, ?E2, ?E3, ?E4; try done.
    + rewrite (u16_small (total_weight self - old)) by lia. rewrite u16_small; lia.
    + lia.
  - assert (healthy h = 0) as Eh by (unfold healthy; by rewrite Ew). assert (is_unchecked h = 1) as Eu by (unfold is_unchecked; by rewrite Ew).
    match goal with |- context [maybe_send_host_list_reply ?s] => pose proof (reply_ok s) as R; destruct (maybe_send_host_list_reply s) as [s2 replies] end.
    simpl in R. rewrite E1, E2, E3 in R. destruct R as (R1 & R2 & R3 & R4 & R5).
    rewrite (u16_small (unchecked_servers self - 1)) in * by lia.
    split; simpl; rewrite ?R1, ?R2, ?R3, ?R4; try done.
    + rewrite u16_small; lia.
    + lia.
    + intros Hr%R5. lia.
Qed.

(** ** A new list of hosts *)

(** While hosts move: what is in the two maps, besides the new hosts. *)
Record moving (m : gmap Ipv4Addr ServerHealth) (seen : list Ipv4Addr) (r : Replacing) : Prop := {
  mv_old : forall i h, old_map r !! i = Some h <-> m !! i = Some h /\ i ∉ seen;
  mv_new : forall i, is_Some (new_map r !! i) <-> i ∈ seen;
  mv_health : forall i h, new_map r !! i = Some h -> m !! i = Some h \/ h = server_health None 0 0;
  mv_healthy : sum healthy (old_map r) + sum healthy (new_map r) = sum healthy m;
  mv_unchecked : unchecked r = sum is_unchecked (old_map r) + sum is_unchecked (new_map r);
  mv_size : size (new_map r) = length seen
}.

Lemma replace_hosts_ok m l : forall seen r, moving m seen r -> NoDup (seen ++ l) -> (length (seen ++ l) <= MAX_HOSTS)%nat ->
  (size m <= MAX_HOSTS)%nat -> moving m (seen ++ l) (fold_left replace_host l r).
Proof.
  induction l as [|ip l IH]; intros seen r Hm Hn Hl Hs; simpl; [by rewrite app_nil_r|].
  rewrite (cons_middle ip seen l), app_assoc in *. apply IH; try done. apply NoDup_app in Hn as (Hn & _ & _).
  rewrite !length_app in Hl. destruct Hm as [Ho Hnew Hh Hsum Hu Hsz]. apply NoDup_app in Hn as (_ & Hd & _).
  assert (new_map r !! ip = None) as Hnone.
  { apply eq_None_not_Some. intros Hi%Hnew. apply (Hd ip Hi). by left. }
  unfold replace_host. destruct (old_map r !! ip) as [h|] eqn:Hip.
  - split; simpl.
    + intros i x. rewrite lookup_delete_Some, Ho, elem_of_app, list_elem_of_singleton. naive_solver.
    + intros i. rewrite lookup_insert_is_Some, Hnew, elem_of_app, list_elem_of_singleton. destruct (decide (ip = i)); naive_solver.
    + intros i x [[<- <-]|[_ Hi]]%lookup_insert_Some; [left; by apply Ho|by apply Hh].
    + rewrite sum_insert by done. rewrite (sum_delete healthy _ ip h Hip) in Hsum. lia.
    + rewrite sum_insert by done. rewrite (sum_delete is_unchecked _ ip h Hip) in Hu. lia.
    + rewrite map_size_insert_None by done. rewrite length_app. simpl. lia.
  - split; simpl.
    + intros i x. rewrite Ho, elem_of_app, list_elem_of_singleton. split; [|naive_solver]. intros [Hi Hs']. split; [done|].
      intros [?| ->]; [done|]. assert (old_map r !! ip = Some x) by (by apply Ho). congruence.
    + intros i. rewrite lookup_insert_is_Some, Hnew, elem_of_app, list_elem_of_singleton. destruct (decide (ip = i)); naive_solver.
    + intros i x [[<- <-]|[_ Hi]]%lookup_insert_Some; [by right|by apply Hh].
    + rewrite sum_insert by done. unfold healthy at 2. simpl. lia.
    + rewrite sum_insert by done. unfold is_unchecked at 2. simpl.
      assert (size (old_map r) <= MAX_HOSTS)%nat as Hso.
      { transitivity (size m); [|done]. apply map_subseteq_size, map_subseteq_spec. intros i x Hi. by apply Ho. }
      assert (size (new_map r) <= MAX_HOSTS)%nat as Hsn by (rewrite Hsz; lia).
      pose proof (unchecked_small _ Hso). pose proof (unchecked_small _ Hsn). rewrite u16_small; lia.
    + rewrite map_size_insert_None by done. rewrite length_app. simpl. lia.
Qed.

Lemma remove_host_ok self h : 0 <= healthy h -> 0 <= total_weight self - healthy h -> total_weight self < 65536 ->
  0 <= unchecked_servers self - is_unchecked h -> unchecked_servers self < 65536 ->
  let self' := remove_host self h in
  total_weight self' = total_weight self - healthy h /\ unchecked_servers self' = unchecked_servers self - is_unchecked h /\
  host_list_reply self' = host_list_reply self /\ (uint 16 (total_weight_left self) -> uint 16 (total_weight_left self')).
Proof.
  unfold remove_host, healthy, is_unchecked. intros Hh Ht Ht' Hu Hu'.
  destruct (weight h); cbn in *; rewrite (u16_small (_ - _)) by lia; (split; [lia|split; [lia|split; [done|]]]); [|done].
  intros _. by apply wrap_uint.
Qed.

(** Removing hosts subtracts their weights. *)
Lemma remove_hosts_ok l : forall self, 0 <= total_weight self - lsum healthy l -> total_weight self < 65536 ->
  0 <= unchecked_servers self - lsum is_unchecked l -> unchecked_servers self < 65536 ->
  (forall e, e ∈ l -> 0 <= healthy e.2) ->
  let self' := fold_left (fun self e => remove_host self e.2) l self in
  total_weight self' = total_weight self - lsum healthy l /\
  unchecked_servers self' = unchecked_servers self - lsum is_unchecked l /\
  host_list_reply self' = host_list_reply self /\ (uint 16 (total_weight_left self) -> uint 16 (total_weight_left self')).
Proof.
  induction l as [|[ip h] l IH]; intros self Ht Ht' Hu Hu' Hl; [cbn; split; [lia|split; [lia|by split]]|]. cbn [fold_left snd].
  assert (0 <= healthy h) as Hh by apply (Hl (ip, h)), list_elem_of_here.
  assert (forall e, e ∈ l -> 0 <= healthy e.2) as Hl' by (intros; apply Hl; by right).
  assert (0 <= lsum healthy l) as Hn.
  { clear -Hl'. unfold lsum. induction l as [|e l IH]; simpl; [lia|]. pose proof (Hl' e (list_elem_of_here _ _)).
    assert (0 <= foldr (fun e n => healthy e.2 + n) 0 l) by (apply IH; intros; apply Hl'; by right). lia. }
  assert (0 <= lsum is_unchecked l) as Hnu.
  { clear. unfold lsum. induction l as [|e l IH]; simpl; [lia|]. assert (0 <= is_unchecked e.2) by (unfold is_unchecked; by destruct (weight e.2)). lia. }
  assert (lsum healthy ((ip, h) :: l) = healthy h + lsum healthy l) as E1 by done.
  assert (lsum is_unchecked ((ip, h) :: l) = is_unchecked h + lsum is_unchecked l) as E2 by done. rewrite E1 in *. rewrite E2 in *.
  set (s1 := remove_host self h). assert (total_weight s1 = total_weight self - healthy h /\
    unchecked_servers s1 = unchecked_servers self - is_unchecked h /\ host_list_reply s1 = host_list_reply self /\
    (uint 16 (total_weight_left self) -> uint 16 (total_weight_left s1))) as (F1 & F2 & F3 & F4).
  { apply remove_host_ok; lia. }
  assert (0 <= is_unchecked h) by (unfold is_unchecked; by destruct (weight h)). clearbody s1.
  destruct (IH s1) as (G1 & G2 & G3 & G4); [lia..|done|]. split; [lia|]. split; [lia|]. split; [congruence|auto].
Qed.

Section Order.
Context `{MapOrder}.

Lemma replace_map_inv self o l : inv self -> NoDup l -> (length l <= MAX_HOSTS)%nat ->
  inv (replace_map (self <| host_list_reply := o |>) l).1.1.
Proof.
  intros I Hn Hl. pose proof (total_small _ I). pose proof (unchecked_small _ (iv_size _ I)). destruct I as [Ih Is Il It Iu Ir].
  unfold replace_map. cbn. set (r0 := replacing _ _ _ _).
  assert (moving (servers self) [] r0) as M0.
  { split; cbn.
    - intros i h. pose proof (not_elem_of_nil i). tauto.
    - intros i. rewrite lookup_empty. split; [by intros []|by intros Hi%elem_of_nil].
    - intros i h Hi. by apply lookup_empty_Some in Hi.
    - rewrite sum_empty. lia.
    - rewrite sum_empty. lia.
    - apply map_size_empty. }
  destruct (replace_hosts_ok _ l [] r0 M0 Hn Hl Is) as [Ho Hnew Hh Hsum Hu Hsz]. cbn [app] in *.
  set (r := fold_left replace_host l r0) in *.
  assert (sum healthy (old_map r) = lsum healthy (map_entries (old_map r))) as Eo by apply lsum_perm, symmetry, map_entries_perm.
  assert (sum is_unchecked (old_map r) = lsum is_unchecked (map_entries (old_map r))) as Eu by apply lsum_perm, symmetry, map_entries_perm.
  assert (forall i h, new_map r !! i = Some h -> health_ok h) as Hok.
  { intros i h [Hi| ->]%Hh; [by eapply Ih|]. unfold health_ok, healthy. cbn. lia. }
  assert (forall i h, old_map r !! i = Some h -> health_ok h) as Hoko by (intros i h [Hi _]%Ho; by eapply Ih).
  assert (0 <= sum healthy (new_map r)) as Hpos by (apply (sum_bounds healthy _ 255); intros i h Hi; apply (Hok i h Hi)).
  assert (0 <= sum healthy (old_map r)) as Hpos' by (apply (sum_bounds healthy _ 255); intros i h Hi; apply (Hoko i h Hi)).
  assert (size (new_map r) <= MAX_HOSTS)%nat as Hsn by lia. pose proof (unchecked_small _ Hsn).
  assert (size (old_map r) <= MAX_HOSTS)%nat as Hso.
  { transitivity (size (servers self)); [|done]. apply map_subseteq_size, map_subseteq_spec. intros i x Hi. by apply Ho. }
  pose proof (unchecked_small _ Hso).
  set (s1 := self <| host_list_reply := o |> <| unchecked_servers := unchecked r |>).
  destruct (remove_hosts_ok (map_entries (old_map r)) s1) as (G1 & G2 & G3 & G4); cbn; [lia..| |].
  { intros [i h] He%map_entries_elem. apply (Hoko i h He). }
  set (s2 := fold_left _ _ s1) in *. cbn in G1, G2, G3, G4. clearbody s2.
  pose proof (reply_ok s2) as R. destruct (maybe_send_host_list_reply s2) as [s3 replies]. cbn in R. destruct R as (_ & R2 & R3 & R4 & R5).
  split; cbn; rewrite ?R2, ?R3, ?R4; [done|done|by apply G4|lia|lia|]. intros Hr%R5. lia.
Qed.

(** ** Choosing *)

Definition in_range (gen_range : Z -> Z) : Prop := forall m, 0 < m -> 0 <= gen_range m < m.

Lemma draw_some l : forall n, 0 <= n < lsum weight_left l -> (forall e, e ∈ l -> 0 <= weight_left e.2) -> lsum weight_left l < 65536 ->
  exists ip h, draw l n = Some (ip, h) /\ (ip, h) ∈ l /\ 0 < weight_left h.
Proof.
  induction l as [|[ip h] l IH]; intros n Hn Hl Hs; cbn in Hn |- *; [lia|].
  assert (lsum weight_left ((ip, h) :: l) = weight_left h + lsum weight_left l) as E by done. rewrite E in Hs.
  pose proof (Hl (ip, h) (list_elem_of_here _ _)) as Hh. cbn in Hh. fold (lsum weight_left l) in Hn. case_if; boolsplit.
  - exists ip, h. split; [done|]. split; [by left|lia].
  - rewrite u16_small by lia. destruct (IH (n - weight_left h)) as (ip' & h' & E' & Hin & Hp); [lia|intros; apply Hl; by right|lia|].
    exists ip', h'. split; [done|]. split; [by right|done].
Qed.

Lemma draw_none l : forall n, lsum weight_left l <= n < 65536 -> (forall e, e ∈ l -> 0 <= weight_left e.2) -> draw l n = None.
Proof.
  induction l as [|[ip h] l IH]; intros n Hn Hl; cbn in Hn |- *; [done|]. fold (lsum weight_left l) in Hn.
  pose proof (Hl (ip, h) (list_elem_of_here _ _)) as Hh. cbn in Hh.
  assert (0 <= lsum weight_left l) as Hp.
  { clear -Hl. assert (forall e, e ∈ l -> 0 <= weight_left e.2) as Hl' by (intros; apply Hl; by right). clear Hl. unfold lsum.
    induction l as [|e l IH]; simpl; [lia|]. pose proof (Hl' e (list_elem_of_here _ _)).
    assert (0 <= foldr (fun e n => weight_left e.2 + n) 0 l) by (apply IH; intros; apply Hl'; by right). lia. }
  case_if; boolsplit; [lia|]. rewrite u16_small by lia. apply IH; [lia|intros; apply Hl; by right].
Qed.

(** An urn with as many balls as it says. *)
Definition urn (self : t) : Prop := total_weight_left self = sum weight_left (servers self).

Lemma left_small self : inv self -> 0 <= sum weight_left (servers self) <= 65280.
Proof.
  intros [Ih Is _ _ _ _]. pose proof (sum_bounds weight_left (servers self) 255 (fun ip h Hi => proj1 (Ih ip h Hi))).
  unfold MAX_HOSTS in Is. lia.
Qed.

(** The urn is filled when it is empty. *)
Definition refilled (self : t) : t :=
  if total_weight_left self =? 0 then
    self <| total_weight_left := total_weight self |>
         <| servers ::= fmap (fun h => h <| weight_left := unwrap_or (weight h) 0 |>) |>
  else self.

Lemma refilled_inv self : inv self -> inv (refilled self).
Proof.
  intros I. pose proof (total_small _ I). unfold refilled. case_if; [|done]. destruct I as [Ih Is Il It Iu Ir]. split; cbn.
  - intros ip h (x & <- & Hx)%lookup_fmap_Some. destruct (Ih ip x Hx). unfold health_ok, healthy in *. cbn. lia.
  - by rewrite map_size_fmap.
  - unfold uint. lia.
  - by rewrite sum_fmap.
  - by rewrite sum_fmap.
  - done.
Qed.

Lemma refilled_urn self : inv self -> total_weight_left self = 0 \/ urn self -> urn (refilled self).
Proof.
  intros I Hu. unfold refilled. case_if; boolsplit.
  - unfold urn. cbn. rewrite sum_fmap. apply (iv_total _ I).
  - by destruct Hu.
Qed.

Lemma choose_eq self gen_range : servers self <> ∅ -> 0 < total_weight self -> choose self gen_range =
  match draw (map_entries (servers (refilled self))) (gen_range (total_weight_left (refilled self))) with
  | Some (ip, h) =>
      (refilled self <| servers ::= <[ip := h <| weight_left ::= fun l => u8 (l - 1) |>]> |>
                     <| total_weight_left ::= fun l => u16 (l - 1) |>, Ok ip)
  | None => (refilled self, Err "no healthy hosts"%string)
  end.
Proof.
  intros Hs Ht. unfold choose. rewrite bool_decide_false by done. by rewrite (proj2 (Z.ltb_lt _ _) Ht).
Qed.

Lemma entries_sum f m : lsum f (map_entries m) = sum f m.
Proof. apply lsum_perm, map_entries_perm. Qed.

Lemma draw_in l : forall n ip h, 0 <= n < 65536 -> (forall e, e ∈ l -> 0 <= weight_left e.2) -> draw l n = Some (ip, h) ->
  (ip, h) ∈ l /\ 0 < weight_left h.
Proof.
  induction l as [|[ip' h'] l IH]; intros n ip h Hn Hl; cbn; [done|].
  pose proof (Hl (ip', h') (list_elem_of_here _ _)) as Hh. cbn in Hh. case_if; boolsplit.
  - intros [= <- <-]. split; [by left|lia].
  - rewrite u16_small by lia. intros [? ?]%IH; [split; [by right|done]|lia|intros; apply Hl; by right].
Qed.

(** What a choice takes. *)
Lemma choose_some self gen_range : inv self -> in_range gen_range -> servers self <> ∅ -> 0 < total_weight self ->
  (exists ip h, servers (refilled self) !! ip = Some h /\ 0 < weight_left h /\ 0 < total_weight_left (refilled self) /\
     choose self gen_range =
       (refilled self <| servers ::= <[ip := h <| weight_left := weight_left h - 1 |>]> |>
                      <| total_weight_left := total_weight_left (refilled self) - 1 |>, Ok ip)) \/
  (choose self gen_range = (refilled self, Err "no healthy hosts"%string) /\ (total_weight_left self = 0 \/ urn self -> False)).
Proof.
  intros I Hg Hs Ht. pose proof (refilled_inv _ I) as J. rewrite choose_eq by done.
  assert (0 < total_weight_left (refilled self)) as Hpos.
  { unfold refilled. case_if; boolsplit; [done|]. destruct (iv_left _ I). lia. }
  pose proof (iv_left _ J) as Hu. unfold uint in Hu. pose proof (Hg _ Hpos) as Hn. pose proof (left_small _ J).
  assert (forall e, e ∈ map_entries (servers (refilled self)) -> 0 <= weight_left e.2) as Hl.
  { intros [ip h] He%map_entries_elem. apply (iv_health _ J ip h He). }
  destruct (draw _ _) as [[ip h]|] eqn:E.
  - left. apply draw_in in E as [Hin Hp]; [|lia|done]. apply map_entries_elem in Hin. exists ip, h. split; [done|]. split; [done|]. split; [done|].
    destruct (iv_health _ J ip h Hin) as (Hh & _ & _).
    assert (u8 (weight_left h - 1) = weight_left h - 1) as E8 by (apply wrap_small; unfold uint; lia).
    assert (u16 (total_weight_left (refilled self) - 1) = total_weight_left (refilled self) - 1) as E16 by (apply u16_small; lia).
    unfold set_field. cbn. rewrite E8, E16. done.
  - right. split; [done|]. intros Hurn%(refilled_urn _ I). destruct (draw_some (map_entries (servers (refilled self)))
      (gen_range (total_weight_left (refilled self)))) as (ip & h & E' & _); [|done| |congruence]; rewrite entries_sum; unfold urn in Hurn; lia.
Qed.

Lemma choose_inv self gen_range : inv self -> in_range gen_range -> inv (choose self gen_range).1.
Proof.
  intros I Hg. destruct (decide (servers self = ∅)) as [Hs|Hs].
  { unfold choose. by rewrite bool_decide_true. }
  destruct (decide (0 < total_weight self)) as [Ht|Ht].
  2: { unfold choose. rewrite bool_decide_false by done. rewrite (proj2 (Z.ltb_ge _ _)) by lia. done. }
  pose proof (refilled_inv _ I) as J.
  destruct (choose_some self gen_range I Hg Hs Ht) as [(ip & h & Hip & Hp & Hpos & ->)|[-> _]]; [|done]. cbn [fst].
  revert J Hip Hpos. generalize (refilled self). intros s [Ih Is Il It Iu Ir] Hip Hpos. destruct (Ih ip h Hip) as (Hl & Hh & Hlh).
  set (h' := h <| weight_left := weight_left h - 1 |>).
  assert (healthy h' = healthy h /\ is_unchecked h' = is_unchecked h) as [Eh Eu] by done.
  split; cbn.
  - intros i x [[<- <-]|[_ Hi]]%lookup_insert_Some; [|by eapply Ih]. unfold health_ok. rewrite Eh. cbn. lia.
  - by rewrite map_size_insert_Some.
  - unfold uint in *. lia.
  - rewrite (sum_update healthy _ ip h) by done. lia.
  - rewrite (sum_update is_unchecked _ ip h) by done. lia.
  - done.
Qed.

(** ** Rounds of choices *)

Fixpoint chooses (self : t) (gens : list (Z -> Z)) : t * list (Res string Z) :=
  match gens with
  | [] => (self, [])
  | g :: gens => let r := choose self g in let rs := chooses r.1 gens in (rs.1, r.2 :: rs.2)
  end.

Definition left_of (self : t) (ip : Z) : Z := match servers self !! ip with Some h => weight_left h | None => 0 end.
Definition picked (ip : Z) (r : Res string Z) : bool := match r with Ok i => i =? ip | _ => false end.
Definition picks (ip : Z) (l : list (Res string Z)) : Z := Z.of_nat (length (List.filter (picked ip) l)).
Definition weights (self : t) : gmap Z (option Z) := weight <$> servers self.

Lemma urn_total self : inv self -> urn self -> 0 < total_weight_left self -> servers self <> ∅ /\ 0 < total_weight self.
Proof.
  intros I Hu Hp. unfold urn in Hu. split.
  - intros E. rewrite E, sum_empty in Hu. lia.
  - rewrite (iv_total _ I). assert (0 <= sum (fun h => healthy h - weight_left h) (servers self)) as Hd.
    { apply (sum_bounds _ _ 255). intros ip h Hi. pose proof (iv_health _ I ip h Hi) as Hh. unfold health_ok in Hh. lia. }
    assert (sum (fun h => healthy h - weight_left h) (servers self) = sum healthy (servers self) - sum weight_left (servers self)); [|lia].
    unfold sum, lsum. generalize (map_to_list (servers self)). intros l. induction l as [|e l IH]; cbn; lia.
Qed.

Lemma refilled_same self : total_weight_left self <> 0 -> refilled self = self.
Proof. intros Hn. unfold refilled. by rewrite (proj2 (Z.eqb_neq _ _)). Qed.

Lemma choose_urn self g : inv self -> in_range g -> urn self -> 0 < total_weight_left self ->
  let s := (choose self g).1 in
  inv s /\ urn s /\ total_weight_left s = total_weight_left self - 1 /\ weights s = weights self /\ total_weight s = total_weight self /\
  exists ip, (choose self g).2 = Ok ip /\ forall i, left_of s i + (if i =? ip then 1 else 0) = left_of self i.
Proof.
  intros I Hg Hu Hp. pose proof (choose_inv self g I Hg) as I'. destruct (urn_total self I Hu Hp) as [Hs Ht].
  destruct (choose_some self g I Hg Hs Ht) as [(ip & h & Hip & Hh & _ & E)|[_ []]]; [|by right].
  rewrite refilled_same in Hip, E by lia. rewrite E in *. cbn [fst snd] in *. split; [done|]. split; [|split; [done|split; [|split; [done|]]]].
  - unfold urn in *. cbn. rewrite (sum_update weight_left _ ip h) by done. cbn. lia.
  - unfold weights. cbn. rewrite fmap_insert. cbn. apply insert_id. by rewrite lookup_fmap, Hip.
  - exists ip. split; [done|]. intros i. unfold left_of. cbn. destruct (i =? ip) eqn:Ei; boolsplit.
    + subst i. rewrite lookup_insert_eq, Hip. cbn. lia.
    + rewrite lookup_insert_ne by done. lia.
Qed.

Lemma chooses_urn gens : forall self, inv self -> Forall in_range gens -> urn self -> Z.of_nat (length gens) <= total_weight_left self ->
  let r := chooses self gens in
  inv r.1 /\ urn r.1 /\ total_weight_left r.1 = total_weight_left self - Z.of_nat (length gens) /\ weights r.1 = weights self /\
  Forall (fun x => exists ip, x = Ok ip) r.2 /\ forall i, left_of r.1 i + picks i r.2 = left_of self i.
Proof.
  induction gens as [|g gens IH]; intros self I Hg Hu Hl; cbn [chooses].
  - cbn. split; [done|]. split; [done|]. split; [lia|]. split; [done|]. split; [constructor|]. intros i. unfold picks. cbn. lia.
  - apply Forall_cons in Hg as [Hg Hgs]. cbn [length] in Hl.
    destruct (choose_urn self g I Hg Hu) as (I1 & U1 & L1 & W1 & _ & ip & E1 & P1); [lia|].
    destruct (IH (choose self g).1 I1 Hgs U1) as (I2 & U2 & L2 & W2 & F2 & P2); [lia|]. cbn [fst snd length].
    split; [done|]. split; [done|]. split; [lia|]. split; [congruence|]. split; [constructor; [by exists ip|done]|].
    intros i. specialize (P1 i). specialize (P2 i). rewrite E1. unfold picks in *. cbn [List.filter picked].
    rewrite Z.eqb_sym. destruct (i =? ip); cbn [length]; lia.
Qed.

End Order.

Section Reach.
Context `{MapOrder}.

Definition message_ok (m : LoadBalancerMessage) : Prop :=
  match m with
  | HostWeight _ w => 0 <= w <= 255
  | HostList _ ips => NoDup ips /\ (length ips <= MAX_HOSTS)%nat
  | Choose _ => True
  end.

(** The task after some messages. *)
Inductive reach : t -> Prop :=
| reach_default : reach default
| reach_message self m g : reach self -> message_ok m -> in_range g -> reach (recv self m g).1.1.

Lemma lb_reach_inv self : reach self -> inv self.
Proof.
  induction 1 as [|self m g _ I Hm Hg].
  - split; cbn; [intros ip h Hi; by apply lookup_empty_Some in Hi|rewrite map_size_empty; unfold MAX_HOSTS; lia| | | |by intros []];
      rewrite ?sum_empty; unfold uint; lia.
  - destruct m as [reply|reply ips|ip w]; cbn [recv].
    + pose proof (choose_inv self g I Hg). by destruct (choose self g).
    + destruct Hm as [Hn Hl]. pose proof (replace_map_inv self (Some reply) ips I Hn Hl). by destruct (replace_map _ ips) as [[? ?] ?].
    + pose proof (update_weight_inv self ip w I Hm). by destruct (update_weight self ip w).
Qed.

End Reach.
End LoadBalancerFacts.

Module LoadBalancerProperties.
Import LoadBalancer LoadBalancerFacts.

Section Properties.
Context `{MapOrder}.

(** The load balancer knows its hosts: after any messages its totals are the sum of the
    weights and the number of hosts that have not been checked yet, so that calls are refused
    only when no host is healthy, and a new list of hosts is left unanswered only while some
    host is unchecked. *)
Theorem load_balancer_totals self : reach self ->
  total_weight self = sum healthy (servers self) /\
  unchecked_servers self = sum is_unchecked (servers self) /\
  (total_weight self = 0 <-> forall ip h, servers self !! ip = Some h -> healthy h = 0) /\
  (is_Some (host_list_reply self) -> exists ip h, servers self !! ip = Some h /\ weight h = None).
Proof.
  intros I%lb_reach_inv. split; [apply (iv_total _ I)|]. split; [apply (iv_unchecked _ I)|]. split.
  - rewrite (iv_total _ I). split.
    + intros Hz. apply sum_zero; [|done]. intros ip h Hi. apply (iv_health _ I ip h Hi).
    + intros Hz. assert (0 <= sum healthy (servers self) <= 0 * Z.of_nat (size (servers self))); [|lia].
      apply sum_bounds. intros ip h Hi. rewrite (Hz ip h Hi). lia.
  - intros Hr%(iv_reply _ I). rewrite (iv_unchecked _ I) in Hr.
    destruct (decide (map_Forall (fun _ h => is_Some (weight h)) (servers self))) as [Hall|Hn].
    + assert (0 <= sum is_unchecked (servers self) <= 0 * Z.of_nat (size (servers self))); [|lia].
      apply sum_bounds. intros ip h Hi. destruct (Hall ip h Hi) as [w Hw]. unfold is_unchecked. rewrite Hw. lia.
    + apply map_not_Forall in Hn as (ip & h & Hi & Hw); [|intros; apply _]. exists ip, h. split; [done|].
      destruct (weight h); [by destruct Hw|done].
Qed.

(** Calls are spread by weight: once the urn is empty, the next choices, as many as the total
    weight, all succeed, whatever the random numbers, and each host is chosen exactly as often
    as its weight says; then the urn is empty again. *)
Theorem choices_follow_weights self gens : reach self -> total_weight_left self = 0 ->
  Forall in_range gens -> Z.of_nat (length gens) = total_weight self ->
  let r := chooses self gens in
  total_weight_left r.1 = 0 /\ weights r.1 = weights self /\ Forall (fun x => exists ip, x = Ok ip) r.2 /\
  forall ip, picks ip r.2 = match servers self !! ip with Some h => healthy h | None => 0 end.
Proof.
  intros I%lb_reach_inv He Hg Hl. destruct gens as [|g gens].
  { cbn in *. split; [done|]. split; [done|]. split; [constructor|]. intros ip. unfold picks. cbn.
    destruct (servers self !! ip) as [h|] eqn:Hi; [|done]. rewrite (iv_total _ I) in Hl. symmetry.
    apply (sum_zero healthy (servers self)) with (k := ip); [|done|done]. intros k x Hk. apply (iv_health _ I k x Hk). }
  pose proof (refilled_inv self I) as J. pose proof (refilled_urn self I (or_introl He)) as U.
  assert (total_weight_left (refilled self) = total_weight self /\ total_weight (refilled self) = total_weight self /\
    weights (refilled self) = weights self /\ forall ip, left_of (refilled self) ip = match servers self !! ip with Some h => healthy h | None => 0 end)
    as (E1 & E2 & E3 & E4).
  { unfold refilled. rewrite (proj2 (Z.eqb_eq _ _) He). cbn. split; [done|]. split; [done|]. split.
    - unfold weights. cbn. rewrite <- map_fmap_compose. by apply map_fmap_ext.
    - intros ip. unfold left_of. cbn. rewrite lookup_fmap. by destruct (servers self !! ip). }
  assert (chooses self (g :: gens) = chooses (refilled self) (g :: gens)) as ->.
  { cbn [chooses length] in *. assert (choose self g = choose (refilled self) g) as ->; [|done].
    destruct (urn_total _ J U) as [Hs Ht]; [lia|]. rewrite (choose_eq (refilled self)) by done.
    rewrite (refilled_same (refilled self)) by lia. apply choose_eq; [|lia]. intros Hs0. apply Hs.
    unfold refilled. case_if; [|done]. cbn. rewrite Hs0. apply fmap_empty. }
  destruct (chooses_urn (g :: gens) (refilled self) J Hg U) as (I2 & U2 & L2 & W2 & F2 & P2); [lia|].
  split; [lia|]. split; [congruence|]. split; [done|]. intros ip. rewrite <- E4, <- P2.
  assert (left_of (chooses (refilled self) (g :: gens)).1 ip = 0); [|lia].
  unfold left_of. destruct (servers _ !! ip) as [h|] eqn:Hi; [|done].
  eapply (sum_zero weight_left); [|unfold urn in U2; rewrite <- U2; lia|exact Hi]. intros k x Hk. apply (iv_health _ I2 k x Hk).
Qed.

(** C40: A host that falls ill empties the urn below zero: if its share was not drawn yet when the
    urn was reset, the count of the balls left wraps around, and every choice whose random
    number is beyond the balls that are really left fails, although other hosts are healthy. *)
Theorem ill_host_starves_others self ip h g : reach self -> total_weight_left self = 0 ->
  servers self !! ip = Some h -> 0 < weight_left h -> in_range g ->
  let self' := (update_weight self ip 0).1 in
  total_weight_left self' = 65536 - weight_left h /\
  (sum weight_left (servers self') <= g (total_weight_left self') -> choose self' g = (self', Err "no healthy hosts"%string)).
Proof.
  intros I%lb_reach_inv He Hip Hp Hg. pose proof (update_weight_inv self ip 0 I ltac:(lia)) as J. cbv zeta.
  destruct (iv_health _ I ip h Hip) as (Hh & _).
  assert (total_weight_left (update_weight self ip 0).1 = 65536 - weight_left h) as El.
  { unfold update_weight. rewrite Hip. cbn [Z.eqb].
    assert (forall s, total_weight_left (maybe_send_host_list_reply s).1 = total_weight_left s) as Er by (intros s; apply reply_ok).
    assert (u16 (total_weight_left self - weight_left h) = 65536 - weight_left h) as Eu.
    { rewrite He. unfold u16, wrap. symmetry. apply (Z.mod_unique _ _ (-1)); lia. }
    destruct (weight h).
    - cbn. exact Eu.
    - match goal with |- context [maybe_send_host_list_reply ?s] => specialize (Er s); destruct (maybe_send_host_list_reply s) as [s2 replies] end.
      cbn in *. by rewrite Er. }
  split; [done|]. intros Hs. set (self' := (update_weight self ip 0).1) in *. unfold choose.
  destruct (bool_decide_reflect (servers self' = ∅)) as [Hn|Hn].
  { exfalso. assert (is_Some (servers self' !! ip)) as [x Hx]; [|rewrite Hn in Hx; by apply lookup_empty_Some in Hx].
    unfold self', update_weight. rewrite Hip. cbn [Z.eqb].
    assert (forall s, servers (maybe_send_host_list_reply s).1 = servers s) as Er by (intros s; apply reply_ok).
    destruct (weight h).
    - cbn. rewrite lookup_insert_eq. by eexists.
    - match goal with |- context [maybe_send_host_list_reply ?s] => specialize (Er s); destruct (maybe_send_host_list_reply s) as [s2 replies] end.
      cbn in *. rewrite Er, lookup_insert_eq. by eexists. }
  destruct (0 <? total_weight self'); [|done]. fold (refilled self'). rewrite refilled_same by lia.
  pose proof (Hg (total_weight_left self') ltac:(lia)).
  rewrite draw_none; [done|rewrite entries_sum; lia|]. intros [i x] Hi%map_entries_elem. apply (iv_health _ J i x Hi).
Qed.

End Properties.
#[local] Instance list_map_order : MapOrder := {|
  map_entries K V _ _ m := map_to_list m; map_entries_perm K V _ _ m := Permutation_refl _
|}.

Definition first (m : Z) : Z := 0.
Definition last (m : Z) : Z := m - 1.
Definition middle (m : Z) : Z := m / 2.

Lemma gens_in_range : in_range first /\ in_range last /\ in_range middle.
Proof.
  unfold in_range, first, last, middle. repeat split; try lia.
  - apply Z.div_pos; lia.
  - apply Z.div_lt; lia.
Qed.

(** Two hosts, with weights 2 and 1. *)
Definition after (w1 w2 : Z) : t :=
  let s := (recv default (HostList 5 [10; 20]) first).1.1 in
  let s := (recv s (HostWeight 10 w1) first).1.1 in (recv s (HostWeight 20 w2) first).1.1.

Lemma lb_after_reach w1 w2 : 0 <= w1 <= 255 -> 0 <= w2 <= 255 -> reach (after w1 w2).
Proof.
  intros H1 H2. apply reach_message; [|exact H2|apply gens_in_range]. apply reach_message; [|exact H1|apply gens_in_range].
  apply reach_message; [apply reach_default| |apply gens_in_range]. split; [|cbn; unfold MAX_HOSTS; lia].
  apply (bool_decide_unpack (NoDup [10; 20])). vm_compute. exact I.
Qed.

Lemma load_balancer_totals_witness : total_weight (after 2 1) = 3 /\
  total_weight (after 2 1) = sum healthy (servers (after 2 1)).
Proof.
  split; [vm_compute; reflexivity|]. apply (load_balancer_totals (after 2 1)), lb_after_reach; lia.
Defined.

Lemma choices_follow_weights_witness :
  (chooses (after 2 1) [first; last; middle]).2 = [Ok 10; Ok 20; Ok 10] /\
  picks 10 (chooses (after 2 1) [first; last; middle]).2 = 2.
Proof.
  split; [vm_compute; reflexivity|].
  assert (Forall in_range [first; last; middle]) as Hg by (repeat (apply Forall_cons; split; [apply gens_in_range|]); constructor).
  pose proof (proj2 (proj2 (proj2 (choices_follow_weights (after 2 1) [first; last; middle] (lb_after_reach 2 1 ltac:(lia) ltac:(lia))
    eq_refl Hg eq_refl))) 10) as Hp.
  rewrite Hp. vm_compute. reflexivity.
Defined.

Lemma ill_host_starves_others_witness : exists h, servers (after 50 50) !! 10 = Some h /\
  let self' := (update_weight (after 50 50) 10 0).1 in
  total_weight self' = 50 /\ (choose self' middle).2 = Err "no healthy hosts"%string.
Proof.
  exists (server_health (Some 50) 50 50). split; [vm_compute; reflexivity|]. split; [vm_compute; reflexivity|].
  pose proof (proj2 (ill_host_starves_others (after 50 50) 10 (server_health (Some 50) 50 50) middle (lb_after_reach 50 50 ltac:(lia) ltac:(lia))
    eq_refl eq_refl eq_refl (proj2 (proj2 gens_in_range)))) as Hc.
  rewrite Hc; [reflexivity|]. vm_compute. discriminate.
Defined.

End LoadBalancerProperties.
