(* ===== verification/Text.v ===== *)
(** * Text: what the source uses of Rust's [str], [String] and [u64]

    A [str] is a [string] of its UTF-8 bytes.  The source only searches for
    ASCII characters, which no multi-byte character contains, so working on
    bytes gives the parts and positions that Rust gives. *)
From Stdlib Require Import Ascii.
From stdpp Require Import strings pretty.
From S2P Require Import Prelude.


(** [s.as_bytes()] *)
Fixpoint as_bytes (s : string) : bytes :=
  match s with
  | EmptyString => []
  | String c s => Z.of_N (N_of_ascii c) :: as_bytes s
  end.

(** A string of bytes, the inverse for bytes below 256. *)
Fixpoint of_bytes (l : bytes) : string :=
  match l with
  | [] => EmptyString
  | b :: l => String (ascii_of_N (Z.to_N b)) (of_bytes l)
  end.

(** [s.contains(c)] *)
Fixpoint contains (c : ascii) (s : string) : bool :=
  match s with
  | EmptyString => false
  | String d s => Ascii.eqb d c || contains c s
  end.

(** [s.starts_with(p)] *)
Fixpoint starts_with (p s : string) : bool :=
  match p, s with
  | EmptyString, _ => true
  | String a p, String b s => Ascii.eqb a b && starts_with p s
  | String _ _, EmptyString => false
  end.

(** [s.contains(p)] for a string [p] *)
Fixpoint contains_str (p s : string) : bool :=
  starts_with p s ||
  match s with
  | EmptyString => false
  | String _ s => contains_str p s
  end.

Definition is_empty (s : string) : bool :=
  match s with EmptyString => true | _ => false end.

(** [s.split(c).collect()] *)
Fixpoint split (c : ascii) (s : string) : list string :=
  match s with
  | EmptyString => [EmptyString]
  | String d s =>
      if Ascii.eqb d c then EmptyString :: split c s
      else match split c s with
           | [] => []
           | p :: ps => String d p :: ps
           end
  end.

(** The parts with the separator between them. *)
Fixpoint join (c : ascii) (l : list string) : string :=
  match l with
  | [] => EmptyString
  | [p] => p
  | p :: ps => p +:+ String c (join c ps)
  end.

(** [s.split_once(c)] *)
Fixpoint split_once (c : ascii) (s : string) : option (string * string) :=
  match s with
  | EmptyString => None
  | String d s =>
      if Ascii.eqb d c then Some (EmptyString, s)
      else match split_once c s with
           | Some (a, b) => Some (String d a, b)
           | None => None
           end
  end.

(** [s.trim_start_matches(c)] *)
Fixpoint trim_start_matches (c : ascii) (s : string) : string :=
  match s with
  | String d s' => if Ascii.eqb d c then trim_start_matches c s' else s
  | EmptyString => s
  end.

Definition to_ascii_lowercase (c : ascii) : ascii :=
  let n := N_of_ascii c in
  if ((65 <=? n) && (n <=? 90))%N then ascii_of_N (n + 32) else c.

Fixpoint eq_ignore_ascii_case (s t : string) : bool :=
  match s, t with
  | EmptyString, EmptyString => true
  | String a s, String b t =>
      Ascii.eqb (to_ascii_lowercase a) (to_ascii_lowercase b) && eq_ignore_ascii_case s t
  | _, _ => false
  end.

(** [s.is_char_boundary(i)]: an end of the string, or not a continuation byte. *)
Definition is_char_boundary (s : string) (i : nat) : bool :=
  (i =? 0)%nat ||
  match String.get i s with
  | None => (i =? String.length s)%nat
  | Some c => let n := N_of_ascii c in ((n <? 128) || (192 <=? n))%N
  end.

(** [&s[a..b]] *)
Definition str_slice {E} (a b : nat) (s : string) : Res E string :=
  if (a <=? b)%nat && is_char_boundary s a && is_char_boundary s b
  then Ok (String.substring a (b - a) s) else Panic.

(** *** [s.parse::<u64>()] *)
Definition digit (c : ascii) : option Z :=
  let n := Z.of_N (N_of_ascii c) in
  if (48 <=? n) && (n <=? 57) then Some (n - 48) else None.

Fixpoint parse_digits (acc : Z) (s : string) : option Z :=
  match s with
  | EmptyString => Some acc
  | String c s =>
      match digit c with
      | Some d =>
          let acc := 10 * acc + d in
          if acc <? 2 ^ 64 then parse_digits acc s else None
      | None => None
      end
  end.

Definition parse_u64 (s : string) : option Z :=
  match s with
  | EmptyString => None
  | String c s' => if Ascii.eqb c "+" then match s' with EmptyString => None | _ => parse_digits 0 s' end
                   else parse_digits 0 s
  end.

(** *** UTF-8 *)
Definition continuation (b : Z) : bool := (128 <=? b) && (b <=? 191).

(** [std::str::from_utf8(l).is_ok()]: no surrogates, no overlong forms and
    nothing above U+10FFFF. *)
Fixpoint valid_utf8 (l : bytes) : bool :=
  match l with
  | [] => true
  | b0 :: l =>
      if b0 <? 128 then valid_utf8 l
      else match l with
      | b1 :: l =>
          if (194 <=? b0) && (b0 <=? 223) then continuation b1 && valid_utf8 l
          else match l with
          | b2 :: l =>
              if (224 <=? b0) && (b0 <=? 239) then
                continuation b1 && continuation b2 &&
                (if b0 =? 224 then 160 <=? b1 else if b0 =? 237 then b1 <=? 159 else true) &&
                valid_utf8 l
              else match l with
              | b3 :: l =>
                  (240 <=? b0) && (b0 <=? 244) && continuation b1 && continuation b2 &&
                  continuation b3 &&
                  (if b0 =? 240 then 144 <=? b1 else if b0 =? 244 then b1 <=? 143 else true) &&
                  valid_utf8 l
              | [] => false
              end
          | [] => false
          end
      | [] => false
      end
  end.

Arguments contains c%_char s%_string.
Arguments split c%_char s%_string.
Arguments join c%_char l%_list.
Arguments split_once c%_char s%_string.
Arguments trim_start_matches c%_char s%_string.

(** ** Lemmas *)
#[local] Arguments String.append !_ _ : simpl nomatch.

Lemma as_bytes_app s t : as_bytes (s +:+ t) = as_bytes s ++ as_bytes t.
Proof. induction s; simpl; congruence. Qed.

Lemma length_as_bytes s : length (as_bytes s) = String.length s.
Proof. induction s; simpl; congruence. Qed.

Lemma of_bytes_as_bytes s : of_bytes (as_bytes s) = s.
Proof. induction s; simpl; [done|]. by rewrite N2Z.id, ascii_N_embedding, IHs. Qed.

Lemma as_bytes_ok s : bytes_ok (as_bytes s).
Proof.
  induction s; constructor; [|done]. unfold byte_ok, uint. pose proof (N_ascii_bounded a). lia.
Qed.

Lemma string_app_assoc (a b c : string) : (a +:+ b) +:+ c = a +:+ (b +:+ c).
Proof. induction a; simpl; congruence. Qed.

Lemma string_app_nil (s : string) : s +:+ "" = s.
Proof. induction s; simpl; congruence. Qed.

Lemma string_length_app (s t : string) : String.length (s +:+ t) = (String.length s + String.length t)%nat.
Proof. induction s; simpl; congruence. Qed.

Lemma substring_prefix (s t : string) : String.substring 0 (String.length s) (s +:+ t) = s.
Proof. induction s; simpl; [by destruct t|congruence]. Qed.

Lemma contains_app c s t : contains c (s +:+ t) = contains c s || contains c t.
Proof. induction s; simpl; [done|]. by rewrite IHs, orb_assoc. Qed.

Lemma split_cons c s : exists p ps, split c s = p :: ps.
Proof.
  induction s as [|d s (p & ps & IH)]; simpl; [eauto|]. rewrite IH. destruct (Ascii.eqb d c); eauto.
Qed.

(** What [split] returns has no separator and gives the string back. *)
Lemma split_no_sep c s : Forall (fun p => contains c p = false) (split c s).
Proof.
  induction s as [|d s IH]; simpl; [by repeat constructor|].
  destruct (Ascii.eqb d c) eqn:E; [by constructor|].
  destruct (split c s) as [|p ps]; [constructor|]. inversion_clear IH. constructor; [|done].
  simpl. by rewrite E.
Qed.

Lemma join_split c s : join c (split c s) = s.
Proof.
  induction s as [|d s IH]; [done|]. simpl. destruct (split_cons c s) as (p & ps & E). rewrite E in *.
  destruct (Ascii.eqb_spec d c) as [->|Hd].
  - by rewrite <- IH.
  - rewrite <- IH. by destruct ps.
Qed.

Lemma split_app_sep c p s : contains c p = false -> split c (p +:+ String c s) = p :: split c s.
Proof.
  induction p as [|d p IH]; simpl; intros H; [by rewrite Ascii.eqb_refl|].
  apply orb_false_elim in H as [Hd H]. by rewrite Hd, IH.
Qed.

Lemma split_last c p : contains c p = false -> split c p = [p].
Proof.
  induction p as [|d p IH]; simpl; intros H; [done|].
  apply orb_false_elim in H as [Hd H]. by rewrite Hd, IH.
Qed.

Lemma split_join c l : l <> [] -> Forall (fun p => contains c p = false) l -> split c (join c l) = l.
Proof.
  induction l as [|p l IH]; [done|]. intros _ H. inversion_clear H. destruct l as [|q l].
  - by apply split_last.
  - change (join c (p :: q :: l)) with (p +:+ String c (join c (q :: l))).
    rewrite split_app_sep by done. f_equal. by apply IH.
Qed.

Lemma split_once_spec c s a b : split_once c s = Some (a, b) -> s = a +:+ String c b /\ contains c a = false.
Proof.
  revert a b. induction s as [|d s IH]; simpl; intros a b; [done|].
  destruct (Ascii.eqb_spec d c) as [->|Hd].
  - by intros [= <- <-].
  - destruct (split_once c s) as [[a' b']|]; [|done]. intros [= <- <-].
    destruct (IH a' b' eq_refl) as [-> ?]. split; [done|]. simpl.
    destruct (Ascii.eqb_spec d c); [done|]. done.
Qed.

Lemma split_once_app c a b : contains c a = false -> split_once c (a +:+ String c b) = Some (a, b).
Proof.
  induction a as [|d a IH]; simpl; intros H; [by rewrite Ascii.eqb_refl|].
  apply orb_false_elim in H as [Hd H]. by rewrite Hd, IH.
Qed.

Lemma starts_with_app p s : starts_with p (p +:+ s) = true.
Proof. induction p as [|d p IH]; simpl; [done|]. by rewrite Ascii.eqb_refl. Qed.

Lemma starts_with_spec p s : starts_with p s = true -> exists t, s = p +:+ t.
Proof.
  revert s. induction p as [|d p IH]; intros s; [by exists s|]. destruct s as [|e s]; simpl; [done|].
  intros [->%Ascii.eqb_eq (t & ->)%IH]%andb_prop. by exists t.
Qed.

Lemma eq_ignore_ascii_case_refl s : eq_ignore_ascii_case s s = true.
Proof. induction s; simpl; [done|]. by rewrite Ascii.eqb_refl. Qed.

(** Slicing up to an ASCII character is on a boundary. *)
Lemma char_boundary_before s c t :
  (N_of_ascii c < 128)%N -> is_char_boundary (s +:+ String c t) (String.length s) = true.
Proof.
  intros Hc. unfold is_char_boundary.
  assert (String.get (String.length s) (s +:+ String c t) = Some c) as -> by (induction s; done).
  apply orb_true_iff. right. apply orb_true_iff. left. by apply N.ltb_lt.
Qed.

Lemma char_boundary_0 s : is_char_boundary s 0 = true.
Proof. done. Qed.

Lemma str_slice_before {E} s c t :
  (N_of_ascii c < 128)%N -> @str_slice E 0 (String.length s) (s +:+ String c t) = Ok s.
Proof.
  intros Hc. unfold str_slice. rewrite char_boundary_before by done. rewrite char_boundary_0. simpl andb. cbv iota.
  by rewrite Nat.sub_0_r, substring_prefix.
Qed.

(** The decimal text of a number parses back. *)
Lemma below_check (p : Z -> bool) k : forallb p (seqZ 0 k) = true -> forall n, 0 <= n < k -> p n = true.
Proof.
  rewrite forallb_forall. intros Hp n Hn. apply Hp, list_elem_of_In, elem_of_seqZ. lia.
Qed.

Lemma digit_char x : (x < 10)%N -> digit (pretty_N_char x) = Some (Z.of_N x).
Proof.
  intros Hx.
  pose proof (below_check (fun n => bool_decide (digit (pretty_N_char (Z.to_N n)) = Some n)) 10 eq_refl
    (Z.of_N x) ltac:(lia)) as Hd.
  apply bool_decide_eq_true in Hd. by rewrite N2Z.id in Hd.
Qed.

Lemma parse_digits_pretty x s :
  Z.of_N x < 2 ^ 64 -> parse_digits 0 (pretty_N_go x s) = parse_digits (Z.of_N x) s.
Proof.
  revert s. induction (N.lt_wf_0 x) as [x _ IH]; intros s Hx.
  assert (x = 0 \/ 0 < x)%N as [->|Hpos] by lia; [done|].
  rewrite pretty_N_go_step by done.
  rewrite IH; [|apply N.div_lt; lia|rewrite N2Z.inj_div; dlia].
  simpl parse_digits. rewrite digit_char by (by apply N.mod_lt).
  rewrite N2Z.inj_div, N2Z.inj_mod.
  replace (10 * (Z.of_N x `div` Z.of_N 10) + Z.of_N x `mod` Z.of_N 10) with (Z.of_N x) by dlia.
  destruct (Z.ltb_spec (Z.of_N x) (2 ^ 64)); [done|lia].
Qed.

Lemma pretty_N_go_digit x s : exists d s', (0 < x)%N -> pretty_N_go x s = String d s' /\ Ascii.eqb d "+" = false.
Proof.
  revert s. induction (N.lt_wf_0 x) as [x _ IH]; intros s.
  assert (x = 0 \/ 0 < x)%N as [->|Hpos] by lia; [exists "0"%char, ""; lia|].
  rewrite pretty_N_go_step by done.
  destruct (N.eq_dec (x / 10)%N 0%N) as [E|E].
  - rewrite E, pretty_N_go_0. eexists _, _. split; [done|].
    pose proof (N.mod_lt x 10%N ltac:(done)). pose proof (digit_char (x mod 10)%N ltac:(done)) as D.
    destruct (Ascii.eqb_spec (pretty_N_char (x mod 10)%N) "+") as [Eq|]; [by rewrite Eq in D|done].
  - destruct (IH (x / 10)%N ltac:(apply N.div_lt; lia) (String (pretty_N_char (x mod 10)%N) s)) as (d & s' & H).
    exists d, s'. intros _. apply H. by apply N.neq_0_lt_0.
Qed.

Lemma parse_u64_pretty x : Z.of_N x < 2 ^ 64 -> parse_u64 (pretty x) = Some (Z.of_N x).
Proof.
  intros Hx. unfold pretty, pretty_N. destruct (decide (x = 0)%N) as [->|Hn]; [done|].
  destruct (pretty_N_go_digit x "") as (d & s' & H). destruct H as [E Hd]; [lia|].
  rewrite E. simpl. rewrite Hd. change (parse_digits 0 (String d s') = Some (Z.of_N x)).
  rewrite <- E. by apply parse_digits_pretty.
Qed.

Lemma pretty_N_no_char c (x : N) : digit c = None -> contains c (pretty x) = false.
Proof.
  intros Hc. unfold pretty, pretty_N.
  destruct (decide (x = 0)%N); [destruct (Ascii.eqb_spec "0" c) as [<-|Hne]; [discriminate Hc|unfold contains; by rewrite (proj2 (Ascii.eqb_neq _ _) Hne)]|clear n].
  enough (forall s, contains c s = false -> contains c (pretty_N_go x s) = false) by auto.
  induction (N.lt_wf_0 x) as [y _ IH]; intros s Hs.
  assert (y = 0 \/ 0 < y)%N as [->|Hpos] by lia; [by rewrite pretty_N_go_0|].
  rewrite pretty_N_go_step by done. apply IH; [apply N.div_lt; lia|]. simpl. rewrite Hs, orb_false_r.
  pose proof (digit_char (y mod 10)%N ltac:(by apply N.mod_lt)) as D.
  destruct (Ascii.eqb_spec (pretty_N_char (y mod 10)%N) c) as [E|]; [by rewrite E in D; congruence|done].
Qed.

Lemma parse_digits_range acc s z : 0 <= acc < 2 ^ 64 -> parse_digits acc s = Some z -> uint 64 z.
Proof.
  revert acc. induction s as [|c s IH]; simpl; intros acc Hacc; [by intros [= <-]|].
  destruct (digit c) as [d|] eqn:E; [|done]. case_if; [|done]. boolsplit.
  apply IH. unfold digit in E. case_if_in E; [|done]. boolsplit. injection E as <-. lia.
Qed.

Lemma parse_u64_range s z : parse_u64 s = Some z -> uint 64 z.
Proof.
  unfold parse_u64. destruct s as [|c s]; [done|]. case_if; [destruct s; [done|]|]; by apply parse_digits_range.
Qed.

(** ** Text encodings of bytes

    The crates [hex] and [base64] are parameters; of [hex] the source relies on
    what its documentation says. *)
Class Hex := {
  hex_decode : string -> option bytes;   (* [Vec::from_hex(s).ok()] *)
  hex_encode : bytes -> string           (* [encode_hex], lower case *)
}.

Definition is_hex_char (c : ascii) : bool :=
  let n := Z.of_N (N_of_ascii c) in (48 <=? n) && (n <=? 57) || (97 <=? n) && (n <=? 102).

Fixpoint all_chars (p : ascii -> bool) (s : string) : bool :=
  match s with
  | EmptyString => true
  | String c s => p c && all_chars p s
  end.

Class HexLaws `{Hex} : Prop := {
  hex_decode_encode b : bytes_ok b -> hex_decode (hex_encode b) = Some b;
  hex_decode_length s b : hex_decode s = Some b -> String.length s = (2 * length b)%nat;
  hex_decode_ok s b : hex_decode s = Some b -> bytes_ok b;
  hex_encode_chars b : bytes_ok b -> all_chars is_hex_char (hex_encode b) = true
}.

(** [<[u8; n]>::from_hex(s)] *)
Definition hex_decode_array `{Hex} (n : nat) (s : string) : option bytes :=
  match hex_decode s with
  | Some b => if (length b =? n)%nat then Some b else None
  | None => None
  end.

(** [STANDARD.decode(s).ok()] *)
Class Base64 := base64_decode : string -> option bytes.

Lemma all_chars_contains p c s : all_chars p s = true -> p c = false -> contains c s = false.
Proof.
  intros Hs Hc. induction s as [|d s IH]; [done|]. simpl in *. apply andb_prop in Hs as [Hd Hs].
  rewrite IH by done. destruct (Ascii.eqb_spec d c) as [->|]; [congruence|done].
Qed.

(** A codec with these laws. *)
Definition nibble_char (n : Z) : ascii := ascii_of_N (Z.to_N (if n <? 10 then 48 + n else 87 + n)).

Definition char_nibble (c : ascii) : option Z :=
  let n := Z.of_N (N_of_ascii c) in
  if (48 <=? n) && (n <=? 57) then Some (n - 48)
  else if (97 <=? n) && (n <=? 102) then Some (n - 87)
  else if (65 <=? n) && (n <=? 70) then Some (n - 55) else None.

Fixpoint encode_nibbles (b : bytes) : string :=
  match b with
  | [] => EmptyString
  | x :: b => String (nibble_char (x / 16)) (String (nibble_char (x mod 16)) (encode_nibbles b))
  end.

Fixpoint decode_nibbles (s : string) : option bytes :=
  match s with
  | EmptyString => Some []
  | String _ EmptyString => None
  | String c (String d s) =>
      match char_nibble c, char_nibble d, decode_nibbles s with
      | Some x, Some y, Some b => Some (16 * x + y :: b)
      | _, _, _ => None
      end
  end.

Definition nibbles : Hex := {| hex_decode := decode_nibbles; hex_encode := encode_nibbles |}.

Lemma char_nibble_char n : 0 <= n < 16 -> char_nibble (nibble_char n) = Some n /\ is_hex_char (nibble_char n) = true.
Proof.
  intros Hn.
  pose proof (below_check (fun n => bool_decide (char_nibble (nibble_char n) = Some n) && is_hex_char (nibble_char n))
    16 eq_refl n Hn) as [Hc ?]%andb_prop. by apply bool_decide_eq_true in Hc.
Qed.

Lemma char_nibble_range c n : char_nibble c = Some n -> 0 <= n < 16.
Proof.
  unfold char_nibble. repeat (case_if; boolsplit; [intros [= <-]; lia|]). done.
Qed.

#[global] Instance nibbles_laws : @HexLaws nibbles.
Proof.
  split.
  - intros b Hb. unfold hex_decode, hex_encode, nibbles. induction Hb as [|x b Hx Hb IH]; [done|].
    unfold byte_ok, uint in Hx. simpl.
    rewrite (proj1 (char_nibble_char (x / 16) ltac:(dlia))), (proj1 (char_nibble_char (x mod 16) ltac:(dlia))), IH.
    do 2 f_equal. dlia.
  - unfold hex_decode, nibbles. intros s b. revert s.
    induction b as [|x b IH]; intros s; destruct s as [|c [|d s]]; simpl; try done;
      destruct (char_nibble c), (char_nibble d), (decode_nibbles s) eqn:E; try done.
    intros [= <- <-]. rewrite (IH s E). lia.
  - unfold hex_decode, nibbles. intros s b. revert s.
    induction b as [|x b IH]; intros s; destruct s as [|c [|d s]]; simpl; try done; [intros; constructor..|].
    destruct (char_nibble c) as [u|] eqn:C; [|done]. destruct (char_nibble d) as [v|] eqn:D; [|done].
    destruct (decode_nibbles s) as [b'|] eqn:E; [|done]. apply char_nibble_range in C, D. intros [= <- <-]. constructor; [unfold byte_ok, uint; lia|by apply (IH s)].
  - unfold hex_encode, nibbles. intros b Hb. induction Hb as [|x b Hx Hb IH]; [done|].
    unfold byte_ok, uint in Hx. simpl.
    rewrite (proj2 (char_nibble_char (x / 16) ltac:(dlia))), (proj2 (char_nibble_char (x mod 16) ltac:(dlia))).
    done.
Qed.
