(* ===== verification/Authenticator.v ===== *)
(** * Authenticator: the authorization header of a request

    [src/frontend/src/authenticator.rs].  A [SystemTime] is its nanoseconds
    since the epoch; the HMAC is a parameter. *)
From Stdlib Require Import Ascii.
From stdpp Require Import strings.
From S2P Require Import Prelude Text.

(** [HmacSha256::new_from_slice(key)], [update] and [finalize]; [None] is an
    invalid key length. *)
Class HmacSha256 := hmac_sha256 : bytes -> bytes -> option bytes.

(** HMAC takes keys of any length and gives 32 bytes. *)
Class HmacSha256Laws `{HmacSha256} : Prop :=
  hmac_sha256_digest_ok key data : exists d, hmac_sha256 key data = Some d /\ length d = 32%nat.

Module Authenticator.

Definition GV2_AUTH_MATCH_LIMIT : nat := 10.

Inductive UserPermission := JoinAlreadyCreated | CreateAndJoin.

Module UserPermission.
Definition from_str (s : string) : Res string UserPermission :=
  if String.eqb s "0" then Ok JoinAlreadyCreated
  else if String.eqb s "1" then Ok CreateAndJoin
  else Err "invalid user permission string".

Definition can_create (self : UserPermission) : bool :=
  match self with
  | JoinAlreadyCreated => false
  | CreateAndJoin => true
  end.
End UserPermission.

Record GroupAuthToken := group_auth_token {
  user_id : string;
  group_id : string;
  time : Z;
  user_permission : UserPermission;
  mac_digest : bytes;
  validation_range : nat * nat
}.

(** [UNIX_EPOCH.checked_add(Duration::from_secs(secs))]: the seconds of a
    [SystemTime] are an [i64]. *)
Definition unix_epoch_checked_add (secs : Z) : option Z :=
  if secs <? 2 ^ 63 then Some (secs * 1000000000) else None.

Module GroupAuthToken.
Definition from_str `{Hex} (password : string) : Res string GroupAuthToken :=
  match split ":" password with
  | [version; user_id; group_id; time_unix_secs; permission; mac_digest_hex] =>
      if negb (String.eqb version "2") then Err "unsupported signature"
      else if is_empty user_id then Err "user_id is missing"
      else if is_empty group_id then Err "group_id is missing"
      else
        time_unix_secs ← ok_or "time not encoded correctly" (parse_u64 time_unix_secs);
        time ← ok_or "time not valid" (unix_epoch_checked_add time_unix_secs);
        user_permission ← map_err (fun _ => "unknown permission") (UserPermission.from_str permission);
        mac_digest ← ok_or "mac not hexadecimal" (hex_decode mac_digest_hex);
        Ok (group_auth_token user_id group_id time user_permission mac_digest
              (0, String.length password - String.length mac_digest_hex - 1)%nat)
  | _ => Err "invalid format"
  end.
End GroupAuthToken.

(** What we know about the authorization a client has. *)
Module UserAuthorization.
Record t := mk { user_id : string; room_id : string; user_permission : UserPermission }.
End UserAuthorization.
#[local] Abbreviation UserAuthorization := UserAuthorization.t.

Inductive AuthenticatorError :=
| InvalidMacKeyLength
| BadSignature
| InvalidTime
| ExpiredCredentials
| AuthHeaderNotValid
| AuthHeaderParseFailure
| DecodeFailure
| Utf8Failure.

#[global] Instance AuthenticatorError_eq_dec : EqDecision AuthenticatorError.
Proof. solve_decision. Defined.

(** [Authenticator], whose one field is the key *)
Record t := mk { key : bytes }.

Definition hmac_sha256_digest `{HmacSha256} (key data : bytes) : Res AuthenticatorError bytes :=
  ok_or InvalidMacKeyLength (hmac_sha256 key data).

(** Compares with the first bytes of the expected digest; [ct_eq] of slices of
    different lengths is false. *)
Definition verify_gv2_auth_mac (expected_mac_digest actual_mac_digest : bytes) : Res AuthenticatorError unit :=
  expected ← slice_to GV2_AUTH_MATCH_LIMIT expected_mac_digest;
  if bool_decide (expected = actual_mac_digest) then Ok () else Err BadSignature.

Inductive ParsedHeader :=
| Basic (username password : string)
| Bearer (token : string).

Definition from_hex_key `{Hex} (hex_key : string) : Res string t :=
  match hex_decode_array 32 hex_key with
  | Some key => Ok (mk key)
  | None => Err "invalid key"
  end.

(** The digest is computed but neither compared nor is the time looked at:
    the source has both checks commented out. *)
Definition verify `{HmacSha256} (self : t) (auth_token : GroupAuthToken) (password : string) :
    Res AuthenticatorError UserAuthorization :=
  data ← str_slice (fst (validation_range auth_token)) (snd (validation_range auth_token)) password;
  expected_mac_digest ← hmac_sha256_digest (key self) (as_bytes data);
  Ok (UserAuthorization.mk (user_id auth_token) (group_id auth_token) (user_permission auth_token)).

Definition parse_authorization_header `{Base64} (header : string) : Res AuthenticatorError ParsedHeader :=
  match split_once " " header with
  | Some (scheme, token) =>
      if eq_ignore_ascii_case scheme "Basic" then
        credentials_utf8 ← ok_or DecodeFailure (base64_decode token);
        (if valid_utf8 credentials_utf8 then
          '(username, password) ← ok_or AuthHeaderNotValid (split_once ":" (of_bytes credentials_utf8));
          Ok (Basic username password)
        else Err Utf8Failure)
      else if eq_ignore_ascii_case scheme "Bearer" then Ok (Bearer (trim_start_matches " " token))
      else Err AuthHeaderParseFailure
  | None => Err AuthHeaderParseFailure
  end.

End Authenticator.

Module AuthenticatorFacts.
Import Authenticator.

(** The text of a permission in a token. *)
Definition permission_text (p : UserPermission) : string :=
  match p with JoinAlreadyCreated => "0" | CreateAndJoin => "1" end.

(** What the digest of a token is computed from. *)
Definition signed_text (user group secs permission : string) : string :=
  join ":" ["2"; user; group; secs; permission].

Definition token_text (user group secs permission mac : string) : string :=
  join ":" ["2"; user; group; secs; permission; mac].

Definition print_token `{Hex} (user group : string) (secs : N) (p : UserPermission) (mac : bytes) : string :=
  token_text user group (pretty.pretty secs) (permission_text p) (hex_encode mac).

#[local] Arguments String.append !_ _ : simpl nomatch.

Lemma permission_text_from_str s p : UserPermission.from_str s = Ok p <-> s = permission_text p.
Proof.
  unfold UserPermission.from_str. destruct (String.eqb_spec s "0") as [->|H0].
  - split; [by intros [= <-]|]. by destruct p.
  - destruct (String.eqb_spec s "1") as [->|H1]; (split; [by try intros [= <-]|]); destruct p; done.
Qed.

Lemma token_text_signed user group secs permission mac :
  token_text user group secs permission mac = signed_text user group secs permission +:+ String ":" mac.
Proof. unfold token_text, signed_text. simpl. repeat (rewrite string_app_assoc; simpl). done. Qed.

Section parse.
Context `{Hex}.

(** The texts that are tokens, and what they say. *)
Lemma from_str_spec password tok :
  GroupAuthToken.from_str password = Ok tok <->
  exists secs_text mac_text secs,
    let permission := permission_text (user_permission tok) in
    password = token_text (user_id tok) (group_id tok) secs_text permission mac_text /\
    Forall (fun s => contains ":" s = false) [user_id tok; group_id tok; secs_text; mac_text] /\
    user_id tok <> "" /\ group_id tok <> "" /\
    parse_u64 secs_text = Some secs /\ secs < 2 ^ 63 /\ time tok = secs * 1000000000 /\
    hex_decode mac_text = Some (mac_digest tok) /\
    validation_range tok = (0, String.length (signed_text (user_id tok) (group_id tok) secs_text permission))%nat.
Proof.
  unfold GroupAuthToken.from_str. split.
  - destruct (split ":" password) as [|v [|u [|g [|t [|p [|m [|]]]]]]] eqn:S; try done.
    pose proof (join_split ":" password) as J. pose proof (split_no_sep ":" password) as N. rewrite S in *.
    case_if; [done|]. case_if; [done|]. case_if; [done|].
    apply negb_false_iff, String.eqb_eq in E as ->.
    destruct (parse_u64 t) as [secs|] eqn:T; [|done]. unfold unix_epoch_checked_add. simpl.
    destruct (Z.ltb_spec secs (2 ^ 63)); [|done]. simpl.
    destruct (UserPermission.from_str p) as [perm| |] eqn:P; try done. simpl.
    destruct (hex_decode m) as [mac|] eqn:M; [|done]. intros [= <-]. simpl.
    apply permission_text_from_str in P as ->.
    exists t, m, secs. simpl. subst password.
    assert (Forall (fun s => contains ":" s = false) [u; g; t; m]).
    { rewrite !Forall_cons in N. rewrite !Forall_cons. naive_solver. }
    repeat split; try done; try (by intros ->).
    f_equal. change (join ":" ["2"; u; g; t; permission_text perm; m]) with (token_text u g t (permission_text perm) m).
    rewrite token_text_signed, string_length_app. simpl. lia.
  - destruct tok as [u g t p m r]. cbn [user_id group_id time user_permission mac_digest validation_range].
    intros (secs_text & mac_text & secs & -> & Hc & Hu & Hg & Hs & Hl & -> & Hm & ->).
    pose proof (token_text_signed u g secs_text (permission_text p) mac_text) as E.
    apply (f_equal String.length) in E. rewrite string_length_app in E. simpl (String.length (String _ _)) in E.
    assert (split ":" (token_text u g secs_text (permission_text p) mac_text) =
      ["2"; u; g; secs_text; permission_text p; mac_text]) as ->.
    { apply split_join; [done|]. rewrite !Forall_cons in *. destruct Hc as (? & ? & ? & ? & _).
      repeat split; try done. by destruct p. }
    set (n := String.length (token_text _ _ _ _ _)) in *.
    set (k := String.length (signed_text _ _ _ _)) in *. clearbody n k.
    rewrite String.eqb_refl. simpl negb. cbv iota.
    replace (is_empty u) with false by (by destruct u). replace (is_empty g) with false by (by destruct g).
    rewrite Hs. unfold unix_epoch_checked_add. simpl. destruct (Z.ltb_spec secs (2 ^ 63)); [|lia]. simpl.
    rewrite (proj2 (permission_text_from_str _ _) eq_refl). simpl. rewrite Hm. simpl.
    do 3 f_equal. lia.
Qed.

Lemma token_room_plain password tok :
  GroupAuthToken.from_str password = Ok tok -> contains ":" (group_id tok) = false.
Proof.
  intros (? & ? & ? & _ & Hc & _)%from_str_spec. rewrite !Forall_cons in Hc. tauto.
Qed.

(** The digest of a token is of what precedes the last colon, and the slice
    that takes it does not panic. *)
Lemma validation_slice E password tok :
  GroupAuthToken.from_str password = Ok tok ->
  exists secs mac,
    password = signed_text (user_id tok) (group_id tok) secs (permission_text (user_permission tok)) +:+ String ":" mac /\
    @str_slice E (fst (validation_range tok)) (snd (validation_range tok)) password =
      Ok (signed_text (user_id tok) (group_id tok) secs (permission_text (user_permission tok))).
Proof.
  intros (t & m & secs & -> & _ & _ & _ & _ & _ & _ & _ & ->)%from_str_spec. exists t, m.
  rewrite token_text_signed. split; [done|]. cbn [fst snd]. by rewrite str_slice_before.
Qed.

Lemma verify_spec `{HmacSha256Laws} self password tok :
  GroupAuthToken.from_str password = Ok tok ->
  verify self tok password = Ok (UserAuthorization.mk (user_id tok) (group_id tok) (user_permission tok)).
Proof.
  intros (secs & mac & _ & Hs)%(validation_slice AuthenticatorError). unfold verify. rewrite Hs. rewrite mbind_Ok.
  generalize (as_bytes (signed_text (user_id tok) (group_id tok) secs
    (permission_text (user_permission tok)))). intros data.
  unfold hmac_sha256_digest.
  destruct (hmac_sha256_digest_ok (key self) data) as (d & -> & _). done.
Qed.
End parse.

Lemma secs_text_plain (secs : N) : contains ":" (pretty.pretty secs) = false.
Proof. by apply pretty_N_no_char. Qed.

Lemma hex_text_plain `{HexLaws} b : bytes_ok b -> contains ":" (hex_encode b) = false.
Proof. intros Hb. by apply (all_chars_contains is_hex_char); [apply hex_encode_chars|]. Qed.

End AuthenticatorFacts.

(** A hash of the right length, for the witnesses. *)
Module AuthenticatorSamples.
Definition zero_hmac : HmacSha256 := fun _ _ => Some (replicate 32 0).
#[global] Instance zero_hmac_laws : @HmacSha256Laws zero_hmac.
Proof. intros ? ?. by exists (replicate 32 0). Qed.
End AuthenticatorSamples.

Module AuthenticatorProperties.
Import Authenticator AuthenticatorFacts AuthenticatorSamples.

(** A token says what was written into it.  For any user and group without
    a colon, any time a [SystemTime] can hold, any permission and any digest, the
    printed token parses to exactly these, and the digest that [verify] computes is
    of everything before the last colon. *)
Theorem token_roundtrip `{HexLaws} user group (secs : N) permission mac :
  user <> "" -> group <> "" -> contains ":" user = false -> contains ":" group = false ->
  Z.of_N secs < 2 ^ 63 -> bytes_ok mac ->
  exists range, GroupAuthToken.from_str (print_token user group secs permission mac) =
    Ok (group_auth_token user group (Z.of_N secs * 1000000000) permission mac range) /\
  @str_slice AuthenticatorError (fst range) (snd range) (print_token user group secs permission mac) =
    Ok (signed_text user group (pretty.pretty secs) (permission_text permission)).
Proof.
  intros Hu Hg Hcu Hcg Hs Hm. eexists.
  assert (GroupAuthToken.from_str (print_token user group secs permission mac) =
    Ok (group_auth_token user group (Z.of_N secs * 1000000000) permission mac
      (0, String.length (signed_text user group (pretty.pretty secs) (permission_text permission)))%nat)) as E.
  { apply from_str_spec. exists (pretty.pretty secs), (hex_encode mac), (Z.of_N secs).
    split; [done|]. split; [by repeat constructor; auto using secs_text_plain, hex_text_plain|].
    repeat split; try done; [by apply parse_u64_pretty; lia|by apply hex_decode_encode]. }
  split; [exact E|]. cbn [fst snd]. unfold print_token. rewrite token_text_signed. by rewrite str_slice_before.
Qed.

Lemma token_roundtrip_witness :
  exists range, @GroupAuthToken.from_str nibbles (@print_token nibbles "ab" "c1" 1700000000 CreateAndJoin [18; 255]) =
    Ok (group_auth_token "ab" "c1" 1700000000000000000 CreateAndJoin [18; 255] range) /\
  @str_slice AuthenticatorError (fst range) (snd range) (@print_token nibbles "ab" "c1" 1700000000 CreateAndJoin [18; 255]) =
    Ok (signed_text "ab" "c1" "1700000000" "1").
Proof.
  apply (@token_roundtrip nibbles nibbles_laws "ab" "c1" 1700000000 CreateAndJoin [18; 255]); try done.
  repeat constructor; done.
Defined.

(** A token is accepted whatever its digest says and whenever it was issued.
    Every text of the form of a token, with any digits for the time and any digest,
    gives the user, the group and the permission that it names, under every key of
    the server. *)
Theorem any_digest_authorizes `{Hex} `{HmacSha256Laws} user group permission secs_text secs mac_text mac :
  user <> "" -> group <> "" ->
  Forall (fun s => contains ":" s = false) [user; group; secs_text; mac_text] ->
  parse_u64 secs_text = Some secs -> secs < 2 ^ 63 -> hex_decode mac_text = Some mac ->
  let password := token_text user group secs_text (permission_text permission) mac_text in
  exists tok, GroupAuthToken.from_str password = Ok tok /\
    forall self, verify self tok password = Ok (UserAuthorization.mk user group permission).
Proof.
  intros Hu Hg Hc Hs Hl Hm password.
  set (tok := group_auth_token user group (secs * 1000000000) permission mac
    (0, String.length (signed_text user group secs_text (permission_text permission)))%nat).
  assert (GroupAuthToken.from_str password = Ok tok) as E.
  { apply from_str_spec. by exists secs_text, mac_text, secs. }
  exists tok. split; [done|]. intros self. by apply (verify_spec self password tok).
Qed.

Lemma any_digest_authorizes_witness :
  exists tok, @GroupAuthToken.from_str nibbles "2:ab:c1:0:1:" = Ok tok /\
    forall self, @verify zero_hmac self tok "2:ab:c1:0:1:" = Ok (UserAuthorization.mk "ab" "c1" CreateAndJoin).
Proof.
  apply (@any_digest_authorizes nibbles zero_hmac zero_hmac_laws "ab" "c1" CreateAndJoin "0" 0 "" []);
    try done. repeat constructor.
Defined.
End AuthenticatorProperties.
