(* ===== verification/Storage.v ===== *)
(** * Storage: the table of calls and call links, and what it promises

    The data of [src/frontend/src/storage.rs], its trait [Storage] as a type class,
    and the behaviour the trait's comments promise, as pure functions on two maps.
    [DynamoDb] implements the class; the handlers of the frontend are written and
    proved against it.  Times are nanoseconds since the epoch; where the source
    reads the clock the time is an argument. *)
From stdpp Require Import strings.
From S2P Require Import Prelude Text.

(** ** Operations on an outside world

    [M W E A] is an operation on a world [W] that returns, fails or panics. *)
Definition M (W E A : Type) : Type := W -> Res E A * W.

#[global] Instance M_ret {W E} : MRet (M W E) := fun A a w => (Ok a, w).
#[global] Instance M_bind {W E} : MBind (M W E) := fun A B f m w =>
  match m w with
  | (Ok a, w) => f a w
  | (Err e, w) => (Err e, w)
  | (Panic, w) => (Panic, w)
  end.

(** A result without an effect. *)
Definition lift {W E A} (r : Res E A) : M W E A := fun w => (r, w).
Definition fail {W E A} (e : E) : M W E A := lift (Err e).

(** [m.await.map_err(f)] *)
Definition map_err_m {W E F A} (f : E -> F) (m : M W E A) : M W F A := fun w =>
  let '(r, w) := m w in (map_err f r, w).

(** [match m.await]: the result as a value; a panic goes through. *)
Definition attempt {W E F A} (m : M W E A) : M W F (E + A) := fun w =>
  match m w with
  | (Ok a, w) => (Ok (inr a), w)
  | (Err e, w) => (Ok (inl e), w)
  | (Panic, w) => (Panic, w)
  end.

Module Storage.

Definition call_link_room_key_str (room_id : string) : string :=
  if negb (starts_with "adhoc:" room_id) then "adhoc:" +:+ room_id else room_id.

Definition call_link_room_key (room_id : string) : string := call_link_room_key_str room_id.

Module CallRecord.
Record t := mk {
  room_id : string;
  era_id : string;
  backend_ip : string;
  backend_region : string;
  creator : string
}.
Definition RECORD_TYPE : string := "ActiveCall".
Definition ATTRIBUTES : string := "roomId,eraId,backendIp,#region,creator".
End CallRecord.
Abbreviation CallRecord := CallRecord.t.

Module CallRecordKey.
Record t := mk { room_id : string; era_id : string }.
End CallRecordKey.
Abbreviation CallRecordKey := CallRecordKey.t.

Inductive CallLinkRestrictions := NoRestrictions | AdminApproval.

#[global] Instance CallLinkRestrictions_eq_dec : EqDecision CallLinkRestrictions.
Proof. solve_decision. Defined.

Module CallLinkState.
Record t := mk {
  admin_passkey : bytes;
  zkparams : bytes;
  restrictions : CallLinkRestrictions;
  encrypted_name : bytes;
  revoked : bool;
  expiration : Z;
  delete_at : Z;
  approved_users : list string
}.
#[global] Instance t_eta : Settable t := fun s =>
  mk (admin_passkey s) (zkparams s) (restrictions s) (encrypted_name s) (revoked s) (expiration s)
    (delete_at s) (approved_users s).

Definition RECORD_TYPE : string := "CallLinkState".
Definition PEEK_ATTRIBUTES : string :=
  "adminPasskey,zkparams,restrictions,encryptedName,revoked,expiration,deleteAt".

(** 90 days each *)
Definition EXPIRATION_TIMER : Z := 60 * 60 * 24 * 90 * 1000000000.
Definition DELETION_TIMER : Z := 60 * 60 * 24 * 90 * 1000000000.

Definition new (admin_passkey zkparams : bytes) (now : Z) : t :=
  mk admin_passkey zkparams NoRestrictions [] false (now + EXPIRATION_TIMER)
    (now + EXPIRATION_TIMER + DELETION_TIMER) [].
End CallLinkState.
Abbreviation CallLinkState := CallLinkState.t.

Module CallLinkUpdate.
Record t := mk {
  admin_passkey : bytes;
  restrictions : option CallLinkRestrictions;
  encrypted_name : option bytes;
  revoked : option bool
}.
End CallLinkUpdate.
Abbreviation CallLinkUpdate := CallLinkUpdate.t.

Module StorageError.
Inductive t :=
| BatchLimitExceeded (provided limit : nat)
| UnexpectedError (context : string).
End StorageError.

Module CallLinkUpdateError.
Inductive t :=
| RoomDoesNotExist
| AdminPasskeyDidNotMatch
| UnexpectedError (context : string).
End CallLinkUpdateError.

Module CallLinkDeleteError.
Inductive t :=
| RoomDoesNotExist
| AdminPasskeyDidNotMatch
| CallRecordConflict
| UnexpectedError (context : string).
End CallLinkDeleteError.

(** The trait.  [update_call_link] reads the clock; the time is its first argument. *)
Class Storage (W : Type) := {
  get_call_record : string -> M W StorageError.t (option CallRecord);
  get_or_add_call_record : CallRecord -> M W StorageError.t CallRecord;
  remove_call_record : string -> string -> M W StorageError.t unit;
  remove_batch_call_records : list CallRecordKey -> M W StorageError.t unit;
  get_call_records_for_region : string -> M W StorageError.t (list CallRecord);
  get_call_link : string -> M W StorageError.t (option CallLinkState);
  update_call_link : Z -> string -> CallLinkUpdate -> option bytes -> M W CallLinkUpdateError.t CallLinkState;
  reset_call_link_expiration : string -> Z -> M W CallLinkUpdateError.t unit;
  delete_call_link : string -> bytes -> M W CallLinkDeleteError.t unit;
  get_call_link_and_record : string -> bool -> M W StorageError.t (option CallLinkState * option CallRecord);
  update_call_link_approved_users : string -> list string -> M W CallLinkUpdateError.t unit
}.

End Storage.

(** ** What the trait promises *)
Module StorageSpec.
Import Storage.

(** How the table keeps a time (whole seconds) and a set of strings (in an order
    of its own). *)
Class StoredForm := {
  timestamp_seconds : Z -> Z;
  string_set : list string -> list string
}.

Class StoredFormLaws `{StoredForm} : Prop := {
  timestamp_seconds_whole s : timestamp_seconds (s * 1000000000) = s;
  string_set_items l : NoDup l -> string_set l ≡ₚ l;
  string_set_nil l : string_set l = [] <-> l = []
}.

Record Tables := mk_tables {
  calls : gmap string CallRecord;      (* by room *)
  links : gmap string CallLinkState    (* by call link room key *)
}.
#[global] Instance tables_eta : Settable Tables := fun t => mk_tables (calls t) (links t).

(** A call is kept under its room. *)
Definition tables_ok (T : Tables) : Prop := map_Forall (fun room c => CallRecord.room_id c = room) (calls T).

Section spec.
Context `{StoredForm}.

Definition stored_time (t : Z) : Z := timestamp_seconds t * 1000000000.

(** What is read of a link when the approved users are not asked for. *)
Definition peek (s : CallLinkState) : CallLinkState := s <| CallLinkState.approved_users := [] |>.

Definition get_call_record (room : string) (T : Tables) : Res StorageError.t (option CallRecord) * Tables :=
  (Ok (calls T !! room), T).

(** The first call of a room stays. *)
Definition get_or_add_call_record (call : CallRecord) (T : Tables) : Res StorageError.t CallRecord * Tables :=
  match calls T !! CallRecord.room_id call with
  | Some c => (Ok c, T)
  | None => (Ok call, T <| calls ::= <[CallRecord.room_id call := call]> |>)
  end.

(** The call of the room is the one of this era. *)
Definition era_matches (T : Tables) (room era : string) : bool :=
  match calls T !! room with
  | Some c => String.eqb (CallRecord.era_id c) era
  | None => false
  end.

(** An older era does not remove a newer call. *)
Definition remove_call_record (room era : string) (T : Tables) : Res StorageError.t unit * Tables :=
  (Ok (), if era_matches T room era then T <| calls ::= delete room |> else T).

Definition key_matches (T : Tables) (k : CallRecordKey) : bool :=
  era_matches T (CallRecordKey.room_id k) (CallRecordKey.era_id k).

Definition remove_all (keys : list CallRecordKey) (T : Tables) : Tables :=
  T <| calls ::= fun m => foldr delete m (CallRecordKey.room_id <$> keys) |>.

(** All or nothing. *)
Definition remove_batch_call_records (keys : list CallRecordKey) (T : Tables) : Res StorageError.t unit * Tables :=
  if (100 <? length keys)%nat then (Err (StorageError.BatchLimitExceeded (length keys) 100), T)
  else if forallb (key_matches T) keys then (Ok (), remove_all keys T)
  else if forallb (fun k => negb (key_matches T k)) keys then (Ok (), T)
  else (Err (StorageError.UnexpectedError "some calls are gone"), T).

Definition get_call_link (room : string) (T : Tables) : Res StorageError.t (option CallLinkState) * Tables :=
  (Ok (peek <$> links T !! call_link_room_key room), T).

Definition apply_update (u : CallLinkUpdate) (s : CallLinkState) : CallLinkState :=
  CallLinkState.mk (CallLinkUpdate.admin_passkey u) (CallLinkState.zkparams s)
    (unwrap_or (CallLinkUpdate.restrictions u) (CallLinkState.restrictions s))
    (unwrap_or (CallLinkUpdate.encrypted_name u) (CallLinkState.encrypted_name s))
    (unwrap_or (CallLinkUpdate.revoked u) (CallLinkState.revoked s))
    (CallLinkState.expiration s) (CallLinkState.delete_at s) (CallLinkState.approved_users s).

Definition new_link (u : CallLinkUpdate) (zkparams : bytes) (now : Z) : CallLinkState :=
  let s := CallLinkState.new (CallLinkUpdate.admin_passkey u) zkparams now in
  apply_update u (s <| CallLinkState.expiration ::= stored_time |> <| CallLinkState.delete_at ::= stored_time |>).

Definition set_link (room : string) (s : CallLinkState) (T : Tables) : Tables :=
  T <| links ::= <[call_link_room_key room := s]> |>.

(** With [zkparams] the link is created, or updated if it was created with the
    same ones; without, it must exist.  Either way the passkey must be the
    link's own. *)
Definition update_call_link (now : Z) (room : string) (u : CallLinkUpdate) (zkparams : option bytes) (T : Tables) :
    Res CallLinkUpdateError.t CallLinkState * Tables :=
  match zkparams, links T !! call_link_room_key room with
  | Some z, None => let s := new_link u z now in (Ok s, set_link room s T)
  | None, None => (Err CallLinkUpdateError.RoomDoesNotExist, T)
  | _, Some s =>
      if bool_decide (CallLinkState.admin_passkey s = CallLinkUpdate.admin_passkey u) &&
         match zkparams with Some z => bool_decide (CallLinkState.zkparams s = z) | None => true end
      then let s := apply_update u s in (Ok s, set_link room s T)
      else (Err CallLinkUpdateError.AdminPasskeyDidNotMatch, T)
  end.

Definition change_link (room : string) (f : CallLinkState -> CallLinkState) (T : Tables) :
    Res CallLinkUpdateError.t unit * Tables :=
  match links T !! call_link_room_key room with
  | Some s => (Ok (), set_link room (f s) T)
  | None => (Err CallLinkUpdateError.RoomDoesNotExist, T)
  end.

Definition reset_call_link_expiration (room : string) (now : Z) :
    Tables -> Res CallLinkUpdateError.t unit * Tables :=
  let expiration := now + CallLinkState.EXPIRATION_TIMER in
  change_link room (fun s =>
    s <| CallLinkState.expiration := stored_time expiration |>
      <| CallLinkState.delete_at := stored_time (expiration + CallLinkState.DELETION_TIMER) |>).

Definition update_call_link_approved_users (room : string) (users : list string) :
    Tables -> Res CallLinkUpdateError.t unit * Tables :=
  change_link room (fun s => s <| CallLinkState.approved_users := string_set users |>).

(** Not while the link's call is active. *)
Definition delete_call_link (room : string) (passkey : bytes) (T : Tables) : Res CallLinkDeleteError.t unit * Tables :=
  match links T !! call_link_room_key room with
  | None => (Err CallLinkDeleteError.RoomDoesNotExist, T)
  | Some s =>
      if negb (bool_decide (CallLinkState.admin_passkey s = passkey))
      then (Err CallLinkDeleteError.AdminPasskeyDidNotMatch, T)
      else match calls T !! call_link_room_key room with
           | Some _ => (Err CallLinkDeleteError.CallRecordConflict, T)
           | None => (Ok (), T <| links ::= delete (call_link_room_key room) |>)
           end
  end.

Definition get_call_link_and_record (room : string) (peek_info_only : bool) (T : Tables) :
    Res StorageError.t (option CallLinkState * option CallRecord) * Tables :=
  (Ok ((if peek_info_only then peek else id) <$> links T !! call_link_room_key room,
       calls T !! call_link_room_key room), T).
End spec.

(** An operation on a remote table does what is asked, or fails without doing it,
    or does it and the answer is lost. *)
Inductive Outcome {E A} (unexpected : E -> Prop) (ideal : Tables -> Res E A * Tables) (T : Tables) :
    Res E A -> Tables -> Prop :=
| answered : Outcome unexpected ideal T (ideal T).1 (ideal T).2
| not_done e : unexpected e -> Outcome unexpected ideal T (Err e) T
| answer_lost e : unexpected e -> Outcome unexpected ideal T (Err e) (ideal T).2.

Definition storage_unexpected (e : StorageError.t) : Prop := exists c, e = StorageError.UnexpectedError c.
Definition update_unexpected (e : CallLinkUpdateError.t) : Prop := exists c, e = CallLinkUpdateError.UnexpectedError c.
Definition delete_unexpected (e : CallLinkDeleteError.t) : Prop := exists c, e = CallLinkDeleteError.UnexpectedError c.

(** An operation on a world implements an operation on the tables it represents. *)
Definition implements {W E A} (represents : W -> Tables -> Prop) (unexpected : E -> Prop) (op : M W E A)
    (ideal : Tables -> Res E A * Tables) : Prop :=
  forall w T, represents w T ->
  exists T', represents (snd (op w)) T' /\ Outcome unexpected ideal T (fst (op w)) T'.

(** The interface that the handlers rely on. *)
Class StorageLaws (W : Type) `{Storage W, StoredForm} := {
  represents : W -> Tables -> Prop;
  represents_ok w T : represents w T -> tables_ok T;
  get_call_record_law room :
    implements represents storage_unexpected (Storage.get_call_record room) (get_call_record room);
  get_or_add_call_record_law call :
    implements represents storage_unexpected (Storage.get_or_add_call_record call) (get_or_add_call_record call);
  remove_call_record_law room era :
    implements represents storage_unexpected (Storage.remove_call_record room era) (remove_call_record room era);
  remove_batch_call_records_law keys :
    implements represents storage_unexpected (Storage.remove_batch_call_records keys) (remove_batch_call_records keys);
  (* an index that may lag behind: nothing is said about what it lists *)
  get_call_records_for_region_law region w T :
    represents w T -> represents (snd (Storage.get_call_records_for_region region w)) T /\
      fst (Storage.get_call_records_for_region region w) <> Panic;
  get_call_link_law room :
    implements represents storage_unexpected (Storage.get_call_link room) (get_call_link room);
  update_call_link_law now room u z :
    implements represents update_unexpected (Storage.update_call_link now room u z) (update_call_link now room u z);
  reset_call_link_expiration_law room now :
    implements represents update_unexpected (Storage.reset_call_link_expiration room now)
      (reset_call_link_expiration room now);
  delete_call_link_law room passkey :
    implements represents delete_unexpected (Storage.delete_call_link room passkey) (delete_call_link room passkey);
  get_call_link_and_record_law room peek_only :
    implements represents storage_unexpected (Storage.get_call_link_and_record room peek_only)
      (get_call_link_and_record room peek_only);
  update_call_link_approved_users_law room users :
    implements represents update_unexpected (Storage.update_call_link_approved_users room users)
      (update_call_link_approved_users room users)
}.

End StorageSpec.

(** The two maps themselves, as a world whose operations never fail. *)
Module StorageSamples.
Import StorageSpec.

Definition plain_form : StoredForm := {| timestamp_seconds t := t / 1000000000; string_set l := l |}.

#[global] Instance plain_form_laws : @StoredFormLaws plain_form.
Proof. split; simpl; [intros; by rewrite Z.div_mul|done|done]. Qed.

Section memory.
Context `{StoredForm}.

Definition memory : Storage.Storage Tables := {|
  Storage.get_call_record := get_call_record;
  Storage.get_or_add_call_record := get_or_add_call_record;
  Storage.remove_call_record := remove_call_record;
  Storage.remove_batch_call_records := remove_batch_call_records;
  Storage.get_call_records_for_region region T :=
    (Ok (filter (fun c => Storage.CallRecord.backend_region c = region) (snd <$> map_to_list (calls T))), T);
  Storage.get_call_link := get_call_link;
  Storage.update_call_link := update_call_link;
  Storage.reset_call_link_expiration := reset_call_link_expiration;
  Storage.delete_call_link := delete_call_link;
  Storage.get_call_link_and_record := get_call_link_and_record;
  Storage.update_call_link_approved_users := update_call_link_approved_users
|}.

Lemma remove_all_ok keys T : tables_ok T -> tables_ok (remove_all keys T).
Proof.
  unfold tables_ok, remove_all. cbn. intros HT. induction keys as [|k keys IH]; [done|]. by apply map_Forall_delete.
Qed.

Lemma memory_implements {E A} unexpected (ideal : Tables -> Res E A * Tables) :
  (forall T, tables_ok T -> tables_ok (ideal T).2) ->
  implements (fun w T => w = T /\ tables_ok T) unexpected ideal ideal.
Proof. intros Hok T _ [<- HT]. eexists. split; [split; [done|by apply Hok]|]. constructor. Qed.

Lemma change_link_ok room f T : tables_ok T -> tables_ok (change_link room f T).2.
Proof. intros HT. unfold change_link. by destruct (links T !! _). Qed.

Lemma update_call_link_ok now room u z T : tables_ok T -> tables_ok (update_call_link now room u z T).2.
Proof.
  intros HT. unfold update_call_link. destruct z, (links T !! _); cbn; try case_match; done.
Qed.

Lemma delete_call_link_ok room passkey T : tables_ok T -> tables_ok (delete_call_link room passkey T).2.
Proof.
  intros HT. unfold delete_call_link. destruct (links T !! _); [|done]. destruct (negb _); [done|]. by destruct (calls T !! _).
Qed.

Lemma get_or_add_call_record_ok call T : tables_ok T -> tables_ok (get_or_add_call_record call T).2.
Proof.
  intros HT. unfold get_or_add_call_record. destruct (calls T !! _); [done|]. by apply map_Forall_insert_2.
Qed.

Lemma remove_call_record_ok room era T : tables_ok T -> tables_ok (remove_call_record room era T).2.
Proof. intros HT. cbn. destruct (era_matches T room era); [|done]. by apply map_Forall_delete. Qed.

Lemma remove_batch_call_records_ok keys T : tables_ok T -> tables_ok (remove_batch_call_records keys T).2.
Proof.
  intros HT. unfold remove_batch_call_records. destruct (_ <? _)%nat; [done|].
  destruct (forallb _ keys); [by apply remove_all_ok|]. by destruct (forallb _ keys).
Qed.

#[refine, global] Instance memory_laws : @StorageLaws Tables memory _ :=
  {| represents w T := w = T /\ tables_ok T |}.
Proof.
  all: try (intros; apply memory_implements; intros ? ?; first [done
    | apply get_or_add_call_record_ok | apply remove_call_record_ok | apply remove_batch_call_records_ok
    | apply update_call_link_ok | apply change_link_ok | apply delete_call_link_ok]; done).
  - by intros w T [_ ?].
  - intros region w T [<- ?]. by split.
Defined.
End memory.
End StorageSamples.
