(* ===== verification/DynamoDb.v ===== *)
(** * DynamoDb: the storage of the frontend in a DynamoDB table

    [src/frontend/src/storage.rs].  The requests that the source builds are data;
    the service that answers them is a parameter, with the behaviour that its
    documentation gives to these requests as laws.  An expression is its syntax
    tree and [render] the text that is sent.  The name of the table is left out:
    there is one. *)
From Stdlib Require Import Ascii.
From stdpp Require Import strings sorting.
From S2P Require Import Prelude Text Storage.

Module Dynamo.
Import Storage.

Inductive AttributeValue :=
| AV_S (s : string)
| AV_B (b : bytes)
| AV_N (n : Z)              (* sent as decimal text *)
| AV_BOOL (b : bool)
| AV_SS (l : list string).

Abbreviation Item := (gmap string AttributeValue).

(** The values of roomId and recordType. *)
Definition Key : Type := string * string.

Definition ROOM_ID_KEY : string := "roomId".
Definition RECORD_TYPE_KEY : string := "recordType".

(** ** Expressions *)
Inductive Clause :=
| Set_ (path value : string)
| SetIfNotExists (path value : string).

Inductive UpdateExpression :=
| SetAll (clauses : list Clause)
| Remove (path : string).

Inductive Condition :=
| Equals (path value : string)
| Exists (path : string)
| NotExists (path : string)
| And (a b : Condition)
| Or (a b : Condition).

Definition render_clause (c : Clause) : string :=
  match c with
  | Set_ p v => p +:+ " = " +:+ v
  | SetIfNotExists p v => p +:+ " = if_not_exists(" +:+ p +:+ ", " +:+ v +:+ ")"
  end.

Definition render_update (e : UpdateExpression) : string :=
  match e with
  | SetAll cs => "SET " +:+ join "," (render_clause <$> cs)
  | Remove p => "REMOVE " +:+ p
  end.

(** ** Requests *)
Record UpdateItem := update_item_request {
  u_key : Key;
  u_update : UpdateExpression;
  u_condition : option Condition;
  u_names : gmap string string;
  u_values : gmap string AttributeValue
}.

Record DeleteItem := delete_item_request {
  d_key : Key;
  d_condition : Condition;
  d_values : gmap string AttributeValue
}.

Inductive TransactWriteItem :=
| TransactDelete (d : DeleteItem)
| TransactCheck (key : Key) (condition : Condition).

Inductive WriteError :=
| ConditionalCheckFailed
| OtherWriteError.

Inductive TransactError :=
| TransactionCanceled (reasons : list (option string))
| OtherTransactError.

Inductive ReadError := OtherReadError.

(** The client of the AWS SDK.  [update_item] asks for all new attributes. *)
Class DynamoClient (W : Type) := {
  send_get_item : Key -> option (list string) -> M W ReadError (option Item);
  send_update_item : UpdateItem -> M W WriteError (option Item);
  send_delete_item : DeleteItem -> M W WriteError unit;
  send_transact_write_items : list TransactWriteItem -> M W TransactError unit;
  send_query_room : string -> option (list string) -> M W ReadError (option (list Item));
  send_query_region : string -> M W ReadError (option (list Item))
}.

(** ** What the service does with them *)

(** An alias stands for the name it is given; other names for themselves. *)
Definition resolve (names : gmap string string) (path : string) : option string :=
  if starts_with "#" path then names !! path else Some path.

Definition key_attributes (k : Key) : Item :=
  <[ROOM_ID_KEY := AV_S (fst k)]> {[RECORD_TYPE_KEY := AV_S (snd k)]}.

#[global] Instance AttributeValue_eq_dec : EqDecision AttributeValue.
Proof. solve_decision. Defined.

Fixpoint holds (names : gmap string string) (values : gmap string AttributeValue) (item : Item) (c : Condition) : bool :=
  match c with
  | Equals p v =>
      match resolve names p with
      | Some a => match item !! a, values !! v with
                  | Some x, Some y => bool_decide (x = y)
                  | _, _ => false
                  end
      | None => false
      end
  | Exists p => match resolve names p with Some a => bool_decide (is_Some (item !! a)) | None => false end
  | NotExists p => match resolve names p with Some a => bool_decide (item !! a = None) | None => false end
  | And a b => holds names values item a && holds names values item b
  | Or a b => holds names values item a || holds names values item b
  end.

(** A set of strings is kept in an order of the table's own. *)
Definition kept `{StorageSpec.StoredForm} (v : AttributeValue) : AttributeValue :=
  match v with
  | AV_SS l => AV_SS (StorageSpec.string_set l)
  | v => v
  end.

Definition assignment `{StorageSpec.StoredForm} (names : gmap string string) (values : gmap string AttributeValue)
    (item : Item) (c : Clause) : option (string * AttributeValue) :=
  match c with
  | Set_ p v => a ← resolve names p; x ← values !! v; Some (a, kept x)
  | SetIfNotExists p v => a ← resolve names p; x ← values !! v; Some (a, unwrap_or (item !! a) (kept x))
  end.

(** All right-hand sides read the item as it was; an attribute may be assigned once. *)
Definition updated `{StorageSpec.StoredForm} (names : gmap string string) (values : gmap string AttributeValue)
    (item : Item) (e : UpdateExpression) : option Item :=
  match e with
  | SetAll cs =>
      assignments ← mapM (assignment names values item) cs;
      if bool_decide (NoDup (fst <$> assignments)) then Some (list_to_map assignments ∪ item) else None
  | Remove p => a ← resolve names p; Some (delete a item)
  end.

Definition project (attributes : option (list string)) (item : Item) : Item :=
  match attributes with
  | None => item
  | Some l => filter (fun e => e.1 ∈ l) item
  end.

Definition check (rows : gmap Key Item) (i : TransactWriteItem) : bool :=
  match i with
  | TransactDelete d => holds ∅ (d_values d) (unwrap_or (rows !! d_key d) ∅) (d_condition d)
  | TransactCheck k c => holds ∅ ∅ (unwrap_or (rows !! k) ∅) c
  end.

Definition perform (i : TransactWriteItem) (rows : gmap Key Item) : gmap Key Item :=
  match i with
  | TransactDelete d => delete (d_key d) rows
  | TransactCheck _ _ => rows
  end.

Definition item_key (i : TransactWriteItem) : Key :=
  match i with TransactDelete d => d_key d | TransactCheck k _ => k end.

Definition CONDITIONAL_CHECK_FAILED : string := "ConditionalCheckFailed".

Definition reason (rows : gmap Key Item) (i : TransactWriteItem) : option string :=
  Some (if check rows i then "None" else CONDITIONAL_CHECK_FAILED).

(** The old item of an update is empty but for its key when there was none. *)
Definition old_item (rows : gmap Key Item) (k : Key) : Item := unwrap_or (rows !! k) ∅.

(** Each request is answered, or fails; a write that fails for another reason
    than its conditions may still have been done.  Reads are consistent. *)
Class DynamoLaws (W : Type) `{DynamoClient W, StorageSpec.StoredForm} := {
  rows : W -> gmap Key Item;
  (* an item has its key *)
  row_type_law w key item : rows w !! key = Some item -> item !! RECORD_TYPE_KEY = Some (AV_S (snd key));
  get_item_law key attributes w :
    rows (snd (send_get_item key attributes w)) = rows w /\
    (fst (send_get_item key attributes w) = Ok (project attributes <$> rows w !! key) \/
     fst (send_get_item key attributes w) = Err OtherReadError);
  update_item_law r w :
    let old := old_item (rows w) (u_key r) in
    let allowed := match u_condition r with Some c => holds (u_names r) (u_values r) old c | None => true end in
    let new := updated (u_names r) (u_values r) (key_attributes (u_key r) ∪ old) (u_update r) in
    let result := send_update_item r w in
    (exists item, allowed = true /\ new = Some item /\ rows (snd result) = <[u_key r := item]> (rows w) /\
       (fst result = Ok (Some item) \/ fst result = Err OtherWriteError)) \/
    (rows (snd result) = rows w /\
       (allowed = false /\ fst result = Err ConditionalCheckFailed \/ fst result = Err OtherWriteError));
  delete_item_law r w :
    let allowed := holds ∅ (d_values r) (old_item (rows w) (d_key r)) (d_condition r) in
    let result := send_delete_item r w in
    (allowed = true /\ rows (snd result) = delete (d_key r) (rows w) /\
       (fst result = Ok () \/ fst result = Err OtherWriteError)) \/
    (rows (snd result) = rows w /\
       (allowed = false /\ fst result = Err ConditionalCheckFailed \/ fst result = Err OtherWriteError));
  transact_law items w :
    let allowed := forallb (check (rows w)) items in
    let result := send_transact_write_items items w in
    (allowed = true /\ NoDup (item_key <$> items) /\ rows (snd result) = foldr perform (rows w) items /\
       (fst result = Ok () \/ fst result = Err OtherTransactError)) \/
    (rows (snd result) = rows w /\
       (allowed = false /\ fst result = Err (TransactionCanceled (reason (rows w) <$> items)) \/
        fst result = Err OtherTransactError));
  query_room_law room attributes w :
    rows (snd (send_query_room room attributes w)) = rows w /\
    ((exists l, fst (send_query_room room attributes w) = Ok (Some l) /\
        l ≡ₚ (project attributes ∘ snd) <$> map_to_list (filter (fun e => e.1.1 = room) (rows w))) \/
     fst (send_query_room room attributes w) = Err OtherReadError);
  query_region_law region w :
    rows (snd (send_query_region region w)) = rows w /\ fst (send_query_region region w) <> Panic
}.

End Dynamo.

(** ** Records as items (the [serde] attributes of the records) *)
Module Items.
Import Storage Dynamo.

Section items.
Context `{StorageSpec.StoredForm}.

Definition restrictions_name (r : CallLinkRestrictions) : string :=
  match r with NoRestrictions => "none" | AdminApproval => "adminApproval" end.

Definition restrictions_of (s : string) : option CallLinkRestrictions :=
  if String.eqb s "none" then Some NoRestrictions
  else if String.eqb s "adminApproval" then Some AdminApproval else None.

(** The room is not serialized: it is the key. *)
Definition call_to_item (c : CallRecord) : Item :=
  list_to_map [("eraId", AV_S (CallRecord.era_id c)); ("backendIp", AV_S (CallRecord.backend_ip c));
    ("region", AV_S (CallRecord.backend_region c)); ("creator", AV_S (CallRecord.creator c))].

Definition get_s (i : Item) (k : string) : option string :=
  match i !! k with Some (AV_S s) => Some s | _ => None end.
Definition get_b (i : Item) (k : string) : option bytes :=
  match i !! k with Some (AV_B b) => Some b | _ => None end.
Definition get_bool (i : Item) (k : string) : option bool :=
  match i !! k with Some (AV_BOOL b) => Some b | _ => None end.
Definition get_time (i : Item) (k : string) : option Z :=
  match i !! k with Some (AV_N n) => Some (n * 1000000000) | _ => None end.

Definition call_from_item (i : Item) : option CallRecord :=
  room ← get_s i "roomId"; era ← get_s i "eraId"; ip ← get_s i "backendIp";
  region ← get_s i "region"; creator ← get_s i "creator";
  Some (CallRecord.mk room era ip region creator).

Definition link_to_item (s : CallLinkState) : Item :=
  let required : Item := list_to_map
    [("adminPasskey", AV_B (CallLinkState.admin_passkey s)); ("zkparams", AV_B (CallLinkState.zkparams s));
     ("restrictions", AV_S (restrictions_name (CallLinkState.restrictions s)));
     ("encryptedName", AV_B (CallLinkState.encrypted_name s)); ("revoked", AV_BOOL (CallLinkState.revoked s));
     ("expiration", AV_N (StorageSpec.timestamp_seconds (CallLinkState.expiration s)));
     ("deleteAt", AV_N (StorageSpec.timestamp_seconds (CallLinkState.delete_at s)))] in
  match CallLinkState.approved_users s with
  | [] => required
  | users => <["approvedUsers" := AV_SS users]> required
  end.

Definition link_from_item (i : Item) : option CallLinkState :=
  passkey ← get_b i "adminPasskey"; zkparams ← get_b i "zkparams";
  restrictions ← (get_s i "restrictions" ≫= restrictions_of); name ← get_b i "encryptedName";
  revoked ← get_bool i "revoked"; expiration ← get_time i "expiration"; delete_at ← get_time i "deleteAt";
  approved_users ← match i !! "approvedUsers" with
                   | None => Some []
                   | Some (AV_SS l) => Some l
                   | Some _ => None
                   end;
  Some (CallLinkState.mk passkey zkparams restrictions name revoked expiration delete_at approved_users).

(** [skip_serializing_none] *)
Definition update_to_item (u : CallLinkUpdate) : Item :=
  let add {A} (k : string) (f : A -> AttributeValue) (o : option A) (i : Item) : Item :=
    match o with Some x => <[k := f x]> i | None => i end in
  add "restrictions" (fun r => AV_S (restrictions_name r)) (CallLinkUpdate.restrictions u)
    (add "encryptedName" AV_B (CallLinkUpdate.encrypted_name u)
      (add "revoked" AV_BOOL (CallLinkUpdate.revoked u)
        {["adminPasskey" := AV_B (CallLinkUpdate.admin_passkey u)]})).
End items.
End Items.

(** ** [UpsertableItem] *)
Module UpsertableItem.
Import Dynamo.

Record t := mk { update_attributes : Item; default_attributes : Item }.

Definition new (update_attributes default_attributes : Item) : t := mk update_attributes default_attributes.
Definition with_updates (attributes : Item) : t := new attributes ∅.
Definition with_defaults (attributes : Item) : t := new ∅ attributes.

Definition keys (i : Item) : list string := fst <$> map_to_list i.

(** The clauses, ordered by the text that is sent; without any, the source panics. *)
Definition generate_update_expression {E} (self : t) : Res E UpdateExpression :=
  let update_expressions := (fun k => Set_ ("#" +:+ k) (":" +:+ k)) <$> keys (update_attributes self) in
  let default_expressions :=
    (fun k => SetIfNotExists ("#" +:+ k) (":" +:+ k)) <$>
      filter (fun k => update_attributes self !! k = None) (keys (default_attributes self)) in
  let expressions := update_expressions ++ default_expressions in
  _ ← assert_ (negb (length expressions =? 0)%nat);
  Ok (SetAll (merge_sort (fun a b => String.le (render_clause a) (render_clause b)) expressions)).

Definition generate_attribute_names (self : t) : gmap string string :=
  list_to_map ((fun k => ("#" +:+ k, k)) <$> keys (update_attributes self) ++ keys (default_attributes self)).

(** Of an attribute in both, the update's value is taken. *)
Definition into_attribute_values (self : t) : gmap string AttributeValue :=
  list_to_map ((fun e => (":" +:+ e.1, e.2)) <$>
    map_to_list (update_attributes self) ++ map_to_list (default_attributes self)).
End UpsertableItem.

(** ** [impl Storage for DynamoDb] *)
Module DynamoDb.
Import Storage Dynamo Items.

Definition TRANSACT_WRITE_ITEMS_LIMIT : nat := 100.

Section operations.
Context {W : Type} `{DynamoClient W, StorageSpec.StoredForm}.

Definition read_error (context : string) (e : ReadError) : StorageError.t := StorageError.UnexpectedError context.

(** [item.map(from_item).transpose()] *)
Definition convert {A} (from_item : Item -> option A) (context : string) (item : option Item) :
    Res StorageError.t (option A) :=
  match item with
  | Some i => Some <$> ok_or (StorageError.UnexpectedError context) (from_item i)
  | None => Ok None
  end.

Definition get_call_record (room_id : string) : M W StorageError.t (option CallRecord) :=
  item ← map_err_m (read_error "failed to get_item from storage")
           (send_get_item (room_id, CallRecord.RECORD_TYPE) None);
  lift (convert call_from_item "failed to convert item to CallRecord" item).

Definition get_or_add_call_record (call : CallRecord) : M W StorageError.t CallRecord :=
  let call_as_item := UpsertableItem.with_defaults (call_to_item call) in
  expression ← lift (UpsertableItem.generate_update_expression call_as_item);
  response ← attempt (send_update_item
    (update_item_request (CallRecord.room_id call, CallRecord.RECORD_TYPE) expression None
      (UpsertableItem.generate_attribute_names call_as_item)
      (UpsertableItem.into_attribute_values call_as_item)));
  match response with
  | inr attributes =>
      attributes ← lift (unwrap attributes);
      lift (ok_or (StorageError.UnexpectedError "failed to convert item to CallRecord") (call_from_item attributes))
  | inl _ => fail (StorageError.UnexpectedError "failed to update_item in storage for get_or_add_call_record")
  end.

Definition era_is_value : Condition := Equals "eraId" ":value".

Definition call_delete (room_id era_id : string) : DeleteItem :=
  delete_item_request (room_id, CallRecord.RECORD_TYPE) era_is_value {[":value" := AV_S era_id]}.

Definition remove_call_record (room_id era_id : string) : M W StorageError.t unit :=
  response ← attempt (send_delete_item (call_delete room_id era_id));
  match response with
  | inr _ => mret ()
  | inl ConditionalCheckFailed => mret ()
  | inl OtherWriteError => fail (StorageError.UnexpectedError "")
  end.

Definition remove_batch_call_records (call_keys : list CallRecordKey) : M W StorageError.t unit :=
  match call_keys with
  | [] => mret ()
  | [k] => remove_call_record (CallRecordKey.room_id k) (CallRecordKey.era_id k)
  | _ =>
      if (TRANSACT_WRITE_ITEMS_LIMIT <? length call_keys)%nat
      then fail (StorageError.BatchLimitExceeded (length call_keys) TRANSACT_WRITE_ITEMS_LIMIT)
      else
        response ← attempt (send_transact_write_items
          ((fun k => TransactDelete (call_delete (CallRecordKey.room_id k) (CallRecordKey.era_id k))) <$> call_keys));
        match response with
        | inr _ => mret ()
        | inl (TransactionCanceled reasons) =>
            if forallb (fun r => bool_decide (r = Some CONDITIONAL_CHECK_FAILED)) reasons then mret ()
            else fail (StorageError.UnexpectedError "")
        | inl OtherTransactError => fail (StorageError.UnexpectedError "")
        end
  end.

Definition get_call_records_for_region (region : string) : M W StorageError.t (list CallRecord) :=
  items ← map_err_m (read_error "failed to query for calls in a region") (send_query_region region);
  match items with
  | Some items =>
      lift (ok_or (StorageError.UnexpectedError "failed to convert item to CallRecord") (mapM call_from_item items))
  | None => mret []
  end.

Definition link_key (room_id : string) : Key := (call_link_room_key room_id, CallLinkState.RECORD_TYPE).

Definition get_call_link (room_id : string) : M W StorageError.t (option CallLinkState) :=
  item ← map_err_m (read_error "failed to get_item from storage")
           (send_get_item (link_key room_id) (Some (split "," CallLinkState.PEEK_ATTRIBUTES)));
  lift (convert link_from_item "failed to convert item to CallLinkState" item).

(** A link may be created where there is none, and updated by whoever knows its passkey. *)
Definition create_condition : Condition :=
  And (Or (Equals "adminPasskey" ":adminPasskey") (NotExists "adminPasskey"))
      (Or (Equals "zkparams" ":zkparams") (NotExists "zkparams")).
Definition update_condition : Condition := Equals "adminPasskey" ":adminPasskey".

Definition update_call_link (now : Z) (room_id : string) (new_attributes : CallLinkUpdate)
    (zkparams_for_creation : option bytes) : M W CallLinkUpdateError.t CallLinkState :=
  let updates := update_to_item new_attributes in
  let '(call_as_item, must_exist, condition) :=
    match zkparams_for_creation with
    | Some zkparams =>
        (UpsertableItem.new updates
           (link_to_item (CallLinkState.new (CallLinkUpdate.admin_passkey new_attributes) zkparams now)),
         false, create_condition)
    | None => (UpsertableItem.with_updates updates, true, update_condition)
    end in
  expression ← lift (UpsertableItem.generate_update_expression call_as_item);
  response ← attempt (send_update_item
    (update_item_request (link_key room_id) expression (Some condition)
      (UpsertableItem.generate_attribute_names call_as_item)
      (UpsertableItem.into_attribute_values call_as_item)));
  match response with
  | inr attributes =>
      attributes ← lift (unwrap attributes);
      lift (ok_or (CallLinkUpdateError.UnexpectedError "failed to convert item to CallLinkState")
              (link_from_item attributes))
  | inl ConditionalCheckFailed =>
      if negb must_exist then fail CallLinkUpdateError.AdminPasskeyDidNotMatch
      else
        existing ← attempt (get_call_link room_id);
        match existing with
        | inr (Some _) => fail CallLinkUpdateError.AdminPasskeyDidNotMatch
        | inr None => fail CallLinkUpdateError.RoomDoesNotExist
        | inl _ => fail (CallLinkUpdateError.UnexpectedError
            "failed to check for existing room after failing to update_item in storage for update_call_link")
        end
  | inl OtherWriteError =>
      fail (CallLinkUpdateError.UnexpectedError "failed to update_item in storage for update_call_link")
  end.

Definition delete_call_link (room_id : string) (admin_passkey : bytes) : M W CallLinkDeleteError.t unit :=
  let room_id_key := call_link_room_key room_id in
  let delete_link := TransactDelete (delete_item_request (room_id_key, CallLinkState.RECORD_TYPE)
    (Equals "adminPasskey" ":adminPassKey") {[":adminPassKey" := AV_B admin_passkey]}) in
  let active_call_check := TransactCheck (room_id_key, CallRecord.RECORD_TYPE) (NotExists ROOM_ID_KEY) in
  response ← attempt (send_transact_write_items [delete_link; active_call_check]);
  match response with
  | inr _ => mret ()
  | inl (TransactionCanceled reasons) =>
      first ← lift (idx reasons 0);
      if bool_decide (first = Some CONDITIONAL_CHECK_FAILED) then
        existing ← attempt (get_call_link room_id);
        match existing with
        | inr (Some _) => fail CallLinkDeleteError.AdminPasskeyDidNotMatch
        | inr None => fail CallLinkDeleteError.RoomDoesNotExist
        | inl _ => fail (CallLinkDeleteError.UnexpectedError
            "failed to check for existing room after failing to transact_write_items in storage for delete_call_link")
        end
      else
        second ← lift (idx reasons 1);
        if bool_decide (second = Some CONDITIONAL_CHECK_FAILED) then fail CallLinkDeleteError.CallRecordConflict
        else fail (CallLinkDeleteError.UnexpectedError "")
  | inl OtherTransactError => fail (CallLinkDeleteError.UnexpectedError "")
  end.

(** An update of a link that must exist. *)
Definition update_existing_link (room_id : string) (update : UpdateExpression) (values : gmap string AttributeValue)
    (context : string) : M W CallLinkUpdateError.t unit :=
  response ← attempt (send_update_item
    (update_item_request (link_key room_id) update (Some (Exists RECORD_TYPE_KEY)) ∅ values));
  match response with
  | inr _ => mret ()
  | inl ConditionalCheckFailed => fail CallLinkUpdateError.RoomDoesNotExist
  | inl OtherWriteError => fail (CallLinkUpdateError.UnexpectedError context)
  end.

Definition reset_call_link_expiration (room_id : string) (now : Z) : M W CallLinkUpdateError.t unit :=
  let expiration := now + CallLinkState.EXPIRATION_TIMER in
  let delete_at := expiration + CallLinkState.DELETION_TIMER in
  update_existing_link room_id
    (SetAll [Set_ "expiration" ":newExpiration"; Set_ "deleteAt" ":newDeleteAt"])
    (<[":newExpiration" := AV_N (StorageSpec.timestamp_seconds expiration)]>
      {[":newDeleteAt" := AV_N (StorageSpec.timestamp_seconds delete_at)]})
    "failed to update_item in storage for reset_call_link_expiration".

Definition update_call_link_approved_users (room_id : string) (approved_users : list string) :
    M W CallLinkUpdateError.t unit :=
  let '(update, values) :=
    match approved_users with
    | [] => (Remove "approvedUsers", ∅)
    | _ => (SetAll [Set_ "approvedUsers" ":value"], {[":value" := AV_SS approved_users]})
    end in
  update_existing_link room_id update values
    "failed to update_item in storage for update_call_link_approved_users".

(** The attributes of a projection, the alias of the reserved word replaced. *)
Definition peek_attributes : list string :=
  RECORD_TYPE_KEY :: split "," CallLinkState.PEEK_ATTRIBUTES ++
    ((fun a => if String.eqb a "#region" then "region" else a) <$> split "," CallRecord.ATTRIBUTES).

(** The records of a room, told apart by their type. *)
Fixpoint read_records (items : list Item) (link_state : option CallLinkState) (call_record : option CallRecord) :
    Res StorageError.t (option CallLinkState * option CallRecord) :=
  match items with
  | [] => Ok (link_state, call_record)
  | item :: items =>
      match item !! RECORD_TYPE_KEY with
      | Some (AV_S record_type) =>
          if String.eqb record_type CallRecord.RECORD_TYPE then
            c ← ok_or (StorageError.UnexpectedError "failed to convert item to CallRecord") (call_from_item item);
            read_records items link_state (Some c)
          else if String.eqb record_type CallLinkState.RECORD_TYPE then
            s ← ok_or (StorageError.UnexpectedError "failed to convert item to CallLinkState") (link_from_item item);
            read_records items (Some s) call_record
          else read_records items link_state call_record
      | _ => read_records items link_state call_record
      end
  end.

Definition get_call_link_and_record (room_id : string) (peek_info_only : bool) :
    M W StorageError.t (option CallLinkState * option CallRecord) :=
  items ← map_err_m (read_error "failed to query for call link and record from storage")
    (send_query_room (call_link_room_key room_id) (if peek_info_only then Some peek_attributes else None));
  match items with
  | Some items => lift (read_records items None None)
  | None => mret (None, None)
  end.

#[global] Instance dynamo_storage : Storage W := {|
  Storage.get_call_record := get_call_record;
  Storage.get_or_add_call_record := get_or_add_call_record;
  Storage.remove_call_record := remove_call_record;
  Storage.remove_batch_call_records := remove_batch_call_records;
  Storage.get_call_records_for_region := get_call_records_for_region;
  Storage.get_call_link := get_call_link;
  Storage.update_call_link := update_call_link;
  Storage.reset_call_link_expiration := reset_call_link_expiration;
  Storage.delete_call_link := delete_call_link;
  Storage.get_call_link_and_record := get_call_link_and_record;
  Storage.update_call_link_approved_users := update_call_link_approved_users
|}.
End operations.
End DynamoDb.

