(* ===== verification/DynamoFacts.v ===== *)
(** * DynamoFacts: the table implements the storage

    What an upsert does, how rows stand for calls and links, and that each
    operation of [DynamoDb] implements the one of [StorageSpec] of its name. *)
From Stdlib Require Import Ascii.
From stdpp Require Import strings sorting.
From S2P Require Import Prelude Text Storage DynamoDb.

Module DynamoFacts.
Import Storage StorageSpec Dynamo Items.

Lemma keys_elem (i : Item) k : k ∈ UpsertableItem.keys i <-> exists v, i !! k = Some v.
Proof.
  unfold UpsertableItem.keys. rewrite list_elem_of_fmap. split.
  - intros ([k' v] & -> & H%elem_of_map_to_list). by exists v.
  - intros [v H]. exists (k, v). split; [done|]. by apply elem_of_map_to_list.
Qed.

Section upsert.
Context `{StoredForm}.
Implicit Types (u d item : Item).

Lemma names_lookup u d k :
  is_Some (u !! k) \/ is_Some (d !! k) ->
  UpsertableItem.generate_attribute_names (UpsertableItem.mk u d) !! ("#" +:+ k) = Some k.
Proof.
  intros Hk. unfold UpsertableItem.generate_attribute_names. apply elem_of_list_to_map'.
  - intros y _ (k' & E & _)%list_elem_of_fmap. pose proof (f_equal fst E) as E1. pose proof (f_equal snd E) as E2.
    apply (inj (String.append "#")) in E1. simpl in E2. congruence.
  - apply list_elem_of_fmap. exists k. split; [done|]. apply elem_of_app. rewrite !keys_elem. destruct Hk as [[v Hv]|[v Hv]]; eauto.
Qed.

Lemma values_lookup u d k :
  UpsertableItem.into_attribute_values (UpsertableItem.mk u d) !! (":" +:+ k) = (u ∪ d) !! k.
Proof.
  unfold UpsertableItem.into_attribute_values. simpl.
  rewrite fmap_app, list_to_map_app, !lookup_union. f_equal.
  - exact (lookup_kmap (String.append ":") u k).
  - exact (lookup_kmap (String.append ":") d k).
Qed.

(** The keys whose attributes an upsert assigns, and the clause and value of each. *)
Definition assigned_keys u d : list string :=
  UpsertableItem.keys u ++ filter (fun k => u !! k = None) (UpsertableItem.keys d).

Definition clause_of u (k : string) : Clause :=
  match u !! k with
  | Some _ => Set_ ("#" +:+ k) (":" +:+ k)
  | None => SetIfNotExists ("#" +:+ k) (":" +:+ k)
  end.

Definition assigned u d item (k : string) : AttributeValue :=
  match u !! k with
  | Some x => kept x
  | None => unwrap_or (item !! k) (kept (unwrap_or (d !! k) (AV_N 0)))
  end.

Lemma assigned_keys_elem u d k : k ∈ assigned_keys u d <-> is_Some ((u ∪ d) !! k).
Proof.
  unfold assigned_keys. rewrite elem_of_app, list_elem_of_filter, !keys_elem, lookup_union.
  destruct (u !! k), (d !! k); simpl; naive_solver.
Qed.

Lemma assigned_keys_NoDup u d : NoDup (assigned_keys u d).
Proof.
  apply NoDup_app. split_and!.
  - apply NoDup_fst_map_to_list.
  - intros k Hk (Hu & _)%list_elem_of_filter. apply keys_elem in Hk as [v Hv]. congruence.
  - apply NoDup_filter, NoDup_fst_map_to_list.
Qed.

Lemma update_expressions_eq u d :
  ((fun k => Set_ ("#" +:+ k) (":" +:+ k)) <$> UpsertableItem.keys u) ++
  ((fun k => SetIfNotExists ("#" +:+ k) (":" +:+ k)) <$> filter (fun k => u !! k = None) (UpsertableItem.keys d)) =
  clause_of u <$> assigned_keys u d.
Proof.
  unfold assigned_keys. rewrite fmap_app. f_equal; apply list_fmap_ext; intros i k Hk%list_elem_of_lookup_2; unfold clause_of.
  - apply keys_elem in Hk as [v ->]. done.
  - apply list_elem_of_filter in Hk as [-> _]. done.
Qed.

Lemma assignment_clause u d item k :
  is_Some ((u ∪ d) !! k) ->
  assignment (UpsertableItem.generate_attribute_names (UpsertableItem.mk u d))
    (UpsertableItem.into_attribute_values (UpsertableItem.mk u d)) item (clause_of u k) = Some (k, assigned u d item k).
Proof.
  intros [v Hv]. unfold clause_of, assigned.
  assert (resolve (UpsertableItem.generate_attribute_names (UpsertableItem.mk u d)) ("#" +:+ k) = Some k) as Hr.
  { unfold resolve. rewrite starts_with_app. apply names_lookup. rewrite lookup_union in Hv.
    destruct (u !! k), (d !! k); naive_solver. }
  rewrite lookup_union in Hv.
  destruct (u !! k) as [x|] eqn:U; simpl; rewrite Hr, values_lookup, lookup_union, U; simpl.
  - by destruct (d !! k).
  - destruct (d !! k); [done|discriminate Hv].
Qed.

(** What an upsert does: the updates, then what the item had, then the defaults. *)
Lemma upsert_spec E u d item :
  (exists k, is_Some ((u ∪ d) !! k)) ->
  let self := UpsertableItem.mk u d in
  exists e, @UpsertableItem.generate_update_expression E self = Ok e /\
    updated (UpsertableItem.generate_attribute_names self) (UpsertableItem.into_attribute_values self) item e =
      Some ((kept <$> u) ∪ (item ∪ (kept <$> d))).
Proof.
  intros [k0 Hk0] self. subst self. unfold UpsertableItem.generate_update_expression. cbn zeta.
  cbn [UpsertableItem.update_attributes UpsertableItem.default_attributes].
  rewrite update_expressions_eq, length_fmap.
  destruct (assigned_keys u d) as [|k1 K] eqn:EK.
  { apply assigned_keys_elem in Hk0. rewrite EK in Hk0. inversion Hk0. }
  rewrite <- EK. replace (length (assigned_keys u d) =? 0)%nat with false by (by rewrite EK). clear EK.
  eexists. split; [reflexivity|]. set (cs := merge_sort _ _).
  assert (cs ≡ₚ clause_of u <$> assigned_keys u d) as Hp by apply merge_sort_Permutation.
  apply Permutation_map_inv in Hp as (K' & -> & HK). fold (fmap (M:=list) (clause_of u)). simpl.
  assert (NoDup K') as HN by (rewrite <- HK; apply assigned_keys_NoDup).
  assert (forall k, k ∈ K' <-> is_Some ((u ∪ d) !! k)) as Hin by (intros k; rewrite <- HK; apply assigned_keys_elem).
  change (map (clause_of u) K') with (clause_of u <$> K').
  assert (mapM (assignment (UpsertableItem.generate_attribute_names (UpsertableItem.mk u d))
    (UpsertableItem.into_attribute_values (UpsertableItem.mk u d)) item) (clause_of u <$> K') = Some ((fun k => (k, assigned u d item k)) <$> K')) as ->.
  { assert (forall k, k ∈ K' -> is_Some ((u ∪ d) !! k)) as Hin' by (intros k Hk; by apply Hin). clear Hin HN HK.
    induction K' as [|k K' IH]; [done|]. rewrite !fmap_cons. simpl mapM.
    rewrite assignment_clause by (apply Hin'; by left). simpl. rewrite IH; [done|]. intros k' Hk'. apply Hin'. by right. }
  simpl. rewrite <- list_fmap_compose. simpl. rewrite list_fmap_id.
  rewrite bool_decide_true by done. f_equal. apply map_eq. intros k.
  assert ((list_to_map ((fun k => (k, assigned u d item k)) <$> K') : Item) !! k =
    (if bool_decide (is_Some ((u ∪ d) !! k)) then Some (assigned u d item k) else None : option AttributeValue)) as Hl.
  { case_bool_decide as Hk.
    - apply elem_of_list_to_map; [rewrite <- list_fmap_compose; simpl; by rewrite list_fmap_id|].
      apply list_elem_of_fmap. exists k. split; [done|]. by apply Hin.
    - apply not_elem_of_list_to_map. rewrite <- list_fmap_compose. simpl. rewrite list_fmap_id. by rewrite Hin. }
  rewrite lookup_union, Hl, !lookup_union, !lookup_fmap. unfold assigned.
  destruct (u !! k), (d !! k), (item !! k); simpl; done.
Qed.
End upsert.

(** *** The rows of the table *)
Section rows.
Context `{StoredForm}.

(** A call and a link as rows. *)
Definition call_row (c : CallRecord) : Item :=
  key_attributes (CallRecord.room_id c, CallRecord.RECORD_TYPE) ∪ call_to_item c.

Definition link_row (key : string) (s : CallLinkState) : Item :=
  key_attributes (key, CallLinkState.RECORD_TYPE) ∪ link_to_item s.

(** The times of a link are as the table keeps them. *)
Definition stored_link (s : CallLinkState) : Prop :=
  stored_time (CallLinkState.expiration s) = CallLinkState.expiration s /\
  stored_time (CallLinkState.delete_at s) = CallLinkState.delete_at s.

#[local] Arguments call_row : simpl never.
#[local] Arguments link_row : simpl never.
#[local] Arguments project : simpl never.

(** The attributes that a read of a link asks for. *)
Definition wanted (peek_info_only : bool) : option (list string) :=
  if peek_info_only then Some DynamoDb.peek_attributes else None.

Lemma call_row_read peek_only c : call_from_item (project (wanted peek_only) (call_row c)) = Some c.
Proof. destruct c, peek_only; vm_compute; reflexivity. Qed.

Lemma call_row_read_all c : call_from_item (call_row c) = Some c.
Proof. exact (call_row_read false c). Qed.

Lemma stored_eta s (f : CallLinkState -> CallLinkState) :
  stored_link s ->
  f (s <| CallLinkState.expiration := timestamp_seconds (CallLinkState.expiration s) * 1000000000 |>
       <| CallLinkState.delete_at := timestamp_seconds (CallLinkState.delete_at s) * 1000000000 |>) = f s.
Proof. intros [He Hd]. destruct s. unfold stored_time in *. cbn in *. by rewrite He, Hd. Qed.

Lemma link_row_read peek_only key s :
  stored_link s ->
  link_from_item (project (wanted peek_only) (link_row key s)) = Some ((if peek_only then peek else id) s).
Proof.
  intros Hst. rewrite <- (stored_eta s (if peek_only then peek else id)) by done. clear Hst.
  destruct s as [? ? [] ? ? ? ? []], peek_only; vm_compute; reflexivity.
Qed.

Lemma link_row_peek key s :
  stored_link s ->
  link_from_item (project (Some (split "," CallLinkState.PEEK_ATTRIBUTES)) (link_row key s)) = Some (peek s).
Proof.
  intros Hst. rewrite <- (stored_eta s peek) by done. clear Hst.
  destruct s as [? ? [] ? ? ? ? []]; vm_compute; reflexivity.
Qed.

Lemma link_row_read_all key s : stored_link s -> link_from_item (link_row key s) = Some s.
Proof.
  intros Hst. change (Some s) with (Some (id s)). rewrite <- (stored_eta s id) by done. clear Hst.
  destruct s as [? ? [] ? ? ? ? []]; vm_compute; reflexivity.
Qed.

Lemma row_types key c s :
  call_row c !! RECORD_TYPE_KEY = Some (AV_S CallRecord.RECORD_TYPE) /\
  link_row key s !! RECORD_TYPE_KEY = Some (AV_S CallLinkState.RECORD_TYPE).
Proof. split; [by destruct c|by destruct s as [? ? ? ? ? ? ? []]]. Qed.
End rows.
#[local] Arguments call_row : simpl never.
#[local] Arguments link_row : simpl never.
#[local] Arguments project : simpl never.
#[local] Arguments call_from_item : simpl never.
#[local] Arguments link_from_item : simpl never.

(** *** Rows and tables *)
Section represents.
Context `{StoredFormLaws}.

Record rep (R : gmap Key Item) (T : Tables) : Prop := {
  rep_calls room : R !! (room, CallRecord.RECORD_TYPE) = call_row <$> calls T !! room;
  rep_rooms room c : calls T !! room = Some c -> CallRecord.room_id c = room;
  rep_links key : R !! (key, CallLinkState.RECORD_TYPE) = link_row key <$> links T !! key;
  rep_stored key s : links T !! key = Some s -> stored_link s
}.

Lemma rep_insert_call R T c :
  rep R T ->
  rep (<[(CallRecord.room_id c, CallRecord.RECORD_TYPE) := call_row c]> R)
    (T <| calls ::= <[CallRecord.room_id c := c]> |>).
Proof.
  intros [Hc Hr Hl Hs]. split; cbn.
  - intros room. destruct (decide (room = CallRecord.room_id c)) as [->|Hne].
    + by rewrite !lookup_insert_eq.
    + rewrite !lookup_insert_ne by congruence. apply Hc.
  - intros room c' [[<- <-]|[_ E]]%lookup_insert_Some; [done|]. by apply Hr.
  - intros key. rewrite lookup_insert_ne by done. apply Hl.
  - done.
Qed.

Lemma rep_delete_call R T room :
  rep R T -> rep (delete (room, CallRecord.RECORD_TYPE) R) (T <| calls ::= delete room |>).
Proof.
  intros [Hc Hr Hl Hs]. split; cbn.
  - intros room'. destruct (decide (room' = room)) as [->|Hne].
    + by rewrite !lookup_delete_eq.
    + rewrite !lookup_delete_ne by congruence. apply Hc.
  - intros room' c' [_ E]%lookup_delete_Some. by apply Hr.
  - intros key. rewrite lookup_delete_ne by done. apply Hl.
  - done.
Qed.

Lemma rep_insert_link R T key s :
  rep R T -> stored_link s ->
  rep (<[(key, CallLinkState.RECORD_TYPE) := link_row key s]> R) (T <| links ::= <[key := s]> |>).
Proof.
  intros [Hc Hr Hl Hs] Hst. split; cbn.
  - intros room. rewrite lookup_insert_ne by done. apply Hc.
  - done.
  - intros key'. destruct (decide (key' = key)) as [->|Hne].
    + by rewrite !lookup_insert_eq.
    + rewrite !lookup_insert_ne by congruence. apply Hl.
  - intros key' s' [[<- <-]|[_ E]]%lookup_insert_Some; [done|]. by apply (Hs key').
Qed.

Lemma rep_delete_link R T key :
  rep R T -> rep (delete (key, CallLinkState.RECORD_TYPE) R) (T <| links ::= delete key |>).
Proof.
  intros [Hc Hr Hl Hs]. split; cbn.
  - intros room. rewrite lookup_delete_ne by done. apply Hc.
  - done.
  - intros key'. destruct (decide (key' = key)) as [->|Hne].
    + by rewrite !lookup_delete_eq.
    + rewrite !lookup_delete_ne by congruence. apply Hl.
  - intros key' s' [_ E]%lookup_delete_Some. by apply (Hs key').
Qed.

(** What the conditions of the requests test. *)
Lemma rep_era R T room era :
  rep R T ->
  holds ∅ {[":value" := AV_S era]} (old_item R (room, CallRecord.RECORD_TYPE)) DynamoDb.era_is_value =
    era_matches T room era.
Proof.
  intros [Hc _ _ _]. unfold old_item, era_matches. rewrite Hc. destruct (calls T !! room) as [c|]; [|done].
  destruct c as [ro e i re cr]. cbn.
  transitivity (bool_decide (AV_S e = AV_S era)); [reflexivity|].
  destruct (String.eqb_spec e era) as [->|Hne]; [by apply bool_decide_true|apply bool_decide_false; congruence].
Qed.

Lemma rep_passkey names values R T key passkey v :
  rep R T -> values !! v = Some (AV_B passkey) ->
  holds names values (old_item R (key, CallLinkState.RECORD_TYPE)) (Equals "adminPasskey" v) =
    match links T !! key with
    | Some s => bool_decide (CallLinkState.admin_passkey s = passkey)
    | None => false
    end.
Proof.
  intros [_ _ Hl _] Hv. unfold old_item. rewrite Hl. destruct (links T !! key) as [s|]; [|done].
  cbn [fmap option_fmap option_map unwrap_or holds].
  change (resolve names "adminPasskey") with (Some "adminPasskey"). cbn iota.
  assert (link_row key s !! "adminPasskey" = Some (AV_B (CallLinkState.admin_passkey s))) as ->
    by (destruct s as [? ? ? ? ? ? ? []]; vm_compute; reflexivity).
  rewrite Hv. apply bool_decide_ext. split; congruence.
Qed.
End represents.

(** *** Each operation implements its specification *)
Section refinement.
Context {W : Type} `{DynamoLaws W, !StoredFormLaws}.

Lemma answered_with {E A} unexpected (ideal : Tables -> Res E A * Tables) T r T' :
  ideal T = (r, T') -> Outcome unexpected ideal T r T'.
Proof. intros HE. pose proof (answered unexpected ideal T) as HO. by rewrite HE in HO. Qed.

Lemma answer_lost_with {E A} (unexpected : E -> Prop) (ideal : Tables -> Res E A * Tables) T r T' e :
  unexpected e -> ideal T = (r, T') -> Outcome unexpected ideal T (Err e) T'.
Proof. intros He HE. pose proof (answer_lost unexpected ideal T e He) as HO. by rewrite HE in HO. Qed.

Lemma outcome_ext {E A} unexpected (ideal ideal' : Tables -> Res E A * Tables) T r T' :
  ideal T = ideal' T -> Outcome unexpected ideal T r T' -> Outcome unexpected ideal' T r T'.
Proof.
  intros HE [|e He|e He]; [apply answered_with|by apply not_done|eapply answer_lost_with; [done|]];
    by rewrite <- HE, <- surjective_pairing.
Qed.

Abbreviation impl := (implements (fun w T => rep (rows w) T)).

#[local] Ltac op_unfold :=
  unfold mbind, M_bind, map_err_m, attempt, lift, fail, mret, M_ret.

Lemma get_call_record_impl room :
  impl storage_unexpected (DynamoDb.get_call_record room) (get_call_record room).
Proof.
  intros w T HR. exists T. unfold DynamoDb.get_call_record. op_unfold.
  destruct (get_item_law (room, CallRecord.RECORD_TYPE) None w) as [Hw Hr].
  destruct (send_get_item _ _ w) as [r w'] eqn:Es. cbn in Hw, Hr. rewrite <- Hw in HR.
  destruct Hr as [-> | ->]; cbn.
  - rewrite <- Hw, (rep_calls _ _ HR). split; [done|]. apply answered_with. unfold get_call_record.
    destruct (calls T !! room) as [c|]; [|done]. cbn. change (project None (call_row c)) with (call_row c).
    by rewrite call_row_read_all.
  - split; [done|]. apply not_done. by eexists.
Qed.

Definition request_allowed (self : UpsertableItem.t) (c : option Condition) (old : Item) : bool :=
  match c with
  | Some c => holds (UpsertableItem.generate_attribute_names self) (UpsertableItem.into_attribute_values self) old c
  | None => true
  end.

(** The answers to an upsert. *)
Lemma upsert_request E u d key condition w :
  (exists k, is_Some ((u ∪ d) !! k)) ->
  let self := UpsertableItem.mk u d in
  let old := old_item (rows w) key in
  let item := (kept <$> u) ∪ (key_attributes key ∪ old ∪ (kept <$> d)) in
  exists e, @UpsertableItem.generate_update_expression E self = Ok e /\
    let result := send_update_item (update_item_request key e condition
      (UpsertableItem.generate_attribute_names self) (UpsertableItem.into_attribute_values self)) w in
    (request_allowed self condition old = true /\ rows (snd result) = <[key := item]> (rows w) /\
       (fst result = Ok (Some item) \/ fst result = Err OtherWriteError)) \/
    (rows (snd result) = rows w /\
       (request_allowed self condition old = false /\ fst result = Err ConditionalCheckFailed \/
        fst result = Err OtherWriteError)).
Proof.
  intros Hk self old item.
  destruct (upsert_spec E u d (key_attributes key ∪ old) Hk) as (e & He & Hu). exists e. split; [exact He|].
  destruct (update_item_law (update_item_request key e condition (UpsertableItem.generate_attribute_names self)
    (UpsertableItem.into_attribute_values self)) w) as [(item' & Ha & Hn & Hw & Hr)|H']; [left|by right].
  cbn in Hn. assert (Some item' = Some item) as [= ->] by (rewrite <- Hn; exact Hu). done.
Qed.

(** The item of an upsert of a call. *)
Lemma get_or_add_call_record_impl call :
  impl storage_unexpected (DynamoDb.get_or_add_call_record call) (get_or_add_call_record call).
Proof.
  intros w T HR. unfold DynamoDb.get_or_add_call_record. op_unfold.
  set (key := (CallRecord.room_id call, CallRecord.RECORD_TYPE)).
  destruct (upsert_request StorageError.t ∅ (call_to_item call) key None w) as (e & He & Hres).
  { exists "eraId". rewrite (left_id_L ∅ (∪)). by eexists. }
  unfold UpsertableItem.with_defaults, UpsertableItem.new. rewrite He. cbn [lift].
  set (r := update_item_request key e None _ _) in *. cbn zeta in Hres.
  destruct (send_update_item r w) as [res w'] eqn:Es. cbn [fst snd] in Hres.
  destruct Hres as [(_ & Hw & Hr)|[Hw Hr]].
  -
    destruct (calls T !! CallRecord.room_id call) as [c|] eqn:EC.
    + assert (get_or_add_call_record call T = (Ok c, T)) as HI by (unfold get_or_add_call_record; by rewrite EC).
      assert ((kept <$> ∅) ∪ (key_attributes key ∪ old_item (rows w) key ∪ (kept <$> call_to_item call)) = call_row c) as Ei.
      { unfold old_item, key. rewrite (rep_calls _ _ HR), EC. cbn. rewrite <- (rep_rooms _ _ HR _ _ EC).
        destruct call, c. reflexivity. }
      rewrite Ei in *. assert (rep (rows w') T) as HR'
        by (rewrite Hw, insert_id; [done|]; unfold key; by rewrite (rep_calls _ _ HR), EC).
      exists T. destruct Hr as [-> | ->]; (split; [done|]); cbn.
      * apply answered_with. by rewrite call_row_read_all.
      * eapply answer_lost_with; [by eexists|done].
    + assert (get_or_add_call_record call T = (Ok call, T <| calls ::= <[CallRecord.room_id call := call]> |>)) as HI
        by (unfold get_or_add_call_record; by rewrite EC).
      assert ((kept <$> ∅) ∪ (key_attributes key ∪ old_item (rows w) key ∪ (kept <$> call_to_item call)) = call_row call) as Ei.
      { unfold old_item, key. rewrite (rep_calls _ _ HR), EC. destruct call. reflexivity. }
      rewrite Ei in *. assert (rep (rows w') (T <| calls ::= <[CallRecord.room_id call := call]> |>)) as HR'
        by (rewrite Hw; exact (rep_insert_call _ _ call HR)).
      eexists. destruct Hr as [-> | ->]; (split; [exact HR'|]); cbn.
      * apply answered_with. by rewrite call_row_read_all.
      * eapply answer_lost_with; [by eexists|done].
  - rewrite <- Hw in HR. exists T. destruct Hr as [[Ha _] | ->]; [done|]. split; [done|]. apply not_done. by eexists.
Qed.

Lemma remove_call_record_impl room era :
  impl storage_unexpected (DynamoDb.remove_call_record room era) (remove_call_record room era).
Proof.
  intros w T HR. unfold DynamoDb.remove_call_record. op_unfold.
  pose proof (delete_item_law (DynamoDb.call_delete room era) w) as Hres. cbn zeta in Hres.
  change (d_key (DynamoDb.call_delete room era)) with (room, CallRecord.RECORD_TYPE) in Hres.
  cbn [d_values d_condition DynamoDb.call_delete] in Hres. rewrite (rep_era _ _ _ _ HR) in Hres.
  destruct (send_delete_item _ w) as [res w']. cbn [fst snd] in Hres.
  destruct (era_matches T room era) eqn:Em.
  - assert (remove_call_record room era T = (Ok (), T <| calls ::= delete room |>)) as HI
      by (unfold remove_call_record; by rewrite Em).
    destruct Hres as [(_ & Hw & Hr)|[Hw [[? _]|Hr]]]; [|done|].
    + assert (rep (rows w') (T <| calls ::= delete room |>)) as HR' by (rewrite Hw; exact (rep_delete_call _ _ room HR)).
      eexists. destruct Hr as [-> | ->]; (split; [exact HR'|]); [by apply answered_with|].
      eapply answer_lost_with; [by eexists|done].
    + rewrite <- Hw in HR. exists T. rewrite Hr. split; [done|]. apply not_done. by eexists.
  - assert (remove_call_record room era T = (Ok (), T)) as HI by (unfold remove_call_record; by rewrite Em).
    destruct Hres as [(? & _)|[Hw Hr]]; [done|]. rewrite <- Hw in HR. exists T.
    destruct Hr as [[_ ->] | ->]; (split; [done|]); [by apply answered_with|]. apply not_done. by eexists.
Qed.

Lemma get_call_link_impl room :
  impl storage_unexpected (DynamoDb.get_call_link room) (get_call_link room).
Proof.
  intros w T HR. exists T. unfold DynamoDb.get_call_link. op_unfold.
  destruct (get_item_law (DynamoDb.link_key room) (Some (split "," CallLinkState.PEEK_ATTRIBUTES)) w) as [Hw Hr].
  destruct (send_get_item _ _ w) as [r w'] eqn:Es. cbn [fst snd] in Hw, Hr. rewrite <- Hw in HR.
  destruct Hr as [-> | ->].
  - rewrite <- Hw. unfold DynamoDb.link_key. rewrite (rep_links _ _ HR). split; [done|]. apply answered_with.
    unfold get_call_link. destruct (links T !! call_link_room_key room) as [s|] eqn:E; [|done].
    cbn [fmap option_fmap option_map DynamoDb.convert map_err]. by rewrite link_row_peek by (by eapply rep_stored).
  - split; [done|]. apply not_done. by eexists.
Qed.

(** A batch of deletions. *)
Definition batch_item (k : CallRecordKey) : TransactWriteItem :=
  TransactDelete (DynamoDb.call_delete (CallRecordKey.room_id k) (CallRecordKey.era_id k)).

Definition send_batch (keys : list CallRecordKey) : M W StorageError.t unit :=
  if (DynamoDb.TRANSACT_WRITE_ITEMS_LIMIT <? length keys)%nat
  then fail (StorageError.BatchLimitExceeded (length keys) DynamoDb.TRANSACT_WRITE_ITEMS_LIMIT)
  else
    response ← attempt (send_transact_write_items (batch_item <$> keys));
    match response with
    | inr _ => mret ()
    | inl (TransactionCanceled reasons) =>
        if forallb (fun r => bool_decide (r = Some CONDITIONAL_CHECK_FAILED)) reasons then mret ()
        else fail (StorageError.UnexpectedError "")
    | inl OtherTransactError => fail (StorageError.UnexpectedError "")
    end.

Lemma batch_check R T k : rep R T -> check R (batch_item k) = key_matches T k.
Proof. intros HR. exact (rep_era _ _ _ _ HR). Qed.

Lemma batch_allowed R T keys : rep R T -> forallb (check R) (batch_item <$> keys) = forallb (key_matches T) keys.
Proof. intros HR. induction keys as [|k keys IH]; [done|]. rewrite fmap_cons. cbn [forallb]. by rewrite (batch_check _ _ _ HR), IH. Qed.

Lemma batch_reasons R T keys :
  rep R T ->
  forallb (fun r => bool_decide (r = Some CONDITIONAL_CHECK_FAILED)) (reason R <$> (batch_item <$> keys)) =
    forallb (fun k => negb (key_matches T k)) keys.
Proof.
  intros HR. induction keys as [|k keys IH]; [done|]. rewrite !fmap_cons. cbn [forallb]. rewrite IH. f_equal.
  unfold reason. rewrite (batch_check _ _ _ HR). by destruct (key_matches T k).
Qed.

Lemma batch_perform R T keys : rep R T -> rep (foldr perform R (batch_item <$> keys)) (remove_all keys T).
Proof.
  intros HR. induction keys as [|k keys IH]; [by destruct T|]. exact (rep_delete_call _ _ (CallRecordKey.room_id k) IH).
Qed.

Lemma remove_one_batch k T :
  remove_call_record (CallRecordKey.room_id k) (CallRecordKey.era_id k) T = remove_batch_call_records [k] T.
Proof.
  unfold remove_call_record, remove_batch_call_records. cbn. rewrite !andb_true_r. unfold key_matches.
  by destruct (era_matches T _ _).
Qed.

Lemma remove_batch_call_records_impl keys :
  impl storage_unexpected (DynamoDb.remove_batch_call_records keys) (remove_batch_call_records keys).
Proof.
  intros w T HR. destruct keys as [|k [|k' keys]].
  - exists T. split; [done|]. apply answered_with. by destruct T.
  - destruct (remove_call_record_impl (CallRecordKey.room_id k) (CallRecordKey.era_id k) w T HR) as (T' & HR' & Ho).
    exists T'. split; [exact HR'|]. exact (outcome_ext _ _ _ _ _ _ (remove_one_batch k T) Ho).
  - assert (DynamoDb.remove_batch_call_records (k :: k' :: keys) = send_batch (k :: k' :: keys)) as -> by done.
    set (l := k :: k' :: keys). clearbody l. clear k k' keys. unfold send_batch, DynamoDb.TRANSACT_WRITE_ITEMS_LIMIT.
    assert (remove_batch_call_records l T = if (100 <? length l)%nat
      then (Err (StorageError.BatchLimitExceeded (length l) 100), T)
      else if forallb (key_matches T) l then (Ok (), remove_all l T)
      else if forallb (fun k => negb (key_matches T k)) l then (Ok (), T)
      else (Err (StorageError.UnexpectedError "some calls are gone"), T)) as HI by done.
    destruct (100 <? length l)%nat; [exists T; split; [done|by apply answered_with]|]. op_unfold.
    pose proof (transact_law (batch_item <$> l) w) as Hres. cbn zeta in Hres.
    rewrite (batch_allowed _ _ _ HR) in Hres.
    destruct (send_transact_write_items _ w) as [res w'] eqn:Es. cbn [fst snd] in Hres.
    destruct (forallb (key_matches T) l) eqn:Em.
    + destruct Hres as [(_ & _ & Hw & Hr)|[Hw [[? _]|Hr]]]; [|done|].
      * assert (rep (rows w') (remove_all l T)) as HR' by (rewrite Hw; by apply batch_perform).
        eexists. destruct Hr as [-> | ->]; (split; [exact HR'|]); [by apply answered_with|].
        eapply answer_lost_with; [by eexists|done].
      * rewrite <- Hw in HR. exists T. rewrite Hr. split; [done|]. apply not_done. by eexists.
    + destruct Hres as [(? & _)|[Hw Hr]]; [done|]. exists T. assert (rep (rows w') T) as HR' by by rewrite Hw.
      destruct Hr as [[_ ->] | ->]; [|split; [done|]; apply not_done; by eexists].
      rewrite (batch_reasons _ _ _ HR). destruct (forallb (fun k => negb _) l); (split; [done|]).
      * by apply answered_with.
      * apply not_done. by eexists.
Qed.

(** An update of a link that must exist. *)
Lemma link_exists R T key :
  rep R T -> holds ∅ ∅ (old_item R (key, CallLinkState.RECORD_TYPE)) (Exists RECORD_TYPE_KEY) =
    bool_decide (is_Some (links T !! key)).
Proof.
  intros HR. unfold old_item. rewrite (rep_links _ _ HR). destruct (links T !! key) as [s|]; [|done].
  cbn [fmap option_fmap option_map unwrap_or holds]. change (resolve ∅ RECORD_TYPE_KEY) with (Some RECORD_TYPE_KEY).
  cbn iota. rewrite (proj2 (row_types key (CallRecord.mk "" "" "" "" "") s)).
  rewrite !bool_decide_true by (by eexists). done.
Qed.

Lemma update_existing_link_impl room update values context f :
  (forall s, stored_link s ->
     updated ∅ values (key_attributes (DynamoDb.link_key room) ∪ link_row (call_link_room_key room) s) update =
       Some (link_row (call_link_room_key room) (f s)) /\ stored_link (f s)) ->
  impl update_unexpected (DynamoDb.update_existing_link room update values context) (change_link room f).
Proof.
  intros Hf w T HR. unfold DynamoDb.update_existing_link. op_unfold.
  set (r := update_item_request (DynamoDb.link_key room) update (Some (Exists RECORD_TYPE_KEY)) ∅ values).
  pose proof (update_item_law r w) as Hres. cbn [u_key u_condition u_names u_values u_update r] in Hres. cbn zeta in Hres.
  assert (forall v, holds ∅ v (old_item (rows w) (DynamoDb.link_key room)) (Exists RECORD_TYPE_KEY) =
    bool_decide (is_Some (links T !! call_link_room_key room))) as Ha by (intros v; exact (link_exists _ _ _ HR)).
  rewrite Ha in Hres. clear Ha. destruct (send_update_item r w) as [res w'] eqn:Es. cbn [fst snd] in Hres.
  destruct (links T !! call_link_room_key room) as [s|] eqn:El.
  - assert (change_link room f T = (Ok (), set_link room (f s) T)) as HI by (unfold change_link; by rewrite El).
    destruct (Hf s (rep_stored _ _ HR _ _ El)) as [Hu Hst].
    destruct Hres as [(item & _ & Hn & Hw & Hr)|[Hw [[? _]|Hr]]]; [|done|].
    + assert (old_item (rows w) (DynamoDb.link_key room) = link_row (call_link_room_key room) s) as Eo
        by (unfold old_item, DynamoDb.link_key; rewrite (rep_links _ _ HR), El; done).
      rewrite Eo, Hu in Hn. injection Hn as <-.
      assert (rep (rows w') (set_link room (f s) T)) as HR' by (rewrite Hw; by apply rep_insert_link).
      eexists. destruct Hr as [-> | ->]; (split; [exact HR'|]); [by apply answered_with|].
      eapply answer_lost_with; [by eexists|done].
    + rewrite <- Hw in HR. exists T. rewrite Hr. split; [done|]. apply not_done. by eexists.
  - assert (change_link room f T = (Err CallLinkUpdateError.RoomDoesNotExist, T)) as HI
      by (unfold change_link; by rewrite El).
    destruct Hres as [(? & ? & _)|[Hw Hr]]; [done|]. rewrite <- Hw in HR. exists T.
    destruct Hr as [[_ ->] | ->]; (split; [done|]); [by apply answered_with|]. apply not_done. by eexists.
Qed.

Lemma stored_time_idem t : stored_time (stored_time t) = stored_time t.
Proof. unfold stored_time. by rewrite timestamp_seconds_whole. Qed.

Lemma reset_call_link_expiration_impl room now :
  impl update_unexpected (DynamoDb.reset_call_link_expiration room now) (reset_call_link_expiration room now).
Proof.
  apply update_existing_link_impl. intros s _. split.
  - destruct s as [p z r n rv e d l]. unfold link_row, link_to_item, stored_time. cbn.
    rewrite !timestamp_seconds_whole. destruct l; reflexivity.
  - split; cbn; apply stored_time_idem.
Qed.

Lemma update_call_link_approved_users_impl room users :
  impl update_unexpected (DynamoDb.update_call_link_approved_users room users)
    (update_call_link_approved_users room users).
Proof.
  unfold DynamoDb.update_call_link_approved_users.
  destruct users as [|u users]; apply update_existing_link_impl; intros s Hs; (split; [|destruct Hs; by split]).
  - unfold link_row, link_to_item. cbn. rewrite (proj2 (string_set_nil []) eq_refl).
    destruct s as [p z r n rv e d []]; reflexivity.
  - unfold link_row, link_to_item. cbn. destruct (string_set (u :: users)) as [|v l] eqn:E.
    { by pose proof (proj1 (string_set_nil _) E). }
    rewrite (lookup_singleton_eq (M := gmap string)). cbn. rewrite E.
    destruct s as [p z r n rv e d []]; reflexivity.
Qed.

(** Creating and updating links. *)
Definition new_row_attributes (u : CallLinkUpdate) (z : bytes) (now : Z) : Item :=
  link_to_item (CallLinkState.new (CallLinkUpdate.admin_passkey u) z now).

Lemma update_row u key s (d : Item) :
  d = ∅ \/ (exists z now, d = new_row_attributes u z now) ->
  (kept <$> update_to_item u) ∪ (key_attributes (key, CallLinkState.RECORD_TYPE) ∪ link_row key s ∪ (kept <$> d)) =
    link_row key (apply_update u s).
Proof.
  intros [->|(z & now & ->)]; destruct u as [p [r|] [n|] [rv|]], s as [p' z' r' n' rv' e d' []]; reflexivity.
Qed.

Lemma create_row u key z now :
  (kept <$> update_to_item u) ∪
    (key_attributes (key, CallLinkState.RECORD_TYPE) ∪ ∅ ∪ (kept <$> new_row_attributes u z now)) =
    link_row key (new_link u z now).
Proof.
  unfold link_row, new_row_attributes, new_link, link_to_item, stored_time, apply_update. cbn.
  rewrite !timestamp_seconds_whole. destruct u as [p [r|] [n|] [rv|]]; reflexivity.
Qed.

Lemma new_link_stored u z now : stored_link (new_link u z now).
Proof. split; cbn; apply stored_time_idem. Qed.

Lemma update_allowed R T u d key :
  rep R T ->
  request_allowed (UpsertableItem.mk (update_to_item u) d) (Some DynamoDb.update_condition)
    (old_item R (key, CallLinkState.RECORD_TYPE)) =
  match links T !! key with
  | Some s => bool_decide (CallLinkState.admin_passkey s = CallLinkUpdate.admin_passkey u)
  | None => false
  end.
Proof.
  intros HR. apply (rep_passkey _ _ _ _ _ _ _ HR). rewrite (values_lookup _ _ "adminPasskey").
  apply lookup_union_Some_l. by destruct u as [p [r|] [n|] [rv|]].
Qed.

Lemma create_allowed R T u z now key :
  rep R T ->
  request_allowed (UpsertableItem.mk (update_to_item u) (new_row_attributes u z now)) (Some DynamoDb.create_condition)
    (old_item R (key, CallLinkState.RECORD_TYPE)) =
  match links T !! key with
  | Some s => bool_decide (CallLinkState.admin_passkey s = CallLinkUpdate.admin_passkey u) &&
              bool_decide (CallLinkState.zkparams s = z)
  | None => true
  end.
Proof.
  intros HR. unfold request_allowed, DynamoDb.create_condition. cbn [holds].
  pose proof (update_allowed R T u (new_row_attributes u z now) key HR) as Hp. cbn [request_allowed] in Hp.
  unfold DynamoDb.update_condition in Hp. cbn [holds] in Hp. rewrite Hp. clear Hp.
  change (resolve _ "zkparams") with (Some "zkparams"). change (resolve _ "adminPasskey") with (Some "adminPasskey").
  cbn iota. rewrite (values_lookup _ _ "zkparams").
  replace ((update_to_item u ∪ new_row_attributes u z now) !! "zkparams") with (Some (AV_B z))
    by (by destruct u as [p [r|] [n|] [rv|]]).
  unfold old_item. rewrite (rep_links _ _ HR). destruct (links T !! key) as [s|]; [|done].
  cbn [fmap option_fmap option_map unwrap_or].
  replace (link_row key s !! "zkparams") with (Some (AV_B (CallLinkState.zkparams s)))
    by (by destruct s as [? ? ? ? ? ? ? []]).
  replace (link_row key s !! "adminPasskey") with (Some (AV_B (CallLinkState.admin_passkey s)))
    by (by destruct s as [? ? ? ? ? ? ? []]).
  rewrite !orb_false_r. f_equal. apply bool_decide_ext. split; congruence.
Qed.

Lemma update_keys u (d : Item) : exists k, is_Some ((update_to_item u ∪ d) !! k).
Proof.
  exists "adminPasskey". eexists. apply lookup_union_Some_l. by destruct u as [p [r|] [n|] [rv|]].
Qed.

Lemma apply_update_stored u s : stored_link s -> stored_link (apply_update u s).
Proof. by intros [? ?]. Qed.

(** A request that sets a link: what it was allowed to do decides the result. *)
Lemma set_link_request room u d condition (b : bool) s' w T :
  rep (rows w) T ->
  let self := UpsertableItem.mk (update_to_item u) d in
  let key := DynamoDb.link_key room in
  request_allowed self (Some condition) (old_item (rows w) key) = b ->
  (b = true -> stored_link s' /\
     (kept <$> update_to_item u) ∪ (key_attributes key ∪ old_item (rows w) key ∪ (kept <$> d)) =
       link_row (call_link_room_key room) s') ->
  exists e, @UpsertableItem.generate_update_expression CallLinkUpdateError.t self = Ok e /\
    let result := send_update_item (update_item_request key e (Some condition)
      (UpsertableItem.generate_attribute_names self) (UpsertableItem.into_attribute_values self)) w in
    (b = true /\ rep (rows (snd result)) (set_link room s' T) /\
       (fst result = Ok (Some (link_row (call_link_room_key room) s')) \/ fst result = Err OtherWriteError)) \/
    (rep (rows (snd result)) T /\
       (b = false /\ fst result = Err ConditionalCheckFailed \/ fst result = Err OtherWriteError)).
Proof.
  intros HR self key Hb Hitem.
  destruct (upsert_request CallLinkUpdateError.t (update_to_item u) d key (Some condition) w (update_keys u d))
    as (e & He & Hres). exists e. split; [exact He|]. cbn zeta in *. fold self in Hres. rewrite Hb in Hres.
  destruct Hres as [(-> & Hw & Hr)|(Hw & Hr)].
  - destruct (Hitem eq_refl) as [Hs Ei]. rewrite Ei in *. left. split; [done|]. split; [|done].
    rewrite Hw. by apply rep_insert_link.
  - right. split; [by rewrite Hw|done].
Qed.

(** Telling a wrong passkey from a missing room. *)
Lemma disambiguate {E A} room w T (found missing lost : E) (op : M W E A) :
  rep (rows w) T ->
  op = (existing ← attempt (DynamoDb.get_call_link room);
        match existing with
        | inr (Some _) => fail found
        | inr None => fail missing
        | inl _ => fail lost
        end) ->
  rep (rows (snd (op w))) T /\
  (fst (op w) = Err (match links T !! call_link_room_key room with Some _ => found | None => missing end) \/
   fst (op w) = Err lost).
Proof.
  intros HR ->. destruct (get_call_link_impl room w T HR) as (T' & HR' & Ho). op_unfold.
  destruct (DynamoDb.get_call_link room w) as [res w'] eqn:Es. cbn [fst snd] in *.
  unfold get_call_link in Ho. destruct Ho as [|e _|e _]; cbn [fst snd] in *; [|by split; [|right]..].
  destruct (links T !! call_link_room_key room); (split; [done|by left]).
Qed.

(** The item that comes back is the link that was set. *)
Lemma set_link_answer room s :
  stored_link s ->
  ok_or (CallLinkUpdateError.UnexpectedError "failed to convert item to CallLinkState")
    (link_from_item (link_row (call_link_room_key room) s)) = Ok s.
Proof. intros Hs. by rewrite link_row_read_all. Qed.

(** What follows from the answers to [set_link_request], with the work that the
    operation does on each. *)
Lemma set_link_outcome (op : M W CallLinkUpdateError.t CallLinkState) ideal
    (res : Res WriteError (option Item)) (w w' : W) T room (b : bool) s' refused lost :
  update_unexpected lost -> stored_link s' ->
  ideal T = (if b then (Ok s', set_link room s' T) else (Err refused, T)) ->
  (b = true /\ rep (rows w') (set_link room s' T) /\
     (res = Ok (Some (link_row (call_link_room_key room) s')) \/ res = Err OtherWriteError) \/
   rep (rows w') T /\ (b = false /\ res = Err ConditionalCheckFailed \/ res = Err OtherWriteError)) ->
  (res = Ok (Some (link_row (call_link_room_key room) s')) -> op w = (Ok s', w')) ->
  (res = Err OtherWriteError -> op w = (Err lost, w')) ->
  (b = false -> res = Err ConditionalCheckFailed ->
     rep (rows (snd (op w))) T /\ (fst (op w) = Err refused \/ exists e, update_unexpected e /\ fst (op w) = Err e)) ->
  exists T', rep (rows (snd (op w))) T' /\ Outcome update_unexpected ideal T (fst (op w)) T'.
Proof.
  intros Hl Hs HI Hres Hok Hother Hrefused.
  destruct Hres as [(-> & HR' & [Hr | Hr])|(HR' & [[-> Hr] | Hr])].
  - rewrite (Hok Hr). eexists. split; [exact HR'|]. by apply answered_with.
  - rewrite (Hother Hr). eexists. split; [exact HR'|]. by eapply answer_lost_with.
  - destruct (Hrefused eq_refl Hr) as [HR2 [E | (e & He & E)]]; exists T; (split; [done|]); rewrite E.
    + by apply answered_with.
    + by apply not_done.
  - rewrite (Hother Hr). exists T. split; [done|]. by apply not_done.
Qed.

Lemma update_unexpected_intro c : update_unexpected (CallLinkUpdateError.UnexpectedError c).
Proof. by eexists. Qed.

Lemma create_link_impl now room u z :
  impl update_unexpected (DynamoDb.update_call_link now room u (Some z)) (update_call_link now room u (Some z)).
Proof.
  intros w T HR. set (key := call_link_room_key room).
  assert (old_item (rows w) (DynamoDb.link_key room) = unwrap_or (link_row key <$> links T !! key) ∅) as Eo
    by (unfold old_item, DynamoDb.link_key; by rewrite (rep_links _ _ HR)).
  set (s' := match links T !! key with Some s => apply_update u s | None => new_link u z now end).
  assert (stored_link s') as Hst.
  { unfold s'. destruct (links T !! key) as [s|] eqn:El; [|apply new_link_stored].
    eapply apply_update_stored, rep_stored; done. }
  destruct (set_link_request room u (new_row_attributes u z now) DynamoDb.create_condition _ s' w T HR
    (create_allowed _ _ _ _ _ _ HR)) as (e & He & Hres).
  { intros _. split; [done|]. rewrite Eo. unfold s'.
    destruct (links T !! key) as [s|] eqn:El; cbn [fmap option_fmap option_map unwrap_or].
    - apply update_row. right. by exists z, now.
    - apply create_row. }
  cbn zeta in Hres. fold key in Hres. set (b := match links T !! key with Some _ => _ | None => true end) in Hres.
  destruct (send_update_item _ w) as [res w'] eqn:Es in Hres. cbn [fst snd] in Hres.
  eapply (set_link_outcome _ _ res w w' T room b s' CallLinkUpdateError.AdminPasskeyDidNotMatch
    (CallLinkUpdateError.UnexpectedError "failed to update_item in storage for update_call_link"));
    [by eexists|done| |exact Hres|..].
  - unfold update_call_link, b, s'. fold key. by destruct (links T !! key).
  - intros Hr. unfold DynamoDb.update_call_link. op_unfold. unfold UpsertableItem.new, new_row_attributes in *.
    rewrite He. rewrite Es, Hr. cbn [unwrap]. by rewrite set_link_answer.
  - intros Hr. unfold DynamoDb.update_call_link. op_unfold. unfold UpsertableItem.new, new_row_attributes in *.
    rewrite He. by rewrite Es, Hr.
  - intros _ Hr. unfold DynamoDb.update_call_link. op_unfold. unfold UpsertableItem.new, new_row_attributes in *.
    rewrite He, Es, Hr. destruct Hres as [(_ & _ & [? | ?])|[HR' _]]; [congruence..|]. split; [done|by left].
Qed.

Lemma modify_link_impl now room u :
  impl update_unexpected (DynamoDb.update_call_link now room u None) (update_call_link now room u None).
Proof.
  intros w T HR. set (key := call_link_room_key room).
  assert (old_item (rows w) (DynamoDb.link_key room) = unwrap_or (link_row key <$> links T !! key) ∅) as Eo
    by (unfold old_item, DynamoDb.link_key; by rewrite (rep_links _ _ HR)).
  set (s' := match links T !! key with Some s => apply_update u s | None => new_link u [] 0 end).
  set (refused := match links T !! key with
    | Some _ => CallLinkUpdateError.AdminPasskeyDidNotMatch | None => CallLinkUpdateError.RoomDoesNotExist end).
  assert (stored_link s') as Hst.
  { unfold s'. destruct (links T !! key) as [s|] eqn:El; [|apply new_link_stored].
    eapply apply_update_stored, rep_stored; done. }
  destruct (set_link_request room u ∅ DynamoDb.update_condition _ s' w T HR (update_allowed _ _ _ _ _ HR))
    as (e & He & Hres).
  { intros Hb. split; [done|]. rewrite Eo. fold key in Hb. unfold s'.
    destruct (links T !! key) as [s|] eqn:El; [|done]. apply update_row. by left. }
  cbn zeta in Hres. fold key in Hres. set (b := match links T !! key with Some _ => _ | None => false end) in Hres.
  destruct (send_update_item _ w) as [res w'] eqn:Es in Hres. cbn [fst snd] in Hres.
  eapply (set_link_outcome _ _ res w w' T room b s' refused
    (CallLinkUpdateError.UnexpectedError "failed to update_item in storage for update_call_link"));
    [by eexists|done| |exact Hres|..].
  - unfold update_call_link, b, s', refused. fold key. destruct (links T !! key); [|done]. by rewrite andb_true_r.
  - intros Hr. unfold DynamoDb.update_call_link. op_unfold. unfold UpsertableItem.with_updates, UpsertableItem.new.
    rewrite He. rewrite Es, Hr. cbn [unwrap]. by rewrite set_link_answer.
  - intros Hr. unfold DynamoDb.update_call_link. op_unfold. unfold UpsertableItem.with_updates, UpsertableItem.new.
    rewrite He. by rewrite Es, Hr.
  - intros _ Hr. destruct Hres as [(_ & _ & [? | ?])|[HR' _]]; [congruence..|].
    assert (exists op, DynamoDb.update_call_link now room u None w = op w' /\
      op = (existing ← attempt (DynamoDb.get_call_link room);
        match existing with
        | inr (Some _) => fail CallLinkUpdateError.AdminPasskeyDidNotMatch
        | inr None => fail CallLinkUpdateError.RoomDoesNotExist
        | inl _ => fail (CallLinkUpdateError.UnexpectedError
            "failed to check for existing room after failing to update_item in storage for update_call_link")
        end : M W CallLinkUpdateError.t CallLinkState)) as (op & -> & Hop).
    { eexists. split; [|reflexivity]. unfold DynamoDb.update_call_link. op_unfold.
      unfold UpsertableItem.with_updates, UpsertableItem.new. by rewrite He, Es, Hr. }
    destruct (disambiguate room w' T _ _ _ op HR' Hop) as [HR2 [E | E]]; (split; [done|]).
    + left. exact E.
    + right. eexists. split; [|exact E]. by eexists.
Qed.

Lemma update_call_link_impl now room u z :
  impl update_unexpected (DynamoDb.update_call_link now room u z) (update_call_link now room u z).
Proof. destruct z; [apply create_link_impl|apply modify_link_impl]. Qed.

(** Deleting a link. *)
Definition delete_items (key : string) (passkey : bytes) : list TransactWriteItem :=
  [TransactDelete (delete_item_request (key, CallLinkState.RECORD_TYPE) (Equals "adminPasskey" ":adminPassKey")
     {[":adminPassKey" := AV_B passkey]});
   TransactCheck (key, CallRecord.RECORD_TYPE) (NotExists ROOM_ID_KEY)].

Lemma delete_link_check R T key passkey :
  rep R T ->
  map (check R) (delete_items key passkey) =
    [match links T !! key with Some s => bool_decide (CallLinkState.admin_passkey s = passkey) | None => false end;
     bool_decide (calls T !! key = None)].
Proof.
  intros HR. unfold delete_items. cbn [map check d_values d_key d_condition]. f_equal.
  - apply (rep_passkey _ _ _ _ _ _ _ HR). apply lookup_singleton_eq.
  - cbn [holds]. change (resolve ∅ ROOM_ID_KEY) with (Some ROOM_ID_KEY). cbn iota. rewrite (rep_calls _ _ HR).
    destruct (calls T !! key) as [c|]; [|done].
    cbn [fmap option_fmap option_map unwrap_or].
    replace (call_row c !! ROOM_ID_KEY) with (Some (AV_S (CallRecord.room_id c))) by (by destruct c).
    by rewrite !bool_decide_false by done.
Qed.

Lemma forallb_map_id {A} (f : A -> bool) l : forallb f l = forallb id (map f l).
Proof. induction l as [|x l IH]; [done|]. cbn. by rewrite IH. Qed.

Lemma reasons_map R l :
  reason R <$> l = (fun b : bool => Some (if b then "None" else CONDITIONAL_CHECK_FAILED)) <$> map (check R) l.
Proof. induction l as [|x l IH]; [done|]. rewrite fmap_cons. cbn [map]. by rewrite fmap_cons, IH. Qed.

(** The answers to the two writes of a deletion. *)
Lemma delete_link_request key passkey w T :
  rep (rows w) T ->
  let pass := match links T !! key with Some s => bool_decide (CallLinkState.admin_passkey s = passkey) | None => false end in
  let idle := bool_decide (calls T !! key = None) in
  let result := send_transact_write_items (delete_items key passkey) w in
  (pass = true /\ idle = true /\ rep (rows (snd result)) (T <| links ::= delete key |>) /\
     (fst result = Ok () \/ fst result = Err OtherTransactError)) \/
  (rep (rows (snd result)) T /\
     (pass && idle = false /\
        fst result = Err (TransactionCanceled
          ((fun b : bool => Some (if b then "None" else CONDITIONAL_CHECK_FAILED)) <$> [pass; idle])) \/
      fst result = Err OtherTransactError)).
Proof.
  intros HR pass idle. pose proof (transact_law (delete_items key passkey) w) as Hres. cbn zeta in *.
  rewrite forallb_map_id, reasons_map, (delete_link_check _ _ _ _ HR) in Hres.
  change (match links T !! key with Some s => _ | None => false end) with pass in Hres.
  change (bool_decide (calls T !! key = None)) with idle in Hres.
  destruct Hres as [(Ha & _ & Hw & Hr)|(Hw & Hr)].
  - cbn in Ha. rewrite andb_true_r in Ha. apply andb_prop in Ha as [Hp Hi]. left. split; [exact Hp|]. split; [exact Hi|].
    split; [|exact Hr]. rewrite Hw. exact (rep_delete_link _ _ key HR).
  - right. split; [by rewrite Hw|]. destruct Hr as [[Ha Hr]|Hr]; [left|by right]. cbn in Ha. rewrite andb_true_r in Ha.
    by split.
Qed.

Lemma delete_call_link_impl room passkey :
  impl delete_unexpected (DynamoDb.delete_call_link room passkey) (delete_call_link room passkey).
Proof.
  intros w T HR. set (key := call_link_room_key room).
  pose proof (delete_link_request key passkey w T HR) as Hres. cbn zeta in Hres.
  destruct (send_transact_write_items (delete_items key passkey) w) as [res w'] eqn:Es. cbn [fst snd] in Hres.
  set (pass := match links T !! key with Some s => bool_decide _ | None => false end) in *.
  assert (delete_call_link room passkey T =
    if pass then if bool_decide (calls T !! key = None) then (Ok (), T <| links ::= delete key |>)
                 else (Err CallLinkDeleteError.CallRecordConflict, T)
    else (Err match links T !! key with
              | Some _ => CallLinkDeleteError.AdminPasskeyDidNotMatch
              | None => CallLinkDeleteError.RoomDoesNotExist end, T)) as HI.
  { unfold delete_call_link, pass. fold key. destruct (links T !! key) as [s|]; [|done].
    destruct (bool_decide _); [|done]. cbn. by destruct (calls T !! key). }
  assert (forall r, res = r -> DynamoDb.delete_call_link room passkey w =
    match r with
    | Ok _ => (Ok (), w')
    | Err (TransactionCanceled reasons) =>
       (first ← lift (idx reasons 0);
        (if bool_decide (first = Some CONDITIONAL_CHECK_FAILED) then
          existing ← attempt (DynamoDb.get_call_link room);
          match existing with
          | inr (Some _) => fail CallLinkDeleteError.AdminPasskeyDidNotMatch
          | inr None => fail CallLinkDeleteError.RoomDoesNotExist
          | inl _ => fail (CallLinkDeleteError.UnexpectedError
              "failed to check for existing room after failing to transact_write_items in storage for delete_call_link")
          end
        else
          second ← lift (idx reasons 1);
          if bool_decide (second = Some CONDITIONAL_CHECK_FAILED) then fail CallLinkDeleteError.CallRecordConflict
          else fail (CallLinkDeleteError.UnexpectedError "")) : M W CallLinkDeleteError.t unit) w'
    | Err OtherTransactError => (Err (CallLinkDeleteError.UnexpectedError ""), w')
    | Panic => (Panic, w')
    end) as Hop.
  { intros r <-. unfold DynamoDb.delete_call_link. fold key. fold (delete_items key passkey). unfold mbind at 1, M_bind at 1, attempt at 1.
    rewrite Es. destruct res as [|[]|]; reflexivity. }
  destruct Hres as [(-> & Hi & HR' & Hr)|(HR' & Hr)].
  - rewrite Hi in HI. eexists.
    destruct Hr as [Hr | Hr]; rewrite (Hop _ Hr); (split; [exact HR'|]); [by apply answered_with|].
    eapply answer_lost_with; [by eexists|done].
  - exists T. destruct Hr as [[Hb Hr] | Hr]; [|rewrite (Hop _ Hr); split; [done|]; apply not_done; by eexists].
    destruct pass.
    + rewrite (Hop _ Hr). cbn in Hb. rewrite Hb in *. split; [done|]. by apply answered_with.
    + set (op := (existing ← attempt (DynamoDb.get_call_link room);
        match existing with
        | inr (Some _) => fail CallLinkDeleteError.AdminPasskeyDidNotMatch
        | inr None => fail CallLinkDeleteError.RoomDoesNotExist
        | inl _ => fail (CallLinkDeleteError.UnexpectedError
            "failed to check for existing room after failing to transact_write_items in storage for delete_call_link")
        end : M W CallLinkDeleteError.t unit)).
      assert (DynamoDb.delete_call_link room passkey w = op w') as -> by (rewrite (Hop _ Hr); reflexivity).
      destruct (disambiguate room w' T _ _ _ op HR' eq_refl) as [HR2 [E | E]]; (split; [exact HR2|]); rewrite E.
      * by apply answered_with.
      * apply not_done. by eexists.
Qed.

(** Reading the records of a room. *)
Lemma project_lookup peek_only (i : Item) : project (wanted peek_only) i !! RECORD_TYPE_KEY = i !! RECORD_TYPE_KEY.
Proof.
  destruct peek_only; [|done]. unfold project, wanted. destruct (i !! RECORD_TYPE_KEY) as [v|] eqn:E.
  - apply map_lookup_filter_Some_2; [done|]. by left.
  - by apply map_lookup_filter_None_2; left.
Qed.

Definition shown (peek_only : bool) : CallLinkState -> CallLinkState := if peek_only then peek else id.

#[local] Ltac cases_of es :=
  do 2 f_equal; repeat case_bool_decide; try done; exfalso; rewrite ?elem_of_cons in *; naive_solver.

Lemma read_records_spec peek_only room w T (es : list (Key * Item)) ls cr :
  rep (rows w) T ->
  (forall e, e ∈ es -> rows w !! e.1 = Some e.2 /\ e.1.1 = room) ->
  DynamoDb.read_records ((project (wanted peek_only) ∘ snd) <$> es) ls cr =
    Ok (if bool_decide ((room, CallLinkState.RECORD_TYPE) ∈ es.*1) then shown peek_only <$> links T !! room else ls,
        if bool_decide ((room, CallRecord.RECORD_TYPE) ∈ es.*1) then calls T !! room else cr).
Proof.
  intros HR. revert ls cr. induction es as [|[[r ty] i] es IH]; intros ls cr Hes; [done|].
  destruct (Hes ((r, ty), i) (list_elem_of_here _ _)) as [Hi Hroom]. cbn in Hi, Hroom. subst r.
  assert (forall e, e ∈ es -> rows w !! e.1 = Some e.2 /\ e.1.1 = room) as Hes' by (intros e He; apply Hes; by right).
  rewrite !fmap_cons. cbn [DynamoDb.read_records compose snd]. rewrite project_lookup, (row_type_law _ _ _ Hi). cbn [snd fst].
  destruct (String.eqb_spec ty CallRecord.RECORD_TYPE) as [->|Hc].
  - rewrite (rep_calls _ _ HR) in Hi. destruct (calls T !! room) as [c|] eqn:Ec; [|done]. injection Hi as <-.
    rewrite call_row_read. cbn [ok_or]. rewrite mbind_Ok, IH by done.
    cases_of es.
  - destruct (String.eqb_spec ty CallLinkState.RECORD_TYPE) as [->|Hl].
    + rewrite (rep_links _ _ HR) in Hi. destruct (links T !! room) as [s|] eqn:El; [|done]. injection Hi as <-.
      rewrite link_row_read by (by eapply rep_stored). cbn [ok_or]. rewrite mbind_Ok, IH by done.
      cases_of es.
    + rewrite IH by done. cases_of es.
Qed.

Lemma get_call_link_and_record_impl room peek_only :
  impl storage_unexpected (DynamoDb.get_call_link_and_record room peek_only) (get_call_link_and_record room peek_only).
Proof.
  intros w T HR. exists T. unfold DynamoDb.get_call_link_and_record. op_unfold. set (key := call_link_room_key room).
  destruct (query_room_law key (wanted peek_only) w) as [Hw Hr]. fold (wanted peek_only).
  destruct (send_query_room key (wanted peek_only) w) as [r w'] eqn:Es. cbn [fst snd] in Hw, Hr.
  destruct Hr as [(l & -> & Hp) | ->].
  - split; [cbn; by rewrite Hw|]. apply answered_with. unfold get_call_link_and_record. fold key.
    apply Permutation_map_inv in Hp as (es & -> & Hes). change (map ?f es) with (f <$> es).
    assert (forall e, e ∈ es <-> rows w !! e.1 = Some e.2 /\ e.1.1 = key) as Hin.
    { intros [k i]. rewrite <- Hes, elem_of_map_to_list, map_lookup_filter_Some. done. }
    cbn. rewrite (read_records_spec peek_only key w T es None None HR) by (intros e; by apply Hin).
    assert (forall ty, (key, ty) ∈ es.*1 <-> is_Some (rows w !! (key, ty))) as Hk.
    { intros ty. rewrite list_elem_of_fmap. split.
      - intros ([k i] & -> & [He _]%Hin). by exists i.
      - intros [i Hi]. exists ((key, ty), i). split; [done|]. by apply Hin. }
    do 3 f_equal.
    + case_bool_decide as Hb; [done|]. rewrite Hk, (rep_links _ _ HR) in Hb. by destruct (links T !! key) as [s|]; [destruct Hb; eexists|].
    + case_bool_decide as Hb; [done|]. rewrite Hk, (rep_calls _ _ HR) in Hb. by destruct (calls T !! key) as [c|]; [destruct Hb; eexists|].
  - split; [cbn; by rewrite Hw|]. apply not_done. by eexists.
Qed.

Lemma get_call_records_for_region_impl region w T :
  rep (rows w) T ->
  rep (rows (snd (DynamoDb.get_call_records_for_region region w))) T /\
    fst (DynamoDb.get_call_records_for_region region w) <> Panic.
Proof.
  intros HR. unfold DynamoDb.get_call_records_for_region. op_unfold.
  destruct (query_region_law region w) as [Hw Hr].
  destruct (send_query_region region w) as [[[l|]|e|] w'] eqn:Es; cbn in *; rewrite ?Hw; (split; [done|]); try done.
  by destruct (mapM call_from_item l).
Qed.

(** The table of the frontend keeps what [Storage] promises. *)
#[refine, global] Instance dynamo_storage_laws : @StorageLaws W DynamoDb.dynamo_storage _ :=
  {| represents w T := rep (rows w) T |}.
Proof.
  - intros w T HR room c Hc. by apply (rep_rooms _ _ HR).
  - exact get_call_record_impl.
  - exact get_or_add_call_record_impl.
  - exact remove_call_record_impl.
  - exact remove_batch_call_records_impl.
  - exact get_call_records_for_region_impl.
  - exact get_call_link_impl.
  - exact update_call_link_impl.
  - exact reset_call_link_expiration_impl.
  - exact delete_call_link_impl.
  - exact get_call_link_and_record_impl.
  - exact update_call_link_approved_users_impl.
Defined.
End refinement.
End DynamoFacts.
