(* ===== verification/StorageProperties.v ===== *)
(** * StorageProperties: what the table of calls and call links guarantees

    That the DynamoDB table keeps the promises of [StorageSpec], and what these
    promises give for any history of operations, by whichever frontends and
    backends. *)
From stdpp Require Import strings.
From S2P Require Import Prelude Text Storage DynamoDb DynamoFacts.

(** ** A service in memory, for the witnesses *)
Module DynamoSamples.
Import Storage Dynamo StorageSpec StorageSamples.

Section service.
Context `{StoredForm}.

Definition well_keyed (e : Key * Item) : Prop := e.2 !! RECORD_TYPE_KEY = Some (AV_S (snd e.1)).

#[local] Instance well_keyed_dec e : Decision (well_keyed e).
Proof. unfold well_keyed. apply _. Defined.

Definition table (w : gmap Key Item) : gmap Key Item := filter well_keyed w.

Lemma table_table w : table (table w) = table w.
Proof. unfold table. rewrite map_filter_filter. apply map_filter_ext. naive_solver. Qed.

Definition put_item (r : UpdateItem) (w : gmap Key Item) : Res WriteError (option Item) * gmap Key Item :=
  let old := old_item (table w) (u_key r) in
  if match u_condition r with Some c => holds (u_names r) (u_values r) old c | None => true end then
    match updated (u_names r) (u_values r) (key_attributes (u_key r) ∪ old) (u_update r) with
    | Some item => if decide (well_keyed (u_key r, item)) then (Ok (Some item), <[u_key r := item]> (table w))
                   else (Err OtherWriteError, w)
    | None => (Err OtherWriteError, w)
    end
  else (Err ConditionalCheckFailed, w).

Definition delete_item (r : DeleteItem) (w : gmap Key Item) : Res WriteError unit * gmap Key Item :=
  if holds ∅ (d_values r) (old_item (table w) (d_key r)) (d_condition r)
  then (Ok (), delete (d_key r) (table w)) else (Err ConditionalCheckFailed, w).

Definition transact (items : list TransactWriteItem) (w : gmap Key Item) : Res TransactError unit * gmap Key Item :=
  if negb (bool_decide (NoDup (item_key <$> items))) then (Err OtherTransactError, w)
  else if forallb (check (table w)) items then (Ok (), foldr perform (table w) items)
  else (Err (TransactionCanceled (reason (table w) <$> items)), w).

#[global] Instance service : DynamoClient (gmap Key Item) := {|
  send_get_item key attributes w := (Ok (project attributes <$> table w !! key), w);
  send_update_item := put_item;
  send_delete_item := delete_item;
  send_transact_write_items := transact;
  send_query_room room attributes w :=
    (Ok (Some ((project attributes ∘ snd) <$> map_to_list (filter (fun e : Key * Item => e.1.1 = room) (table w)))), w);
  send_query_region region w := (Ok (Some []), w)
|}.

Lemma table_insert k item w : well_keyed (k, item) -> table (<[k := item]> (table w)) = <[k := item]> (table w).
Proof. intros Hk. unfold table at 1. rewrite map_filter_insert_True by done. f_equal. apply table_table. Qed.

Lemma table_delete k w : table (delete k (table w)) = delete k (table w).
Proof. unfold table at 1. rewrite map_filter_delete. f_equal. apply table_table. Qed.

Lemma table_perform items w : table (foldr perform (table w) items) = foldr perform (table w) items.
Proof.
  induction items as [|[d|k c] items IH]; cbn; [apply table_table| |done]. rewrite <- IH. apply table_delete.
Qed.

#[refine, global] Instance service_laws : DynamoLaws (gmap Key Item) := {| rows := table |}.
Proof.
  - intros w key item [_ Hk]%map_lookup_filter_Some. exact Hk.
  - intros key attributes w. cbn. auto.
  - intros r w. cbn. unfold put_item. fold (old_item (table w) (u_key r)). destruct (match u_condition r with Some _ => _ | None => _ end); [|by right; auto].
    destruct (updated _ _ _ _) as [item|]; [|by right; auto].
    destruct (decide _) as [Hk|]; [|by right; auto]. left. exists item. cbn. rewrite table_insert by done. auto.
  - intros r w. cbn. unfold delete_item. destruct (holds _ _ _ _); [left|right; auto]. cbn. rewrite table_delete. auto.
  - intros items w. cbn. unfold transact. case_bool_decide; [|right; auto]. cbn [negb].
    destruct (forallb _ items); [left|right; auto]. cbn. rewrite table_perform. auto.
  - intros room attributes w. cbn. split; [done|]. left. eexists. by split.
  - intros region w. by split.
Defined.
End service.
End DynamoSamples.

(** ** Histories of operations *)
Module StorageHistory.
Import Storage Dynamo StorageSpec DynamoFacts.

Inductive Operation :=
| GetCallRecord (room : string)
| GetOrAddCallRecord (call : CallRecord)
| RemoveCallRecord (room era : string)
| RemoveBatchCallRecords (keys : list CallRecordKey)
| GetCallRecordsForRegion (region : string)
| GetCallLink (room : string)
| UpdateCallLink (now : Z) (room : string) (u : CallLinkUpdate) (zkparams : option bytes)
| ResetCallLinkExpiration (room : string) (now : Z)
| DeleteCallLink (room : string) (passkey : bytes)
| GetCallLinkAndRecord (room : string) (peek_only : bool)
| UpdateCallLinkApprovedUsers (room : string) (users : list string).

(** The world after the operation, whatever its answer. *)
Definition after `{Storage W} (o : Operation) (w : W) : W :=
  match o with
  | GetCallRecord room => snd (Storage.get_call_record room w)
  | GetOrAddCallRecord call => snd (Storage.get_or_add_call_record call w)
  | RemoveCallRecord room era => snd (Storage.remove_call_record room era w)
  | RemoveBatchCallRecords keys => snd (Storage.remove_batch_call_records keys w)
  | GetCallRecordsForRegion region => snd (Storage.get_call_records_for_region region w)
  | GetCallLink room => snd (Storage.get_call_link room w)
  | UpdateCallLink now room u z => snd (Storage.update_call_link now room u z w)
  | ResetCallLinkExpiration room now => snd (Storage.reset_call_link_expiration room now w)
  | DeleteCallLink room passkey => snd (Storage.delete_call_link room passkey w)
  | GetCallLinkAndRecord room peek_only => snd (Storage.get_call_link_and_record room peek_only w)
  | UpdateCallLinkApprovedUsers room users => snd (Storage.update_call_link_approved_users room users w)
  end.

(** The operation asks for the removal of this era of the room's call. *)
Definition removes (room era : string) (o : Operation) : bool :=
  match o with
  | RemoveCallRecord r e => String.eqb r room && String.eqb e era
  | RemoveBatchCallRecords keys =>
      existsb (fun k => String.eqb (CallRecordKey.room_id k) room && String.eqb (CallRecordKey.era_id k) era) keys
  | _ => false
  end.

(** The operation asks for the deletion of the link with this passkey. *)
Definition deletes (key : string) (passkey : bytes) (o : Operation) : bool :=
  match o with
  | DeleteCallLink room p => String.eqb (call_link_room_key room) key && bool_decide (p = passkey)
  | _ => false
  end.

(** The link's time of deletion after its expiration is reset at [now]. *)
Definition reset_delete_at `{StoredForm} (now : Z) : Z :=
  stored_time (now + CallLinkState.EXPIRATION_TIMER + CallLinkState.DELETION_TIMER).

(** What one operation may do to the tables. *)
Record allowed `{StoredForm} (o : Operation) (T T' : Tables) : Prop := {
  call_stays room c : calls T !! room = Some c -> removes room (CallRecord.era_id c) o = false ->
    calls T' !! room = Some c;
  link_stays key s : links T !! key = Some s -> deletes key (CallLinkState.admin_passkey s) o = false ->
    exists s', links T' !! key = Some s' /\ CallLinkState.admin_passkey s' = CallLinkState.admin_passkey s /\
      CallLinkState.zkparams s' = CallLinkState.zkparams s /\
      (CallLinkState.delete_at s' = CallLinkState.delete_at s \/
       exists room now, o = ResetCallLinkExpiration room now /\ call_link_room_key room = key /\
         CallLinkState.delete_at s' = reset_delete_at now)
}.

(** A link as it was, but for what its passkey may change. *)
Definition same_link `{StoredForm} (o : Operation) (key : string) (s s' : CallLinkState) : Prop :=
  CallLinkState.admin_passkey s' = CallLinkState.admin_passkey s /\
  CallLinkState.zkparams s' = CallLinkState.zkparams s /\
  (CallLinkState.delete_at s' = CallLinkState.delete_at s \/
   exists room now, o = ResetCallLinkExpiration room now /\ call_link_room_key room = key /\
     CallLinkState.delete_at s' = reset_delete_at now).

Section spec.
Context `{StoredForm}.

Lemma same_link_refl o key s : same_link o key s s.
Proof. split; [done|]. split; [done|]. by left. Qed.

Lemma allowed_same o T : allowed o T T.
Proof. split; [done|]. intros key s Hs _. exists s. split; [done|apply same_link_refl]. Qed.

(** Links that stay the same, calls that stay. *)
Lemma allowed_links o T T' :
  calls T' = calls T ->
  (forall key s, links T !! key = Some s -> exists s', links T' !! key = Some s' /\ same_link o key s s') ->
  allowed o T T'.
Proof. intros Hc Hl. split; [by rewrite Hc|]. intros key s Hs _. apply (Hl key s Hs). Qed.

Lemma set_link_allowed o room s s' T :
  links T !! call_link_room_key room = Some s -> same_link o (call_link_room_key room) s s' ->
  allowed o T (set_link room s' T).
Proof.
  intros Hs Hp. apply allowed_links; [done|]. intros key s0 Hs0. unfold set_link. cbn.
  destruct (decide (key = call_link_room_key room)) as [->|Hne].
  - rewrite lookup_insert_eq. exists s'. by simplify_eq.
  - rewrite lookup_insert_ne by done. exists s0. split; [done|apply same_link_refl].
Qed.

Lemma new_link_allowed o room s' T :
  links T !! call_link_room_key room = None -> allowed o T (set_link room s' T).
Proof.
  intros Hs. apply allowed_links; [done|]. intros key s0 Hs0. unfold set_link. cbn.
  rewrite lookup_insert_ne by (intros E; congruence). exists s0. split; [done|apply same_link_refl].
Qed.

Lemma change_link_allowed o room f T :
  (forall s, same_link o (call_link_room_key room) s (f s)) ->
  allowed o T (change_link room f T).2.
Proof.
  intros Hf. unfold change_link. destruct (links T !! call_link_room_key room) as [s|] eqn:Es; [|apply allowed_same].
  by apply (set_link_allowed _ _ s); [|apply Hf].
Qed.

Lemma update_link_allowed now room u z T :
  allowed (UpdateCallLink now room u z) T (update_call_link now room u z T).2.
Proof.
  unfold update_call_link. destruct (links T !! call_link_room_key room) as [s|] eqn:Es.
  - assert (forall b : bool, allowed (UpdateCallLink now room u z) T
      (if bool_decide (CallLinkState.admin_passkey s = CallLinkUpdate.admin_passkey u) && b
       then (Ok (apply_update u s), set_link room (apply_update u s) T)
       else (Err CallLinkUpdateError.AdminPasskeyDidNotMatch, T)).2) as Hb.
    { intros b. case_bool_decide as Hp; [|apply allowed_same]. destruct b; [|apply allowed_same].
      apply (set_link_allowed _ _ s); [done|]. unfold same_link. cbn. auto. }
    destruct z; apply Hb.
  - destruct z; [by apply new_link_allowed|apply allowed_same].
Qed.

Lemma delete_allowed room passkey T :
  allowed (DeleteCallLink room passkey) T (delete_call_link room passkey T).2.
Proof.
  unfold delete_call_link. destruct (links T !! call_link_room_key room) as [s|] eqn:Es; [|apply allowed_same].
  case_bool_decide as Hp; [|apply allowed_same]. cbn [negb].
  destruct (calls T !! call_link_room_key room) as [c|] eqn:Ec; [apply allowed_same|]. split; cbn; [done|].
  intros key s0 Hs0 Hd. rewrite lookup_delete_ne; [exists s0; split; [done|apply same_link_refl]|]. intros <-.
  rewrite String.eqb_refl in Hd. apply bool_decide_eq_false_1 in Hd. congruence.
Qed.

Lemma add_allowed call T : allowed (GetOrAddCallRecord call) T (get_or_add_call_record call T).2.
Proof.
  unfold get_or_add_call_record. destruct (calls T !! CallRecord.room_id call) as [c|] eqn:Ec; [apply allowed_same|].
  split; cbn; [|intros key s Hs _; exists s; split; [done|apply same_link_refl]]. intros room c Hc _. rewrite lookup_insert_ne; [done|]. congruence.
Qed.

Lemma era_matches_eq T room c era :
  calls T !! room = Some c -> era_matches T room era = String.eqb (CallRecord.era_id c) era.
Proof. intros Hc. unfold era_matches. by rewrite Hc. Qed.

Lemma remove_allowed room era T : allowed (RemoveCallRecord room era) T (remove_call_record room era T).2.
Proof.
  cbn. destruct (era_matches T room era) eqn:Ee; [|apply allowed_same].
  split; cbn; [|intros key s Hs _; exists s; split; [done|apply same_link_refl]].
  intros room' c Hc Hr. rewrite lookup_delete_ne; [done|]. intros <-.
  rewrite (era_matches_eq _ _ _ _ Hc), String.eqb_sym in Ee. by rewrite String.eqb_refl, Ee in Hr.
Qed.

Lemma lookup_remove_all T keys room :
  room ∉ (CallRecordKey.room_id <$> keys) -> calls (remove_all keys T) !! room = calls T !! room.
Proof.
  unfold remove_all. cbn. induction keys as [|k keys IH]; [done|]. rewrite fmap_cons, not_elem_of_cons. intros [Hk Hr].
  cbn. rewrite lookup_delete_ne by done. by apply IH.
Qed.

Lemma remove_batch_allowed keys T : allowed (RemoveBatchCallRecords keys) T (remove_batch_call_records keys T).2.
Proof.
  unfold remove_batch_call_records. destruct (_ <? _)%nat; [apply allowed_same|].
  destruct (forallb (key_matches T) keys) eqn:Ea; [|by destruct (forallb (fun k => negb (key_matches T k)) keys); apply allowed_same].
  split; cbn [fst snd]; [|intros key s Hs _; exists s; split; [done|apply same_link_refl]]. intros room c Hc Hr. rewrite lookup_remove_all; [done|].
  intros ([r e] & -> & Hk)%list_elem_of_fmap. cbn in *.
  rewrite forallb_forall in Ea. apply list_elem_of_In in Hk. specialize (Ea _ Hk). unfold key_matches in Ea. cbn in Ea.
  rewrite (era_matches_eq _ _ _ _ Hc) in Ea. apply not_true_iff_false in Hr. destruct Hr. apply existsb_exists.
  exists (CallRecordKey.mk r e). split; [done|]. cbn. by rewrite String.eqb_refl, String.eqb_sym.
Qed.
End spec.

Section history.
Context `{StorageLaws W}.

Lemma implements_allowed {E A} o unexpected (op : M W E A) ideal w T :
  implements represents unexpected op ideal -> allowed o T (ideal T).2 -> represents w T ->
  exists T', represents (snd (op w)) T' /\ allowed o T T'.
Proof.
  intros Hi Ha Hw. destruct (Hi _ _ Hw) as (T' & HT' & HO). exists T'. split; [done|].
  inversion HO; subst; [done|apply allowed_same|done].
Qed.

Lemma after_allowed o w T : represents w T -> exists T', represents (after o w) T' /\ allowed o T T'.
Proof.
  intros Hw. destruct o; cbn [after].
  - eapply implements_allowed; [apply get_call_record_law|apply allowed_same|done].
  - eapply implements_allowed; [apply get_or_add_call_record_law|apply add_allowed|done].
  - eapply implements_allowed; [apply remove_call_record_law|apply remove_allowed|done].
  - eapply implements_allowed; [apply remove_batch_call_records_law|apply remove_batch_allowed|done].
  - exists T. split; [by apply get_call_records_for_region_law|apply allowed_same].
  - eapply implements_allowed; [apply get_call_link_law|apply allowed_same|done].
  - eapply implements_allowed; [apply update_call_link_law|apply update_link_allowed|done].
  - eapply implements_allowed; [apply reset_call_link_expiration_law|apply change_link_allowed|done].
    intros s. split; [done|]. split; [done|]. right. by exists room, now.
  - eapply implements_allowed; [apply delete_call_link_law|apply delete_allowed|done].
  - eapply implements_allowed; [apply get_call_link_and_record_law|apply allowed_same|done].
  - eapply implements_allowed; [apply update_call_link_approved_users_law|apply change_link_allowed|done].
    intros s. split; [done|]. split; [done|]. by left.
Qed.
End history.

(** *** Histories of the table

    Besides the operations, the service deletes rows whose time of deletion,
    [CallLinkState::delete_at], has come. *)
Section table.
Context {W : Type} `{DynamoLaws W, !StoredFormLaws}.

Lemma table_after_allowed o w T : rep (rows w) T -> exists T', rep (rows (after o w)) T' /\ allowed o T T'.
Proof. exact (@after_allowed W DynamoDb.dynamo_storage _ dynamo_storage_laws o w T). Qed.

Inductive Happening :=
| Operates (o : Operation)
| Expires (now : Z).

(** Some rows are gone, each of them due for deletion. *)
Definition expired (now : Z) (R R' : gmap Key Item) : Prop :=
  R' ⊆ R /\ forall k item, R !! k = Some item -> R' !! k = None ->
    exists s, item !! "deleteAt" = Some (AV_N s) /\ s * 1000000000 <= now.

Inductive happens : list Happening -> W -> W -> Prop :=
| happens_nothing w : happens [] w w
| happens_operation o es w w' : happens es (after o w) w' -> happens (Operates o :: es) w w'
| happens_expiry now es w w1 w' : expired now (rows w) (rows w1) -> happens es w1 w' -> happens (Expires now :: es) w w'.

Definition asks (f : Operation -> bool) (e : Happening) : bool :=
  match e with Operates o => f o | Expires _ => false end.

(** No rows are expired at or after the time a link is due for deletion, be it the
    one it has, or one it is given later. *)
Fixpoint spared (key : string) (delete_at : Z) (es : list Happening) : Prop :=
  match es with
  | [] => True
  | Expires now :: es => now < delete_at /\ spared key delete_at es
  | Operates (ResetCallLinkExpiration room now) :: es =>
      spared key delete_at es /\ (call_link_room_key room = key -> spared key (reset_delete_at now) es)
  | Operates _ :: es => spared key delete_at es
  end.

Lemma spared_after key o es s s' : same_link o key s s' ->
  spared key (CallLinkState.delete_at s) (Operates o :: es) -> spared key (CallLinkState.delete_at s') es.
Proof.
  intros (_ & _ & [->|(room & now & -> & Hk & ->)]); cbn; [destruct o; tauto|]. intros [_ Hs]. by apply Hs.
Qed.

Lemma delete_at_row key c s :
  call_row c !! "deleteAt" = None /\
  link_row key s !! "deleteAt" = Some (AV_N (timestamp_seconds (CallLinkState.delete_at s))).
Proof. split; [by destruct c|by destruct s as [? ? ? ? ? ? ? []]]. Qed.

Lemma expired_rep now R R' T : rep R T -> expired now R R' ->
  exists T', rep R' T' /\ calls T' = calls T /\
    forall key s, links T !! key = Some s -> now < CallLinkState.delete_at s -> links T' !! key = Some s.
Proof.
  intros [Hc Hr Hl Hs] [Hsub Hgone].
  set (L := filter (fun e : string * CallLinkState => is_Some (R' !! (e.1, CallLinkState.RECORD_TYPE))) (links T)).
  assert (forall k item, R !! k = Some item -> R' !! k = None \/ R' !! k = Some item) as Hk.
  { intros k item E. destruct (R' !! k) as [item'|] eqn:E'; [right|by left].
    apply (lookup_weaken _ _ _ _ E') in Hsub. congruence. }
  assert (forall key, links T !! key = None -> R' !! (key, CallLinkState.RECORD_TYPE) = None) as Hno.
  { intros key E. apply eq_None_not_Some. intros [item E']. apply (lookup_weaken _ _ _ _ E') in Hsub.
    by rewrite Hl, E in Hsub. }
  assert (forall key s, links T !! key = Some s ->
    R' !! (key, CallLinkState.RECORD_TYPE) = None /\ CallLinkState.delete_at s <= now \/
    R' !! (key, CallLinkState.RECORD_TYPE) = Some (link_row key s)) as Hkey.
  { intros key s Es. specialize (Hl key). rewrite Es in Hl. destruct (Hk _ _ Hl) as [E|E]; [left|by right].
    split; [exact E|]. destruct (Hgone _ _ Hl E) as (t & Ht & Hle).
    rewrite (proj2 (delete_at_row key (CallRecord.mk "" "" "" "" "") s)) in Ht. injection Ht as <-.
    destruct (Hs key s Es) as [_ E2]. unfold stored_time in E2. lia. }
  exists (mk_tables (calls T) L). split; [split|]; cbn.
  - intros room. destruct (calls T !! room) as [c|] eqn:Ec; cbn.
    + specialize (Hc room). rewrite Ec in Hc. destruct (Hk _ _ Hc) as [E|E]; [|done].
      destruct (Hgone _ _ Hc E) as (t & Ht & _). by destruct c.
    + apply eq_None_not_Some. intros [item E']. apply (lookup_weaken _ _ _ _ E') in Hsub. by rewrite Hc, Ec in Hsub.
  - done.
  - intros key. unfold L. destruct (links T !! key) as [s|] eqn:Es.
    + destruct (Hkey key s Es) as [[E _]|E]; rewrite E.
      * rewrite map_lookup_filter_None_2; [done|]. right. intros s' _. cbn. rewrite E. by intros [].
      * rewrite (map_lookup_filter_Some_2 _ _ _ s); [done..|]. cbn. rewrite E. by eexists.
    + rewrite (Hno key Es), map_lookup_filter_None_2; [done|]. by left.
  - intros key s [E _]%map_lookup_filter_Some. by apply (Hs key).
  - split; [done|]. intros key s Es Hd. apply map_lookup_filter_Some. split; [done|]. cbn.
    destruct (Hkey key s Es) as [[_ E]|E]; [lia|]. rewrite E. by eexists.
Qed.
End table.
End StorageHistory.

Module StorageProperties.
Import Storage Dynamo StorageSpec StorageSamples DynamoFacts DynamoSamples StorageHistory.

(** The operation on the service does to its table what [ideal] does to the maps. *)
Definition table_implements {W} `{DynamoLaws W, !StoredFormLaws} {E A} (unexpected : E -> Prop) (op : M W E A)
    (ideal : Tables -> Res E A * Tables) : Prop :=
  implements (fun w T => rep (rows w) T) unexpected op ideal.

(** C2: The table in DynamoDB keeps what the trait promises.  Each operation, made
    of conditional requests, reads and writes the two maps of calls and links as its
    specification says in one step; if the service fails, the operation says so, and
    has then been done as a whole or not at all.  Reading the calls of a region, from
    an index, changes nothing. *)
Theorem dynamo_implements_storage {W : Type} `{DynamoLaws W, !StoredFormLaws} now room era call keys u z users
    passkey peek_only region :
  table_implements storage_unexpected (DynamoDb.get_call_record room) (get_call_record room) /\
  table_implements storage_unexpected (DynamoDb.get_or_add_call_record call) (get_or_add_call_record call) /\
  table_implements storage_unexpected (DynamoDb.remove_call_record room era) (remove_call_record room era) /\
  table_implements storage_unexpected (DynamoDb.remove_batch_call_records keys) (remove_batch_call_records keys) /\
  table_implements storage_unexpected (DynamoDb.get_call_link room) (get_call_link room) /\
  table_implements update_unexpected (DynamoDb.update_call_link now room u z) (update_call_link now room u z) /\
  table_implements update_unexpected (DynamoDb.reset_call_link_expiration room now) (reset_call_link_expiration room now) /\
  table_implements delete_unexpected (DynamoDb.delete_call_link room passkey) (delete_call_link room passkey) /\
  table_implements storage_unexpected (DynamoDb.get_call_link_and_record room peek_only) (get_call_link_and_record room peek_only) /\
  table_implements update_unexpected (DynamoDb.update_call_link_approved_users room users) (update_call_link_approved_users room users) /\
  (forall w T, rep (rows w) T -> rep (rows (snd (DynamoDb.get_call_records_for_region region w))) T /\
     fst (DynamoDb.get_call_records_for_region region w) <> Panic).
Proof.
  split_and!; first [apply get_call_record_impl | apply get_or_add_call_record_impl | apply remove_call_record_impl
    | apply remove_batch_call_records_impl | apply get_call_link_impl | apply update_call_link_impl
    | apply reset_call_link_expiration_impl | apply delete_call_link_impl | apply get_call_link_and_record_impl
    | apply update_call_link_approved_users_impl | intros w T; apply get_call_records_for_region_impl].
Qed.

#[local] Instance sample_form : StoredForm := plain_form.

Definition ring : CallRecord := CallRecord.mk "room" "era1" "10.0.0.1" "us" "bob".

Lemma dynamo_implements_storage_witness :
  table_implements storage_unexpected (DynamoDb.get_or_add_call_record ring)
    (get_or_add_call_record ring) /\
  DynamoDb.get_or_add_call_record ring ∅ = (Ok ring, {[("room", "ActiveCall") := call_row ring]}).
Proof.
  split; [|vm_compute; reflexivity].
  apply (dynamo_implements_storage (W := gmap Key Item) 0 "room" "era1" ring [] (CallLinkUpdate.mk [] None None None) None [] [] true "us").
Defined.

(** C6: What is stored stays.  After any sequence of operations on the table, of any frontends
    and backends and however they are answered, and of deletions of rows that are due, a call is
    still its room's unless its removal was asked for under its own era, and a link still has its
    passkey and parameters unless its deletion was asked for with its passkey, or a time of
    deletion it had has come. *)
Theorem records_stay {W : Type} `{DynamoLaws W, !StoredFormLaws} es w w' T :
  rep (rows w) T -> happens es w w' ->
  exists T', rep (rows w') T' /\
    (forall room c, calls T !! room = Some c -> existsb (asks (removes room (CallRecord.era_id c))) es = false ->
       calls T' !! room = Some c) /\
    (forall key s, links T !! key = Some s -> existsb (asks (deletes key (CallLinkState.admin_passkey s))) es = false ->
       spared key (CallLinkState.delete_at s) es ->
       exists s', links T' !! key = Some s' /\ CallLinkState.admin_passkey s' = CallLinkState.admin_passkey s /\
         CallLinkState.zkparams s' = CallLinkState.zkparams s).
Proof.
  intros Hw Hes. revert T Hw. induction Hes as [w|o es w w' _ IH|now es w w1 w' Hx _ IH]; intros T Hw.
  { exists T. split; [done|]. naive_solver. }
  - destruct (table_after_allowed o w T Hw) as (T1 & HT1 & Ha). destruct (IH T1 HT1) as (T' & HT' & Hc & Hl).
    exists T'. split; [done|]. split; cbn [existsb asks].
    + intros room c Hr [Ho Hos]%orb_false_iff. apply Hc; [|done]. by apply (call_stays _ _ _ Ha).
    + intros key s Hs [Ho Hos]%orb_false_iff Hsp. destruct (link_stays _ _ _ Ha _ _ Hs Ho) as (s1 & Hs1 & Hsame).
      pose proof (spared_after _ _ _ _ _ Hsame Hsp) as Hsp1. destruct Hsame as (Hp & Hz & _).
      rewrite <- Hp in Hos. destruct (Hl _ _ Hs1 Hos Hsp1) as (s' & Hs' & Hp' & Hz').
      exists s'. split; [done|]. split; congruence.
  - destruct (expired_rep _ _ _ _ Hw Hx) as (T1 & HT1 & Hcalls & Hlinks). destruct (IH T1 HT1) as (T' & HT' & Hc & Hl).
    exists T'. split; [done|]. split; cbn [existsb asks orb].
    + intros room c Hr. apply Hc. by rewrite Hcalls.
    + intros key s Hs Hos [Hlt Hsp]. apply Hl; [|done..]. by apply Hlinks.
Qed.

Definition evening : list Operation :=
  [GetOrAddCallRecord (CallRecord.mk "room" "era2" "10.0.0.2" "us" "eve"); RemoveCallRecord "room" "era0";
   UpdateCallLink 0 "ab" (CallLinkUpdate.mk [2] None None None) None; DeleteCallLink "ab" [2]].

Definition link : CallLinkState := CallLinkState.new [1] [9] 0.
Definition night : list Happening := (Operates <$> evening) ++ [Expires (CallLinkState.delete_at link - 1)].

(** A table with the call and the link. *)
Definition tables : Tables := mk_tables {["room" := ring]} {["adhoc:ab" := link]}.
Definition dusk : gmap Key Item :=
  {[("room", CallRecord.RECORD_TYPE) := call_row ring; ("adhoc:ab", CallLinkState.RECORD_TYPE) := link_row "adhoc:ab" link]}.

Lemma dusk_rep : rep (rows dusk) tables.
Proof.
  assert (rows dusk = dusk) as -> by (vm_compute; reflexivity). unfold dusk, tables. split; cbn.
  - intros room. rewrite lookup_insert. case_decide as Hd; [injection Hd as <-; by rewrite lookup_singleton_eq|].
    rewrite lookup_singleton_ne by done. rewrite lookup_singleton_ne; [done|congruence].
  - by intros room c [<- <-]%lookup_singleton_Some.
  - intros key. rewrite lookup_insert_ne by done. destruct (decide (key = "adhoc:ab")) as [->|Hne].
    + by rewrite !lookup_singleton_eq.
    + rewrite !lookup_singleton_ne by congruence. done.
  - intros key s [<- <-]%lookup_singleton_Some. split; vm_compute; reflexivity.
Qed.

Lemma records_stay_witness : exists w' T',
  happens night dusk w' /\ rep (rows w') T' /\ calls T' !! "room" = Some ring /\
    exists s', links T' !! "adhoc:ab" = Some s' /\ CallLinkState.admin_passkey s' = [1].
Proof.
  assert (exists w', happens night dusk w') as [w' Hw'].
  { eexists. do 4 apply happens_operation. eapply happens_expiry; [|apply happens_nothing].
    split; [reflexivity|]. intros k item E E'. congruence. }
  destruct (records_stay night dusk w' tables dusk_rep Hw') as (T' & HT & Hc & Hl).
  exists w', T'. split; [exact Hw'|]. split; [exact HT|]. split.
  - apply Hc; [apply lookup_singleton_eq|reflexivity].
  - destruct (Hl "adhoc:ab" link) as (s' & Hs' & Hp & _); [apply lookup_singleton_eq|reflexivity| |by exists s'].
    cbn. split; [vm_compute; reflexivity|exact I].
Defined.
End StorageProperties.
