(* ===== verification/Backend.v ===== *)
(** * Backend: what the frontend asks of a calling server

    [src/frontend/src/backend.rs] (addresses, requests and responses, the trait
    [Backend] as a type class) and [src/frontend/src/frontend.rs].  The HTTP
    client behind the trait is not modelled; the handlers see its interface. *)
From Stdlib Require Import Ascii.
From stdpp Require Import strings.
From S2P Require Import Prelude Text Storage.

(** ** Addresses: the [FromStr] of [std::net] *)
Module Address.

Inductive IpAddr :=
| V4 (octets : list Z)
| V6 (segments : list Z).

Record t := mk { ip : IpAddr; port : Z }.

Definition all_digits (s : string) : bool := all_chars (fun c => bool_decide (is_Some (digit c))) s.

(** A decimal number of at most [max]; without [leading_zeros], at most 3 digits
    and no superfluous zero. *)
Definition parse_decimal (max : Z) (leading_zeros : bool) (s : string) : option Z :=
  if is_empty s || negb (all_digits s) then None
  else if negb leading_zeros && ((3 <? String.length s)%nat || starts_with "0" s && (1 <? String.length s)%nat) then None
  else match parse_digits 0 s with
       | Some n => if n <=? max then Some n else None
       | None => None
       end.

Definition parse_ipv4 (s : string) : option IpAddr :=
  let parts := split "." s in
  if (length parts =? 4)%nat then V4 <$> mapM (parse_decimal 255 false) parts else None.

(** A group of one to four hexadecimal digits. *)
Fixpoint parse_hex (acc : Z) (s : string) : option Z :=
  match s with
  | EmptyString => Some acc
  | String c s => match char_nibble c with Some d => parse_hex (16 * acc + d) s | None => None end
  end.

Definition parse_group (s : string) : option Z :=
  if is_empty s || (4 <? String.length s)%nat then None else parse_hex 0 s.

(** Groups between colons; the last two may be written as an IPv4 address. *)
Fixpoint parse_groups (parts : list string) : option (list Z) :=
  match parts with
  | [] => Some []
  | [p] =>
      match parse_group p with
      | Some g => Some [g]
      | None => match parse_ipv4 p with
                | Some (V4 [a; b; c; d]) => Some [256 * a + b; 256 * c + d]
                | _ => None
                end
      end
  | p :: ps => g ← parse_group p; gs ← parse_groups ps; Some (g :: gs)
  end.

(** The text before and after the first double colon. *)
Fixpoint split_double_colon (s : string) : option (string * string) :=
  match s with
  | String ":" (String ":" s') => Some (EmptyString, s')
  | String c s' =>
      match split_double_colon s' with
      | Some (a, b) => Some (String c a, b)
      | None => None
      end
  | EmptyString => None
  end.

Definition groups_of (s : string) : option (list Z) :=
  if is_empty s then Some [] else parse_groups (split ":" s).

Definition parse_ipv6 (s : string) : option IpAddr :=
  match split_double_colon s with
  | None => gs ← groups_of s; if (length gs =? 8)%nat then Some (V6 gs) else None
  | Some (a, b) =>
      if contains "." a then None
      else
        head ← groups_of a; tail ← groups_of b;
        (if (length head + length tail <=? 7)%nat
         then Some (V6 (head ++ replicate (8 - length head - length tail) 0 ++ tail)) else None)
  end.

Definition parse_ip (s : string) : option IpAddr :=
  match parse_ipv4 s with
  | Some a => Some a
  | None => parse_ipv6 s
  end.

Definition parse_port (s : string) : option Z := parse_decimal 65535 true s.

(** A number for the scope of an address may follow it. *)
Definition without_scope (s : string) : option string :=
  match split_once "%" s with
  | None => Some s
  | Some (a, scope) => _ ← parse_decimal (2 ^ 32 - 1) true scope; Some a
  end.

Definition parse_socket_addr (s : string) : option t :=
  match s with
  | String "[" s =>
      match split_once "]" s with
      | Some (a, String ":" p) =>
          a ← without_scope a; ip ← parse_ipv6 a; port ← parse_port p; Some (mk ip port)
      | _ => None
      end
  | _ =>
      match split_once ":" s with
      | Some (a, p) => ip ← parse_ipv4 a; port ← parse_port p; Some (mk ip port)
      | None => None
      end
  end.

(** Without a port, the one of the signaling server of a backend. *)
Definition try_from (s : string) : Res string t :=
  match parse_socket_addr s with
  | Some addr => Ok addr
  | None => match parse_ip s with
            | Some ip => Ok (mk ip 11100)
            | None => Err "Can't parse backend ip"
            end
  end.

Example try_from_v4 : try_from "10.1.2.3" = Ok (mk (V4 [10; 1; 2; 3]) 11100).
Proof. reflexivity. Qed.
Example try_from_port : try_from "10.1.2.3:80" = Ok (mk (V4 [10; 1; 2; 3]) 80).
Proof. reflexivity. Qed.
Example try_from_v6 : try_from "[fe80::1%2]:443" = Ok (mk (V6 [65152; 0; 0; 0; 0; 0; 0; 1]) 443).
Proof. reflexivity. Qed.
Example try_from_bad : try_from "10.1.2.03" = Err "Can't parse backend ip".
Proof. reflexivity. Qed.

End Address.

(** ** Requests and responses *)
Module Backend.

Record ClientInfo := client_info { client_demux_id : Z; client_user_id : option string }.

Record ClientsResponse := clients_response {
  user_ids : list string;
  demux_ids : list Z;
  pending_clients : list ClientInfo
}.

Record JoinRequest := join_request {
  user_id : string;
  ice_ufrag : string;
  dhe_public_key : option string;
  hkdf_extra_info : option string;
  region : string;
  new_clients_require_approval : bool;
  is_admin : bool;
  room_id : string;
  approved_users : option (list string)
}.

Record JoinResponse := join_response {
  ips : list string;
  port : Z;
  port_tcp : Z;
  port_tls : option Z;
  hostname : option string;
  server_ice_ufrag : string;
  server_ice_pwd : string;
  server_dhe_public_key : string;
  client_status : string
}.

Inductive BackendError :=
| CallNotFound
| UnexpectedError (context : string)
| Timeout.

(** The trait, without [get_info]: [select_ip] falls back to it. *)
Class Backend (W : Type) := {
  select_ip : M W BackendError string;
  get_clients : Address.t -> string -> option string -> M W BackendError ClientsResponse;
  join : Address.t -> string -> Z -> JoinRequest -> M W BackendError JoinResponse
}.

End Backend.
