(* ===== verification/Frontend.v ===== *)
(** * Frontend: joining calls and listing who is in them

    [src/frontend/src/frontend.rs].  The frontend keeps no state of its own: its
    operations work on a world that answers for the storage, the backends and the
    generator of ids, each through its interface. *)
From Stdlib Require Import Ascii.
From stdpp Require Import strings.
From S2P Require Import Prelude Text Layers Storage Backend.

Module Frontend.
Import Storage Backend.

(** The fields of [config::Config] that are read. *)
Record Config := config {
  region : string;
  regional_url_template : string;
  max_clients_per_call : Z
}.

(** The trait [IdGenerator]; neither operation fails. *)
Class IdGenerator (W : Type) := {
  get_random_demux_id : string -> W -> DemuxId.t * W;
  get_random_era_id : nat -> W -> string * W
}.

Definition generate {W E A} (op : W -> A * W) : M W E A := fun w => let '(a, w) := op w in (Ok a, w).

(** [FrontendIdGenerator::get_random_demux_id] of a random [u32] *)
Definition random_demux_id {E} (unmasked_id : Z) : Res E DemuxId.t :=
  o ← ok_opt (DemuxId.try_from (Z.land unmasked_id 4294967280)); unwrap o.

(** [urlencoding::encode] *)
Class UrlEncoding := encode : string -> string.

Record JoinRequestWrapper := join_request_wrapper {
  ice_ufrag : string;
  dhe_public_key : string;
  hkdf_extra_info : option string;
  join_region : string;
  restrictions : CallLinkRestrictions;
  is_admin : bool;
  approved_users : option (list string)
}.

Record JoinResponseWrapper := join_response_wrapper {
  demux_id : Z;
  port : Z;
  port_tcp : Z;
  port_tls : option Z;
  hostname : option string;
  ips : list string;
  server_ice_ufrag : string;
  server_ice_pwd : string;
  server_dhe_public_key : string;
  client_status : string
}.

Record ClientInfo := client_info { opaque_user_id : option string; client_demux_id : DemuxId.t }.

Record ClientsResponseWrapper := clients_response_wrapper {
  active_clients : list ClientInfo;
  pending_clients : list ClientInfo
}.

Inductive FrontendError :=
| CallNotFound
| NoPermissionToCreateCall
| InternalError.

(** [template.replace(pattern, with)], of a pattern that is not empty; [skip]
    characters of a match are still to be passed over. *)
Fixpoint replace_go (pattern by_ : string) (skip : nat) (s : string) : string :=
  match s with
  | EmptyString => EmptyString
  | String c s' =>
      match skip with
      | S n => replace_go pattern by_ n s'
      | O => if starts_with pattern s then by_ +:+ replace_go pattern by_ (String.length pattern - 1) s'
             else String c (replace_go pattern by_ O s')
      end
  end.
Definition replace (pattern by_ s : string) : string := replace_go pattern by_ 0 s.

Definition get_redirect_uri `{UrlEncoding} (self : Config) (backend_region original_path : string) : option string :=
  if negb (String.eqb backend_region (region self)) then
    Some (replace "<region>" backend_region (regional_url_template self) +:+ original_path +:+ "?region=" +:+
          encode (region self))
  else None.

(** What [get_clients] answered, as clients. *)
Definition to_demux_id (raw : Z) : Res BackendError DemuxId.t :=
  map_err (fun _ => UnexpectedError "invalid demux id") (DemuxId.try_from raw).

Fixpoint collect {E A B} (f : A -> Res E B) (l : list A) : Res E (list B) :=
  match l with
  | [] => Ok []
  | x :: l => y ← f x; ys ← collect f l; Ok (y :: ys)
  end.

Definition clients_of_response (response : ClientsResponse) : Res BackendError ClientsResponseWrapper :=
  if negb (length (demux_ids response) =? length (user_ids response))%nat
  then Err (UnexpectedError "mismatched lists in ClientResponse")
  else
    active ← collect (fun '(user_id, raw_demux_id) =>
               demux_id ← to_demux_id raw_demux_id; Ok (client_info (Some user_id) demux_id))
             (zip (user_ids response) (demux_ids response));
    pending ← collect (fun client =>
                demux_id ← to_demux_id (Backend.client_demux_id client);
                Ok (client_info (client_user_id client) demux_id))
              (Backend.pending_clients response);
    Ok (clients_response_wrapper active pending).

Section operations.
Context {W : Type} `{Storage W, Backend W, IdGenerator W}.

Definition internal {E} (_ : E) : FrontendError := InternalError.

Definition get_call_record (room_id : string) : M W FrontendError CallRecord :=
  record ← map_err_m internal (Storage.get_call_record room_id);
  lift (ok_or CallNotFound record).

Definition get_client_ids_in_call (call : CallRecord) (user_id : string) : M W FrontendError ClientsResponseWrapper :=
  backend_address ← lift (map_err internal (Address.try_from (CallRecord.backend_ip call)));
  result ← attempt (response ← get_clients backend_address (CallRecord.era_id call) (Some user_id);
                    lift (clients_of_response response));
  match result with
  | inr client_response => mret client_response
  | inl Backend.CallNotFound =>
      _ ← attempt (E := StorageError.t) (remove_call_record (CallRecord.room_id call) (CallRecord.era_id call));
      fail CallNotFound
  | inl (UnexpectedError _) => fail InternalError
  | inl Timeout => fail InternalError
  end.

Definition get_or_create_call_record (self : Config) (room_id : string) (can_create : bool) (user_id : string) :
    M W FrontendError CallRecord :=
  if negb can_create then
    record ← map_err_m internal (Storage.get_call_record room_id);
    lift (ok_or NoPermissionToCreateCall record)
  else
    backend_ip ← map_err_m internal select_ip;
    era_id ← generate (get_random_era_id 16);
    map_err_m internal (get_or_add_call_record (CallRecord.mk room_id era_id backend_ip (region self) user_id)).

Definition get_or_create_call_link_call_record (self : Config) (room_id : string) (can_create : bool) (user_id : string) :
    M W FrontendError CallRecord :=
  get_or_create_call_record self (call_link_room_key room_id) can_create user_id.

Definition join_client_to_call (user_id : string) (call : CallRecord) (join_request : JoinRequestWrapper) :
    M W FrontendError JoinResponseWrapper :=
  demux_id ← generate (get_random_demux_id user_id);
  backend_address ← lift (map_err internal (Address.try_from (CallRecord.backend_ip call)));
  response ← map_err_m internal (join backend_address (CallRecord.era_id call) demux_id
    (Backend.join_request user_id (ice_ufrag join_request) (Some (dhe_public_key join_request))
       (hkdf_extra_info join_request) (join_region join_request)
       (bool_decide (restrictions join_request = AdminApproval)) (is_admin join_request)
       (CallRecord.room_id call) (approved_users join_request)));
  mret (join_response_wrapper demux_id (Backend.port response) (Backend.port_tcp response) (Backend.port_tls response)
    (Backend.hostname response) (Backend.ips response) (Backend.server_ice_ufrag response)
    (Backend.server_ice_pwd response) (Backend.server_dhe_public_key response) (Backend.client_status response)).

Definition remove_call_record (room_id era_id : string) : M W FrontendError unit :=
  map_err_m internal (Storage.remove_call_record room_id era_id).
End operations.

End Frontend.
