(* ===== verification/FrontendApi.v ===== *)
(** * FrontendApi: the requests that clients send to the frontend

    [src/frontend/src/api.rs] (the [authorize] layer and the route to the handlers),
    [api/v2.rs], [api/call_links.rs] and [internal_api.rs].  A handler is an
    operation on the world of [Frontend] that gives a response or a status.  The
    times that it reads from the clock are arguments. *)
From Stdlib Require Import Ascii.
From stdpp Require Import strings.
From S2P Require Import Prelude Text Authenticator Layers Storage Backend Frontend.

(** ** What the handlers use of other crates *)

(** [zkgroup] and its [bincode] encodings, under the secret parameters of the
    server.  A time is in seconds. *)
Class ZkGroup := {
  CallLinkAuthCredentialPresentation : Type;
  CreateCallLinkCredentialPresentation : Type;
  CallLinkPublicParams : Type;
  deserialize_params : bytes -> option CallLinkPublicParams;
  deserialize_params_strict : bytes -> option CallLinkPublicParams;   (* fixed-size integers, no rest *)
  deserialize_auth : bytes -> option CallLinkAuthCredentialPresentation;
  deserialize_create : bytes -> option CreateCallLinkCredentialPresentation;
  verify_auth : CallLinkAuthCredentialPresentation -> Z -> CallLinkPublicParams -> bool;
  verify_create : CreateCallLinkCredentialPresentation -> bytes -> Z -> CallLinkPublicParams -> bool;
  serialized_user_id : CallLinkAuthCredentialPresentation -> bytes
}.

(** [http]: the text of a header, and what may be sent in one. *)
Class HeaderValues := {
  header_to_str : bytes -> option string;
  header_from_str_ok : string -> bool
}.

Module StatusCode.
Definition t : Type := Z.
Definition BAD_REQUEST : t := 400.
Definition UNAUTHORIZED : t := 401.
Definition FORBIDDEN : t := 403.
Definition NOT_FOUND : t := 404.
Definition CONFLICT : t := 409.
Definition PAYLOAD_TOO_LARGE : t := 413.
Definition INTERNAL_SERVER_ERROR : t := 500.

(** [From<FrontendError>] *)
Definition from_frontend_error (err : Frontend.FrontendError) : t :=
  match err with
  | Frontend.CallNotFound => NOT_FOUND
  | Frontend.NoPermissionToCreateCall => FORBIDDEN
  | Frontend.InternalError => INTERNAL_SERVER_ERROR
  end.
End StatusCode.

(** A response: its JSON, a redirection, or 404 with a reason. *)
Inductive Response (A : Type) :=
| Json (body : A)
| TemporaryRedirect (uri : string)
| NotFound (reason : string).
Arguments Json {A} body.
Arguments TemporaryRedirect {A} uri.
Arguments NotFound {A} reason.

(** ** [call_links::RoomId] *)
Module RoomId.

(** The header [X-Room-Id]: one value of 1 to 128 bytes. *)
Definition decode `{HeaderValues} (values : list bytes) : option string :=
  match values with
  | [value] =>
      if (length value =? 0)%nat || (128 <? length value)%nat then None
      else header_to_str value
  | _ => None
  end.

(** [TryFrom<String>] *)
Definition try_from (value : string) : Res StatusCode.t string :=
  if is_empty value || (128 <? String.length value)%nat || contains ":" value
  then Err StatusCode.BAD_REQUEST else Ok value.
End RoomId.

(** ** The [authorize] layer *)
Module Api.
Import Authenticator.

Inductive Method := GET | PUT | DELETE.
#[global] Instance Method_eq_dec : EqDecision Method.
Proof. solve_decision. Defined.

Record Request := request {
  method : Method;
  path : string;
  user_agent : option bytes;
  authorization : option bytes;
  room_id_header : list bytes
}.

(** What is put into the extensions of a request. *)
Inductive Extension `{ZkGroup} :=
| GroupAuth (user : UserAuthorization.t)
| LinkAuth (credential : CallLinkAuthCredentialPresentation)
| CreateAuth (credential : CreateCallLinkCredentialPresentation).

Section authorize.
Context `{ZkGroup, HeaderValues, Hex, Base64, HmacSha256}.

Definition get_user_agent (req : Request) : Res StatusCode.t string :=
  ok_or StatusCode.BAD_REQUEST (header ← user_agent req; header_to_str header).

Definition credential_of {A} (deserialize : bytes -> option A) (credential_base64 : string) : Res StatusCode.t A :=
  credential_bytes ← ok_or StatusCode.BAD_REQUEST (base64_decode credential_base64);
  ok_or StatusCode.BAD_REQUEST (deserialize credential_bytes).

Definition authorize (authenticator : Authenticator.t) (req : Request) : Res StatusCode.t Extension :=
  user_agent ← get_user_agent req;
  _ ← match RoomId.decode (room_id_header req) with
      | Some room_id => if contains ":" room_id then Err StatusCode.BAD_REQUEST else Ok ()
      | None => Ok ()
      end;
  authorization_header ← ok_or StatusCode.UNAUTHORIZED (header ← authorization req; header_to_str header);
  authorization_header ← map_err (fun _ => StatusCode.BAD_REQUEST) (parse_authorization_header authorization_header);
  match authorization_header with
  | Basic _ password =>
      token ← map_err (fun _ => StatusCode.UNAUTHORIZED) (GroupAuthToken.from_str password);
      user_authorization ← map_err (fun _ => StatusCode.UNAUTHORIZED) (verify authenticator token password);
      Ok (GroupAuth user_authorization)
  | Bearer token =>
      match split_once "." token with
      | Some (kind, credential_base64) =>
          if String.eqb kind "auth" then LinkAuth <$> credential_of deserialize_auth credential_base64
          else if String.eqb kind "create" && bool_decide (method req = PUT)
          then CreateAuth <$> credential_of deserialize_create credential_base64
          else Err StatusCode.BAD_REQUEST
      | None => Err StatusCode.BAD_REQUEST
      end
  end.

End authorize.
End Api.

(** ** Call links *)
Module CallLinks.
Import Storage.

Definition ADMIN_PASSKEY_LIMIT : nat := 32.
Definition CALL_LINK_NAME_LIMIT : nat := 256.
Definition AES_TAG_AND_SALT_OVERHEAD : nat := 32.

(** What clients see of a link. *)
Record CallLinkState := call_link_state {
  restrictions : CallLinkRestrictions;
  name : bytes;
  revoked : bool;
  expiration : Z;
  delete_at : Z
}.

Definition from_storage (value : Storage.CallLinkState) : CallLinkState :=
  call_link_state (CallLinkState.restrictions value) (CallLinkState.encrypted_name value)
    (CallLinkState.revoked value) (CallLinkState.expiration value) (CallLinkState.delete_at value).

Record CallLinkUpdate := call_link_update {
  update_passkey : bytes;
  update_zkparams : option bytes;
  update_restrictions : option CallLinkRestrictions;
  update_name : option bytes;
  update_revoked : option bool
}.

(** [From<CallLinkUpdate>] *)
Definition to_storage (value : CallLinkUpdate) : Storage.CallLinkUpdate :=
  CallLinkUpdate.mk (update_passkey value) (update_restrictions value) (update_name value) (update_revoked value).

Section handlers.
Context `{ZkGroup, Hex}.
Context {W : Type} `{Storage W}.

(** [current_time()] *)
Definition current_time (now : Z) : Z := now / 1000000000.

Definition verify_auth_credential_against_zkparams (auth_credential : CallLinkAuthCredentialPresentation)
    (existing_call_link : Storage.CallLinkState) (now : Z) : Res StatusCode.t unit :=
  match deserialize_params (CallLinkState.zkparams existing_call_link) with
  | None => Err StatusCode.INTERNAL_SERVER_ERROR
  | Some call_link_params =>
      if verify_auth auth_credential (current_time now) call_link_params then Ok () else Err StatusCode.FORBIDDEN
  end.

Definition server_error {E} (_ : E) : StatusCode.t := StatusCode.INTERNAL_SERVER_ERROR.

Definition read_call_link (now : Z) (auth_credential : CallLinkAuthCredentialPresentation) (room_id : string) :
    M W StatusCode.t (Response CallLinkState) :=
  link ← map_err_m server_error (get_call_link room_id);
  state ← lift (ok_or StatusCode.NOT_FOUND link);
  _ ← lift (verify_auth_credential_against_zkparams auth_credential state now);
  mret (Json (from_storage state)).

(** Whether the request may change the link: the update to make, the parameters
    for a new link, and whether the credential is one to create. *)
Definition check_update (now : Z) (auth_credential : option CallLinkAuthCredentialPresentation)
    (create_credential : option CreateCallLinkCredentialPresentation) (room_id : string) (room_id_bytes : bytes)
    (update : CallLinkUpdate) : M W StatusCode.t (CallLinkUpdate * option bytes * bool) :=
  match create_credential, auth_credential with
  | Some create_credential, _ =>
      let zkparams_for_create := update_zkparams update in
      call_link_params ← lift (ok_or StatusCode.BAD_REQUEST (zkparams_for_create ≫= deserialize_params_strict));
      _ ← lift (if verify_create create_credential room_id_bytes (current_time now) call_link_params
                then Ok () else Err StatusCode.UNAUTHORIZED);
      mret (call_link_update (update_passkey update) None
              (Some (unwrap_or (update_restrictions update) AdminApproval))
              (update_name update) (update_revoked update), zkparams_for_create, true)
  | None, Some auth_credential =>
      if bool_decide (is_Some (update_zkparams update)) then fail StatusCode.BAD_REQUEST
      else
        '(maybe_existing_call_link, maybe_current_call_record) ←
          map_err_m server_error (get_call_link_and_record room_id true);
        _ ← match maybe_existing_call_link with
            | Some existing_call_link =>
                lift (verify_auth_credential_against_zkparams auth_credential existing_call_link now)
            | None => fail StatusCode.UNAUTHORIZED
            end;
        if bool_decide (is_Some maybe_current_call_record) && bool_decide (is_Some (update_restrictions update))
        then fail StatusCode.CONFLICT
        else mret (update, None, false)
  | None, None => fail StatusCode.UNAUTHORIZED
  end.

Definition update_call_link (now : Z) (auth_credential : option CallLinkAuthCredentialPresentation)
    (create_credential : option CreateCallLinkCredentialPresentation) (room_id : string) (update : CallLinkUpdate) :
    M W StatusCode.t (Response CallLinkState) :=
  room_id_bytes ← lift (ok_or StatusCode.BAD_REQUEST (hex_decode room_id));
  if (ADMIN_PASSKEY_LIMIT <? length (update_passkey update))%nat then fail StatusCode.PAYLOAD_TOO_LARGE
  else if match update_name update with
          | Some new_name => (CALL_LINK_NAME_LIMIT + AES_TAG_AND_SALT_OVERHEAD <? length new_name)%nat
          | None => false
          end then fail StatusCode.PAYLOAD_TOO_LARGE
  else
    '(update, zkparams_for_create, has_create_credential) ←
      check_update now auth_credential create_credential room_id room_id_bytes update;
    result ← attempt (Storage.update_call_link now room_id (to_storage update) zkparams_for_create);
    match result with
    | inr state => mret (Json (from_storage state))
    | inl CallLinkUpdateError.AdminPasskeyDidNotMatch =>
        if (has_create_credential : bool) then fail StatusCode.CONFLICT else fail StatusCode.FORBIDDEN
    | inl CallLinkUpdateError.RoomDoesNotExist => fail StatusCode.INTERNAL_SERVER_ERROR
    | inl (CallLinkUpdateError.UnexpectedError _) => fail StatusCode.INTERNAL_SERVER_ERROR
    end.

Definition delete_call_link (now : Z) (auth_credential : option CallLinkAuthCredentialPresentation) (room_id : string)
    (admin_passkey : bytes) : M W StatusCode.t (Response unit) :=
  _ ← lift (ok_or StatusCode.BAD_REQUEST (hex_decode room_id));
  if (ADMIN_PASSKEY_LIMIT <? length admin_passkey)%nat then fail StatusCode.PAYLOAD_TOO_LARGE
  else match auth_credential with
  | None => fail StatusCode.UNAUTHORIZED
  | Some auth_credential =>
      '(maybe_existing_call_link, maybe_current_call_record) ←
        map_err_m server_error (get_call_link_and_record room_id true);
      match maybe_existing_call_link with
      | None => mret (Json ())
      | Some existing_call_link =>
          _ ← lift (verify_auth_credential_against_zkparams auth_credential existing_call_link now);
          if bool_decide (is_Some maybe_current_call_record) then fail StatusCode.CONFLICT
          else
            result ← attempt (Storage.delete_call_link room_id admin_passkey);
            match result with
            | inr _ => mret (Json ())
            | inl CallLinkDeleteError.AdminPasskeyDidNotMatch => fail StatusCode.FORBIDDEN
            | inl CallLinkDeleteError.RoomDoesNotExist => mret (Json ())
            | inl CallLinkDeleteError.CallRecordConflict => fail StatusCode.CONFLICT
            | inl (CallLinkDeleteError.UnexpectedError _) => fail StatusCode.INTERNAL_SERVER_ERROR
            end
      end
  end.

(** What the two routes for testing share: the link must exist and the
    credential be right.  An update that does not check the passkey cannot fail on it. *)
Definition checked_change (now : Z) (auth_credential : CallLinkAuthCredentialPresentation) (room_id : string)
    (change : M W CallLinkUpdateError.t unit) : M W StatusCode.t unit :=
  _ ← lift (ok_or StatusCode.BAD_REQUEST (hex_decode room_id));
  link ← map_err_m server_error (get_call_link room_id);
  existing_call_link ← lift (ok_or StatusCode.NOT_FOUND link);
  _ ← lift (verify_auth_credential_against_zkparams auth_credential existing_call_link now);
  result ← attempt change;
  match result with
  | inr _ => mret ()
  | inl CallLinkUpdateError.AdminPasskeyDidNotMatch => lift Panic
  | inl CallLinkUpdateError.RoomDoesNotExist => fail StatusCode.INTERNAL_SERVER_ERROR
  | inl (CallLinkUpdateError.UnexpectedError _) => fail StatusCode.INTERNAL_SERVER_ERROR
  end.

Definition reset_call_link_expiration (now : Z) (auth_credential : CallLinkAuthCredentialPresentation)
    (room_id : string) : M W StatusCode.t unit :=
  checked_change now auth_credential room_id (Storage.reset_call_link_expiration room_id now).

Definition reset_call_link_approvals (now : Z) (auth_credential : CallLinkAuthCredentialPresentation)
    (room_id : string) : M W StatusCode.t unit :=
  checked_change now auth_credential room_id (update_call_link_approved_users room_id []).
End handlers.
End CallLinks.

(** ** [api/v2.rs] *)
Module V2.
Import Storage Frontend Api.

Record Participant := participant { opaque_user_id : option string; demux_id : Z }.

Record ParticipantsResponse := participants_response {
  era_id : string;
  max_devices : Z;
  participants : list Participant;
  creator : string;
  pending_clients : list Participant;
  call_link_state : option CallLinks.CallLinkState
}.

Record JoinRequest := join_request {
  admin_passkey : option bytes;
  ice_ufrag : string;
  dhe_public_key : string;
  hkdf_extra_info : option string
}.

Record JoinResponse := join_response {
  joined : JoinResponseWrapper;
  call_creator : string;
  joined_era_id : string
}.

Definition participant_of (client : ClientInfo) : Participant :=
  participant (Frontend.opaque_user_id client) (client_demux_id client).

Section handlers.
Context `{ZkGroup, Hex, HeaderValues, UrlEncoding}.
Context {W : Type} `{Storage W, Backend.Backend W, IdGenerator W}.

(** [hex] of the [bincode] of the user's ciphertext *)
Definition user_id_from_uuid_ciphertext (credential : CallLinkAuthCredentialPresentation) : string :=
  hex_encode (serialized_user_id credential).

Definition temporary_redirect {A} (uri : string) : Res StatusCode.t (Response A) :=
  if header_from_str_ok uri then Ok (TemporaryRedirect uri) else Err StatusCode.INTERNAL_SERVER_ERROR.

(** [?] on a [FrontendError] *)
Definition or_status {A} (m : M W FrontendError A) : M W StatusCode.t A := map_err_m StatusCode.from_frontend_error m.

(** The links a handler may see expired or revoked. *)
Definition link_over (state : Storage.CallLinkState) (now : Z) : bool :=
  CallLinkState.revoked state || (CallLinkState.expiration state <? now).

(** The call to ask about: a call, or the answer when there is none. *)
Definition find_call (now : Z) (auth : Extension) (room_id : option string) :
    M W StatusCode.t (CallRecord * string * option Storage.CallLinkState + Response ParticipantsResponse) :=
  match auth, room_id with
  | GroupAuth user_authorization, None =>
      call ← or_status (Frontend.get_call_record (Authenticator.UserAuthorization.room_id user_authorization));
      mret (inl (call, Authenticator.UserAuthorization.user_id user_authorization, None))
  | LinkAuth auth_credential, Some room_id =>
      result ← attempt (get_call_link_and_record room_id true);
      match result with
      | inr (Some state, call) =>
          _ ← lift (CallLinks.verify_auth_credential_against_zkparams auth_credential state now);
          match call with
          | Some call => mret (inl (call, user_id_from_uuid_ciphertext auth_credential, Some state))
          | None => if link_over state now then mret (inr (NotFound "expired")) else fail StatusCode.NOT_FOUND
          end
      | inr (None, _) => mret (inr (NotFound "invalid"))
      | inl _ => fail StatusCode.INTERNAL_SERVER_ERROR
      end
  | LinkAuth _, None => fail StatusCode.BAD_REQUEST
  | _, Some _ => fail StatusCode.UNAUTHORIZED
  | _, None => fail StatusCode.BAD_REQUEST
  end.

Definition get_participants (self : Config) (now : Z) (auth : Extension) (room_id : option string)
    (original_path : string) : M W StatusCode.t (Response ParticipantsResponse) :=
  found ← find_call now auth room_id;
  match found with
  | inr response => mret response
  | inl (call, user_id, state) =>
      match get_redirect_uri self (CallRecord.backend_region call) original_path with
      | Some redirect_uri => lift (temporary_redirect redirect_uri)
      | None =>
          clients_response ← or_status (get_client_ids_in_call call user_id);
          mret (Json (participants_response (CallRecord.era_id call) (max_clients_per_call self)
            (participant_of <$> active_clients clients_response) (CallRecord.creator call)
            (participant_of <$> Frontend.pending_clients clients_response)
            (CallLinks.from_storage <$> state)))
      end
  end.

(** The call to join, who joins, and how; with what is left to do later: the
    expiration of a link whose first call starts is reset in a task of its own. *)
Record Joining := joining {
  j_call : CallRecord;
  j_user_id : string;
  j_restrictions : CallLinkRestrictions;
  j_is_admin : bool;
  j_approved_users : option (list string);
  j_reset_expiration : option string
}.

Definition find_or_create_call (self : Config) (now : Z) (auth : Extension) (room_id : option string)
    (request : JoinRequest) : M W StatusCode.t (Joining + Response JoinResponse) :=
  match auth, room_id with
  | GroupAuth user_authorization, None =>
      call ← or_status (get_or_create_call_record self (Authenticator.UserAuthorization.room_id user_authorization)
               (Authenticator.UserPermission.can_create (Authenticator.UserAuthorization.user_permission user_authorization))
               (Authenticator.UserAuthorization.user_id user_authorization));
      mret (inl (joining call (Authenticator.UserAuthorization.user_id user_authorization) NoRestrictions false None None))
  | LinkAuth auth_credential, Some room_id =>
      result ← attempt (get_call_link_and_record room_id false);
      match result with
      | inr (Some state, call) =>
          _ ← lift (CallLinks.verify_auth_credential_against_zkparams auth_credential state now);
          if link_over state now then mret (inr (NotFound "expired"))
          else
            let is_admin := match admin_passkey request with
                            | Some provided_passkey => bool_decide (CallLinkState.admin_passkey state = provided_passkey)
                            | None => false
                            end in
            let user_id := user_id_from_uuid_ciphertext auth_credential in
            '(call, reset) ← match call with
                             | Some call => mret (call, None)
                             | None =>
                                 call ← or_status (get_or_create_call_link_call_record self room_id true user_id);
                                 mret (call, Some room_id)
                             end;
            mret (inl (joining call user_id (CallLinkState.restrictions state) is_admin
                         (Some (CallLinkState.approved_users state)) reset))
      | inr (None, _) => mret (inr (NotFound "invalid"))
      | inl _ => fail StatusCode.INTERNAL_SERVER_ERROR
      end
  | LinkAuth _, None => fail StatusCode.BAD_REQUEST
  | _, Some _ => fail StatusCode.UNAUTHORIZED
  | _, None => fail StatusCode.BAD_REQUEST
  end.

(** The task that [join] spawns; a failure is only logged. *)
Definition reset_later (now : Z) (room_id : option string) : M W StatusCode.t unit :=
  match room_id with
  | Some room_id => _ ← attempt (Storage.reset_call_link_expiration room_id now); mret ()
  | None => mret ()
  end.

(** The spawned task runs right away here: it changes times of the link that the
    rest of the handler has read already. *)
Definition join (self : Config) (now : Z) (auth : Extension) (room_id : option string) (original_path : string)
    (region : option string) (request : JoinRequest) : M W StatusCode.t (Response JoinResponse) :=
  if is_empty (dhe_public_key request) then fail StatusCode.BAD_REQUEST
  else
    let region := match region with Some region => region | None => Frontend.region self end in
    found ← find_or_create_call self now auth room_id request;
    match found with
    | inr response => mret response
    | inl j =>
        _ ← reset_later now (j_reset_expiration j);
        match get_redirect_uri self (CallRecord.backend_region (j_call j)) original_path with
        | Some redirect_uri => lift (temporary_redirect redirect_uri)
        | None =>
            response ← or_status (join_client_to_call (j_user_id j) (j_call j)
              (join_request_wrapper (ice_ufrag request) (dhe_public_key request) (hkdf_extra_info request)
                 region (j_restrictions j) (j_is_admin j) (j_approved_users j)));
            mret (Json (join_response response (CallRecord.creator (j_call j)) (CallRecord.era_id (j_call j))))
        end
    end.

End handlers.
End V2.

(** ** The route [/v2/conference/participants] *)
Module Route.
Import Frontend Api.

Section route.
Context `{ZkGroup, Hex, Base64, HmacSha256, HeaderValues, UrlEncoding}.
Context {W : Type} `{Storage.Storage W, Backend.Backend W, IdGenerator W}.

(** The room of a request: a header that is not a room id counts as none. *)
Definition room_id_of (req : Request) : option string := RoomId.decode (room_id_header req).

Definition get (self : Config) (authenticator : Authenticator.t) (now : Z) (req : Request) :
    M W StatusCode.t (Response V2.ParticipantsResponse) :=
  auth ← lift (authorize authenticator req);
  V2.get_participants self now auth (room_id_of req) (path req).

Definition put (self : Config) (authenticator : Authenticator.t) (now : Z) (req : Request) (region : option string)
    (body : V2.JoinRequest) : M W StatusCode.t (Response V2.JoinResponse) :=
  auth ← lift (authorize authenticator req);
  V2.join self now auth (room_id_of req) (path req) region body.
End route.
End Route.

(** ** [internal_api.rs], which the backends call *)
Module InternalApi.
Import Storage.

Section handlers.
Context {W : Type} `{Storage W}.

Definition update_approval (room_id : string) (approved_users : list string) : M W StatusCode.t unit :=
  result ← attempt (update_call_link_approved_users room_id approved_users);
  match result with
  | inr _ => mret ()
  | inl CallLinkUpdateError.RoomDoesNotExist => fail StatusCode.NOT_FOUND
  | inl _ => fail StatusCode.INTERNAL_SERVER_ERROR
  end.

Definition remove_call_record (room_id era_id : string) : M W StatusCode.t unit :=
  if is_empty room_id || is_empty era_id then fail StatusCode.BAD_REQUEST
  else map_err_m CallLinks.server_error (Storage.remove_call_record room_id era_id).

Definition remove_batch_call_records (call_keys : list CallRecordKey) : M W StatusCode.t unit :=
  match call_keys with
  | [] => mret ()
  | _ => map_err_m CallLinks.server_error (Storage.remove_batch_call_records call_keys)
  end.
End handlers.
End InternalApi.
