(* ===== verification/FrontendFacts.v ===== *)
(** * FrontendFacts: reasoning about the handlers

    An operation [runs] from some tables to others with a result; [safe] operations
    do not panic and change the tables only in a given way.  Both are proved by
    following the code, from the promises of [Storage] and the fact that asking a
    backend or for an id leaves the tables alone. *)
From Stdlib Require Import Ascii.
From stdpp Require Import strings.
From S2P Require Import Prelude Text Authenticator Layers Storage Backend Frontend FrontendApi.

Module FrontendFacts.
Import Storage StorageSpec.

(** Backends and the generator of ids do not touch the tables, nor do they panic. *)
Class WorldLaws (W : Type) `{StorageLaws W, !Backend.Backend W, !Frontend.IdGenerator W} : Prop := {
  select_ip_law w T : represents w T ->
    represents (snd (Backend.select_ip w)) T /\ fst (Backend.select_ip w) <> Panic;
  get_clients_law addr era user w T : represents w T ->
    represents (snd (Backend.get_clients addr era user w)) T /\ fst (Backend.get_clients addr era user w) <> Panic;
  join_law addr era demux_id r w T : represents w T ->
    represents (snd (Backend.join addr era demux_id r w)) T /\ fst (Backend.join addr era demux_id r w) <> Panic;
  demux_id_law user w T : represents w T -> represents (snd (Frontend.get_random_demux_id user w)) T;
  era_id_law n w T : represents w T -> represents (snd (Frontend.get_random_era_id n w)) T
}.

Section runs.
Context {W : Type} `{StorageLaws W}.

Definition runs {E A} (T : Tables) (m : M W E A) (Q : Res E A -> Tables -> Prop) : Prop :=
  forall w, represents w T -> exists T', represents (snd (m w)) T' /\ Q (fst (m w)) T'.

Lemma runs_weaken {E A} T (m : M W E A) (Q Q' : Res E A -> Tables -> Prop) :
  runs T m Q -> (forall r T', Q r T' -> Q' r T') -> runs T m Q'.
Proof. intros Hm HQ w HR. destruct (Hm w HR) as (T' & ? & ?). eauto. Qed.

Lemma runs_lift {E A} T (r : Res E A) (Q : Res E A -> Tables -> Prop) : Q r T -> runs T (lift r) Q.
Proof. intros HQ w HR. by exists T. Qed.

Lemma runs_bind {E A B} T (m : M W E A) (f : A -> M W E B) Q Q' :
  runs T m Q ->
  (forall a T', Q (Ok a) T' -> runs T' (f a) Q') ->
  (forall e T', Q (Err e) T' -> Q' (Err e) T') -> (forall T', Q Panic T' -> Q' Panic T') ->
  runs T (m ≫= f) Q'.
Proof.
  intros Hm Hf He Hp w HR. destruct (Hm w HR) as (T1 & HR1 & HQ). unfold mbind, M_bind.
  destruct (m w) as [[a|e|] w1]; cbn in *; [by apply (Hf a T1)|..]; eauto.
Qed.

Lemma runs_map_err {E F A} T (g : E -> F) (m : M W E A) Q :
  runs T m (fun r => Q (map_err g r)) -> runs T (map_err_m g m) Q.
Proof. intros Hm w HR. destruct (Hm w HR) as (T1 & HR1 & HQ). unfold map_err_m. destruct (m w). eauto. Qed.

Lemma runs_attempt {E F A} T (m : M W E A) (Q : Res F (E + A) -> Tables -> Prop) :
  runs T m (fun r => Q match r with Ok a => Ok (inr a) | Err e => Ok (inl e) | Panic => Panic end) ->
  runs T (attempt m) Q.
Proof.
  intros Hm w HR. destruct (Hm w HR) as (T1 & HR1 & HQ). unfold attempt. destruct (m w) as [[a|e|] w1]; eauto.
Qed.

(** What an operation on the tables may do. *)
Lemma runs_implements {E A} T unexpected (op : M W E A) ideal :
  implements represents unexpected op ideal ->
  runs T op (fun r T' => tables_ok T /\ Outcome unexpected ideal T r T').
Proof.
  intros Hi w HR. destruct (Hi w T HR) as (T' & HR' & Ho). exists T'. repeat split; try done. by eapply represents_ok.
Qed.

(** A read: the answer or an error, and the tables as they were. *)
Lemma runs_read {E A} T unexpected (op : M W E A) {ideal} (Q : Res E A -> Tables -> Prop) :
  implements represents unexpected op ideal -> (ideal T).2 = T ->
  (tables_ok T -> Q (ideal T).1 T) -> (forall e, tables_ok T -> Q (Err e) T) -> runs T op Q.
Proof.
  intros Hi HT Ha He. eapply runs_weaken; [by apply (runs_implements T unexpected op ideal)|].
  intros r T' [Hok [|e _|e _]]; rewrite ?HT; auto.
Qed.

(** *** Operations that do not panic and change the tables in a given way *)
Definition safe {E A} (R : Tables -> Tables -> Prop) (m : M W E A) : Prop :=
  forall T, runs T m (fun r T' => r <> Panic /\ R T T').

Section change.
Context (R : Tables -> Tables -> Prop) `{!PreOrder R}.

Lemma safe_lift {E A} (r : Res E A) : r <> Panic -> safe R (lift r).
Proof. intros Hr T. by apply runs_lift. Qed.

Lemma safe_ret {E A} (a : A) : @safe E A R (mret a).
Proof. by apply safe_lift. Qed.

Lemma safe_fail {E A} (e : E) : @safe E A R (fail e).
Proof. by apply safe_lift. Qed.

Lemma safe_then {E A B} (m : M W E A) (f : A -> M W E B) : safe R m -> (forall a, safe R (f a)) -> safe R (m ≫= f).
Proof.
  intros Hm Hf T. eapply runs_bind; [apply Hm|..].
  - intros a T1 [_ HT1]. eapply runs_weaken; [apply Hf|]. intros r T2 [Hr HT2]. split; [done|]. by etrans.
  - intros e T1 [_ HT1]. by split.
  - by intros T1 [? _].
Qed.

Lemma safe_map_err {E F A} (g : E -> F) (m : M W E A) : safe R m -> safe R (map_err_m g m).
Proof.
  intros Hm T. apply runs_map_err. eapply runs_weaken; [apply Hm|]. intros r T' [Hr HR]. split; [by destruct r|done].
Qed.

Lemma safe_attempt {E F A} (m : M W E A) : safe R m -> safe (E := F) R (attempt m).
Proof.
  intros Hm T. apply runs_attempt. eapply runs_weaken; [apply Hm|]. intros r T' [Hr HR]. split; [by destruct r|done].
Qed.

(** An operation on the tables is safe if what it does to them is. *)
Lemma safe_implements {E A} unexpected (op : M W E A) ideal :
  implements represents unexpected op ideal ->
  (forall T, (ideal T).1 <> Panic) -> (forall T, R T (ideal T).2) -> safe R op.
Proof.
  intros Hi Hp HR T. eapply runs_weaken; [by apply (runs_implements T unexpected op ideal)|].
  intros r T' [_ [|e _|e _]]; split; done.
Qed.

Lemma safe_generate {E A} (op : W -> A * W) :
  (forall w T, represents w T -> represents (snd (op w)) T) -> safe (E := E) R (Frontend.generate op).
Proof.
  intros Hop T w HR. specialize (Hop w T HR). unfold Frontend.generate. destruct (op w). by exists T.
Qed.

Lemma safe_keeps {E A} (op : M W E A) :
  (forall w T, represents w T -> represents (snd (op w)) T /\ fst (op w) <> Panic) -> safe R op.
Proof. intros Hop T w HR. destruct (Hop w T HR). by exists T. Qed.
End change.

(** Reads. *)
Section reads.
Context (R : Tables -> Tables -> Prop) `{!PreOrder R}.

Lemma safe_get_call_record room : safe R (Storage.get_call_record room).
Proof. eapply safe_implements; [first [assumption | typeclasses eauto]|apply get_call_record_law|done..]. Qed.
Lemma safe_get_call_link room : safe R (Storage.get_call_link room).
Proof. eapply safe_implements; [first [assumption | typeclasses eauto]|apply get_call_link_law|done..]. Qed.
Lemma safe_get_call_link_and_record room peek_only : safe R (Storage.get_call_link_and_record room peek_only).
Proof. eapply safe_implements; [first [assumption | typeclasses eauto]|apply get_call_link_and_record_law|done..]. Qed.
End reads.
End runs.

Create HintDb safe.
#[export] Hint Resolve safe_ret safe_fail safe_then safe_map_err safe_attempt safe_get_call_record safe_get_call_link
  safe_get_call_link_and_record : safe.
#[export] Hint Extern 1 (safe _ (lift _)) => apply safe_lift : safe.

(** Follow the code of an operation. *)
Ltac safe_step :=
  match goal with
  | |- safe _ (mret _) => apply safe_ret
  | |- safe _ (fail _) => apply safe_fail
  | |- safe _ (_ ≫= _) => apply safe_then; [first [assumption | typeclasses eauto]| |intros ?]
  | |- safe _ (map_err_m _ _) => apply safe_map_err
  | |- safe _ (attempt _) => apply safe_attempt
  | |- safe _ (Storage.get_call_record _) => apply safe_get_call_record; typeclasses eauto
  | |- safe _ (Storage.get_call_link _) => apply safe_get_call_link; typeclasses eauto
  | |- safe _ (Storage.get_call_link_and_record _ _) => apply safe_get_call_link_and_record; typeclasses eauto
  | |- safe _ (lift _) => apply safe_lift
  | |- safe _ (if ?b then _ else _) => destruct b
  | |- safe _ (match ?x with _ => _ end) => destruct x
  | |- safe _ (let '(_, _) := ?x in _) => destruct x
  | |- PreOrder _ => first [assumption | typeclasses eauto]
  end.
Ltac safe_go := repeat safe_step.

Lemma ok_or_no_panic {E A} (e : E) (o : option A) : ok_or e o <> Panic.
Proof. by destruct o. Qed.


Lemma collect_no_panic {E A B} (f : A -> Res E B) l : (forall x, f x <> Panic) -> Frontend.collect f l <> Panic.
Proof.
  intros Hf. induction l as [|x l IH]; [done|]. cbn. specialize (Hf x). destruct (f x); cbn; try done.
  by destruct (Frontend.collect f l).
Qed.

Lemma clients_no_panic r : Frontend.clients_of_response r <> Panic.
Proof.
  unfold Frontend.clients_of_response. case_if; [done|].
  assert (forall raw, Frontend.to_demux_id raw <> Panic) as Hd.
  { intros raw. unfold Frontend.to_demux_id, DemuxId.try_from. by case_if. }
  match goal with |- mbind _ (Frontend.collect ?f ?l) <> _ => pose proof (collect_no_panic f l) as H1; destruct (Frontend.collect f l) end.
  - rewrite mbind_Ok.
    match goal with |- mbind _ (Frontend.collect ?f ?l) <> _ => pose proof (collect_no_panic f l) as H2; destruct (Frontend.collect f l) end;
      [done..|]. exfalso. apply H2; [|done]. intros x. specialize (Hd (Backend.client_demux_id x)). by destruct (Frontend.to_demux_id _).
  - done.
  - exfalso. apply H1; [|done]. intros [u raw]. specialize (Hd raw). by destruct (Frontend.to_demux_id raw).
Qed.

Lemma address_no_panic s : Address.try_from s <> Panic.
Proof. unfold Address.try_from. by destruct (Address.parse_socket_addr s), (Address.parse_ip s). Qed.

Section operations.
Context {W : Type} `{WorldLaws W}.

Lemma safe_get_client_ids R `{!PreOrder R} call user :
  (forall T, R T (remove_call_record (CallRecord.room_id call) (CallRecord.era_id call) T).2) ->
  safe R (Frontend.get_client_ids_in_call call user).
Proof.
  intros HR. unfold Frontend.get_client_ids_in_call. safe_go.
  - pose proof (address_no_panic (CallRecord.backend_ip call)). by destruct (Address.try_from _).
  - apply safe_keeps; [first [assumption | typeclasses eauto]|]. intros. by apply get_clients_law.
  - apply clients_no_panic.
  - eapply safe_implements; [first [assumption | typeclasses eauto]|apply remove_call_record_law|done|exact HR].
Qed.

Lemma safe_get_or_create R `{!PreOrder R} self room can_create user :
  (forall T call, can_create = true -> CallRecord.room_id call = room -> R T (get_or_add_call_record call T).2) ->
  safe R (Frontend.get_or_create_call_record self room can_create user).
Proof.
  intros HR. unfold Frontend.get_or_create_call_record. destruct can_create; cbn [negb]; safe_go.
  - apply safe_keeps; [first [assumption | typeclasses eauto]|]. intros. by apply select_ip_law.
  - apply safe_generate; [first [assumption | typeclasses eauto]|]. intros. by apply era_id_law.
  - eapply safe_implements; [first [assumption | typeclasses eauto]|apply get_or_add_call_record_law| |].
    + intros T. unfold get_or_add_call_record. by destruct (calls T !! _).
    + intros T. by apply HR.
  - apply ok_or_no_panic.
Qed.

Lemma safe_join_client R `{!PreOrder R} user call r : safe R (Frontend.join_client_to_call user call r).
Proof.
  unfold Frontend.join_client_to_call. safe_go.
  - apply safe_generate; [first [assumption | typeclasses eauto]|]. intros. by apply demux_id_law.
  - pose proof (address_no_panic (CallRecord.backend_ip call)). by destruct (Address.try_from _).
  - apply safe_keeps; [first [assumption | typeclasses eauto]|]. intros. by apply join_law.
Qed.

(** A record that was read is of the room it was asked for. *)
Lemma runs_get_call_record T room :
  runs T (Frontend.get_call_record room)
    (fun r T' => r <> Panic /\ T' = T /\ forall c, r = Ok c -> CallRecord.room_id c = room).
Proof.
  unfold Frontend.get_call_record.
  apply (runs_bind T _ _ (fun r T' => T' = T /\ tables_ok T /\ (r = Ok (calls T !! room) \/ exists e, r = Err e))).
  - apply runs_map_err. eapply runs_read; [apply get_call_record_law|done|cbn; eauto|cbn; eauto].
  - cbn. intros a T' (-> & HT & [[= ->] | [? ?]]); [|done]. apply runs_lift.
    split; [apply ok_or_no_panic|]. split; [done|]. intros c Hc.
    destruct (calls T !! room) as [c'|] eqn:E; [|done]. injection Hc as <-. exact (HT _ _ E).
  - cbn. intros e T' (-> & _). by split.
  - cbn. by intros T' (_ & _ & [? | [? ?]]).
Qed.
End operations.

(** *** Who a request is from *)
Section authorize.
Context `{ZkGroup, HeaderValues, Hex, Base64, HmacSha256Laws}.

Lemma then_no_panic {E A B} (m : Res E A) (f : A -> Res E B) : m <> Panic -> (forall a, f a <> Panic) -> m ≫= f <> Panic.
Proof. intros Hm Hf. destruct m; [apply Hf|done..]. Qed.

Lemma map_err_no_panic {E F A} (g : E -> F) (m : Res E A) : m <> Panic -> map_err g m <> Panic.
Proof. by destruct m. Qed.

Lemma fmap_no_panic {E A B} (g : A -> B) (m : Res E A) : m <> Panic -> g <$> m <> Panic.
Proof. by destruct m. Qed.

Lemma header_no_panic header : Authenticator.parse_authorization_header header <> Panic.
Proof.
  unfold Authenticator.parse_authorization_header. destruct (split_once " " header) as [[scheme token]|]; [|done].
  case_if; [|by case_if]. apply then_no_panic; [apply ok_or_no_panic|]. intros b. case_if; [|done].
  apply then_no_panic; [apply ok_or_no_panic|]. by intros [? ?].
Qed.

Lemma token_no_panic password : Authenticator.GroupAuthToken.from_str password <> Panic.
Proof.
  unfold Authenticator.GroupAuthToken.from_str. repeat case_match; try done.
  apply then_no_panic; [apply ok_or_no_panic|intros]. apply then_no_panic; [apply ok_or_no_panic|intros].
  apply then_no_panic; [|intros; apply then_no_panic; [apply ok_or_no_panic|done]].
  apply map_err_no_panic. unfold Authenticator.UserPermission.from_str. by repeat case_if.
Qed.

Lemma credential_no_panic {A} (d : bytes -> option A) s : Api.credential_of d s <> Panic.
Proof. apply then_no_panic; [apply ok_or_no_panic|]. intros b. apply ok_or_no_panic. Qed.

Lemma authorize_no_panic a req : Api.authorize a req <> Panic.
Proof.
  unfold Api.authorize. apply then_no_panic; [apply ok_or_no_panic|intros _].
  apply then_no_panic; [destruct (RoomId.decode _); [by case_if|done]|intros _].
  apply then_no_panic; [apply ok_or_no_panic|intros header].
  apply then_no_panic; [apply map_err_no_panic, header_no_panic|intros [u p|token]].
  - pose proof (token_no_panic p). destruct (Authenticator.GroupAuthToken.from_str p) as [tok| |] eqn:E; [|done..].
    cbn. by rewrite (AuthenticatorFacts.verify_spec a p tok E).
  - destruct (split_once "." token) as [[kind c]|]; [|done].
    case_if; [|case_if; [|done]]; apply fmap_no_panic, credential_no_panic.
Qed.

(** A group that a token names has no colon in its id. *)
Lemma authorize_group_room a req user :
  Api.authorize a req = Ok (Api.GroupAuth user) -> contains ":" (Authenticator.UserAuthorization.room_id user) = false.
Proof.
  unfold Api.authorize. destruct (Api.get_user_agent req); [|done..]. rewrite mbind_Ok.
  destruct (match RoomId.decode _ with Some _ => _ | None => _ end); [|done..]. rewrite mbind_Ok.
  destruct (ok_or _ _); [|done..]. rewrite mbind_Ok.
  destruct (Authenticator.parse_authorization_header _) as [[u p|token]| |]; [..|done|done]; cbn.
  - destruct (Authenticator.GroupAuthToken.from_str p) as [tok| |] eqn:E; [|done..]. cbn.
    rewrite (AuthenticatorFacts.verify_spec a p tok E). intros [= <-]. cbn.
    by apply (AuthenticatorFacts.token_room_plain p).
  - destruct (split_once "." token) as [[kind c]|]; [|done].
    case_if; [by destruct (Api.credential_of _ c)|]. case_if; [by destruct (Api.credential_of _ c)|done].
Qed.
End authorize.

(** *** Requests of groups *)
Definition group_change (T T' : Tables) : Prop :=
  links T' = links T /\ forall key, contains ":" key = true -> calls T' !! key = calls T !! key.

#[global] Instance group_change_preorder : PreOrder group_change.
Proof.
  split; [by split|]. intros T1 T2 T3 [L1 C1] [L2 C2]. split; [congruence|]. intros key Hk. by rewrite C2, C1.
Qed.

Lemma group_removes T room era : contains ":" room = false -> group_change T (remove_call_record room era T).2.
Proof.
  intros Hr. cbn. destruct (era_matches T room era); [|done]. split; [done|]. intros key Hk. cbn.
  rewrite lookup_delete_ne; [done|]. intros ->. congruence.
Qed.

Lemma group_adds T call : contains ":" (CallRecord.room_id call) = false -> group_change T (get_or_add_call_record call T).2.
Proof.
  intros Hr. unfold get_or_add_call_record. destruct (calls T !! _); [done|]. split; [done|]. intros key Hk. cbn.
  rewrite lookup_insert_ne; [done|]. intros <-. congruence.
Qed.

Section group.
Context `{ZkGroup, Hex, HeaderValues, Frontend.UrlEncoding}.
Context {W : Type} `{WorldLaws W}.

Lemma redirect_no_panic {A} uri : @V2.temporary_redirect _ A uri <> Panic.
Proof. unfold V2.temporary_redirect. by case_if. Qed.

Lemma group_get self now user room path :
  contains ":" (Authenticator.UserAuthorization.room_id user) = false ->
  safe group_change (V2.get_participants self now (Api.GroupAuth user) room path).
Proof.
  intros Hr T. unfold V2.get_participants.
  apply (runs_bind T _ _ (fun r T' => r <> Panic /\ T' = T /\ forall call u st,
    r = Ok (inl (call, u, st)) -> CallRecord.room_id call = Authenticator.UserAuthorization.room_id user)).
  - destruct room as [room|]; [by apply runs_lift|]. cbn [V2.find_call].
    apply (runs_bind T _ _ (fun r T' => r <> Panic /\ T' = T /\ forall c,
      r = Ok c -> CallRecord.room_id c = Authenticator.UserAuthorization.room_id user)).
    + apply runs_map_err. eapply runs_weaken; [apply runs_get_call_record|]. cbn. intros r T' (? & -> & Hc).
      split; [by destruct r|]. split; [done|]. intros c. destruct r; [|done..]. intros [= <-]. by apply Hc.
    + intros c T' (_ & -> & Hc). apply runs_lift. split; [done|]. split; [done|]. intros call u st [= <- <- <-]. by apply Hc.
    + by intros e T' (_ & -> & _).
    + by intros T' (? & _).
  - intros [[[call u] st]|resp] T' (_ & -> & Hc); [|by apply runs_lift].
    specialize (Hc _ _ _ eq_refl). destruct (Frontend.get_redirect_uri _ _ _); [by apply runs_lift, (conj (redirect_no_panic _))|].
    revert T. change (safe group_change (cr ← V2.or_status (Frontend.get_client_ids_in_call call u);
      mret (Json (V2.participants_response (CallRecord.era_id call) (Frontend.max_clients_per_call self)
        (V2.participant_of <$> Frontend.active_clients cr) (CallRecord.creator call)
        (V2.participant_of <$> Frontend.pending_clients cr) (CallLinks.from_storage <$> st))))).
    unfold V2.or_status. safe_go. apply safe_get_client_ids; [typeclasses eauto|]. intros T. apply group_removes. congruence.
  - intros e T' (_ & -> & _). done.
  - by intros T' (? & _).
Qed.

Lemma safe_reset_later R `{!PreOrder R} now room :
  (forall r, room = Some r -> forall T, R T (reset_call_link_expiration r now T).2) -> safe R (V2.reset_later now room).
Proof.
  intros HR. unfold V2.reset_later. destruct room as [room|]; safe_go.
  eapply safe_implements; [done|apply reset_call_link_expiration_law| |by apply HR].
  intros T. unfold reset_call_link_expiration, change_link. by destruct (links T !! _).
Qed.

(** What follows once the call is there. *)
Lemma safe_join_rest R `{!PreOrder R} self now path region request (found : V2.Joining + Response V2.JoinResponse) :
  (forall j r, found = inl j -> V2.j_reset_expiration j = Some r -> forall T, R T (reset_call_link_expiration r now T).2) ->
  safe R (match found with
    | inr response => mret response
    | inl j =>
        _ ← V2.reset_later now (V2.j_reset_expiration j);
        match Frontend.get_redirect_uri self (CallRecord.backend_region (V2.j_call j)) path with
        | Some redirect_uri => lift (V2.temporary_redirect redirect_uri)
        | None =>
            response ← V2.or_status (Frontend.join_client_to_call (V2.j_user_id j) (V2.j_call j)
              (Frontend.join_request_wrapper (V2.ice_ufrag request) (V2.dhe_public_key request) (V2.hkdf_extra_info request)
                 region (V2.j_restrictions j) (V2.j_is_admin j) (V2.j_approved_users j)));
            mret (Json (V2.join_response response (CallRecord.creator (V2.j_call j)) (CallRecord.era_id (V2.j_call j))))
        end
    end).
Proof.
  intros HR. destruct found as [j|resp]; [|apply safe_ret; done]. apply safe_then; [done| |intros _].
  - apply safe_reset_later; [done|]. intros r Hr. by apply (HR j r).
  - unfold V2.or_status. safe_go; [apply redirect_no_panic|]. by apply safe_join_client.
Qed.

Lemma group_put self now user room path region request :
  contains ":" (Authenticator.UserAuthorization.room_id user) = false ->
  safe group_change (V2.join self now (Api.GroupAuth user) room path region request).
Proof.
  intros Hr T. unfold V2.join. case_if; [by apply runs_lift|].
  apply (runs_bind T _ _ (fun r T' => r <> Panic /\ group_change T T' /\ forall j, r = Ok (inl j) -> V2.j_reset_expiration j = None)).
  - destruct room as [room|]; [by apply runs_lift|]. cbn [V2.find_or_create_call].
    eapply runs_bind.
    + unfold V2.or_status. apply (safe_map_err group_change).
      apply safe_get_or_create; [typeclasses eauto|]. intros T' call _ Hc. apply group_adds. congruence.
    + intros c T' [_ Hg]. apply runs_lift. split; [done|]. split; [done|]. by intros j [= <-].
    + intros e T' [_ Hg]. by repeat split; try apply Hg.
    + by intros T' [? _].
  - intros found T' (_ & Hg & Hj). eapply runs_weaken.
    + apply (safe_join_rest group_change). intros j r -> Hreset. rewrite (Hj j eq_refl) in Hreset. done.
    + cbn. intros r T2 [? Hg2]. split; [done|]. by etrans.
  - intros e T' (_ & Hg & _). done.
  - by intros T' (? & _).
Qed.
End group.

(** *** Requests about links *)
#[global] Instance CallLinkState_eq_dec : EqDecision CallLinkState.
Proof. solve_decision. Defined.

(** Only the link of the room changes, and only under its own passkey. *)
Definition link_change (room : string) (passkey : bytes) (T T' : Tables) : Prop :=
  calls T' = calls T /\
  forall key, links T' !! key <> links T !! key ->
    key = call_link_room_key room /\ forall s, links T !! key = Some s -> CallLinkState.admin_passkey s = passkey.

#[global] Instance link_change_preorder room passkey : PreOrder (link_change room passkey).
Proof.
  split; [by split|]. intros T1 T2 T3 [C1 L1] [C2 L2]. split; [congruence|]. intros key Hk.
  destruct (decide (links T2 !! key = links T1 !! key)) as [E|E]; [|by apply L1].
  rewrite <- E in *. by apply L2.
Qed.

Lemma set_link_change room passkey s T :
  (forall s0, links T !! call_link_room_key room = Some s0 -> CallLinkState.admin_passkey s0 = passkey) ->
  link_change room passkey T (set_link room s T).
Proof.
  intros Hs. split; [done|]. intros key Hk. cbn in Hk. destruct (decide (key = call_link_room_key room)) as [->|Hne].
  - by split.
  - by rewrite lookup_insert_ne in Hk.
Qed.

Section links.
Context `{ZkGroup, Hex}.
Context {W : Type} `{StorageLaws W}.

Lemma update_link_change now room u z T :
  link_change room (CallLinkUpdate.admin_passkey u) T (update_call_link now room u z T).2.
Proof.
  unfold update_call_link. destruct z as [z|], (links T !! call_link_room_key room) as [s|] eqn:El; try done.
  - case_if; [|done]. boolsplit. apply set_link_change. intros s0 [= <-]%(eq_trans (eq_sym El)). by eapply bool_decide_eq_true_1.
  - apply set_link_change. congruence.
  - case_if; [|done]. boolsplit. apply set_link_change. intros s0 [= <-]%(eq_trans (eq_sym El)). by eapply bool_decide_eq_true_1.
Qed.

Lemma delete_link_change room passkey T : link_change room passkey T (delete_call_link room passkey T).2.
Proof.
  unfold delete_call_link. destruct (links T !! call_link_room_key room) as [s|] eqn:El; [|done].
  case_if; [done|]. boolsplit. destruct (calls T !! call_link_room_key room); [done|]. split; [done|].
  intros key Hk. cbn in Hk. destruct (decide (key = call_link_room_key room)) as [->|Hne].
  - split; [done|]. intros s0 [= <-]%(eq_trans (eq_sym El)). by eapply bool_decide_eq_true_1.
  - by rewrite lookup_delete_ne in Hk.
Qed.

Lemma update_no_panic now room u z T : (update_call_link now room u z T).1 <> Panic.
Proof. unfold update_call_link. destruct z, (links T !! _); try done; by case_if. Qed.

Lemma delete_no_panic room passkey T : (delete_call_link room passkey T).1 <> Panic.
Proof. unfold delete_call_link. destruct (links T !! _); [|done]. case_if; [done|]. by destruct (calls T !! _). Qed.

Lemma credential_check_no_panic a s now : CallLinks.verify_auth_credential_against_zkparams a s now <> Panic.
Proof. unfold CallLinks.verify_auth_credential_against_zkparams. destruct (deserialize_params _); [by case_if|done]. Qed.

(** A step whose result is known to satisfy [V]. *)
Definition safe_with {E A} (R : Tables -> Tables -> Prop) (V : A -> Prop) (m : M W E A) : Prop :=
  forall T, runs T m (fun r T' => r <> Panic /\ R T T' /\ forall a, r = Ok a -> V a).

Lemma safe_bind_with {E A B} R `{!PreOrder R} (V : A -> Prop) (m : M W E A) (f : A -> M W E B) :
  safe_with R V m -> (forall a, V a -> safe R (f a)) -> safe R (m ≫= f).
Proof.
  intros Hm Hf T. eapply runs_bind; [apply Hm|..].
  - intros a T1 (_ & HT1 & Ha). eapply runs_weaken; [apply Hf; by apply Ha|]. intros r T2 [Hr HT2]. split; [done|]. by etrans.
  - by intros e T1 (_ & HT1 & _).
  - by intros T1 [? _].
Qed.

Lemma safe_with_bind {E A B} R `{!PreOrder R} (V : B -> Prop) (m : M W E A) (f : A -> M W E B) :
  safe R m -> (forall a, safe_with R V (f a)) -> safe_with R V (m ≫= f).
Proof.
  intros Hm Hf T. eapply runs_bind; [apply Hm|..].
  - intros a T1 (_ & HT1). eapply runs_weaken; [apply Hf|]. intros r T2 (Hr & HT2 & HV). split; [done|]. split; [by etrans|done].
  - intros e T1 (_ & HT1). by split.
  - by intros T1 [? _].
Qed.

Lemma safe_with_lift {E A} R `{!PreOrder R} (V : A -> Prop) (r : Res E A) :
  r <> Panic -> (forall a, r = Ok a -> V a) -> safe_with R V (lift r).
Proof. intros Hr HV T. by apply runs_lift. Qed.

Lemma check_update_safe R `{!PreOrder R} now a c room b u :
  safe_with R (fun r : CallLinks.CallLinkUpdate * option bytes * bool => CallLinks.update_passkey r.1.1 = CallLinks.update_passkey u)
    (CallLinks.check_update now a c room b u).
Proof.
  unfold CallLinks.check_update. destruct c as [c|]; [|destruct a as [a|]; [|by apply safe_with_lift]].
  - apply safe_with_bind; [done|apply safe_lift; [done|apply ok_or_no_panic]|intros p].
    apply safe_with_bind; [done|apply safe_lift; [done|by case_if]|intros _]. apply safe_with_lift; [done..|]. by intros r [= <-].
  - case_if; [by apply safe_with_lift|].
    apply safe_with_bind; [done|safe_go|intros [ml mc]].
    apply safe_with_bind; [done|destruct ml; safe_go; apply credential_check_no_panic|intros _].
    case_if; [by apply safe_with_lift|]. apply safe_with_lift; [done..|]. by intros r [= <-].
Qed.

Lemma update_call_link_safe now a c room u :
  safe (link_change room (CallLinks.update_passkey u)) (CallLinks.update_call_link now a c room u).
Proof.
  unfold CallLinks.update_call_link. apply safe_then; [typeclasses eauto|apply safe_lift; [typeclasses eauto|apply ok_or_no_panic]|intros b].
  case_if; [by apply safe_fail; typeclasses eauto|]. destruct (match CallLinks.update_name u with Some _ => _ | None => _ end).
  { apply safe_fail. typeclasses eauto. }
  eapply safe_bind_with; [typeclasses eauto|apply check_update_safe; typeclasses eauto|].
  intros [[u' z] hc] Hu. cbn in Hu. rewrite <- Hu. safe_go.
  eapply safe_implements; [typeclasses eauto|apply update_call_link_law|apply update_no_panic|].
  intros T. apply (update_link_change now room (CallLinks.to_storage u') z T).
Qed.

Lemma delete_call_link_safe now a room passkey :
  safe (link_change room passkey) (CallLinks.delete_call_link now a room passkey).
Proof.
  unfold CallLinks.delete_call_link. safe_go; [apply ok_or_no_panic|apply credential_check_no_panic|].
  eapply safe_implements; [typeclasses eauto|apply delete_call_link_law|apply delete_no_panic|apply delete_link_change].
Qed.

Lemma read_call_link_safe now a room : safe eq (CallLinks.read_call_link now a room).
Proof. unfold CallLinks.read_call_link. safe_go; [apply ok_or_no_panic|apply credential_check_no_panic]. Qed.

(** The routes for testing never reach their [unreachable!]. *)
Lemma checked_change_safe now a room op f :
  implements represents update_unexpected op (change_link room f) ->
  safe (fun _ _ => True) (CallLinks.checked_change now a room op).
Proof.
  intros Hop. assert (PreOrder (fun _ _ : Tables => True)) by (by split).
  unfold CallLinks.checked_change.
  apply safe_then; [done|apply safe_lift; [done|apply ok_or_no_panic]|intros _].
  apply safe_then; [done|safe_go|intros link].
  apply safe_then; [done|apply safe_lift; [done|apply ok_or_no_panic]|intros s].
  apply safe_then; [done|apply safe_lift; [done|apply credential_check_no_panic]|intros _].
  eapply (safe_bind_with _ (fun r : CallLinkUpdateError.t + () => r <> inl CallLinkUpdateError.AdminPasskeyDidNotMatch)).
  - intros T. apply runs_attempt. eapply runs_weaken; [by apply (runs_implements T update_unexpected op)|].
    unfold change_link. intros r T' [_ [|e [? ->]|e [? ->]]]; cbn; (split; [|split; [done|]]); try done; try (by intros ? [= <-]).
    + by destruct (links T !! _).
    + destruct (links T !! _); by intros ? [= <-].
  - intros [[]|] Hr; try done; by safe_go.
Qed.
End links.

(** *** Joining over a link *)
Section link_join.
Context `{ZkGroup, Hex, HeaderValues, Frontend.UrlEncoding}.
Context {W : Type} `{WorldLaws W}.

(** The link lets this credential in at this time. *)
Definition admits (a : CallLinkAuthCredentialPresentation) (now : Z) (s : CallLinkState) : Prop :=
  CallLinks.verify_auth_credential_against_zkparams a s now = Ok () /\ V2.link_over s now = false.

(** How the holder of a credential joins over a link. *)
Definition joins_over (a : CallLinkAuthCredentialPresentation) (request : V2.JoinRequest) (key : string)
    (s : CallLinkState) (j : V2.Joining) : Prop :=
  CallRecord.room_id (V2.j_call j) = key /\
  V2.j_user_id j = V2.user_id_from_uuid_ciphertext a /\
  V2.j_restrictions j = CallLinkState.restrictions s /\
  V2.j_approved_users j = Some (CallLinkState.approved_users s) /\
  (V2.j_is_admin j = true <-> V2.admin_passkey request = Some (CallLinkState.admin_passkey s)).

(** What joining over a link does to the tables: nothing, or a call is added that
    was not there, of a link that lets the credential in. *)
Definition call_started (a : CallLinkAuthCredentialPresentation) (now : Z) (key : string) (T T' : Tables) : Prop :=
  exists s c, links T !! key = Some s /\ admits a now s /\ calls T !! key = None /\
    CallRecord.room_id c = key /\ T' = T <| calls ::= <[key := c]> |>.

Lemma runs_create T self room user :
  calls T !! call_link_room_key room = None ->
  runs T (V2.or_status (Frontend.get_or_create_call_link_call_record self room true user))
    (fun r T' => r <> Panic /\
       (T' = T \/ exists c, CallRecord.room_id c = call_link_room_key room /\ T' = T <| calls ::= <[call_link_room_key room := c]> |>) /\
       forall c, r = Ok c -> CallRecord.room_id c = call_link_room_key room).
Proof.
  intros Hn. unfold V2.or_status, Frontend.get_or_create_call_link_call_record, Frontend.get_or_create_call_record.
  cbn [negb]. apply runs_map_err.
  assert (PreOrder (eq (A := Tables))) by typeclasses eauto.
  eapply (runs_bind T _ _ (fun r T' => r <> Panic /\ T = T')).
  { apply (safe_map_err eq). apply safe_keeps; [done|]. intros. by apply select_ip_law. }
  2: { intros e T' [_ <-]. split; [done|]. split; [by left|done]. } 2: by intros T' [? _].
  intros ip T' [_ <-]. eapply (runs_bind T _ _ (fun r T' => r <> Panic /\ T = T')).
  { apply (safe_generate eq). intros. by apply era_id_law. }
  2: { intros e T' [_ <-]. split; [done|]. split; [by left|done]. } 2: by intros T' [? _].
  intros era T' [_ <-]. apply runs_map_err. eapply runs_weaken; [eapply runs_implements, get_or_add_call_record_law|].
  set (call := CallRecord.mk _ _ _ _ _).
  assert (get_or_add_call_record call T = (Ok call, T <| calls ::= <[call_link_room_key room := call]> |>)) as HI
    by (unfold get_or_add_call_record; cbn; by rewrite Hn).
  cbn. intros r T' [_ Ho]. destruct Ho as [|e _|e _]; rewrite ?HI; cbn.
  - split; [done|]. split; [right; by exists call|]. by intros c [= <-].
  - split; [done|]. split; [by left|done].
  - split; [done|]. split; [right; by exists call|done].
Qed.

Lemma runs_find_link T self now a room request :
  let key := call_link_room_key room in
  runs T (V2.find_or_create_call self now (Api.LinkAuth a) (Some room) request)
    (fun r T' => r <> Panic /\ (T' = T \/ call_started a now key T T') /\
       forall j, r = Ok (inl j) -> exists s, links T !! key = Some s /\ admits a now s /\ joins_over a request key s j /\
         V2.j_reset_expiration j = (if calls T !! key then None else Some room)).
Proof.
  intros key. cbn [V2.find_or_create_call].
  apply (runs_bind T _ _ (fun (r : Res StatusCode.t (StorageError.t + _)) T' => T' = T /\ tables_ok T /\
    (r = Ok (inr (links T !! key, calls T !! key)) \/ exists e, r = Ok (inl e)))).
  { apply runs_attempt. eapply runs_read; [apply get_call_link_and_record_law|done|..].
    - intros HT. cbn. split; [done|]. split; [done|]. left. fold key. by destruct (links T !! key).
    - intros e HT. cbn. split; [done|]. split; [done|]. right. by eexists. }
  2: intros e T' (_ & _ & [? | [? ?]]); done. 2: intros T' (_ & _ & [? | [? ?]]); done.
  intros x T' (-> & HT & [[= ->] | [e [= ->]]]).
  2: { apply runs_lift. split; [done|]. split; [by left|done]. }
  destruct (links T !! key) as [s|] eqn:El. 2: { apply runs_lift. split; [done|]. split; [by left|done]. }
  eapply (runs_bind T _ _ (fun r T' => r <> Panic /\ T' = T /\ r = CallLinks.verify_auth_credential_against_zkparams a s now)).
  { apply runs_lift. split; [apply credential_check_no_panic|done]. }
  2: { intros e T' (_ & -> & _). split; [done|]. split; [by left|done]. } 2: by intros T' (? & _).
  intros [] T' (_ & -> & Hv). symmetry in Hv.
  destruct (V2.link_over s now) eqn:Ho. { apply runs_lift. split; [done|]. split; [by left|done]. }
  assert (forall c reset, CallRecord.room_id c = key -> joins_over a request key s
    (V2.joining c (V2.user_id_from_uuid_ciphertext a) (CallLinkState.restrictions s)
      (match V2.admin_passkey request with Some p => bool_decide (CallLinkState.admin_passkey s = p) | None => false end)
      (Some (CallLinkState.approved_users s)) reset)) as Hj.
  { intros c reset Hc. repeat split; try done; cbn; destruct (V2.admin_passkey request); try done.
    - intros ->%bool_decide_eq_true_1. done.
    - intros [= ->]. by apply bool_decide_true. }
  destruct (calls T !! key) as [c|] eqn:Ec.
  - rewrite <- El. apply runs_lift. split; [done|]. split; [by left|]. intros j [= <-]. exists s. rewrite El.
    split; [done|]. split; [done|]. split; [|done]. apply Hj. exact (HT _ _ Ec).
  - eapply (runs_bind T _ _ (fun (r : Res StatusCode.t (CallRecord * option string)) T' => r <> Panic /\
      (T' = T \/ call_started a now key T T') /\ forall c, r = Ok c -> CallRecord.room_id c.1 = key /\ c.2 = Some room)).
    + eapply runs_bind; [by apply (runs_create T self room)|..].
      * intros c T' (_ & HT' & Hc). apply runs_lift. split; [done|]. split.
        -- destruct HT' as [->|(c' & Hc' & ->)]; [by left|right]. by exists s, c'.
        -- intros c0 [= <-]. split; [by apply Hc|done].
      * intros e T' (_ & HT' & _). split; [done|]. split; [|done].
        destruct HT' as [->|(c' & Hc' & ->)]; [by left|right]. by exists s, c'.
      * by intros T' (? & _).
    + intros [c reset] T' (_ & HT' & Hc). apply runs_lift. split; [done|]. split; [done|]. intros j [= <-].
      destruct (Hc _ eq_refl) as [Hroom Hreset]. cbn in Hroom, Hreset. subst reset. exists s. split; [done|]. split; [done|]. split; [by apply Hj|done].
    + intros e T' (_ & HT' & _). by split.
    + by intros T' (? & _).
Qed.
End link_join.

(** *** Any request *)
Definition any_change (T T' : Tables) : Prop := True.

#[global] Instance any_change_preorder : PreOrder any_change.
Proof. by split. Qed.

Lemma safe_any {W} `{StorageLaws W} {E A} R (m : M W E A) : safe R m -> safe any_change m.
Proof. intros Hm T. eapply runs_weaken; [apply Hm|]. by intros r T' [? _]. Qed.

Section any.
Context `{ZkGroup, HeaderValues, Hex, Base64, HmacSha256Laws, Frontend.UrlEncoding}.
Context {W : Type} `{WorldLaws W}.

Lemma get_or_create_any self room can_create user :
  safe any_change (V2.or_status (Frontend.get_or_create_call_record self room can_create user)).
Proof. apply (safe_map_err any_change). by apply safe_get_or_create. Qed.

Lemma get_any self now auth room path : safe any_change (V2.get_participants self now auth room path).
Proof.
  unfold V2.get_participants. apply safe_then; [typeclasses eauto| |intros [[[call u] st]|resp]].
  - destruct auth as [user|a|c], room as [room|]; cbn [V2.find_call]; try (apply safe_fail; typeclasses eauto).
    + apply safe_then; [typeclasses eauto| |intros c; apply safe_ret; typeclasses eauto].
      apply (safe_map_err any_change). unfold Frontend.get_call_record. safe_go. apply ok_or_no_panic.
    + safe_go. apply credential_check_no_panic.
  - destruct (Frontend.get_redirect_uri _ _ _); [apply safe_lift; [typeclasses eauto|apply redirect_no_panic]|].
    unfold V2.or_status. safe_go. by apply safe_get_client_ids; [typeclasses eauto|].
  - apply safe_ret. typeclasses eauto.
Qed.

Lemma put_any self now auth room path region request : safe any_change (V2.join self now auth room path region request).
Proof.
  unfold V2.join. case_if; [apply safe_fail; typeclasses eauto|].
  apply safe_then; [typeclasses eauto| |intros found; by apply (safe_join_rest any_change)].
  destruct auth as [user|a|c], room as [room|]; cbn [V2.find_or_create_call]; try (apply safe_fail; typeclasses eauto).
  - apply safe_then; [typeclasses eauto|apply get_or_create_any|intros c; apply safe_ret; typeclasses eauto].
  - intros T. eapply runs_weaken; [apply (runs_find_link T self now a room request)|]. by intros r T' [? _].
Qed.

Lemma remove_batch_no_panic keys T : (remove_batch_call_records keys T).1 <> Panic.
Proof. unfold remove_batch_call_records. by repeat case_if. Qed.

Lemma internal_any room users era keys :
  safe any_change (InternalApi.update_approval room users) /\
  safe any_change (InternalApi.remove_call_record room era) /\
  safe any_change (InternalApi.remove_batch_call_records keys).
Proof.
  unfold InternalApi.update_approval, InternalApi.remove_call_record, InternalApi.remove_batch_call_records.
  split; [|split]; safe_go.
  - eapply safe_implements; [typeclasses eauto|apply update_call_link_approved_users_law| |done].
    intros T. unfold update_call_link_approved_users, change_link. by destruct (links T !! _).
  - eapply safe_implements; [typeclasses eauto|apply remove_call_record_law|done|done].
  - eapply safe_implements; [typeclasses eauto|apply remove_batch_call_records_law|apply remove_batch_no_panic|done].
Qed.
End any.
End FrontendFacts.
