(* ===== verification/FrontendProperties.v ===== *)
(** * FrontendProperties: what the handlers guarantee

    The properties of the storage and of the handlers, for every world that keeps
    the promises of [StorageLaws] and [WorldLaws]. *)
From Stdlib Require Import Ascii.
From stdpp Require Import strings.
From S2P Require Import Prelude Text Authenticator Layers Storage DynamoDb DynamoFacts Backend Frontend FrontendApi FrontendFacts.

(** ** Worlds for the witnesses *)
Module FrontendSamples.
Import Storage StorageSpec StorageSamples.

(** The tables as a world, with a backend that knows no calls. *)
#[global] Instance sample_form : StoredForm := plain_form.
#[global] Instance sample_storage : Storage Tables := memory.
#[global] Instance sample_backend : Backend.Backend Tables := {|
  Backend.select_ip T := (Ok "10.0.0.1", T);
  Backend.get_clients _ _ _ T := (Err Backend.CallNotFound, T);
  Backend.join _ _ _ _ T := (Ok (Backend.join_response ["10.0.0.1"] 1 2 None None "u" "p" "k" "active"), T)
|}.
#[global] Instance sample_ids : Frontend.IdGenerator Tables := {|
  Frontend.get_random_demux_id _ T := (16, T);
  Frontend.get_random_era_id _ T := ("era", T)
|}.

#[global] Instance sample_world : FrontendFacts.WorldLaws Tables.
Proof. split; by intros. Qed.

(** Credentials and parameters that are right when they are the same bytes. *)
#[global] Instance sample_zk : ZkGroup := {|
  CallLinkAuthCredentialPresentation := bytes;
  CreateCallLinkCredentialPresentation := bytes;
  CallLinkPublicParams := bytes;
  deserialize_params z := Some z;
  deserialize_params_strict z := Some z;
  deserialize_auth b := Some b;
  deserialize_create b := Some b;
  verify_auth c _ z := bool_decide (c = z);
  verify_create c _ _ z := bool_decide (c = z);
  serialized_user_id c := c
|}.
#[global] Instance sample_headers : HeaderValues := {|
  header_to_str b := Some (of_bytes b);
  header_from_str_ok _ := true
|}.
#[global] Instance sample_encoding : Frontend.UrlEncoding := fun s => s.
#[global] Instance sample_hex : Hex := nibbles.
#[global] Instance sample_hmac : HmacSha256 := AuthenticatorSamples.zero_hmac.
#[global] Instance sample_base64 : Base64 := fun s => Some (as_bytes s).

Definition sample_config : Frontend.Config := Frontend.config "us" "https://<region>.example.org" 8.

Definition sample_link : CallLinkState := CallLinkState.mk [1] [9] NoRestrictions [] false (2 ^ 62) (2 ^ 62) ["alice"].
Definition sample_call : CallRecord := CallRecord.mk "adhoc:ab" "00" "10.0.0.1" "us" "bob".
Definition sample_tables : Tables := mk_tables {["adhoc:ab" := sample_call]} {["adhoc:ab" := sample_link]}.
Definition idle_tables : Tables := mk_tables ∅ {["adhoc:ab" := sample_link]}.
End FrontendSamples.

Module FrontendProperties.
Import Storage StorageSpec FrontendFacts FrontendSamples.

(** C3: Requests of groups stay in groups.  Whatever a request with a group's
    token says, listing the participants or joining never panics, leaves every call
    link as it is and leaves the calls of call links alone: the room of a token has
    no colon, the room of a link's call has one. *)
Theorem group_requests_stay_in_groups `{ZkGroup, HeaderValues, Hex, Base64, HmacSha256Laws, Frontend.UrlEncoding}
    {W : Type} `{WorldLaws W} self authenticator now req region body user :
  Api.authorize authenticator req = Ok (Api.GroupAuth user) ->
  safe group_change (Route.get self authenticator now req) /\
  safe group_change (Route.put self authenticator now req region body).
Proof.
  intros Ha. pose proof (authorize_group_room _ _ _ Ha) as Hr. unfold Route.get, Route.put. rewrite Ha.
  split; [by apply (group_get self now user)|by apply (group_put self now user)].
Qed.

Definition token_request : Api.Request :=
  Api.request Api.PUT "/v2/conference/participants" (Some []) (Some (as_bytes "Basic u:2:ab:c1:0:1:")) [].

Lemma group_requests_stay_in_groups_witness :
  safe group_change (Route.get sample_config (Authenticator.mk []) 0 token_request) /\
  safe group_change (Route.put sample_config (Authenticator.mk []) 0 token_request None (V2.join_request None "" "k" None)).
Proof.
  apply (group_requests_stay_in_groups sample_config (Authenticator.mk []) 0 token_request None
    (V2.join_request None "" "k" None) (Authenticator.UserAuthorization.mk "ab" "c1" Authenticator.CreateAndJoin)).
  reflexivity.
Defined.

(** C4: Joining over a link.  When the handler has found or made the call to join,
    the link exists, it is neither revoked nor expired and the credential is right
    for it; the call is the link's; whoever joins is an admin exactly if the request
    carries the link's passkey, and the link's restrictions and approved users are
    passed on.  Unless the link lets the credential in and had no call, nothing is
    changed; then one call is added, and its expiration is to be reset. *)
Theorem join_over_link `{ZkGroup, Hex, HeaderValues, Frontend.UrlEncoding} {W : Type} `{WorldLaws W}
    T self now credential room request :
  let key := call_link_room_key room in
  runs T (V2.find_or_create_call self now (Api.LinkAuth credential) (Some room) request)
    (fun r T' => r <> Panic /\ (T' = T \/ call_started credential now key T T') /\
       forall j, r = Ok (inl j) -> exists s, links T !! key = Some s /\ admits credential now s /\
         joins_over credential request key s j /\
         V2.j_reset_expiration j = (if calls T !! key then None else Some room)).
Proof. apply runs_find_link. Qed.

Lemma join_over_link_witness :
  runs sample_tables (V2.find_or_create_call sample_config 5 (Api.LinkAuth [9]) (Some "ab")
      (V2.join_request (Some [1]) "" "k" None))
    (fun r T' => r <> Panic /\ (T' = sample_tables \/ call_started [9] 5 "adhoc:ab" sample_tables T') /\
       forall j, r = Ok (inl j) -> exists s, links sample_tables !! "adhoc:ab" = Some s /\ admits [9] 5 s /\
         joins_over [9] (V2.join_request (Some [1]) "" "k" None) "adhoc:ab" s j /\
         V2.j_reset_expiration j = (if calls sample_tables !! "adhoc:ab" then None else Some "ab")) /\
  fst (V2.find_or_create_call sample_config 5 (Api.LinkAuth [9]) (Some "ab") (V2.join_request (Some [1]) "" "k" None)
    sample_tables) = Ok (inl (V2.joining sample_call "09" NoRestrictions true (Some ["alice"]) None)).
Proof.
  split; [|vm_compute; reflexivity].
  exact (join_over_link sample_tables sample_config 5 [9] "ab" (V2.join_request (Some [1]) "" "k" None)).
Defined.

(** C5: Call links change only under their passkey.  An update or a deletion never
    panics and changes at most the link of its own room, and only if that does not
    exist yet or has the passkey that the request carries, whatever the credential. *)
Theorem links_change_under_passkey `{ZkGroup, Hex} {W : Type} `{StorageLaws W}
    now auth create room (u : CallLinks.CallLinkUpdate) passkey :
  safe (link_change room (CallLinks.update_passkey u)) (CallLinks.update_call_link now auth create room u) /\
  safe (link_change room passkey) (CallLinks.delete_call_link now auth room passkey).
Proof. split; [apply update_call_link_safe|apply delete_call_link_safe]. Qed.

Lemma links_change_under_passkey_witness :
  safe (link_change "ab" [1]) (CallLinks.update_call_link 5 (Some [9]) None "ab"
    (CallLinks.call_link_update [1] None None (Some [7]) None)) /\
  safe (link_change "ab" [1]) (CallLinks.delete_call_link 5 (Some [9]) "ab" [1]).
Proof. exact (links_change_under_passkey 5 (Some [9]) None "ab" (CallLinks.call_link_update [1] None None (Some [7]) None) [1]). Defined.

(** C7: No request makes the frontend panic: neither listing participants nor
    joining, whatever the headers; nor reading, updating or deleting a link; nor the
    routes of the backends. *)
Theorem frontend_never_panics `{ZkGroup, HeaderValues, Hex, Base64, HmacSha256Laws, Frontend.UrlEncoding}
    {W : Type} `{WorldLaws W} self authenticator now req region body auth create credential room u passkey users era keys :
  safe any_change (Route.get self authenticator now req) /\
  safe any_change (Route.put self authenticator now req region body) /\
  safe any_change (CallLinks.read_call_link now credential room) /\
  safe any_change (CallLinks.update_call_link now auth create room u) /\
  safe any_change (CallLinks.delete_call_link now auth room passkey) /\
  safe any_change (CallLinks.reset_call_link_expiration now credential room) /\
  safe any_change (CallLinks.reset_call_link_approvals now credential room) /\
  safe any_change (InternalApi.update_approval room users) /\
  safe any_change (InternalApi.remove_call_record room era) /\
  safe any_change (InternalApi.remove_batch_call_records keys).
Proof.
  assert (forall A (f : Api.Extension -> M W StatusCode.t A), (forall x, safe any_change (f x)) ->
    safe any_change (lift (Api.authorize authenticator req) ≫= f)) as Hroute.
  { intros A f Hf. apply safe_then; [typeclasses eauto|apply safe_lift; [typeclasses eauto|apply authorize_no_panic]|done]. }
  split; [apply Hroute; intros x; apply get_any|]. split; [apply Hroute; intros x; apply put_any|].
  split; [eapply safe_any, read_call_link_safe|]. split; [eapply safe_any, update_call_link_safe|].
  split; [eapply safe_any, delete_call_link_safe|].
  split; [eapply checked_change_safe, reset_call_link_expiration_law|].
  split; [eapply checked_change_safe, update_call_link_approved_users_law|].
  apply internal_any.
Qed.

Lemma frontend_never_panics_witness :
  safe any_change (Route.get sample_config (Authenticator.mk []) 0 token_request).
Proof.
  exact (proj1 (frontend_never_panics sample_config (Authenticator.mk []) 0 token_request None
    (V2.join_request None "" "k" None) None None [9] "ab" (CallLinks.call_link_update [1] None None None None) [1] [] "" [])).
Defined.

(** C8: Who may create links may change the restrictions of a link whose call is
    active.  The holder of a valid credential to create that knows passkey and
    parameters of an existing link sets its restrictions, to admin approval if the
    request says nothing, although its call is active; the holder of a credential for
    the link itself gets a conflict, and nothing is changed. *)
Theorem create_credential_ignores_active_call `{ZkGroup, Hex, StoredForm} (T : Tables) s call now create room room_bytes
    (u : CallLinks.CallLinkUpdate) params :
  let storage : Storage Tables := StorageSamples.memory in
  let key := call_link_room_key room in
  links T !! key = Some s -> calls T !! key = Some call ->
  hex_decode room = Some room_bytes -> (length (CallLinks.update_passkey u) <= 32)%nat -> CallLinks.update_name u = None ->
  CallLinks.update_passkey u = CallLinkState.admin_passkey s ->
  CallLinks.update_zkparams u = Some (CallLinkState.zkparams s) ->
  deserialize_params_strict (CallLinkState.zkparams s) = Some params ->
  verify_create create room_bytes (CallLinks.current_time now) params = true ->
  (exists answer s' T', CallLinks.update_call_link now None (Some create) room u T = (Ok (Json answer), T') /\
     links T' !! key = Some s' /\ calls T' !! key = Some call /\
     CallLinkState.restrictions s' = unwrap_or (CallLinks.update_restrictions u) AdminApproval) /\
  forall auth r, CallLinks.verify_auth_credential_against_zkparams auth s now = Ok () ->
    CallLinks.update_call_link now (Some auth) None room
      (CallLinks.call_link_update (CallLinks.update_passkey u) None (Some r) None None) T =
      (Err StatusCode.CONFLICT, T).
Proof.
  intros storage key Hl Hc Hh Hp Hn Hpk Hz Hd Hv.
  assert ((CallLinks.ADMIN_PASSKEY_LIMIT <? length (CallLinks.update_passkey u))%nat = false) as Hlen
    by (apply Nat.ltb_ge; done).
  unfold CallLinks.update_call_link, CallLinks.check_update.
  unfold mbind, M_bind, lift, mret, M_ret, fail, attempt, map_err_m. split.
  - rewrite Hh. cbn [ok_or]. rewrite Hlen, Hn, Hz. cbn [ok_or option_bind mbind]. rewrite Hd. cbn [ok_or]. rewrite Hv.
    cbn [Storage.update_call_link StorageSamples.memory storage]. unfold update_call_link. fold key. rewrite Hl.
    cbn [CallLinks.to_storage CallLinks.update_passkey CallLinkUpdate.admin_passkey].
    rewrite (bool_decide_true (_ = CallLinks.update_passkey u)), (bool_decide_true (_ = CallLinkState.zkparams s)) by done.
    cbn [andb]. do 3 eexists. split; [reflexivity|]. split; [|split; [exact Hc|]]; cbn; [apply lookup_insert_eq|done].
  - intros auth r Ha. rewrite Hh. cbn [ok_or CallLinks.update_passkey CallLinks.update_name]. rewrite Hlen.
    cbn [CallLinks.update_zkparams]. rewrite bool_decide_false by (by intros [? ?]).
    cbn [Storage.get_call_link_and_record StorageSamples.memory storage]. unfold get_call_link_and_record. fold key.
    rewrite Hl, Hc. cbn [map_err fmap option_fmap option_map].
    change (CallLinks.verify_auth_credential_against_zkparams auth (peek s) now) with
      (CallLinks.verify_auth_credential_against_zkparams auth s now). rewrite Ha. reflexivity.
Qed.

Lemma create_credential_ignores_active_call_witness :
  (exists answer s' T', CallLinks.update_call_link 5 None (Some [9]) "ab"
       (CallLinks.call_link_update [1] (Some [9]) None None None) sample_tables = (Ok (Json answer), T') /\
     links T' !! "adhoc:ab" = Some s' /\ calls T' !! "adhoc:ab" = Some sample_call /\
     CallLinkState.restrictions s' = AdminApproval) /\
  forall auth r, CallLinks.verify_auth_credential_against_zkparams auth sample_link 5 = Ok () ->
    CallLinks.update_call_link 5 (Some auth) None "ab" (CallLinks.call_link_update [1] None (Some r) None None) sample_tables =
      (Err StatusCode.CONFLICT, sample_tables).
Proof.
  apply (@create_credential_ignores_active_call sample_zk sample_hex sample_form sample_tables sample_link sample_call
    5 [9] "ab" [171] (CallLinks.call_link_update [1] (Some [9]) None None None) [9]); try reflexivity.
  vm_compute. lia.
Defined.
End FrontendProperties.
