(* ===== verification/Lifecycle.v ===== *)
(** * Lifecycle: calls that ended leave the table

    [src/backend/src/call_lifecycle.rs] and [frontend.rs]: the backend asks the
    frontend to remove the calls that ended, in batches and one by one if a batch
    fails; [src/frontend/src/cleaner.rs]: the frontend removes calls that their
    backend does not know.  The HTTP client is a parameter. *)
From Stdlib Require Import Ascii.
From stdpp Require Import strings.
From S2P Require Import Prelude Text Storage Backend FrontendApi FrontendFacts.

(** ** Chunks of a list ([slice::chunks]) *)
Fixpoint chunks_go {A} (fuel n : nat) (l : list A) : list (list A) :=
  match fuel, l with
  | S fuel, _ :: _ => take n l :: chunks_go fuel n (drop n l)
  | _, _ => []
  end.
Definition chunks {A} (n : nat) (l : list A) : list (list A) := chunks_go (length l) n l.

(** [{:.n}]: the first [n] characters of UTF-8 text. *)
Fixpoint take_chars (n : nat) (s : string) : string :=
  match s with
  | EmptyString => EmptyString
  | String c s =>
      if continuation (Z.of_N (N_of_ascii c)) then String c (take_chars n s)
      else match n with
           | O => EmptyString
           | S n => String c (take_chars n s)
           end
  end.

(** The [Display] of a [RoomId]. *)
Definition display_room (room_id : string) : string := take_chars 4 room_id.

(** One after the other, each whatever the others do. *)
Fixpoint for_each {W E A} (f : A -> M W E unit) (l : list A) : M W E unit :=
  match l with
  | [] => mret ()
  | x :: l => _ ← f x; for_each f l
  end.

(** ** [src/backend/src/frontend.rs] *)
Module FrontendClient.

Record CallKey := call_key { room_id : string; call_id : bytes }.

Inductive FrontendError :=
| ClientNotConfigured
| UnexpectedError (status : option Z)
| Timeout.

Definition MAX_BATCH_SIZE : nat := 100.

(** A DELETE of a URL, with the keys of a batch as its JSON body; a response is its
    status and its body, unless reading the body fails. *)
Inductive HttpError := TimedOut | Failed.
Record HttpResponse := http_response { status : Z; body : option bytes }.
Class HttpClient (W : Type) := http_delete : string -> option (list Storage.CallRecordKey) -> M W HttpError HttpResponse.

Definition is_success (status : Z) : bool := (200 <=? status) && (status <? 300).

Section client.
Context `{Hex} {W : Type} `{HttpClient W}.

(** What the JSON of a key holds. *)
Definition to_json (key : CallKey) : Storage.CallRecordKey :=
  Storage.CallRecordKey.mk (room_id key) (hex_encode (call_id key)).

(** The body of a refusal is read as text. *)
Definition answer (result : HttpError + HttpResponse) : Res FrontendError unit :=
  match result with
  | inr response =>
      if is_success (status response) then Ok ()
      else
        bytes ← unwrap (body response);
        if valid_utf8 bytes then Err (UnexpectedError (Some (status response))) else Panic
  | inl TimedOut => Err Timeout
  | inl Failed => Err (UnexpectedError None)
  end.

(** The URL of one call: the room is displayed. *)
Definition call_url (base_url : string) (key : CallKey) : string :=
  base_url +:+ "/" +:+ display_room (room_id key) +:+ "/" +:+ hex_encode (call_id key).

Definition remove_call_record (remove_call_records_base_url : option string) (key : CallKey) : M W FrontendError unit :=
  match remove_call_records_base_url with
  | None => fail ClientNotConfigured
  | Some base_url =>
      result ← attempt (http_delete (call_url base_url key) None);
      lift (answer result)
  end.

Definition remove_batch_call_records (remove_call_records_base_url : option string) (call_keys : list CallKey) :
    M W FrontendError unit :=
  match remove_call_records_base_url with
  | None => fail ClientNotConfigured
  | Some base_url =>
      result ← attempt (http_delete base_url (Some (to_json <$> call_keys)));
      lift (answer result)
  end.
End client.
End FrontendClient.

(** ** [src/backend/src/call_lifecycle.rs] *)
Module Lifecycle.
Import FrontendClient.

Definition CALL_REMOVAL_QUEUE_CAPACITY : nat := 2048.

(** The handler of a call that ended: a full queue drops the call, and a call without
    a room is left to the cleaner. *)
Definition call_ended (queue : list CallKey) (call_id : bytes) (room_id : option string) : list CallKey :=
  match room_id with
  | None => queue
  | Some room_id =>
      if (length queue <? CALL_REMOVAL_QUEUE_CAPACITY)%nat then queue ++ [call_key room_id call_id] else queue
  end.

(** [try_recv] until the queue is empty or the buffer is full: buffer and queue. *)
Fixpoint fill (delete_buffer queue : list CallKey) : list CallKey * list CallKey :=
  match queue with
  | [] => (delete_buffer, [])
  | key :: queue =>
      let delete_buffer := delete_buffer ++ [key] in
      if (length delete_buffer =? CALL_REMOVAL_QUEUE_CAPACITY)%nat then (delete_buffer, queue)
      else fill delete_buffer queue
  end.

Section worker.
Context `{Hex} {W : Type} `{HttpClient W} (base_url : option string).

(** One by one; what still fails is logged and forgotten. *)
Definition remove_one (key : CallKey) : M W FrontendError unit :=
  _ ← attempt (remove_call_record base_url key); mret ().

Definition remove_chunk (chunk : list CallKey) : M W FrontendError unit :=
  result ← attempt (remove_batch_call_records base_url chunk);
  match result with
  | inr _ => mret ()
  | inl _ => for_each remove_one chunk
  end.

(** One turn of the loop; with an empty queue it waits. *)
Definition turn (queue : list CallKey) : M W FrontendError (list CallKey) :=
  match queue with
  | [] => mret []
  | key :: queue =>
      let '(delete_buffer, queue) := fill [key] queue in
      _ ← for_each remove_chunk (chunks MAX_BATCH_SIZE delete_buffer);
      mret queue
  end.

Fixpoint work (fuel : nat) (queue : list CallKey) : M W FrontendError (list CallKey) :=
  match fuel, queue with
  | S fuel, _ :: _ => queue ← turn queue; work fuel queue
  | _, _ => mret queue
  end.
End worker.
End Lifecycle.

(** ** [src/frontend/src/cleaner.rs] *)
Module Cleaner.
Import Storage Backend.

(** The checks run side by side: the order in which they come to an end. *)
Class Schedule := schedule : list CallRecord -> list CallRecord.

Section cleaner.
Context {W : Type} `{Storage W, Backend W, Schedule}.

(** A backend that cannot be asked counts as one that does not know the call. *)
Definition does_call_exist_on_backend (call_record : CallRecord) : M W StorageError.t bool :=
  match Address.try_from (CallRecord.backend_ip call_record) with
  | Ok backend_address =>
      result ← attempt (get_clients backend_address (CallRecord.era_id call_record) None);
      match result with
      | inl _ => mret false
      | inr _ => mret true
      end
  | Err _ => mret false
  | Panic => lift Panic
  end.

Definition key_of (call_record : CallRecord) : CallRecordKey :=
  CallRecordKey.mk (CallRecord.room_id call_record) (CallRecord.era_id call_record).

Fixpoint calls_to_remove (calls : list CallRecord) : M W StorageError.t (list CallRecordKey) :=
  match calls with
  | [] => mret []
  | call_record :: calls =>
      exists_ ← does_call_exist_on_backend call_record;
      keys ← calls_to_remove calls;
      mret (if exists_ : bool then keys else key_of call_record :: keys)
  end.

Definition remove_one (key : CallRecordKey) : M W StorageError.t unit :=
  _ ← attempt (F := StorageError.t) (remove_call_record (CallRecordKey.room_id key) (CallRecordKey.era_id key)); mret ().

Definition remove_chunk (chunk : list CallRecordKey) : M W StorageError.t unit :=
  result ← attempt (remove_batch_call_records chunk);
  match result with
  | inr _ => mret ()
  | inl _ => for_each remove_one chunk
  end.

(** One turn of the loop. *)
Definition clean (region : string) : M W StorageError.t unit :=
  result ← attempt (get_call_records_for_region region);
  match result with
  | inr ((_ :: _) as calls) =>
      keys ← calls_to_remove (schedule calls);
      for_each remove_chunk (chunks 100 keys)
  | inr [] => mret ()
  | inl _ => mret ()
  end.
End cleaner.
End Cleaner.

(** ** Facts *)
Module LifecycleFacts.
Import FrontendClient Lifecycle.

Lemma chunks_go_spec {A} n fuel (l : list A) :
  (0 < n)%nat -> (length l <= fuel)%nat ->
  concat (chunks_go fuel n l) = l /\ Forall (fun c => (0 < length c <= n)%nat) (chunks_go fuel n l).
Proof.
  intros Hn. revert l. induction fuel as [|fuel IH]; intros l Hl; [by destruct l; simpl in Hl; [|lia]|].
  destruct l as [|x l]; [done|]. cbn [chunks_go concat].
  destruct (IH (drop n (x :: l))) as [IH1 IH2]; [rewrite length_drop; simpl in *; lia|]. split.
  - rewrite IH1. apply take_drop.
  - constructor; [|done]. rewrite length_take. simpl. lia.
Qed.

Lemma chunks_spec {A} n (l : list A) : (0 < n)%nat ->
  concat (chunks n l) = l /\ Forall (fun c => (0 < length c <= n)%nat) (chunks n l).
Proof. intros Hn. by apply chunks_go_spec. Qed.

Lemma fill_spec buffer queue : (length buffer < CALL_REMOVAL_QUEUE_CAPACITY)%nat ->
  (fill buffer queue).1 ++ (fill buffer queue).2 = buffer ++ queue /\
  (length (fill buffer queue).2 <= length queue)%nat /\ (length (fill buffer queue).1 <= CALL_REMOVAL_QUEUE_CAPACITY)%nat.
Proof.
  revert buffer. induction queue as [|key queue IH]; intros buffer Hb; [simpl; split; [done|lia]|].
  cbn [fill]. destruct (Nat.eqb_spec (length (buffer ++ [key])) CALL_REMOVAL_QUEUE_CAPACITY) as [E|E].
  - cbn [fst snd]. rewrite E, <- app_assoc. simpl. split; [done|lia].
  - rewrite length_app in E. simpl in E. destruct (IH (buffer ++ [key])) as (H1 & H2 & H3); [rewrite length_app; simpl; lia|].
    rewrite H1, <- app_assoc. simpl. split; [done|lia].
Qed.

(** *** What the worker sends *)
(** A request and what became of it. *)
Abbreviation Exchange := (string * option (list Storage.CallRecordKey) * Res HttpError HttpResponse)%type.
Abbreviation Log := (list Exchange).

(** A client that also writes down what is sent. *)
#[local] Instance logged {W} (client : HttpClient W) : HttpClient (W * Log) := fun url body '(w, log) =>
  let '(r, w) := client url body w in (r, (w, log ++ [(url, body, r)])).

Definition accepted (r : Res HttpError HttpResponse) : bool :=
  match r with Ok response => is_success (status response) | _ => false end.

(** Requests for each of the keys. *)
Definition singles `{Hex} (base_url : string) (keys : list CallKey) (log : Log) : Prop :=
  fst <$> log = (fun key => (call_url base_url key, None)) <$> keys.

(** The keys are sent in batches; those of a batch that is not accepted are sent
    again, key by key. *)
Inductive sends `{Hex} (base_url : string) : list CallKey -> Log -> Prop :=
| sends_nothing : sends base_url [] []
| sends_batch chunk keys r log : (0 < length chunk <= MAX_BATCH_SIZE)%nat -> accepted r = true ->
    sends base_url keys log ->
    sends base_url (chunk ++ keys) ((base_url, Some (to_json <$> chunk), r) :: log)
| sends_failed chunk keys r again log : (0 < length chunk <= MAX_BATCH_SIZE)%nat -> accepted r = false ->
    singles base_url chunk again -> sends base_url keys log ->
    sends base_url (chunk ++ keys) ((base_url, Some (to_json <$> chunk), r) :: again ++ log).

(** The client answers, and what it answers is text. *)
Definition readable {W} (client : HttpClient W) : Prop :=
  forall url body_ w,
    match fst (client url body_ w) with
    | Ok response => exists b, body response = Some b /\ valid_utf8 b = true
    | Err _ => True
    | Panic => False
    end.

Section worker.
Context `{Hex} {W : Type} (client : HttpClient W) (base_url : string).
Hypothesis client_readable : readable client.

#[local] Ltac op_unfold := unfold mbind, M_bind, attempt, lift, fail, mret, M_ret.

Lemma answer_spec url body_ w w' r : client url body_ w = (r, w') ->
  match r with
  | Ok resp => if accepted r then answer (inr resp) = Ok () else exists e, answer (inr resp) = Err e
  | Err e => exists e', answer (inl e) = Err e'
  | Panic => False
  end.
Proof.
  intros E. pose proof (client_readable url body_ w) as Hr. rewrite E in Hr. cbn [fst] in Hr.
  destruct r as [resp|[]|]; [|by eexists..|done]. destruct Hr as (b & Hb & Hv). unfold answer, accepted. rewrite Hb.
  destruct (is_success _); [done|]. cbn [unwrap]. rewrite mbind_Ok, Hv. by eexists.
Qed.

Lemma remove_one_logged key w log : exists w' r,
  remove_one (H0 := logged client) (Some base_url) key (w, log) = (Ok (), (w', log ++ [(call_url base_url key, None, r)])).
Proof.
  unfold remove_one, remove_call_record. op_unfold. unfold http_delete, logged.
  destruct (client (call_url base_url key) None w) as [r w'] eqn:E. apply answer_spec in E.
  exists w', r. destruct r as [resp|e|]; [| |done].
  - destruct (accepted _); [by rewrite E|by destruct E as [e ->]].
  - by destruct E as [e' ->].
Qed.

Lemma remove_each_logged keys w log : exists w' again,
  for_each (remove_one (H0 := logged client) (Some base_url)) keys (w, log) = (Ok (), (w', log ++ again)) /\
  singles base_url keys again.
Proof.
  revert w log. induction keys as [|key keys IH]; intros w log; [exists w, []; cbn; by rewrite app_nil_r|].
  cbn [for_each]. unfold mbind, M_bind. destruct (remove_one_logged key w log) as (w1 & r & ->).
  destruct (IH w1 (log ++ [(call_url base_url key, None, r)])) as (w' & again & -> & Hs).
  exists w', ((call_url base_url key, None, r) :: again). rewrite <- app_assoc. split; [done|].
  unfold singles in *. by rewrite !fmap_cons, Hs.
Qed.

Lemma remove_chunk_logged chunk w log : exists w' r tail,
  remove_chunk (H0 := logged client) (Some base_url) chunk (w, log) =
    (Ok (), (w', log ++ (base_url, Some (to_json <$> chunk), r) :: tail)) /\
  if accepted r then tail = [] else singles base_url chunk tail.
Proof.
  unfold remove_chunk, remove_batch_call_records. op_unfold. unfold http_delete at 1, logged at 1.
  destruct (client base_url _ w) as [r w1] eqn:E. apply answer_spec in E.
  destruct (remove_each_logged chunk w1 (log ++ [(base_url, Some (to_json <$> chunk), r)])) as (w' & again & Ea & Hs).
  rewrite <- app_assoc in Ea. cbn [app] in Ea. destruct r as [resp|e|]; [|destruct E as [e' ->]; by exists w', (Err e), again|done].
  destruct (accepted (Ok resp)) eqn:Hacc; [rewrite E; exists w1, (Ok resp), []; by rewrite Hacc|].
  destruct E as [e ->]. exists w', (Ok resp), again. by rewrite Hacc.
Qed.

Lemma remove_chunks_logged cs w log :
  Forall (fun c : list CallKey => (0 < length c <= MAX_BATCH_SIZE)%nat) cs ->
  exists w' tail,
    for_each (remove_chunk (H0 := logged client) (Some base_url)) cs (w, log) = (Ok (), (w', log ++ tail)) /\
    forall keys more, sends base_url keys more -> sends base_url (concat cs ++ keys) (tail ++ more).
Proof.
  intros Hcs. revert w log. induction Hcs as [|c cs Hc _ IH]; intros w log.
  - exists w, []. cbn. rewrite app_nil_r. by split.
  - cbn [for_each]. unfold mbind, M_bind. destruct (remove_chunk_logged c w log) as (w1 & r & t1 & -> & Ht).
    destruct (IH w1 (log ++ (base_url, Some (to_json <$> c), r) :: t1)) as (w' & t2 & -> & Hs).
    exists w', ((base_url, Some (to_json <$> c), r) :: t1 ++ t2). split; [by rewrite <- app_assoc|].
    intros keys more Hm. cbn [concat]. rewrite <- app_assoc. cbn. rewrite <- app_assoc.
    destruct (accepted r) eqn:Hr; [subst t1; apply sends_batch|apply sends_failed]; try done; by apply Hs.
Qed.

Lemma turn_logged queue w log : exists w' tail rest,
  turn (H0 := logged client) (Some base_url) queue (w, log) = (Ok rest, (w', log ++ tail)) /\
  (length rest <= pred (length queue))%nat /\
  forall more, sends base_url rest more -> sends base_url queue (tail ++ more).
Proof.
  destruct queue as [|key queue]; [exists w, [], []; cbn; rewrite app_nil_r; split_and!; [done|lia|done]|].
  unfold turn. destruct (fill [key] queue) as [buffer rest] eqn:Ef.
  destruct (fill_spec [key] queue) as (Happ & Hlen & _); [cbn; unfold CALL_REMOVAL_QUEUE_CAPACITY; lia|].
  rewrite Ef in Happ, Hlen. cbn [fst snd] in *.
  destruct (chunks_spec MAX_BATCH_SIZE buffer) as [Hc Hl]; [unfold MAX_BATCH_SIZE; lia|].
  destruct (remove_chunks_logged _ w log Hl) as (w' & tail & E & Hs).
  exists w', tail, rest. unfold mbind, M_bind. rewrite E. split; [done|]. split; [done|].
  intros more Hm. change (key :: queue) with ([key] ++ queue). rewrite <- Happ, <- Hc. by apply Hs.
Qed.

Lemma work_logged fuel queue w log : (length queue <= fuel)%nat -> exists w' tail,
  work (H0 := logged client) (Some base_url) fuel queue (w, log) = (Ok [], (w', log ++ tail)) /\ sends base_url queue tail.
Proof.
  revert queue w log. induction fuel as [|fuel IH]; intros queue w log Hf.
  - destruct queue; [|simpl in Hf; lia]. exists w, []. cbn. rewrite app_nil_r. split; [done|constructor].
  - destruct queue as [|key queue]; [exists w, []; cbn; rewrite app_nil_r; split; [done|constructor]|].
    cbn [work]. unfold mbind, M_bind. destruct (turn_logged (key :: queue) w log) as (w1 & t1 & rest & -> & Hr & Hs).
    simpl in Hr, Hf. destruct (IH rest w1 (log ++ t1)) as (w' & t2 & -> & Hs2); [lia|].
    exists w', (t1 ++ t2). rewrite app_assoc. split; [done|]. by apply Hs.
Qed.
End worker.
End LifecycleFacts.

(** ** From the backend to the table

    The routes of [internal_api.rs] for the removal of calls, as they answer the
    client of the backend. *)
Module Serving.
Import FrontendClient.

Section routes.
Context {W : Type} `{Storage.Storage W}.

(** The rest of the path of a URL, cut at the slashes. *)
Definition segments (base_url url : string) : option (list string) :=
  if starts_with (base_url +:+ "/") url
  then Some (split "/" (String.substring (S (String.length base_url)) (String.length url) url)) else None.

Definition respond (handler : M W StatusCode.t unit) : M W HttpError HttpResponse :=
  result ← attempt handler;
  match result with
  | inr _ => mret (http_response 200 (Some []))
  | inl status => mret (http_response status (Some []))
  end.

Definition internal_api (base_url : string) : HttpClient W := fun url body =>
  match body with
  | Some call_keys => respond (InternalApi.remove_batch_call_records call_keys)
  | None =>
      match segments base_url url with
      | Some [room_id; era_id] => respond (InternalApi.remove_call_record room_id era_id)
      | _ => mret (http_response 503 (Some []))
      end
  end.
End routes.
End Serving.

Module ServingFacts.
Import FrontendClient Lifecycle LifecycleFacts Serving.
Import Storage StorageSpec StorageSamples.

Lemma substring_all s : forall n, (String.length s <= n)%nat -> String.substring 0 n s = s.
Proof. induction s as [|c s IH]; intros [|n] Hn; simpl in *; [done|done|lia|]. rewrite IH by lia. done. Qed.

Lemma substring_after a b n : (String.length b <= n)%nat -> String.substring (String.length a) n (a +:+ b) = b.
Proof. intros Hn. induction a as [|c a IH]; [by apply substring_all|exact IH]. Qed.

Lemma length_append a b : String.length (a +:+ b) = (String.length a + String.length b)%nat.
Proof. induction a as [|c a IH]; [done|]. change (S (String.length (a +:+ b)) = S (String.length a + String.length b)). by rewrite IH. Qed.

Lemma append_assoc_s a b c : (a +:+ b) +:+ c = a +:+ (b +:+ c).
Proof. induction a as [|x a IH]; [done|]. change (String x ((a +:+ b) +:+ c) = String x (a +:+ (b +:+ c))). by rewrite IH. Qed.

Lemma starts_with_append a b : starts_with a (a +:+ b) = true.
Proof.
  induction a as [|c a IH]; [by destruct b|]. change (Ascii.eqb c c && starts_with a (a +:+ b) = true).
  by rewrite Ascii.eqb_refl.
Qed.

Lemma segments_url `{Hex} base_url key :
  contains "/" (display_room (room_id key)) = false -> contains "/" (hex_encode (call_id key)) = false ->
  segments base_url (call_url base_url key) = Some [display_room (room_id key); hex_encode (call_id key)].
Proof.
  intros Hr He. unfold segments, call_url. rewrite <- (append_assoc_s base_url "/"), starts_with_append. f_equal.
  replace (S (String.length base_url)) with (String.length (base_url +:+ "/")) by (rewrite length_append; simpl; lia).
  rewrite substring_after by (rewrite (length_append (base_url +:+ "/")); lia).
  change ("/" +:+ hex_encode (call_id key)) with (String "/" (hex_encode (call_id key))).
  rewrite split_app_sep by done. by rewrite split_last.
Qed.

Lemma hex_no_slash `{HexLaws} b : bytes_ok b -> contains "/" (hex_encode b) = false.
Proof. intros Hb. apply (all_chars_contains is_hex_char); [by apply hex_encode_chars|done]. Qed.

Section table.
Context `{HexLaws, StoredForm} (base_url : string).
#[local] Existing Instance memory.

#[local] Ltac op_unfold := unfold mbind, M_bind, attempt, lift, fail, mret, M_ret.

(** A key of a call whose room is displayed in a way the route understands. *)
Definition key_ok (key : CallKey) : Prop :=
  bytes_ok (call_id key) /\ contains "/" (display_room (room_id key)) = false.

(** Alone, a call is asked for under the room as displayed. *)
Lemma remove_one_table key T : key_ok key ->
  era_matches T (display_room (room_id key)) (hex_encode (call_id key)) = false ->
  Lifecycle.remove_one (H0 := internal_api base_url) (Some base_url) key T = (Ok (), T).
Proof.
  intros [Hb Hr] Hm. unfold Lifecycle.remove_one, FrontendClient.remove_call_record. op_unfold. unfold http_delete, internal_api.
  rewrite segments_url by (try done; by apply hex_no_slash).
  unfold respond, InternalApi.remove_call_record. op_unfold.
  destruct (is_empty _ || is_empty _); [done|]. cbn [map_err_m Storage.remove_call_record memory].
  unfold map_err_m, remove_call_record. cbn [Storage.remove_call_record memory remove_call_record]. rewrite Hm. done.
Qed.

Lemma remove_each_table keys T :
  Forall key_ok keys ->
  Forall (fun key => era_matches T (display_room (room_id key)) (hex_encode (call_id key)) = false) keys ->
  for_each (Lifecycle.remove_one (H0 := internal_api base_url) (Some base_url)) keys T = (Ok (), T).
Proof.
  intros Hk Hm. induction keys as [|key keys IH]; [done|]. inversion_clear Hk. inversion_clear Hm.
  cbn [for_each]. unfold mbind, M_bind. rewrite remove_one_table by done. by apply IH.
Qed.

(** A batch is removed as a whole or not at all. *)
Lemma remove_batch_table chunk T : (0 < length chunk <= MAX_BATCH_SIZE)%nat ->
  let keys := to_json <$> chunk in
  FrontendClient.remove_batch_call_records (H0 := internal_api base_url) (Some base_url) chunk T =
    if forallb (key_matches T) keys then (Ok (), remove_all keys T)
    else (if forallb (fun k => negb (key_matches T k)) keys then Ok () else Err (UnexpectedError (Some 500)), T).
Proof.
  intros Hl keys. unfold FrontendClient.remove_batch_call_records. op_unfold. unfold http_delete, internal_api, respond.
  fold keys. unfold InternalApi.remove_batch_call_records. op_unfold.
  assert (length keys = length chunk) as Hk by apply length_map.
  destruct keys as [|k ks] eqn:Ek; [simpl in Hk; lia|]. unfold map_err_m. cbn [Storage.remove_batch_call_records memory].
  unfold remove_batch_call_records. rewrite (proj2 (Nat.ltb_ge 100 (length (k :: ks)))) by (rewrite Hk; apply Hl).
  destruct (forallb (key_matches T) (k :: ks)); [done|]. by destruct (forallb _ (k :: ks)).
Qed.
End table.
End ServingFacts.

Module CleanerFacts.
Import Storage StorageSpec FrontendFacts LifecycleFacts Cleaner.

(** Some calls are gone, each under one of the keys; the links are as they were. *)
Record removed (keys : list CallRecordKey) (T T' : Tables) : Prop := {
  rm_links : links T' = links T;
  rm_calls : calls T' ⊆ calls T;
  rm_keys room c : calls T !! room = Some c -> calls T' !! room = None ->
    CallRecordKey.mk room (CallRecord.era_id c) ∈ keys
}.

Lemma removed_refl keys T : removed keys T T.
Proof. split; [done..|]. intros room c E E'. congruence. Qed.

Lemma removed_trans keys T1 T2 T3 : removed keys T1 T2 -> removed keys T2 T3 -> removed keys T1 T3.
Proof.
  intros [L1 C1 K1] [L2 C2 K2]. split; [congruence|by etrans|]. intros room c E E'.
  destruct (calls T2 !! room) as [c2|] eqn:E2; [|by apply K1].
  apply (lookup_weaken _ _ _ _ E2) in C1. apply K2; [|done]. congruence.
Qed.

Lemma removed_mono keys keys' T T' : keys ⊆ keys' -> removed keys T T' -> removed keys' T T'.
Proof. intros Hs [? ? Hk]. split; [done..|]. intros room c E E'. by apply Hs, Hk. Qed.

(** What is gone stays gone. *)
Lemma removed_gone keys T T' k : removed keys T T' -> key_matches T k = false -> key_matches T' k = false.
Proof.
  intros [_ Hc _]. unfold key_matches, era_matches. destruct (calls T' !! _) as [c|] eqn:E; [|done].
  by rewrite (lookup_weaken _ _ _ _ E Hc).
Qed.

Lemma remove_one_removed room era T : removed [CallRecordKey.mk room era] T (remove_call_record room era T).2.
Proof.
  cbn. destruct (era_matches T room era) eqn:Ee; [|apply removed_refl]. split; cbn; [done|apply delete_subseteq|].
  intros room' c E [E'|E']%lookup_delete_None; [subst room'|congruence].
  unfold era_matches in Ee. rewrite E in Ee. apply String.eqb_eq in Ee as <-. by left.
Qed.

Lemma remove_one_gone room era T :
  key_matches (remove_call_record room era T).2 (CallRecordKey.mk room era) = false.
Proof.
  unfold key_matches. cbn. destruct (era_matches T room era) eqn:Ee; [|done]. unfold era_matches. cbn. by rewrite lookup_delete_eq.
Qed.

Lemma lookup_removed keys T room :
  calls (remove_all keys T) !! room = if bool_decide (room ∈ CallRecordKey.room_id <$> keys) then None else calls T !! room.
Proof.
  unfold remove_all. cbn. induction keys as [|k keys IH]; [by rewrite bool_decide_false by set_solver|].
  rewrite fmap_cons. cbn. destruct (decide (room = CallRecordKey.room_id k)) as [->|Hne].
  - rewrite lookup_delete_eq, bool_decide_true by set_solver. done.
  - rewrite lookup_delete_ne, IH by done. repeat case_bool_decide; set_solver.
Qed.

Lemma remove_all_removed keys T : forallb (key_matches T) keys = true -> removed keys T (remove_all keys T).
Proof.
  intros Hm. split; [done|..].
  - apply map_subseteq_spec. intros room c. rewrite lookup_removed. by case_bool_decide.
  - intros room c E. rewrite lookup_removed. case_bool_decide as Hin; [intros _|congruence].
    apply list_elem_of_fmap in Hin as ([r e] & -> & Hk). rewrite forallb_forall in Hm.
    specialize (Hm _ (proj1 (list_elem_of_In _ _) Hk)). unfold key_matches, era_matches in Hm. cbn in *.
    rewrite E in Hm. by apply String.eqb_eq in Hm as ->.
Qed.

Lemma remove_batch_removed keys T : removed keys T (remove_batch_call_records keys T).2.
Proof.
  unfold remove_batch_call_records. case_if; [apply removed_refl|].
  destruct (forallb (key_matches T) keys) eqn:Ea; [by apply remove_all_removed|]. case_if; apply removed_refl.
Qed.

(** A batch that is accepted leaves none of its calls. *)
Lemma remove_batch_gone keys T k : (remove_batch_call_records keys T).1 = Ok () -> k ∈ keys ->
  key_matches (remove_batch_call_records keys T).2 k = false.
Proof.
  unfold remove_batch_call_records. intros E Hk. apply list_elem_of_In in Hk as Hin. case_if; [done|].
  destruct (forallb (key_matches T) keys) eqn:Ea; cbn [snd] in *.
  - unfold key_matches, era_matches. rewrite lookup_removed, bool_decide_true; [done|]. by apply list_elem_of_fmap_2.
  - destruct (forallb (fun k => negb (key_matches T k)) keys) eqn:En; [|done]. rewrite forallb_forall in En.
    by apply negb_true_iff, (En k).
Qed.

Section cleaner.
Context {W : Type} `{StorageLaws W, Backend.Backend W, Schedule}.

(** Asking a backend does not touch the tables, nor does it panic. *)
Definition backends_answer : Prop := forall addr era user w T, represents w T ->
  represents (snd (Backend.get_clients addr era user w)) T /\ fst (Backend.get_clients addr era user w) <> Panic.

(** The ways in which the storage may fail to remove. *)
Definition removals_fail_with (failure : StorageError.t -> Prop) : Prop :=
  (forall room era, implements represents failure (Storage.remove_call_record room era) (remove_call_record room era)) /\
  (forall keys, implements represents failure (Storage.remove_batch_call_records keys) (remove_batch_call_records keys)).

(** A backend's answer for this call. *)
Definition answered_by_backend (T : Tables) (e : CallRecord * bool) : Prop :=
  exists w w', represents w T /\ does_call_exist_on_backend e.1 w = (Ok e.2, w').

(** The calls that their backends do not know. *)
Definition dead_keys (answers : list (CallRecord * bool)) : list CallRecordKey :=
  (key_of ∘ fst) <$> filter (fun e => e.2 = false) answers.

Lemma calls_to_remove_answers T (Hb : backends_answer) l w : represents w T ->
  exists w' answers, calls_to_remove l w = (Ok (dead_keys answers), w') /\ represents w' T /\
    answers.*1 = l /\ Forall (answered_by_backend T) answers.
Proof.
  revert w. induction l as [|c l IH]; intros w Hw; [by exists w, []|]. cbn [calls_to_remove].
  assert (exists b w', does_call_exist_on_backend c w = (Ok b, w') /\ represents w' T) as (b & w1 & E & Hw1).
  { unfold does_call_exist_on_backend. pose proof (address_no_panic (CallRecord.backend_ip c)).
    destruct (Address.try_from _) as [addr|e|]; [|by exists false, w|done]. unfold mbind, M_bind, attempt.
    destruct (Hb addr (CallRecord.era_id c) None w T Hw) as [Hw' Hp].
    destruct (Backend.get_clients _ _ _ w) as [[r|e|] w']; cbn in *; [by exists true, w'|by exists false, w'|done]. }
  destruct (IH w1 Hw1) as (w' & answers & E' & Hw' & Ha & Hf). exists w', ((c, b) :: answers).
  unfold mbind, M_bind. rewrite E, E'. split_and!; [|done|by rewrite fmap_cons, Ha|].
  - unfold dead_keys. rewrite filter_cons. by destruct b.
  - constructor; [by exists w, w1|done].
Qed.

Context (failure : StorageError.t -> Prop) (Hfail : removals_fail_with failure).

(** The keys are tried: nothing else is removed, and if the storage does not fail all are gone. *)
Definition tried (all keys : list CallRecordKey) (T : Tables) (r : Res StorageError.t unit) (T' : Tables) : Prop :=
  r = Ok () /\ removed all T T' /\ ((forall e, ~ failure e) -> Forall (fun k => key_matches T' k = false) keys).

Lemma tried_cons all keys keys' T1 T2 T3 r : tried all keys T1 (Ok ()) T2 -> tried all keys' T2 r T3 ->
  tried all (keys ++ keys') T1 r T3.
Proof.
  intros (_ & R1 & G1) (-> & R2 & G2). split; [done|]. split; [by eapply removed_trans|]. intros Hn. apply Forall_app.
  split; [|by apply G2]. eapply Forall_impl; [by apply G1|]. intros k. by apply (removed_gone all).
Qed.

Lemma for_each_tried {A} (f : A -> M W StorageError.t unit) (keys_of : A -> list CallRecordKey) all l T :
  (forall x T, x ∈ l -> runs T (f x) (tried all (keys_of x) T)) -> runs T (for_each f l) (tried all (l ≫= keys_of) T).
Proof.
  revert T. induction l as [|x l IH]; intros T Hf; [apply runs_lift; split_and!; [done|apply removed_refl|by constructor]|].
  cbn [for_each]. eapply runs_bind; [apply Hf; by left|..].
  - intros [] T1 Ht. eapply runs_weaken; [apply IH; intros; apply Hf; by right|]. intros r T2 Ht2. by eapply tried_cons.
  - by intros e T1 [? _].
  - by intros T1 [? _].
Qed.

Lemma remove_one_tried all k T : k ∈ all -> runs T (remove_one k) (tried all [k] T).
Proof.
  intros Hk. destruct k as [room era]. unfold remove_one.
  assert (removed all T (remove_call_record room era T).2) as Hr.
  { eapply removed_mono; [|apply remove_one_removed]. by intros k ->%list_elem_of_singleton. }
  eapply (runs_bind T _ _ (fun r T' => (exists x, r = Ok x) /\ tried all [CallRecordKey.mk room era] T (Ok ()) T')).
  - apply runs_attempt. eapply runs_weaken; [apply (runs_implements T _ _ _ (proj1 Hfail room era))|].
    intros r T' [_ [|e He|e He]]; (split; [by eexists|]); (split; [done|]); (split; [|intros Hn]).
    + done.
    + apply Forall_singleton, remove_one_gone.
    + apply removed_refl.
    + by destruct (Hn e).
    + done.
    + by destruct (Hn e).
  - intros a T' [_ Ht]. by apply runs_lift.
  - by intros e T' [[? ?] _].
  - by intros T' [[? ?] _].
Qed.

Lemma remove_ones_tried all keys T : keys ⊆ all -> runs T (for_each remove_one keys) (tried all keys T).
Proof.
  intros Hs. assert (keys = keys ≫= (fun k => [k])) as E.
  { clear Hs. induction keys as [|k keys IH]; [done|]. cbn. congruence. }
  rewrite E at 2. apply for_each_tried. intros k T' Hk. by apply remove_one_tried, Hs.
Qed.

Lemma remove_chunk_tried all chunk T : chunk ⊆ all -> runs T (remove_chunk chunk) (tried all chunk T).
Proof.
  intros Hs. unfold remove_chunk.
  assert (removed all T (remove_batch_call_records chunk T).2) as Hr by (by eapply removed_mono, remove_batch_removed).
  eapply (runs_bind T _ _ (fun r T' => removed all T T' /\
    match r with
    | Ok (inr _) => tried all chunk T (Ok ()) T'
    | Ok (inl _) => True
    | _ => False
    end)).
  - apply runs_attempt. eapply runs_weaken; [apply (runs_implements T _ _ _ (proj2 Hfail chunk))|].
    intros r T' [_ [|e He|e He]]; [split; [done|]|split; [apply removed_refl|done]|by split].
    assert ((remove_batch_call_records chunk T).1 <> Panic) as Hp by apply remove_batch_no_panic.
    destruct (remove_batch_call_records chunk T).1 as [[]|e|] eqn:E; [|done..]. split; [done|]. split; [done|].
    intros _. apply Forall_forall. intros k Hk. by apply remove_batch_gone.
  - intros [e|u] T' [Hr' Ht]; [|by apply runs_lift; destruct u].
    eapply runs_weaken; [by apply (remove_ones_tried all chunk)|]. intros r T2 (-> & Hr2 & Hg).
    split; [done|]. split; [by eapply removed_trans|done].
  - by intros e T' [_ ?].
  - by intros T' [_ ?].
Qed.

Lemma remove_chunks_tried keys T : runs T (for_each remove_chunk (chunks 100 keys)) (tried keys keys T).
Proof.
  destruct (chunks_spec 100 keys) as [Hc _]; [lia|].
  assert (chunks 100 keys ≫= id = keys) as E.
  { rewrite <- Hc at 2. generalize (chunks 100 keys) as l. induction l as [|x l IH]; [done|]. cbn. by rewrite <- IH. }
  rewrite <- E at 3. apply for_each_tried. intros chunk T' Hin. apply remove_chunk_tried. intros k Hk. rewrite <- Hc.
  apply list_elem_of_In, in_concat. exists chunk. by rewrite <- !list_elem_of_In.
Qed.

Lemma clean_tried region w T : backends_answer -> (forall l, schedule l ≡ₚ l) -> represents w T ->
  exists w' T' answers, clean region w = (Ok (), w') /\ represents w' T' /\
    match fst (Storage.get_call_records_for_region region w) with
    | Ok l => answers.*1 ≡ₚ l
    | _ => answers = []
    end /\
    Forall (answered_by_backend T) answers /\ tried (dead_keys answers) (dead_keys answers) T (Ok ()) T'.
Proof.
  intros Hb Hs Hw. unfold clean, mbind at 1, M_bind at 1, attempt at 1.
  destruct (get_call_records_for_region_law region w T Hw) as [Hw1 Hp].
  assert (tried [] [] T (Ok ()) T) as Hnone by (split; [done|]; split; [apply removed_refl|by constructor]).
  destruct (Storage.get_call_records_for_region region w) as [[l|e|] w1]; cbn [fst snd] in *; [|by exists w1, T, []|done].
  destruct l as [|c l]; [by exists w1, T, []|]. set (l0 := c :: l) in *.
  destruct (calls_to_remove_answers T Hb (schedule l0) w1 Hw1) as (w2 & answers & E & Hw2 & Ha & Hf).
  unfold mbind, M_bind. rewrite E. destruct (remove_chunks_tried (dead_keys answers) T w2 Hw2) as (T' & HT' & Ht).
  destruct (for_each _ _ w2) as [r w']. cbn [fst snd] in *. exists w', T', answers. destruct Ht as (-> & Ht).
  split; [done|]. split; [done|]. split; [by rewrite Ha, Hs|]. by repeat split; try apply Ht.
Qed.
End cleaner.
End CleanerFacts.

Module LifecycleProperties.
Import FrontendClient Lifecycle LifecycleFacts Serving ServingFacts.
Import StorageSpec StorageSamples.

(** C13: Every call in the queue is reported.  However many calls ended, the worker
    empties its queue in at most as many turns as there are keys: it sends them in
    order, in batches of at most a hundred, and after a batch that failed the same
    keys once more one by one; an error ends nothing.  (What the frontend answers must
    be text: the code panics on a refusal it cannot read.) *)
Theorem ended_calls_reported `{Hex} {W : Type} (client : HttpClient W) base_url queue w :
  readable client ->
  exists w' log, work (H0 := logged client) (Some base_url) (length queue) queue (w, []) = (Ok [], (w', log)) /\
    sends base_url queue log.
Proof. intros Hr. by apply (work_logged client base_url Hr (length queue) queue w []). Qed.

#[local] Existing Instance nibbles.

(** A frontend that refuses batches. *)
Definition refusing : HttpClient unit := fun url body w =>
  (Ok (match body with Some _ => http_response 500 (Some []) | None => http_response 200 (Some []) end), w).

Definition two_calls : list CallKey := [call_key "room1" [10]; call_key "room2" [11]].

Lemma ended_calls_reported_witness :
  exists log, work (H0 := logged refusing) (Some "u") 2 two_calls (tt, []) = (Ok [], (tt, log)) /\ sends "u" two_calls log /\
    (fun e => e.1.1) <$> log = ["u"; "u/room/0a"; "u/room/0b"].
Proof.
  destruct (ended_calls_reported refusing "u" two_calls tt) as ([] & log & E & Hs).
  - intros url [l|] w; cbn; eauto.
  - exists log. split; [exact E|]. split; [exact Hs|]. vm_compute in E. injection E as <-. reflexivity.
Defined.

(** C15: What the frontend makes of a batch.  If every call is in the table under its
    era, all are removed.  If one is not, no call at all is: the batch is refused,
    and the keys are repeated one by one under their rooms as they are displayed, cut
    to four characters, where no call is. *)
Theorem batches_leave_table `{HexLaws, StoredForm} base_url chunk T :
  (0 < length chunk <= MAX_BATCH_SIZE)%nat -> Forall key_ok chunk ->
  let keys := to_json <$> chunk in
  let removal := remove_chunk (H0 := internal_api (H := memory) base_url) (Some base_url) chunk T in
  (forallb (key_matches T) keys = true -> removal = (Ok (), remove_all keys T)) /\
  (forallb (key_matches T) keys = false -> Forall (fun key => calls T !! display_room (room_id key) = None) chunk ->
     removal = (Ok (), T)).
Proof.
  intros Hl Hk keys removal. unfold removal, remove_chunk, mbind, M_bind, attempt.
  rewrite (remove_batch_table base_url chunk T Hl). fold keys. split; intros Hm; rewrite Hm; [done|]. intros Hn.
  destruct (forallb (fun k => negb (key_matches T k)) keys); [done|]. apply remove_each_table; [done|].
  eapply Forall_impl; [exact Hn|]. intros key E. unfold era_matches. cbn in E. by rewrite E.
Qed.

Definition ended (room era : string) : Storage.CallRecord := Storage.CallRecord.mk room era "10.0.0.1" "us" "bob".
#[local] Instance lifecycle_form : StoredForm := plain_form.

Lemma batches_leave_table_witness :
  let T := mk_tables {["room1" := ended "room1" "0a"]} ∅ in
  remove_chunk (H0 := internal_api (H := memory) "u") (Some "u") two_calls T = (Ok (), T) /\
  remove_chunk (H0 := internal_api (H := memory) "u") (Some "u") (take 1 two_calls) T = (Ok (), mk_tables ∅ ∅).
Proof.
  split.
  - apply (batches_leave_table "u" two_calls); try reflexivity; [vm_compute; lia| |].
    + repeat constructor; vm_compute; congruence.
    + repeat constructor; reflexivity.
  - apply (batches_leave_table "u" (take 1 two_calls)); try reflexivity; [vm_compute; lia|].
    repeat constructor; vm_compute; congruence.
Defined.
End LifecycleProperties.

Module CleanerProperties.
Import Storage StorageSpec StorageSamples Cleaner CleanerFacts.

(** C14: A turn of the cleaner never panics, changes no call link, adds no call and asks the
    backend of every call that storage lists once.  It removes a call only if a call of the same
    room and era was listed, and its backend said it is gone, could not be asked or has an
    address that is none; and if no removal fails, all such calls are gone.  Storage may list
    what it likes: calls may be missing, or be replaced by others since. *)
Theorem cleaner_removes_dead_calls {W : Type} `{StorageLaws W, Backend.Backend W, Schedule} failure region w T :
  removals_fail_with failure -> backends_answer -> (forall l, schedule l ≡ₚ l) -> represents w T ->
  exists w' T' answers, clean region w = (Ok (), w') /\ represents w' T' /\
    match fst (Storage.get_call_records_for_region region w) with
    | Ok l => answers.*1 ≡ₚ l
    | _ => answers = []
    end /\
    (forall c alive, (c, alive) ∈ answers -> exists w1 w2, represents w1 T /\ does_call_exist_on_backend c w1 = (Ok alive, w2)) /\
    links T' = links T /\ calls T' ⊆ calls T /\
    (forall room c, calls T !! room = Some c -> calls T' !! room = None ->
       exists c', (c', false) ∈ answers /\ CallRecord.room_id c' = room /\ CallRecord.era_id c' = CallRecord.era_id c) /\
    ((forall e, ~ failure e) -> forall c c', (c, false) ∈ answers -> calls T' !! CallRecord.room_id c = Some c' ->
       CallRecord.era_id c' <> CallRecord.era_id c).
Proof.
  intros Hf Hb Hs Hw. destruct (clean_tried failure Hf region w T Hb Hs Hw) as (w' & T' & answers & E & HT' & Hl & Ha & _ & [] & Hg).
  exists w', T', answers. rewrite Forall_forall in Ha. split_and!; [done..| |done|done| |].
  - intros c alive Hin. exact (Ha _ Hin).
  - intros room c Hc Hn. specialize (rm_keys0 room c Hc Hn). unfold dead_keys in rm_keys0.
    apply list_elem_of_fmap in rm_keys0 as ([c' alive] & Hk & [Halive Hin]%list_elem_of_filter). cbn in *. subst alive.
    injection Hk as -> He. by exists c'.
  - intros Hno c c' Hin Hc Heq. specialize (Hg Hno). rewrite Forall_forall in Hg.
    assert (key_of c ∈ dead_keys answers) as Hk.
    { unfold dead_keys. apply list_elem_of_fmap. exists (c, false). split; [done|]. by apply list_elem_of_filter. }
    specialize (Hg _ Hk). unfold key_matches, era_matches, key_of in Hg. cbn in Hg. rewrite Hc, Heq in Hg.
    by rewrite String.eqb_refl in Hg.
Qed.

#[local] Instance cleaner_form : StoredForm := plain_form.
#[local] Instance cleaner_storage : Storage Tables := memory.
#[local] Instance backwards : Schedule := fun l => rev l.
#[local] Instance backend_of_bob : Backend.Backend Tables := {|
  Backend.select_ip T := (Err Backend.Timeout, T);
  Backend.get_clients _ era _ T :=
    (if String.eqb era "e1" then Ok (Backend.clients_response [] [] []) else Err Backend.CallNotFound, T);
  Backend.join _ _ _ _ T := (Err Backend.Timeout, T)
|}.
Definition record (room era region : string) : CallRecord := CallRecord.mk room era "10.0.0.1" region "bob".
Definition three_calls : Tables :=
  mk_tables (<["a" := record "a" "e1" "us"]> (<["b" := record "b" "e2" "us"]> {["c" := record "c" "e2" "eu"]})) ∅.

Lemma cleaner_removes_dead_calls_witness : exists T', clean "us" three_calls = (Ok (), T') /\
  links T' = ∅ /\ calls T' = <["a" := record "a" "e1" "us"]> {["c" := record "c" "e2" "eu"]}.
Proof.
  destruct (cleaner_removes_dead_calls (fun _ => False) "us" three_calls three_calls) as (w' & T' & answers & E & [HT _] & _ & _ & Hl & _).
  - split; intros; apply memory_implements; intros; [by apply remove_call_record_ok|by apply remove_batch_call_records_ok].
  - intros addr era user w T Hw. cbn. split; [exact Hw|]. by destruct (String.eqb era "e1").
  - intros l. symmetry. apply Permutation_rev.
  - split; [reflexivity|]. unfold tables_ok, three_calls. cbn. repeat (apply map_Forall_insert_2; [done|]). apply map_Forall_empty.
  - subst w'. exists T'. split; [exact E|]. split; [exact Hl|].
    vm_compute in E. injection E as <-. vm_compute. reflexivity.
Defined.
End CleanerProperties.
