(* ===== verification/Signaling.v ===== *)
(** * Signaling: how clients get into the calls of a server

    [src/backend/src/signaling_server.rs], which the frontend calls, and
    [http_server.rs], which stands in for the frontend in tests: the handlers are
    functions on the state of [Sfu].  Of an error the status is modelled and not
    its text; an IP address is the text that it is printed as; the clocks, the key
    pair and the random names are arguments. *)
From Stdlib Require Import Ascii.
From stdpp Require Import strings pretty.
From S2P Require Import Prelude Common Text Authenticator Backend Frontend FrontendApi.
From S2P Require Import Float Bytes Srtp RtpHeader Layers ApprovedUsers Client Connection Call CallHandlers Sfu.

(** ** Requests and responses *)
Module Signaling.

(** The fields of [config::Config] that are read, and whether the logger is asked
    for messages at level info (its default filter asks for all). *)
Record Config := config {
  signaling_ip : option string;
  binding_ip : string;
  ice_candidate_ip : list string;
  ice_candidate_port : Z;
  ice_candidate_port_tcp : Z;
  ice_candidate_port_tls : option Z;
  hostname : option string;
  max_clients_per_call : Z;
  new_clients_require_approval : bool;
  info_logged : bool
}.

Record MediaPorts := media_ports { udp : Z; tcp : Z; tls : option Z }.
Record ServerMediaAddress := server_media_address {
  addresses : list string;
  ports : MediaPorts;
  media_hostname : option string
}.

Definition unspecified (ip : string) : bool := String.eqb ip "0.0.0.0" || String.eqb ip "::".

(** [ServerMediaAddress::from] *)
Definition media_address (c : Config) : ServerMediaAddress :=
  let addresses :=
    match ice_candidate_ip c with
    | [] => [if unspecified (binding_ip c) then "127.0.0.1" else binding_ip c]
    | ips => ips
    end in
  server_media_address addresses
    (media_ports (ice_candidate_port c) (ice_candidate_port_tcp c) (ice_candidate_port_tls c)) (hostname c).

(** [ServerMediaAddress::ip] *)
Definition media_ip {E} (a : ServerMediaAddress) : Res E string := unwrap (head (addresses a)).

Record HealthResponse := health_response { call_count : nat; client_count : nat; cpu_idle_pct : Z }.
Record ClientInfo := client_info { ci_demux_id : Z; ci_user_id : option string }.
Record ClientsResponse := clients_response {
  user_ids : list string;
  demux_ids : list Z;
  pending_clients : list ClientInfo
}.
Record JoinRequest := join_request {
  user_id : string;
  client_ice_ufrag : string;
  client_dhe_public_key : string;
  hkdf_extra_info : option string;
  region : option string;
  approval_required : bool;
  is_admin : bool;
  room_id : option string;
  approved_users : option (list string)
}.
Record JoinResponse := join_response {
  server_ip : string;
  server_ips : list string;
  server_port : Z;
  server_port_tcp : Z;
  server_port_tls : option Z;
  server_hostname : option string;
  server_ice_ufrag : string;
  server_ice_pwd : string;
  server_dhe_public_key : string;
  client_status : string
}.

(** The names of the regions, in kebab case. *)
Definition region_names : list (string * Region.t) :=
  [("unset", Region.Unset); ("unknown", Region.Unknown); ("asia-east1", Region.AsiaEast1);
   ("asia-east2", Region.AsiaEast2); ("asia-northeast1", Region.AsiaNortheast1);
   ("asia-northeast3", Region.AsiaNortheast3); ("asia-south1", Region.AsiaSouth1);
   ("asia-southeast1", Region.AsiaSoutheast1); ("asia-southeast2", Region.AsiaSoutheast2);
   ("australian-southeast2", Region.AustralianSoutheast2); ("europe-north1", Region.EuropeNorth1);
   ("europe-west1", Region.EuropeWest1); ("europe-west2", Region.EuropeWest2);
   ("europe-west3", Region.EuropeWest3); ("europe-west4", Region.EuropeWest4);
   ("europe-west6", Region.EuropeWest6); ("northamerica-northeast1", Region.NorthamericaNortheast1);
   ("southamerica-east1", Region.SouthamericaEast1); ("us-central1", Region.UsCentral1);
   ("us-east1", Region.UsEast1); ("us-east4", Region.UsEast4); ("us-west1", Region.UsWest1);
   ("us-west2", Region.UsWest2); ("us-west3", Region.UsWest3); ("us-west4", Region.UsWest4)].

(** [Region::from_str(s).ok()] *)
Definition region_from_str (s : string) : option Region.t :=
  snd <$> List.find (fun e => String.eqb (fst e) s) region_names.

(** The [Display] of a [ClientStatus]. *)
Definition status_text (s : Call.ClientStatus) : string :=
  match s with Call.Active => "ACTIVE" | Call.Pending => "PENDING" | Call.Blocked => "BLOCKED" end.

(** The header X-User-Id. *)
Definition user_id_header `{HeaderValues} (values : list bytes) : option string :=
  match values with
  | [value] =>
      if (length value =? 0)%nat || (256 <? length value)%nat then None else header_to_str value
  | _ => None
  end.

Section handlers.
Context `{Hex} `{Mrp} `{Protos}.

Definition call_id_from_hex (call_id : string) : Res StatusCode.t Sfu.CallId :=
  if is_empty call_id then Err StatusCode.BAD_REQUEST else ok_or StatusCode.BAD_REQUEST (hex_decode call_id).

Definition validate_user_id (user_id_str : string) : Res StatusCode.t UserId :=
  if is_empty user_id_str then Err StatusCode.BAD_REQUEST else Ok user_id_str.

Definition validate_room_id (room_id : option string) : Res StatusCode.t unit :=
  match room_id with
  | Some id => if is_empty id then Err StatusCode.BAD_REQUEST else Ok ()
  | None => Ok ()
  end.

Definition get_health (sfu : Sfu.t) (is_healthy : bool) (cpu_idle_pct : Z) : Res StatusCode.t HealthResponse :=
  if is_healthy then
    let calls := snd <$> map_to_list (Sfu.call_by_call_id sfu) in
    Ok (health_response (length calls) (sum_list_with Call.size calls) cpu_idle_pct)
  else Err StatusCode.INTERNAL_SERVER_ERROR.

Definition get_info (c : Config) : Res StatusCode.t string := ok_or StatusCode.INTERNAL_SERVER_ERROR (signaling_ip c).

(** What a list of clients shows of a call. *)
Definition clients_of (signaling : Sfu.CallSignalingInfo) : ClientsResponse :=
  clients_response (snd <$> Sfu.client_ids signaling) (fst <$> Sfu.client_ids signaling)
    ((fun e => client_info (fst e) (snd e)) <$> Sfu.pending_client_ids signaling).

Definition get_clients (sfu : Sfu.t) (call_id : string) (requesting_user : option UserId) :
    Res StatusCode.t ClientsResponse :=
  call_id ← call_id_from_hex call_id;
  match Sfu.get_call_signaling_info sfu call_id requesting_user with
  | Some signaling => Ok (clients_of signaling)
  | None => Err StatusCode.NOT_FOUND
  end.

Definition bad_request {E A} (r : Res E A) : Res StatusCode.t A := map_err (fun _ => StatusCode.BAD_REQUEST) r.

(** A message of the log shows the first ten bytes of the key. *)
Definition log_key_prefix (c : Config) (client_dhe_public_key : string) : Res StatusCode.t unit :=
  if info_logged c && (10 <? String.length client_dhe_public_key)%nat
  then _ ← str_slice 0 10 client_dhe_public_key; Ok () else Ok ().

(** The key of the client, compressed or not. *)
Definition parse_client_key (client_dhe_public_key : string) : Res StatusCode.t bytes :=
  if (String.length client_dhe_public_key =? 66)%nat then
    ok_or StatusCode.BAD_REQUEST (hex_decode_array 33 client_dhe_public_key)
  else if (String.length client_dhe_public_key =? 130)%nat then
    raw_full ← ok_or StatusCode.BAD_REQUEST (hex_decode_array 65 client_dhe_public_key);
    prefix ← idx raw_full 0;
    if negb (prefix =? 4) && negb (prefix =? 5) then Err StatusCode.BAD_REQUEST
    else xy ← slice 1 65 raw_full; bad_request (Sfu.compress_public_key xy)
  else Err StatusCode.BAD_REQUEST.

Definition parse_hkdf_extra_info (hkdf_extra_info : option string) : Res StatusCode.t bytes :=
  match hkdf_extra_info with
  | None => Ok []
  | Some info => ok_or StatusCode.BAD_REQUEST (hex_decode info)
  end.

Definition parse_region (region : option string) : Region.t :=
  match region with Some region => default Region.Unknown (region_from_str region) | None => Region.Unset end.

(** The request once it is validated: call, demux ID, user, key and extra info. *)
Definition validate (c : Config) (call_id : string) (demux_id : Z) (request : JoinRequest) :
    Res StatusCode.t (Sfu.CallId * DemuxId.t * UserId * bytes * bytes) :=
  _ ← log_key_prefix c (client_dhe_public_key request);
  _ ← validate_room_id (room_id request);
  call_id ← call_id_from_hex call_id;
  demux_id ← bad_request (DemuxId.try_from demux_id);
  user_id ← validate_user_id (user_id request);
  client_dhe_public_key ← parse_client_key (client_dhe_public_key request);
  client_hkdf_extra_info ← parse_hkdf_extra_info (hkdf_extra_info request);
  Ok (call_id, demux_id, user_id, client_dhe_public_key, client_hkdf_extra_info).

Section Join.
Context `{BlockCipher} `{Sm2} `{Hkdf} `{Powf}.

Definition respond (c : Config) (server_ice_ufrag server_ice_pwd : string)
    (result : Res Sfu.SfuError (bytes * Call.ClientStatus)) : Res unit (Res StatusCode.t JoinResponse) :=
  match result with
  | Ok (server_dhe_public_key, client_status) =>
      let media_server := media_address c in
      ip ← media_ip media_server;
      Ok (Ok (join_response ip (addresses media_server) (udp (ports media_server)) (tcp (ports media_server))
        (tls (ports media_server)) (media_hostname media_server) server_ice_ufrag server_ice_pwd
        (hex_encode server_dhe_public_key) (status_text client_status)))
  | Err Sfu.DuplicateDemuxIdDetected => Ok (Err StatusCode.BAD_REQUEST)
  | Err _ => Ok (Err StatusCode.INTERNAL_SERVER_ERROR)
  | Panic => Panic
  end.

Definition join (sfu : Sfu.t) (c : Config) (call_id : string) (demux_id : Z) (request : JoinRequest)
    (server_ice_ufrag server_ice_pwd : string) (now created locked_now : Z) (key_pair : Res string (bytes * bytes)) :
    Res unit (Sfu.t * Res StatusCode.t JoinResponse) :=
  match validate c call_id demux_id request with
  | Panic => Panic
  | Err status => Ok (sfu, Err status)
  | Ok (call_id, demux_id, user_id, client_dhe_public_key, client_hkdf_extra_info) =>
      '(sfu, result) ← Sfu.get_or_create_call_and_add_client sfu call_id (room_id request) user_id demux_id
        (as_bytes server_ice_ufrag) (as_bytes server_ice_pwd) (as_bytes (client_ice_ufrag request))
        client_dhe_public_key client_hkdf_extra_info (parse_region (region request)) (approval_required request)
        (is_admin request) (approved_users request) now created locked_now key_pair;
      response ← respond c server_ice_ufrag server_ice_pwd result;
      Ok (sfu, response)
  end.
End Join.
End handlers.
End Signaling.

(** ** [http_server.rs] *)
Module HttpServer.
Import Signaling.

Definition NOT_ACCEPTABLE : StatusCode.t := 406.

Record Participant := participant { opaque_user_id : option string; demux_id : Z }.
Record ParticipantsResponse := participants_response {
  conference_id : string;
  max_devices : Z;
  participants : list Participant;
  creator : string;
  pending_participants : list Participant
}.
Record JoinRequest := join_request {
  ice_ufrag : string;
  dhe_public_key : string;
  hkdf_extra_info : option string
}.
Record JoinResponse := join_response {
  joined_demux_id : Z;
  joined : Signaling.JoinResponse;
  joined_conference_id : string
}.

(** The demux ID of a random [u32]. *)
Definition random_demux_id (unmasked_id : Z) : Res StatusCode.t DemuxId.t :=
  o ← ok_opt (DemuxId.try_from (Z.land unmasked_id 4294967280)); unwrap o.

Section handlers.
Context `{Hex} `{Mrp} `{Protos}.

(** Milliseconds since the epoch, as text. *)
Definition conference_id_from_signaling_info (signaling : Sfu.CallSignalingInfo) : Res StatusCode.t string :=
  if Sfu.created signaling <? 0 then Panic
  else Ok (pretty (Z.to_N (Sfu.created signaling / 1000000))).

(** The tokens are as the frontend's; their MAC is not looked at. *)
Definition authenticate (password : string) : Res StatusCode.t (UserId * Sfu.CallId) :=
  match split ":" password with
  | [version; user_id_str; call_id_hex; _; _; _] =>
      if String.eqb version "2" && negb (is_empty user_id_str) && negb (is_empty call_id_hex) then
        call_id ← ok_or StatusCode.UNAUTHORIZED (hex_decode call_id_hex);
        Ok (user_id_str, call_id)
      else Err StatusCode.UNAUTHORIZED
  | _ => Err StatusCode.UNAUTHORIZED
  end.

Definition get_participants (sfu : Sfu.t) (c : Config) (password : string) : Res StatusCode.t ParticipantsResponse :=
  '(user_id, call_id) ← authenticate password;
  match Sfu.get_call_signaling_info sfu call_id (Some user_id) with
  | Some signaling =>
      conference_id ← conference_id_from_signaling_info signaling;
      Ok (participants_response conference_id (max_clients_per_call c)
            ((fun e => participant (Some (snd e)) (fst e)) <$> Sfu.client_ids signaling) (Sfu.creator_id signaling)
            ((fun e => participant (snd e) (fst e)) <$> Sfu.pending_client_ids signaling))
  | None => Err StatusCode.NOT_FOUND
  end.

(** The request once it is validated: user, call, key and extra info. *)
Definition validate_join (password : string) (request : JoinRequest) :
    Res StatusCode.t (UserId * Sfu.CallId * bytes * bytes) :=
  '(user_id, call_id) ← authenticate password;
  if is_empty (dhe_public_key request) then Err NOT_ACCEPTABLE
  else
    key ← ok_or NOT_ACCEPTABLE (hex_decode_array 33 (dhe_public_key request));
    info ← match hkdf_extra_info request with
           | None => Ok []
           | Some info => ok_or NOT_ACCEPTABLE (hex_decode info)
           end;
    Ok (user_id, call_id, key, info).

Section Join.
Context `{BlockCipher} `{Sm2} `{Hkdf} `{Powf}.

(** The first to join a call is its admin. *)
Definition join_conference (sfu : Sfu.t) (c : Config) (password : string) (request : JoinRequest) (unmasked_id : Z)
    (server_ice_ufrag server_ice_pwd : string) (now created locked_now : Z) (key_pair : Res string (bytes * bytes)) :
    Res unit (Sfu.t * Res StatusCode.t JoinResponse) :=
  match validate_join password request with
  | Panic => Panic
  | Err status => Ok (sfu, Err status)
  | Ok (user_id, call_id, client_dhe_public_key, client_hkdf_extra_info) =>
      demux_id ← map_err (fun _ => tt) (random_demux_id unmasked_id);
      let is_admin := bool_decide (Sfu.get_call_signaling_info sfu call_id None = None) in
      '(sfu, result) ← Sfu.get_or_create_call_and_add_client sfu call_id None user_id demux_id
        (as_bytes server_ice_ufrag) (as_bytes server_ice_pwd) (as_bytes (ice_ufrag request)) client_dhe_public_key
        client_hkdf_extra_info Region.Unset (new_clients_require_approval c) is_admin None now created locked_now key_pair;
      match result with
      | Ok (server_dhe_public_key, client_status) =>
          let media_server := media_address c in
          signaling ← unwrap (Sfu.get_call_signaling_info sfu call_id None);
          ip ← media_ip media_server;
          conference_id ← map_err (fun _ => tt) (conference_id_from_signaling_info signaling);
          Ok (sfu, Ok (join_response demux_id
            (Signaling.join_response ip (addresses media_server) (udp (ports media_server)) (tcp (ports media_server))
               (tls (ports media_server)) (media_hostname media_server) server_ice_ufrag server_ice_pwd
               (hex_encode server_dhe_public_key) (status_text client_status)) conference_id))
      | Err _ => Ok (sfu, Err StatusCode.INTERNAL_SERVER_ERROR)
      | Panic => Panic
      end
  end.
End Join.
End handlers.
End HttpServer.
