(* ===== verification/Deployment.v ===== *)
(** * Deployment: a frontend and a backend together

    [BackendHttpClient] of [src/frontend/src/backend.rs] implements the interface
    [Backend] of the frontend by requests to the signaling server of a backend; here
    the requests are answered by the handlers of [Signaling].  The HTTP client is a
    parameter: a request is an address, a path and a body, an answer a status and
    what its JSON holds, if it can be read. *)
From Stdlib Require Import Ascii.
From stdpp Require Import strings pretty.
From S2P Require Import Prelude Common Text Storage Backend Frontend FrontendApi FrontendFacts.
From S2P Require Import Float Bytes Srtp RtpHeader Layers ApprovedUsers Client Connection Call CallHandlers Sfu Signaling.

Module BackendClient.
Import Backend.

Class HttpService (W : Type) := {
  url_ok : string -> bool;   (* [Url::parse] *)
  http_get_info : string -> M W string (Z * option string);
  http_get_clients : Address.t -> string -> option string -> M W string (Z * option ClientsResponse);
  http_post_client : Address.t -> string -> JoinRequest -> M W string (Z * option JoinResponse)
}.

Section client.
Context {W : Type} `{HttpService W}.

(** The load balancer is what its [select_ip] does. *)
Record t := mk { base_url : option string; load_balancer : option (M W unit string) }.

Definition OK : Z := 200.
Definition NOT_FOUND : Z := 404.
Definition unexpected (e : string) : BackendError := UnexpectedError e.

Definition get_info (self : t) : M W BackendError string :=
  match base_url self with
  | None => fail (UnexpectedError "calling_server_url not set but fallback attempted")
  | Some url =>
      let base_v1_info_uri_string := url +:+ "/v1/info" in
      if negb (url_ok base_v1_info_uri_string) then fail (UnexpectedError "failed to parse info uri for backend")
      else
        '(status, body) ← map_err_m unexpected (http_get_info base_v1_info_uri_string);
        if status =? OK
        then lift (ok_or (UnexpectedError "failed to convert body to info response") body)
        else fail (UnexpectedError "failed `get info`")
  end.

Definition select_ip (self : t) : M W BackendError string :=
  match load_balancer self with
  | Some select =>
      chosen ← attempt select;
      match chosen with
      | inr ip => mret ip
      | inl _ => get_info self
      end
  | None => get_info self
  end.

Definition clients_path (call_id : string) : string := "/v1/call/" +:+ call_id +:+ "/clients".

Definition get_clients (backend_address : Address.t) (call_id : string) (user_id : option string) :
    M W BackendError ClientsResponse :=
  '(status, body) ← map_err_m unexpected (http_get_clients backend_address (clients_path call_id) user_id);
  if status =? OK then lift (ok_or (UnexpectedError "failed to convert body to clients response") body)
  else if status =? NOT_FOUND then fail CallNotFound
  else fail (UnexpectedError "failed `get clients`").

Definition client_path (call_id : string) (demux_id : Z) : string :=
  "/v1/call/" +:+ call_id +:+ "/client/" +:+ pretty (Z.to_N demux_id).

Definition join (backend_address : Address.t) (call_id : string) (demux_id : Z) (join_request : JoinRequest) :
    M W BackendError JoinResponse :=
  '(status, body) ← map_err_m unexpected (http_post_client backend_address (client_path call_id demux_id) join_request);
  if status =? OK then lift (ok_or (UnexpectedError "failed to convert body to join response") body)
  else fail (UnexpectedError "failed `post client`").

Definition http_backend (self : t) : Backend W := {|
  Backend.select_ip := select_ip self;
  Backend.get_clients := get_clients;
  Backend.join := join
|}.
End client.
End BackendClient.

(** ** The routes of the signaling server *)
Module SignalingRoutes.
Import Signaling.

Section routes.
Context `{Hex} `{Mrp} `{Protos} `{BlockCipher} `{Sm2} `{Hkdf} `{Powf}.
(** The server's configuration and what a join takes from its surroundings. *)
Context (c : Config) (server_ice_ufrag server_ice_pwd : string) (now created locked_now : Z)
  (key_pair : Res string (bytes * bytes)).
Context {Tables : Type}.

(** The table of the frontend beside the state of the backend. *)
Definition World : Type := Tables * Sfu.t.

(** What the JSON of a list of clients holds. *)
Definition clients_json (r : ClientsResponse) : Backend.ClientsResponse :=
  Backend.clients_response (user_ids r) (demux_ids r)
    ((fun i => Backend.client_info (ci_demux_id i) (ci_user_id i)) <$> pending_clients r).

Definition join_json (r : JoinResponse) : Backend.JoinResponse :=
  Backend.join_response (server_ips r) (server_port r) (server_port_tcp r) (server_port_tls r) (server_hostname r)
    (Signaling.server_ice_ufrag r) (Signaling.server_ice_pwd r) (server_dhe_public_key r) (client_status r).

(** A join without a key is not understood. *)
Definition join_of_json (r : Backend.JoinRequest) : option JoinRequest :=
  key ← Backend.dhe_public_key r;
  Some (join_request (Backend.user_id r) (Backend.ice_ufrag r) key (Backend.hkdf_extra_info r) (Some (Backend.region r))
    (Backend.new_clients_require_approval r) (Backend.is_admin r) (Some (Backend.room_id r)) (Backend.approved_users r)).

Definition status_of {A} (r : Res StatusCode.t A) : Res string (Z * option A) :=
  match r with Ok a => Ok (200, Some a) | Err status => Ok (status, None) | Panic => Panic end.

Context `{HeaderValues}.

(** GET /v1/call/:call_id/clients *)
Definition serve_clients (path : string) (user_id : option string) (sfu : Sfu.t) :
    Res string (Z * option Backend.ClientsResponse) :=
  match split "/" path with
  | [""; "v1"; "call"; call_id; "clients"] =>
      status_of (clients_json <$> get_clients sfu call_id (user_id ≫= fun u => user_id_header [as_bytes u]))
  | _ => Ok (404, None)
  end.

(** POST /v1/call/:call_id/client/:demux_id *)
Definition serve_join (path : string) (request : Backend.JoinRequest) (sfu : Sfu.t) :
    Res string (Z * option Backend.JoinResponse) * Sfu.t :=
  match split "/" path with
  | [""; "v1"; "call"; call_id; "client"; demux_id] =>
      match parse_u64 demux_id, join_of_json request with
      | Some demux_id, Some request =>
          if 2 ^ 32 <=? demux_id then (Ok (400, None), sfu)
          else match join sfu c call_id demux_id request server_ice_ufrag server_ice_pwd now created locked_now key_pair with
               | Ok (sfu, response) => (status_of (join_json <$> response), sfu)
               | _ => (Panic, sfu)
               end
      | None, _ => (Ok (400, None), sfu)
      | _, None => (Ok (422, None), sfu)
      end
  | _ => (Ok (404, None), sfu)
  end.

#[global] Instance served : BackendClient.HttpService World := {|
  BackendClient.url_ok _ := true;
  BackendClient.http_get_info _ w := (Ok (match get_info c with Ok ip => (200, Some ip) | _ => (500, None) end), w);
  BackendClient.http_get_clients _ path user_id '(tables, sfu) := (serve_clients path user_id sfu, (tables, sfu));
  BackendClient.http_post_client _ path request '(tables, sfu) :=
    let '(r, sfu) := serve_join path request sfu in (r, (tables, sfu))
|}.
End routes.

(** The operations of a storage beside a backend. *)
Definition beside {W S E A} (op : M W E A) : M (W * S) E A := fun '(w, s) => let '(r, w) := op w in (r, (w, s)).

Definition storage_beside {W S} (storage : Storage.Storage W) : Storage.Storage (W * S) := {|
  Storage.get_call_record room := beside (Storage.get_call_record room);
  Storage.get_or_add_call_record call := beside (Storage.get_or_add_call_record call);
  Storage.remove_call_record room era := beside (Storage.remove_call_record room era);
  Storage.remove_batch_call_records keys := beside (Storage.remove_batch_call_records keys);
  Storage.get_call_records_for_region region := beside (Storage.get_call_records_for_region region);
  Storage.get_call_link room := beside (Storage.get_call_link room);
  Storage.update_call_link now room u z := beside (Storage.update_call_link now room u z);
  Storage.reset_call_link_expiration room now := beside (Storage.reset_call_link_expiration room now);
  Storage.delete_call_link room passkey := beside (Storage.delete_call_link room passkey);
  Storage.get_call_link_and_record room peek_only := beside (Storage.get_call_link_and_record room peek_only);
  Storage.update_call_link_approved_users room users := beside (Storage.update_call_link_approved_users room users)
|}.
End SignalingRoutes.
