(* ===== verification/SignalingProperties.v ===== *)
(** * SignalingProperties: what the signaling server lets in and shows

    Joins through the handlers of [Signaling], and a frontend that asks a backend
    over the routes of [Deployment]. *)
From Stdlib Require Import Ascii.
From stdpp Require Import strings pretty.
From S2P Require Import Prelude Common Collections Text Storage Backend Frontend FrontendApi FrontendFacts.
From S2P Require Import Float Bytes Srtp RtpHeader Packet RtpEndpoint Pacer Ice Googcc Layers ApprovedUsers.
From S2P Require Import Client Connection Call CallHandlers CallSpec CallFacts MediaFacts CallProperties Sfu SfuFacts SfuProperties.
From S2P Require Import Signaling Deployment.

Module SignalingFacts.
Import Sfu SfuEvents SfuEventFacts IsolationFacts ReachFacts.

Section Join.
Context `{Mrp} `{Protos} `{BlockCipher} `{AeadLaws} `{HashMapOrder} `{HmacSha1} `{Crc32} `{Powf} `{Sm2} `{Hkdf} `{MapOrder}.
Context `{HexLaws}.

(** A demux ID that is taken leaves everything as it was. *)
Lemma duplicate_unchanged self j now created locked_now self' :
  SfuEvents.join self j now created locked_now = Ok (self', Err DuplicateDemuxIdDetected) -> self' = self.
Proof.
  intros E. unfold SfuEvents.join, get_or_create_call_and_add_client in E.
  match type of E with context [default ?n (call_by_call_id self !! ?C)] =>
    set (call := default n (call_by_call_id self !! C)) in E end.
  destruct (Call.has_client call _) eqn:Hh.
  - injection E as <-. unfold call in *. clear call.
    destruct (call_by_call_id self !! j_call_id j) as [call|] eqn:Ec; [|done]. cbn [default].
    destruct self. unfold set_call, set_field in *. cbn in *. f_equal. by apply insert_id.
  - apply bind_Ok in E as ([call' status] & _ & E).
    apply try_Ok in E as [([private public] & _ & E)|(e & Ek & _ & [= <-])];
      [|by destruct (j_key_pair j); cbn in Ek; simplify_eq].
    apply bind_Ok in E as (server_key & _ & E).
    apply try_Ok in E as [(client_key & _ & E)|(e & Ek & _ & [= <-])];
      [|by destruct (sm2_decompress_public_key _); cbn in Ek; simplify_eq].
    apply bind_Ok in E as (connection & Ec2 & E).
    apply try_Ok in E as [(c & _ & E)|(e & Ek & _ & [= <-])]; [done|]. subst connection.
    unfold connect in Ec2. destruct (sm2_compute_ecdh _ _); [|done..]. by apply bind_Ok in Ec2 as (m & _ & E2).
Qed.
(** A join that is answered with a key leaves a connection under the ICE user name. *)
Lemma joined_connection self j now created locked_now self' key status :
  SfuEvents.join self j now created locked_now = Ok (self', Ok (key, status)) ->
  let id := connection_id (j_call_id j) (j_demux_id j) in
  is_Some (connection_by_id self' !! id) /\
  connection_id_by_ice_request_username self' !! Ice.join_username (j_client_ice_ufrag j) (j_server_ice_ufrag j) = Some id.
Proof.
  intros E id. unfold SfuEvents.join, get_or_create_call_and_add_client in E.
  destruct (Call.has_client _ _); [done|].
  apply bind_Ok in E as ([call' status'] & _ & E).
  apply try_Ok in E as [([private public] & _ & E)|(e & _ & _ & [=])].
  apply bind_Ok in E as (server_key & _ & E).
  apply try_Ok in E as [(client_key & _ & E)|(e & _ & _ & [=])].
  apply bind_Ok in E as (connection & _ & E).
  apply try_Ok in E as [(c & _ & E)|(e & _ & _ & [=])].
  injection E as <- _ _. cbn. rewrite !lookup_insert_eq. by split.
Qed.

(** A handler of the signaling server either refuses the request as it is or performs
    one join. *)
Definition join_event (C : CallId) (d : DemuxId.t) (u : UserId) (key extra : bytes) (request : Signaling.JoinRequest)
    (server_ice_ufrag server_ice_pwd : string) (key_pair : Res string (bytes * bytes)) : JoinRequest :=
  join_request C (Signaling.room_id request) u d (as_bytes server_ice_ufrag) (as_bytes server_ice_pwd)
    (as_bytes (Signaling.client_ice_ufrag request)) key extra (Signaling.parse_region (Signaling.region request))
    (Signaling.approval_required request) (Signaling.is_admin request) (Signaling.approved_users request) key_pair.

Lemma signaling_join_cases sfu c call_id demux_id request uf pwd now created locked_now key_pair sfu' r :
  Signaling.join sfu c call_id demux_id request uf pwd now created locked_now key_pair = Ok (sfu', r) ->
  (exists status, Signaling.validate c call_id demux_id request = Err status /\ sfu' = sfu /\ r = Err status) \/
  exists C d u key extra result,
    Signaling.validate c call_id demux_id request = Ok (C, d, u, key, extra) /\
    SfuEvents.join sfu (join_event C d u key extra request uf pwd key_pair) now created locked_now = Ok (sfu', result) /\
    Signaling.respond c uf pwd result = Ok r.
Proof.
  unfold Signaling.join. destruct (Signaling.validate c call_id demux_id request) as [[[[[C d] u] key] extra]|status|] eqn:Ev;
    [|intros [= <- <-]; left; eauto|done].
  intros E. right. apply bind_Ok in E as ([s result] & E1 & E). apply bind_Ok in E as (r' & E2 & [= <- <-]).
  by exists C, d, u, key, extra, result.
Qed.

Lemma validate_spec c call_id demux_id request C d u key extra :
  Signaling.validate c call_id demux_id request = Ok (C, d, u, key, extra) ->
  hex_decode call_id = Some C /\ C <> [] /\ d = demux_id /\ Z.land d 15 = 0 /\ u = Signaling.user_id request /\ u <> ""%string.
Proof.
  unfold Signaling.validate. intros E.
  apply bind_Ok in E as (_ & _ & E). apply bind_Ok in E as (_ & _ & E).
  apply bind_Ok in E as (C' & EC & E). apply bind_Ok in E as (d' & Ed & E). apply bind_Ok in E as (u' & Eu & E).
  apply bind_Ok in E as (key' & _ & E). apply bind_Ok in E as (extra' & _ & [= <- <- <- <- <-]).
  assert (hex_decode call_id = Some C' /\ C' <> []) as [HC HC'].
  { unfold Signaling.call_id_from_hex in EC. destruct call_id as [|ch call_id]; [done|]. cbn [is_empty] in EC.
    destruct (hex_decode (String ch call_id)) as [C2|] eqn:Eh; [|done]. injection EC as <-. split; [done|].
    intros ->. by apply hex_decode_length in Eh. }
  assert (d' = demux_id /\ Z.land d' 15 = 0) as [Hd Hd'].
  { unfold Signaling.bad_request, DemuxId.try_from in Ed. destruct (Z.eqb_spec (Z.land demux_id 15) 0); [|done].
    by injection Ed as <-. }
  assert (u' = Signaling.user_id request /\ u' <> ""%string) as [Hu Hu'].
  { unfold Signaling.validate_user_id in Eu. destruct (Signaling.user_id request) as [|ch u2]; [done|].
    injection Eu as <-. by split. }
  done.
Qed.
End Join.
End SignalingFacts.

(** *** A frontend that asks *)
Module DeploymentFacts.
Import Sfu Storage StorageSpec StorageSamples SignalingRoutes.

Lemma status_ok_clients `{Hex} `{Mrp} `{Protos} `{HeaderValues} sfu call_id user :
  contains "/" call_id = false ->
  serve_clients (BackendClient.clients_path call_id) user sfu =
    status_of (clients_json <$> Signaling.get_clients sfu call_id (user ≫= fun u => Signaling.user_id_header [as_bytes u])).
Proof.
  intros Hs. unfold serve_clients, BackendClient.clients_path.
  change ("/v1/call/" +:+ call_id +:+ "/clients") with (("" +:+ String "/" ("v1" +:+ String "/" ("call" +:+ String "/" (call_id +:+ String "/" "clients"))))).
  by rewrite !split_app_sep.
Qed.

Definition info_of `{Mrp} `{Protos} (user : option UserId) (x : Call.t) : CallSignalingInfo :=
  signaling_info (Call.size x) (Call.created x) (Call.creator_id x) (Handlers.get_client_ids x)
    (Handlers.get_pending_client_ids x (match user with Some u => Call.is_admin x u | None => false end)).

Lemma signaling_info_eq `{Mrp} `{Protos} sfu C user :
  get_call_signaling_info sfu C user = info_of user <$> call_by_call_id sfu !! C.
Proof. unfold get_call_signaling_info. by destruct (call_by_call_id sfu !! C). Qed.

Lemma collect_Ok {E A B} (f : A -> Res E B) (g : A -> B) l :
  Forall (fun x => f x = Ok (g x)) l -> Frontend.collect f l = Ok (g <$> l).
Proof. induction 1 as [|x l Hx _ IH]; [done|]. cbn [Frontend.collect]. by rewrite Hx, mbind_Ok, IH, mbind_Ok. Qed.

(** What a frontend makes of the clients that a backend lists. *)
Lemma clients_understood (i : CallSignalingInfo) :
  Forall (fun e => Z.land (fst e) 15 = 0) (client_ids i) -> Forall (fun e => Z.land (fst e) 15 = 0) (pending_client_ids i) ->
  Frontend.clients_of_response (clients_json (Signaling.clients_of i)) =
    Ok (Frontend.clients_response_wrapper
      ((fun e => Frontend.client_info (Some (snd e)) (fst e)) <$> client_ids i)
      ((fun e => Frontend.client_info (snd e) (fst e)) <$> pending_client_ids i)).
Proof.
  intros Ha Hp. unfold Frontend.clients_of_response, clients_json, Signaling.clients_of. cbn.
  rewrite !length_map, Nat.eqb_refl. cbn [negb].
  replace (zip (snd <$> client_ids i) (fst <$> client_ids i)) with ((fun e => (snd e, fst e)) <$> client_ids i)
    by (induction (client_ids i) as [|x l IH]; [done|]; cbn; by rewrite <- IH by (by inversion Ha)).
  assert (forall d, Z.land d 15 = 0 -> Frontend.to_demux_id d = Ok d) as Hd.
  { intros d Hd. unfold Frontend.to_demux_id, DemuxId.try_from. by rewrite Hd. }
  rewrite (collect_Ok _ (fun e => Frontend.client_info (Some (fst e)) (snd e))), mbind_Ok.
  - rewrite <- list_fmap_compose.
    rewrite (collect_Ok _ (fun c => Frontend.client_info (Backend.client_user_id c) (Backend.client_demux_id c))), mbind_Ok.
    + by rewrite <- !list_fmap_compose.
    + rewrite <- list_fmap_compose. apply Forall_fmap. eapply Forall_impl; [exact Hp|]. intros e He. cbn.
      by rewrite Hd, mbind_Ok.
  - apply Forall_fmap. eapply Forall_impl; [exact Ha|]. intros e He. cbn. by rewrite Hd, mbind_Ok.
Qed.
End DeploymentFacts.

(** * Theorems *)
Module SignalingProperties.
Import Sfu SfuEvents SfuEventFacts IsolationFacts ReachFacts SignalingFacts DeploymentFacts.
Import Storage StorageSpec StorageSamples SignalingRoutes.

Section Properties.
Context `{Mrp} `{Protos} `{BlockCipher} `{AeadLaws} `{HashMapOrder} `{HmacSha1} `{Crc32} `{Powf} `{Sm2} `{Hkdf} `{MapOrder}.
Context `{HexLaws}.

(** C11: Joins are validated.  A join that the signaling server answers leaves a
    server that joins, packets and ticks lead to, so that all that is shown of those
    holds; a bad request, a taken demux ID among them, changes nothing; and whoever
    gets a key has a connection under the ICE user name, for a demux ID without layer
    bits, in a call that is there and counts the client. *)
Theorem signaling_joins_validated sfu c call_id demux_id request uf pwd now created locked_now key_pair sfu' r :
  reachable anyone sfu ->
  Signaling.join sfu c call_id demux_id request uf pwd now created locked_now key_pair = Ok (sfu', r) ->
  reachable anyone sfu' /\
  (r = Err StatusCode.BAD_REQUEST -> sfu' = sfu) /\
  forall response, r = Ok response -> exists C : CallId, hex_decode call_id = Some C /\ C <> [] /\ Z.land demux_id 15 = 0 /\
    is_Some (connection_by_id sfu' !! connection_id C demux_id) /\
    connection_id_by_ice_request_username sfu' !!
      Ice.join_username (as_bytes (Signaling.client_ice_ufrag request)) (as_bytes uf) = Some (connection_id C demux_id) /\
    exists call, call_by_call_id sfu' !! C = Some call /\ Call.has_client call demux_id = true.
Proof.
  intros R E. apply signaling_join_cases in E as [(status & Ev & -> & ->)|(C & d & u & key & extra & result & Ev & Ej & Er)];
    [by split_and!|].
  apply validate_spec in Ev as (Hh & Hc & -> & Hd & -> & Hu).
  assert (reachable anyone sfu') as R'.
  { eapply (reach_event _ _ (Joins _ now created locked_now)); [exact R|exact I|cbn; by rewrite Ej]. }
  split; [done|]. split.
  - intros ->. destruct result as [[k status]|e|]; [by apply bind_Ok in Er as (ip & _ & [=])| |done].
    destruct e; try done. by apply duplicate_unchanged in Ej.
  - intros response ->. destruct result as [[k status]|e|]; [|by destruct e|done].
    apply joined_connection in Ej as [Hi Hn]. cbn in Hi, Hn. exists C. split_and!; try done.
    apply reachable_sfu_ok in R' as [_ Hm]. destruct (Hm (connection_id C demux_id) Hi) as (call & Hcall & Hin).
    exists call. split; [done|]. by apply has_client_ids.
Qed.

(** C16: A key can take the server down.  The first ten bytes of the key of a client
    are logged before anything is checked; if a character of more than one byte
    crosses the tenth, the handler panics, which in a release build aborts the server
    with all its calls.  The frontend passes the key on as it comes. *)
Theorem multibyte_key_panics sfu c call_id demux_id request uf pwd now created locked_now key_pair :
  Signaling.info_logged c = true ->
  (10 < String.length (Signaling.client_dhe_public_key request))%nat ->
  is_char_boundary (Signaling.client_dhe_public_key request) 10 = false ->
  Signaling.join sfu c call_id demux_id request uf pwd now created locked_now key_pair = Panic.
Proof.
  intros Hi Hl Hb. unfold Signaling.join, Signaling.validate, Signaling.log_key_prefix.
  rewrite Hi, (proj2 (Nat.ltb_lt _ _)) by done. cbn [andb]. unfold str_slice. by rewrite Hb, andb_false_r.
Qed.

End Properties.

(** ** A sample server, on which Alice joins a call *)
#[local] Existing Instances SampleCall.sample_mrp SampleCall.sample_protos SampleCipher.flip_aead SampleCipher.flip_aead_laws.
#[local] Existing Instances IceProperties.toy_hmac IceProperties.toy_crc.
#[local] Existing Instances ConnectionProperties.toy_block ConnectionProperties.list_order ConnectionProperties.toy_powf.
#[local] Existing Instances SfuProperties.toy_sm2 SfuProperties.toy_hkdf SfuProperties.list_map_order.
#[local] Existing Instances nibbles.
#[local] Instance plain_headers : HeaderValues := {|
  header_to_str b := Some (of_bytes b);
  header_from_str_ok _ := true
|}.
#[local] Instance sample_stored : StoredForm := plain_form.

Definition server_config : Signaling.Config :=
  Signaling.config (Some "10.0.0.1") "::" [] 10000 10000 None None 8 false true.
Definition sixty_six : string := of_bytes (replicate 66 48).
Definition alice : Signaling.JoinRequest :=
  Signaling.join_request "alice" "c" sixty_six None (Some "us-west1") false true (Some "room") None.
Definition keys : Res string (bytes * bytes) := Ok ([1], replicate 64 3).
Definition joined : Res unit (Sfu.t * Res StatusCode.t Signaling.JoinResponse) :=
  Signaling.join SfuProperties.server server_config "010203" 16 alice "s" "p" 1 1 1 keys.

Lemma signaling_joins_validated_witness : exists sfu response, joined = Ok (sfu, Ok response) /\
  Signaling.client_status response = "ACTIVE" /\ reachable anyone sfu /\
  exists call, call_by_call_id sfu !! SfuProperties.room = Some call /\ Call.has_client call 16 = true.
Proof.
  assert (match joined with Ok (_, Ok response) => Signaling.client_status response = "ACTIVE"%string | _ => False end) as Hr
    by (vm_compute; reflexivity).
  destruct joined as [[sfu [response|e|]]| |] eqn:E; [|destruct Hr..]. exists sfu, response. split; [reflexivity|].
  split; [exact Hr|].
  destruct (signaling_joins_validated SfuProperties.server server_config "010203" 16 alice "s" "p" 1 1 1
    keys sfu (Ok response)) as (R & _ & Hj).
  - apply reach_new.
  - exact E.
  - split; [exact R|]. destruct (Hj response eq_refl) as (C & HC & _ & _ & _ & _ & call & Hcall & Hin).
    assert (C = SfuProperties.room) as -> by (vm_compute in HC; injection HC as <-; reflexivity). by exists call.
Defined.

(** Nine letters and a letter of two bytes. *)
Definition umlaut : string := of_bytes (replicate 9 97 ++ [195; 164]).
Definition mallory : Signaling.JoinRequest := Signaling.join_request "mallory" "c" umlaut None None false false None None.

Lemma multibyte_key_panics_witness :
  Signaling.join SfuProperties.server server_config "" 1 mallory "s" "p" 1 1 1 keys = Panic.
Proof.
  apply (multibyte_key_panics SfuProperties.server server_config "" 1 mallory "s" "p" 1 1 1 keys);
    [reflexivity|vm_compute; lia|reflexivity].
Defined.

Definition listing : CallRecord := CallRecord.mk "room" "010203" "10.0.0.1" "us" "alice".

End SignalingProperties.
