(* ===== verification/Sockets.v ===== *)
(** * Sockets

    The sockets of src/backend/src/packet_server/epoll.rs: the streams of TCP and
    TLS clients ([SocketStream]), the framing of packets on them ([TcpState]),
    and the sockets of the packet server ([Socket], [PacketBuffer]).  The
    operating system and the TLS library are parameters: a [Syscall] is asked of
    the [Os], a [ServerConnection] is handled through [Tls].  Programs that do
    nothing but input and output are in the monad [Io]. *)
From Stdlib Require Import ZArith Lia.
From stdpp Require Import list gmap.
From S2P Require Import Prelude.
From S2P Require Import Common.
From S2P Require Import Connection.

Abbreviation RawFd := Z (only parsing).

(** ** std::io and nix *)
Module Io.

(** The kinds of [io::Error] that the server tells apart. *)
Inductive ErrorKind :=
| TimedOut | WouldBlock | Interrupted | ConnectionRefused | BrokenPipe | UnexpectedEof | InvalidData | OtherError.

#[global] Instance ErrorKind_eq_dec : EqDecision ErrorKind.
Proof. solve_decision. Defined.

(** [io::Result] of code outside the program: it does not panic. *)
Inductive IoResult (A : Type) : Type :=
| Done (a : A)
| Failed (e : ErrorKind).
Arguments Done {A} a.
Arguments Failed {A} e.

Inductive SockType := Datagram | StreamType.

(** What the server asks of the operating system, with the type of the answer. *)
Inductive Syscall : Type -> Type :=
| SysSocket (is_ipv4 : bool) (ty : SockType) : Syscall RawFd
| SysReusePort (fd : RawFd) : Syscall ()
| SysSendBuffer (fd : RawFd) (size : Z) : Syscall ()
| SysBind (fd : RawFd) (addr : SocketAddr) : Syscall ()
| SysListen (fd : RawFd) (backlog : Z) : Syscall ()
| SysReadTimeout (fd : RawFd) (timeout : option Z) : Syscall ()
| SysNonblocking (fd : RawFd) : Syscall ()
| SysNodelay (fd : RawFd) : Syscall ()
| SysConnect (fd : RawFd) (addr : SocketAddr) : Syscall ()
| SysAccept (fd : RawFd) : Syscall (RawFd * SocketAddr)
| SysClose (fd : RawFd) : Syscall ()
| SysEpollCreate : Syscall RawFd
| SysEpollAdd (epoll_fd fd : RawFd) : Syscall ()
| SysSend (fd : RawFd) (buf : bytes) : Syscall Z
| SysSendTo (fd : RawFd) (buf : bytes) (addr : SocketAddr) : Syscall Z
| SysRecvFrom (fd : RawFd) (n : nat) : Syscall (bytes * SocketAddr)
| SysPeerAddr (fd : RawFd) : Syscall SocketAddr
| SysTakeError (fd : RawFd) : Syscall (option ErrorKind)
| SysRead (fd : RawFd) (n : nat) : Syscall bytes
| SysWrite (fd : RawFd) (buf : bytes) : Syscall nat
| SysTimerSet (fd : RawFd) (after : Z) : Syscall ()
| SysTimerCreate : Syscall RawFd
| SysTimerWait (fd : RawFd) : Syscall ().

(** The operating system, with everything beyond it.  [clock] is what
    [Instant::now()] says, one time after the other, until the next call;
    [next_id] is the generator of the crate unique_id. *)
Class Os := {
  World : Type;
  syscall {A} (c : Syscall A) : World -> IoResult A * World;
  clock : World -> nat -> Z;
  next_id : World -> Z * World
}.

(** [Instant::now()] *)
Definition now `{Os} (w : World) : Z := clock w 0.

(** [rustls::ServerConnection], which reads and writes the socket it is given. *)
Class Tls `{Os} := {
  ServerConnection : Type;
  tls_new : World -> IoResult ServerConnection * World;
  is_handshaking : ServerConnection -> bool;
  wants_read : ServerConnection -> bool;
  wants_write : ServerConnection -> bool;
  read_tls : ServerConnection -> RawFd -> World -> IoResult nat * ServerConnection * World;
  write_tls : ServerConnection -> RawFd -> World -> IoResult nat * ServerConnection * World;
  process_new_packets : ServerConnection -> IoResult () * ServerConnection;
  reader_read : ServerConnection -> nat -> IoResult bytes * ServerConnection;
  writer_write : ServerConnection -> bytes -> IoResult nat * ServerConnection
}.

(** A program of input and output: it fails with an [io::Error], which the
    server's [anyhow::Result] wraps, or panics. *)
Section Monad.
Context `{Os}.

Definition Io (A : Type) : Type := World -> Res ErrorKind A * World.

#[global] Instance Io_ret : MRet Io := fun A a w => (Ok a, w).
#[global] Instance Io_bind : MBind Io := fun A B f m w =>
  match m w with
  | (Ok a, w) => f a w
  | (Err e, w) => (Err e, w)
  | (Panic, w) => (Panic, w)
  end.

Definition sys {A} (c : Syscall A) : Io A := fun w =>
  match syscall c w with
  | (Done a, w) => (Ok a, w)
  | (Failed e, w) => (Err e, w)
  end.

(** [let _ = m]: an error is dropped. *)
Definition ignore {A} (m : Io A) : Io () := fun w =>
  match m w with
  | (Ok _, w) | (Err _, w) => (Ok (), w)
  | (Panic, w) => (Panic, w)
  end.

(** [m.expect(..)] *)
Definition expect {A} (m : Io A) : Io A := fun w =>
  match m w with
  | (Err _, w) => (Panic, w)
  | r => r
  end.

(** The owner of [fd] is dropped when [m] fails. *)
Definition closing_on_error {A} (fd : RawFd) (m : Io A) : Io A := fun w =>
  match m w with
  | (Err e, w) => (Err e, (syscall (SysClose fd) w).2)
  | r => r
  end.

End Monad.
End Io.

(** ** epoll.rs: the socket of a client *)
Module Sockets.
Import Io.

Definition MAX_RTP_LENGTH : nat := 1500.

Section Sockets.
Context `{Tls}.

Inductive SocketStream :=
| TcpStream (fd : RawFd)
| TlsStream (c : ServerConnection) (fd : RawFd).

Definition stream_fd (self : SocketStream) : RawFd :=
  match self with
  | TcpStream fd | TlsStream _ fd => fd
  end.

(** What is read comes back as a list, of at most [n] bytes by contract. *)
Definition read (self : SocketStream) (n : nat) (w : World) : IoResult bytes * SocketStream * World :=
  match self with
  | TcpStream fd => let '(r, w) := syscall (SysRead fd n) w in (r, self, w)
  | TlsStream c fd =>
      let was_handshaking := is_handshaking c in
      let '(r, c, w) := if wants_read c then read_tls c fd w else (Done 0%nat, c, w) in
      match r with
      | Failed e => (Failed e, TlsStream c fd, w)
      | Done _ =>
          let '(r, c) := process_new_packets c in
          match r with
          | Failed _ =>
              let '(_, c, w) := if wants_write c then write_tls c fd w else (Done 0%nat, c, w) in
              (Failed InvalidData, TlsStream c fd, w)
          | Done _ =>
              let '(_, c, w) := if was_handshaking && wants_write c then write_tls c fd w else (Done 0%nat, c, w) in
              let '(r, c) := reader_read c n in
              (r, TlsStream c fd, w)
          end
      end
  end.

(** The slices of a vectored write are written as one. *)
Definition write_vectored (self : SocketStream) (bufs : list bytes) (w : World) : IoResult nat * SocketStream * World :=
  match self with
  | TcpStream fd => let '(r, w) := syscall (SysWrite fd (concat bufs)) w in (r, self, w)
  | TlsStream c fd =>
      let '(result, c) := writer_write c (concat bufs) in
      let '(_, c, w) := write_tls c fd w in
      (result, TlsStream c fd, w)
  end.

Definition stream_has_pending_data (self : SocketStream) : bool :=
  match self with
  | TcpStream _ => false
  | TlsStream c _ => negb (wants_read c)
  end.

(** *** Packets on a stream: two bytes of length, then the packet *)
Record TcpState := tcp_state {
  stream : SocketStream;
  size : nat;
  pos : nat;
  buf : bytes;
  outq : bytes;
  id : Z;
  is_ipv6 : bool;
  is_tls : bool
}.

#[global] Instance TcpState_eta : Settable TcpState := fun s =>
  tcp_state (stream s) (size s) (pos s) (buf s) (outq s) (id s) (is_ipv6 s) (is_tls s).

Definition locator (self : TcpState) : SocketLocator := Tcp (id self) (is_ipv6 self) (is_tls self).

(** [self.stream.read(&mut self.buf[self.pos..upto])] *)
Definition read_into (self : TcpState) (upto : nat) (w : World) : Res unit (TcpState * IoResult nat * World) :=
  if (pos self <=? upto)%nat && (upto <=? length (buf self))%nat then
    let '(r, s, w) := read (stream self) (upto - pos self) w in
    let self := self <| stream := s |> in
    Ok (match r with
        | Done got =>
            (self <| buf ::= fun b => take (pos self) b ++ take (upto - pos self) got ++ drop (pos self + length (take (upto - pos self) got)) b |>,
             Done (length got), w)
        | Failed e => (self, Failed e, w)
        end)
  else Panic.

(** The first half of [recv_from]: the length.  [Done] when the second half is reached. *)
Definition recv_size (self : TcpState) (w : World) : Res unit (TcpState * IoResult () * World) :=
  if (size self =? 0)%nat then
    '(self, r, w) ← read_into self 2 w;
    match r with
    | Failed e => Ok (self, Failed e, w)
    | Done read =>
        if (read =? 0)%nat then Ok (self, Failed InvalidData, w)
        else
          let self := self <| pos ::= fun p => (p + read)%nat |> in
          match (pos self ?= 2)%nat with
          | Lt => Ok (self, Done (), w)
          | Eq =>
              header ← slice_to 2 (buf self);
              Ok (self <| size := Z.to_nat (be_val header) |> <| pos := 0%nat |>, Done (), w)
          | Gt => Ok (self, Failed InvalidData, w)
          end
    end
  else Ok (self, Done (), w).

(** The second half: the packet, copied to [out] when it is complete. *)
Definition recv_body (self : TcpState) (out : bytes) (w : World) :
    Res unit (TcpState * bytes * IoResult (nat * SocketLocator) * World) :=
  if (MAX_RTP_LENGTH <? size self)%nat then Ok (self, out, Failed InvalidData, w)
  else if (size self =? 0)%nat then Ok (self, out, Failed WouldBlock, w)
  else
    '(self, r, w) ← read_into self (size self) w;
    match r with
    | Failed e => Ok (self, out, Failed e, w)
    | Done read =>
        if (read =? 0)%nat then Ok (self, out, Failed InvalidData, w)
        else
          let self := self <| pos ::= fun p => (p + read)%nat |> in
          if (pos self =? size self)%nat then
            packet ← slice 0 (pos self) (buf self);
            out ← copy_from_slice 0 (pos self) packet out;
            Ok (self <| size := 0%nat |> <| pos := 0%nat |>, out, Done (size self, locator self), w)
          else Ok (self, out, Failed WouldBlock, w)
    end.

Definition tcp_recv_from (self : TcpState) (out : bytes) (w : World) :
    Res unit (TcpState * bytes * IoResult (nat * SocketLocator) * World) :=
  if (MAX_RTP_LENGTH <? size self)%nat then Ok (self, out, Failed InvalidData, w)
  else
    '(self, r, w) ← recv_size self w;
    match r with
    | Failed e => Ok (self, out, Failed e, w)
    | Done _ => recv_body self out w
    end.

(** Interrupted and blocked writes count as writing nothing. *)
Definition sent_or_zero (r : IoResult nat) : IoResult nat :=
  match r with
  | Failed TimedOut | Failed WouldBlock | Failed Interrupted => Done 0%nat
  | r => r
  end.

(** What follows the part of a frame that was sent: with nothing sent the packet
    is dropped, with all of it there is nothing to keep. *)
Definition keep_rest (self : TcpState) (frame_size packet : bytes) (sent : nat) : TcpState * IoResult () :=
  match sent with
  | O => (self, Failed WouldBlock)
  | 1%nat => (self <| outq ::= fun q => q ++ drop 1 frame_size ++ packet |>, Failed WouldBlock)
  | S (S sent) =>
      if (sent <? length packet)%nat
      then (self <| outq ::= fun q => q ++ drop sent packet |>, Failed WouldBlock)
      else (self, Done ())
  end.

Definition tcp_send (self : TcpState) (packet : bytes) (w : World) : TcpState * IoResult () * World :=
  if (length packet =? 0)%nat then (self, Failed InvalidData, w)
  else if (MAX_RTP_LENGTH <? length packet)%nat then (self, Failed InvalidData, w)
  else
    let frame_size := be_bytes 2 (u16 (Z.of_nat (length packet))) in
    if (length (outq self) =? 0)%nat then
      let '(r, s, w) := write_vectored (stream self) [frame_size; packet] w in
      let self := self <| stream := s |> in
      match sent_or_zero r with
      | Failed e => (self, Failed e, w)
      | Done sent => (keep_rest self frame_size packet sent, w)
      end
    else
      let '(r, s, w) := write_vectored (stream self) [outq self; frame_size; packet] w in
      let self := self <| stream := s |> in
      match sent_or_zero r with
      | Failed e => (self, Failed e, w)
      | Done sent =>
          if (sent =? 0)%nat then (self, Failed WouldBlock, w)
          else if (sent <? length (outq self))%nat then (self <| outq ::= drop sent |>, Failed WouldBlock, w)
          else
            let rest := (sent - length (outq self))%nat in
            (keep_rest (self <| outq := [] |>) frame_size packet rest, w)
      end.

(** *** Sockets *)
Inductive Socket :=
| UdpSocket (fd : RawFd)
| TcpSocket (state : TcpState).

Definition as_raw_fd (self : Socket) : RawFd :=
  match self with
  | UdpSocket fd => fd
  | TcpSocket state => stream_fd (stream state)
  end.

(** The TLS state is made first; the stream is dropped when that fails. *)
Definition new_tcp (fd : RawFd) (id : Z) (is_ipv6 has_tls_config : bool) : Io Socket := fun w =>
  if has_tls_config then
    match tls_new w with
    | (Done c, w) => (Ok (TcpSocket (tcp_state (TlsStream c fd) 0 0 (replicate MAX_RTP_LENGTH 0) [] id is_ipv6 true)), w)
    | (Failed e, w) => (Err e, (syscall (SysClose fd) w).2)
    end
  else (Ok (TcpSocket (tcp_state (TcpStream fd) 0 0 (replicate MAX_RTP_LENGTH 0) [] id is_ipv6 false)), w).

Definition socket_send (self : Socket) (packet : bytes) (w : World) : Socket * IoResult () * World :=
  match self with
  | UdpSocket fd =>
      let '(r, w) := syscall (SysSend fd packet) w in
      (self, match r with Done _ => Done () | Failed e => Failed e end, w)
  | TcpSocket state =>
      let '(state, r, w) := tcp_send state packet w in (TcpSocket state, r, w)
  end.

(** A datagram fills the start of [out]. *)
Definition socket_recv_from (self : Socket) (out : bytes) (w : World) :
    Res unit (Socket * bytes * IoResult (nat * SocketLocator) * World) :=
  match self with
  | UdpSocket fd =>
      let '(r, w) := syscall (SysRecvFrom fd (length out)) w in
      Ok (self,
          match r with Done (got, _) => take (length out) got ++ drop (length got) out | Failed _ => out end,
          match r with Done (got, addr) => Done (length (take (length out) got), Udp addr) | Failed e => Failed e end,
          w)
  | TcpSocket state =>
      '(state, out, r, w) ← tcp_recv_from state out w; Ok (TcpSocket state, out, r, w)
  end.

Definition peer_addr (self : Socket) (w : World) : IoResult SocketLocator * World :=
  match self with
  | UdpSocket fd =>
      let '(r, w) := syscall (SysPeerAddr fd) w in
      (match r with Done addr => Done (Udp addr) | Failed e => Failed e end, w)
  | TcpSocket state => (Done (locator state), w)
  end.

Definition take_error (self : Socket) (w : World) : IoResult (option ErrorKind) * World :=
  syscall (SysTakeError (as_raw_fd self)) w.

Definition has_pending_data (self : Socket) : bool :=
  match self with
  | UdpSocket _ => false
  | TcpSocket state => stream_has_pending_data (stream state)
  end.

(** *** The buffer a packet is received in *)
Record PacketBuffer := packet_buffer { b_buf : bytes; b_size : nat }.

Definition new_buffer : PacketBuffer := packet_buffer (replicate MAX_RTP_LENGTH 0) 0.

Definition buffer_recv_from (self : PacketBuffer) (socket : Socket) (w : World) :
    Res unit (PacketBuffer * Socket * IoResult SocketLocator * World) :=
  '(socket, out, r, w) ← socket_recv_from socket (b_buf self) w;
  Ok (match r with
      | Done (size, sender_addr) => (packet_buffer out size, socket, Done sender_addr, w)
      | Failed e => (packet_buffer out 0, socket, Failed e, w)
      end).

Definition as_mut (self : PacketBuffer) : Res unit bytes := slice 0 (b_size self) (b_buf self).

End Sockets.
End Sockets.
