(* ===== verification/ConnectionMap.v ===== *)
(** * The map of the packet server's connections

    [ConnectionMap] of src/backend/src/packet_server/epoll.rs: sockets by file
    descriptor and by peer address, with the addresses of closed connections
    kept for a while.  As in the code it is generic in the socket. *)
From Stdlib Require Import ZArith Lia.
From stdpp Require Import list gmap.
From S2P Require Import Prelude.
From S2P Require Import Common.
From S2P Require Import Connection.
From S2P Require Import Sockets.

Module ConnectionMap.

Definition TCP_INACTIVE_CONNECTION_TTL_TICKS : Z := 100.

Inductive ConnectionState (A : Type) : Type :=
| NotYetConnected
| New (a : A)
| Connected (a : A)
| Closed (closed_at : Z).
Arguments NotYetConnected {A}.
Arguments New {A} a.
Arguments Connected {A} a.
Arguments Closed {A} closed_at.

Section Map.
Context {T : Type} (as_raw_fd : T -> RawFd).

Record t := mk {
  by_fd : gmap RawFd T;
  by_peer_addr : gmap SocketLocator (ConnectionState RawFd);
  inactive_ttls : gmap SocketLocator Z
}.

#[global] Instance t_eta : Settable t := fun m => mk (by_fd m) (by_peer_addr m) (inactive_ttls m).

Definition new : t := mk ∅ ∅ ∅.

Definition is_udp (peer_addr : SocketLocator) : bool :=
  match peer_addr with
  | Udp _ => true
  | Tcp _ _ _ => false
  end.

(** The part of [get_or_insert_connected] after the entry of the address is made. *)
Definition insert_socket (self : t) (socket : T) (peer_addr : SocketLocator) (current_tick : option Z) : Res unit (t * T) :=
  let fd := as_raw_fd socket in
  let self := self <| by_peer_addr ::= <[peer_addr := if is_udp peer_addr then Connected fd else New fd]> |> in
  match by_fd self !! fd with
  | Some _ => Panic
  | None =>
      let self := self <| by_fd ::= <[fd := socket]> |> in
      if is_udp peer_addr then Ok (self, socket)
      else
        match inactive_ttls self !! peer_addr, current_tick with
        | None, Some current_tick =>
            Ok (self <| inactive_ttls ::= <[peer_addr := u64 (TCP_INACTIVE_CONNECTION_TTL_TICKS + current_tick)]> |>, socket)
        | _, _ => Ok (self, socket)
        end
  end.

(** The socket of the address comes back; it is not [socket] when there was one already. *)
Definition get_or_insert_connected (self : t) (socket : T) (peer_addr : SocketLocator) (current_tick : option Z) :
    Res unit (t * T) :=
  match by_peer_addr self !! peer_addr with
  | Some NotYetConnected => Panic
  | Some (Connected existing_fd) | Some (New existing_fd) => existing ← unwrap (by_fd self !! existing_fd); Ok (self, existing)
  | Some (Closed _) | None => insert_socket self socket peer_addr current_tick
  end.

Definition get_by_addr (self : t) (peer_addr : SocketLocator) : Res unit (ConnectionState T) :=
  match default NotYetConnected (by_peer_addr self !! peer_addr) with
  | NotYetConnected => Ok NotYetConnected
  | Connected fd => socket ← unwrap (by_fd self !! fd); Ok (Connected socket)
  | New fd => socket ← unwrap (by_fd self !! fd); Ok (New socket)
  | Closed instant => Ok (Closed instant)
  end.

Definition get_by_fd (self : t) (fd : RawFd) : option T := by_fd self !! fd.

Definition mark_closed (self : t) (peer_addr : SocketLocator) (now : Z) : Res unit (t * option T) :=
  match by_peer_addr self !! peer_addr with
  | None => Ok (self, None)
  | Some NotYetConnected => Panic
  | Some (Connected fd) =>
      Ok (self <| by_fd ::= delete fd |> <| by_peer_addr ::= <[peer_addr := Closed now]> |>, by_fd self !! fd)
  | Some (New fd) =>
      Ok (self <| inactive_ttls ::= delete peer_addr |> <| by_fd ::= delete fd |>
               <| by_peer_addr ::= <[peer_addr := Closed now]> |>, by_fd self !! fd)
  | Some (Closed _) => Ok (self, None)
  end.

(** The closed ones of [l], a traversal of [by_peer_addr]. *)
Fixpoint closed_connections (l : list (SocketLocator * ConnectionState RawFd)) : Res unit (list (SocketLocator * Z)) :=
  match l with
  | [] => Ok []
  | (addr, entry) :: l =>
      rest ← closed_connections l;
      match entry with
      | NotYetConnected => Panic
      | Connected _ | New _ => Ok rest
      | Closed instant => Ok ((addr, instant) :: rest)
      end
  end.

Definition remove_closed (self : t) (peer_addr : SocketLocator) : Res unit t :=
  match by_peer_addr self !! peer_addr with
  | None => Ok self
  | Some NotYetConnected => Panic
  | Some (Connected fd) => Ok (self <| by_peer_addr ::= fun m => <[peer_addr := Connected fd]> (delete peer_addr m) |>)
  | Some (New fd) => Ok (self <| by_peer_addr ::= fun m => <[peer_addr := New fd]> (delete peer_addr m) |>)
  | Some (Closed _) => Ok (self <| by_peer_addr ::= delete peer_addr |>)
  end.

Definition mark_as_active (self : t) (peer_addr : SocketLocator) : t :=
  let self := self <| inactive_ttls ::= delete peer_addr |> in
  match by_peer_addr self !! peer_addr with
  | Some (New fd) => self <| by_peer_addr ::= <[peer_addr := Connected fd]> |>
  | _ => self
  end.

(** The addresses [f] is called with, in a traversal of [inactive_ttls]. *)
Definition inactive_senders (l : list (SocketLocator * Z)) (current_tick : Z) : list SocketLocator :=
  map fst (filter (fun e => snd e <= current_tick) l).

End Map.
Arguments t : clear implicits.
End ConnectionMap.
