(* ===== verification/PacketServer.v ===== *)
(** * The packet server

    src/backend/src/packet_server.rs, packet_server/epoll.rs and
    packet_server/generic.rs: the schedule of dequeues ([TimerHeap]), the server
    on epoll ([PacketServer]) and the one on a single socket ([Generic]).  What
    is done with packets, dequeues and ticks is the SFU's business, reached
    through the interface [PacketHandler].

    A handler takes the state of the server and of the [World] and returns them.
    Each handler runs by itself: the part of [send_packet] behind the write lock
    is a definition of its own, which looks the address up again. *)
From Stdlib Require Import ZArith Lia.
From stdpp Require Import list gmap.
From S2P Require Import Prelude.
From S2P Require Import Common.
From S2P Require Import Float.
From S2P Require Import Collections.
From S2P Require Import Connection.
From S2P Require Import Sockets.
From S2P Require Import ConnectionMap.

(** ** packet_server.rs: what is scheduled *)
Module TimerHeap.

(** A [BinaryHeap] is the list of its elements in the order they were pushed;
    which of several greatest elements is on top is left open: [top] is the
    position of one, given the times. *)
Class HeapOrder := {
  top : list Z -> nat;
  top_least : forall l, l <> [] -> exists z, l !! top l = Some z /\ Forall (fun z' => z <= z') l
}.

Inductive NextResult (A : Type) : Type :=
| Value (value : A)
| Wait (timeout : Z)
| WaitForever.
Arguments Value {A} value.
Arguments Wait {A} timeout.
Arguments WaitForever {A}.

Section Heap.
Context `{HeapOrder} {A : Type}.

(** A scheduled value is its time and the value. *)
Record t := mk { tasks : list (Z * A); active_timer : option Z }.

#[global] Instance t_eta : Settable t := fun h => mk (tasks h) (active_timer h).

Definition new : t := mk [] None.

Definition top_index (self : t) : nat := top (map fst (tasks self)).
Definition peek (self : t) : option (Z * A) := tasks self !! top_index self.

Definition schedule (self : t) (time : Z) (value : A) : t := self <| tasks ::= fun l => l ++ [(time, value)] |>.

Definition schedule_all (self : t) (l : list (Z * A)) : t :=
  fold_left (fun self '(time, value) => schedule self time value) l self.

Definition next (self : t) (now : Z) : t * NextResult A :=
  match peek self with
  | None => (self, WaitForever)
  | Some (time, value) =>
      if time <=? now then
        let timer := if decide (Some time = active_timer self) then None else active_timer self in
        (mk (delete (top_index self) (tasks self)) timer, Value value)
      else (self, Wait (Z.max 0 (time - now)))
  end.

(** The time the timer is set to go off after; zero would clear it. *)
Definition timer_delay (now active_timer : Z) : Z := if now <=? active_timer then active_timer - now else 1.

(** The state, and the delay the timer is to be set to, if it is. *)
Definition set_timer (self : t) (now : Z) : t * option Z :=
  match peek self, active_timer self with
  | None, _ => (self, None)
  | Some (time, _), None => (self <| active_timer := Some time |>, Some (timer_delay now time))
  | Some (time, _), Some active =>
      if time <? active then (self <| active_timer := Some time |>, Some (timer_delay now time)) else (self, None)
  end.

End Heap.
Arguments t : clear implicits.
End TimerHeap.

(** ** What the packet server asks of the SFU

    [Sfu::handle_packet] with its errors counted and dropped, as
    [packet_server::handle_packet] does, [Sfu::handle_dequeue] and [Sfu::tick],
    of whose output the packet server uses what is in a [TickUpdate]. *)
Record TickUpdate := tick_update {
  packets_to_send : list (bytes * SocketLocator);
  dequeues_to_schedule : list (Z * SocketLocator);
  expired_client_addrs : list SocketLocator
}.

Class PacketHandler := {
  SfuState : Type;
  handle_packet : SfuState -> SocketLocator -> bytes -> (nat -> Z) ->
    Res unit (SfuState * (list (bytes * SocketLocator) * list (Z * SocketLocator)));
  handle_dequeue : SfuState -> SocketLocator -> Z -> Res unit (SfuState * option (SocketLocator * option bytes * option Z));
  sfu_tick : SfuState -> Z -> Res unit (SfuState * TickUpdate)
}.

(** A panic of the SFU ends the process ([panic = "abort"]).  In what follows the
    outcome [Err ()] stands for it; [Panic] is a panic of the packet server itself. *)
Definition of_sfu {A} (r : Res unit A) : Res unit A :=
  match r with
  | Ok a => Ok a
  | _ => Err ()
  end.

(** ** epoll.rs *)
Module PacketServer.
Import Io Sockets ConnectionMap.

Definition MAX_EPOLL_EVENTS : nat := 16.
Definition CLOSED_SOCKET_EXPIRATION_IN_TICKS : Z := 10.
Definition TCP_BACKLOG : Z := 128.
Definition TCP_SEND_BUFFER_BYTES : Z := 10000000 / 8.
Definition EPOLL_WAIT_TIMEOUT_MS : Z := 25.

Section Server.
Context `{Tls} `{TimerHeap.HeapOrder} `{MapOrder}.

(** [tls_config] is only asked whether it is there. *)
Record t := mk {
  local_addr_udp : SocketAddr;
  new_client_socket : RawFd;
  new_tcp_socket : RawFd;
  new_tls_socket : option RawFd;
  tls_config : bool;
  all_epoll_fds : list RawFd;
  all_connections : ConnectionMap.t Socket;
  tick_interval : Z;
  tick_number : Z;
  timer_heap : TimerHeap.t SocketLocator
}.

#[global] Instance t_eta : Settable t := fun s =>
  mk (local_addr_udp s) (new_client_socket s) (new_tcp_socket s) (new_tls_socket s) (tls_config s) (all_epoll_fds s)
    (all_connections s) (tick_interval s) (tick_number s) (timer_heap s).

(** *** Opening sockets *)
Definition is_ipv4 (addr : SocketAddr) : bool :=
  match addr with
  | SocketAddrV4 _ _ => true
  | SocketAddrV6 _ _ _ _ => false
  end.

Definition open_socket_with_reusable_port (local_addr : SocketAddr) : Io RawFd :=
  socket_fd ← sys (SysSocket (is_ipv4 local_addr) Datagram);
  closing_on_error socket_fd
    (_ ← sys (SysReusePort socket_fd);
     _ ← sys (SysBind socket_fd local_addr);
     _ ← sys (SysReadTimeout socket_fd (Some (Duration.from_millis 10)));
     mret socket_fd).

Definition open_listen_socket (local_addr : SocketAddr) : Io RawFd :=
  socket_fd ← sys (SysSocket (is_ipv4 local_addr) StreamType);
  closing_on_error socket_fd
    (_ ← sys (SysSendBuffer socket_fd TCP_SEND_BUFFER_BYTES);
     _ ← sys (SysReusePort socket_fd);
     _ ← sys (SysBind socket_fd local_addr);
     _ ← sys (SysListen socket_fd TCP_BACKLOG);
     _ ← expect (sys (SysNonblocking socket_fd));
     mret socket_fd).

Fixpoint poll_for_reads (all_epoll_fds : list RawFd) (socket_fd : RawFd) : Io () :=
  match all_epoll_fds with
  | [] => mret ()
  | epoll_fd :: l => _ ← sys (SysEpollAdd epoll_fd socket_fd); poll_for_reads l socket_fd
  end.

Definition add_socket_to_poll_for_reads (self : t) (socket_fd : RawFd) : Io () := poll_for_reads (all_epoll_fds self) socket_fd.

Fixpoint create_epolls (num_threads : nat) : Io (list RawFd) :=
  match num_threads with
  | O => mret []
  | S n => fd ← sys SysEpollCreate; l ← create_epolls n; mret (fd :: l)
  end.

Definition new (local_addr_udp local_addr_tcp : SocketAddr) (local_addr_tls : option SocketAddr) (tls_config : bool)
    (num_threads : nat) (tick_interval : Z) : Io t :=
  new_client_socket ← open_socket_with_reusable_port local_addr_udp;
  closing_on_error new_client_socket
    (new_tcp_socket ← open_listen_socket local_addr_tcp;
     closing_on_error new_tcp_socket
       (new_tls_socket ← match local_addr_tls with
                         | Some local_addr_tls => fd ← open_listen_socket local_addr_tls; mret (Some fd)
                         | None => mret None
                         end;
        let finish :=
          all_epoll_fds ← create_epolls num_threads;
          let result := mk local_addr_udp new_client_socket new_tcp_socket new_tls_socket tls_config all_epoll_fds
                          ConnectionMap.new tick_interval 0 TimerHeap.new in
          _ ← add_socket_to_poll_for_reads result new_client_socket;
          _ ← add_socket_to_poll_for_reads result new_tcp_socket;
          _ ← match new_tls_socket with
              | Some listen_socket => add_socket_to_poll_for_reads result listen_socket
              | None => mret ()
              end;
          mret result in
        match new_tls_socket with
        | Some listen_socket => closing_on_error listen_socket finish
        | None => finish
        end)).

(** *** Sockets of the map

    A socket that was used is put back under its descriptor, because its stream
    changes behind a mutex of its own; a socket that leaves the map is closed. *)
Definition put_socket (self : t) (socket : Socket) : t :=
  self <| all_connections ::= fun m => m <| by_fd ::= <[as_raw_fd socket := socket]> |> |>.

Definition drop_socket (socket : option Socket) (w : World) : World :=
  match socket with
  | Some socket => (syscall (SysClose (as_raw_fd socket)) w).2
  | None => w
  end.

Definition mark_closed (self : t) (addr : SocketLocator) (now : Z) (w : World) : Res unit (t * World) :=
  '(m, socket) ← ConnectionMap.mark_closed (all_connections self) addr now;
  Ok (self <| all_connections := m |>, drop_socket socket w).

Fixpoint mark_all_closed (self : t) (addrs : list SocketLocator) (now : Z) (w : World) : Res unit (t * World) :=
  match addrs with
  | [] => Ok (self, w)
  | addr :: addrs => '(self, w) ← mark_closed self addr now w; mark_all_closed self addrs now w
  end.

Definition mark_as_active (self : t) (addr : SocketLocator) : t :=
  self <| all_connections ::= fun m => ConnectionMap.mark_as_active m addr |>.

(** A socket for an address that has one already is dropped. *)
Definition insert_connected (self : t) (socket : Socket) (addr : SocketLocator) (current_tick : option Z) (w : World) :
    Res unit (t * Socket * World) :=
  '(m, inserted) ← get_or_insert_connected as_raw_fd (all_connections self) socket addr current_tick;
  Ok (self <| all_connections := m |>, inserted,
      if as_raw_fd inserted =? as_raw_fd socket then w else drop_socket (Some socket) w).

(** *** Sending *)
Definition send_and_keep (socket : Socket) (buf : bytes) (w : World) : Socket * bool * World :=
  let '(socket, r, w) := socket_send socket buf w in
  (socket, match r with Failed ConnectionRefused | Failed BrokenPipe => false | _ => true end, w).

(** A socket of the map sends; then it is closed, or, when it is new, active. *)
Definition send_on (self : t) (socket : Socket) (is_new : bool) (buf : bytes) (addr : SocketLocator) (w : World) :
    Res unit (t * World) :=
  let '(socket, keep, w) := send_and_keep socket buf w in
  let self := put_socket self socket in
  if keep then Ok (if is_new then mark_as_active self addr else self, w) else mark_closed self addr (now w) w.

(** A new socket for [addr]; its failures are logged. *)
Definition connect_and_send (self : t) (buf : bytes) (addr : SocketLocator) (w : World) : Res unit (t * World) :=
  match addr with
  | Udp udp_addr =>
      let open :=
        client_socket ← open_socket_with_reusable_port (local_addr_udp self);
        closing_on_error client_socket
          (_ ← sys (SysConnect client_socket udp_addr);
           _ ← add_socket_to_poll_for_reads self client_socket;
           mret client_socket) in
      match open w with
      | (Ok client_socket, w) =>
          '(self, client_socket, w) ← insert_connected self (UdpSocket client_socket) addr None w;
          send_on self client_socket false buf addr w
      | (Err _, w) => Ok (self, w)
      | (Panic, _) => Panic
      end
  | Tcp _ _ _ => Ok (self, w)
  end.

(** With the write lock: another thread may have changed the state of [addr]. *)
Definition send_packet_locked (self : t) (buf : bytes) (addr : SocketLocator) (w : World) : Res unit (t * World) :=
  state ← get_by_addr (all_connections self) addr;
  match state with
  | New socket => send_on self socket true buf addr w
  | Connected socket => send_on self socket false buf addr w
  | Closed _ => Ok (self, w)
  | NotYetConnected => connect_and_send self buf addr w
  end.

Definition send_packet (self : t) (buf : bytes) (addr : SocketLocator) (w : World) : Res unit (t * World) :=
  state ← get_by_addr (all_connections self) addr;
  match state with
  | Connected socket => send_on self socket false buf addr w
  | New socket => send_on self socket true buf addr w
  | Closed _ => Ok (self, w)
  | NotYetConnected => send_packet_locked self buf addr w
  end.

Fixpoint send_packets (self : t) (packets : list (bytes * SocketLocator)) (w : World) : Res unit (t * World) :=
  match packets with
  | [] => Ok (self, w)
  | (buf, addr) :: packets => '(self, w) ← send_packet self buf addr w; send_packets self packets w
  end.

Definition schedule_all (self : t) (dequeues : list (Z * SocketLocator)) : t :=
  self <| timer_heap ::= fun h => TimerHeap.schedule_all h dequeues |>.

(** *** Events *)

(** What is done about [accepted], from the TCP or the TLS listening socket. *)
Definition accept (self : t) (accepted : IoResult (RawFd * SocketAddr)) (is_tls : bool) (w : World) : Res unit (t * World) :=
  match accepted with
  | Failed _ => Ok (self, w)
  | Done (client_fd, addr) =>
      let '(_, w) := syscall (SysNodelay client_fd) w in
      match syscall (SysNonblocking client_fd) w with
      | (Failed _, _) => Panic
      | (Done _, w) =>
          let is_ipv6 := is_canonical_ipv6 addr in
          let '(id, w) := next_id w in
          match new_tcp client_fd id is_ipv6 is_tls w with
          | (Ok client_socket, w) =>
              match add_socket_to_poll_for_reads self (as_raw_fd client_socket) w with
              | (Ok _, w) =>
                  '(self, _, w) ← insert_connected self client_socket (Tcp id is_ipv6 is_tls) (Some (tick_number self)) w;
                  Ok (self, w)
              | (Err _, w) => Ok (self, drop_socket (Some client_socket) w)
              | (Panic, _) => Panic
              end
          | (Err _, w) => Ok (self, w)
          | (Panic, _) => Panic
          end
      end
  end.

(** [EPOLLERR]: the state, and whether to go on with the event. *)
Definition handle_error (self : t) (socket : Socket) (w : World) : Res unit (t * bool * World) :=
  match take_error socket w with
  | (Failed _, w) | (Done None, w) => Ok (self, false, w)
  | (Done (Some err), w) =>
      match err with
      | ConnectionRefused | BrokenPipe =>
          match peer_addr socket w with
          | (Failed _, w) => Ok (self, true, w)
          | (Done addr, w) => '(self, w) ← mark_closed self addr (now w) w; Ok (self, false, w)
          end
      | _ => Ok (self, true, w)
      end
  end.

(** What a thread receives of one socket: the buffers, how many are filled, from whom. *)
Record Receiving := receiving {
  r_server : t;
  r_socket : Socket;
  r_bufs : list PacketBuffer;
  r_index : nat;
  r_sender_addr : option SocketLocator;
  r_world : World
}.

(** A socket that is in the map is put back into it; the one for new clients is not in it. *)
Definition put_back (self : t) (socket : Socket) : t :=
  match get_by_fd (all_connections self) (as_raw_fd socket) with
  | Some _ => put_socket self socket
  | None => self
  end.

(** What is done about an error of [recv_from]. *)
Definition receive_failed (self : t) (socket : Socket) (err : ErrorKind) (w : World) : Res unit (t * World) :=
  match err with
  | UnexpectedEof | InvalidData =>
      match peer_addr socket w with
      | (Done peer_addr, w) => mark_closed self peer_addr (now w) w
      | (Failed _, w) => Ok (self, w)
      end
  | _ => Ok (self, w)
  end.

(** One turn of the loop, and whether there is another. *)
Definition receive_turn (r : Receiving) : Res unit (Receiving * bool) :=
  inbuf ← idx (r_bufs r) (r_index r);
  '(inbuf, socket, result, w) ← buffer_recv_from inbuf (r_socket r) (r_world r);
  let bufs := <[r_index r := inbuf]> (r_bufs r) in
  let self := put_back (r_server r) socket in
  match result with
  | Failed err =>
      '(self, w) ← receive_failed self socket err w;
      Ok (receiving self socket bufs (r_index r) (r_sender_addr r) w, false)
  | Done sender_addr =>
      let index := S (r_index r) in
      if has_pending_data socket then
        let bufs := if (length bufs <=? index)%nat then bufs ++ [new_buffer] else bufs in
        Ok (receiving self socket bufs index (Some sender_addr) w, true)
      else Ok (receiving self socket bufs index (Some sender_addr) w, false)
  end.

(** The loop goes on as long as there is data and packets come out of it. *)
Fixpoint receive (fuel : nat) (r : Receiving) : Res unit Receiving :=
  turn ← receive_turn r;
  let '(r, more) := turn : Receiving * bool in
  if more then
    match fuel with
    | O => Panic
    | S fuel => receive fuel r
    end
  else Ok r.

Context `{PacketHandler}.

(** The server, the SFU and the world. *)
Fixpoint handle_packets (self : t) (sfu : SfuState) (sender_addr : SocketLocator) (bufs : list PacketBuffer) (w : World) :
    Res unit (t * SfuState * World) :=
  match bufs with
  | [] => Ok (self, sfu, w)
  | inbuf :: bufs =>
      packet ← as_mut inbuf;
      '(sfu, (packets, dequeues)) ← of_sfu (handle_packet sfu sender_addr packet (clock w));
      '(self, w) ← send_packets self packets w;
      handle_packets (schedule_all self dequeues) sfu sender_addr bufs w
  end.

(** What a thread keeps from one event to the next. *)
Record Thread := thread { bufs : list PacketBuffer; timer : option RawFd; poll_timeout_ms : Z }.

#[global] Instance Thread_eta : Settable Thread := fun s => thread (bufs s) (timer s) (poll_timeout_ms s).

Record Event := event { event_fd : RawFd; is_err : bool; is_in : bool }.

(** An event of a socket that packets come from. *)
Definition handle_readable (fuel : nat) (self : t) (sfu : SfuState) (th : Thread) (socket : Socket) (w : World) :
    Res unit (t * SfuState * Thread * World) :=
  r ← receive fuel (receiving self socket (bufs th) 0 None w);
  let th := th <| bufs := r_bufs r |> in
  match r_sender_addr r with
  | Some sender_addr =>
      '(self, sfu, w) ← handle_packets (r_server r) sfu sender_addr (take (r_index r) (r_bufs r)) (r_world r);
      Ok (self, sfu, th, w)
  | None => Ok (r_server r, sfu, th, r_world r)
  end.

Definition handle_socket (fuel : nat) (self : t) (sfu : SfuState) (th : Thread) (socket : Socket) (e : Event) (w : World) :
    Res unit (t * SfuState * Thread * World) :=
  '(self, go_on, w) ← (if is_err e then handle_error self socket w else Ok (self, true, w));
  if go_on && is_in e then handle_readable fuel self sfu th socket w else Ok (self, sfu, th, w).

Definition handle_event (fuel : nat) (self : t) (sfu : SfuState) (th : Thread) (e : Event) (w : World) :
    Res unit (t * SfuState * Thread * World) :=
  let fd := event_fd e in
  if fd =? new_client_socket self then handle_socket fuel self sfu th (UdpSocket (new_client_socket self)) e w
  else if (fd =? new_tcp_socket self) || (fd =? default (-1) (new_tls_socket self)) then
    if fd =? new_tcp_socket self then
      let '(accepted, w) := syscall (SysAccept (new_tcp_socket self)) w in
      '(self, w) ← accept self accepted false w; Ok (self, sfu, th, w)
    else
      tls_fd ← unwrap (new_tls_socket self);
      let '(accepted, w) := syscall (SysAccept tls_fd) w in
      if tls_config self then '(self, w) ← accept self accepted true w; Ok (self, sfu, th, w) else Panic
  else if fd =? default (-1) (timer th) then
    timer_fd ← unwrap (timer th);
    Ok (self, sfu, th, (syscall (SysTimerWait timer_fd) w).2)
  else
    match get_by_fd (all_connections self) fd with
    | Some socket => handle_socket fuel self sfu th socket e w
    | None => Ok (self, sfu, th, w)
    end.

Fixpoint handle_events (fuel : nat) (self : t) (sfu : SfuState) (th : Thread) (events : list Event) (w : World) :
    Res unit (t * SfuState * Thread * World) :=
  match events with
  | [] => Ok (self, sfu, th, w)
  | e :: events => '(self, sfu, th, w) ← handle_event fuel self sfu th e w; handle_events fuel self sfu th events w
  end.

(** *** Dequeues *)

Definition arm_timer (self : t) (th : Thread) (now : Z) (w : World) : t * World :=
  match timer th with
  | Some timer_fd =>
      let '(heap, delay) := TimerHeap.set_timer (timer_heap self) now in
      (self <| timer_heap := heap |>,
       match delay with Some delay => (syscall (SysTimerSet timer_fd delay) w).2 | None => w end)
  | None => (self, w)
  end.

(** The loop over what is due; [dequeues_left] is returned. *)
Fixpoint handle_dequeues (fuel : nat) (self : t) (sfu : SfuState) (th : Thread) (dequeues_left : nat) (w : World) :
    Res unit (t * SfuState * nat * World) :=
  match dequeues_left, fuel with
  | O, _ => Ok (self, sfu, O, w)
  | _, O => Panic
  | S fewer, S fuel =>
      let now := now w in
      let '(heap, next) := TimerHeap.next (timer_heap self) now in
      let self := self <| timer_heap := heap |> in
      match next with
      | TimerHeap.Value addr =>
          '(sfu, r) ← of_sfu (handle_dequeue sfu addr now);
          match r with
          | Some (addr, buf, time) =>
              '(self, w) ← match buf with Some buf => send_packet self buf addr w | None => Ok (self, w) end;
              let self := match time with Some time => schedule_all self [(time, addr)] | None => self end in
              handle_dequeues fuel self sfu th (match buf with Some _ => fewer | None => dequeues_left end) w
          | None => handle_dequeues fuel self sfu th dequeues_left w
          end
      | TimerHeap.Wait _ => let '(self, w) := arm_timer self th now w in Ok (self, sfu, dequeues_left, w)
      | TimerHeap.WaitForever => Ok (self, sfu, dequeues_left, w)
      end
  end.

(** One turn of [run], after [epoll_wait]; [fuel] is for the packets of one socket, [fuel_due] for the dequeues. *)
Definition run_turn (fuel fuel_due : nat) (self : t) (sfu : SfuState) (th : Thread) (events : list Event) (w : World) :
    Res unit (t * SfuState * Thread * World) :=
  '(self, sfu, th, w) ← handle_events fuel self sfu th (take MAX_EPOLL_EVENTS events) w;
  '(self, sfu, dequeues_left, w) ← handle_dequeues fuel_due self sfu th MAX_EPOLL_EVENTS w;
  Ok (self, sfu, th <| poll_timeout_ms := if (dequeues_left =? 0)%nat then 0 else EPOLL_WAIT_TIMEOUT_MS |>, w).

(** The start of [run]. *)
Definition new_thread (epoll_fd : RawFd) (w : World) : Thread * World :=
  let bufs := [new_buffer] in
  match syscall SysTimerCreate w with
  | (Done timer_fd, w) =>
      match syscall (SysEpollAdd epoll_fd timer_fd) w with
      | (Done _, w) => (thread bufs (Some timer_fd) EPOLL_WAIT_TIMEOUT_MS, w)
      | (Failed _, w) => (thread bufs None EPOLL_WAIT_TIMEOUT_MS, (syscall (SysClose timer_fd) w).2)
      end
  | (Failed _, w) => (thread bufs None EPOLL_WAIT_TIMEOUT_MS, w)
  end.

(** *** Ticks *)

(** The packets of a tick go to connections only; the addresses that fail are to be closed. *)
Fixpoint send_tick_packets (self : t) (packets : list (bytes * SocketLocator)) (expired : list SocketLocator) (w : World) :
    Res unit (t * list SocketLocator * World) :=
  match packets with
  | [] => Ok (self, expired, w)
  | (buf, addr) :: packets =>
      state ← get_by_addr (all_connections self) addr;
      match state with
      | New socket | Connected socket =>
          let '(socket, keep, w) := send_and_keep socket buf w in
          send_tick_packets (put_socket self socket) packets (if keep then expired else expired ++ [addr]) w
      | Closed _ | NotYetConnected => send_tick_packets self packets expired w
      end
  end.

Fixpoint remove_all_closed (self : t) (addrs : list SocketLocator) : Res unit t :=
  match addrs with
  | [] => Ok self
  | addr :: addrs =>
      m ← remove_closed (all_connections self) addr;
      remove_all_closed (self <| all_connections := m |>) addrs
  end.

(** [locked]: whether the write lock is got in time. *)
Definition tick (self : t) (update : TickUpdate) (locked : bool) (w : World) : Res unit (t * Res unit () * World) :=
  let tick := tick_number self in
  let self := self <| tick_number := u64 (tick + 1) |> in
  '(self, expired, w) ← send_tick_packets self (packets_to_send update) (expired_client_addrs update) w;
  let self := schedule_all self (dequeues_to_schedule update) in
  let expired := expired ++ inactive_senders (map_entries (inactive_ttls (all_connections self))) tick in
  let now := now w in
  let expiration := now - CLOSED_SOCKET_EXPIRATION_IN_TICKS * tick_interval self in
  closed ← closed_connections (map_entries (by_peer_addr (all_connections self)));
  let expired_socket_addrs := map fst (filter (fun e => snd e <= expiration) closed) in
  match expired, expired_socket_addrs with
  | [], [] => Ok (self, Ok (), w)
  | _, _ =>
      if locked then
        self ← remove_all_closed self expired_socket_addrs;
        '(self, w) ← mark_all_closed self expired now w;
        Ok (self, Ok (), w)
      else Ok (self, Err (), w)
  end.

Definition get_stats (self : t) : list (string * nat) :=
  [("calling.packet_server.connection_map.by_fd.count", base.size (by_fd (all_connections self)));
   ("calling.packet_server.connection_map.by_peer_addr.count", base.size (by_peer_addr (all_connections self)));
   ("calling.packet_server.connection_map.inactive_ttls.count", base.size (inactive_ttls (all_connections self)))]%string.

(** The task of [packet_server::start] at each interval, with the health of the server. *)
Definition tick_turn (self : t) (sfu : SfuState) (is_healthy locked : bool) (w : World) : Res unit (t * SfuState * bool * World) :=
  '(sfu, tick_output) ← of_sfu (sfu_tick sfu (now w));
  '(self, r, w) ← tick self tick_output locked w;
  Ok (self, sfu, match r with Ok _ => is_healthy | _ => false end, w).

End Server.
End PacketServer.

(** ** generic.rs: one socket for everything, and UDP only *)
Module Generic.
Import Io.

Section Server.
Context `{Os} `{TimerHeap.HeapOrder}.

Record t := mk { socket : RawFd; num_threads : nat; timer_heap : TimerHeap.t SocketLocator }.

#[global] Instance t_eta : Settable t := fun s => mk (socket s) (num_threads s) (timer_heap s).

(** [UdpSocket::bind] *)
Definition new (local_addr_udp : SocketAddr) (num_threads : nat) : Io t :=
  fd ← sys (SysSocket (PacketServer.is_ipv4 local_addr_udp) Datagram);
  closing_on_error fd (_ ← sys (SysBind fd local_addr_udp); mret (mk fd num_threads TimerHeap.new)).

Definition send_packet (self : t) (buf : bytes) (addr : SocketLocator) (w : World) : World :=
  match addr with
  | Udp addr => (syscall (SysSendTo (socket self) buf addr) w).2
  | Tcp _ _ _ => w
  end.

Definition send_packets (self : t) (packets : list (bytes * SocketLocator)) (w : World) : World :=
  fold_left (fun w '(buf, addr) => send_packet self buf addr w) packets w.

Definition schedule_all (self : t) (dequeues : list (Z * SocketLocator)) : t :=
  self <| timer_heap ::= fun h => TimerHeap.schedule_all h dequeues |>.

Context `{PacketHandler}.

(** The inner loop of [run]: everything that is due, then the wait for a packet is limited. *)
Fixpoint handle_dequeues (fuel : nat) (self : t) (sfu : SfuState) (w : World) : Res unit (t * SfuState * World) :=
  match fuel with
  | O => Panic
  | S fuel =>
      let now := now w in
      let '(heap, next) := TimerHeap.next (timer_heap self) now in
      let self := self <| timer_heap := heap |> in
      match next with
      | TimerHeap.Value addr =>
          '(sfu, r) ← of_sfu (handle_dequeue sfu addr now);
          match r with
          | Some (addr, buf, time) =>
              let w := match buf with Some buf => send_packet self buf addr w | None => w end in
              let self := match time with Some time => schedule_all self [(time, addr)] | None => self end in
              handle_dequeues fuel self sfu w
          | None => handle_dequeues fuel self sfu w
          end
      | TimerHeap.Wait timeout => Ok (self, sfu, (syscall (SysReadTimeout (socket self) (Some timeout)) w).2)
      | TimerHeap.WaitForever => Ok (self, sfu, (syscall (SysReadTimeout (socket self) None) w).2)
      end
  end.

(** One turn of [run]; a datagram is cut to the buffer. *)
Definition run_turn (fuel : nat) (self : t) (sfu : SfuState) (w : World) : Res unit (t * SfuState * World) :=
  let '(received, w) := syscall (SysRecvFrom (socket self) 1500) w in
  '(self, sfu, w) ←
    match received with
    | Done (packet, sender_addr) =>
        '(sfu, (packets, dequeues)) ← of_sfu (handle_packet sfu (Udp sender_addr) (take 1500 packet) (clock w));
        Ok (schedule_all self dequeues, sfu, send_packets self packets w)
    | Failed _ => Ok (self, sfu, w)
    end;
  handle_dequeues fuel self sfu w.

Definition tick (self : t) (update : TickUpdate) (w : World) : t * World :=
  (schedule_all self (dequeues_to_schedule update), send_packets self (packets_to_send update) w).

End Server.
End Generic.
