(* ===== verification/Framing.v ===== *)
(** * Packets on streams

    What [TcpState::send] and [TcpState::recv_from] of
    src/backend/src/packet_server/epoll.rs promise each other: whatever parts of
    its frames a blocked stream takes, and in whatever pieces they arrive, whole
    packets come out, in order. *)
From Stdlib Require Import ZArith Lia.
From stdpp Require Import list gmap.
From S2P Require Import Prelude.
From S2P Require Import Common.
From S2P Require Import Connection.
From S2P Require Import Sockets.

Import Io Sockets.

(** ** What streams promise

    A stream takes a prefix of what is written and says how long it is; what is
    read is the start of what is to arrive.  For a TLS connection this is said of
    its plaintext. *)
Class StreamLaws `{Tls} := {
  os_written : RawFd -> World -> bytes;
  os_arriving : RawFd -> World -> bytes;
  tls_written : ServerConnection -> bytes;
  tls_arriving : ServerConnection -> RawFd -> World -> bytes;
  sys_write_law fd buf w r w' : syscall (SysWrite fd buf) w = (r, w') ->
    match r with
    | Done n => (n <= length buf)%nat /\ os_written fd w' = os_written fd w ++ take n buf
    | Failed _ => os_written fd w' = os_written fd w
    end;
  sys_read_law fd n w r w' : syscall (SysRead fd n) w = (r, w') ->
    match r with
    | Done got => (length got <= n)%nat /\ os_arriving fd w = got ++ os_arriving fd w'
    | Failed _ => os_arriving fd w = os_arriving fd w'
    end;
  writer_law c buf r c' : writer_write c buf = (r, c') ->
    match r with
    | Done n => (n <= length buf)%nat /\ tls_written c' = tls_written c ++ take n buf
    | Failed _ => tls_written c' = tls_written c
    end;
  write_tls_written c fd w r c' w' : write_tls c fd w = (r, c', w') -> tls_written c' = tls_written c;
  reader_law c n r c' fd w : reader_read c n = (r, c') ->
    match r with
    | Done got => (length got <= n)%nat /\ tls_arriving c fd w = got ++ tls_arriving c' fd w
    | Failed _ => tls_arriving c fd w = tls_arriving c' fd w
    end;
  read_tls_arriving c fd w r c' w' : read_tls c fd w = (r, c', w') -> tls_arriving c fd w = tls_arriving c' fd w';
  write_tls_arriving c fd w r c' w' : write_tls c fd w = (r, c', w') -> tls_arriving c fd w = tls_arriving c' fd w';
  process_arriving c r c' fd w : process_new_packets c = (r, c') -> tls_arriving c fd w = tls_arriving c' fd w
}.

Module Framing.

(** A packet as it is put on a stream. *)
Definition frame (p : bytes) : bytes := be_bytes 2 (u16 (Z.of_nat (length p))) ++ p.
Definition frames (ps : list bytes) : bytes := concat (map frame ps).

(** Packets that are framed. *)
Definition frameable (p : bytes) : Prop := (0 < length p <= MAX_RTP_LENGTH)%nat /\ bytes_ok p.

Section Framing.
Context `{StreamLaws}.

(** ** Runs of both sides *)
Fixpoint tcp_send_all (self : TcpState) (packets : list bytes) (w : World) : TcpState * list (IoResult ()) * World :=
  match packets with
  | [] => (self, [], w)
  | p :: packets =>
      let '(self, r, w) := tcp_send self p w in
      let '(self, rs, w) := tcp_send_all self packets w in
      (self, r :: rs, w)
  end.

(** [n] calls with a new buffer each; what failed is tried again. *)
Fixpoint tcp_recv_calls (n : nat) (self : TcpState) (w : World) : Res unit (list bytes * TcpState * World) :=
  match n with
  | O => Ok ([], self, w)
  | S n =>
      '(self, out, r, w) ← tcp_recv_from self (replicate MAX_RTP_LENGTH 0) w;
      '(l, self, w) ← tcp_recv_calls n self w;
      Ok (match r with Done (size, _) => take size out :: l | Failed _ => l end, self, w)
  end.

(** The packets whose sending returned [Ok]. *)
Definition sent_whole (packets : list bytes) (results : list (IoResult ())) : list bytes :=
  omap (fun '(p, r) => match r with Done _ => Some p | Failed _ => None end) (zip packets results).

Definition written (s : SocketStream) (w : World) : bytes :=
  match s with
  | TcpStream fd => os_written fd w
  | TlsStream c fd => tls_written c
  end.

Definition arriving (s : SocketStream) (w : World) : bytes :=
  match s with
  | TcpStream fd => os_arriving fd w
  | TlsStream c fd => tls_arriving c fd w
  end.

Lemma write_vectored_law s bufs w r s' w' : write_vectored s bufs w = (r, s', w') ->
  match r with
  | Done n => (n <= length (concat bufs))%nat /\ written s' w' = written s w ++ take n (concat bufs)
  | Failed _ => written s' w' = written s w
  end.
Proof.
  destruct s as [fd|c fd]; cbn [write_vectored].
  - destruct (syscall _ w) as [r1 w1] eqn:E. intros [= <- <- <-]. apply (sys_write_law _ _ _ _ _ E).
  - destruct (writer_write c _) as [r1 c1] eqn:E. destruct (write_tls c1 fd w) as [[r2 c2] w2] eqn:E2.
    intros [= <- <- <-]. cbn [written]. rewrite (write_tls_written _ _ _ _ _ _ E2). apply (writer_law _ _ _ _ E).
Qed.

(** Writing alerts and the like leaves what arrives alone. *)
Lemma write_tls_if_arriving (b : bool) c fd w r c' w' :
  (if b then write_tls c fd w else (Done 0%nat, c, w)) = (r, c', w') -> tls_arriving c fd w = tls_arriving c' fd w'.
Proof. destruct b; [apply write_tls_arriving|by intros [= _ <- <-]]. Qed.

Lemma read_law s n w r s' w' : read s n w = (r, s', w') ->
  match r with
  | Done got => (length got <= n)%nat /\ arriving s w = got ++ arriving s' w'
  | Failed _ => arriving s w = arriving s' w'
  end.
Proof.
  destruct s as [fd|c fd]; cbn [read].
  { destruct (syscall _ w) as [r1 w1] eqn:E. intros [= <- <- <-]. apply (sys_read_law _ _ _ _ _ E). }
  destruct (if wants_read c then _ else _) as [[r1 c1] w1] eqn:E1.
  assert (tls_arriving c fd w = tls_arriving c1 fd w1) as Ha.
  { destruct (wants_read c); [by eapply read_tls_arriving|by injection E1 as _ <- <-]. }
  destruct r1 as [|e]; [|by intros [= <- <- <-]].
  destruct (process_new_packets c1) as [r2 c2] eqn:E2. pose proof (process_arriving _ _ _ fd w1 E2) as Hp.
  destruct r2 as [[]|e].
  - destruct (if _ && _ then _ else _) as [[r3 c3] w3] eqn:E3. pose proof (write_tls_if_arriving _ _ _ _ _ _ _ E3) as Ht.
    destruct (reader_read c3 n) as [r4 c4] eqn:E4. pose proof (reader_law _ _ _ _ fd w3 E4) as Hr.
    intros [= <- <- <-]. cbn [arriving]. rewrite Ha, Hp, Ht. apply Hr.
  - destruct (if wants_write c2 then _ else _) as [[r3 c3] w3] eqn:E3. pose proof (write_tls_if_arriving _ _ _ _ _ _ _ E3) as Ht.
    intros [= <- <- <-]. cbn [arriving]. by rewrite Ha, Hp, Ht.
Qed.

(** ** Sending *)

Lemma frame_length p : length (frame p) = (2 + length p)%nat.
Proof. unfold frame. by rewrite length_app, length_be_bytes. Qed.

Lemma keep_rest_spec s p sent s' r : keep_rest s (be_bytes 2 (u16 (Z.of_nat (length p)))) p sent = (s', r) ->
  (sent <= length (frame p))%nat ->
  stream s' = stream s /\ outq s' = outq s ++ (if (sent =? 0)%nat then [] else drop sent (frame p)) /\
  (r = Done () -> sent = length (frame p)).
Proof.
  rewrite frame_length. unfold frame. set (h := be_bytes 2 _). assert (length h = 2%nat) as Hh by apply length_be_bytes.
  destruct h as [|a [|b [|]]]; try done. destruct sent as [|[|sent]]; cbn [keep_rest].
  - intros [= <- <-] _. cbn. by rewrite app_nil_r.
  - intros [= <- <-] _. done.
  - case_if; boolsplit; intros [= <- <-] Hs; (split; [done|]); cbn -[drop]; cbn [drop].
    + done.
    + rewrite drop_ge by lia. rewrite app_nil_r. split; [done|intros _; lia].
Qed.

(** What is done once the queue and the frame are written up to [sent]. *)
Definition finish_send (s : TcpState) (p : bytes) (sent : nat) : TcpState * IoResult () :=
  if (sent =? 0)%nat then (s, Failed WouldBlock)
  else if (sent <? length (outq s))%nat then (s <| outq ::= drop sent |>, Failed WouldBlock)
  else keep_rest (s <| outq := [] |>) (be_bytes 2 (u16 (Z.of_nat (length p)))) p (sent - length (outq s)).

Lemma finish_send_empty s p sent : outq s = [] ->
  finish_send s p sent = keep_rest s (be_bytes 2 (u16 (Z.of_nat (length p)))) p sent.
Proof.
  intros Hq. unfold finish_send. rewrite Hq. replace (s <| outq := [] |>) with s by (destruct s; cbn in Hq; by subst).
  rewrite Nat.sub_0_r. by destruct sent.
Qed.

Lemma finish_send_spec s p sent s' r : finish_send s p sent = (s', r) ->
  (sent <= length (outq s) + length (frame p))%nat ->
  exists kept : bool, stream s' = stream s /\
    take sent (outq s ++ frame p) ++ outq s' = outq s ++ (if kept then frame p else []) /\
    (r = Done () -> kept = true) /\
    (length (outq s') <= Nat.max (length (outq s)) (1 + length p))%nat.
Proof.
  unfold finish_send. case_if; boolsplit.
  { intros [= <- <-] _. exists false. subst sent. rewrite take_0, app_nil_r. split_and!; [done..|lia]. }
  case_if; boolsplit.
  { intros [= <- <-] _. exists false. cbn. rewrite take_app_le, take_drop, app_nil_r by lia.
    split_and!; [done..|]. rewrite length_drop. lia. }
  intros Ek Hs. apply keep_rest_spec in Ek as (E1 & E2 & E3); [|lia]. cbn in E1, E2.
  exists (negb (sent - length (outq s) =? 0)%nat). rewrite E1, E2, take_app_ge by lia.
  destruct (sent - length (outq s))%nat as [|k] eqn:Ek; cbn [Nat.eqb negb].
  - rewrite take_0, !app_nil_r. split_and!; [done..| |cbn; lia]. intros Hr%E3. rewrite frame_length in Hr. lia.
  - rewrite <- app_assoc, take_drop. split_and!; [done..|]. rewrite length_drop, frame_length. lia.
Qed.

Lemma sent_or_zero_written r s w s1 w1 bufs : write_vectored s bufs w = (r, s1, w1) ->
  match sent_or_zero r with
  | Done n => (n <= length (concat bufs))%nat /\ written s1 w1 = written s w ++ take n (concat bufs)
  | Failed _ => written s1 w1 = written s w
  end.
Proof.
  intros E%write_vectored_law. destruct r as [n|[]]; cbn [sent_or_zero]; try done.
  all: split; [lia|by rewrite take_0, app_nil_r].
Qed.

(** What is on the stream and in the queue grows by a whole frame, or not at all. *)
Lemma tcp_send_spec s p w s' r w' : tcp_send s p w = (s', r, w') ->
  exists kept : bool,
    written (stream s') w' ++ outq s' = written (stream s) w ++ outq s ++ (if kept then frame p else []) /\
    (kept = true -> (0 < length p <= MAX_RTP_LENGTH)%nat) /\ (r = Done () -> kept = true) /\
    (length (outq s') <= Nat.max (length (outq s)) (1 + MAX_RTP_LENGTH))%nat.
Proof.
  unfold tcp_send. case_if; boolsplit.
  { intros [= <- <- <-]. exists false. rewrite app_nil_r. split_and!; [done..|lia]. }
  case_if; boolsplit.
  { intros [= <- <- <-]. exists false. rewrite app_nil_r. split_and!; [done..|lia]. }
  intros Es.
  assert (exists bufs r1 s1 w1, concat bufs = outq s ++ frame p /\ write_vectored (stream s) bufs w = (r1, s1, w1) /\
    (s', r, w') = match sent_or_zero r1 with
                  | Failed e => (s <| stream := s1 |>, Failed e, w1)
                  | Done sent => (finish_send (s <| stream := s1 |>) p sent, w1)
                  end) as (bufs & r1 & s1 & w1 & Hb & Ew & E').
  { revert Es. case_if; boolsplit.
    - destruct (outq s) as [|] eqn:Eq; [|done]. destruct (write_vectored _ _ _) as [[r1 s1] w1] eqn:Ew. intros Es.
      exists [be_bytes 2 (u16 (Z.of_nat (length p))); p], r1, s1, w1. split; [unfold frame; cbn -[be_bytes]; by rewrite app_nil_r|]. split; [done|].
      rewrite <- Es. destruct (sent_or_zero r1); [|done]. by rewrite finish_send_empty.
    - destruct (write_vectored _ _ _) as [[r1 s1] w1] eqn:Ew. intros Es. eexists _, r1, s1, w1.
      split; [|split; [exact Ew|]]; [unfold frame; cbn -[be_bytes]; by rewrite app_nil_r|].
      rewrite <- Es. destruct (sent_or_zero r1); [|done]. unfold finish_send. cbn [outq set_field].
      by repeat case_if. }
  apply sent_or_zero_written in Ew. rewrite Hb in Ew. destruct (sent_or_zero r1) as [n|e].
  - destruct Ew as [Hn Hw]. rewrite length_app in Hn. destruct (finish_send _ _ _) as [s2 r2] eqn:Ef. injection E' as -> -> ->.
    apply finish_send_spec in Ef as (kept & E1 & E2 & E3 & E4); [|done]. exists kept. cbn in E1, E2, E4. rewrite E1, Hw, <- app_assoc, E2.
    split_and!; [done|lia|done|lia].
  - injection E' as -> -> ->. exists false. cbn. rewrite Ew, app_nil_r. split_and!; [done..|lia].
Qed.

Lemma tcp_send_all_spec packets : forall s w s' rs w', tcp_send_all s packets w = (s', rs, w') ->
  (length (outq s) <= 1 + MAX_RTP_LENGTH)%nat ->
  exists kept, written (stream s') w' ++ outq s' = written (stream s) w ++ outq s ++ frames kept /\
    kept `sublist_of` packets /\ sent_whole packets rs `sublist_of` kept /\
    Forall (fun p => 0 < length p <= MAX_RTP_LENGTH)%nat kept /\ (length (outq s') <= 1 + MAX_RTP_LENGTH)%nat.
Proof.
  induction packets as [|p packets IH]; intros s w s' rs w'; cbn [tcp_send_all].
  { intros [= <- <- <-] Hq. exists []. unfold frames. cbn. rewrite app_nil_r. by split_and!. }
  destruct (tcp_send s p w) as [[s1 r1] w1] eqn:E1. destruct (tcp_send_all s1 packets w1) as [[s2 rs2] w2] eqn:E2.
  intros [= <- <- <-] Hq. apply tcp_send_spec in E1 as (k & Ew & Hk & Hr & Hl).
  apply IH in E2 as (kept & Ew2 & Hs & Hd & Hf & Hq2); [|lia].
  exists (if k then p :: kept else kept). rewrite Ew2, app_assoc, Ew. split_and!.
  - unfold frames. rewrite <- !app_assoc. by destruct k.
  - destruct k; by constructor.
  - unfold sent_whole in *. cbn. destruct r1 as [[]|e]; cbn.
    + rewrite (Hr eq_refl). by constructor.
    + destruct k; [by constructor|done].
  - destruct k; [constructor; [by apply Hk|done]|done].
  - done.
Qed.

(** ** Receiving *)

(** What was read of the frame that is being received. *)
Definition partial (s : TcpState) : bytes :=
  (if (size s =? 0)%nat then [] else be_bytes 2 (Z.of_nat (size s))) ++ take (pos s) (buf s).

Definition recv_ok (s : TcpState) : Prop :=
  length (buf s) = MAX_RTP_LENGTH /\ (pos s < (if (size s =? 0)%nat then 2 else size s))%nat /\
  Z.of_nat (size s) < 2 ^ 16.

(** Reading fills the buffer from [pos]. *)
Lemma read_into_spec s upto w : (pos s <= upto)%nat -> (upto <= length (buf s))%nat ->
  exists s' r w', read_into s upto w = Ok (s', r, w') /\
    size s' = size s /\ pos s' = pos s /\ length (buf s') = length (buf s) /\ outq s' = outq s /\ locator s' = locator s /\
    match r with
    | Done n => (pos s + n <= upto)%nat /\
        exists got, length got = n /\ arriving (stream s) w = got ++ arriving (stream s') w' /\
          take (pos s + n) (buf s') = take (pos s) (buf s) ++ got
    | Failed _ => arriving (stream s) w = arriving (stream s') w' /\ buf s' = buf s
    end.
Proof.
  intros Hp Hu. unfold read_into. rewrite (proj2 (Nat.leb_le _ _) Hp), (proj2 (Nat.leb_le _ _) Hu). cbn [andb].
  destruct (read _ _ w) as [[r s1] w1] eqn:Er. apply read_law in Er.
  destruct r as [got|e]; (eexists _, _, _; split; [done|]); cbn; [|tauto].
  destruct Er as [Hg Ha]. rewrite (take_ge got) by lia.
  assert (length (take (pos s) (buf s)) = pos s) as Ht by (rewrite length_take; lia).
  split_and!; [done..| |done|done|lia|].
  - rewrite !length_app, length_drop, Ht. lia.
  - exists got. split_and!; [done..|]. rewrite (take_app_ge (take _ _)) by lia. rewrite Ht.
    by rewrite (Nat.add_comm (pos s)), Nat.add_sub, take_app_length.
Qed.

Lemma recv_size_spec s w : recv_ok s -> bytes_ok (partial s ++ arriving (stream s) w) ->
  exists s' r w' got, recv_size s w = Ok (s', r, w') /\ recv_ok s' /\ locator s' = locator s /\
    partial s ++ arriving (stream s) w = got ++ partial s' ++ arriving (stream s') w' /\
    (got = [] \/ got = [0; 0] /\ size s' = 0%nat).
Proof.
  intros (Hb & Hp & Hz) Hok. unfold recv_size. destruct (size s =? 0)%nat eqn:E; boolsplit.
  2: { exists s, (Done ()), w, []. split_and!; [done| |done..|by left]. unfold recv_ok. by rewrite (proj2 (Nat.eqb_neq _ _) E). }
  destruct (read_into_spec s 2 w) as (s1 & r & w1 & -> & Hs1 & Hp1 & Hb1 & _ & Hl1 & Hr); [lia|unfold MAX_RTP_LENGTH in *; lia|].
  rewrite mbind_Ok. unfold recv_ok, partial in *. rewrite E in *. cbn [Nat.eqb app] in *.
  destruct r as [n|e].
  2: { destruct Hr as [Ha Hb']. exists s1, (Failed e), w1, []. rewrite Hs1, Hp1, Hb', Ha. cbn. split_and!; try done. by left. }
  destruct Hr as (Hn & got & Hg & Ha & Ht). rewrite Ha, app_assoc, <- Ht in Hok |- *.
  case_if; boolsplit.
  { subst n. rewrite E0, Nat.add_0_r. exists s1, (Failed InvalidData), w1, []. rewrite Hs1, Hp1, Hb1. cbn. split_and!; try done. by left. }
  cbn [pos set_field]. rewrite Hp1. destruct (Nat.compare_spec (pos s + n) 2) as [E2|E2|E2]; [| |lia].
  - rewrite slice_to_ok by (cbn; unfold MAX_RTP_LENGTH in *; lia). rewrite mbind_Ok, E2 in *. cbn [buf set_field].
    apply Forall_app in Hok as [Hh _]. pose proof (be_val_uint _ Hh) as Hu. pose proof (be_bytes_be_val _ Hh) as Hv.
    assert (length (take 2 (buf s1)) = 2%nat) as Hlen by (rewrite length_take; unfold MAX_RTP_LENGTH in *; lia).
    rewrite Hlen in Hu, Hv. unfold uint in Hu. change (8 * Z.of_nat 2) with 16 in Hu.
    eexists _, _, _, (if be_val (take 2 (buf s1)) =? 0 then [0; 0] else []). split; [done|]. cbn [size pos buf stream locator id is_ipv6 is_tls set_field].
    destruct (Z.eqb_spec (be_val (take 2 (buf s1))) 0) as [E3|E3].
    + rewrite E3. change (Z.to_nat 0) with 0%nat. cbn [Nat.eqb app]. rewrite <- Hv, E3. split_and!; [congruence|lia|lia|done|done|by right].
    + rewrite (proj2 (Nat.eqb_neq _ _)) by lia. rewrite Z2Nat.id by lia. split_and!; [congruence|lia|lia|done| |by left].
      cbn [app]. rewrite Hv, take_0, app_nil_r. done.
  - eexists _, _, _, []. split; [done|]. cbn [size pos buf stream locator id is_ipv6 is_tls set_field]. rewrite Hs1, Hp1. cbn [Nat.eqb app].
    split_and!; [congruence|lia|lia|done|done|by left].
Qed.

(** What a call of [recv_from] took from the stream, beyond what is still held. *)
Definition taken (s : TcpState) (out' : bytes) (r : IoResult (nat * SocketLocator)) (got : bytes) : Prop :=
  match r with
  | Done (n, a) => got = frame (take n out') /\ (0 < n <= MAX_RTP_LENGTH)%nat /\ a = locator s
  | Failed _ => got = []
  end.

Lemma recv_body_spec s out w : recv_ok s -> length out = MAX_RTP_LENGTH ->
  exists s' out' r w' got, recv_body s out w = Ok (s', out', r, w') /\ recv_ok s' /\ locator s' = locator s /\
    length out' = MAX_RTP_LENGTH /\
    partial s ++ arriving (stream s) w = got ++ partial s' ++ arriving (stream s') w' /\ taken s out' r got.
Proof.
  intros (Hb & Hp & Hz) Ho. unfold recv_body.
  case_if; boolsplit; [by exists s, out, (Failed InvalidData), w, []|].
  destruct (size s =? 0)%nat eqn:E2; boolsplit.
  { exists s, out, (Failed WouldBlock), w, []. unfold recv_ok. rewrite E2. by split_and!. }
  destruct (read_into_spec s (size s) w) as (s1 & r & w1 & -> & Hs1 & Hp1 & Hb1 & _ & Hl1 & Hr); [lia|congruence || lia|].
  rewrite mbind_Ok. unfold recv_ok, partial in *. rewrite (proj2 (Nat.eqb_neq _ _) E2).
  destruct r as [n|e].
  2: { destruct Hr as [Ha Hb']. exists s1, out, (Failed e), w1, []. rewrite Hs1, Hp1, Hb', Ha, (proj2 (Nat.eqb_neq _ _) E2).
       by split_and!. }
  destruct Hr as (Hn & got & Hg & Ha & Ht). rewrite Ha.
  case_if; boolsplit.
  { subst n. rewrite E0, Nat.add_0_r in Ht. destruct got; [|done]. exists s1, out, (Failed InvalidData), w1, [].
    rewrite Hs1, Hp1, Ht, (proj2 (Nat.eqb_neq _ _) E2). cbn [app]. rewrite app_nil_r. split_and!; try done. congruence. }
  cbn [pos size buf set_field]. rewrite Hp1, Hs1. case_if; boolsplit.
  - rewrite slice_no_panic by lia. rewrite mbind_Ok, Nat.sub_0_r, drop_0, E1 in *.
    assert (length (take (size s) (buf s1)) = size s) as Hlen by (rewrite length_take; lia).
    rewrite copy_from_slice_ok by (rewrite ?Hlen; lia). rewrite mbind_Ok, take_0. cbn [app].
    eexists _, _, _, _, (frame (take (size s) (buf s1))). split; [done|].
    cbn [size pos buf stream locator id is_ipv6 is_tls set_field Nat.eqb taken].
    assert (take (size s) (take (size s) (buf s1) ++ drop (size s) out) = take (size s) (buf s1)) as ->
      by (rewrite take_app_le, take_ge by lia; done).
    split_and!; [congruence|lia|lia|done| | |done|lia|lia|by rewrite <- Hl1].
    + rewrite length_app, length_drop. lia.
    + unfold frame, u16. rewrite Hlen, wrap_small by (unfold uint; lia). rewrite Ht, take_0, <- !app_assoc. done.
  - eexists _, _, _, _, []. split; [done|]. cbn [size pos buf stream locator id is_ipv6 is_tls set_field].
    rewrite Hs1, Hp1, (proj2 (Nat.eqb_neq _ _) E2), Ht, <- !app_assoc. split_and!; try done; [congruence|lia].
Qed.

Lemma tcp_recv_from_spec s out w : recv_ok s -> length out = MAX_RTP_LENGTH ->
  bytes_ok (partial s ++ arriving (stream s) w) ->
  exists s' out' r w' skipped got, tcp_recv_from s out w = Ok (s', out', r, w') /\ recv_ok s' /\ locator s' = locator s /\
    length out' = MAX_RTP_LENGTH /\
    partial s ++ arriving (stream s) w = skipped ++ got ++ partial s' ++ arriving (stream s') w' /\
    taken s out' r got /\ (skipped = [] \/ skipped = [0; 0]).
Proof.
  intros Hs Ho Hb. unfold tcp_recv_from. case_if; boolsplit.
  { exists s, out, (Failed InvalidData), w, [], []. split_and!; try done. by left. }
  destruct (recv_size_spec s w Hs Hb) as (s1 & r1 & w1 & k & -> & Hs1 & Hl1 & Heq & Hk). rewrite mbind_Ok.
  assert (k = [] \/ k = [0; 0]) as Hk' by tauto. destruct r1 as [[]|e].
  - destruct (recv_body_spec s1 out w1 Hs1 Ho) as (s2 & out' & r2 & w2 & got & -> & Hs2 & Hl2 & Ho2 & Heq2 & Ht).
    exists s2, out', r2, w2, k, got. rewrite Heq, Heq2. split_and!; try done; [congruence|].
    destruct r2 as [[n a]|e]; [|done]. cbn in Ht |- *. by rewrite <- Hl1.
  - exists s1, out, (Failed e), w1, k, []. rewrite Heq. by split_and!.
Qed.

Lemma be_val_length (p : bytes) : (length p <= MAX_RTP_LENGTH)%nat -> be_val (be_bytes 2 (u16 (Z.of_nat (length p)))) = Z.of_nat (length p).
Proof.
  unfold MAX_RTP_LENGTH. intros Hp. rewrite be_val_be_bytes. change (8 * Z.of_nat 2) with 16. unfold u16.
  by rewrite wrap_idem, wrap_small by (unfold uint; lia).
Qed.

Lemma frame_inj (p q x y : bytes) : (length p <= MAX_RTP_LENGTH)%nat -> (length q <= MAX_RTP_LENGTH)%nat ->
  frame p ++ x = frame q ++ y -> p = q /\ x = y.
Proof.
  intros Hp Hq E. unfold frame in E. rewrite <- !app_assoc in E.
  apply app_inj_1 in E as [Eh E]; [|by rewrite !length_be_bytes].
  assert (length p = length q) as El.
  { apply (f_equal be_val) in Eh. rewrite !be_val_length in Eh by done. lia. }
  by apply app_inj_1 in E.
Qed.

Lemma frames_not_zero ps x : Forall frameable ps -> frames ps <> [0; 0] ++ x.
Proof.
  intros Hf E. destruct ps as [|p ps]; [done|]. apply Forall_inv in Hf as [Hp _]. unfold frames, frame in E. cbn [map concat] in E.
  rewrite <- app_assoc in E. apply app_inj_1 in E as [Eh _]; [|by rewrite length_be_bytes].
  apply (f_equal be_val) in Eh. rewrite be_val_length in Eh by lia. change (be_val [0; 0]) with 0 in Eh. lia.
Qed.

Lemma frames_bytes_ok ps : Forall frameable ps -> bytes_ok (frames ps).
Proof.
  intros Hf. unfold frames. induction Hf as [|p ps [_ Hp] _ IH]; [constructor|]. cbn. apply Forall_app. split; [|done].
  unfold frame. apply Forall_app. split; [apply be_bytes_ok|done].
Qed.

(** Of the frames that are to come, whole packets come out; [rest] never arrives. *)
Lemma tcp_recv_calls_spec rest n : forall s w ps, recv_ok s -> Forall frameable ps ->
  partial s ++ arriving (stream s) w ++ rest = frames ps ->
  exists received ps' s' w', tcp_recv_calls n s w = Ok (received, s', w') /\ recv_ok s' /\ ps = received ++ ps' /\
    partial s' ++ arriving (stream s') w' ++ rest = frames ps'.
Proof.
  induction n as [|n IH]; intros s w ps Hs Hf E; cbn [tcp_recv_calls]; [by exists [], ps, s, w|].
  destruct (tcp_recv_from_spec s (replicate MAX_RTP_LENGTH 0) w) as (s1 & out & r & w1 & k & got & -> & Hs1 & _ & Ho & Heq & Ht & Hk);
    [done|by rewrite length_replicate| |].
  { pose proof (frames_bytes_ok ps Hf) as Hb. rewrite <- E, app_assoc in Hb. by apply Forall_app in Hb as [Hb _]. }
  rewrite app_assoc, Heq, <- !app_assoc in E. destruct Hk as [-> | ->]; [|by apply eq_sym, frames_not_zero in E].
  cbn [app] in E. rewrite mbind_Ok. destruct r as [[size a]|e]; cbn in Ht.
  - destruct Ht as (-> & Hsz & _). destruct ps as [|p ps]; [by unfold frames, frame in E; cbn in E; destruct (be_bytes 2 _) eqn:Eb; [apply (f_equal length) in Eb; rewrite length_be_bytes in Eb|]|].
    apply Forall_cons in Hf as [[Hp Hpb] Hf]. unfold frames in E. cbn [map concat] in E. apply frame_inj in E as [Ep E]; [|rewrite length_take; lia|lia].
    destruct (IH s1 w1 ps Hs1 Hf E) as (received & ps' & s' & w' & -> & Hs' & -> & E'). rewrite mbind_Ok.
    exists (take size out :: received), ps', s', w'. by rewrite Ep.
  - subst got. destruct (IH s1 w1 ps Hs1 Hf E) as (received & ps' & s' & w' & -> & Hs' & -> & E'). rewrite mbind_Ok.
    by exists received, ps', s', w'.
Qed.

(** With everything read, nothing whole is held back. *)
Lemma partial_not_whole s ps : recv_ok s -> Forall frameable ps -> partial s = frames ps -> ps = [].
Proof.
  intros (Hb & Hp & Hz) Hf E. destruct ps as [|p ps]; [done|exfalso]. apply Forall_inv in Hf as [Hl _].
  unfold frames in E. cbn [map concat] in E. fold (frames ps) in E. unfold partial in E.
  destruct (size s =? 0)%nat eqn:Es; boolsplit.
  - apply (f_equal length) in E. cbn in E. rewrite length_take, length_app, frame_length in E. lia.
  - unfold frame in E. rewrite <- app_assoc in E.
    pose proof E as E2. apply app_inj_1 in E2 as [Eh E2]; [|by rewrite !length_be_bytes].
    apply (f_equal be_val) in Eh. rewrite be_val_length, be_val_be_bytes in Eh by lia. change (8 * Z.of_nat 2) with 16 in Eh.
    rewrite wrap_small in Eh by (unfold uint; lia).
    apply (f_equal length) in E2. rewrite length_take, length_app in E2. lia.
Qed.

End Framing.
End Framing.

(** * Theorems *)
Module FramingProperties.
Import Framing.

Section Properties.
Context `{StreamLaws}.

(** A stream that was just accepted: nothing is sent and nothing received. *)
Definition fresh (s : TcpState) : Prop :=
  size s = 0%nat /\ pos s = 0%nat /\ length (buf s) = MAX_RTP_LENGTH /\ outq s = [].

(** C23: Packets cross a stream whole and in order: whatever parts of the frames a blocked stream
    takes, a packet is either dropped before any byte of it is sent or all of it follows, at most
    1501 bytes are ever queued, and a packet whose sending succeeded is not dropped; the other side,
    whatever pieces it reads, gets a prefix of the packets that were not dropped, and all of them
    once nothing is queued and everything was read. *)
Theorem packets_cross_streams sender packets w0 sender' results w1 receiver w2 n :
  fresh sender -> written (stream sender) w0 = [] -> Forall bytes_ok packets ->
  tcp_send_all sender packets w0 = (sender', results, w1) ->
  fresh receiver -> arriving (stream receiver) w2 `prefix_of` written (stream sender') w1 ->
  (length (outq sender') <= 1501)%nat /\
  exists kept received receiver' w3,
    kept `sublist_of` packets /\ sent_whole packets results `sublist_of` kept /\
    tcp_recv_calls n receiver w2 = Ok (received, receiver', w3) /\ received `prefix_of` kept /\
    (outq sender' = [] -> arriving (stream receiver) w2 = written (stream sender') w1 ->
     arriving (stream receiver') w3 = [] -> received = kept).
Proof.
  intros (_ & _ & _ & Hq) Hw Hb E (Hs & Hp & Hl & _) [lost Ha].
  apply tcp_send_all_spec in E as (kept & Ew & Hk & Hd & Hf & Hql); [|rewrite Hq; cbn; lia].
  split; [exact Hql|]. rewrite Hw, Hq in Ew. cbn [app] in Ew.
  assert (Forall frameable kept) as Hkf.
  { rewrite Forall_forall in Hf |- *. intros p Hin. split; [by apply Hf|].
    rewrite Forall_forall in Hb. apply Hb. by eapply elem_of_sublist. }
  assert (recv_ok receiver) as Hr by (unfold recv_ok; rewrite Hs, Hp, Hl; by split_and!; [|cbn; lia|]).
  assert (partial receiver = []) as Hpart by (unfold partial; by rewrite Hs, Hp).
  destruct (tcp_recv_calls_spec (lost ++ outq sender') n receiver w2 kept Hr Hkf) as (received & ps' & s' & w' & E & Hr' & -> & E').
  { by rewrite Hpart, (app_assoc _ lost), <- Ha. }
  exists (received ++ ps'), received, s', w'. split_and!; try done; [by exists ps'|].
  intros Hq' Hall Hnone. rewrite Hall in Ha. rewrite Hq', Hnone in E'.
  assert (lost = []) as -> by (apply (app_inv_head (written (stream sender') w1)); by rewrite app_nil_r, <- Ha).
  rewrite app_nil_r in E'. apply Forall_app in Hkf as [_ Hkf]. apply partial_not_whole in E' as ->; [by rewrite app_nil_r|done..].
Qed.

End Properties.

(** ** A sample: streams that take and give a few bytes at a time *)
Record Pipe := pipe { p_out : bytes; p_accepts : list nat; p_in : bytes; p_chunks : list nat }.

#[local] Instance pipe_os : Os := {|
  World := Pipe;
  syscall A c :=
    match c in Syscall A return Pipe -> IoResult A * Pipe with
    | SysWrite _ buf => fun w =>
        match p_accepts w with
        | [] => (Failed WouldBlock, w)
        | n :: l => (Done (Nat.min n (length buf)), pipe (p_out w ++ take (Nat.min n (length buf)) buf) l (p_in w) (p_chunks w))
        end
    | SysRead _ n => fun w =>
        match p_chunks w with
        | [] => (Failed WouldBlock, w)
        | k :: l => (Done (take (Nat.min k n) (p_in w)), pipe (p_out w) (p_accepts w) (drop (Nat.min k n) (p_in w)) l)
        end
    | _ => fun w => (Failed OtherError, w)
    end;
  clock w i := 0;
  next_id w := (0, w)
|}.

#[local] Instance no_tls : Tls := {|
  ServerConnection := Empty_set;
  tls_new w := (Failed OtherError, w);
  is_handshaking c := match c with end;
  wants_read c := match c with end;
  wants_write c := match c with end;
  read_tls c := match c with end;
  write_tls c := match c with end;
  process_new_packets c := match c with end;
  reader_read c := match c with end;
  writer_write c := match c with end
|}.

#[local] Program Instance pipe_laws : StreamLaws := {|
  os_written _ w := p_out w;
  os_arriving _ w := p_in w;
  tls_written c := match c with end;
  tls_arriving c := match c with end
|}.
Next Obligation.
  intros fd buf w r w'. cbn. destruct (p_accepts w); intros [= <- <-]; [done|]. cbn. split; [lia|done].
Qed.
Next Obligation.
  intros fd n w r w'. cbn. destruct (p_chunks w) as [|k l]; intros [= <- <-]; [done|]. cbn. split; [rewrite length_take; lia|by rewrite take_drop].
Qed.
Next Obligation. intros []. Qed.
Next Obligation. intros []. Qed.
Next Obligation. intros []. Qed.
Next Obligation. intros []. Qed.
Next Obligation. intros []. Qed.
Next Obligation. intros []. Qed.

Definition accepted : TcpState := tcp_state (TcpStream 5) 0 0 (replicate MAX_RTP_LENGTH 0) [] 1 false false.
Definition three_packets : list bytes := [[1; 2; 3]; [4; 5]; [6]].

(** The first packet is cut, the second is dropped, the third is sent whole. *)
Definition blocked : Pipe := pipe [] [3%nat; 1%nat; 100%nat] [] [].
Definition far_end : Pipe := pipe [] [] [0; 3; 1; 2; 3; 0; 1; 6] [1%nat; 1%nat; 2%nat; 1%nat; 5%nat; 5%nat].

Lemma packets_cross_streams_witness :
  sent_whole three_packets [Failed WouldBlock; Failed WouldBlock; Done ()] = [[6]] /\
  exists kept received receiver' w3,
    kept `sublist_of` three_packets /\ [[6]] `sublist_of` kept /\
    tcp_recv_calls 8 accepted far_end = Ok (received, receiver', w3) /\ received `prefix_of` kept.
Proof.
  split; [reflexivity|].
  destruct (tcp_send_all accepted three_packets blocked) as [[sender' results] w1] eqn:E.
  assert (results = [Failed WouldBlock; Failed WouldBlock; Done ()]) as Hr
    by (pose proof (f_equal (fun x => snd (fst x)) E) as E2; cbn [fst snd] in E2; by rewrite <- E2).
  assert (written (stream sender') w1 = p_in far_end) as Hw.
  { pose proof (f_equal (fun x => written (stream (fst (fst x))) (snd x)) E) as E2. cbn [fst snd] in E2. by rewrite <- E2. }
  assert (fresh accepted) as Hf by (split_and!; [reflexivity..|apply length_replicate|reflexivity]).
  assert (arriving (stream accepted) far_end `prefix_of` written (stream sender') w1) as Ha by (rewrite Hw; reflexivity).
  assert (written (stream accepted) blocked = []) as Hw0 by reflexivity.
  assert (Forall bytes_ok three_packets) as Hb by (repeat constructor; unfold uint; lia).
  destruct (packets_cross_streams accepted three_packets blocked sender' results w1 accepted far_end 8
    Hf Hw0 Hb E Hf Ha) as (_ & kept & received & receiver' & w3 & H1 & H2 & H3 & H4 & _).
  exists kept, received, receiver', w3. rewrite Hr in H2. exact (conj H1 (conj H2 (conj H3 H4))).
Defined.

End FramingProperties.
