(* ===== verification/ConnectionMapFacts.v ===== *)
(** * Facts about the connection map

    The invariant of [ConnectionMap] with the sockets of the packet server: each
    socket belongs to one address and each open address to one socket; every
    operation ends without a panic and keeps it. *)
From Stdlib Require Import ZArith Lia.
From stdpp Require Import list gmap.
From S2P Require Import Prelude.
From S2P Require Import Common.
From S2P Require Import Connection.
From S2P Require Import Sockets.
From S2P Require Import ConnectionMap.
From S2P Require Import Framing.

Module MapFacts.
Import Io Sockets ConnectionMap Framing.

Section Facts.
Context `{Tls}.

(** A stream that never panics: its buffer is whole and what was read are bytes. *)
Definition tcp_ok (s : TcpState) : Prop := recv_ok s /\ bytes_ok (partial s).

Definition socket_ok (s : Socket) : Prop :=
  match s with
  | UdpSocket _ => True
  | TcpSocket state => tcp_ok state
  end.

(** The address a socket may stand for. *)
Definition serves (s : Socket) (a : SocketLocator) : Prop :=
  match s with
  | UdpSocket _ => is_udp a = true
  | TcpSocket state => locator state = a
  end.

(** [s'] is [s] after it was used. *)
Definition same_socket (s s' : Socket) : Prop :=
  as_raw_fd s' = as_raw_fd s /\ (forall a, serves s a -> serves s' a) /\ (socket_ok s -> socket_ok s').

Lemma same_socket_refl s : same_socket s s.
Proof. by split_and!. Qed.

Abbreviation Map := (ConnectionMap.t Socket).

Definition fd_of (st : ConnectionState RawFd) : option RawFd :=
  match st with
  | New fd | Connected fd => Some fd
  | NotYetConnected | Closed _ => None
  end.

(** [a] is open, on the socket [s]. *)
Definition open_on (m : Map) (a : SocketLocator) (s : Socket) : Prop :=
  by_peer_addr m !! a ≫= fd_of = Some (as_raw_fd s) /\ by_fd m !! as_raw_fd s = Some s /\ serves s a.

Record map_ok (m : Map) : Prop := {
  mo_fd fd s : by_fd m !! fd = Some s -> as_raw_fd s = fd /\ socket_ok s /\ exists a, open_on m a s;
  mo_addr a fd : by_peer_addr m !! a ≫= fd_of = Some fd -> exists s, open_on m a s;
  mo_there a : by_peer_addr m !! a <> Some NotYetConnected;
  mo_one a a' s : open_on m a s -> open_on m a' s -> a = a';
  mo_new a fd : by_peer_addr m !! a = Some (New fd) -> is_udp a = false;
  mo_ttl a : is_Some (inactive_ttls m !! a) <-> exists fd, by_peer_addr m !! a = Some (New fd)
}.

Lemma new_map_ok : map_ok ConnectionMap.new.
Proof.
  split; cbn; try done; intros; try (rewrite lookup_empty in *; done).
  - match goal with H : open_on _ _ _ |- _ => by destruct H as (_ & Hs & _); cbn in Hs; rewrite lookup_empty in Hs end.
  - rewrite !lookup_empty. split; [by intros []|by intros []].
Qed.

Lemma get_by_addr_ok m a : map_ok m ->
  exists st, get_by_addr m a = Ok st /\
    match st with
    | New s => open_on m a s /\ by_peer_addr m !! a = Some (New (as_raw_fd s))
    | Connected s => open_on m a s /\ by_peer_addr m !! a = Some (Connected (as_raw_fd s))
    | Closed t => by_peer_addr m !! a = Some (Closed t)
    | NotYetConnected => by_peer_addr m !! a = None
    end.
Proof.
  intros Hok. unfold get_by_addr. pose proof (mo_addr m Hok a) as Ha. pose proof (mo_there m Hok a) as Ht.
  destruct (by_peer_addr m !! a) as [[|fd|fd|t]|] eqn:E; cbn in *; [done| | |by eexists|by eexists].
  all: destruct (Ha fd eq_refl) as (s & Ho); pose proof Ho as (E2 & E3 & _); rewrite E in E2; injection E2 as ->.
  all: rewrite E3; cbn; by eexists.
Qed.

(** A socket is put back after it was used. *)
Lemma put_ok m s s' : map_ok m -> by_fd m !! as_raw_fd s = Some s -> same_socket s s' ->
  map_ok (m <| by_fd ::= <[as_raw_fd s' := s']> |>).
Proof.
  intros Hok Hs (Hfd & Hserves & Hsok). rewrite Hfd. set (m' := m <| by_fd ::= <[as_raw_fd s := s']> |>).
  assert (forall a t, open_on m a t -> open_on m' a (if as_raw_fd t =? as_raw_fd s then s' else t)) as Hto.
  { intros a t (E1 & E2 & E3). destruct (Z.eqb_spec (as_raw_fd t) (as_raw_fd s)) as [E|E].
    - assert (t = s) as -> by congruence. unfold open_on, m'. cbn. rewrite Hfd, lookup_insert_eq. auto.
    - unfold open_on, m'. cbn. rewrite lookup_insert_ne by done. done. }
  assert (forall a t, open_on m' a t -> exists t0, open_on m a t0 /\ as_raw_fd t0 = as_raw_fd t) as Hof.
  { intros a t (E1 & E2 & E3). unfold m' in E1. cbn in E1. destruct (mo_addr m Hok a _ E1) as [t0 Ht0]. exists t0. split; [done|].
    destruct Ht0 as [E4 _]. congruence. }
  split.
  - intros fd t E. unfold m' in E. cbn in E. apply lookup_insert_Some in E as [[<- <-]|[Hne E]].
    + destruct (mo_fd m Hok _ _ Hs) as (_ & Hk & a & Ha). split_and!; [done|auto|]. exists a.
      specialize (Hto a s Ha). by rewrite Z.eqb_refl in Hto.
    + destruct (mo_fd m Hok _ _ E) as (<- & Hk & a & Ha). split_and!; [done|auto|]. exists a.
      specialize (Hto a t Ha). by rewrite (proj2 (Z.eqb_neq _ _)) in Hto by congruence.
  - intros a fd E. destruct (mo_addr m Hok a fd E) as [t Ht]. eauto.
  - exact (mo_there m Hok).
  - intros a a' t Ha Ha'. apply Hof in Ha as (t1 & H1 & E1), Ha' as (t2 & H2 & E2).
    assert (t1 = t2) as -> by (destruct H1 as (_ & ? & _), H2 as (_ & ? & _); congruence). by eapply mo_one.
  - exact (mo_new m Hok).
  - exact (mo_ttl m Hok).
Qed.

(** An address that loses its socket, or never had one. *)
Lemma shut_ok m a s st ttls : map_ok m -> open_on m a s -> st <> Some NotYetConnected -> st ≫= fd_of = None ->
  (forall b, ttls !! b = if decide (b = a) then None else inactive_ttls m !! b) ->
  map_ok (mk (delete (as_raw_fd s) (by_fd m)) (partial_alter (fun _ => st) a (by_peer_addr m)) ttls).
Proof.
  intros Hok Ho Hst Hfd Ht. set (m' := mk _ _ _).
  assert (forall b t, b <> a -> open_on m b t -> open_on m' b t) as Hto.
  { intros b t Hb (E1 & E2 & E3). assert (as_raw_fd t <> as_raw_fd s) as Hne.
    { intros E. rewrite E in E2. destruct Ho as (E4 & E5 & E6). rewrite E2 in E5. injection E5 as ->.
      apply Hb. by apply (mo_one m Hok b a s). }
    unfold open_on, m'. cbn. rewrite lookup_partial_alter_ne, lookup_delete_ne by done. done. }
  assert (forall b t, open_on m' b t -> b <> a /\ open_on m b t) as Hof.
  { intros b t (E1 & E2 & E3). unfold m' in E1, E2. cbn in E1, E2. destruct (decide (b = a)) as [->|Hb].
    - rewrite lookup_partial_alter_eq in E1. congruence.
    - rewrite lookup_partial_alter_ne in E1 by done. apply lookup_delete_Some in E2 as [_ E2]. split; [done|]. by split_and!. }
  split; cbn.
  - intros fd t [Hne E]%lookup_delete_Some. destruct (mo_fd m Hok _ _ E) as (<- & Hk & b & Hb). split_and!; [done..|].
    exists b. apply Hto; [|done]. intros ->. destruct Hb as [E1 _], Ho as [E2 _]. congruence.
  - intros b fd E. destruct (decide (b = a)) as [->|Hb]; [rewrite lookup_partial_alter_eq in E; congruence|].
    rewrite lookup_partial_alter_ne in E by done. destruct (mo_addr m Hok b fd E) as [t Ht']. eauto.
  - intros b. destruct (decide (b = a)) as [->|Hb]; [by rewrite lookup_partial_alter_eq|].
    rewrite lookup_partial_alter_ne by done. apply (mo_there m Hok).
  - intros b b' t [_ H1]%Hof [_ H2]%Hof. by eapply mo_one.
  - intros b fd. destruct (decide (b = a)) as [->|Hb]; [rewrite lookup_partial_alter_eq; intros ->; done|].
    rewrite lookup_partial_alter_ne by done. apply (mo_new m Hok).
  - intros b. rewrite Ht. case_decide as Hb.
    + subst b. rewrite lookup_partial_alter_eq. split; [by intros []|]. intros [fd ->]. done.
    + rewrite lookup_partial_alter_ne by done. apply (mo_ttl m Hok).
Qed.

Lemma not_new_no_ttl m a : map_ok m -> (forall fd, by_peer_addr m !! a <> Some (New fd)) -> inactive_ttls m !! a = None.
Proof. intros Hok Hn. apply eq_None_not_Some. intros [fd E]%(mo_ttl m Hok). by apply (Hn fd). Qed.

(** UDP addresses that are closed stay so. *)
Definition closed_stay (m m' : Map) : Prop :=
  forall a t, is_udp a = true -> by_peer_addr m !! a = Some (Closed t) -> by_peer_addr m' !! a = Some (Closed t).

Lemma closed_stay_refl m : closed_stay m m.
Proof. by intros a t _ E. Qed.

Lemma closed_stay_trans m1 m2 m3 : closed_stay m1 m2 -> closed_stay m2 m3 -> closed_stay m1 m3.
Proof. intros H1 H2 a t Hu E. by apply H2, H1. Qed.

Lemma map_mark_closed_ok m a now : map_ok m ->
  exists m' o, ConnectionMap.mark_closed m a now = Ok (m', o) /\ map_ok m' /\ closed_stay m m' /\
    by_peer_addr m' !! a ≫= fd_of = None /\
    (forall b, by_peer_addr m' !! b = by_peer_addr m !! b \/ b = a /\ is_Some (by_peer_addr m !! b ≫= fd_of) /\ by_peer_addr m' !! b = Some (Closed now)) /\
    match o with
    | Some s => open_on m a s /\ by_fd m' = delete (as_raw_fd s) (by_fd m)
    | None => m' = m
    end.
Proof.
  intros Hok. unfold ConnectionMap.mark_closed. pose proof (mo_addr m Hok a) as Ha. pose proof (mo_there m Hok a) as Hth.
  destruct (by_peer_addr m !! a) as [[|fd|fd|t]|] eqn:E; [done| | | |]; cbn in Ha.
  1, 2: destruct (Ha fd eq_refl) as (s & Ho); pose proof Ho as (E1 & E2 & _); rewrite E in E1; injection E1 as ->;
    rewrite E2; eexists _, (Some s); (split; [reflexivity|]); cbn.
  - split_and!; [apply (shut_ok m a s (Some (Closed now))); try done| | | |done|done].
    + intros b. cbn. case_decide as Hb; [subst; apply lookup_delete_eq|by rewrite lookup_delete_ne].
    + intros b t _ Eb. cbn. rewrite lookup_insert_ne; [done|]. intros <-. congruence.
    + cbn. by rewrite lookup_insert_eq.
    + intros b. cbn. destruct (decide (b = a)) as [->|Hb]; [rewrite lookup_insert_eq, E; right; by split_and!; [|eexists|]|rewrite lookup_insert_ne by done; auto].
  - split_and!; [apply (shut_ok m a s (Some (Closed now))); try done| | | |done|done].
    + intros b. case_decide as Hb; [subst|done]. cbn. apply (not_new_no_ttl m); [done|]. intros fd. by rewrite E.
    + intros b t _ Eb. cbn. rewrite lookup_insert_ne; [done|]. intros <-. congruence.
    + cbn. by rewrite lookup_insert_eq.
    + intros b. cbn. destruct (decide (b = a)) as [->|Hb]; [rewrite lookup_insert_eq, E; right; by split_and!; [|eexists|]|rewrite lookup_insert_ne by done; auto].
  - exists m, None. split_and!; [done..|apply closed_stay_refl|by rewrite E|by left|done].
  - exists m, None. split_and!; [done..|apply closed_stay_refl|by rewrite E|by left|done].
Qed.

Lemma map_mark_as_active_ok m a : map_ok m ->
  map_ok (ConnectionMap.mark_as_active m a) /\ closed_stay m (ConnectionMap.mark_as_active m a) /\
  by_fd (ConnectionMap.mark_as_active m a) = by_fd m.
Proof.
  intros Hok. unfold ConnectionMap.mark_as_active. cbn.
  destruct (by_peer_addr m !! a) as [[|fd|fd|t]|] eqn:E.
  1, 3, 4, 5: assert (inactive_ttls m !! a = None) as Hn by (apply not_new_no_ttl; [done|intros fd'; by rewrite E]);
    (assert (m <| inactive_ttls ::= delete a |> = m) as ->
       by (destruct m as [fds addrs ttls]; unfold set_field; cbn in *; by rewrite delete_id));
    split_and!; [done|apply closed_stay_refl|done].
  set (m' := _ <| by_peer_addr ::= _ |>).
  assert (forall b, by_peer_addr m' !! b ≫= fd_of = by_peer_addr m !! b ≫= fd_of) as Hb.
  { intros b. unfold m'. cbn. destruct (decide (b = a)) as [->|Hb]; [by rewrite lookup_insert_eq, E|by rewrite lookup_insert_ne]. }
  assert (forall b t, open_on m' b t <-> open_on m b t) as Ho.
  { intros b t. unfold open_on. rewrite Hb. done. }
  split_and!; [split| |done].
  - intros fd' t Et. destruct (mo_fd m Hok _ _ Et) as (<- & Hk & b & Hbt). split_and!; [done..|]. exists b. by apply Ho.
  - intros b fd' Eb. rewrite Hb in Eb. destruct (mo_addr m Hok b fd' Eb) as [t Ht]. exists t. by apply Ho.
  - intros b. unfold m'. cbn. destruct (decide (b = a)) as [->|Hne]; [by rewrite lookup_insert_eq|].
    rewrite lookup_insert_ne by done. apply (mo_there m Hok).
  - intros b b' t H1%Ho H2%Ho. by eapply mo_one.
  - intros b fd'. unfold m'. cbn. destruct (decide (b = a)) as [->|Hne]; [by rewrite lookup_insert_eq|].
    rewrite lookup_insert_ne by done. apply (mo_new m Hok).
  - intros b. unfold m'. cbn. destruct (decide (b = a)) as [->|Hne].
    + rewrite lookup_delete_eq, lookup_insert_eq. split; [by intros []|]. by intros [].
    + rewrite lookup_delete_ne, lookup_insert_ne by done. apply (mo_ttl m Hok).
  - intros b t _ Eb. unfold m'. cbn. rewrite lookup_insert_ne; [done|]. intros <-. congruence.
Qed.

(** A new socket, for an address that is not open. *)
Lemma insert_ok m s a st ttls : map_ok m -> by_fd m !! as_raw_fd s = None -> socket_ok s -> serves s a ->
  by_peer_addr m !! a ≫= fd_of = None ->
  st = (if is_udp a then Connected (as_raw_fd s) else New (as_raw_fd s)) ->
  (forall b, is_Some (ttls !! b) <-> exists fd', <[a := st]> (by_peer_addr m) !! b = Some (New fd')) ->
  let m' := mk (<[as_raw_fd s := s]> (by_fd m)) (<[a := st]> (by_peer_addr m)) ttls in
  map_ok m' /\ open_on m' a s.
Proof.
  intros Hok Hf Hs Hserves Ha Hst Httl m'.
  assert (fd_of st = Some (as_raw_fd s)) as Hst' by (rewrite Hst; by destruct (is_udp a)).
  assert (open_on m' a s) as Hoa by (unfold open_on, m'; cbn; by rewrite !lookup_insert_eq).
  assert (forall b t, open_on m b t -> b <> a /\ open_on m' b t) as Hto.
  { intros b t (E1 & E2 & E3). assert (b <> a) by congruence. split; [done|].
    unfold open_on, m'. cbn. rewrite !lookup_insert_ne by (congruence || intros E; rewrite <- E in E2; congruence). done. }
  assert (forall b t, open_on m' b t -> b = a /\ t = s \/ open_on m b t) as Hof.
  { intros b t (E1 & E2 & E3). unfold m' in E1, E2. cbn in E1, E2. destruct (decide (b = a)) as [->|Hb].
    - rewrite lookup_insert_eq in E1. cbn in E1. rewrite Hst' in E1. injection E1 as E1. rewrite <- E1, lookup_insert_eq in E2.
      injection E2 as <-. by left.
    - rewrite lookup_insert_ne in E1 by done. right. split_and!; [done| |done].
      destruct (mo_addr m Hok b _ E1) as (t0 & E4 & E5 & E6). assert (as_raw_fd t <> as_raw_fd s) as Hne by congruence.
      by rewrite lookup_insert_ne in E2. }
  split; [|done]. split.
  - intros fd' t E. unfold m' in E. cbn in E. apply lookup_insert_Some in E as [[<- <-]|[Hne E]].
    + split_and!; [done..|]. by exists a.
    + destruct (mo_fd m Hok _ _ E) as (<- & Hk & b & Hb). split_and!; [done..|]. exists b. by apply Hto.
  - intros b fd' E. unfold m' in E. cbn in E. destruct (decide (b = a)) as [->|Hb]; [by exists s|].
    rewrite lookup_insert_ne in E by done. destruct (mo_addr m Hok b fd' E) as [t Ht]. exists t. by apply Hto.
  - intros b. unfold m'. cbn. destruct (decide (b = a)) as [->|Hb].
    + rewrite lookup_insert_eq, Hst. by destruct (is_udp a).
    + rewrite lookup_insert_ne by done. apply (mo_there m Hok).
  - assert (forall b, open_on m b s -> False) as Hno by (intros b (_ & E & _); by rewrite E in Hf).
    intros b b' t H1 H2. apply Hof in H1 as [[-> ->]|H1], H2 as [[-> E]|H2]; [done| | |by eapply mo_one].
    + by apply Hno in H2.
    + subst t. by apply Hno in H1.
  - intros b fd'. unfold m'. cbn. destruct (decide (b = a)) as [->|Hb].
    + rewrite lookup_insert_eq, Hst. by destruct (is_udp a).
    + rewrite lookup_insert_ne by done. apply (mo_new m Hok).
  - exact Httl.
Qed.

Lemma insert_socket_ok m s a tick : map_ok m -> by_fd m !! as_raw_fd s = None -> socket_ok s -> serves s a ->
  by_peer_addr m !! a ≫= fd_of = None -> (is_udp a = false -> is_Some tick) ->
  exists m', insert_socket as_raw_fd m s a tick = Ok (m', s) /\ map_ok m' /\ by_fd m' = <[as_raw_fd s := s]> (by_fd m) /\
    (forall b, b <> a -> by_peer_addr m' !! b = by_peer_addr m !! b) /\ open_on m' a s.
Proof.
  intros Hok Hf Hs Hserves Ha Htick. unfold insert_socket. cbn. rewrite Hf.
  assert (inactive_ttls m !! a = None) as Hn.
  { apply not_new_no_ttl; [done|]. intros fd' E. by rewrite E in Ha. }
  rewrite Hn. pose proof (insert_ok m s a (if is_udp a then Connected (as_raw_fd s) else New (as_raw_fd s))) as Hall. destruct (is_udp a) eqn:Eu.
  - eexists. split; [reflexivity|]. destruct (Hall (inactive_ttls m) Hok Hf Hs Hserves Ha eq_refl) as [H1 H2].
    { intros b. rewrite (mo_ttl m Hok). destruct (decide (b = a)) as [->|Hb]; [|by rewrite lookup_insert_ne].
      rewrite lookup_insert_eq. split; [|by intros []]. intros [fd' E]. by rewrite E in Ha. }
    split_and!; [exact H1|done| |exact H2]. intros b Hb. cbn. by rewrite lookup_insert_ne.
  - destruct Htick as [tk ->]; [done|]. eexists. split; [reflexivity|].
    destruct (Hall (<[a := u64 (TCP_INACTIVE_CONNECTION_TTL_TICKS + tk)]> (inactive_ttls m)) Hok Hf Hs Hserves Ha eq_refl) as [H1 H2].
    { intros b. destruct (decide (b = a)) as [->|Hb]; [rewrite !lookup_insert_eq; split; eauto|].
      rewrite !lookup_insert_ne by done. apply (mo_ttl m Hok). }
    split_and!; [exact H1|done| |exact H2]. intros b Hb. cbn. by rewrite lookup_insert_ne.
Qed.

Lemma remove_closed_ok m a : map_ok m ->
  exists m', remove_closed m a = Ok m' /\ map_ok m' /\ by_fd m' = by_fd m /\
    (forall b, b <> a -> by_peer_addr m' !! b = by_peer_addr m !! b).
Proof.
  intros Hok. unfold remove_closed. pose proof (mo_there m Hok a) as Hth.
  destruct (by_peer_addr m !! a) as [[|fd|fd|t]|] eqn:E; [done| | | |by exists m].
  1, 2: exists m; split_and!; try done; f_equal; destruct m; unfold set_field; cbn in *; by rewrite insert_delete_eq, insert_id.
  eexists. split; [reflexivity|]. set (m' := m <| by_peer_addr ::= _ |>).
  assert (forall b, by_peer_addr m' !! b ≫= fd_of = by_peer_addr m !! b ≫= fd_of) as Hb.
  { intros b. unfold m'. cbn. destruct (decide (b = a)) as [->|Hb]; [by rewrite lookup_delete_eq, E|by rewrite lookup_delete_ne]. }
  assert (forall b t, open_on m' b t <-> open_on m b t) as Ho.
  { intros b u. unfold open_on. rewrite Hb. done. }
  split_and!; [split|done|].
  - intros fd' u Et. destruct (mo_fd m Hok _ _ Et) as (<- & Hk & b & Hbt). split_and!; [done..|]. exists b. by apply Ho.
  - intros b fd' Eb. rewrite Hb in Eb. destruct (mo_addr m Hok b fd' Eb) as [u Hu]. exists u. by apply Ho.
  - intros b. unfold m'. cbn. destruct (decide (b = a)) as [->|Hne]; [by rewrite lookup_delete_eq|].
    rewrite lookup_delete_ne by done. apply (mo_there m Hok).
  - intros b b' u H1%Ho H2%Ho. by eapply mo_one.
  - intros b fd'. unfold m'. cbn. destruct (decide (b = a)) as [->|Hne]; [by rewrite lookup_delete_eq|].
    rewrite lookup_delete_ne by done. apply (mo_new m Hok).
  - intros b. unfold m'. cbn. rewrite (mo_ttl m Hok). destruct (decide (b = a)) as [->|Hne]; [|by rewrite lookup_delete_ne].
    rewrite lookup_delete_eq, E. split; by intros [].
  - intros b Hne. cbn. by rewrite lookup_delete_ne.
Qed.

Lemma closed_connections_ok m l : map_ok m -> (forall e, e ∈ l -> by_peer_addr m !! e.1 = Some e.2) ->
  exists closed, closed_connections l = Ok closed /\ forall a t, (a, t) ∈ closed <-> (a, Closed t) ∈ l.
Proof.
  intros Hok. induction l as [|[a st] l IH]; intros Hl; cbn.
  { exists []. split; [done|]. intros a t. by rewrite !elem_of_nil. }
  destruct IH as (closed & -> & Hc); [intros e He; apply Hl; by right|]. cbn.
  pose proof (mo_there m Hok a) as Ht. pose proof (Hl (a, st) ltac:(by left)) as Ha. cbn in Ha. rewrite Ha in Ht.
  destruct st as [|fd|fd|t]; [done| | |].
  1, 2: exists closed; split; [done|]; intros b u; rewrite elem_of_cons, Hc; naive_solver.
  exists ((a, t) :: closed). split; [done|]. intros b u. rewrite !elem_of_cons, Hc. naive_solver.
Qed.
End Facts.
End MapFacts.
