(* ===== verification/SocketFacts.v ===== *)
(** * Facts about sockets

    What the operating system and the TLS library promise about descriptors and
    about what they read ([IoLaws]), and that the sockets of the packet server
    then never panic and stay the sockets they are. *)
From Stdlib Require Import ZArith Lia.
From stdpp Require Import list gmap.
From S2P Require Import Prelude.
From S2P Require Import Common.
From S2P Require Import Connection.
From S2P Require Import Sockets.
From S2P Require Import ConnectionMap.
From S2P Require Import PacketServer.
From S2P Require Import Framing.
From S2P Require Import ConnectionMapFacts.

Import Io Sockets Framing MapFacts.

(** The descriptor a call opens, given its answer, and the one it closes. *)
Definition opens {A} (c : Syscall A) : A -> option RawFd :=
  match c in Syscall A return A -> option RawFd with
  | SysSocket _ _ => Some
  | SysAccept _ => fun r => Some r.1
  | SysEpollCreate => Some
  | SysTimerCreate => Some
  | _ => fun _ => None
  end.

Definition closes {A} (c : Syscall A) : option RawFd :=
  match c with
  | SysClose fd => Some fd
  | _ => None
  end.

(** The descriptors of the process after a call. *)
Definition after_call {A} (c : Syscall A) (r : IoResult A) (fds fds' : gset RawFd) : Prop :=
  match closes c with
  | Some fd => fds' = fds ∖ {[fd]}
  | None =>
      match r with
      | Done a =>
          match opens c a with
          | Some fd => 0 <= fd /\ fd ∉ fds /\ fds' = {[fd]} ∪ fds
          | None => fds' = fds
          end
      | Failed _ => fds' = fds
      end
  end.

Class IoLaws `{StreamLaws} := {
  open_fds : World -> gset RawFd;
  syscall_fds {A} (c : Syscall A) w r w' : syscall c w = (r, w') -> after_call c r (open_fds w) (open_fds w');
  next_id_fds w i w' : next_id w = (i, w') -> open_fds w' = open_fds w;
  tls_new_fds w r w' : tls_new w = (r, w') -> open_fds w' = open_fds w;
  read_tls_fds c fd w r c' w' : read_tls c fd w = (r, c', w') -> open_fds w' = open_fds w;
  write_tls_fds c fd w r c' w' : write_tls c fd w = (r, c', w') -> open_fds w' = open_fds w;
  nonblocking_ok fd w r w' : syscall (SysNonblocking fd) w = (r, w') -> fd ∈ open_fds w -> r = Done ();
  sys_recv_bytes fd n w got a w' : syscall (SysRecvFrom fd n) w = (Done (got, a), w') -> bytes_ok got;
  stream_bound : nat;
  arriving_bound s w : (length (arriving s w) <= stream_bound)%nat /\ bytes_ok (arriving s w)
}.

Module SocketFacts.

Section Facts.
Context `{IoLaws}.

(** A call that neither opens nor closes. *)
Lemma syscall_same {A} (c : Syscall A) w r w' : syscall c w = (r, w') -> closes c = None ->
  (forall a, opens c a = None) -> open_fds w' = open_fds w.
Proof.
  intros E Hc Ho. apply syscall_fds in E. unfold after_call in E. rewrite Hc in E. destruct r; [|done]. by rewrite Ho in E.
Qed.

Lemma drop_socket_fds o w : open_fds (PacketServer.drop_socket o w) =
  match o with Some s => open_fds w ∖ {[as_raw_fd s]} | None => open_fds w end.
Proof.
  destruct o as [s|]; [|done]. cbn. destruct (syscall _ w) as [r w'] eqn:E. by apply syscall_fds in E.
Qed.

(** ** Streams *)

Lemma write_if_fds (b : bool) c fd w r c' w' :
  (if b then write_tls c fd w else (Done 0%nat, c, w)) = (r, c', w') -> open_fds w' = open_fds w.
Proof. destruct b; [apply write_tls_fds|by intros [= _ _ <-]]. Qed.

Lemma read_keeps s n w r s' w' : read s n w = (r, s', w') -> open_fds w' = open_fds w /\ stream_fd s' = stream_fd s.
Proof.
  destruct s as [fd|c fd]; cbn [read].
  { destruct (syscall _ w) as [r1 w1] eqn:E. intros [= <- <- <-]. split; [by apply (syscall_same _ _ _ _ E)|done]. }
  destruct (if wants_read c then _ else _) as [[r1 c1] w1] eqn:E1.
  assert (open_fds w1 = open_fds w) as Hw1 by (destruct (wants_read c); [by eapply read_tls_fds|by injection E1 as _ _ <-]).
  destruct r1 as [|e]; [|by intros [= <- <- <-]].
  destruct (process_new_packets c1) as [[[]|e] c2] eqn:E2.
  - destruct (if _ && _ then _ else _) as [[r3 c3] w3] eqn:E3. apply write_if_fds in E3.
    destruct (reader_read c3 n) as [r4 c4]. intros [= <- <- <-]. split; [congruence|done].
  - destruct (if wants_write c2 then _ else _) as [[r3 c3] w3] eqn:E3. apply write_if_fds in E3.
    intros [= <- <- <-]. split; [congruence|done].
Qed.

Lemma write_vectored_keeps s bufs w r s' w' : write_vectored s bufs w = (r, s', w') ->
  open_fds w' = open_fds w /\ stream_fd s' = stream_fd s.
Proof.
  destruct s as [fd|c fd]; cbn [write_vectored].
  - destruct (syscall _ w) as [r1 w1] eqn:E. intros [= <- <- <-]. split; [by apply (syscall_same _ _ _ _ E)|done].
  - destruct (writer_write c _) as [r1 c1]. destruct (write_tls c1 fd w) as [[r2 c2] w2] eqn:E2.
    intros [= <- <- <-]. split; [by eapply write_tls_fds|done].
Qed.

(** ** Sending *)

(** Sending leaves everything but the stream and the queue. *)
Definition sends_only (s s' : TcpState) : Prop :=
  stream_fd (stream s') = stream_fd (stream s) /\ size s' = size s /\ pos s' = pos s /\ buf s' = buf s /\ locator s' = locator s.

Lemma keep_rest_only s h p sent s' r : keep_rest s h p sent = (s', r) -> sends_only s s'.
Proof. destruct sent as [|[|n]]; cbn [keep_rest]; [| |case_if]; intros [= <- _]; done. Qed.

Lemma tcp_send_keeps s p w s' r w' : tcp_send s p w = (s', r, w') -> open_fds w' = open_fds w /\ sends_only s s'.
Proof.
  unfold tcp_send. case_if; [by intros [= <- _ <-]|]. case_if; [by intros [= <- _ <-]|].
  assert (forall bufs r1 s1 w1, write_vectored (stream s) bufs w = (r1, s1, w1) ->
    open_fds w1 = open_fds w /\ sends_only s (s <| stream := s1 |>)) as Hw.
  { intros bufs r1 s1 w1 [Hf Hs]%write_vectored_keeps. done. }
  assert (forall s1 s2 s3 h sent r, sends_only s1 s2 -> keep_rest s2 h p sent = (s3, r) -> sends_only s1 s3) as Hk.
  { intros s1 s2 s3 h sent r0 (? & ? & ? & ? & ?) (? & ? & ? & ? & ?)%keep_rest_only. unfold sends_only. split_and!; congruence. }
  case_if; destruct (write_vectored _ _ w) as [[r1 s1] w1] eqn:Ew; destruct (Hw _ _ _ _ Ew) as [Hf Hs];
    (destruct (sent_or_zero r1) as [sent|e]; [|by intros [= <- _ <-]]).
  - destruct (keep_rest _ _ _ _) as [s2 r2] eqn:Ek. intros [= <- _ <-]. split; [done|by eapply Hk].
  - case_if; [by intros [= <- _ <-]|]. case_if; [by intros [= <- _ <-]|].
    destruct (keep_rest _ _ _ _) as [s2 r2] eqn:Ek. intros [= <- _ <-]. split; [done|]. eapply Hk; [|exact Ek]. exact Hs.
Qed.

Lemma socket_send_keeps s p w s' r w' : socket_send s p w = (s', r, w') -> open_fds w' = open_fds w /\ same_socket s s'.
Proof.
  destruct s as [fd|s]; cbn [socket_send].
  - destruct (syscall _ w) as [r1 w1] eqn:E. intros [= <- _ <-]. split; [by apply (syscall_same _ _ _ _ E)|apply same_socket_refl].
  - destruct (tcp_send s p w) as [[s1 r1] w1] eqn:E. intros [= <- _ <-].
    apply tcp_send_keeps in E as [Hf (E1 & E2 & E3 & E4 & E5)]. split; [done|]. split_and!; [done|cbn; congruence|].
    cbn. unfold tcp_ok, recv_ok, partial. by rewrite E2, E3, E4.
Qed.

(** ** Receiving *)

Lemma read_into_keeps s upto w s' r w' : read_into s upto w = Ok (s', r, w') ->
  open_fds w' = open_fds w /\ stream_fd (stream s') = stream_fd (stream s).
Proof.
  unfold read_into. case_if; [|done]. destruct (read _ _ w) as [[r1 s1] w1] eqn:Er. apply read_keeps in Er as [Hw Hfd].
  intros [= E1]. destruct r1; by injection E1 as <- _ <-.
Qed.

Lemma tcp_recv_from_keeps s out w s' out' r w' : tcp_recv_from s out w = Ok (s', out', r, w') ->
  open_fds w' = open_fds w /\ stream_fd (stream s') = stream_fd (stream s).
Proof.
  unfold tcp_recv_from. case_if; [by intros [= <- _ _ <-]|]. intros ([[s1 r1] w1] & E1 & E2)%bind_Ok.
  assert (open_fds w1 = open_fds w /\ stream_fd (stream s1) = stream_fd (stream s)) as [Hw1 Hs1].
  { revert E1. unfold recv_size. case_if; [|by intros [= <- _ <-]].
    intros ([[s2 r2] w2] & E3%read_into_keeps & E4)%bind_Ok. destruct r2 as [n|e]; [|by injection E4 as <- _ <-].
    case_if_in E4; [by injection E4 as <- _ <-|]. destruct (_ ?= _)%nat; [|by injection E4 as <- _ <-..].
    apply bind_Ok in E4 as (h & _ & [= <- _ <-]). done. }
  destruct r1 as [[]|e]; [|by injection E2 as <- _ _ <-].
  revert E2. unfold recv_body. case_if; [by intros [= <- _ _ <-]|]. case_if; [by intros [= <- _ _ <-]|].
  intros ([[s2 r2] w2] & E3%read_into_keeps & E4)%bind_Ok. rewrite Hw1, Hs1 in E3. destruct r2 as [n|e]; [|by injection E4 as <- _ _ <-].
  case_if_in E4; [by injection E4 as <- _ _ <-|]. case_if_in E4; [|by injection E4 as <- _ _ <-].
  apply bind_Ok in E4 as (p & _ & E4). apply bind_Ok in E4 as (o & _ & [= <- _ _ <-]). done.
Qed.

(** What there is still to receive on a socket. *)
Definition to_receive (s : Socket) (w : World) : nat :=
  match s with
  | UdpSocket _ => 0
  | TcpSocket state => length (partial state) + length (arriving (stream state) w)
  end.

(** A socket receives without a panic; each packet of a stream makes what is left less. *)
Lemma socket_recv_from_ok s out w : socket_ok s -> length out = MAX_RTP_LENGTH ->
  exists s' out' r w', socket_recv_from s out w = Ok (s', out', r, w') /\ open_fds w' = open_fds w /\
    length out' = MAX_RTP_LENGTH /\ same_socket s s' /\ socket_ok s' /\
    match r with
    | Done (n, a) => (n <= MAX_RTP_LENGTH)%nat /\ bytes_ok (take n out') /\ serves s a /\
        (has_pending_data s' = true -> to_receive s' w' < to_receive s w)%nat
    | Failed _ => True
    end.
Proof.
  intros Hs Ho. destruct s as [fd|s]; cbn [socket_recv_from].
  - destruct (syscall _ w) as [r w1] eqn:E. eexists _, _, _, _. split; [reflexivity|].
    split; [by apply (syscall_same _ _ _ _ E)|]. destruct r as [[got a]|e].
    + split; [rewrite length_app, length_take, length_drop; lia|]. split; [apply same_socket_refl|]. split; [done|].
      split_and!; [rewrite length_take; lia| |done|done]. rewrite take_app_length. apply Forall_take. by eapply sys_recv_bytes.
    + split; [done|]. split; [apply same_socket_refl|]. done.
  - destruct Hs as [Hr Hb].
    destruct (tcp_recv_from_spec s out w) as (s1 & out1 & r & w1 & skipped & got & E & Hr1 & Hl1 & Ho1 & Heq & Ht & Hskip); [done..| |].
    { apply Forall_app_2; [done|apply arriving_bound]. }
    pose proof (tcp_recv_from_keeps _ _ _ _ _ _ _ E) as [Hw Hfd].
    assert (bytes_ok (got ++ partial s1)) as Hb1.
    { assert (bytes_ok (skipped ++ got ++ partial s1 ++ arriving (stream s1) w1)) as Hb1 by (rewrite <- Heq; apply Forall_app_2; [done|apply arriving_bound]).
      apply Forall_app in Hb1 as [_ Hb1]. rewrite app_assoc in Hb1. by apply Forall_app in Hb1 as [Hb1 _]. }
    apply Forall_app in Hb1 as [Hg Hp1]. rewrite E. cbn [mbind Res_bind]. eexists _, _, _, _. split; [reflexivity|].
    split; [done|]. split; [done|]. split; [|split; [done|]].
    + split_and!; [done|intros a Ha; cbn in Ha |- *; congruence|done].
    + destruct r as [[n a]|e]; [|done]. cbn in Ht. destruct Ht as (-> & Hn & ->). split_and!; [lia| |done|].
      * unfold frame in Hg. by apply Forall_app in Hg as [_ Hg].
      * intros _. apply (f_equal length) in Heq. rewrite !length_app, frame_length in Heq. cbn. lia.
Qed.

Lemma to_receive_bound s w : socket_ok s -> (to_receive s w <= 2 + MAX_RTP_LENGTH + stream_bound)%nat.
Proof.
  destruct s as [fd|s]; unfold to_receive; [lia|]. intros [(Hb & _ & _) _]. pose proof (proj1 (arriving_bound (stream s) w)).
  unfold partial. rewrite length_app, length_take. assert (length (if (size s =? 0)%nat then [] else be_bytes 2 (Z.of_nat (size s))) <= 2)%nat
    by (case_if; [cbn; lia|by rewrite length_be_bytes]). lia.
Qed.

Lemma peer_addr_keeps s w r w' : peer_addr s w = (r, w') -> open_fds w' = open_fds w.
Proof.
  destruct s; cbn; [|by intros [= _ <-]]. destruct (syscall _ w) as [r1 w1] eqn:E. intros [= _ <-]. by apply (syscall_same _ _ _ _ E).
Qed.

Lemma take_error_keeps s w r w' : take_error s w = (r, w') -> open_fds w' = open_fds w.
Proof. intros E. by apply (syscall_same _ _ _ _ E). Qed.

(** ** Programs *)

(** With [fd] open, a program does not panic and leaves the descriptors as they are. *)
Definition keeps {A} (fd : RawFd) (m : Io A) : Prop :=
  forall w, fd ∈ open_fds w -> (m w).1 <> Panic /\ open_fds (m w).2 = open_fds w.

Lemma keeps_ret {A} fd (a : A) : keeps fd (mret a).
Proof. done. Qed.

Lemma keeps_sys {A} fd (c : Syscall A) : closes c = None -> (forall a, opens c a = None) -> keeps fd (sys c).
Proof.
  intros Hc Ho w _. unfold sys. destruct (syscall c w) as [r w'] eqn:E. apply syscall_same in E; [|done..]. by destruct r.
Qed.

Lemma keeps_bind {A B} fd (m : Io A) (k : A -> Io B) : keeps fd m -> (forall a, keeps fd (k a)) -> keeps fd (m ≫= k).
Proof.
  intros Hm Hk w Hw. specialize (Hm w Hw) as [Hp Hf]. cbn. unfold mbind, Io_bind. destruct (m w) as [[a|e|] w1]; cbn in *; [|done..].
  rewrite <- Hf in Hw |- *. by apply Hk.
Qed.

Lemma keeps_nonblocking fd : keeps fd (expect (sys (SysNonblocking fd))).
Proof.
  intros w Hw. unfold expect, sys. destruct (syscall _ w) as [r w'] eqn:E. pose proof (nonblocking_ok _ _ _ _ E Hw) as ->.
  by apply syscall_same in E.
Qed.

Lemma keeps_poll fd l s : keeps fd (PacketServer.poll_for_reads l s).
Proof. induction l as [|e l IH]; [apply keeps_ret|]. apply keeps_bind; [by apply keeps_sys|done]. Qed.

(** A program that opens one descriptor, unless it fails. *)
Definition opens_one (m : Io RawFd) : Prop := forall w,
  match m w with
  | (Ok fd, w') => 0 <= fd /\ fd ∉ open_fds w /\ open_fds w' = {[fd]} ∪ open_fds w
  | (Err _, w') => open_fds w' = open_fds w
  | (Panic, _) => False
  end.

Definition returns {A} (a : A) (m : Io A) : Prop := forall w a', (m w).1 = Ok a' -> a' = a.

Lemma returns_ret {A} (a : A) : returns a (mret a).
Proof. by intros w a' [= <-]. Qed.

Lemma returns_bind {A B} (b : B) (m : Io A) (k : A -> Io B) : (forall a, returns b (k a)) -> returns b (m ≫= k).
Proof. intros Hk w b'. unfold mbind, Io_bind. destruct (m w) as [[a|e|] w1]; [apply Hk|done..]. Qed.

Lemma opens_one_socket v4 ty : opens_one (sys (SysSocket v4 ty)).
Proof.
  intros w. unfold sys. destruct (syscall _ w) as [r w1] eqn:E. apply syscall_fds in E. by destruct r.
Qed.

(** A descriptor is opened, and closed when the rest fails. *)
Lemma opens_one_then m (k : RawFd -> Io RawFd) : opens_one m -> (forall fd, keeps fd (k fd) /\ returns fd (k fd)) ->
  opens_one (fd ← m; closing_on_error fd (k fd)).
Proof.
  intros Hm Hk w. specialize (Hm w). unfold mbind, Io_bind. destruct (m w) as [[fd|e|] w1]; [|done..].
  destruct Hm as (Hp & Hn & E). unfold closing_on_error.
  destruct (Hk fd) as [Hkeep Hret]. destruct (Hkeep w1) as [Hok Hw]; [rewrite E; set_solver|]. specialize (Hret w1).
  destruct (k fd w1) as [[fd'|e|] w2]; cbn in *; [| |done].
  - rewrite (Hret fd' eq_refl), Hw. done.
  - destruct (syscall _ w2) as [r w3] eqn:E3. apply syscall_fds in E3. cbn in *. rewrite E3, Hw, E. set_solver.
Qed.

End Facts.
End SocketFacts.

#[export] Hint Resolve SocketFacts.keeps_ret SocketFacts.keeps_sys SocketFacts.keeps_bind SocketFacts.keeps_nonblocking
  SocketFacts.keeps_poll SocketFacts.returns_ret SocketFacts.returns_bind : signal.
