(* ===== verification/TimerHeapFacts.v ===== *)
(** * Facts about the schedule of dequeues

    [TimerHeap] of src/backend/src/packet_server.rs gives back what was scheduled,
    the earliest first, and its timer goes off for the earliest of what is left. *)
From Stdlib Require Import ZArith Lia.
From stdpp Require Import list sorting.
From S2P Require Import Prelude.
From S2P Require Import PacketServer.

Module HeapFacts.
Import TimerHeap.

Section Facts.
Context `{HeapOrder} {A : Type}.
Implicit Types (h : t A) (now : Z).

(** The timer that is set is the time of something scheduled. *)
Definition heap_ok h : Prop := forall time, active_timer h = Some time -> time ∈ map fst (tasks h).

(** How many are due. *)
Definition due now (l : list (Z * A)) : nat := length (filter (fun e => e.1 <= now) l).

Lemma peek_spec h : match peek h with
  | None => tasks h = []
  | Some (time, v) => tasks h ≡ₚ (time, v) :: delete (top_index h) (tasks h) /\ Forall (fun e => time <= e.1) (tasks h)
  end.
Proof.
  unfold peek, top_index. destruct (decide (map fst (tasks h) = [])) as [E|E].
  { destruct (tasks h) eqn:Et; [|done]. by destruct (top _). }
  destruct (top_least _ E) as (z & Hz & Hmin). apply list_lookup_fmap_Some in Hz as ([time v] & -> & Hz). rewrite Hz.
  split; [by apply delete_Permutation|]. by rewrite Forall_fmap in Hmin.
Qed.

Lemma next_spec h now : let '(h', r) := next h now in
  match r with
  | Value v => exists time, time <= now /\ tasks h ≡ₚ (time, v) :: tasks h' /\ Forall (fun e => time <= e.1) (tasks h') /\
      active_timer h' = (if decide (Some time = active_timer h) then None else active_timer h)
  | Wait d => h' = h /\ exists e, e ∈ tasks h /\ e.1 = now + d /\ Forall (fun e => now + d <= e.1) (tasks h) /\ 0 < d
  | WaitForever => h' = h /\ tasks h = []
  end.
Proof.
  unfold next. pose proof (peek_spec h) as Hp. destruct (peek h) as [[time v]|]; [|done]. destruct Hp as [Hperm Hmin]. case_if; boolsplit.
  - exists time. split_and!; [done|done| |done]. cbn. rewrite Hperm in Hmin. by apply Forall_cons in Hmin as [_ Hmin].
  - split; [done|]. rewrite Z.max_r by lia. exists (time, v). replace (now + (time - now)) with time by lia.
    split_and!; [rewrite Hperm; left|done|done|lia].
Qed.

Lemma schedule_all_tasks l : forall h, tasks (schedule_all h l) = tasks h ++ l /\ active_timer (schedule_all h l) = active_timer h.
Proof.
  unfold schedule_all. induction l as [|[time v] l IH]; intros h; cbn [fold_left]; [by rewrite app_nil_r|].
  destruct (IH (schedule h time v)) as [-> ->]. cbn. by rewrite <- app_assoc.
Qed.

Lemma schedule_all_ok h l : heap_ok h -> heap_ok (schedule_all h l).
Proof.
  intros Hok time. destruct (schedule_all_tasks l h) as [-> ->]. intros E%Hok. rewrite map_app. apply elem_of_app. by left.
Qed.

Lemma heap_next_ok h now : heap_ok h -> heap_ok (next h now).1.
Proof.
  intros Hok. pose proof (next_spec h now) as Hs. destruct (next h now) as [h' [v|d|]]; cbn.
  - destruct Hs as (time & _ & Hperm & _ & Ha). intros time' E. rewrite Ha in E. case_decide as Hd; [done|].
    pose proof (Hok time' E) as Hin. rewrite (Permutation_map fst Hperm) in Hin. cbn in Hin.
    apply elem_of_cons in Hin as [->|Hin]; [by destruct Hd|done].
  - by destruct Hs as [-> _].
  - by destruct Hs as [-> _].
Qed.

(** After [set_timer] the timer is that of the earliest task. *)
Lemma set_timer_ok h now : heap_ok h -> heap_ok (set_timer h now).1 /\ tasks (set_timer h now).1 = tasks h /\
  forall e, e ∈ tasks h -> exists time, active_timer (set_timer h now).1 = Some time /\ time <= e.1.
Proof.
  intros Hok. unfold set_timer. pose proof (peek_spec h) as Hp. destruct (peek h) as [[time v]|] eqn:Ep.
  2: { cbn. rewrite Hp. split_and!; [done..|]. intros e He. by apply elem_of_nil in He. }
  destruct Hp as [Hperm Hmin]. rewrite Forall_forall in Hmin.
  assert (time ∈ map fst (tasks h)) as Hin by (rewrite (Permutation_map fst Hperm); left).
  assert (heap_ok (h <| active_timer := Some time |>)) as Hok2 by (intros t [= <-]; done).
  destruct (active_timer h) as [active|] eqn:Ea.
  - case_if; boolsplit; cbn; (split_and!; [done..|]); intros e He; (eexists; split; [eassumption || reflexivity|]);
      specialize (Hmin e He); lia.
  - cbn. split_and!; [done..|]. intros e He. exists time. auto.
Qed.

Lemma set_timer_is_next h now : heap_ok h -> tasks h <> [] ->
  exists time, active_timer (set_timer h now).1 = Some time /\ time ∈ map fst (tasks h) /\ Forall (fun e => time <= e.1) (tasks h).
Proof.
  intros Hok Hn. destruct (set_timer_ok h now Hok) as (Hok1 & Etasks & Hle). destruct (tasks h) as [|e l] eqn:El; [done|].
  destruct (Hle e) as (time & Ht & _); [left|]. exists time. split; [done|]. split; [by rewrite <- Etasks; apply Hok1|].
  apply Forall_forall. intros x Hx. destruct (Hle x Hx) as (time' & Ht' & Hl). congruence.
Qed.

(** Once nothing is due, the timer is set to a time that is still to come: it is never cleared by mistake. *)
Lemma set_timer_delay h now : Forall (fun e => now < e.1) (tasks h) -> forall d, (set_timer h now).2 = Some d -> 0 < d.
Proof.
  intros Hf d. unfold set_timer, timer_delay. pose proof (peek_spec h) as Hp. destruct (peek h) as [[time v]|]; [|done].
  destruct Hp as [Hperm _]. rewrite Hperm in Hf. apply Forall_cons in Hf as [Ht _]. cbn in Ht.
  destruct (active_timer h); repeat case_if; boolsplit; cbn; intros [= <-]; lia.
Qed.

Lemma due_perm now l l' : l ≡ₚ l' -> due now l = due now l'.
Proof. intros Hp. unfold due. by rewrite Hp. Qed.

Lemma due_le now l : (due now l <= length l)%nat.
Proof. apply length_filter. Qed.

Lemma due_snoc now l time v : now < time -> due now (l ++ [(time, v)]) = due now l.
Proof. intros Ht. unfold due. rewrite filter_app, length_app. rewrite filter_cons_False by (cbn; lia). cbn. lia. Qed.

Lemma due_cons now l time v : time <= now -> due now ((time, v) :: l) = S (due now l).
Proof. intros Ht. unfold due. by rewrite filter_cons_True. Qed.

End Facts.
End HeapFacts.
