(* ===== verification/PacketServerFacts.v ===== *)
(** * Facts about the packet server

    The invariant of the server on epoll and what its operations keep of it: each
    ends without a panic, leaves the configuration alone and does not reopen a
    closed UDP address. *)
From Stdlib Require Import ZArith Lia.
From stdpp Require Import list gmap.
From S2P Require Import Prelude.
From S2P Require Import Common.
From S2P Require Import Collections.
From S2P Require Import Connection.
From S2P Require Import Sockets.
From S2P Require Import ConnectionMap.
From S2P Require Import PacketServer.
From S2P Require Import Framing.
From S2P Require Import ConnectionMapFacts.
From S2P Require Import SocketFacts.
From S2P Require Import TimerHeapFacts.

(** ** What the SFU promises the packet server

    A dequeue that yields no packet asks to be called again later only. *)
Class HandlerLaws `{PacketHandler} : Prop := {
  dequeue_later s a now s' a' time : handle_dequeue s a now = Ok (s', Some (a', None, Some time)) -> now < time
}.

Module ServerFacts.
Import Io Sockets ConnectionMap Framing MapFacts SocketFacts HeapFacts PacketServer.

Section Facts.
Context `{IoLaws} `{TimerHeap.HeapOrder} `{MapOrder}.

Definition listeners (self : t) : list RawFd :=
  new_client_socket self :: new_tcp_socket self :: option_list (new_tls_socket self).

Record server_ok (self : t) (w : World) : Prop := {
  so_map : map_ok (all_connections self);
  so_open fd s : by_fd (all_connections self) !! fd = Some s -> fd ∈ open_fds w /\ fd ∉ listeners self;
  so_listen fd : fd ∈ listeners self -> fd ∈ open_fds w;
  so_tls fd : new_tls_socket self = Some fd -> tls_config self = true;
  so_heap : heap_ok (timer_heap self)
}.

(** What no operation changes. *)
Definition fixed (self : t) :=
  (local_addr_udp self, new_client_socket self, new_tcp_socket self, new_tls_socket self, tls_config self,
   all_epoll_fds self, tick_interval self).

(** From one state of the server and the world to a later one. *)
Record advances (self : t) (w : World) (self' : t) (w' : World) : Prop := {
  ad_ok : server_ok self' w';
  ad_fixed : fixed self' = fixed self;
  ad_closed : closed_stay (all_connections self) (all_connections self')
}.

Lemma advances_refl self w : server_ok self w -> advances self w self w.
Proof. intros Hok. split; [done..|apply closed_stay_refl]. Qed.

Lemma advances_trans self1 w1 self2 w2 self3 w3 :
  advances self1 w1 self2 w2 -> advances self2 w2 self3 w3 -> advances self1 w1 self3 w3.
Proof. intros [_ F1 C1] [O2 F2 C2]. split; [done|congruence|by eapply closed_stay_trans]. Qed.

Lemma fixed_listeners self self' : fixed self' = fixed self -> listeners self' = listeners self.
Proof. intros E. unfold listeners. injection E as _ -> -> -> _ _ _. done. Qed.

(** A new map, whose sockets are open and not the server's own. *)
Lemma with_map self w m w' : server_ok self w -> map_ok m -> closed_stay (all_connections self) m ->
  (forall fd s, by_fd m !! fd = Some s -> fd ∈ open_fds w' /\ fd ∉ listeners self) ->
  (forall fd, fd ∈ listeners self -> fd ∈ open_fds w') ->
  advances self w (self <| all_connections := m |>) w'.
Proof. intros [? ? ? ? ?] Hm Hc Ho Hl. by split; [split| |]. Qed.

(** The world moves on, with the same descriptors. *)
Lemma same_fds self w w' : server_ok self w -> open_fds w' = open_fds w -> advances self w self w'.
Proof. intros [? ? ? ? ?] E. split; [split; rewrite ?E; done|done|apply closed_stay_refl]. Qed.

(** ** Sockets of the map *)

Lemma put_socket_ok self w s s' w' : server_ok self w -> by_fd (all_connections self) !! as_raw_fd s = Some s ->
  same_socket s s' -> open_fds w' = open_fds w -> advances self w (put_socket self s') w'.
Proof.
  intros Hok Hs Hsame Hw. apply with_map.
  - done.
  - apply (put_ok _ s); [apply (so_map _ _ Hok)|done..].
  - by intros a t _ E.
  - intros fd t E. cbn in E. rewrite Hw. apply lookup_insert_Some in E as [[<- <-]|[_ E]]; [|by eapply so_open].
    rewrite (proj1 Hsame). by eapply so_open.
  - intros fd Hfd. rewrite Hw. by eapply so_listen.
Qed.

Lemma mark_closed_ok self addr now w : server_ok self w ->
  exists self' w', mark_closed self addr now w = Ok (self', w') /\ advances self w self' w' /\
    by_peer_addr (all_connections self') !! addr ≫= fd_of = None /\ timer_heap self' = timer_heap self /\
    forall b, by_peer_addr (all_connections self') !! b = by_peer_addr (all_connections self) !! b \/
      b = addr /\ is_Some (by_peer_addr (all_connections self) !! b ≫= fd_of) /\
      by_peer_addr (all_connections self') !! b = Some (Closed now).
Proof.
  intros Hok. unfold mark_closed.
  destruct (MapFacts.map_mark_closed_ok _ addr now (so_map _ _ Hok)) as (m & o & -> & Hm & Hc & Ha & Hb & Ho). rewrite mbind_Ok.
  eexists _, _. split; [reflexivity|]. split; [|done]. apply with_map; try done; rewrite drop_socket_fds.
  - intros fd s E. destruct o as [s0|]; [|by subst m; eapply so_open]. destruct Ho as [_ Ho]. rewrite Ho in E.
    apply lookup_delete_Some in E as [Hne E]. destruct (so_open _ _ Hok _ _ E). set_solver.
  - intros fd Hfd. pose proof (so_listen _ _ Hok _ Hfd). destruct o as [s0|]; [|done]. destruct Ho as [(_ & E & _) _].
    destruct (so_open _ _ Hok _ _ E). assert (fd <> as_raw_fd s0) by congruence. set_solver.
Qed.

(** All of [addrs] are closed then, now if they were open, and nothing else changes. *)
Lemma mark_all_closed_ok addrs now : forall self w, server_ok self w ->
  exists self' w', mark_all_closed self addrs now w = Ok (self', w') /\ advances self w self' w' /\
    (forall a, a ∈ addrs -> by_peer_addr (all_connections self') !! a ≫= fd_of = None) /\
    (forall b, by_peer_addr (all_connections self') !! b = by_peer_addr (all_connections self) !! b \/
       b ∈ addrs /\ is_Some (by_peer_addr (all_connections self) !! b ≫= fd_of) /\
       by_peer_addr (all_connections self') !! b = Some (Closed now)).
Proof.
  induction addrs as [|a addrs IH]; intros self w Hok; cbn [mark_all_closed].
  { exists self, w. split; [done|]. split; [by apply advances_refl|]. split; [by intros a Ha%elem_of_nil|by left]. }
  destruct (mark_closed_ok self a now w Hok) as (self1 & w1 & -> & A1 & Ha1 & _ & Hb1). rewrite mbind_Ok.
  destruct (IH self1 w1 (ad_ok _ _ _ _ A1)) as (self2 & w2 & -> & A2 & Ha2 & Hb2). exists self2, w2. split; [done|].
  split; [by eapply advances_trans|]. split.
  - intros b [->|Hb]%elem_of_cons; [|by apply Ha2]. by destruct (Hb2 a) as [->|(_ & _ & ->)].
  - intros b. rewrite elem_of_cons. destruct (Hb2 b) as [Eb|(Hin & Hfd & ->)].
    + rewrite Eb. destruct (Hb1 b) as [->|(-> & Hfd & ->)]; [by left|by right; auto].
    + right. split_and!; [by right| |done]. by destruct (Hb1 b) as [<-|(_ & Hfd1 & _)].
Qed.

Lemma mark_as_active_ok self addr w : server_ok self w -> advances self w (mark_as_active self addr) w.
Proof.
  intros Hok. destruct (MapFacts.map_mark_as_active_ok _ addr (so_map _ _ Hok)) as (Hm & Hc & Hf).
  apply (with_map self w (ConnectionMap.mark_as_active (all_connections self) addr)); [done..| |by apply so_listen].
  intros fd s. rewrite Hf. by apply so_open.
Qed.

(** A new socket comes into the map, or is closed when the address is taken. *)
Lemma insert_connected_ok self s addr tick w w' : server_ok self w -> socket_ok s -> serves s addr ->
  as_raw_fd s ∉ open_fds w -> open_fds w' = {[as_raw_fd s]} ∪ open_fds w -> (is_udp addr = false -> is_Some tick) ->
  (is_udp addr = true -> by_peer_addr (all_connections self) !! addr = None) ->
  exists self' s' w'', insert_connected self s addr tick w' = Ok (self', s', w'') /\ advances self w self' w'' /\
    open_on (all_connections self') addr s' /\ timer_heap self' = timer_heap self.
Proof.
  intros Hok Hs Hserves Hnew Hw Htick Hudp. pose proof (so_map _ _ Hok) as Hm.
  unfold insert_connected, get_or_insert_connected.
  assert (by_fd (all_connections self) !! as_raw_fd s = None) as Hf.
  { apply eq_None_not_Some. intros [u E]. by apply (so_open _ _ Hok) in E as [E _]. }
  assert (as_raw_fd s ∉ listeners self) as Hl by (intros E; by apply (so_listen _ _ Hok) in E).
  assert (by_peer_addr (all_connections self) !! addr ≫= fd_of = None ->
    exists self' s' w'', ('(m, inserted) ← insert_socket as_raw_fd (all_connections self) s addr tick;
      Ok (self <| all_connections := m |>, inserted, if as_raw_fd inserted =? as_raw_fd s then w' else drop_socket (Some s) w'))
      = Ok (E := unit) (self', s', w'') /\ advances self w self' w'' /\ open_on (all_connections self') addr s' /\ timer_heap self' = timer_heap self) as Hins.
  { intros Ha. destruct (insert_socket_ok _ s addr tick Hm Hf Hs Hserves Ha Htick) as (m' & -> & Hm' & Hfds & Hrest & Hon).
    rewrite mbind_Ok, Z.eqb_refl. eexists _, _, _. split; [reflexivity|]. split; [|done]. apply with_map; try done; rewrite ?Hw.
    - intros b u Hb Eb. rewrite Hrest; [done|]. intros ->. rewrite Hudp in Eb; done.
    - intros fd u E. rewrite Hfds in E. apply lookup_insert_Some in E as [[<- <-]|[_ E]]; [set_solver|].
      destruct (so_open _ _ Hok _ _ E). set_solver.
    - intros fd Hfd. pose proof (so_listen _ _ Hok _ Hfd). set_solver. }
  pose proof (mo_there _ Hm addr) as Hth. pose proof (mo_addr _ Hm addr) as Ha.
  destruct (by_peer_addr (all_connections self) !! addr) as [[|fd|fd|u]|] eqn:E; [done| | |by apply Hins|by apply Hins].
  all: destruct (Ha fd eq_refl) as (s0 & Ho); pose proof Ho as (E1 & E2 & _); rewrite E in E1; injection E1 as ->.
  all: rewrite E2; cbn [unwrap mbind Res_bind]; rewrite (proj2 (Z.eqb_neq _ _)) by congruence.
  all: eexists _, _, _; split; [reflexivity|]; split; [|done].
  all: assert (open_fds (drop_socket (Some s) w') = open_fds w) as Hw' by (rewrite drop_socket_fds, Hw; set_solver).
  all: apply with_map; rewrite ?Hw'; try done; [apply closed_stay_refl|by apply so_open|by apply so_listen].
Qed.

(** ** Sending *)

(** An operation on the server and the world that leaves the schedule alone. *)
Definition runs (self : t) (w : World) (r : Res unit (t * World)) : Prop :=
  exists self' w', r = Ok (self', w') /\ advances self w self' w' /\ timer_heap self' = timer_heap self.

Lemma runs_refl self w : server_ok self w -> runs self w (Ok (self, w)).
Proof. intros Hok. exists self, w. split_and!; [done|by apply advances_refl|done]. Qed.

Lemma runs_after self w self1 w1 r : advances self w self1 w1 -> timer_heap self1 = timer_heap self -> runs self1 w1 r -> runs self w r.
Proof. intros A1 H1' (self2 & w2 & -> & A2 & H2'). exists self2, w2. split_and!; [done|by eapply advances_trans|congruence]. Qed.

Lemma running_bind self w r k : runs self w r ->
  (forall self1 w1, advances self w self1 w1 -> timer_heap self1 = timer_heap self -> runs self1 w1 (k (self1, w1))) ->
  runs self w (r ≫= k).
Proof. intros (self1 & w1 & -> & A & Hh) Hk. rewrite mbind_Ok. by apply (runs_after _ _ self1 w1); [..|apply Hk]. Qed.

Lemma mark_closed_runs self addr now w : server_ok self w -> runs self w (mark_closed self addr now w).
Proof. intros Hok. destruct (mark_closed_ok self addr now w Hok) as (self1 & w1 & -> & A & _ & Hh & _). by exists self1, w1. Qed.

Lemma send_on_ok self s is_new p addr w : server_ok self w -> by_fd (all_connections self) !! as_raw_fd s = Some s ->
  runs self w (send_on self s is_new p addr w).
Proof.
  intros Hok Hs. unfold send_on, send_and_keep. destruct (socket_send s p w) as [[s1 r] w1] eqn:E.
  apply socket_send_keeps in E as [Hw Hsame]. pose proof (put_socket_ok _ _ _ _ _ Hok Hs Hsame Hw) as A.
  assert (server_ok (put_socket self s1) w1) as Hok1 by by eapply ad_ok.
  assert (runs self w (mark_closed (put_socket self s1) addr (now w1) w1)) as Hc
    by (eapply runs_after; [exact A|done|by apply mark_closed_runs]).
  assert (runs self w (Ok (if is_new then mark_as_active (put_socket self s1) addr else put_socket self s1, w1))) as Hk.
  { eapply runs_after; [exact A|done|]. destruct is_new; [|by apply runs_refl].
    eexists _, w1. split_and!; [reflexivity|by apply mark_as_active_ok|done]. }
  destruct r as [[]|[]]; assumption.
Qed.

Lemma open_socket_opens addr : opens_one (open_socket_with_reusable_port addr).
Proof. apply opens_one_then; [apply opens_one_socket|]. intros fd. split; eauto 10 with signal. Qed.

Lemma connect_and_send_ok self p addr w : server_ok self w -> by_peer_addr (all_connections self) !! addr = None ->
  runs self w (connect_and_send self p addr w).
Proof.
  intros Hok Ha. unfold connect_and_send. destruct addr as [udp_addr|]; [|by apply runs_refl].
  match goal with |- context [match ?m w with _ => _ end] => set (open := m) end.
  assert (opens_one open) as Ho.
  { apply opens_one_then; [apply open_socket_opens|]. intros fd. split; [|eauto 10 with signal].
    apply keeps_bind; [by apply keeps_sys|]. intros _. apply keeps_bind; [apply keeps_poll|]. eauto with signal. }
  specialize (Ho w). destruct (open w) as [[fd|e|] w1]; [|by eexists self, w1; split_and!; [|apply same_fds|]|done].
  destruct Ho as (_ & Hn & Hw).
  destruct (insert_connected_ok self (UdpSocket fd) (Udp udp_addr) None w w1) as (self1 & s1 & w2 & -> & A & Hon & Hh); try done.
  rewrite mbind_Ok. eapply runs_after; [exact A|exact Hh|]. apply send_on_ok; [by eapply ad_ok|]. apply Hon.
Qed.

Lemma send_packet_locked_ok self p addr w : server_ok self w -> runs self w (send_packet_locked self p addr w).
Proof.
  intros Hok. unfold send_packet_locked. destruct (get_by_addr_ok _ addr (so_map _ _ Hok)) as (st & -> & Hst). rewrite mbind_Ok.
  destruct st as [|s|s|u]; [by apply connect_and_send_ok| | |by apply runs_refl].
  all: destruct Hst as [(_ & Hs & _) _]; by apply send_on_ok.
Qed.

Lemma send_packet_ok self p addr w : server_ok self w -> runs self w (send_packet self p addr w).
Proof.
  intros Hok. unfold send_packet. destruct (get_by_addr_ok _ addr (so_map _ _ Hok)) as (st & -> & Hst). rewrite mbind_Ok.
  destruct st as [|s|s|u]; [by apply send_packet_locked_ok| | |by apply runs_refl].
  all: destruct Hst as [(_ & Hs & _) _]; by apply send_on_ok.
Qed.

Lemma send_packets_ok packets : forall self w, server_ok self w -> runs self w (send_packets self packets w).
Proof.
  induction packets as [|[p addr] packets IH]; intros self w Hok; cbn [send_packets]; [by apply runs_refl|].
  apply running_bind; [by apply send_packet_ok|]. intros self1 w1 A _. apply IH. by eapply ad_ok.
Qed.

(** ** Events *)

Lemma new_tcp_ok fd id v6 tls w : 
  match new_tcp fd id v6 tls w with
  | (Ok s, w') => open_fds w' = open_fds w /\ as_raw_fd s = fd /\ socket_ok s /\ serves s (Tcp id v6 tls)
  | (Err _, w') => open_fds w' = open_fds w ∖ {[fd]}
  | (Panic, _) => False
  end.
Proof.
  assert (forall s v t, tcp_ok (tcp_state s 0 0 (replicate MAX_RTP_LENGTH 0) [] id v t)) as Hf.
  { intros s v t. split; [split_and!; [apply length_replicate|cbn; lia|cbn; lia]|constructor]. }
  unfold new_tcp. destruct tls; [|by split_and!; [| |apply Hf|]].
  destruct (tls_new w) as [[c|e] w1] eqn:E; apply tls_new_fds in E; [by split_and!; [| |apply Hf|]|].
  destruct (syscall _ w1) as [r w2] eqn:E2. apply syscall_fds in E2. cbn in *. by rewrite E2, E.
Qed.

Lemma accept_ok self fd accepted tls w w1 : server_ok self w -> syscall (SysAccept fd) w = (accepted, w1) ->
  exists self' w', accept self accepted tls w1 = Ok (self', w') /\ advances self w self' w' /\ timer_heap self' = timer_heap self.
Proof.
  intros Hok E. apply syscall_fds in E. unfold accept. destruct accepted as [[cfd addr]|e]; [|by eexists _, _; split_and!; [|apply same_fds|]].
  cbn in E. destruct E as (_ & Hn & Hw1).
  destruct (syscall (SysNodelay cfd) w1) as [r2 w2] eqn:E2. apply syscall_same in E2; [|done..].
  destruct (syscall (SysNonblocking cfd) w2) as [r3 w3] eqn:E3. assert (cfd ∈ open_fds w2) as Hc by (rewrite E2, Hw1; set_solver).
  pose proof (nonblocking_ok _ _ _ _ E3 Hc) as ->.
  apply syscall_same in E3; [|done..]. destruct (next_id w3) as [id w4] eqn:E4. apply next_id_fds in E4.
  assert (open_fds w4 = {[cfd]} ∪ open_fds w) as Hw4 by congruence.
  set (v6 := is_canonical_ipv6 addr). pose proof (new_tcp_ok cfd id v6 tls w4) as Hnew.
  destruct (new_tcp cfd id v6 tls w4) as [[s|e|] w5]; [| |done].
  2: { eexists _, _. split; [reflexivity|]. split; [|done]. apply same_fds; [done|]. rewrite Hnew, Hw4. set_solver. }
  destruct Hnew as (Hw5 & Hfd & Hs & Hserves).
  pose proof (keeps_poll cfd (all_epoll_fds self) (as_raw_fd s) w5) as [Hp Hw6]; [rewrite Hw5, Hw4; set_solver|].
  unfold add_socket_to_poll_for_reads. destruct (poll_for_reads _ _ w5) as [[[]|e|] w6]; cbn in Hp, Hw6; [| |done].
  - assert (open_fds w6 = {[as_raw_fd s]} ∪ open_fds w) as Hw6' by congruence.
    destruct (insert_connected_ok self s (Tcp id v6 tls) (Some (tick_number self)) w w6) as (self1 & s1 & w7 & -> & A & _ & Hh); try done.
    { by rewrite Hfd. }
    rewrite mbind_Ok. by exists self1, w7.
  - eexists _, _. split; [reflexivity|]. split; [|done]. apply same_fds; [done|]. rewrite drop_socket_fds, Hfd, Hw6, Hw5, Hw4. set_solver.
Qed.

Lemma handle_error_ok self s w : server_ok self w ->
  exists self' go_on w', handle_error self s w = Ok (self', go_on, w') /\ advances self w self' w' /\
    timer_heap self' = timer_heap self /\ (go_on = true -> self' = self).
Proof.
  intros Hok. unfold handle_error. destruct (take_error s w) as [r w1] eqn:E. apply take_error_keeps in E.
  assert (advances self w self w1) as A1 by by apply same_fds.
  assert (forall b, exists self' go_on w', Ok (E := unit) (self, b, w1) = Ok (self', go_on, w') /\ advances self w self' w' /\
    timer_heap self' = timer_heap self /\ (go_on = true -> self' = self)) as Hsame by (intros b; by exists self, b, w1).
  destruct r as [[err|]|e]; [|apply Hsame..]. destruct (peer_addr s w1) as [r2 w2] eqn:E2. apply peer_addr_keeps in E2.
  assert (advances self w self w2) as A2 by (apply same_fds; [done|congruence]).
  destruct err; try apply Hsame; (destruct r2 as [addr|e2]; [|by exists self, true, w2]).
  all: destruct (mark_closed_ok self addr (now w2) w2 (ad_ok _ _ _ _ A2)) as (self3 & w3 & -> & A3 & _ & Hh3 & _); rewrite mbind_Ok.
  all: exists self3, false, w3; split_and!; [done|by eapply advances_trans|done|done].
Qed.

Lemma receive_failed_ok self s err w : server_ok self w -> runs self w (receive_failed self s err w).
Proof.
  intros Hok. unfold receive_failed. destruct (peer_addr s w) as [r2 w2] eqn:E2. apply peer_addr_keeps in E2.
  assert (advances self w self w2) as A2 by by apply same_fds.
  destruct err; try by apply runs_refl.
  all: destruct r2 as [addr|e2]; [|by exists self, w2]; eapply runs_after; [exact A2|done|apply mark_closed_runs; by eapply ad_ok].
Qed.

(** ** Receiving *)

Definition buffer_ok (b : PacketBuffer) : Prop :=
  length (b_buf b) = MAX_RTP_LENGTH /\ (b_size b <= MAX_RTP_LENGTH)%nat /\ bytes_ok (take (b_size b) (b_buf b)).

Lemma new_buffer_ok : buffer_ok new_buffer.
Proof. split_and!; [apply length_replicate|cbn; lia|constructor]. Qed.

Lemma as_mut_ok b : buffer_ok b -> as_mut b = Ok (take (b_size b) (b_buf b)).
Proof. intros (Hl & Hs & _). unfold as_mut. rewrite slice_no_panic by lia. by rewrite Nat.sub_0_r, drop_0. Qed.

(** The socket packets are received on is in the map, or it is the one for new clients. *)
Definition located (self : t) (s : Socket) : Prop :=
  by_fd (all_connections self) !! as_raw_fd s = Some s \/
  s = UdpSocket (new_client_socket self).

Lemma put_back_ok self s s' w w' : server_ok self w -> located self s -> same_socket s s' -> open_fds w' = open_fds w ->
  advances self w (put_back self s') w' /\ located (put_back self s') s' /\ timer_heap (put_back self s') = timer_heap self \/
  s = UdpSocket (new_client_socket self) /\ s' <> s.
Proof.
  intros Hok Hl Hsame Hw. unfold put_back, get_by_fd. destruct Hl as [Hs | ->].
  - left. rewrite (proj1 Hsame), Hs. split_and!; [by apply put_socket_ok with s| |done].
    left. cbn. rewrite (proj1 Hsame). by rewrite lookup_insert_eq.
  - destruct (by_fd (all_connections self) !! as_raw_fd s') as [u|] eqn:E.
    + exfalso. rewrite (proj1 Hsame) in E. apply (so_open _ _ Hok) in E as [_ E]. apply E. by left.
    + destruct s' as [fd|st]; [|right; done]. pose proof (proj1 Hsame) as Hfd. cbn in Hfd. subst fd.
      left. split_and!; [by apply same_fds|by right|done].
Qed.

Definition receiving_ok (r : Receiving) : Prop :=
  server_ok (r_server r) (r_world r) /\ located (r_server r) (r_socket r) /\ socket_ok (r_socket r) /\
  Forall buffer_ok (r_bufs r) /\ (r_index r < length (r_bufs r))%nat.

(** Receiving leaves [located] sockets as they are, up to their streams. *)
Lemma recv_udp fd out w s' out' r w' : socket_recv_from (UdpSocket fd) out w = Ok (s', out', r, w') -> s' = UdpSocket fd.
Proof. cbn. destruct (syscall _ w) as [r1 w1]. by intros [= <- _ _ _]. Qed.

Lemma receive_turn_ok r : receiving_ok r ->
  exists r' more, receive_turn r = Ok (r', more) /\ advances (r_server r) (r_world r) (r_server r') (r_world r') /\
    timer_heap (r_server r') = timer_heap (r_server r) /\ Forall buffer_ok (r_bufs r') /\ r_bufs r' <> [] /\
    (more = true -> receiving_ok r' /\ (to_receive (r_socket r') (r_world r') < to_receive (r_socket r) (r_world r))%nat).
Proof.
  intros (Hok & Hl & Hs & Hb & Hi). unfold receive_turn.
  destruct (lookup_lt_is_Some_2 (r_bufs r) (r_index r) Hi) as [b Hbi]. rewrite (proj2 (idx_Ok _ _ _) Hbi), mbind_Ok.
  pose proof (Forall_lookup_1 _ _ _ _ Hb Hbi) as Hbok. unfold buffer_recv_from.
  destruct (socket_recv_from_ok (r_socket r) (b_buf b) (r_world r) Hs (proj1 Hbok)) as (s' & out & res & w' & E & Hw & Hout & Hsame & Hs' & Hres).
  rewrite E, mbind_Ok.
  destruct (put_back_ok _ _ s' _ w' Hok Hl Hsame Hw) as [(A & Hl' & Hh)|[Hu Hne]].
  2: { rewrite Hu in E. apply recv_udp in E. congruence. }
  assert (forall b', buffer_ok b' -> Forall buffer_ok (<[r_index r := b']> (r_bufs r))) as Hins by (intros; by apply Forall_insert).
  assert (forall b', <[r_index r := b']> (r_bufs r) <> []) as Hne.
  { intros b' E'. apply (f_equal length) in E'. rewrite length_insert in E'. cbn in E'. lia. }
  destruct res as [[n a]|err].
  - destruct Hres as (Hn & Hbytes & Hserves & Hless). rewrite mbind_Ok.
    assert (buffer_ok (packet_buffer out n)) as Hbuf by by split_and!.
    assert (Forall buffer_ok (<[r_index r := packet_buffer out n]> (r_bufs r))) as Hbs by by apply Hins.
    destruct (has_pending_data s') eqn:Ep.
    + rewrite length_insert. eexists _, true. split; [reflexivity|]. cbn [r_server r_world r_bufs r_socket].
      assert (Forall buffer_ok (if (length (r_bufs r) <=? S (r_index r))%nat then
         <[r_index r := packet_buffer out n]> (r_bufs r) ++ [new_buffer] else <[r_index r := packet_buffer out n]> (r_bufs r))) as Hbs2.
      { case_if; [|done]. apply Forall_app_2; [done|]. constructor; [apply new_buffer_ok|done]. }
      split_and!; [done|done|done| |].
      { case_if; [intros [E' _]%app_eq_nil; by apply Hne in E'|apply Hne]. }
      intros _. split; [|by apply Hless]. split_and!; [by eapply ad_ok|done|done|done|]. cbn.
      case_if; boolsplit; rewrite ?length_app, length_insert; cbn; lia.
    + eexists _, false. split; [reflexivity|]. split; [exact A|]. split; [exact Hh|]. split; [done|]. split; [apply Hne|done].
  - rewrite mbind_Ok. destruct (receive_failed_ok (put_back (r_server r) s') s' err w' (ad_ok _ _ _ _ A)) as (self2 & w2 & -> & A2 & Hh2).
    rewrite mbind_Ok. eexists _, false. split; [reflexivity|]. cbn [r_server r_world r_bufs].
    split; [by eapply advances_trans|]. split; [congruence|]. split; [apply Hins|by split; [apply Hne|]].
    split_and!; [done|cbn; lia|constructor].
Qed.

Lemma receive_ok fuel : forall r, receiving_ok r -> (to_receive (r_socket r) (r_world r) <= fuel)%nat ->
  exists r', receive fuel r = Ok r' /\ advances (r_server r) (r_world r) (r_server r') (r_world r') /\
    timer_heap (r_server r') = timer_heap (r_server r) /\ Forall buffer_ok (r_bufs r') /\ r_bufs r' <> [].
Proof.
  induction fuel as [|fuel IH]; intros r Hr Hf; cbn [receive];
    destruct (receive_turn_ok r Hr) as (r1 & more & -> & A & Hh & Hb & Hne & Hm); rewrite mbind_Ok;
    (destruct more; [destruct (Hm eq_refl) as [Hr1 Hless]|by exists r1]).
  - lia.
  - destruct (IH r1 Hr1 ltac:(lia)) as (r2 & -> & A2 & Hh2 & Hb2 & Hne2). exists r2. split; [done|].
    split_and!; [by eapply advances_trans|congruence|done|done].
Qed.
End Facts.
End ServerFacts.
