(* ===== verification/SfuServer.v ===== *)
(** * The packet server of an SFU

    What src/backend/src/packet_server.rs does with the SFU: [handle_packet]
    drops the errors of [Sfu::handle_packet], and the epoll and the generic
    server reach the SFU through the interface [PacketHandler], of which the SFU
    is an instance here, and keeps the promise of [HandlerLaws]. *)
From stdpp Require Import strings.
From S2P Require Import Prelude Common Collections Float Bytes Srtp RtpHeader Packet RtpEndpoint Pacer Ice Googcc Layers ApprovedUsers.
From S2P Require Import Client Connection Call CallHandlers Sfu Sockets ConnectionMap PacketServer PacketServerFacts.

Module SfuServer.

Section Server.
Context `{Mrp} `{Protos} `{Aead} `{HashMapOrder} `{HmacSha1} `{Crc32} `{Powf} `{MapOrder}.

(** [HandleOutput::default()] *)
Definition nothing : Sfu.HandleOutput := Sfu.output [] [].

(** Errors are counted and logged; nothing is sent because of them. *)
Definition handle_packet (sfu : Sfu.t) (sender_address : SocketLocator) (incoming_packet : bytes) (clock : nat -> Z) :
    Res unit (Sfu.t * Sfu.HandleOutput) :=
  '(sfu, r) ← Sfu.handle_packet sfu sender_address incoming_packet clock;
  Ok (sfu, match r with Ok output => output | _ => nothing end).

(** What the approval tasks of the calls have come to at each tick is an argument. *)
Context (outcomes : Z -> Sfu.CallId -> bool -> option ApprovedUsers.Outcome * bool).

Definition tick_update_of (output : Sfu.TickOutput) : TickUpdate :=
  tick_update (Sfu.tick_packets_to_send output) (Sfu.tick_dequeues_to_schedule output) (Sfu.expired_client_addrs output).

Definition sfu_handler : PacketHandler := {|
  SfuState := Sfu.t;
  PacketServer.handle_packet sfu sender_addr packet clock :=
    '(sfu, output) ← handle_packet sfu sender_addr packet clock;
    Ok (sfu, (Sfu.packets_to_send output, Sfu.dequeues_to_schedule output));
  PacketServer.handle_dequeue sfu addr now := Sfu.handle_dequeue sfu addr now;
  PacketServer.sfu_tick sfu now := '(sfu, output) ← Sfu.tick sfu now (outcomes now); Ok (sfu, tick_update_of output)
|}.

End Server.
End SfuServer.

(** * Theorems *)

Module SfuServerFacts.
Import SfuServer.

Section Facts.
Context `{Mrp} `{Protos} `{Aead} `{HashMapOrder} `{HmacSha1} `{Crc32} `{Powf} `{MapOrder}.

(** A queue from which nothing is popped is empty then. *)
Lemma pop_queue_none queue n now queue' n' : Pacer.pop_queue queue n now = (None, queue', n') -> queue' = [].
Proof.
  revert n. induction queue as [|p queue IH]; intros n; cbn [Pacer.pop_queue]; [by intros [= <- _]|]. case_if; [apply IH|done].
Qed.

Lemma pop_none self now self' : Pacer.pop self now = (None, self') -> Pacer.queue_is_empty self' = true.
Proof.
  unfold Pacer.pop, Pacer.pop_rtx, Pacer.pop_video.
  destruct (Pacer.pop_queue (Pacer.rtx_queue self) _ now) as [[[p|] rtx] n] eqn:E1; [done|]. cbn.
  destruct (Pacer.pop_queue (Pacer.video_queue self) _ now) as [[[p|] video] n'] eqn:E2; [done|]. intros [= <-].
  apply pop_queue_none in E1, E2. unfold Pacer.queue_is_empty. cbn. by rewrite E1, E2.
Qed.

Lemma not_past time now : Pacer.past_send_time (Some time) now = false -> now < time.
Proof. cbn. intros E%Z.leb_gt. exact E. Qed.

(** A pacer that has nothing to send waits for the time of its padding, which has not come. *)
Lemma padding_waits {E W} (gen : Z -> Res E (option Packet.t * W)) self b now self' time w :
  (b = false -> Pacer.queue_is_empty self = true) ->
  Pacer.maybe_send_padding gen self b now = Ok (self', (None, Some time), w) -> now < time.
Proof.
  intros He. unfold Pacer.maybe_send_padding. destruct (Pacer.Config.padding_ssrc _); [|done].
  intros (next & En & E1)%bind_Ok. destruct (Pacer.past_send_time next now) eqn:Ep.
  - apply bind_Ok in E1 as ([[p|] w'] & _ & E1); [|done]. by apply bind_Ok in E1 as (n & _ & E1).
  - destruct b; cbn [negb] in E1; [done|]. apply bind_Ok in E1 as (n & En' & [= _ -> _]).
    unfold Pacer.calculate_next_send_time in En'. rewrite (He eq_refl), En in En'. injection En' as ->. by apply not_past.
Qed.

Lemma pacer_waits {E W} (gen : Z -> Res E (option Packet.t * W)) self now self' time w :
  Pacer.dequeue gen self now = Ok (self', (None, Some time), w) -> now < time.
Proof.
  unfold Pacer.dequeue. destruct (Pacer.queue_is_empty self) eqn:Ee; cbn [negb]; [by apply padding_waits|].
  intros (next & En & E1)%bind_Ok. destruct (Pacer.past_send_time next now); [|done].
  destruct (Pacer.pop self now) as [[p|] self1] eqn:Epop; [by apply bind_Ok in E1 as (n & _ & E1)|].
  apply padding_waits in E1; [done|]. intros _. by eapply pop_none.
Qed.

#[global] Instance sfu_handler_laws outcomes : HandlerLaws (H := sfu_handler outcomes).
Proof.
  split. intros self addr now self' addr' time E. cbn in E. unfold Sfu.handle_dequeue in E.
  destruct (Sfu.get_connection_from_address self addr) as [[id c]|e|]; [|done..].
  apply bind_Ok in E as ([c' r] & E1 & [= _ ->]). unfold Connection.dequeue_outgoing_rtp in E1.
  destruct (Connection.outgoing_addr c) as [a|]; [|done].
  apply bind_Ok in E1 as ([[p [[out|] next]] w] & E2 & E1); [done|].
  destruct next as [t|]; [|done]. injection E1 as _ _ ->. by eapply pacer_waits.
Qed.

End Facts.
End SfuServerFacts.
