(* ===== verification/EventLoopFacts.v ===== *)
(** * Facts about the loops of the packet server

    Events, dequeues and ticks of the server on epoll, with any SFU that keeps
    the promise of [HandlerLaws]; the SFU may panic. *)
From Stdlib Require Import ZArith Lia.
From stdpp Require Import list gmap.
From S2P Require Import Prelude.
From S2P Require Import Common.
From S2P Require Import Collections.
From S2P Require Import Connection.
From S2P Require Import Sockets.
From S2P Require Import ConnectionMap.
From S2P Require Import PacketServer.
From S2P Require Import Framing.
From S2P Require Import ConnectionMapFacts.
From S2P Require Import SocketFacts.
From S2P Require Import PacketServerFacts.
From S2P Require Import TimerHeapFacts.

Module LoopFacts.
Import Io Sockets ConnectionMap Framing MapFacts SocketFacts PacketServer ServerFacts HeapFacts.

Section Facts.
Context `{IoLaws} `{TimerHeap.HeapOrder} `{MapOrder} `{HandlerLaws}.

Definition thread_ok (th : Thread) : Prop := Forall buffer_ok (bufs th) /\ bufs th <> [].

(** A stretch of the loop: unless the SFU panics, the server advances, and the thread keeps its invariant. *)
Definition loops (self : t) (w : World) (th : Thread) (r : Res unit (t * SfuState * Thread * World)) : Prop :=
  match r with
  | Ok (self', sfu', th', w') => advances self w self' w' /\ thread_ok th' /\ timer th' = timer th
  | Err _ => True
  | Panic => False
  end.

Lemma loops_stop self sfu th th' w self' w' : advances self w self' w' -> thread_ok th' -> timer th' = timer th ->
  loops self w th (Ok (self', sfu, th', w')).
Proof. done. Qed.

Lemma loops_after self w th self1 w1 th1 r : advances self w self1 w1 -> timer th1 = timer th -> loops self1 w1 th1 r -> loops self w th r.
Proof.
  intros A E. destruct r as [[[[self2 sfu2] th2] w2]|e|]; cbn; [|done..]. intros (A2 & Ht & E2).
  split_and!; [by eapply advances_trans|done|congruence].
Qed.

Lemma loops_bind self w th r k : loops self w th r ->
  (forall self1 sfu1 th1 w1, advances self w self1 w1 -> thread_ok th1 -> timer th1 = timer th ->
     loops self1 w1 th1 (k (self1, sfu1, th1, w1))) ->
  loops self w th (r ≫= k).
Proof.
  intros Hr Hk. destruct r as [[[[self1 sfu1] th1] w1]|e|]; cbn in *; [|done..].
  destruct Hr as (A & Ht & E). by apply (loops_after _ _ _ self1 w1 th1); [..|apply Hk].
Qed.

Lemma schedule_ok self w l : server_ok self w -> advances self w (schedule_all self l) w.
Proof. intros [? ? ? ? ?]. split; [split; try done; by apply schedule_all_ok|done|apply closed_stay_refl]. Qed.

Lemma handle_packets_ok bufs : forall self sfu a w, server_ok self w -> Forall buffer_ok bufs ->
  match handle_packets self sfu a bufs w with
  | Ok (self', sfu', w') => advances self w self' w'
  | Err _ => True
  | Panic => False
  end.
Proof.
  induction bufs as [|b bufs IH]; intros self sfu a w Hok Hb; cbn [handle_packets]; [by apply advances_refl|].
  apply Forall_cons in Hb as [Hb Hbs]. rewrite as_mut_ok, mbind_Ok by done.
  destruct (handle_packet sfu a (take (b_size b) (b_buf b)) (clock w)) as [[sfu1 [ps ds]]|e|]; [|done..]. cbn [of_sfu]. rewrite mbind_Ok.
  destruct (send_packets_ok ps self w Hok) as (self1 & w1 & -> & A1 & _). rewrite mbind_Ok.
  pose proof (schedule_ok self1 w1 ds (ad_ok _ _ _ _ A1)) as A2.
  specialize (IH (schedule_all self1 ds) sfu1 a w1 (ad_ok _ _ _ _ A2) Hbs).
  destruct (handle_packets _ _ _ _ _) as [[[self3 sfu3] w3]|e|]; [|done..].
  eapply advances_trans; [exact A1|]. by eapply advances_trans.
Qed.

Lemma handle_readable_ok fuel self sfu th s w : server_ok self w -> thread_ok th -> located self s -> socket_ok s ->
  (2 + MAX_RTP_LENGTH + stream_bound <= fuel)%nat -> loops self w th (handle_readable fuel self sfu th s w).
Proof.
  intros Hok [Hb Hne] Hl Hsok Hf. unfold handle_readable.
  assert (receiving_ok (receiving self s (bufs th) 0 None w)) as Hr.
  { split_and!; try done. cbn. destruct (bufs th); [done|cbn; lia]. }
  destruct (receive_ok fuel _ Hr) as (r & -> & A & _ & Hb' & Hne').
  { cbn [r_socket r_world]. pose proof (to_receive_bound s w Hsok). lia. }
  rewrite mbind_Ok. cbn [r_server r_world] in A. destruct (r_sender_addr r) as [a|]; [|by apply loops_stop].
  pose proof (handle_packets_ok (take (r_index r) (r_bufs r)) (r_server r) sfu a (r_world r) (ad_ok _ _ _ _ A) ltac:(by apply Forall_take)) as A2.
  destruct (handle_packets _ _ _ _ _) as [[[self2 sfu2] w2]|e|]; [|done..]. rewrite mbind_Ok. apply loops_stop; [by eapply advances_trans|done..].
Qed.

Lemma handle_socket_ok fuel self sfu th s e w : server_ok self w -> thread_ok th -> located self s -> socket_ok s ->
  (2 + MAX_RTP_LENGTH + stream_bound <= fuel)%nat -> loops self w th (handle_socket fuel self sfu th s e w).
Proof.
  intros Hok Ht Hl Hsok Hf. unfold handle_socket.
  assert (exists self' go_on w', (if is_err e then handle_error self s w else Ok (self, true, w)) = Ok (self', go_on, w') /\
    advances self w self' w' /\ (go_on = true -> self' = self)) as (self1 & go_on & w1 & -> & A & Hsame).
  { destruct (is_err e); [|by exists self, true, w; split_and!; [|apply advances_refl|]].
    destruct (handle_error_ok self s w Hok) as (self1 & g & w1 & -> & A & _ & Hg). by exists self1, g, w1. }
  rewrite mbind_Ok. destruct (go_on && is_in e) eqn:Eg; [|by apply loops_stop]. apply andb_prop in Eg as [Eg _].
  rewrite (Hsame Eg) in A |- *. eapply loops_after; [exact A|done|]. apply handle_readable_ok; try done. by eapply ad_ok.
Qed.

Lemma handle_event_ok fuel self sfu th e w : server_ok self w -> thread_ok th -> 0 <= event_fd e ->
  (2 + MAX_RTP_LENGTH + stream_bound <= fuel)%nat -> loops self w th (handle_event fuel self sfu th e w).
Proof.
  intros Hok Ht Hfd Hf. unfold handle_event.
  assert (forall fd tls, loops self w th (let '(accepted, w1) := syscall (SysAccept fd) w in
    '(self, w2) ← accept self accepted tls w1; Ok (self, sfu, th, w2))) as Hacc.
  { intros fd tls. destruct (syscall _ w) as [accepted w1] eqn:E.
    destruct (accept_ok self fd accepted tls w w1 Hok E) as (self2 & w2 & -> & A & _). by apply loops_stop. }
  case_if; [apply handle_socket_ok; try done; by right|]. destruct (_ || _) eqn:E2.
  - case_if; [apply Hacc|]. boolsplit. cbn in E2. destruct (new_tls_socket self) as [tls_fd|] eqn:Et; [|cbn in E2; boolsplit; lia].
    cbn [unwrap mbind Res_bind]. pose proof (so_tls _ _ Hok _ Et) as Hc. specialize (Hacc tls_fd true).
    destruct (syscall _ w) as [accepted w1]. by rewrite Hc.
  - case_if; boolsplit.
    + destruct (timer th) as [timer_fd|]; [|cbn in *; lia]. cbn. destruct (syscall _ w) as [r w1] eqn:Ew. apply syscall_same in Ew; [|done..].
      split_and!; [by apply same_fds|done..].
    + unfold get_by_fd. destruct (by_fd _ !! event_fd e) as [s|] eqn:Es; [|by apply loops_stop; [apply advances_refl|..]].
      destruct (mo_fd _ (so_map _ _ Hok) _ _ Es) as (Hsfd & Hsok & _). apply handle_socket_ok; try done. left. by rewrite Hsfd.
Qed.

Lemma handle_events_ok fuel events : forall self sfu th w, server_ok self w -> thread_ok th ->
  Forall (fun e => 0 <= event_fd e) events -> (2 + MAX_RTP_LENGTH + stream_bound <= fuel)%nat ->
  loops self w th (handle_events fuel self sfu th events w).
Proof.
  induction events as [|e events IH]; intros self sfu th w Hok Ht He Hf; cbn [handle_events].
  { apply loops_stop; [by apply advances_refl|done..]. }
  apply Forall_cons in He as [He Hes].
  apply loops_bind; [by apply handle_event_ok|]. intros self1 sfu1 th1 w1 A Ht1 _. apply IH; try done. by eapply ad_ok.
Qed.

(** ** Dequeues *)

(** How a pass over what is due ends: with as much sent as one pass may send, or
    with nothing left that is due, and the timer set. *)
Definition pass_done (th : Thread) (self : t) (left : nat) (w : World) : Prop :=
  left = 0%nat \/
  left <> 0%nat /\ exists self1 w1, heap_ok (timer_heap self1) /\ Forall (fun e => now w1 < e.1) (TimerHeap.tasks (timer_heap self1)) /\
    ((self, w) = arm_timer self1 th (now w1) w1 \/ (self, w) = (self1, w1) /\ TimerHeap.tasks (timer_heap self1) = []).

Lemma arm_timer_ok self th n w : server_ok self w ->
  advances self w (arm_timer self th n w).1 (arm_timer self th n w).2.
Proof.
  intros Hok. unfold arm_timer. destruct (timer th) as [fd|]; [|by apply advances_refl].
  pose proof (set_timer_ok _ n (so_heap _ _ Hok)) as (Hh & _). destruct (TimerHeap.set_timer _ n) as [heap delay]. cbn [fst snd] in *.
  assert (open_fds (match delay with Some d => (syscall (SysTimerSet fd d) w).2 | None => w end) = open_fds w) as Hw.
  { destruct delay as [d|]; [|done]. destruct (syscall _ w) as [r w1] eqn:E. by apply syscall_same in E. }
  destruct Hok as [? ? ? ? ?]. split; [split; rewrite ?Hw; done|done|apply closed_stay_refl].
Qed.

Lemma with_heap self w h : server_ok self w -> heap_ok h -> advances self w (self <| timer_heap := h |>) w.
Proof. intros [? ? ? ? ?] Hh. split; [by split|done|apply closed_stay_refl]. Qed.

(** What was dequeued is sent, if anything was, and the next dequeue is scheduled. *)
Definition send_dequeued (self : t) (a : SocketLocator) (buf : option bytes) (w : World) : Res unit (t * World) :=
  match buf with
  | Some buf => send_packet self buf a w
  | None => Ok (self, w)
  end.

Definition reschedule (self : t) (a : SocketLocator) (time : option Z) : t :=
  match time with
  | Some time => schedule_all self [(time, a)]
  | None => self
  end.

Lemma send_dequeued_ok self a buf w : server_ok self w ->
  exists self' w', send_dequeued self a buf w = Ok (self', w') /\ advances self w self' w' /\
    timer_heap self' = timer_heap self /\ (buf = None -> w' = w).
Proof.
  intros Hok. destruct buf as [p|]; cbn; [|by exists self, w; split_and!; [|apply advances_refl|..]].
  destruct (send_packet_ok self p a w Hok) as (self1 & w1 & -> & A & Ht). by exists self1, w1.
Qed.

Lemma reschedule_ok self a time w : server_ok self w ->
  advances self w (reschedule self a time) w /\
  TimerHeap.tasks (timer_heap (reschedule self a time)) =
    TimerHeap.tasks (timer_heap self) ++ match time with Some t => [(t, a)] | None => [] end.
Proof.
  intros Hok. destruct time as [t'|]; cbn [reschedule].
  - split; [by apply schedule_ok|done].
  - rewrite app_nil_r. split; [by apply advances_refl|done].
Qed.

(** The dequeues that the SFU has answered, in order, each with a packet or without. *)
Inductive answered : SfuState -> list bool -> SfuState -> Prop :=
| answered_none sfu : answered sfu [] sfu
| answered_nothing sfu a now sfu1 l sfu2 : handle_dequeue sfu a now = Ok (sfu1, None) -> answered sfu1 l sfu2 ->
    answered sfu (false :: l) sfu2
| answered_some sfu a now sfu1 a' buf time l sfu2 : handle_dequeue sfu a now = Ok (sfu1, Some (a', buf, time)) ->
    answered sfu1 l sfu2 -> answered sfu (bool_decide (is_Some buf) :: l) sfu2.

(** How many of the answers held a packet. *)
Definition packets (l : list bool) : nat := length (filter Is_true l).

Lemma packets_cons b l : packets (b :: l) = ((if b then 1 else 0) + packets l)%nat.
Proof. by destruct b. Qed.

(** A pass over the dequeues that are due, from the thread's [left] packets down. *)
Definition passes (th : Thread) (self : t) (sfu : SfuState) (left : nat) (w : World) (r : Res unit (t * SfuState * nat * World)) : Prop :=
  match r with
  | Ok (self', sfu', left', w') => advances self w self' w' /\ pass_done th self' left' w' /\
      exists l, answered sfu l sfu' /\ left = (packets l + left')%nat
  | Err _ => True
  | Panic => False
  end.

Lemma passes_after th self sfu left w self1 sfu1 left1 w1 r b : advances self w self1 w1 ->
  (forall l sfu2, answered sfu1 l sfu2 -> answered sfu (b :: l) sfu2) -> left = ((if b then 1 else 0) + left1)%nat ->
  passes th self1 sfu1 left1 w1 r -> passes th self sfu left w r.
Proof.
  intros A Ha Hl. destruct r as [[[[self2 sfu2] left2] w2]|e|]; cbn; [|done..]. intros (A2 & Hd & l & Hans & E).
  split_and!; [by eapply advances_trans|done|]. exists (b :: l). split; [by apply Ha|]. rewrite packets_cons. lia.
Qed.

Lemma passes_stop th self sfu left w self' w' : advances self w self' w' -> pass_done th self' left w' ->
  passes th self sfu left w (Ok (self', sfu, left, w')).
Proof. intros A Hd. split_and!; [done..|]. exists []. split; [constructor|done]. Qed.

Lemma handle_dequeues_ok th fuel : forall self sfu left w, server_ok self w ->
  (left * S (length (TimerHeap.tasks (timer_heap self))) + due (now w) (TimerHeap.tasks (timer_heap self)) < fuel)%nat ->
  passes th self sfu left w (handle_dequeues fuel self sfu th left w).
Proof.
  induction fuel as [|fuel IH]; intros self sfu left w Hok Hf; [lia|].
  pose proof (so_heap _ _ Hok) as Hh.
  destruct left as [|fewer]; cbn [handle_dequeues].
  { apply passes_stop; [by apply advances_refl|by left]. }
  pose proof (next_spec (timer_heap self) (now w)) as Hn. pose proof (heap_next_ok _ (now w) Hh) as Hh1.
  destruct (TimerHeap.next (timer_heap self) (now w)) as [h1 [a|d|]] eqn:En; cbn in Hh1.
  - destruct Hn as (time & Htime & Hperm & _ & _).
    pose proof (due_perm (now w) _ _ Hperm) as Hd. rewrite due_cons in Hd by done.
    pose proof (Permutation_length Hperm) as Hlen. cbn in Hlen.
    pose proof (with_heap self w h1 Hok Hh1) as A0. set (self0 := self <| timer_heap := h1 |>) in *.
    destruct (handle_dequeue sfu a (now w)) as [[sfu1 r]|e|] eqn:Er; [|done..]. cbn [of_sfu]. rewrite mbind_Ok.
    destruct r as [[[a' buf] time']|].
    2: { apply (passes_after _ _ _ _ _ self0 sfu1 (S fewer) w _ false A0); [|done|].
         - intros l sfu2. by eapply answered_nothing.
         - apply IH; [by eapply ad_ok|cbn; lia]. }
    destruct (send_dequeued_ok self0 a' buf w (ad_ok _ _ _ _ A0)) as (self1 & w1 & Esend & A1 & Ht1 & Hnone).
    unfold send_dequeued in Esend. rewrite Esend, mbind_Ok.
    destruct (reschedule_ok self1 a' time' w1 (ad_ok _ _ _ _ A1)) as (A2 & Etasks).
    rewrite Ht1 in Etasks. change (timer_heap self0) with h1 in Etasks. fold (reschedule self1 a' time').
    set (self2 := reschedule self1 a' time') in *.
    apply (passes_after _ _ _ _ _ self2 sfu1 (match buf with Some _ => fewer | None => S fewer end) w1 _ (bool_decide (is_Some buf))).
    + eapply advances_trans; [exact A0|]. by eapply advances_trans.
    + intros l sfu2. by eapply answered_some.
    + by destruct buf.
    + apply IH; [by eapply ad_ok|]. pose proof (due_le (now w1) (TimerHeap.tasks (timer_heap self2))).
      rewrite Etasks in *. rewrite length_app in *. destruct buf as [p|]; [destruct time'; cbn in *; nia|].
      rewrite (Hnone eq_refl). destruct time' as [t'|]; [rewrite due_snoc by by eapply dequeue_later|rewrite app_nil_r]; cbn in *; nia.
  - destruct Hn as (-> & e & _ & He & Hmin & Hd).
    replace (self <| timer_heap := timer_heap self |>) with self in * by (by destruct self).
    pose proof (arm_timer_ok self th (now w) w Hok) as A1. destruct (arm_timer self th (now w) w) as [self1 w1] eqn:Ea.
    apply passes_stop; [exact A1|].
    right. split; [done|]. exists self, w. split; [done|]. split; [|by left]. eapply Forall_impl; [exact Hmin|]. cbn. lia.
  - destruct Hn as [-> He]. replace (self <| timer_heap := timer_heap self |>) with self by (by destruct self).
    apply passes_stop; [by apply advances_refl|].
    right. split; [done|]. exists self, w. rewrite He. split_and!; [done..|by right].
Qed.

(** ** Turns and ticks *)

(** The fuel that is enough for the dequeues of a server. *)
Definition enough_due (self : t) (w : World) : nat :=
  S (MAX_EPOLL_EVENTS * S (length (TimerHeap.tasks (timer_heap self))) + due (now w) (TimerHeap.tasks (timer_heap self))).

(** How a turn ends: after its events, with a pass over the dequeues. *)
Definition turns (self : t) (w : World) (th : Thread) (r : Res unit (t * SfuState * Thread * World)) : Prop :=
  match r with
  | Ok (self', sfu', th', w') => advances self w self' w' /\ thread_ok th' /\ timer th' = timer th /\
      exists left sfu l, pass_done th self' left w' /\ answered sfu l sfu' /\ MAX_EPOLL_EVENTS = (packets l + left)%nat /\
        poll_timeout_ms th' = (if (left =? 0)%nat then 0 else EPOLL_WAIT_TIMEOUT_MS)
  | Err _ => True
  | Panic => False
  end.

Lemma pass_done_timer th th' self left w : timer th' = timer th -> pass_done th' self left w -> pass_done th self left w.
Proof. intros E. unfold pass_done, arm_timer. by rewrite E. Qed.

Lemma run_turn_ok fuel events self sfu th w : server_ok self w -> thread_ok th ->
  Forall (fun e => 0 <= event_fd e) events -> (2 + MAX_RTP_LENGTH + stream_bound <= fuel)%nat ->
  exists fuel0, forall fuel_due, (fuel0 <= fuel_due)%nat -> turns self w th (run_turn fuel fuel_due self sfu th events w).
Proof.
  intros Hok Ht He Hf. unfold run_turn.
  pose proof (handle_events_ok fuel (take MAX_EPOLL_EVENTS events) self sfu th w Hok Ht ltac:(by apply Forall_take) Hf) as Hev.
  destruct (handle_events _ _ _ _ _ _) as [[[[self1 sfu1] th1] w1]|e|]; [|by exists 0%nat..].
  destruct Hev as (A1 & Ht1 & E1). exists (enough_due self1 w1).
  intros fuel_due Hd. rewrite mbind_Ok. unfold enough_due in Hd.
  pose proof (handle_dequeues_ok th1 fuel_due self1 sfu1 MAX_EPOLL_EVENTS w1 (ad_ok _ _ _ _ A1) ltac:(lia)) as Hp.
  destruct (handle_dequeues _ _ _ _ _ _) as [[[[self2 sfu2] left] w2]|e|]; [|done..]. destruct Hp as (A2 & Hdone & l & Hans & El).
  rewrite mbind_Ok. split_and!; [by eapply advances_trans|exact Ht1|exact E1|]. exists left, sfu1, l.
  split_and!; [by eapply pass_done_timer|done..].
Qed.

(** Sending the packets of a tick only uses the sockets of the map. *)
Lemma send_tick_packets_ok packets : forall self expired w, server_ok self w ->
  exists self' more w', send_tick_packets self packets expired w = Ok (self', expired ++ more, w') /\
    advances self w self' w' /\ timer_heap self' = timer_heap self /\
    by_peer_addr (all_connections self') = by_peer_addr (all_connections self) /\
    inactive_ttls (all_connections self') = inactive_ttls (all_connections self).
Proof.
  induction packets as [|[p a] packets IH]; intros self expired w Hok; cbn [send_tick_packets].
  { exists self, [], w. rewrite app_nil_r. split_and!; [done|by apply advances_refl|done..]. }
  destruct (get_by_addr_ok _ a (so_map _ _ Hok)) as (st & -> & Hst). rewrite mbind_Ok.
  assert (forall s, by_fd (all_connections self) !! as_raw_fd s = Some s ->
    exists self' more w', (let '(s', keep, w1) := send_and_keep s p w in
      send_tick_packets (put_socket self s') packets (if keep then expired else expired ++ [a]) w1) = Ok (self', expired ++ more, w') /\
      advances self w self' w' /\ timer_heap self' = timer_heap self /\
      by_peer_addr (all_connections self') = by_peer_addr (all_connections self) /\
      inactive_ttls (all_connections self') = inactive_ttls (all_connections self)) as Hsend.
  { intros s Hs. unfold send_and_keep. destruct (socket_send s p w) as [[s1 r] w1] eqn:E.
    apply socket_send_keeps in E as [Hw Hsame]. pose proof (put_socket_ok _ _ _ _ _ Hok Hs Hsame Hw) as A.
    set (keep := match r with Failed ConnectionRefused | Failed BrokenPipe => false | _ => true end).
    destruct (IH (put_socket self s1) (if keep then expired else expired ++ [a]) w1 (ad_ok _ _ _ _ A)) as (self2 & more & w2 & -> & A2 & Hh & Hp & Ht).
    exists self2, (if keep then more else a :: more), w2. split; [destruct keep; by rewrite <- ?app_assoc|].
    split_and!; [by eapply advances_trans|done..]. }
  destruct st as [|s|s|u]; [by apply IH| | |by apply IH].
  all: destruct Hst as [(_ & Hs & _) _]; by apply Hsend.
Qed.

Lemma remove_all_closed_ok addrs : forall self w, server_ok self w ->
  exists self', remove_all_closed self addrs = Ok self' /\ server_ok self' w /\ fixed self' = fixed self /\
    by_fd (all_connections self') = by_fd (all_connections self) /\
    forall a, by_peer_addr (all_connections self') !! a =
      match by_peer_addr (all_connections self) !! a with
      | Some (Closed u) => if decide (a ∈ addrs) then None else Some (Closed u)
      | st => st
      end.
Proof.
  induction addrs as [|b addrs IH]; intros self w Hok; cbn [remove_all_closed].
  { exists self. split_and!; [done..|]. intros a. by destruct (by_peer_addr _ !! a) as [[]|]. }
  destruct (remove_closed_ok _ b (so_map _ _ Hok)) as (m & Em & Hm & Hf & Hrest). rewrite Em, mbind_Ok.
  assert (server_ok (self <| all_connections := m |>) w) as Hok1.
  { destruct Hok as [? Hopen ? ? ?]. split; try done. cbn. intros fd s. rewrite Hf. apply Hopen. }
  destruct (IH _ w Hok1) as (self2 & -> & Hok2 & Hfix & Hf2 & Ha2). exists self2. split; [done|]. split; [done|]. split; [done|].
  split; [by rewrite Hf2|]. intros a. rewrite Ha2. cbn [all_connections set_field].
  destruct (decide (a = b)) as [->|Hne].
  - unfold remove_closed in Em. pose proof (mo_there _ (so_map _ _ Hok) b) as Hth.
    destruct (by_peer_addr (all_connections self) !! b) as [[|fd|fd|u]|] eqn:Eb; [done|..];
      injection Em as <-; cbn; rewrite ?lookup_insert_eq, ?lookup_delete_eq; try done.
    + by rewrite decide_True by left.
    + by rewrite Eb.
  - rewrite Hrest by done. destruct (by_peer_addr _ !! a) as [[]|]; try done.
    destruct (decide (a ∈ addrs)); [by rewrite decide_True by by right|]. rewrite decide_False; [done|]. set_solver.
Qed.

(** What a tick does once it has the write lock: forget [olds] and close [expired]. *)
Definition clean_up (self : t) (olds expired : list SocketLocator) (n : Z) (w : World) : Res unit (t * Res unit () * World) :=
  self ← remove_all_closed self olds;
  '(self, w) ← mark_all_closed self expired n w;
  Ok (self, Ok (), w).

Lemma clean_up_ok self olds expired n w : server_ok self w ->
  exists self' w', clean_up self olds expired n w = Ok (self', Ok (), w') /\ server_ok self' w' /\ fixed self' = fixed self /\
    (forall a u, by_peer_addr (all_connections self) !! a = Some (Closed u) -> a ∉ olds ->
       by_peer_addr (all_connections self') !! a = Some (Closed u)) /\
    (forall a u, by_peer_addr (all_connections self') !! a = Some (Closed u) ->
       by_peer_addr (all_connections self) !! a = Some (Closed u) /\ a ∉ olds \/ u = n) /\
    (forall a, a ∈ expired -> by_peer_addr (all_connections self') !! a ≫= fd_of = None).
Proof.
  intros Hok. unfold clean_up. destruct (remove_all_closed_ok olds self w Hok) as (self1 & -> & Hok1 & Hf1 & _ & Ha1). rewrite mbind_Ok.
  destruct (mark_all_closed_ok expired n self1 w Hok1) as (self2 & w2 & -> & A2 & Hc2 & Hb2). rewrite mbind_Ok.
  exists self2, w2. split; [done|]. split; [by eapply ad_ok|]. split; [rewrite (ad_fixed _ _ _ _ A2); done|]. split_and!; [| |done].
  - intros a u E Hn. specialize (Ha1 a). rewrite E, decide_False in Ha1 by done.
    destruct (Hb2 a) as [E2|(_ & [fd Hfd] & _)]; [congruence|]. by rewrite Ha1 in Hfd.
  - intros a u E. destruct (Hb2 a) as [E2|(_ & _ & E2)]; [|right; congruence]. left. specialize (Ha1 a). rewrite <- E2, E in Ha1.
    destruct (by_peer_addr (all_connections self) !! a) as [[|fd|fd|u']|]; try done. case_decide; [done|]. injection Ha1 as <-. done.
Qed.

(** When a tick looks at the clock: after its packets are sent. *)
Definition tick_time (self : t) (update : TickUpdate) (w : World) : Z :=
  match send_tick_packets (self <| tick_number := u64 (tick_number self + 1) |>) (packets_to_send update) (expired_client_addrs update) w with
  | Ok (_, _, w) => now w
  | _ => 0
  end.

(** From when on closed addresses are forgotten. *)
Definition tick_expiration (self : t) (update : TickUpdate) (w : World) : Z :=
  tick_time self update w - CLOSED_SOCKET_EXPIRATION_IN_TICKS * tick_interval self.

(** What a tick does to the addresses. *)
Record ticks (self : t) (update : TickUpdate) (w : World) (self' : t) (r : Res unit ()) : Prop := {
  tk_kept a u : by_peer_addr (all_connections self) !! a = Some (Closed u) -> tick_expiration self update w < u ->
    by_peer_addr (all_connections self') !! a = Some (Closed u);
  tk_forgotten a u : r = Ok () -> by_peer_addr (all_connections self') !! a = Some (Closed u) ->
    tick_expiration self update w < u \/ u = tick_time self update w;
  tk_expired a : r = Ok () -> a ∈ expired_client_addrs update -> by_peer_addr (all_connections self') !! a ≫= fd_of = None;
  tk_inactive a ttl : r = Ok () -> inactive_ttls (all_connections self) !! a = Some ttl -> ttl <= tick_number self ->
    by_peer_addr (all_connections self') !! a ≫= fd_of = None
}.

Lemma inactive_senders_elem m n a : a ∈ inactive_senders (map_entries m) n <-> exists ttl, m !! a = Some ttl /\ ttl <= n.
Proof.
  unfold inactive_senders. rewrite list_elem_of_fmap. setoid_rewrite list_elem_of_filter. split.
  - intros ([b ttl] & -> & Hl & Hin%map_entries_elem). by exists ttl.
  - intros (ttl & E%map_entries_elem & Hl). by exists (a, ttl).
Qed.

Lemma server_tick_ok self update locked w : server_ok self w ->
  exists self' r w', tick self update locked w = Ok (self', r, w') /\ server_ok self' w' /\ fixed self' = fixed self /\
    ticks self update w self' r /\ (locked = true -> r = Ok ()).
Proof.
  intros Hok. unfold tick. set (self0 := self <| tick_number := u64 (tick_number self + 1) |>).
  assert (server_ok self0 w) as Hok0 by (destruct Hok; by split).
  destruct (send_tick_packets_ok (packets_to_send update) self0 (expired_client_addrs update) w Hok0)
    as (self1 & more & w1 & Es & A1 & _ & Hp1 & Ht1).
  assert (tick_time self update w = now w1) as Etime by (unfold tick_time; fold self0; by rewrite Es).
  rewrite Es, mbind_Ok. set (self2 := schedule_all self1 (dequeues_to_schedule update)).
  pose proof (schedule_ok self1 w1 (dequeues_to_schedule update) (ad_ok _ _ _ _ A1)) as A2. fold self2 in A2.
  change (all_connections self2) with (all_connections self1). rewrite Hp1, Ht1.
  change (all_connections self0) with (all_connections self). change (tick_interval self2) with (tick_interval self1).
  assert (tick_interval self1 = tick_interval self) as -> by (pose proof (ad_fixed _ _ _ _ A1) as E; by injection E).
  destruct (closed_connections_ok _ (map_entries (by_peer_addr (all_connections self))) (so_map _ _ Hok)) as (closed & -> & Hclosed).
  { intros [a st] Hin. by apply map_entries_elem. }
  rewrite mbind_Ok. set (expired := (_ ++ more) ++ _). set (olds := map fst _).
  assert (forall a, a ∈ olds <-> exists u, by_peer_addr (all_connections self) !! a = Some (Closed u) /\ u <= tick_expiration self update w) as Holds.
  { intros a. unfold olds, tick_expiration. rewrite Etime, list_elem_of_fmap. setoid_rewrite list_elem_of_filter. split.
    - intros ([b u] & -> & Hl & Hin%Hclosed%map_entries_elem). by exists u.
    - intros (u & E%map_entries_elem%Hclosed & Hl). by exists (a, u). }
  assert (forall a, a ∈ expired_client_addrs update -> a ∈ expired) as Hx1.
  { intros a Hin. unfold expired. rewrite !elem_of_app. auto. }
  assert (forall a ttl, inactive_ttls (all_connections self) !! a = Some ttl -> ttl <= tick_number self -> a ∈ expired) as Hx2.
  { intros a ttl E Hl. unfold expired. rewrite elem_of_app. right. apply inactive_senders_elem. by exists ttl. }
  destruct (clean_up_ok self2 olds expired (now w1) w1 (ad_ok _ _ _ _ A2)) as (self3 & w3 & Ec & Hok3 & Hf3 & Hk3 & Hc3 & He3).
  change (all_connections self2) with (all_connections self1) in Hk3, Hc3. rewrite Hp1 in Hk3, Hc3.
  change (all_connections self0) with (all_connections self) in Hk3, Hc3.
  assert (fixed self2 = fixed self) as Hf2 by (rewrite (ad_fixed _ _ _ _ A2), (ad_fixed _ _ _ _ A1); done).
  assert (ticks self update w self3 (Ok ())) as Hticks.
  { split.
    - intros a u E Hl. apply Hk3; [done|]. intros (u' & E' & Hl')%Holds. rewrite E in E'. injection E' as <-. lia.
    - intros a u _ E. destruct (Hc3 a u E) as [[E' Hn] | ->]; [left|by right].
      destruct (Z.lt_ge_cases (tick_expiration self update w) u); [done|]. exfalso. apply Hn, Holds. eauto.
    - intros a _ Hin. by apply He3, Hx1.
    - intros a ttl _ E Hl. eapply He3, Hx2; eauto. }
  assert (exists self' r w', (if locked then clean_up self2 olds expired (now w1) w1 else Ok (self2, Err (), w1)) = Ok (self', r, w') /\
    server_ok self' w' /\ fixed self' = fixed self /\ ticks self update w self' r /\ (locked = true -> r = Ok ())) as Hgoal.
  { destruct locked; [rewrite Ec; exists self3, (Ok ()), w3; split_and!; [done|done|congruence|done|done]|].
    exists self2, (Err ()), w1. split_and!; [done|by eapply ad_ok|done| |done]. split; [|done..].
    intros a u E _. cbn. by rewrite Hp1. }
  unfold clean_up in Ec, Hgoal.
  destruct expired as [|x expired], olds as [|y olds]; try exact Hgoal.
  injection Ec as -> ->. exists self3, (Ok ()), w3. split_and!; [done|done|congruence|done|done].
Qed.
End Facts.
End LoopFacts.
