(* ===== verification/PacketServerProperties.v ===== *)
(** * Properties of the packet server

    What holds of every state the server on epoll reaches from its start, through
    turns of its threads and ticks, while time passes and clients come and go,
    with any SFU that keeps the promise of [HandlerLaws], as [SfuServer] does.  A
    panic of the SFU, which ends the process, is the outcome [Err ()]. *)
From Stdlib Require Import ZArith Lia.
From stdpp Require Import list gmap.
From S2P Require Import Prelude.
From S2P Require Import Common.
From S2P Require Import Float.
From S2P Require Import Collections.
From S2P Require Import Bytes Srtp RtpHeader Packet RtpEndpoint Pacer Ice Googcc Layers ApprovedUsers Client Connection.
From S2P Require Import Call CallHandlers CallSpec CallFacts MediaFacts CallProperties Sfu SfuFacts SfuProperties.
From S2P Require Import Sockets.
From S2P Require Import ConnectionMap.
From S2P Require Import PacketServer.
From S2P Require Import Framing.
From S2P Require Import ConnectionMapFacts.
From S2P Require Import SocketFacts.
From S2P Require Import TimerHeapFacts.
From S2P Require Import PacketServerFacts.
From S2P Require Import EventLoopFacts.
From S2P Require Import SfuServer.

(** ** The start of the server *)
Module StartFacts.
Import Io Sockets ConnectionMap Framing MapFacts SocketFacts PacketServer ServerFacts HeapFacts LoopFacts.

Section Facts.
Context `{IoLaws} `{TimerHeap.HeapOrder} `{MapOrder}.

(** A program that does not panic, and that leads to [P] when it succeeds. *)
Definition leads {A} (m : Io A) (w : World) (P : A -> World -> Prop) : Prop :=
  match m w with
  | (Ok a, w') => P a w'
  | (Err _, _) => True
  | (Panic, _) => False
  end.

Lemma leads_ret {A} (a : A) w P : P a w -> leads (mret a) w P.
Proof. done. Qed.

Lemma leads_bind {A B} (m : Io A) (k : A -> Io B) w P Q : leads m w P -> (forall a w', P a w' -> leads (k a) w' Q) -> leads (m ≫= k) w Q.
Proof. unfold leads, mbind, Io_bind. destruct (m w) as [[a|e|] w1]; [|done..]. intros Hp Hk. by apply Hk. Qed.

Lemma leads_closing {A} fd (m : Io A) w P : leads m w P -> leads (closing_on_error fd m) w P.
Proof. unfold leads, closing_on_error. by destruct (m w) as [[a|e|] w1]. Qed.

Lemma leads_keeps {A} fd (m : Io A) w : keeps fd m -> fd ∈ open_fds w -> leads m w (fun _ w' => open_fds w' = open_fds w).
Proof. intros Hk Hfd. destruct (Hk w Hfd) as [Hp Hw]. unfold leads. by destruct (m w) as [[a|e|] w1]. Qed.

Lemma leads_opens m w : opens_one m -> leads m w (fun fd w' => 0 <= fd /\ fd ∉ open_fds w /\ open_fds w' = {[fd]} ∪ open_fds w).
Proof. intros Ho. specialize (Ho w). unfold leads. by destruct (m w) as [[a|e|] w1]. Qed.

Lemma listen_socket_opens addr : opens_one (open_listen_socket addr).
Proof. apply opens_one_then; [apply opens_one_socket|]. intros fd. split; eauto 10 with signal. Qed.

Lemma create_epolls_leads n : forall w, leads (create_epolls n) w (fun _ w' => open_fds w ⊆ open_fds w').
Proof.
  induction n as [|n IH]; intros w; cbn [create_epolls]; [by apply leads_ret|].
  eapply leads_bind with (P := fun _ w' => open_fds w ⊆ open_fds w').
  - unfold leads, sys. destruct (syscall _ w) as [[fd|e] w1] eqn:E; [|done]. apply syscall_fds in E. cbn in E. set_solver.
  - intros fd w1 Hw. eapply leads_bind; [apply IH|]. intros l w2 Hw2. apply leads_ret. set_solver.
Qed.

(** A server that was just made: nobody is connected. *)
Definition starts (self : t) (w : World) : Prop := server_ok self w /\ all_connections self = ConnectionMap.new.

Lemma new_leads udp tcp tls config n interval w : (is_Some tls -> config = true) ->
  leads (PacketServer.new udp tcp tls config n interval) w starts.
Proof.
  intros Hc. unfold PacketServer.new. eapply leads_bind; [apply leads_opens, open_socket_opens|].
  intros fd1 w1 (_ & _ & Hw1). apply leads_closing. eapply leads_bind; [apply leads_opens, listen_socket_opens|].
  intros fd2 w2 (_ & _ & Hw2). apply leads_closing.
  eapply leads_bind with (P := fun o w' => {[fd1; fd2]} ∪ (if o is Some fd3 then {[fd3]} else ∅) ⊆ open_fds w' /\ (is_Some o -> config = true)).
  { destruct tls as [addr|].
    - eapply leads_bind; [apply leads_opens, listen_socket_opens|]. intros fd3 w3 (_ & _ & Hw3). apply leads_ret.
      split; [set_solver|intros _; by apply Hc].
    - apply leads_ret. split; [set_solver|by intros []]. }
  intros o w3 [Hw3 Ho]. set (m := create_epolls n ≫= _).
  assert (leads m w3 starts) as Hm; [|by destruct o; [apply leads_closing|]].
  unfold m. eapply leads_bind; [apply create_epolls_leads|]. intros l w4 Hw4. set (result := mk _ _ _ _ _ _ _ _ _ _).
  assert (forall fd, fd ∈ listeners result -> fd ∈ open_fds w4) as Hl.
  { intros fd Hfd. apply Hw4, Hw3. unfold listeners, result in Hfd. cbn in Hfd. destruct o as [fd3|]; cbn in Hfd; set_solver. }
  assert (forall fd w', open_fds w' = open_fds w4 -> fd ∈ listeners result ->
    leads (add_socket_to_poll_for_reads result fd) w' (fun _ w'' => open_fds w'' = open_fds w4)) as Hadd.
  { intros fd w' Hw' Hfd. rewrite <- Hw'. eapply (leads_keeps fd1); [apply keeps_poll|]. rewrite Hw'. apply Hl. by left. }
  eapply leads_bind; [apply Hadd; [done|by left]|]. intros u5 w5 Hw5.
  eapply leads_bind; [apply Hadd; [done|by right; left]|]. intros u6 w6 Hw6.
  eapply leads_bind with (P := fun _ w' => open_fds w' = open_fds w4).
  { destruct o as [fd3|] eqn:Eo; [|by apply leads_ret]. apply Hadd; [done|]. right. right. by left. }
  intros u7 w7 Hw7. apply leads_ret. split; [|done]. split; cbn.
  - apply new_map_ok.
  - intros fd s E. by rewrite lookup_empty in E.
  - intros fd Hfd. rewrite Hw7. by apply Hl.
  - intros fd ->. by apply Ho.
  - done.
Qed.

Lemma more_open self w w' : server_ok self w -> open_fds w ⊆ open_fds w' -> server_ok self w'.
Proof.
  intros [? Hopen ? ? ?] Hw. split; try done; [|set_solver]. intros fd s E. destruct (Hopen fd s E). set_solver.
Qed.

Lemma new_thread_ok epoll_fd w th w' : new_thread epoll_fd w = (th, w') -> thread_ok th /\ open_fds w ⊆ open_fds w'.
Proof.
  assert (forall o n, thread_ok (thread [new_buffer] o n)) as Ht.
  { intros o n. split; [|done]. cbn. by constructor; [apply new_buffer_ok|]. }
  unfold new_thread. destruct (syscall SysTimerCreate w) as [[fd|e] w1] eqn:E; apply syscall_fds in E; cbn in E.
  - destruct E as (_ & Hn & E). destruct (syscall (SysEpollAdd _ _) w1) as [[]] eqn:E2; apply syscall_fds in E2; cbn in E2.
    + intros [= <- <-]. split; [apply Ht|set_solver].
    + intros [= <- <-]. split; [apply Ht|]. destruct (syscall (SysClose fd) _) as [r w3] eqn:E3. apply syscall_fds in E3. cbn in *. set_solver.
  - intros [= <- <-]. split; [apply Ht|set_solver].
Qed.
End Facts.
End StartFacts.

(** * Theorems *)
Module PacketServerProperties.
Import Io Sockets ConnectionMap Framing MapFacts SocketFacts PacketServer ServerFacts HeapFacts LoopFacts StartFacts.

Section Properties.
Context `{IoLaws} `{TimerHeap.HeapOrder} `{MapOrder} `{HandlerLaws}.

Record State := state { st_server : t; st_sfu : SfuState; st_threads : list Thread; st_world : World }.

(** The fuel that is enough to receive what one client ever sends. *)
Definition enough : nat := 2 + MAX_RTP_LENGTH + stream_bound.

Definition real_events (events : list Event) : Prop := Forall (fun e => 0 <= event_fd e) events.

(** The states of a running server.  The world changes between its steps, except
    for the descriptors, which are the server's. *)
Inductive reachable : State -> Prop :=
| reach_start udp tcp tls config n interval w self w' sfu :
    PacketServer.new udp tcp tls config n interval w = (Ok self, w') -> (is_Some tls -> config = true) ->
    reachable (state self sfu [] w')
| reach_thread self sfu ths w epoll_fd th w' : reachable (state self sfu ths w) -> new_thread epoll_fd w = (th, w') ->
    reachable (state self sfu (ths ++ [th]) w')
| reach_elapse self sfu ths w w' : reachable (state self sfu ths w) -> open_fds w' = open_fds w ->
    reachable (state self sfu ths w')
| reach_turn self sfu ths w i th events fuel fuel_due self' sfu' th' w' : reachable (state self sfu ths w) ->
    ths !! i = Some th -> real_events events -> (enough <= fuel)%nat ->
    run_turn fuel fuel_due self sfu th events w = Ok (self', sfu', th', w') ->
    reachable (state self' sfu' (<[i := th']> ths) w')
| reach_tick self sfu ths w healthy locked self' sfu' healthy' w' : reachable (state self sfu ths w) ->
    tick_turn self sfu healthy locked w = Ok (self', sfu', healthy', w') ->
    reachable (state self' sfu' ths w').

Definition state_ok (s : State) : Prop :=
  server_ok (st_server s) (st_world s) /\ Forall thread_ok (st_threads s).

Lemma handle_dequeues_more th r fuel : forall fuel' self sfu left w, handle_dequeues fuel self sfu th left w = Ok r ->
  (fuel <= fuel')%nat -> handle_dequeues fuel' self sfu th left w = Ok r.
Proof.
  induction fuel as [|fuel IH]; intros fuel' self sfu left w E Hl.
  { destruct left; [|done]. by destruct fuel'. }
  destruct fuel' as [|fuel']; [lia|]. destruct left as [|fewer]; [done|]. cbn [handle_dequeues] in E |- *.
  destruct (TimerHeap.next _ _) as [h [a|d|]]; [|done..].
  apply bind_Ok in E as ([sfu1 o] & -> & E). rewrite mbind_Ok. destruct o as [[[a' buf] time]|]; [|apply IH; [done|lia]].
  apply bind_Ok in E as ([self1 w1] & Es & E). rewrite Es, mbind_Ok. apply IH; [done|lia].
Qed.

(** A turn that returns is one with enough fuel for the dequeues too. *)
Lemma run_turn_returns fuel fuel_due events self sfu th w r : server_ok self w -> thread_ok th ->
  real_events events -> (enough <= fuel)%nat -> run_turn fuel fuel_due self sfu th events w = Ok r ->
  turns self w th (Ok r).
Proof.
  intros Hok Ht He Hf E. destruct (run_turn_ok fuel events self sfu th w Hok Ht He Hf) as [fuel0 Hrun].
  specialize (Hrun (Nat.max fuel0 fuel_due) ltac:(lia)). revert E Hrun. unfold run_turn.
  intros ([[[self1 sfu1] th1] w1] & -> & E)%bind_Ok. rewrite mbind_Ok.
  apply bind_Ok in E as ([[[self2 sfu2] l2] w2] & E2 & E3).
  rewrite (handle_dequeues_more _ _ _ _ _ _ _ _ E2), mbind_Ok by lia. by rewrite E3.
Qed.

Lemma tick_turn_ok self sfu healthy locked w : server_ok self w ->
  match tick_turn self sfu healthy locked w with
  | Ok (self', _, _, w') => server_ok self' w'
  | Err _ => True
  | Panic => False
  end.
Proof.
  intros Hok. unfold tick_turn. destruct (sfu_tick sfu (now w)) as [[sfu1 update]|e|]; [|done..]. cbn [of_sfu]. rewrite mbind_Ok.
  destruct (server_tick_ok self update locked w Hok) as (self1 & r & w1 & -> & Hok1 & _). by rewrite mbind_Ok.
Qed.

Lemma reachable_state_ok s : reachable s -> state_ok s.
Proof.
  unfold state_ok. induction 1 as [udp tcp tls config n interval w self w' sfu E Hc|self sfu ths w epoll_fd th w' _ (Hok & Ht) E
    |self sfu ths w w' _ (Hok & Ht) E|self sfu ths w i th events fuel fuel_due self' sfu' th' w' _ (Hok & Ht) Hi He Hf E
    |self sfu ths w healthy locked self' sfu' healthy' w' _ (Hok & Ht) E]; cbn in *.
  - pose proof (new_leads udp tcp tls config n interval w Hc) as Hl. unfold leads in Hl. rewrite E in Hl. by destruct Hl.
  - apply new_thread_ok in E as [Hth Hw]. split; [by eapply more_open|]. apply Forall_app_2; [done|by constructor].
  - split; [|done]. by eapply ad_ok, same_fds.
  - pose proof (Forall_lookup_1 _ _ _ _ Ht Hi) as Hth.
    destruct (run_turn_returns _ _ _ _ _ _ _ _ Hok Hth He Hf E) as (A & Hth' & _).
    split; [by eapply ad_ok|by apply Forall_insert].
  - pose proof (tick_turn_ok self sfu healthy locked w Hok) as Hok'. by rewrite E in Hok'.
Qed.

(** C22: The packet server adds no panic to those of the SFU, and keeps one socket for each peer:
    in every reachable state a turn of a thread ends, whatever events it is given, once there is fuel
    for the packets one client sends and for the dequeues, and so does a tick, unless a call of the
    SFU panics; each open address has a socket of its own, each socket serves one address, of its
    own kind, and the sockets the server listens on are never among them. *)
Theorem packet_server_keeps_connections s : reachable s ->
  (forall i th events fuel, st_threads s !! i = Some th -> real_events events -> (enough <= fuel)%nat ->
     exists fuel0, forall fuel_due, (fuel0 <= fuel_due)%nat ->
       run_turn fuel fuel_due (st_server s) (st_sfu s) th events (st_world s) <> Panic) /\
  (forall healthy locked, tick_turn (st_server s) (st_sfu s) healthy locked (st_world s) <> Panic) /\
  let m := all_connections (st_server s) in
  (forall a, exists st, get_by_addr m a = Ok st /\
     match st with
     | NotYetConnected => by_peer_addr m !! a = None
     | New socket | Connected socket => get_by_fd m (as_raw_fd socket) = Some socket /\ serves socket a /\
         as_raw_fd socket ∈ open_fds (st_world s) /\ as_raw_fd socket ∉ listeners (st_server s)
     | Closed u => by_peer_addr m !! a = Some (Closed u)
     end) /\
  (forall fd socket, get_by_fd m fd = Some socket -> as_raw_fd socket = fd /\
     exists a, (get_by_addr m a = Ok (New socket) \/ get_by_addr m a = Ok (Connected socket)) /\
       forall b, get_by_addr m b = Ok (New socket) \/ get_by_addr m b = Ok (Connected socket) -> b = a).
Proof.
  intros (Hok & Ht)%reachable_state_ok. pose proof (so_map _ _ Hok) as Hm.
  assert (forall a socket, get_by_addr (all_connections (st_server s)) a = Ok (New socket) \/
    get_by_addr (all_connections (st_server s)) a = Ok (Connected socket) <-> open_on (all_connections (st_server s)) a socket) as Hopen.
  { intros a socket. destruct (get_by_addr_ok _ a Hm) as (st & -> & Hst). split.
    - intros [[= ->]|[= ->]]; apply Hst.
    - intros (E1 & E2 & _). destruct st as [|u|u|u]; [by rewrite Hst in E1| | |by rewrite Hst in E1].
      all: destruct Hst as [(E3 & E4 & _) _]; assert (u = socket) as -> by congruence; auto. }
  split; [|split; [|intros m; split]].
  - intros i th events fuel Hi He Hf. pose proof (Forall_lookup_1 _ _ _ _ Ht Hi) as Hth.
    destruct (run_turn_ok fuel events _ (st_sfu s) th _ Hok Hth He Hf) as [fuel0 Hrun]. exists fuel0. intros fuel_due Hd E.
    specialize (Hrun fuel_due Hd). by rewrite E in Hrun.
  - intros healthy locked E. pose proof (tick_turn_ok _ (st_sfu s) healthy locked _ Hok) as Htick. by rewrite E in Htick.
  - intros a. destruct (get_by_addr_ok _ a Hm) as (st & E & Hst). exists st. split; [done|].
    destruct st as [|u|u|u]; [done| | |done]; destruct Hst as [(_ & E2 & E3) _]; split_and!; try done; by eapply so_open.
  - intros fd socket E. destruct (mo_fd _ Hm _ _ E) as (Hfd & _ & a & Ha). split; [done|]. exists a. split; [by apply Hopen|].
    intros b Hb%Hopen. by eapply mo_one.
Qed.

(** C24: A closed address stays closed for ten ticks and no longer: no turn of a thread reopens a
    closed UDP address, and a tick forgets the addresses closed for ten intervals, all of them when
    it gets the lock, and no others; it closes the clients that left and those that were never
    active within their time. *)
Theorem closed_addresses_stay_closed s : reachable s ->
  (forall i th events fuel fuel_due self' sfu' th' w', st_threads s !! i = Some th -> real_events events -> (enough <= fuel)%nat ->
     run_turn fuel fuel_due (st_server s) (st_sfu s) th events (st_world s) = Ok (self', sfu', th', w') ->
     forall a u, by_peer_addr (all_connections (st_server s)) !! Udp a = Some (Closed u) ->
       by_peer_addr (all_connections self') !! Udp a = Some (Closed u)) /\
  forall update locked self' r w', tick (st_server s) update locked (st_world s) = Ok (self', r, w') ->
    let read := tick_time (st_server s) update (st_world s) in
    let expiration := read - 10 * tick_interval (st_server s) in
    (forall a u, by_peer_addr (all_connections (st_server s)) !! a = Some (Closed u) -> expiration < u ->
       by_peer_addr (all_connections self') !! a = Some (Closed u)) /\
    (locked = true ->
       r = Ok () /\
       (forall a u, by_peer_addr (all_connections self') !! a = Some (Closed u) -> expiration < u \/ u = read) /\
       (forall a socket, a ∈ expired_client_addrs update \/
          (exists ttl, inactive_ttls (all_connections (st_server s)) !! a = Some ttl /\ ttl <= tick_number (st_server s)) ->
          get_by_addr (all_connections self') a <> Ok (New socket) /\ get_by_addr (all_connections self') a <> Ok (Connected socket))).
Proof.
  intros (Hok & Ht)%reachable_state_ok. split.
  - intros i th events fuel fuel_due self' sfu' th' w' Hi He Hf E a u Ha. pose proof (Forall_lookup_1 _ _ _ _ Ht Hi) as Hth.
    destruct (run_turn_returns _ _ _ _ _ _ _ _ Hok Hth He Hf E) as (A & _). by apply (ad_closed _ _ _ _ A).
  - intros update locked self' r w' E. destruct (server_tick_ok (st_server s) update locked (st_world s) Hok) as (self1 & r1 & w1 & E1 & Hok1 & _ & Hk & Hr).
    rewrite E in E1. injection E1 as <- <- <-. destruct Hk as [Hkept Hforg Hexp Hin]. split; [exact Hkept|]. intros Hl%Hr. split; [done|].
    split; [intros a u; by apply Hforg|]. intros a socket Ha.
    assert (by_peer_addr (all_connections self') !! a ≫= fd_of = None) as Hn by (destruct Ha as [Ha|(ttl & Ha & Hle)]; eauto).
    destruct (get_by_addr_ok _ a (so_map _ _ Hok1)) as (st & Est & Hst). rewrite Est.
    split; intros [= ->]; destruct Hst as [(E2 & _) _]; congruence.
Qed.

(** C25: A turn leaves no dequeue behind: with enough fuel it ends, unless the SFU panics, either
    with sixteen of the dequeues answered with packets, and then the thread does not wait but comes
    back at once; or with fewer, and nothing left that is due; it then waits for at most 25 ms, and
    if it has a timer and anything is left, the timer that is set is that of a scheduled dequeue,
    and no later than any other. *)
Theorem dequeues_on_time s i th events fuel : reachable s -> st_threads s !! i = Some th ->
  real_events events -> (enough <= fuel)%nat ->
  exists fuel0, forall fuel_due, (fuel0 <= fuel_due)%nat ->
  match run_turn fuel fuel_due (st_server s) (st_sfu s) th events (st_world s) with
  | Ok (self', sfu', th', w') =>
      exists sfu answers, answered sfu answers sfu' /\
        (packets answers = 16%nat /\ poll_timeout_ms th' = 0 \/
         (packets answers < 16)%nat /\ poll_timeout_ms th' = 25 /\
         let left_over := TimerHeap.tasks (timer_heap self') in
         (exists seen, (w' = seen \/ exists fd d, 0 < d /\ w' = (syscall (SysTimerSet fd d) seen).2) /\
            Forall (fun e => now seen < e.1) left_over) /\
         (is_Some (timer th') -> left_over <> [] ->
            exists time, TimerHeap.active_timer (timer_heap self') = Some time /\ time ∈ map fst left_over /\
              Forall (fun e => time <= e.1) left_over))
  | Err _ => True
  | Panic => False
  end.
Proof.
  intros (Hok & Ht)%reachable_state_ok Hi He Hf. pose proof (Forall_lookup_1 _ _ _ _ Ht Hi) as Hth.
  destruct (run_turn_ok fuel events _ (st_sfu s) th _ Hok Hth He Hf) as [fuel0 Hrun]. exists fuel0. intros fuel_due Hd.
  specialize (Hrun fuel_due Hd). destruct (run_turn _ _ _ _ _ _ _) as [[[[self' sfu'] th'] w']|e|]; [|done..].
  destruct Hrun as (A & _ & Etimer & left & sfu & l & Hp & Hans & El & Ew). exists sfu, l. split; [done|]. unfold MAX_EPOLL_EVENTS in El.
  destruct Hp as [-> |(Hne & self1 & w1 & Hheap & Hlate & Hp)]; [left; split; [lia|done]|right].
  split; [lia|]. split; [by destruct left|]. rewrite Etimer.
  pose proof (set_timer_ok (timer_heap self1) (now w1) Hheap) as (_ & Etasks & _).
  destruct Hp as [Ha|[[= -> ->] Hnil]].
  2: { split; [exists w1; split; [by left|done]|]. intros _ []. exact Hnil. }
  pose proof (set_timer_delay (timer_heap self1) (now w1) Hlate) as Hdelay.
  pose proof (set_timer_is_next (timer_heap self1) (now w1) Hheap) as Hnext.
  unfold arm_timer in Ha. destruct (timer th) as [fd|].
  2: { injection Ha as -> ->. split; [exists w1; split; [by left|done]|by intros []]. }
  destruct (TimerHeap.set_timer _ _) as [heap delay]. injection Ha as -> ->. cbn in Etasks, Hdelay, Hnext. cbn. rewrite Etasks. split.
  - exists w1. split; [|done]. destruct delay as [d|]; [right; exists fd, d; by split; [apply Hdelay|]|by left].
  - intros _. exact Hnext.
Qed.
End Properties.

(** ** A sample: an operating system with UDP sockets, and an SFU with a call

    A world has its descriptors, the clock and the datagrams that wait on each
    descriptor. *)
Record Host := host { h_fds : list RawFd; h_clock : Z; h_datagrams : list (RawFd * bytes * SocketAddr); h_sent : list (RawFd * bytes) }.

Definition next_fd (l : list RawFd) : RawFd := 1 + foldr Z.max 0 l.

Lemma next_fd_fresh l : 0 <= next_fd l /\ next_fd l ∉ l.
Proof.
  assert (0 <= foldr Z.max 0 l /\ Forall (fun fd => fd <= foldr Z.max 0 l) l) as [H1 H2].
  { induction l as [|fd l [IH1 IH2]]; cbn; [done|]. split; [lia|]. constructor; [lia|]. eapply Forall_impl; [exact IH2|]. cbn. lia. }
  unfold next_fd. split; [lia|]. rewrite Forall_forall in H2. intros Hin%H2. lia.
Qed.

Definition open_fd (w : Host) : IoResult RawFd * Host :=
  (Done (next_fd (h_fds w)), host (next_fd (h_fds w) :: h_fds w) (h_clock w) (h_datagrams w) (h_sent w)).

Definition take_datagram (fd : RawFd) (w : Host) : IoResult (bytes * SocketAddr) * Host :=
  match list_find (fun d => d.1.1 = fd) (h_datagrams w) with
  | Some (i, (_, p, a)) => (Done (map u8 p, a), host (h_fds w) (h_clock w) (delete i (h_datagrams w)) (h_sent w))
  | None => (Failed WouldBlock, w)
  end.

#[local] Instance host_os : Os := {|
  World := Host;
  syscall A c :=
    match c in Syscall A return Host -> IoResult A * Host with
    | SysSocket _ _ => open_fd
    | SysAccept _ => fun w => (Failed WouldBlock, w)
    | SysEpollCreate => open_fd
    | SysTimerCreate => open_fd
    | SysClose fd => fun w => (Done (), host (filter (fun f => f <> fd) (h_fds w)) (h_clock w) (h_datagrams w) (h_sent w))
    | SysReusePort _ | SysSendBuffer _ _ | SysBind _ _ | SysListen _ _ | SysReadTimeout _ _ | SysNonblocking _ | SysNodelay _
    | SysConnect _ _ | SysEpollAdd _ _ | SysTimerSet _ _ | SysTimerWait _ => fun w => (Done (), w)
    | SysSend fd p => fun w => (Done (Z.of_nat (length p)), host (h_fds w) (h_clock w) (h_datagrams w) (h_sent w ++ [(fd, p)]))
    | SysRecvFrom fd _ => take_datagram fd
    | SysPeerAddr _ => fun w => (Failed OtherError, w)
    | SysTakeError _ => fun w => (Done None, w)
    | SysSendTo _ _ _ => fun w => (Failed OtherError, w)
    | SysRead _ _ => fun w => (Failed WouldBlock, w)
    | SysWrite _ _ => fun w => (Failed WouldBlock, w)
    end;
  clock w i := h_clock w;
  next_id w := (0, w)
|}.

#[local] Instance no_tls : Tls := {|
  ServerConnection := Empty_set;
  tls_new w := (Failed OtherError, w);
  is_handshaking c := match c with end;
  wants_read c := match c with end;
  wants_write c := match c with end;
  read_tls c := match c with end;
  write_tls c := match c with end;
  process_new_packets c := match c with end;
  reader_read c := match c with end;
  writer_write c := match c with end
|}.

#[local] Program Instance no_streams : StreamLaws := {|
  os_written _ w := [];
  os_arriving _ w := [];
  tls_written c := match c with end;
  tls_arriving c := match c with end
|}.
Next Obligation. intros fd buf w r w'. cbn. by intros [= <- _]. Qed.
Next Obligation. intros fd n w r w'. cbn. by intros [= <- _]. Qed.
Next Obligation. intros []. Qed.
Next Obligation. intros []. Qed.
Next Obligation. intros []. Qed.
Next Obligation. intros []. Qed.
Next Obligation. intros []. Qed.
Next Obligation. intros []. Qed.

Lemma host_fds {A} (c : Syscall A) w r w' : syscall c w = (r, w') ->
  after_call c r (list_to_set (h_fds w) : gset RawFd) (list_to_set (h_fds w')).
Proof.
  assert (forall fd, fd ∉ (list_to_set (h_fds w) : gset RawFd) <-> fd ∉ h_fds w) as Hl by (intros fd; by rewrite elem_of_list_to_set).
  pose proof (next_fd_fresh (h_fds w)) as [Hp Hf].
  assert (forall r w', open_fd w = (r, w') -> match r with
    | Done fd => 0 <= fd /\ fd ∉ (list_to_set (h_fds w) : gset RawFd) /\ list_to_set (h_fds w') = ({[fd]} ∪ list_to_set (h_fds w) : gset RawFd)
    | Failed _ => list_to_set (h_fds w') = (list_to_set (h_fds w) : gset RawFd) end) as Hopen.
  { intros r' w1 [= <- <-]. split_and!; [done|by apply Hl|done]. }
  destruct c; cbn [syscall host_os]; unfold after_call; cbn [closes opens]; intros E; try (injection E as <- <-; done).
  - by apply Hopen in E; destruct r.
  - injection E as <- <-. cbn. apply set_eq. intros x. rewrite elem_of_difference, !elem_of_list_to_set, list_elem_of_filter. set_solver.
  - by apply Hopen in E; destruct r.
  - unfold take_datagram in E. destruct (list_find _ _) as [[i [[fd' p] a]]|]; by injection E as <- <-.
  - by apply Hopen in E; destruct r.
Qed.

#[local] Program Instance host_laws : IoLaws := {|
  open_fds w := list_to_set (h_fds w);
  syscall_fds A := host_fds;
  stream_bound := 0
|}.
Next Obligation. by intros w i w' [= _ <-]. Qed.
Next Obligation. by intros w r w' [= _ <-]. Qed.
Next Obligation. intros []. Qed.
Next Obligation. intros []. Qed.
Next Obligation. by intros fd w r w' [= <- _]. Qed.
Next Obligation.
  intros fd n w got a w'. cbn. unfold take_datagram. destruct (list_find _ _) as [[i [[fd' p] a']]|]; [|done]. intros [= <- _ _].
  apply Forall_forall. intros x (y & -> & _)%list_elem_of_fmap. apply wrap_uint. lia.
Qed.
Next Obligation. intros [fd|[]] w. cbn. split; [lia|constructor]. Qed.

#[local] Program Instance first_least : TimerHeap.HeapOrder := {|
  TimerHeap.top l := default 0%nat (fst <$> list_find (fun z => Forall (fun z' => z <= z') l) l)
|}.
Next Obligation.
  intros l Hl. assert (exists z, z ∈ l /\ Forall (fun z' => z <= z') l) as (z & Hz & Hmin).
  { induction l as [|x l IH]; [done|]. destruct l as [|y l].
    - exists x. split; [by left|]. by constructor.
    - destruct IH as (z & Hz & Hmin); [done|]. destruct (Z.le_ge_cases x z).
      + exists x. split; [by left|]. constructor; [done|]. eapply Forall_impl; [exact Hmin|]. cbn. lia.
      + exists z. split; [by right|]. by constructor. }
  destruct (list_find_elem_of (fun z => Forall (fun z' => z <= z') l) l z Hz Hmin) as [[i z'] E]. rewrite E. cbn.
  apply list_find_Some in E as (E1 & E2 & _). eauto.
Qed.

(** Alice has joined a call of the SFU. *)
#[local] Existing Instances SampleCall.sample_mrp SampleCall.sample_protos SampleCipher.flip_aead.
#[local] Existing Instances IceProperties.toy_hmac IceProperties.toy_crc.
#[local] Existing Instances ConnectionProperties.list_order ConnectionProperties.toy_powf SfuProperties.list_map_order.
#[local] Instance sfu_handler : PacketHandler := SfuServer.sfu_handler (fun _ => SfuProperties.quiet).
#[local] Instance sfu_laws : HandlerLaws := SfuServerFacts.sfu_handler_laws _.

Definition sfu0 : Sfu.t := match SfuProperties.after 1 with Ok sfu => sfu | _ => SfuProperties.server end.

Definition local : SocketAddr := SocketAddrV4 2130706433 10000.
Definition peer : SocketAddr := SocketAddrV4 16909060 5000.

(** The server starts, and a thread of it, *)
Definition started : Res ErrorKind t * World :=
  PacketServer.new local local None false 1 (Duration.from_millis 100) (host [] 0 [] []).
Definition server0 : t :=
  match started with
  | (Ok self, _) => self
  | _ => mk local 0 0 None false [] ConnectionMap.new 0 0 TimerHeap.new
  end.
Definition thread0 : Thread := (new_thread 3 started.2).1.

(** Alice's phone sends a binding request that nominates its address, *)
Definition datagram : Host :=
  host (h_fds (new_thread 3 started.2).2) (Duration.from_secs 5) [(1, SfuProperties.nomination, peer)] [].
Definition arrives : list Event := [event 1 false true].

(** and the thread handles it: the response goes out on a socket of its own. *)
Definition first_turn : Res unit (t * Sfu.t * Thread * World) := run_turn 2000 100 server0 sfu0 thread0 arrives datagram.

Lemma first_turn_result : match first_turn with
  | Ok (self, _, th, w) => by_peer_addr (all_connections self) !! Udp peer = Some (Connected 5) /\
      map (fun e => (fst e, take 2 (snd e))) (h_sent w) = [(5, Ice.BINDING_RESPONSE_ID)] /\
      TimerHeap.tasks (timer_heap self) = [] /\ poll_timeout_ms th = 25
  | _ => False
  end.
Proof. vm_compute. done. Qed.

Lemma before_reachable : reachable (state server0 sfu0 [thread0] datagram).
Proof.
  eapply (reach_elapse _ _ _ (new_thread 3 started.2).2); [|by vm_compute].
  change [thread0] with ([] ++ [thread0]).
  apply reach_thread with (w := started.2) (epoll_fd := 3); [|by destruct (new_thread 3 started.2) eqn:E; unfold thread0; rewrite E].
  apply reach_start with (udp := local) (tcp := local) (tls := None) (config := false) (n := 1%nat)
    (interval := Duration.from_millis 100) (w := host [] 0 [] []); [by vm_compute|by intros []].
Qed.

Lemma first_turn_reachable : exists self sfu th w, first_turn = Ok (self, sfu, th, w) /\ reachable (state self sfu [th] w).
Proof.
  pose proof first_turn_result as Hr. destruct first_turn as [[[[self sfu] th] w]|e|] eqn:E; [|destruct Hr..].
  exists self, sfu, th, w. split; [reflexivity|].
  change [th] with (<[0%nat := th]> [thread0]).
  apply reach_turn with (self := server0) (sfu := sfu0) (w := datagram) (th := thread0) (events := arrives)
    (fuel := 2000%nat) (fuel_due := 100%nat); [exact before_reachable|done|by constructor| |exact E].
  unfold enough, MAX_RTP_LENGTH. cbn [stream_bound host_laws]. lia.
Qed.

Lemma packet_server_keeps_connections_witness : exists self sfu th w, first_turn = Ok (self, sfu, th, w) /\
  forall events, real_events events -> exists fuel0, forall fuel_due, (fuel0 <= fuel_due)%nat ->
    run_turn 2000 fuel_due self sfu th events w <> Panic.
Proof.
  destruct first_turn_reachable as (self & sfu & th & w & E & Hr). exists self, sfu, th, w. split; [exact E|]. intros events He.
  destruct (packet_server_keeps_connections _ Hr) as [Hturn _].
  apply (Hturn 0%nat th events 2000%nat eq_refl He). unfold enough, MAX_RTP_LENGTH. cbn [stream_bound host_laws]. lia.
Defined.

(** A tick at which the SFU gives the client up. *)
Definition gone : TickUpdate := tick_update [] [] [Udp peer].

Lemma closed_addresses_stay_closed_witness : exists self sfu th w, first_turn = Ok (self, sfu, th, w) /\
  forall self' r w', tick self gone true w = Ok (self', r, w') ->
    r = Ok () /\ forall socket, get_by_addr (all_connections self') (Udp peer) <> Ok (Connected socket).
Proof.
  destruct first_turn_reachable as (self & sfu & th & w & E & Hr). exists self, sfu, th, w. split; [exact E|]. intros self' r w' Et.
  destruct (closed_addresses_stay_closed _ Hr) as [_ Htick].
  destruct (Htick gone true self' r w' Et) as [_ Hlocked]. destruct (Hlocked eq_refl) as (Hok & _ & Hclosed).
  split; [exact Hok|]. intros socket. apply (Hclosed (Udp peer) socket). left. by left.
Defined.

Lemma dequeues_on_time_witness : exists fuel0, forall fuel_due, (fuel0 <= fuel_due)%nat ->
  match run_turn 2000 fuel_due server0 sfu0 thread0 arrives datagram with
  | Ok (_, _, th, _) => poll_timeout_ms th = 0 \/ poll_timeout_ms th = 25
  | Err _ => True
  | Panic => False
  end.
Proof.
  destruct (dequeues_on_time _ 0%nat thread0 arrives 2000 before_reachable eq_refl) as [fuel0 Hrun].
  - by constructor.
  - unfold enough, MAX_RTP_LENGTH. cbn [stream_bound host_laws]. lia.
  - exists fuel0. intros fuel_due Hd. specialize (Hrun fuel_due Hd). cbn [st_server st_sfu st_world] in Hrun.
    destruct (run_turn _ _ _ _ _ _ _) as [[[[self sfu] th] w]|e|]; [|exact I|exact Hrun].
    destruct Hrun as (s1 & l & _ & [[_ Hz]|(_ & Hw & _)]); [left; exact Hz|right; exact Hw].
Defined.

End PacketServerProperties.
